(* ===== verification/_CoqProject ===== *)
-Q . S2P
Prelude.v
Effects.v
PyStr.v
PyVal.v
Identifiers.v
Uri.v
Namespace.v
NamespaceTheory.v
Acl.v
AclTheory.v
AclStore.v
AclStoreTheory.v
TaskRecord.v
WorkIndex.v
TaskTracker.v
TaskTrackerTheory.v
TaskOutcome.v
TaskErasure.v
TaskStore.v
Tokens.v
Message.v
Retention.v
ActiveBudget.v
ActiveBudgetTheory.v
PyBytes.v
FsAccess.v
FsAccessTheory.v
Base64.v
ApiKeys.v
ApiKeysTheory.v
ApiKeyGroups.v
UriMutation.v
Watch.v
WatchTheory.v
WireJson.v
WatchStorage.v
WatchMove.v
WatchRuns.v
BytesRow.v
BytesRowTheory.v
NamedQueue.v
NamedQueueTheory.v
Assembler.v
AssemblerTheory.v
Ledger.v
CircuitBreaker.v
Encryptor.v
UserDeletion.v
UserDeletionTheory.v
UserDeletionQueue.v
UserDeletionRuns.v
Overview.v
OverviewTheory.v
OverviewCounters.v
MemStore.v
OverviewRuns.v
SessionPolicy.v
SessionMeta.v
SessionPolicyTheory.v
Session.v
SessionFiles.v
SessionArchives.v
SessionFrame.v
SessionTheory.v
SessionDelivery.v
SessionRecovery.v
SessionRuns.v
SessionContext.v
SessionContextTheory.v
SessionCheckpoints.v
SessionContextRuns.v
