(* ===== verification/Prelude.v ===== *)
(** * Verification of the core of OpenViking

    OpenViking is a context database for agents: documents, memories and skills are
    addressed by [viking://] URIs, every request carries an account, a user, a role and
    possibly an acting peer, work is done by background tasks fed from queues, and
    conversations are kept within token budgets.  This library models the parts of the
    Python code that decide who may see what, what a task's state is, what is kept of a
    conversation or shown of a retrieval, and how rows and files are encoded, and proves
    the properties those parts promise.

    ** How the parts interact

    A request authenticates with an API key ([ApiKeys]), which gives it an account, a
    user, a role and groups.  Its identity ([Identifiers]) and URI ([Uri]) are resolved and checked by the
    namespace rules ([Namespace]); resource URIs are then checked against access control
    lists ([Acl]) which the ACL manager ([AclStore]) keeps materialised on the records
    of the vector index.  The file system's access layer ([FsAccess]) composes these
    checks, maps URIs to paths and edits ACLs under path locks.  Resources can be watched
    for changes of their source ([Watch]); a move of a watched resource ([WatchMove])
    takes its watch tasks along under URI leases ([UriMutation]).  Long operations create task records ([TaskRecord]) in the
    tracker ([TaskTracker]), which keeps a cache over a store ([TaskStore]) and an index
    of the queue messages that still work for a task ([WorkIndex]); named queues
    ([NamedQueue]) register, acknowledge and clear those messages, and their handlers
    are throttled by circuit breakers ([CircuitBreaker]).  Removing a user
    ([UserDeletion]) runs through all of these: a fence in the key registry, a task, a
    durable queue message, the user's watches, tasks, files and index rows.  Sessions
    ([Session]) keep a conversation: messages ([Message]), whose cost is estimated
    ([Tokens]), are appended to a live file, and a commit moves the older ones to an
    archive and queues the extraction of memories from it.  Several workers hold objects
    for the same session; an exclusive lock on its path orders what they do, except that a
    session is created without it.  Retention
    ([Retention]) decides where the boundary between archived and live turns lies, and
    the active view ([ActiveBudget]) fits the live messages into a hard budget.  What a
    model is shown of a session ([SessionContext]) is the summary of its newest settled
    archive and all messages after it, in which checkpoints ([SessionCheckpoints]) stand
    for the archived part of a long turn.  Directories, archives among them, carry
    generated overview files ([Overview]) with protected metadata and a counter of the
    changes below them, which decides when they are generated again.  Retrieved context is
    cut to a token budget and rendered ([Assembler]), and a ledger ([Ledger]) keeps it
    from being served again too soon.  The vector store keeps rows in a binary format
    ([BytesRow]), and files may be encrypted in envelopes ([Encryptor]).

    ** Files

    - [PyStr], [PyVal]: Python strings (lists of code points), JSON-like values and
      insertion-ordered dicts, with the standard library functions the code uses.
    - [PyBytes], [Base64]: Python bytes, little-endian integers, UTF-8 and URL-safe
      base64.
    - [Identifiers]: [core/identifiers.py], [core/peer_id.py], [session/user_id.py] of
      [openviking_cli], [server/identity.py].
    - [Uri]: [openviking_cli/utils/uri.py].
    - [Namespace], [NamespaceTheory]: [core/namespace.py].
    - [Acl], [AclTheory]: the pure half of [storage/acl.py].
    - [AclStore], [AclStoreTheory]: [AclManager] of [storage/acl.py], over the class
      [ContextStore] for the vector index ([scroll] of [viking_vector_index_backend.py]
      is modelled on top of it).
    - [FsAccess], [FsAccessTheory]: [storage/viking_fs/_access.py] and
      [resource/watch_storage.py].
    - [ApiKeys], [ApiKeysTheory], [ApiKeyGroups]: [server/api_keys/]: [models.py],
      [legacy.py] and [new.py], over the class [KeyFiles] for the files and their locks.
    - [UriMutation]: [resource/uri_mutation_coordinator.py].
    - [Watch], [WatchTheory], [WatchStorage]: [resource/watch_manager.py], over the
      classes [WatchEnv] for JSON, timestamps and pydantic and [WatchFS] for the files,
      with their laws [WatchEnvOk] and [WatchFSOk].
    - [WatchMove]: the move transaction of [service/fs_service.py].
    - [WireJson], [WatchRuns]: a codec that satisfies the laws of JSON, and the watch
      theorems run on files in memory.
    - [TaskRecord], [TaskTracker], [TaskTrackerTheory], [TaskOutcome], [TaskErasure]:
      [service/task_tracker.py], over the class [TaskStore].
    - [WorkIndex]: [service/task_work_index.py].
    - [TaskStore]: [service/task_store.py], over the class [AGFS] for the file system.
    - [Tokens]: [utils/token_estimation.py].
    - [Message]: [message/part.py] and [message/message.py].
    - [Retention], [ActiveBudget], [ActiveBudgetTheory]: [session/retention.py].
    - [BytesRow], [BytesRowTheory]: [storage/vectordb/store/bytes_row.py].
    - [NamedQueue], [NamedQueueTheory]: [storage/queuefs/named_queue.py] and the consumer
      step of [queue_manager.py], over the class [QueueFS] for the queue file system and
      its laws [QueueFSOk].
    - [UserDeletion], [UserDeletionTheory], [UserDeletionQueue]: [service/user_deletion.py]
      composed of the models of the parts it calls, over the class [Backends] for the
      files, the vector store, the OAuth store and the usage audit; [UserDeletionRuns]
      runs the theorems on stores in memory.
    - [Effects]: exception handlers of stateful code and the program logic the theorems
      on sessions are proved in, with what holds when code returns and when it raises.
    - [Overview]: [storage/abstract_overview.py] and [storage/queuefs/semantic_ops/freshness_policy.py], over
      the classes [OverviewEnv] (YAML, SHA-256, the clock) and [SidecarFS] (files and
      locks); [OverviewTheory]: documents and their metadata; [OverviewCounters]: the
      counters; [MemStore]: a codec that satisfies the laws and files in memory that fail
      where a script says so; [OverviewRuns]: the theorems run on them.
    - [SessionPolicy], [SessionMeta], [SessionPolicyTheory]: [utils/tags.py],
      [session/auto_commit_policy.py], [session/memory_policy.py] and the metadata of
      [session/session.py].
    - [Session]: [session/session.py]: loading, appending, committing, recovering and the
      order of extractions, over the classes [SessionEnv] (JSON and hashing),
      [SessionFS] (files and path locks) and [CommitBackend] (queue and tracker).
    - [SessionFiles]: the laws of these classes, and how message files read back.
    - [SessionArchives]: archive names and numbers, and the search for a free one.
    - [SessionFrame]: which operations leave which files alone.
    - [SessionTheory], [SessionDelivery], [SessionRecovery]: no message is lost, none is
      delivered twice, and an interrupted commit is settled; [SessionRuns] runs the
      theorems on files in memory that fail where a script says so.
    - [SessionContext], [SessionContextTheory]: archive states and the context assembly
      of [session/session.py]; [SessionCheckpoints]: the checkpoints its Phase 2 writes;
      [SessionContextRuns]: the theorems run on files in memory.
    - [Assembler], [AssemblerTheory]: [retrieve/context_assembler/]: [params.py],
      [models.py], [tiers.py], [budget.py] and [render.py].
    - [Ledger]: [retrieve/context_assembler/ledger.py].
    - [CircuitBreaker]: [utils/circuit_breaker.py].
    - [Encryptor]: [crypto/encryptor.py], over the laws [CryptoOk] of the key provider
      and the cipher.

    ** Conventions

    Exceptions are values of [result]; methods that change state are functions in the
    monad [ST], whose state survives a raise.  Code outside the repository (the vector
    index, the file system, JSON printing) is an argument or a class with laws, and
    every law has an instance on which the theorems are run.  Times are integers (a
    float's ordered bit pattern), so that [math.nextafter] is the successor.  Loops that
    are not structural take fuel: the binary searches take the width of the interval,
    the scroll loops more than the number of records; the theorems state that this fuel
    suffices.  A loop that retries when others interfere takes what they do as
    an argument and is shown to end when they stop.  A user deletion runs on its queue's
    one worker: others act on the tracker only while it waits for the user's tasks, and
    the fuel of that wait is the number of polls its timeout allows, after which the code
    raises [TimeoutError] as the model does.  Random draws
    are arguments of the operations that make them, and so are the readings of the clock
    of a session operation.  Operations on a session hold its path lock, so a run of many
    workers is a sequence of them, each on an object of any age and with any outcome;
    creations hold none, and each of their calls is a step of its own.  A write that
    raises or is cancelled has happened or has not, and a listing is complete only if it
    is shorter than the limit of 1000 names.  The steps of queue operations that wait for
    the store interleave ([NamedQueueTheory.queue_step]).  Operations on the key registry
    are taken one at a time; the store may fail and a request may be cancelled at any of
    their saves, except where a theorem says so.  The fuel of the search
    for an archive number is shown to suffice when it exceeds the number of files
    ([SessionArchives.free_number_found]).  Operations of the tracker run under the task's lock in the code and are
    atomic steps here, except where an interleaving is the point
    ([TaskOutcome.auth_publish_overwrites]).

    ** What the theorems show

    API keys: over every sequence of operations, store failures and cancellations, other
    than of [begin_user_deletion] during its save, a key authenticates
    only the user whose stored secret it matches and with that user's role, and while a
    deletion is being saved only as just before it; an issued
    key authenticates its user; rotated and revoked keys are dead; the group index is
    the membership relation.  Identity and URIs: accepted identifiers contain no separators; sanitised segments
    are safe file names; building and parsing URIs, parents and joins agree on segments.
    Namespace: resolution is idempotent, home aliases are eliminated, the access check
    decides a rule on segments, and no user reaches another's tree.  ACLs: normal forms,
    union as a semilattice, grant tokens decide access; resolution and updates of the
    manager refine a map from paths to direct ACLs.  File system: paths stay below the
    account's directory and name resources faithfully, batches decide resources exactly
    by the ACLs on their paths, no request reaches another user's tree, grants and
    revocations are point updates, only managers of a path make them, and they leave no
    path locked.  Watches: over every
    sequence of operations, other than updates that raise half-way, the target index is
    exact and schedules are consistent; a
    save that stops anywhere leaves the old tasks or the new, if the save before it was
    not cut off too; a restart restores the manager; targets follow a moved resource
    under the lease of the move, whatever those do meanwhile who hold their own; mutations of
    URIs are exclusive; foreign tasks are out of reach.  Tasks: over every sequence of
    operations, cache and store agree and tasks move only forward; completion,
    cancellation and the last acknowledgement settle tasks; listings, eviction, ownership
    and exclusivity behave; secrets are redacted.  Sessions: once a session exists, over every sequence of
    appends, commits, recoveries, extractions and updates by any number of workers, with
    failures and cancellations anywhere, no message is lost, and, in a history that one
    listing shows, no message with a key is
    appended twice; a commit that is cut off anywhere is recognised as done or undone by
    whoever meets its archive, on a store whose reads fail for missing files only; the count of pending tokens is the one a recount gives;
    metadata and policies read back as they were written.  The context of a session shows
    every message after its newest settled archive once, on a store that answers, and its
    messages and overview fit the budget; a checkpoint a commit records is the one the context
    shows in place of the messages it covers.  Overviews: a rendered document reads back
    with its metadata and body; public writes cannot change metadata; the changes counted
    below a directory while a summary of it is generated, and no others, are still
    pending once it is written.  Messages round-trip, the
    truncation fits its budget, retention loses nothing and respects or reports its
    budget, and the active view is within budget, keeps steps whole and never drops the
    newest question and answer while they can fit.  Queues: over every interleaving of
    producers, consumers, clears and failures a durable message keeps its work entry,
    unless the write of a failed enqueue reached the store after all; consumers settle
    each message once, whatever the handler does.  User deletion: a user leaves
    the registry only after every cleanup step has succeeded and the user's tasks are
    erased, with nothing left but shared uploads whose metadata could not be read; a failed run keeps the fence and says so in its task; a request that returns
    has a fence, a task and a queued message, which a restart queues again if it is lost.
    Encodings: rows
    round-trip up to the rounding of doubles to single precision, envelopes round-trip, and the envelope parser accepts exactly what the builder
    produces.  Retrieved context: the rendered text fits its budget, shows no body its
    tier does not allow, and bodies cannot forge entries; served context stays cooled.
    The circuit breaker is closed exactly when few failures follow the last success, and
    refuses requests only during its timeout.

    ** Not modelled

    The body of a memory extraction ([_run_memory_extraction], the working-memory
    summaries and training) is driven by a language model; it is an argument of
    [resume_queued_commit] that may write anything but message files.  The
    externalization of large tool outputs is an argument of appends and commits, with the
    law that it rewrites tool parts in place and writes below the session's tool results.
    Documents of overviews given as bytes, and reading a single archive for display, are
    left out.  The round trip of overviews assumes of PyYAML that mappings of single-line
    texts and numbers are printed as lines without a document marker and read back.
    HTTP routing, parsers, model clients, the vector engine, retrieval scoring, metrics
    and the command line: they are input/output, third-party code or driven by model
    output.  The blocking waits and the cleanup timer of the tracker, and the polling
    threads of the queue manager, are scheduling.  Text extraction for overviews, the
    classification of provider errors and the key providers are arguments of the models
    that use them. *)
From Stdlib Require Export Lia ZifyBool ZifyN.
From stdpp Require Export sorting.
From stdpp Require Export base numbers list list_basics strings gmap fin_maps.


(** ** Python exceptions as values *)

(** The exception classes the modelled code raises or catches.  Messages are
    not part of the model. *)
Inductive exn :=
| ValueError
| NamespaceShapeError
| InvalidArgumentError
| RuntimeError
| KeyError
| TypeError
| PermissionDeniedError
| FailedPreconditionError
| NotFoundError
| AlreadyExistsError
| CancelledError
| InvalidMagicError
| CorruptedCiphertextError
| KeyMismatchError
| AuthenticationFailedError
| UnauthenticatedError
| LockAcquisitionError
| ResourceBusyError
| ConflictError
| OverflowError
| TimeoutError
| OutOfFuel
| OtherError.

#[export] Instance exn_eq_dec : EqDecision exn.
Proof. solve_decision. Defined.

(** [NamespaceShapeError] is declared as a subclass of [ValueError]. *)
Definition is_value_error (e : exn) : bool :=
  match e with ValueError | NamespaceShapeError => true | _ => false end.

(** What [except Exception] catches: [asyncio.CancelledError] derives from
    [BaseException] only. *)
Definition is_exception (e : exn) : bool := match e with CancelledError => false | _ => true end.

Inductive result (A : Type) :=
| Ok (a : A)
| Err (e : exn).
Arguments Ok {A} _.
Arguments Err {A} _.

#[export] Instance result_ret : MRet result := fun A a => Ok a.
#[export] Instance result_bind : MBind result := fun A B f m =>
  match m with Ok a => f a | Err e => Err e end.
#[export] Instance result_fmap : FMap result := fun A B f m =>
  match m with Ok a => Ok (f a) | Err e => Err e end.

#[export] Instance result_eq_dec {A} `{EqDecision A} : EqDecision (result A).
Proof. solve_decision. Defined.

Create HintDb dock.

Definition is_ok {A} (r : result A) : bool :=
  match r with Ok _ => true | Err _ => false end.

(** ** State with exceptions *)

(** A method that updates the state [S] and may raise; the state at the raise stays. *)
Definition ST (S A : Type) : Type := S -> result A * S.

#[export] Instance ST_ret {S} : MRet (ST S) := fun A a s => (Ok a, s).
#[export] Instance ST_bind {S} : MBind (ST S) := fun A B f m s =>
  match m s with
  | (Ok a, s') => f a s'
  | (Err e, s') => (Err e, s')
  end.

Definition st_raise {S A} (e : exn) : ST S A := fun s => (Err e, s).
Definition st_lift {S A} (r : result A) : ST S A := fun s => (r, s).
Definition st_gets {S A} (f : S -> A) : ST S A := fun s => (Ok (f s), s).
Definition st_modify {S} (f : S -> S) : ST S unit := fun s => (Ok tt, f s).

(** A step written out on the state. *)
Definition st_of {S A} (f : S -> result A * S) : ST S A := f.

Lemma st_bind_unfold {S A B} (m : ST S A) (f : A -> ST S B) s :
  (m ≫= f) s = match m s with (Ok a, s') => f a s' | (Err e, s') => (Err e, s') end.
Proof. done. Qed.

(** ** Lists *)

Lemma elem_of_concat {A} (x : A) ls : x ∈ concat ls <-> exists l, x ∈ l /\ l ∈ ls.
Proof.
  induction ls as [|l ls IH]; cbn [concat]; [set_solver|]. rewrite elem_of_app, IH. set_solver.
Qed.

Lemma NoDup_concat_eq {A} (ls : list (list A)) x l l' :
  NoDup (concat ls) -> l ∈ ls -> l' ∈ ls -> x ∈ l -> x ∈ l' -> l = l'.
Proof.
  induction ls as [|l0 ls IH]; cbn [concat]; [by intros _ ?%elem_of_nil|].
  intros (H0 & Hd & Hn)%NoDup_app Hl Hl' Hx Hx'.
  assert (forall k, x ∈ l0 -> x ∈ k -> k ∈ ls -> False) as Hno by (intros k Hx0 Hk Hin; eapply Hd; [done|]; apply elem_of_concat; eauto).
  apply elem_of_cons in Hl as [->|Hl], Hl' as [->|Hl']; [done|by exfalso; eauto|by exfalso; eauto|eauto].
Qed.

Lemma elem_of_removelast {A} (x : A) l : x ∈ removelast l -> x ∈ l.
Proof.
  induction l as [|y l IH]; [done|]. destruct l as [|z l]; [by intros ?%elem_of_nil|].
  change (removelast (y :: z :: l)) with (y :: removelast (z :: l)). rewrite !elem_of_cons in *. naive_solver.
Qed.

Lemma omap_ext_in {A B} (f g : A -> option B) (l : list A) : (forall x, x ∈ l -> f x = g x) -> omap f l = omap g l.
Proof.
  induction l as [|x l IH]; intros H; [done|]. cbn [omap list_omap]. rewrite (H x) by by left.
  rewrite IH; [done|]. intros y Hy. apply H. by right.
Qed.

Lemma omap_none {A B} (l : list A) : omap (fun _ => @None B) l = [].
Proof. by induction l. Qed.

Lemma filter_all {A} (P : A -> Prop) `{!forall x, Decision (P x)} (l : list A) : Forall P l -> filter P l = l.
Proof. induction 1 as [|x l Hx _ IH]; [done|]. by rewrite filter_cons_True, IH. Qed.

Lemma concat_snoc {B} (l : list (list B)) x : concat (l ++ [x]) = concat l ++ x.
Proof. rewrite concat_app. cbn. by rewrite app_nil_r. Qed.

Lemma last_removelast {B} (l : list B) x : last l = Some x -> removelast l ++ [x] = l.
Proof. intros (l' & ->)%last_Some. by rewrite removelast_last. Qed.
