(* ===== verification/Effects.v ===== *)
(** Exception handlers of stateful code, and a program logic for them: a specification
    says what holds of the state when the code returns and when it raises, so that what
    holds of the state at every raise is also what an interruption leaves behind. *)
From S2P Require Import Prelude.

Lemma result_bind_ok {A B} (m : result A) (f : A -> result B) b : m ≫= f = Ok b -> exists a, m = Ok a /\ f a = Ok b.
Proof. destruct m as [a|]; [|done]. by exists a. Qed.

Lemma result_bind_intro {A B} (m : result A) (f : A -> result B) a r : m = Ok a -> f a = r -> m ≫= f = r.
Proof. by intros -> <-. Qed.

(** [try: body except ...: handler], for the exceptions that are caught. *)
Definition st_catch {S A} (caught : exn -> bool) (body : ST S A) (handler : exn -> ST S A) : ST S A := fun s =>
  match body s with
  | (Err e, s) => if caught e then handler e s else (Err e, s)
  | r => r
  end.

(** [try: body finally: cleanup]; a cleanup that raises replaces the outcome. *)
Definition st_finally {S A} (body : ST S A) (cleanup : ST S unit) : ST S A := fun s =>
  let '(r, s) := body s in
  match cleanup s with
  | (Ok _, s) => (r, s)
  | (Err e, s) => (Err e, s)
  end.

(** [{P} m {Q} {E}]. *)
Definition spec {S A} (P : S -> Prop) (m : ST S A) (Q : A -> S -> Prop) (E : exn -> S -> Prop) : Prop :=
  forall s, P s -> match m s with (Ok a, s') => Q a s' | (Err e, s') => E e s' end.

(** The state keeps [P] whatever happens. *)
Definition keeps {S A} (P : S -> Prop) (m : ST S A) : Prop := spec P m (fun _ => P) (fun _ => P).

Section rules.
Context {S A B : Type}.
Implicit Types (P : S -> Prop) (E : exn -> S -> Prop).

Lemma spec_ret P (a : A) (Q : A -> S -> Prop) E : (forall s, P s -> Q a s) -> spec P (mret a) Q E.
Proof. intros H s HP. by apply H. Qed.

Lemma spec_raise P e (Q : A -> S -> Prop) E : (forall s, P s -> E e s) -> spec P (st_raise e) Q E.
Proof. intros H s HP. by apply H. Qed.

Lemma spec_bind P (m : ST S A) (f : A -> ST S B) (R : A -> S -> Prop) (Q : B -> S -> Prop) E :
  spec P m R E -> (forall a, spec (R a) (f a) Q E) -> spec P (m ≫= f) Q E.
Proof.
  intros Hm Hf s HP. rewrite st_bind_unfold. specialize (Hm s HP). destruct (m s) as [[a|e] s']; [|done]. by apply Hf.
Qed.

Lemma spec_conseq P P' (m : ST S A) (Q Q' : A -> S -> Prop) E E' :
  spec P' m Q' E' -> (forall s, P s -> P' s) -> (forall a s, Q' a s -> Q a s) -> (forall e s, E' e s -> E e s) -> spec P m Q E.
Proof.
  intros H HP HQ HE s Hs. specialize (H s (HP s Hs)). destruct (m s) as [[a|e] s']; auto.
Qed.

Lemma spec_catch P caught (m : ST S A) h (Q : A -> S -> Prop) E1 E :
  spec P m Q E1 -> (forall e, caught e = true -> spec (E1 e) (h e) Q E) -> (forall e s, caught e = false -> E1 e s -> E e s) ->
  spec P (st_catch caught m h) Q E.
Proof.
  intros Hm Hh HE s HP. unfold st_catch. specialize (Hm s HP). destruct (m s) as [[a|e] s']; [done|].
  destruct (caught e) eqn:C; [by apply Hh|by apply HE].
Qed.

Lemma spec_finally P (m : ST S A) (c : ST S unit) (Q : A -> S -> Prop) E :
  spec P m Q E -> (forall a, spec (Q a) c (fun _ => Q a) E) -> (forall e, spec (E e) c (fun _ => E e) E) ->
  spec P (st_finally m c) Q E.
Proof.
  intros Hm HQ HE s HP. unfold st_finally. specialize (Hm s HP). destruct (m s) as [[a|e] s'].
  - specialize (HQ a s' Hm). by destruct (c s') as [[?|?] ?].
  - specialize (HE e s' Hm). by destruct (c s') as [[?|?] ?].
Qed.

Lemma spec_pre P P' (m : ST S A) (Q : A -> S -> Prop) E : spec P' m Q E -> (forall s, P s -> P' s) -> spec P m Q E.
Proof. intros H HP s Hs. by apply H, HP. Qed.

(** A pure fact about the state at the start may be assumed. *)
Lemma spec_assume P (m : ST S A) (Q : A -> S -> Prop) E : (forall s, P s -> spec (fun s' => s' = s) m Q E) -> spec P m Q E.
Proof. intros H s HP. by apply (H s HP). Qed.

Lemma spec_and P (m : ST S A) (Q Q' : A -> S -> Prop) E E' :
  spec P m Q E -> spec P m Q' E' -> spec P m (fun a s => Q a s /\ Q' a s) (fun e s => E e s /\ E' e s).
Proof. intros H1 H2 s HP. specialize (H1 s HP). specialize (H2 s HP). by destruct (m s) as [[?|?] ?]. Qed.

Lemma spec_lift P (r : result A) (Q : A -> S -> Prop) E :
  (forall a s, r = Ok a -> P s -> Q a s) -> (forall e s, r = Err e -> P s -> E e s) -> spec P (st_lift r) Q E.
Proof. intros HQ HE s HP. unfold st_lift. destruct r; auto. Qed.

Lemma spec_gets P (f : S -> A) (Q : A -> S -> Prop) E : (forall s, P s -> Q (f s) s) -> spec P (st_gets f) Q E.
Proof. intros H s HP. by apply H. Qed.

Lemma spec_modify P (f : S -> S) (Q : unit -> S -> Prop) E : (forall s, P s -> Q tt (f s)) -> spec P (st_modify f) Q E.
Proof. intros H s HP. by apply H. Qed.

Lemma spec_of (P : S -> Prop) (m : ST S A) (Q : A -> S -> Prop) E : spec P m Q E -> spec P (st_of m) Q E.
Proof. done. Qed.
End rules.

(** A fact that is not about the state survives. *)
Lemma spec_pure {S A} (phi : Prop) (m : ST S A) : spec (fun _ => phi) m (fun _ _ => phi) (fun _ _ => True).
Proof. intros s H. by destruct (m s) as [[?|?] ?]. Qed.

(** What a returned run satisfies. *)
Lemma spec_ok {S A} (P : S -> Prop) (m : ST S A) (Q : A -> S -> Prop) (E : exn -> S -> Prop) s a s' :
  spec P m Q E -> P s -> m s = (Ok a, s') -> Q a s'.
Proof. intros H HP Hm. specialize (H s HP). by rewrite Hm in H. Qed.

Lemma keeps_any {S A} (P : S -> Prop) (m : ST S A) s r s' : keeps P m -> P s -> m s = (r, s') -> P s'.
Proof. intros H HP Hm. specialize (H s HP). rewrite Hm in H. by destruct r. Qed.
