(* ===== verification/PyStr.v ===== *)
(** Python [str] values and the methods the modelled code calls on them.

    A Python string is the list of its code points ([pystr]).  [u] reads a
    source literal (UTF-8) into a [pystr].  The methods are written out from the
    language's documentation: [split], [partition], [join], [strip] and its one
    sided forms, [startswith], [count], slicing by [take]/[drop], and the code
    point order used by [sorted]. *)
From Stdlib Require Import Ascii NArith.
From S2P Require Import Prelude.

Open Scope N_scope.

Abbreviation pystr := (list N).

(** ** Literals *)

Fixpoint u (s : string) : pystr :=
  match s with
  | EmptyString => []
  | String a r =>
      let b := N_of_ascii a in
      if b <? 128 then b :: u r
      else if b <? 224 then
        match r with
        | String a1 r1 => ((b mod 32) * 64 + N_of_ascii a1 mod 64) :: u r1
        | _ => []
        end
      else if b <? 240 then
        match r with
        | String a1 (String a2 r2) =>
            ((b mod 16) * 4096 + (N_of_ascii a1 mod 64) * 64 + N_of_ascii a2 mod 64) :: u r2
        | _ => []
        end
      else
        match r with
        | String a1 (String a2 (String a3 r3)) =>
            ((b mod 8) * 262144 + (N_of_ascii a1 mod 64) * 4096
             + (N_of_ascii a2 mod 64) * 64 + N_of_ascii a3 mod 64) :: u r3
        | _ => []
        end
  end.
#[global] Opaque u.

Definition c_nl : N := 10.
Definition c_star : N := 42.
Definition c_minus : N := 45.
Definition c_dot : N := 46.
Definition c_slash : N := 47.
Definition c_colon : N := 58.
Definition c_quest : N := 63.
Definition c_at : N := 64.
Definition c_under : N := 95.

(** ** Methods *)

Definition seqb (a b : pystr) : bool := bool_decide (a = b).

Definition nonempty (s : pystr) : bool :=
  match s with [] => false | _ => true end.

Fixpoint startswith (p s : pystr) : bool :=
  match p, s with
  | [], _ => true
  | x :: p', y :: s' => (x =? y) && startswith p' s'
  | _ :: _, [] => false
  end.

(** [s.split(c)] for a one character separator. *)
Fixpoint split (c : N) (s : pystr) : list pystr :=
  match s with
  | [] => [[]]
  | x :: r =>
      if x =? c then [] :: split c r
      else match split c r with
           | [] => [[x]]
           | h :: t => (x :: h) :: t
           end
  end.

(** [s.split(c, 1)[0]]: everything before the first [c]. *)
Fixpoint before (c : N) (s : pystr) : pystr :=
  match s with
  | [] => []
  | x :: r => if x =? c then [] else x :: before c r
  end.

(** [s.partition(c)]: head, whether [c] occurs, tail. *)
Fixpoint partition (c : N) (s : pystr) : pystr * bool * pystr :=
  match s with
  | [] => ([], false, [])
  | x :: r =>
      if x =? c then ([], true, r)
      else let '(h, f, t) := partition c r in (x :: h, f, t)
  end.

Fixpoint join (sep : pystr) (l : list pystr) : pystr :=
  match l with
  | [] => []
  | x :: r => match r with [] => x | _ => x ++ sep ++ join sep r end
  end.

Definition path_join (l : list pystr) : pystr := join [c_slash] l.

Fixpoint lstrip (p : N -> bool) (s : pystr) : pystr :=
  match s with
  | [] => []
  | x :: r => if p x then lstrip p r else s
  end.

Definition rstrip (p : N -> bool) (s : pystr) : pystr := reverse (lstrip p (reverse s)).
Definition strip (p : N -> bool) (s : pystr) : pystr := rstrip p (lstrip p s).

Definition is_slash (x : N) : bool := x =? c_slash.

(** The characters for which [str.isspace] holds, which [str.strip()] removes. *)
Definition is_space (x : N) : bool :=
  ((9 <=? x) && (x <=? 13)) || ((28 <=? x) && (x <=? 32)) || (x =? 133) || (x =? 160)
  || (x =? 5760) || ((8192 <=? x) && (x <=? 8202)) || (x =? 8232) || (x =? 8233)
  || (x =? 8239) || (x =? 8287) || (x =? 12288).

(** Letters equal to an ASCII lower-case letter when case is ignored: the Kelvin sign
    is a [k], the long s an [s]. *)
Definition fold_case (c : N) : N :=
  if (65 <=? c) && (c <=? 90) then c + 32
  else if c =? 8490 then 107 else if c =? 383 then 115 else c.

(** The text after a literal [p], case ignored. *)
Fixpoint after_literal (p s : pystr) : option pystr :=
  match p, s with
  | [], _ => Some s
  | c :: p', x :: s' => if fold_case x =? c then after_literal p' s' else None
  | _, [] => None
  end.

Definition count (c : N) (s : pystr) : nat := length (filter (fun x => x = c) s).

Definition mem (s : pystr) (l : list pystr) : bool := bool_decide (s ∈ l).

(** ** Code point order *)

Fixpoint str_leb (a b : pystr) : bool :=
  match a, b with
  | [], _ => true
  | _ :: _, [] => false
  | x :: a', y :: b' => (x <? y) || ((x =? y) && str_leb a' b')
  end.

Definition str_le (a b : pystr) : Prop := Is_true (str_leb a b).

#[export] Instance str_le_dec : RelDecision str_le.
Proof. intros a b. unfold str_le. apply _. Defined.

Definition sorted_strs (l : list pystr) : list pystr := merge_sort str_le l.

(** ** Facts *)

Lemma str_leb_refl a : str_leb a a = true.
Proof. induction a as [|x a IH]; simpl; [done|]. rewrite N.eqb_refl, IH. by rewrite orb_true_r. Qed.

Lemma str_leb_trans a b c : str_leb a b = true -> str_leb b c = true -> str_leb a c = true.
Proof.
  revert b c. induction a as [|x a IH]; intros [|y b] [|z c]; simpl; try done.
  rewrite !orb_true_iff, !andb_true_iff, !N.ltb_lt, !N.eqb_eq.
  intros [?|[-> ?]] [?|[-> ?]]; [left; lia|left; lia|left; lia|right; eauto].
Qed.

Lemma str_leb_antisym a b : str_leb a b = true -> str_leb b a = true -> a = b.
Proof.
  revert b. induction a as [|x a IH]; intros [|y b]; simpl; try done.
  rewrite !orb_true_iff, !andb_true_iff, !N.ltb_lt, !N.eqb_eq.
  intros [?|[-> ?]] [?|[? ?]]; try lia. f_equal; eauto.
Qed.

Lemma str_leb_total a b : str_leb a b = true \/ str_leb b a = true.
Proof.
  revert b. induction a as [|x a IH]; intros [|y b]; simpl; auto.
  rewrite !orb_true_iff, !andb_true_iff, !N.ltb_lt, !N.eqb_eq.
  destruct (N.lt_trichotomy x y) as [?|[->|?]]; auto.
  destruct (IH b); auto.
Qed.

#[export] Instance str_le_po : PartialOrder str_le.
Proof.
  unfold str_le. split; [split|].
  - intros a. by rewrite str_leb_refl.
  - intros a b c ?%Is_true_true ?%Is_true_true. apply Is_true_true. eauto using str_leb_trans.
  - intros a b ?%Is_true_true ?%Is_true_true. eauto using str_leb_antisym.
Qed.

#[export] Instance str_le_total : Total str_le.
Proof.
  intros a b. unfold str_le. destruct (str_leb_total a b) as [->| ->]; simpl; auto.
Qed.

Lemma sorted_strs_perm l : sorted_strs l ≡ₚ l.
Proof. apply merge_sort_Permutation. Qed.

Lemma sorted_strs_sorted l : StronglySorted str_le (sorted_strs l).
Proof. apply StronglySorted_merge_sort; apply _. Qed.

Lemma sorted_strs_unique l1 l2 : l1 ≡ₚ l2 -> sorted_strs l1 = sorted_strs l2.
Proof.
  intros H. eapply (StronglySorted_unique str_le); eauto using sorted_strs_sorted.
  by rewrite !sorted_strs_perm.
Qed.

Lemma nonempty_true s : nonempty s = true <-> s <> [].
Proof. by destruct s. Qed.

Lemma nonempty_false s : nonempty s = false <-> s = [].
Proof. by destruct s. Qed.

Lemma seqb_true a b : seqb a b = true <-> a = b.
Proof. unfold seqb. apply bool_decide_eq_true. Qed.

Lemma seqb_false a b : seqb a b = false <-> a <> b.
Proof. unfold seqb. apply bool_decide_eq_false. Qed.

Lemma startswith_app p s : startswith p (p ++ s) = true.
Proof. induction p as [|x p IH]; simpl; [done|]. by rewrite N.eqb_refl. Qed.

Lemma startswith_inv p s : startswith p s = true -> s = p ++ drop (length p) s.
Proof.
  revert s. induction p as [|x p IH]; intros [|y s]; simpl; try done.
  rewrite andb_true_iff, N.eqb_eq. intros [-> H]. f_equal; auto.
Qed.

Lemma startswith_iff p s : startswith p s = true <-> p `prefix_of` s.
Proof.
  split.
  - intros H%startswith_inv. rewrite H. by eexists.
  - intros [k ->]. apply startswith_app.
Qed.

(** *** [split] and [join] *)

Lemma split_not_nil c s : split c s <> [].
Proof. destruct s as [|x s]; simpl; [done|]. destruct (x =? c); [done|]. by destruct (split c s). Qed.

Lemma split_no_sep c s : c ∉ s -> split c s = [s].
Proof.
  induction s as [|x s IH]; simpl; [done|]. intros [Hx Hs]%not_elem_of_cons.
  destruct (N.eqb_spec x c); [congruence|]. by rewrite IH.
Qed.

Lemma split_app_sep c a b : c ∉ a -> split c (a ++ c :: b) = a :: split c b.
Proof.
  induction a as [|x a IH]; simpl; [by rewrite N.eqb_refl|].
  intros [Hx Hs]%not_elem_of_cons.
  destruct (N.eqb_spec x c); [congruence|]. by rewrite IH.
Qed.

Lemma split_pieces c s : Forall (fun p => c ∉ p) (split c s).
Proof.
  induction s as [|x s IH]; simpl; [constructor; [set_solver|done]|].
  destruct (N.eqb_spec x c) as [->|Hne]; [constructor; [set_solver|done]|].
  destruct (split c s) as [|h t]; [constructor; set_solver|].
  inversion IH; subst. constructor; [set_solver|done].
Qed.

Lemma join_cons sep x l : l <> [] -> join sep (x :: l) = x ++ sep ++ join sep l.
Proof. by destruct l. Qed.

Lemma join_split c s : join [c] (split c s) = s.
Proof.
  induction s as [|x s IH]; simpl; [done|].
  destruct (N.eqb_spec x c) as [->|Hne].
  - rewrite join_cons by apply split_not_nil. simpl. by rewrite IH.
  - destruct (split c s) as [|h t] eqn:E; [by apply split_not_nil in E|].
    destruct t; simpl in *; by rewrite IH.
Qed.

Lemma split_join c l :
  l <> [] -> Forall (fun p => c ∉ p) l -> split c (join [c] l) = l.
Proof.
  intros Hne Hl. induction Hl as [|x l Hx Hl IH]; [done|].
  destruct l as [|y l].
  - simpl. by apply split_no_sep.
  - rewrite join_cons by done. cbn [app]. rewrite split_app_sep by done.
    by rewrite IH.
Qed.

Lemma join_app sep l1 l2 :
  l1 <> [] -> l2 <> [] -> join sep (l1 ++ l2) = join sep l1 ++ sep ++ join sep l2.
Proof.
  induction l1 as [|x l1 IH]; intros H1 H2; [done|].
  destruct l1 as [|y l1].
  - cbn [app]. by rewrite join_cons.
  - rewrite <- app_comm_cons, (join_cons _ x (y :: l1)) by done.
    rewrite join_cons by (by destruct l2).
    rewrite IH by done. by rewrite <- !app_assoc.
Qed.

Lemma join_nonempty sep l : Forall (fun p => p <> []) l -> l <> [] -> join sep l <> [].
Proof.
  intros Hl Hne. destruct l as [|x l]; [done|]. inversion Hl as [|?? Hx]; subst.
  destruct l; [done|]. rewrite join_cons by done. by destruct x.
Qed.

Lemma partition_spec c s h f t :
  partition c s = (h, f, t) ->
  c ∉ h /\ (if f then s = h ++ c :: t else s = h /\ t = []).
Proof.
  revert h f t. induction s as [|x s IH]; simpl; intros h f t H.
  - simplify_eq. split; [set_solver|done].
  - destruct (N.eqb_spec x c) as [->|Hne].
    + simplify_eq. split; [set_solver|done].
    + destruct (partition c s) as [[h' f'] t'] eqn:E. simplify_eq.
      destruct (IH _ _ _ eq_refl) as [Hh Hs]. split; [set_solver|].
      destruct f; [by rewrite Hs|]. destruct Hs as [-> ->]. done.
Qed.

Lemma partition_app c h t : c ∉ h -> partition c (h ++ c :: t) = (h, true, t).
Proof.
  induction h as [|x h IH]; simpl; [by rewrite N.eqb_refl|].
  intros [Hx Hh]%not_elem_of_cons.
  destruct (N.eqb_spec x c); [congruence|]. by rewrite IH.
Qed.

Lemma before_notin c s : c ∉ s -> before c s = s.
Proof.
  induction s as [|x s IH]; simpl; [done|]. intros [Hx Hs]%not_elem_of_cons.
  destruct (N.eqb_spec x c); [congruence|]. by rewrite IH.
Qed.

Lemma before_clean c s : c ∉ before c s.
Proof.
  induction s as [|x s IH]; simpl; [set_solver|].
  destruct (N.eqb_spec x c); set_solver.
Qed.

Lemma before_prefix c s : before c s `prefix_of` s.
Proof.
  induction s as [|x s IH]; simpl; [by apply prefix_nil|].
  destruct (x =? c); [apply prefix_nil|]. by apply prefix_cons.
Qed.

(** *** Stripping *)

Lemma lstrip_suffix p s : lstrip p s `suffix_of` s.
Proof.
  induction s as [|x s IH]; simpl; [done|].
  destruct (p x); [by apply suffix_cons_r|done].
Qed.

Lemma lstrip_decomp p s : exists k, s = k ++ lstrip p s /\ Forall (fun x => p x = true) k.
Proof.
  induction s as [|x s IH]; simpl; [by exists []|].
  destruct (p x) eqn:E.
  - destruct IH as (k & Hk & Hf). exists (x :: k). split; [by rewrite Hk at 1|by constructor].
  - by exists [].
Qed.

Lemma lstrip_head p s x r : lstrip p s = x :: r -> p x = false.
Proof.
  induction s as [|y s IH]; simpl; [done|].
  destruct (p y) eqn:E; [done|]. intros; by simplify_eq.
Qed.

Lemma rstrip_decomp p s : exists k, s = rstrip p s ++ k /\ Forall (fun x => p x = true) k.
Proof.
  destruct (lstrip_decomp p (reverse s)) as (k & Hk & Hf).
  exists (reverse k). split; [|by apply Forall_reverse].
  unfold rstrip. rewrite <- reverse_app, <- Hk. by rewrite reverse_involutive.
Qed.

Lemma rstrip_last p s x : last (rstrip p s) = Some x -> p x = false.
Proof.
  unfold rstrip. rewrite last_reverse. intros H.
  destruct (lstrip p (reverse s)) as [|y r] eqn:E; [done|].
  simpl in H. simplify_eq. eapply lstrip_head, E.
Qed.

Lemma rstrip_id p s x : last s = Some x -> p x = false -> rstrip p s = s.
Proof.
  unfold rstrip. rewrite <- (reverse_involutive s) at 1. rewrite last_reverse.
  destruct (reverse s) as [|y r] eqn:E; [done|]. simpl. intros [= ->] ->.
  by rewrite <- E, reverse_involutive.
Qed.

Lemma rstrip_idemp p s : rstrip p (rstrip p s) = rstrip p s.
Proof.
  destruct (rstrip p s) as [|y r] eqn:E; [done|].
  destruct (last (y :: r)) as [x|] eqn:L; [|by apply last_None in L].
  eapply rstrip_id; [done|]. rewrite <- E in L. eapply rstrip_last, L.
Qed.

Lemma rstrip_nil p : rstrip p [] = [].
Proof. done. Qed.

Lemma rstrip_all p s : Forall (fun x => p x = true) s -> rstrip p s = [].
Proof.
  intros H. unfold rstrip.
  assert (Forall (fun x => p x = true) (reverse s)) as H' by by apply Forall_reverse.
  clear H. induction H' as [|x r Hx Hr IH]; [done|]. simpl. by rewrite Hx.
Qed.

Lemma rstrip_app p a b : rstrip p b <> [] -> rstrip p (a ++ b) = a ++ rstrip p b.
Proof.
  unfold rstrip. rewrite reverse_app. intros H.
  assert (Hl : lstrip p (reverse b ++ reverse a) = lstrip p (reverse b) ++ reverse a).
  { destruct (lstrip_decomp p (reverse b)) as (k & Hk & Hf).
    destruct (lstrip p (reverse b)) as [|y r] eqn:E; [done|].
    assert (p y = false) as Hy by (eapply lstrip_head, E).
    rewrite Hk. clear -Hf Hy. induction Hf as [|x k Hx _ IH]; simpl; [by rewrite Hy|].
    by rewrite Hx. }
  by rewrite Hl, reverse_app, reverse_involutive.
Qed.

Lemma strip_sub p s x : x ∈ strip p s -> x ∈ s.
Proof.
  unfold strip. intros H.
  destruct (rstrip_decomp p (lstrip p s)) as (k & Hk & _).
  destruct (lstrip_decomp p s) as (k' & Hk' & _).
  rewrite Hk', Hk. set_solver.
Qed.

Lemma strip_clean p s : Forall (fun x => p x = false) s -> strip p s = s.
Proof.
  intros H. unfold strip.
  assert (lstrip p s = s) as ->.
  { destruct H as [|x r Hx Hr]; simpl; [done|]. by rewrite Hx. }
  destruct (last s) as [x|] eqn:L; [|by apply last_None in L as ->].
  eapply rstrip_id; [done|].
  rewrite Forall_forall in H. apply H. by apply last_Some_elem_of.
Qed.

Lemma strip_idemp p s : strip p (strip p s) = strip p s.
Proof.
  unfold strip at 1.
  assert (lstrip p (strip p s) = strip p s) as ->.
  { unfold strip. destruct (rstrip_decomp p (lstrip p s)) as (k & Hk & _).
    destruct (rstrip p (lstrip p s)) as [|y r] eqn:E; [done|]. simpl.
    assert (p y = false) as ->; [|done].
    destruct (lstrip p s) as [|z t] eqn:E2; [done|].
    simpl in Hk. simplify_eq. eapply lstrip_head, E2. }
  unfold strip. apply rstrip_idemp.
Qed.

Lemma strip_ends p (x y : N) body : p x = false -> p y = false -> strip p (x :: body ++ [y]) = x :: body ++ [y].
Proof.
  intros Hx Hy. unfold strip. cbn [lstrip]. rewrite Hx. apply (rstrip_id p _ y); [|done]. by rewrite app_comm_cons, last_snoc.
Qed.

Lemma rstrip_snoc p (s : pystr) x : p x = true -> rstrip p (s ++ [x]) = rstrip p s.
Proof. intros H. unfold rstrip. rewrite reverse_snoc. cbn [lstrip]. by rewrite H. Qed.

(** Closed decidable goals, by evaluation. *)
Ltac decided := apply (bool_decide_unpack _); by vm_compute.

(** Comparisons of literals, by evaluation. *)
Ltac eval_seqb :=
  repeat match goal with
    | |- context [seqb ?a ?b] => let r := eval vm_compute in (seqb a b) in
        match r with true => idtac | false => idtac end; change (seqb a b) with r; cbn match
    end.
