(* ===== verification/PyVal.v ===== *)
(** Dynamic Python values and insertion-ordered dicts with string keys. *)
From Stdlib Require Import NArith ZArith.
From S2P Require Import Prelude PyStr.

Open Scope N_scope.

(** ** Dynamic values *)

(** The values a JSON document can hold.  A finite double is given by the integer
    multiple of the least positive double that it is. *)
Inductive pyval :=
| VNone
| VBool (b : bool)
| VInt (z : Z)
| VFloat (z : Z)
| VStr (s : pystr)
| VList (l : list pyval)
| VDict (l : list (pystr * pyval)).

(** A dict with string keys, as the list of its items in insertion order. *)
Abbreviation pydict := (list (pystr * pyval)).

Definition py_truthy (v : pyval) : bool :=
  match v with
  | VNone => false
  | VBool b => b
  | VInt z => negb (Z.eqb z 0)
  | VFloat z => negb (Z.eqb z 0)
  | VStr s => nonempty s
  | VList l => match l with [] => false | _ => true end
  | VDict l => match l with [] => false | _ => true end
  end.

(** [int(s)] for a decimal literal in ASCII: surrounding white space, a sign, and
    digits separated by single underscores.  Other scripts' digits are left out;
    [_decode_grant] compares the token with its re-encoding afterwards and so
    rejects them in either case. *)
Fixpoint py_digits (s : pystr) (acc : Z) (after_digit : bool) : option Z :=
  match s with
  | [] => if after_digit then Some acc else None
  | c :: r =>
      if (48 <=? c) && (c <=? 57) then py_digits r (acc * 10 + Z.of_N (c - 48))%Z true
      else if (c =? c_under) && after_digit then py_digits r acc false
      else None
  end.

Definition py_int (s : pystr) : option Z :=
  match strip is_space s with
  | c :: r => if c =? c_minus then Z.opp <$> py_digits r 0 false
              else if c =? 43 then py_digits r 0 false
              else py_digits (c :: r) 0 false
  | [] => None
  end.

(** The decimal digits of a number: [str(n)]. *)
Fixpoint of_uint (d : Decimal.uint) : pystr :=
  match d with
  | Decimal.Nil => []
  | Decimal.D0 d => 48 :: of_uint d | Decimal.D1 d => 49 :: of_uint d | Decimal.D2 d => 50 :: of_uint d
  | Decimal.D3 d => 51 :: of_uint d | Decimal.D4 d => 52 :: of_uint d | Decimal.D5 d => 53 :: of_uint d
  | Decimal.D6 d => 54 :: of_uint d | Decimal.D7 d => 55 :: of_uint d | Decimal.D8 d => 56 :: of_uint d
  | Decimal.D9 d => 57 :: of_uint d
  end.

Definition decimal (n : N) : pystr := of_uint (N.to_uint n).

(** ** Dicts *)

Fixpoint dict_get {A} (d : list (pystr * A)) (k : pystr) : option A :=
  match d with
  | [] => None
  | (k', v) :: d' => if seqb k' k then Some v else dict_get d' k
  end.

(** [d[k] = v]: an existing key keeps its place. *)
Fixpoint dict_set {A} (d : list (pystr * A)) (k : pystr) (v : A) : list (pystr * A) :=
  match d with
  | [] => [(k, v)]
  | (k', v') :: d' => if seqb k' k then (k, v) :: d' else (k', v') :: dict_set d' k v
  end.

(** [d.pop(k, None)]. *)
Fixpoint dict_pop {A} (d : list (pystr * A)) (k : pystr) : list (pystr * A) :=
  match d with
  | [] => []
  | (k', v') :: d' => if seqb k' k then d' else (k', v') :: dict_pop d' k
  end.

(** [d.setdefault(k, v)]. *)
Definition dict_setdefault {A} (d : list (pystr * A)) (k : pystr) (v : A) : list (pystr * A) :=
  match dict_get d k with Some _ => d | None => d ++ [(k, v)] end.

(** [{uri: f(items) for uri, items in groups.items()}], failing at the first failure. *)
Fixpoint dict_map {A B} (f : A -> result B) (d : list (pystr * A)) : result (list (pystr * B)) :=
  match d with
  | [] => Ok []
  | (k, v) :: d' => w ← f v; ws ← dict_map f d'; Ok ((k, w) :: ws)
  end.

(** ** Lemmas *)

Lemma of_uint_digits d : Forall (fun c => 48 <= c <= 57) (of_uint d).
Proof. induction d; cbn [of_uint]; constructor; auto; lia. Qed.

Lemma dict_get_app {A} (d1 d2 : list (pystr * A)) k :
  dict_get (d1 ++ d2) k = match dict_get d1 k with Some v => Some v | None => dict_get d2 k end.
Proof. induction d1 as [|[k' v] d1 IH]; simpl; [done|]. by destruct (seqb k' k). Qed.

Lemma dict_get_elem {A} (d : list (pystr * A)) k v : dict_get d k = Some v -> (k, v) ∈ d.
Proof.
  induction d as [|[k' v'] d IH]; simpl; [done|].
  destruct (seqb k' k) eqn:E; [|intros; right; auto].
  apply seqb_true in E as ->. intros [= ->]. left.
Qed.

Lemma dict_get_None {A} (d : list (pystr * A)) k : dict_get d k = None <-> k ∉ (fst <$> d).
Proof.
  induction d as [|[k' v'] d IH]; simpl; [split; [set_solver|done]|].
  destruct (seqb k' k) eqn:E.
  - apply seqb_true in E as ->. split; [done|]. intros H. exfalso. apply H. left.
  - apply seqb_false in E. rewrite IH. split; [|intros H Hk; apply H; by right].
    intros H Hk. apply elem_of_cons in Hk as [Hk|Hk]; [by subst|done].
Qed.

Lemma dict_map_get {A B} (f : A -> result B) d d' k :
  dict_map f d = Ok d' ->
  match dict_get d k with
  | Some v => exists w, f v = Ok w /\ dict_get d' k = Some w
  | None => dict_get d' k = None
  end.
Proof.
  revert d'. induction d as [|[k' v] d IH]; simpl; intros d' H; [by simplify_eq|].
  destruct (f v) as [w|] eqn:Hf; [|done]. simpl in H.
  destruct (dict_map f d) as [ws|]; [|done]. injection H as <-. simpl.
  destruct (seqb k' k); [eauto|]. by apply IH.
Qed.

Lemma dict_map_ok {A B} (f : A -> result B) d :
  (forall k v, (k, v) ∈ d -> exists w, f v = Ok w) -> exists d', dict_map f d = Ok d' /\ fst <$> d' = fst <$> d.
Proof.
  induction d as [|[k v] d IH]; intros H; [by exists []|].
  destruct (H k v) as [w Hw]; [left|]. destruct IH as (d' & Hd & Hk).
  { intros k' v' Hin. apply (H k'). by right. }
  exists ((k, w) :: d'). simpl. rewrite Hw. simpl. rewrite Hd. split; [done|]. simpl. by f_equal.
Qed.

Lemma dict_get_in {A} (d : list (pystr * A)) k v :
  NoDup (fst <$> d) -> (k, v) ∈ d -> dict_get d k = Some v.
Proof.
  induction d as [|[k' v'] d IH]; intros Hnd Hin; [set_solver|]. cbn in Hnd |- *.
  apply NoDup_cons in Hnd as [Hk Hnd]. apply elem_of_cons in Hin as [[= <- <-]|Hin].
  - by rewrite (proj2 (seqb_true k k) eq_refl).
  - rewrite (proj2 (seqb_false k' k)); [by apply IH|]. intros ->. apply Hk.
    apply list_elem_of_fmap. by exists (k, v).
Qed.

Lemma dict_set_get {A} (d : list (pystr * A)) k v k' :
  dict_get (dict_set d k v) k' = if seqb k k' then Some v else dict_get d k'.
Proof.
  induction d as [|[k0 v0] d IH]; cbn; [done|].
  destruct (seqb k0 k) eqn:E; cbn.
  - apply seqb_true in E as ->. by destruct (seqb k k').
  - rewrite IH. destruct (seqb k0 k') eqn:E1; [|done].
    apply seqb_true in E1 as ->. destruct (seqb k k') eqn:E2; [|done].
    apply seqb_true in E2 as ->. by rewrite (proj2 (seqb_true _ _) eq_refl) in E.
Qed.

Lemma dict_set_keys {A} (d : list (pystr * A)) k v x :
  x ∈ (fst <$> dict_set d k v) <-> x = k \/ x ∈ (fst <$> d).
Proof.
  induction d as [|[k0 v0] d IH]; cbn; [set_solver|].
  destruct (seqb k0 k) eqn:E; cbn.
  - apply seqb_true in E as ->. set_solver.
  - rewrite !elem_of_cons, IH. tauto.
Qed.

Lemma dict_set_nodup {A} (d : list (pystr * A)) k v :
  NoDup (fst <$> d) -> NoDup (fst <$> dict_set d k v).
Proof.
  induction d as [|[k0 v0] d IH]; cbn; intros Hnd; [apply NoDup_singleton|].
  apply NoDup_cons in Hnd as [Hk Hnd]. destruct (seqb k0 k) eqn:E; cbn.
  - apply seqb_true in E as ->. by apply NoDup_cons.
  - apply NoDup_cons. split; [|by apply IH]. rewrite dict_set_keys. apply seqb_false in E.
    by intros [?|?].
Qed.

Lemma dict_set_fresh {A} (d : list (pystr * A)) k v : k ∉ (fst <$> d) -> dict_set d k v = d ++ [(k, v)].
Proof.
  induction d as [|[k' v'] d IH]; intros H; [done|]. rewrite fmap_cons, not_elem_of_cons in H. destruct H as [Hne H].
  cbn [dict_set]. rewrite (proj2 (seqb_false k' k)) by (by intros ->). cbn [app]. by rewrite IH.
Qed.

Lemma dict_pop_sub {A} (d : list (pystr * A)) k x : x ∈ dict_pop d k -> x ∈ d.
Proof.
  induction d as [|[k0 v0] d IH]; cbn; [done|]. destruct (seqb k0 k); [by right|].
  rewrite !elem_of_cons. tauto.
Qed.

Lemma dict_pop_nodup {A} (d : list (pystr * A)) k : NoDup (fst <$> d) -> NoDup (fst <$> dict_pop d k).
Proof.
  induction d as [|[k0 v0] d IH]; cbn; intros Hnd; [constructor|].
  apply NoDup_cons in Hnd as [Hk Hnd]. destruct (seqb k0 k) eqn:E; cbn; [done|].
  apply NoDup_cons. split; [|by apply IH]. intros (y & -> & Hy%dict_pop_sub)%list_elem_of_fmap.
  apply Hk, list_elem_of_fmap. by exists y.
Qed.

Lemma dict_pop_get {A} (d : list (pystr * A)) k k' :
  NoDup (fst <$> d) -> dict_get (dict_pop d k) k' = if seqb k k' then None else dict_get d k'.
Proof.
  induction d as [|[k0 v0] d IH]; cbn; intros Hnd; [by destruct (seqb k k')|].
  apply NoDup_cons in Hnd as [Hk Hnd]. destruct (seqb k0 k) eqn:E; cbn.
  - apply seqb_true in E as ->. destruct (seqb k k') eqn:E2; [|done].
    apply seqb_true in E2 as ->. by apply dict_get_None.
  - rewrite IH by done. destruct (seqb k0 k') eqn:E1; [|done].
    apply seqb_true in E1 as ->. destruct (seqb k k') eqn:E2; [|done].
    apply seqb_true in E2 as ->. by rewrite (proj2 (seqb_true _ _) eq_refl) in E.
Qed.

Lemma dict_setdefault_get {A} (d : list (pystr * A)) k v k' :
  dict_get (dict_setdefault d k v) k' =
    match dict_get d k' with Some w => Some w | None => if seqb k k' then Some v else None end.
Proof.
  unfold dict_setdefault. destruct (dict_get d k) as [w|] eqn:E.
  - destruct (dict_get d k') as [w'|] eqn:E'; [done|]. destruct (seqb k k') eqn:E2; [|done].
    apply seqb_true in E2 as ->. congruence.
  - rewrite dict_get_app. cbn. by destruct (dict_get d k').
Qed.

(** ** Induction through lists and dicts *)

Section pyval_ind.
Context (P : pyval -> Prop).
Context (Hnone : P VNone) (Hbool : forall b, P (VBool b)) (Hint : forall z, P (VInt z))
  (Hfloat : forall z, P (VFloat z)) (Hstr : forall s, P (VStr s))
  (Hlist : forall l, Forall P l -> P (VList l))
  (Hdict : forall d, Forall (fun kv => P (snd kv)) d -> P (VDict d)).

Fixpoint pyval_nested_ind (v : pyval) : P v :=
  match v with
  | VNone => Hnone
  | VBool b => Hbool b
  | VInt z => Hint z
  | VFloat z => Hfloat z
  | VStr s => Hstr s
  | VList l => Hlist l ((fix go (l : list pyval) : Forall P l :=
      match l with [] => Forall_nil_2 _ | x :: l => Forall_cons_2 _ _ _ (pyval_nested_ind x) (go l) end) l)
  | VDict d => Hdict d ((fix go (d : pydict) : Forall (fun kv => P (snd kv)) d :=
      match d with
      | [] => Forall_nil_2 _
      | (k, x) :: d => Forall_cons_2 _ (k, x) _ (pyval_nested_ind x) (go d)
      end) d)
  end.
End pyval_ind.
