(* ===== verification/Identifiers.v ===== *)
(** Identifiers, user identities, roles and the request context.

    Models [openviking/core/identifiers.py], [openviking/core/peer_id.py],
    [openviking_cli/session/user_id.py] and the role and request context types
    of [openviking/server/identity.py]. *)
From Stdlib Require Import NArith.
From S2P Require Import Prelude PyStr.

Open Scope N_scope.

(** ** identifiers.py *)

(** A character of the class [[a-zA-Z0-9_.@-]]. *)
Definition id_char (c : N) : bool :=
  ((97 <=? c) && (c <=? 122)) || ((65 <=? c) && (c <=? 90)) || ((48 <=? c) && (c <=? 57))
  || (c =? c_under) || (c =? c_dot) || (c =? c_at) || (c =? c_minus).

(** What precedes the position where [$] may match: a pattern compiled without
    [re.MULTILINE] lets [$] match at the end of the string and also just before
    a newline that ends it. *)
Definition dollar_body (s : pystr) : pystr :=
  match reverse s with
  | x :: r => if x =? c_nl then reverse r else s
  | [] => []
  end.

(** [_VALIDATION_PATTERN.match(s)] for [^[a-zA-Z0-9_.@-]+$]. *)
Definition validation_pattern_match (s : pystr) : bool :=
  nonempty (dollar_body s) && forallb id_char (dollar_body s).

Definition validate_identifier_part (part part_name : pystr) : option pystr :=
  if negb (nonempty part) then Some (part_name ++ u " is empty")
  else if mem part [u "."; u ".."] then Some (part_name ++ u " must not be '.' or '..'")
  else if negb (validation_pattern_match part) then
    Some (part_name ++ u " must be alpha_numeric string.")
  else if (1 <? count c_at part)%nat then Some (part_name ++ u " must have at most one @.")
  else None.

Definition normalize_identifier_part (part : option pystr) (part_name : pystr)
    : result (option pystr) :=
  match part with
  | None => Ok None
  | Some part =>
      let normalized := strip is_space part in
      if negb (nonempty normalized) then Ok None
      else match validate_identifier_part normalized part_name with
           | Some _ => Err ValueError
           | None => Ok (Some normalized)
           end
  end.

Definition validate_account_id (account_id : pystr) : option pystr :=
  match validate_identifier_part account_id (u "account_id") with
  | Some e => Some e
  | None =>
      if startswith (u "_") account_id
      then Some (u "account_id cannot start with underscore _.")
      else None
  end.

Definition validate_user_id (user_id : pystr) : option pystr :=
  validate_identifier_part user_id (u "user_id").

(** ** peer_id.py *)

Definition normalize_peer_id (peer_id : option pystr) : result (option pystr) :=
  match normalize_identifier_part peer_id (u "peer_id") with
  | Ok r => Ok r
  | Err e => if is_value_error e then Err ValueError else Err e
  end.

Definition safe_peer_id (peer_id : option pystr) : option pystr :=
  match normalize_peer_id peer_id with
  | Ok r => r
  | Err _ => None
  end.

(** ** user_id.py *)

Record UserIdentifier := MkUser { user_account_id : pystr; user_id : pystr }.

#[export] Instance UserIdentifier_eq_dec : EqDecision UserIdentifier.
Proof. solve_decision. Defined.

(** [_validate_error] on the two fields; the empty string means no error. *)
Definition user_validate_error (account user : pystr) : pystr :=
  match validate_account_id account with
  | Some e => e
  | None => match validate_user_id user with Some e => e | None => [] end
  end.

(** [UserIdentifier(account_id, user_id)]. *)
Definition new_user (account user : pystr) : result UserIdentifier :=
  if nonempty (user_validate_error account user) then Err ValueError
  else Ok (MkUser account user).

Definition the_default_user (default_username : pystr) : result UserIdentifier :=
  new_user (u "default") default_username.

(** ** identity.py *)

(** [Role] is a subclass of [str]; equality is string equality. *)
Abbreviation Role := pystr.
Definition ROOT : Role := u "root".
Definition ADMIN : Role := u "admin".
Definition USER : Role := u "user".

Definition BUILTIN_RANK : gmap pystr Z := {[ USER := 0%Z; ADMIN := 1%Z; ROOT := 2%Z ]}.

(** [Role.register] updates the class-level table of custom ranks. *)
Definition role_register (custom_rank : gmap pystr Z) (name : pystr) (rank : Z)
    : gmap pystr Z := <[name := rank]> custom_rank.

Definition role_rank (custom_rank : gmap pystr Z) (role : Role) : Z :=
  default (default 0%Z (custom_rank !! role)) (BUILTIN_RANK !! role).

Record RequestContext := MkCtx {
  ctx_user : UserIdentifier;
  ctx_role : Role;
  ctx_group_ids : list pystr;
  ctx_actor_peer_id : option pystr;
  ctx_from_oauth : bool;
  ctx_api_key : option pystr;
  ctx_bypass_acl : bool }.

Definition ctx_account_id (ctx : RequestContext) : pystr := user_account_id (ctx_user ctx).
Definition ctx_user_id (ctx : RequestContext) : pystr := user_id (ctx_user ctx).

(** A Python truth test on an optional string: [None] and [""] are false. *)
Definition truthy (s : option pystr) : bool :=
  match s with Some s => nonempty s | None => false end.

(** ** Specifications *)

(** The characters of a path-safe identifier. *)
Definition safe_ident (s : pystr) : Prop :=
  s <> [] /\ s <> u "." /\ s <> u ".." /\ Forall (fun c => id_char c = true) s
  /\ (count c_at s <= 1)%nat.

(** A context as the constructors produce it: its user passed validation. *)
Definition wf_user (us : UserIdentifier) : Prop :=
  new_user (user_account_id us) (user_id us) = Ok us.

Lemma forallb_Forall_eq {A} (f : A -> bool) l :
  forallb f l = true <-> Forall (fun x => f x = true) l.
Proof.
  induction l as [|x l IH]; simpl; [by split|].
  by rewrite andb_true_iff, Forall_cons, IH.
Qed.

Lemma id_char_not c : id_char c = true ->
  c <> c_slash /\ c <> c_nl /\ c <> c_colon /\ c <> c_quest /\ is_space c = false.
Proof.
  intros H. unfold id_char, is_space, c_slash, c_nl, c_colon, c_quest, c_under, c_dot, c_at, c_minus in *.
  lia.
Qed.

Lemma dollar_body_spec s :
  s = dollar_body s \/ s = dollar_body s ++ [c_nl].
Proof.
  unfold dollar_body. destruct (reverse s) as [|x r] eqn:E.
  - left. by rewrite <- (reverse_involutive s), E.
  - destruct (N.eqb_spec x c_nl) as [->|]; [right|by left].
    rewrite <- reverse_cons, <- E. by rewrite reverse_involutive.
Qed.

Lemma dollar_body_no_nl s : c_nl ∉ s -> dollar_body s = s.
Proof. intros H. destruct (dollar_body_spec s) as [E|E]; [done|]. rewrite E in H. set_solver. Qed.

Lemma pattern_no_nl s : c_nl ∉ s ->
  validation_pattern_match s = true <-> s <> [] /\ Forall (fun c => id_char c = true) s.
Proof.
  intros H. unfold validation_pattern_match.
  by rewrite andb_true_iff, nonempty_true, forallb_Forall_eq, dollar_body_no_nl.
Qed.

Lemma validate_accepts_no_slash s name :
  validate_identifier_part s name = None ->
  s <> [] /\ c_slash ∉ s /\ c_quest ∉ s /\ c_colon ∉ s.
Proof.
  unfold validate_identifier_part. destruct (nonempty s) eqn:Hs; [|done]. simpl.
  destruct (mem s _); [done|]. destruct (validation_pattern_match s) eqn:Hp; [|done]. simpl.
  intros _. apply nonempty_true in Hs. split; [done|].
  unfold validation_pattern_match in Hp. apply andb_true_iff in Hp as [_ Hp%forallb_Forall_eq].
  rewrite Forall_forall in Hp.
  assert (forall c, id_char c = false -> c <> c_nl -> c ∉ s) as Hgen.
  { intros c Hc Hn Hin. destruct (dollar_body_spec s) as [E|E]; rewrite E in Hin.
    - apply Hp in Hin. congruence.
    - apply elem_of_app in Hin as [Hin| ->%list_elem_of_singleton]; [|done].
      apply Hp in Hin. congruence. }
  repeat split; by apply Hgen.
Qed.

Lemma validate_identifier_safe s name :
  c_nl ∉ s -> validate_identifier_part s name = None <-> safe_ident s.
Proof.
  intros Hnl. unfold validate_identifier_part, safe_ident, mem.
  destruct (nonempty s) eqn:Hs; simpl; [|apply nonempty_false in Hs as ->; naive_solver].
  apply nonempty_true in Hs.
  case_bool_decide as Hd; [set_solver|].
  destruct (validation_pattern_match s) eqn:Hp; simpl.
  - apply pattern_no_nl in Hp as [_ Hp]; [|done].
    destruct (Nat.ltb_spec 1 (count c_at s)); split; try done; [lia|].
    intros _. repeat split; auto; set_solver.
  - split; [done|]. intros (_ & _ & _ & Hf & _).
    rewrite (proj2 (pattern_no_nl s Hnl)) in Hp; done.
Qed.

Lemma strip_space_nl s : c_nl ∈ strip is_space s -> validation_pattern_match (strip is_space s) = false.
Proof.
  set (t := strip is_space s). intros Hin. unfold validation_pattern_match.
  assert (dollar_body t = t) as ->.
  { destruct (dollar_body_spec t) as [E|E]; [done|]. exfalso.
    assert (last t = Some c_nl) as L by by rewrite E, last_snoc.
    unfold t, strip in L. by apply rstrip_last in L. }
  apply andb_false_iff. right. destruct (forallb id_char t) eqn:E; [|done].
  apply forallb_Forall_eq in E. rewrite Forall_forall in E.
  apply E, id_char_not in Hin. naive_solver.
Qed.

(** An identifier that normalisation lets through is path-safe: not empty,
    not ["."] or [".."], only characters of the identifier class, at most one
    ["@"]; and normalising it again changes nothing. *)
Theorem normalize_identifier_safe (part s name : pystr)
    (H : normalize_identifier_part (Some part) name = Ok (Some s)) :
  safe_ident s /\ normalize_identifier_part (Some s) name = Ok (Some s).
Proof.
  unfold normalize_identifier_part in *. set (t := strip is_space part) in *.
  destruct (nonempty t) eqn:Hn; [|done]. cbn [negb] in H.
  destruct (validate_identifier_part t name) eqn:Hv; [done|]. injection H as <-.
  assert (c_nl ∉ t) as Hnl.
  { intros Hin%strip_space_nl. unfold validate_identifier_part in Hv. fold t in Hin.
    rewrite Hin in Hv. by repeat case_match. }
  split; [by eapply validate_identifier_safe|].
  unfold t at 1 2 3. rewrite strip_idemp. fold t. by rewrite Hn, Hv.
Qed.

Lemma normalize_identifier_safe_witness :
  safe_ident (u "bob@x") /\ normalize_identifier_part (Some (u "bob@x")) (u "peer_id") = Ok (Some (u "bob@x")).
Proof. apply (normalize_identifier_safe (u "  bob@x ")). by vm_compute. Defined.

(** Validation alone is weaker: [$] in the pattern also matches before a final
    newline, so an identifier that ends in one is accepted as it is. *)
Example validate_user_id_newline : validate_user_id (u "alice" ++ [c_nl]) = None.
Proof. by vm_compute. Qed.
