(* ===== verification/Uri.v ===== *)
(** Viking URIs: [openviking_cli/utils/uri.py].

    A [VikingURI] object is its string; [_parse] is the constructor's check and
    yields the scope and the full path.  The methods that build a new object run
    the constructor again, so they return a [result]. *)
From Stdlib Require Import NArith.
From S2P Require Import Prelude PyStr Identifiers.

Open Scope N_scope.

Definition SCHEME_SEP : pystr := u "viking://".

Definition LISTABLE_SCOPES : list pystr := [u "resources"; u "user"; u "agent"].
Definition PUBLIC_SCOPES : list pystr := LISTABLE_SCOPES.
Definition LEGACY_SCOPES : list pystr := [u "session"].
Definition INTERNAL_SCOPES : list pystr := [u "temp"; u "queue"; u "upload"].
Definition ALIAS_SCOPES : list pystr := [u "~"].
Definition VISITABLE_SCOPES : list pystr :=
  PUBLIC_SCOPES ++ LEGACY_SCOPES ++ INTERNAL_SCOPES ++ ALIAS_SCOPES.

Record VikingURI := MkUri { uri_str : pystr; uri_scope : pystr; uri_full_path : pystr }.

#[export] Instance VikingURI_eq_dec : EqDecision VikingURI.
Proof. solve_decision. Defined.

(** [VikingURI(uri)]: the constructor with [_parse]. *)
Definition parse (uri : pystr) : result VikingURI :=
  if negb (startswith SCHEME_SEP uri) then Err ValueError
  else
    let path := drop (length SCHEME_SEP) uri in
    if negb (nonempty (strip is_slash path)) then Ok (MkUri uri [] [])
    else
      let scope := default [] (head (split c_slash path)) in
      if negb (mem scope VISITABLE_SCOPES) then Err ValueError
      else Ok (MkUri uri scope path).

Definition resource_name (self : VikingURI) : option pystr :=
  if negb (seqb (uri_scope self) (u "resources")) then None
  else split c_slash (uri_full_path self) !! 1%nat.

Definition matches_prefix (self : VikingURI) (prefix : pystr) : bool :=
  startswith prefix (uri_str self).

(** [s.find(needle)]: the first index where [needle] occurs. *)
Fixpoint find_sub (needle s : pystr) : option nat :=
  if startswith needle s then Some O
  else match s with
       | [] => None
       | _ :: r => S <$> find_sub needle r
       end.

(** [s.rfind(c)] for a one character needle. *)
Fixpoint rfind (c : N) (s : pystr) : option nat :=
  match s with
  | [] => None
  | x :: r => match rfind c r with
              | Some i => Some (S i)
              | None => if x =? c then Some O else None
              end
  end.

Definition parent (self : VikingURI) : result (option VikingURI) :=
  let uri := rstrip is_slash (uri_str self) in
  let scheme_sep := u "://" in
  match find_sub scheme_sep uri with
  | None => Ok None
  | Some scheme_end =>
      let after_scheme := drop (scheme_end + length scheme_sep) uri in
      if negb (bool_decide (c_slash ∈ after_scheme)) then
        if nonempty after_scheme then Some <$> parse SCHEME_SEP else Ok None
      else match rfind c_slash uri with
           | Some last_slash => Some <$> parse (take last_slash uri)
           | None => Ok None
           end
  end.

Definition is_valid (uri : pystr) : bool := is_ok (parse uri).

(** [VikingURI.join] (named apart from [str.join]). *)
Definition uri_join (self : VikingURI) (part : pystr) : result VikingURI :=
  let part := if nonempty part then strip is_slash part else [] in
  if negb (nonempty part) then Ok self
  else
    let full := rstrip is_slash (uri_full_path self) in
    if nonempty full then parse (SCHEME_SEP ++ full ++ [c_slash] ++ part)
    else parse (SCHEME_SEP ++ part).

Definition build (scope : pystr) (path_parts : list pystr) : result pystr :=
  if negb (mem scope VISITABLE_SCOPES) || mem scope ALIAS_SCOPES then Err ValueError
  else
    let parts := scope :: path_parts in
    let parts := filter (fun p => nonempty p = true) parts in
    Ok (SCHEME_SEP ++ path_join parts).

(** [create_temp_uri]: [temp_leaf] is the generated ["MMDDHHMM_XXXXXX"] name. *)
Definition create_temp_uri (temp_leaf : pystr) (space : option pystr) : pystr :=
  match space with
  | Some space =>
      if nonempty space then u "viking://temp/" ++ space ++ [c_slash] ++ temp_leaf
      else u "viking://temp/" ++ temp_leaf
  | None => u "viking://temp/" ++ temp_leaf
  end.

(** ** Segment sanitising *)

Definition WINDOWS_RESERVED_STEMS : list pystr :=
  [u "CON"; u "PRN"; u "AUX"; u "NUL"]
  ++ ((fun i => u "COM" ++ [48 + N.of_nat i]) <$> seq 1 9)
  ++ ((fun i => u "LPT" ++ [48 + N.of_nat i]) <$> seq 1 9).

Section sanitize.
(** The Unicode tables of the interpreter outside ASCII: [str.isalnum] and the
    upper case mapping of one character. *)
Context (unicode_alnum : N -> bool) (unicode_upper : N -> pystr).

Definition ascii_word (c : N) : bool :=
  ((97 <=? c) && (c <=? 122)) || ((65 <=? c) && (c <=? 90)) || ((48 <=? c) && (c <=? 57))
  || (c =? c_under).

(** The class [\w] of a [str] pattern. *)
Definition is_word (c : N) : bool :=
  if c <? 128 then ascii_word c else unicode_alnum c.

(** The characters the pattern of [sanitize_segment] keeps. *)
Definition keep_char (c : N) : bool :=
  is_word c
  || ((128 <=? c) && (c <=? 687)) || ((1024 <=? c) && (c <=? 1327))
  || ((1536 <=? c) && (c <=? 1919)) || ((19968 <=? c) && (c <=? 40959))
  || ((12352 <=? c) && (c <=? 12447)) || ((12448 <=? c) && (c <=? 12543))
  || ((44032 <=? c) && (c <=? 55215)) || ((13312 <=? c) && (c <=? 19903))
  || ((131072 <=? c) && (c <=? 173791)) || (c =? c_minus) || (c =? c_dot).

Definition upper_char (c : N) : pystr :=
  if c <? 128 then (if (97 <=? c) && (c <=? 122) then [c - 32] else [c])
  else unicode_upper c.

Definition upper (s : pystr) : pystr := s ≫= upper_char.

Definition windows_reserved_stem (segment : pystr) : pystr :=
  upper (rstrip (fun c => (c =? 32) || (c =? c_dot)) (before c_dot segment)).

(** [re.sub(r"_+", "_", s)]. *)
Fixpoint merge_underscores (s : pystr) : pystr :=
  match s with
  | [] => []
  | x :: r =>
      if x =? c_under then
        match r with
        | y :: _ => if y =? c_under then merge_underscores r else x :: merge_underscores r
        | [] => [x]
        end
      else x :: merge_underscores r
  end.

Definition sanitize_segment (text : pystr) : pystr :=
  let safe := (fun c => if keep_char c then c else c_under) <$> text in
  let safe := merge_underscores safe in
  let safe := take 50 (strip (fun c => (c =? c_under) || (c =? c_dot)) safe) in
  let safe := if mem (windows_reserved_stem safe) WINDOWS_RESERVED_STEMS
              then c_under :: safe else safe in
  if nonempty safe then safe else u "unnamed".

Definition build_semantic_uri (parent_uri semantic_name : pystr)
    (node_id : option pystr) (is_leaf : bool) : result pystr :=
  let safe_name := sanitize_segment semantic_name in
  if negb is_leaf then Ok (parent_uri ++ [c_slash] ++ safe_name)
  else match node_id with
       | Some n => if nonempty n
                   then Ok (parent_uri ++ [c_slash] ++ safe_name ++ [c_slash] ++ n)
                   else Err ValueError
       | None => Err ValueError
       end.
End sanitize.

(** ** Facts about parsing *)

Lemma scheme_len : length SCHEME_SEP = 9%nat.
Proof. done. Qed.

Lemma visitable_no_slash s : s ∈ VISITABLE_SCOPES -> s <> [] /\ c_slash ∉ s /\ c_quest ∉ s.
Proof.
  intros H. cut (Forall (fun s => s <> [] /\ c_slash ∉ s /\ c_quest ∉ s) VISITABLE_SCOPES).
  { rewrite Forall_forall. eauto. }
  apply (bool_decide_unpack _). by vm_compute.
Qed.

Lemma mem_true s l : mem s l = true <-> s ∈ l.
Proof. unfold mem. apply bool_decide_eq_true. Qed.

Lemma mem_false s l : mem s l = false <-> s ∉ l.
Proof. unfold mem. apply bool_decide_eq_false. Qed.

Lemma strip_slash_nil s : strip is_slash s = [] <-> Forall (fun c => c = c_slash) s.
Proof.
  split.
  - unfold strip. intros H.
    destruct (lstrip_decomp is_slash s) as (k & Hk & Hf).
    destruct (rstrip_decomp is_slash (lstrip is_slash s)) as (k' & Hk' & Hf').
    rewrite H in Hk'. rewrite Hk, Hk'. apply Forall_app; split;
      [eapply Forall_impl; [exact Hf|]|eapply Forall_impl; [exact Hf'|]];
      intros c Hc; by apply N.eqb_eq in Hc.
  - intros H. unfold strip.
    assert (lstrip is_slash s = []) as ->; [|done].
    induction H as [|x l -> Hl IH]; [done|]. simpl. by rewrite IH.
Qed.

(** Every accepted URI is the scheme followed by its path, and its scope is
    empty exactly for the root. *)
Lemma parse_ok uri v :
  parse uri = Ok v ->
  exists path, uri = SCHEME_SEP ++ path /\ uri_str v = uri /\
    ((Forall (fun c => c = c_slash) path /\ uri_scope v = [] /\ uri_full_path v = []) \/
     (uri_full_path v = path /\ uri_scope v ∈ VISITABLE_SCOPES /\
      exists rest, split c_slash path = uri_scope v :: rest)).
Proof.
  unfold parse. destruct (startswith SCHEME_SEP uri) eqn:Hs; simpl; [|done].
  apply startswith_inv in Hs. rewrite scheme_len in *.
  set (path := drop 9 uri) in *.
  destruct (nonempty (strip is_slash path)) eqn:Hp; simpl.
  - destruct (mem _ VISITABLE_SCOPES) eqn:Hm; simpl; [|done].
    intros [= <-]. exists path. split; [done|]. split; [done|]. right. simpl.
    apply mem_true in Hm. split; [done|].
    destruct (split c_slash path) as [|h t] eqn:E; [by apply split_not_nil in E|].
    simpl in *. eauto.
  - apply nonempty_false, strip_slash_nil in Hp.
    intros [= <-]. exists path. eauto 10.
Qed.

Lemma parse_scope scope rest :
  scope ∈ VISITABLE_SCOPES ->
  parse (SCHEME_SEP ++ join [c_slash] (scope :: rest)) =
    Ok (MkUri (SCHEME_SEP ++ join [c_slash] (scope :: rest)) scope
              (join [c_slash] (scope :: rest))).
Proof.
  intros Hsc. unfold parse. rewrite startswith_app. cbn [negb]. cbv zeta.
  rewrite drop_app_length.
  destruct (visitable_no_slash _ Hsc) as (Hne & Hns & _).
  set (path := join [c_slash] (scope :: rest)).
  assert (exists rest', split c_slash path = scope :: rest') as [rest' Hsplit].
  { unfold path. destruct rest as [|y rest].
    - exists []. simpl. by apply split_no_sep.
    - rewrite join_cons by done. cbn [app]. rewrite split_app_sep by done. eauto. }
  assert (strip is_slash path <> []) as Hst.
  { intros Hnil%strip_slash_nil. destruct scope as [|c scope]; [done|].
    assert (exists q, path = c :: q) as [q Hq].
    { unfold path. destruct rest; [by eexists|]. rewrite join_cons by done. by eexists. }
    rewrite Hq in Hnil. inversion Hnil; subst. set_solver. }
  apply nonempty_true in Hst. rewrite Hst. simpl. rewrite Hsplit. simpl.
  apply mem_true in Hsc. by rewrite Hsc.
Qed.

(** ** Facts about sanitising *)

Lemma rstrip_cons_keep p x r : p x = false -> exists q, rstrip p (x :: r) = x :: q.
Proof.
  intros Hx. destruct (rstrip_decomp p (x :: r)) as (k & Hk & Hf).
  destruct (rstrip p (x :: r)) as [|y q] eqn:E.
  - simpl in Hk. subst k. inversion Hf; congruence.
  - simpl in Hk. simplify_eq. eauto.
Qed.

Lemma reserved_not_under s : s ∈ WINDOWS_RESERVED_STEMS -> head s <> Some c_under.
Proof.
  intros H. cut (Forall (fun s : pystr => head s <> Some c_under) WINDOWS_RESERVED_STEMS).
  { rewrite Forall_forall. eauto. }
  apply (bool_decide_unpack _). by vm_compute.
Qed.

Section sanitize_facts.
Context (unicode_alnum : N -> bool) (unicode_upper : N -> pystr).
Local Abbreviation keep := (keep_char unicode_alnum).
Local Abbreviation stem := (windows_reserved_stem unicode_upper).

Lemma merge_underscores_sub s x : x ∈ merge_underscores s -> x ∈ s.
Proof.
  induction s as [|y s IH]; simpl; [done|].
  destruct (y =? c_under); [destruct s as [|z s]; [done|destruct (z =? c_under)]|];
    set_solver.
Qed.

Lemma stem_underscore s : stem (c_under :: s) ∉ WINDOWS_RESERVED_STEMS.
Proof.
  intros H%reserved_not_under. apply H. unfold windows_reserved_stem. simpl.
  destruct (rstrip_cons_keep (fun c => (c =? 32) || (c =? c_dot)) c_under (before c_dot s) eq_refl)
    as [q ->]. done.
Qed.

Lemma stem_unnamed : stem (u "unnamed") ∉ WINDOWS_RESERVED_STEMS.
Proof. apply (bool_decide_unpack _). by vm_compute. Qed.

Lemma keep_not_slash c : keep c = true -> c <> c_slash.
Proof.
  unfold keep_char, is_word, ascii_word, c_slash, c_under, c_minus, c_dot.
  intros H ->. simpl in H. done.
Qed.

Lemma keep_under : keep c_under = true.
Proof. done. Qed.

Lemma keep_mapped text :
  Forall (fun c => keep c = true) ((fun c => if keep c then c else c_under) <$> text).
Proof.
  apply Forall_fmap, Forall_true. intros c. simpl. destruct (keep c) eqn:E; [done|apply keep_under].
Qed.

Definition sanitized (text : pystr) : pystr :=
  take 50 (strip (fun c => (c =? c_under) || (c =? c_dot))
    (merge_underscores ((fun c => if keep c then c else c_under) <$> text))).

Lemma sanitized_keep text : Forall (fun c => keep c = true) (sanitized text).
Proof.
  apply Forall_forall. intros c Hc. unfold sanitized in Hc.
  apply elem_of_take in Hc as (i & Hc%list_elem_of_lookup_2 & _).
  apply strip_sub, merge_underscores_sub in Hc.
  pose proof (keep_mapped text) as Hk. rewrite Forall_forall in Hk. auto.
Qed.

Lemma sanitized_len text : (length (sanitized text) <= 50)%nat.
Proof. unfold sanitized. rewrite length_take. lia. Qed.

(** Whatever the text and the interpreter's Unicode tables, a sanitised
    segment is not empty, is at most 51 characters long, holds only characters
    of the allowed class (so no ["/"]), and its stem is not a Windows device
    name. *)
Theorem sanitize_segment_safe text :
  let s := sanitize_segment unicode_alnum unicode_upper text in
  s <> [] /\ (length s <= 51)%nat /\ Forall (fun c => keep c = true) s
  /\ c_slash ∉ s /\ stem s ∉ WINDOWS_RESERVED_STEMS.
Proof.
  intros s. pose proof (sanitized_keep text) as Hk. pose proof (sanitized_len text) as Hl.
  cut (s <> [] /\ (length s <= 51)%nat /\ Forall (fun c => keep c = true) s
       /\ stem s ∉ WINDOWS_RESERVED_STEMS).
  { intros (? & ? & Hf & ?). repeat split; auto. intros Hin.
    rewrite Forall_forall in Hf. by apply Hf, keep_not_slash in Hin. }
  unfold s, sanitize_segment. fold (sanitized text).
  destruct (mem (stem (sanitized text)) _) eqn:Hm; simpl.
  - repeat split; [done|lia|by constructor|apply stem_underscore].
  - destruct (nonempty (sanitized text)) eqn:Hn.
    + apply nonempty_true in Hn. apply mem_false in Hm. repeat split; auto; lia.
    + repeat split; [done|vm_compute; lia| |apply stem_unnamed].
      apply forallb_Forall_eq. by vm_compute.
Qed.
End sanitize_facts.
