(* ===== verification/Namespace.v ===== *)
(** Namespaces of Viking URIs: [openviking/core/namespace.py].

    Splitting a URI into segments, classifying it, resolving it to a canonical
    form with its owner, expanding the request-time aliases, and the namespace
    access check. *)
From Stdlib Require Import NArith.
From S2P Require Import Prelude PyStr Identifiers Uri.

Open Scope N_scope.

(** ** Tables *)

(** [_CONTENT_TYPES_BY_SCOPE["user"]], equal to the ["agent"] entry. *)
Definition content_types (segment : pystr) : option pystr :=
  if seqb segment (u "memories") then Some (u "memory")
  else if seqb segment (u "resources") then Some (u "resource")
  else if seqb segment (u "skills") then Some (u "skill")
  else None.

Definition content_types_by_scope (scope : pystr) : option (pystr -> option pystr) :=
  if seqb scope (u "user") then Some content_types
  else if seqb scope (u "agent") then Some content_types
  else None.

Definition PEER_CONTENT_SEGMENTS : list pystr := [u "memories"; u "resources"].
Definition USER_RELATIVE_ROOT_SEGMENTS : list pystr := [u "peers"; u "privacy"; u "sessions"].

Definition in_content_types (segment : pystr) : bool := bool_decide (is_Some (content_types segment)).

(** ** Data *)

Record ResolvedNamespace := MkNs {
  ns_uri : pystr; ns_scope : pystr; ns_owner_user_id : option pystr; ns_is_container : bool }.

#[export] Instance ResolvedNamespace_eq_dec : EqDecision ResolvedNamespace.
Proof. solve_decision. Defined.

Record UriClassification := MkCls {
  cls_parts : list pystr; cls_scope : pystr; cls_content_index : option nat;
  cls_context_type : pystr }.

(** [parts[i] == s], false when out of range (every use is guarded by [len]). *)
Definition part_is (parts : list pystr) (i : nat) (s : pystr) : bool :=
  bool_decide (parts !! i = Some s).

Definition part_in (parts : list pystr) (i : nat) (p : pystr -> bool) : bool :=
  match parts !! i with Some s => p s | None => false end.

(** ** Segments *)

Definition uri_parts (uri : pystr) : result (list pystr) :=
  let normalized := before c_quest uri in
  if negb (startswith (u "viking://") normalized) then Err ValueError
  else if seqb normalized (u "viking://") then Ok []
  else
    let normalized := rstrip is_slash normalized in
    Ok (filter (fun part => nonempty part = true)
          (split c_slash (drop (length (u "viking://")) normalized))).

Definition uri_depth (uri : pystr) : result nat := length <$> uri_parts uri.

Definition uri_leaf_name (uri : pystr) : result pystr :=
  parts ← uri_parts uri; Ok (default [] (last parts)).

Definition relative_uri_path (root_uri uri : pystr) : result pystr :=
  root_parts ← uri_parts root_uri;
  parts ← uri_parts uri;
  if bool_decide (parts = root_parts) || negb (bool_decide (take (length root_parts) parts = root_parts))
  then Ok []
  else Ok (path_join (drop (length root_parts) parts)).

(** ** Classification *)

Definition content_segment_index (parts : list pystr) : option nat :=
  if (2 <=? length parts)%nat && bool_decide (take 2 parts = [u "agent"; u "skills"]) then Some 1%nat
  else if (3 <=? length parts)%nat && part_is parts 0 (u "agent") && part_in parts 2 in_content_types
  then Some 2%nat
  else if (length parts <? 2)%nat || negb (part_is parts 0 (u "user")) then None
  else if (5 <=? length parts)%nat && part_is parts 2 (u "peers")
          && part_in parts 4 (fun s => mem s PEER_CONTENT_SEGMENTS) then Some 4%nat
  else if (3 <=? length parts)%nat && part_in parts 2 in_content_types then Some 2%nat
  else None.

Definition is_namespace_root_parts (parts : list pystr) (scope : pystr) : bool :=
  seqb scope (u "user") && bool_decide (take 1 parts = [u "user"]) && (length parts =? 2)%nat.

(** [_CONTENT_TYPES_BY_SCOPE.get(parts[0], {}).get(parts[content_index], "resource")]. *)
Definition content_type_at (parts : list pystr) (i : nat) : pystr :=
  default (u "resource")
    (scope ← parts !! 0%nat; f ← content_types_by_scope scope; seg ← parts !! i; f seg).

Definition classify_parts (parts : list pystr) : UriClassification :=
  let content_index := content_segment_index parts in
  MkCls parts (default [] (head parts)) content_index
    (match content_index with
     | Some i => content_type_at parts i
     | None => u "resource"
     end).

Definition classify_uri (uri : pystr) : result UriClassification :=
  classify_parts <$> uri_parts uri.

Definition context_type_for_uri (uri : pystr) : result pystr :=
  cls_context_type <$> classify_uri uri.

Definition is_memory (c : UriClassification) : bool := seqb (cls_context_type c) (u "memory").
Definition is_skill (c : UriClassification) : bool := seqb (cls_context_type c) (u "skill").
Definition is_user_namespace_root (c : UriClassification) : bool :=
  is_namespace_root_parts (cls_parts c) (u "user").
Definition is_agent_namespace_root (c : UriClassification) : bool :=
  seqb (cls_scope c) (u "agent") && (length (cls_parts c) =? 2)%nat.
Definition is_memory_root (c : UriClassification) : bool :=
  is_memory c && match cls_content_index c with
                 | Some i => (length (cls_parts c) =? i + 1)%nat | None => false end.
Definition is_skill_namespace (c : UriClassification) : bool :=
  is_skill c && match cls_content_index c with
                | Some i => (length (cls_parts c) =? i + 1)%nat | None => false end.
Definition is_skill_root (c : UriClassification) : bool :=
  is_skill c && match cls_content_index c with
                | Some i => (length (cls_parts c) =? i + 2)%nat | None => false end.

(** ** Canonical roots *)

Definition user_space_fragment (ctx : RequestContext) : pystr := ctx_user_id ctx.

Definition canonical_user_root (ctx : RequestContext) : pystr :=
  u "viking://user/" ++ user_space_fragment ctx.

Definition canonical_session_root (ctx : RequestContext) : pystr :=
  canonical_user_root ctx ++ u "/sessions".

Definition canonical_session_uri (ctx : RequestContext) (session_id : option pystr) : pystr :=
  let root := canonical_session_root ctx in
  match session_id with
  | Some s => if nonempty s then root ++ [c_slash] ++ s else root
  | None => root
  end.

Definition is_session_uri (uri : pystr) : result bool :=
  parts ← uri_parts uri;
  if bool_decide (take 1 parts = [u "session"]) then Ok true
  else Ok ((3 <=? length parts)%nat && part_is parts 0 (u "user") && part_is parts 2 (u "sessions")).

Definition AGENT_SHARED_ROOTS : list pystr := [u "viking://agent/skills"].

Definition visible_roots (ctx : RequestContext) : list pystr :=
  [u "viking://resources"] ++ AGENT_SHARED_ROOTS ++ [canonical_user_root ctx].

(** ** Resolution *)

(** [_require_peer_id_segment]: [None] from normalisation is an error too. *)
Definition require_peer_id_segment (peer_id : pystr) : result unit :=
  match normalize_peer_id (Some peer_id) with
  | Ok (Some _) => Ok tt
  | Ok None => Err NamespaceShapeError
  | Err e => if is_value_error e then Err NamespaceShapeError else Err e
  end.

Definition validate_peer_id_segments (parts : list pystr) : result unit :=
  if (4 <=? length parts)%nat && part_is parts 0 (u "user") && part_is parts 2 (u "peers")
  then match parts !! 3%nat with Some p => require_peer_id_segment p | None => Ok tt end
  else Ok tt.

(** [_resolve_user_uri] on segments whose first one is ["user"]. *)
Definition resolve_user_uri (parts : list pystr) : result ResolvedNamespace :=
  match parts !! 1%nat with
  | None => Ok (MkNs (u "viking://user") (u "user") None true)
  | Some user_id =>
      match validate_user_id user_id with
      | Some _ => Err NamespaceShapeError
      | None =>
          if (length parts =? 2)%nat
          then Ok (MkNs (u "viking://user/" ++ user_id) (u "user") (Some user_id) false)
          else
            let suffix := drop 2 parts in
            let canonical := u "viking://user/" ++ user_id in
            let canonical := match suffix with
                             | [] => canonical
                             | _ => canonical ++ [c_slash] ++ path_join suffix
                             end in
            _ ← validate_peer_id_segments parts;
            Ok (MkNs canonical (u "user") (Some user_id) false)
      end
  end.

Definition resolve_uri (uri : pystr) : result ResolvedNamespace :=
  parsed ← parse uri;
  let canonical_uri := rstrip is_slash (uri_str parsed) in
  let canonical_uri := if nonempty canonical_uri then canonical_uri else u "viking://" in
  parts ← uri_parts uri;
  match parts with
  | [] => Ok (MkNs (u "viking://") [] None true)
  | scope :: _ =>
      if seqb scope (u "user") then resolve_user_uri parts
      else if seqb scope (u "agent") then Ok (MkNs canonical_uri scope None false)
      else if seqb scope (u "~") then Err NamespaceShapeError
      else if seqb scope (u "session") then Err NamespaceShapeError
      else Ok (MkNs canonical_uri scope None false)
  end.

Definition is_reserved_user_root_segment (segment : pystr) : bool :=
  in_content_types segment || mem segment USER_RELATIVE_ROOT_SEGMENTS.

Definition resolve_current_user_uri (uri : pystr) (ctx : RequestContext) : result pystr :=
  parts ← uri_parts uri;
  match parts with
  | [] => Ok (u "viking://")
  | p0 :: rest =>
      if seqb p0 (u "~") then
        match rest with
        | [] => Ok (canonical_user_root ctx)
        | _ => Ok (canonical_user_root ctx ++ [c_slash] ++ path_join rest)
        end
      else if seqb p0 (u "session") then
        match rest with
        | [] => Ok (canonical_session_root ctx)
        | p1 :: rest2 =>
            let canonical := canonical_session_uri ctx (Some p1) in
            match rest2 with
            | [] => Ok canonical
            | _ => Ok (canonical ++ [c_slash] ++ path_join rest2)
            end
        end
      else if seqb p0 (u "user")
              && part_in rest 0 (fun p1 => negb (seqb p1 (ctx_user_id ctx))
                                           && is_reserved_user_root_segment p1)
      then Err NamespaceShapeError
      else ns_uri <$> resolve_uri uri
  end.

Definition resolve_request_uri (uri : pystr) (ctx : RequestContext) : result pystr :=
  parts ← uri_parts uri;
  if part_is parts 0 (u "~") then resolve_current_user_uri uri ctx
  else if mem (ctx_role ctx) [USER; ADMIN] then resolve_current_user_uri uri ctx
  else ns_uri <$> resolve_uri uri.

(** ** Access *)

Definition is_accessible (uri : pystr) (ctx : RequestContext) : result bool :=
  if seqb (ctx_role ctx) ROOT then Ok true
  else match resolve_uri uri with
       | Err NamespaceShapeError => Ok false
       | Err e => Err e
       | Ok target =>
           if mem (ns_scope target) [[]; u "resources"; u "temp"; u "queue"] then Ok true
           else if seqb (ns_scope target) (u "upload") then Ok false
           else if seqb (ns_scope target) (u "user") then
             match ns_owner_user_id target with
             | Some owner =>
                 if nonempty owner && negb (seqb owner (ctx_user_id ctx)) then Ok false else Ok true
             | None => Ok true
             end
           else if seqb (ns_scope target) (u "agent") then
             parts ← uri_parts (ns_uri target);
             if truthy (ctx_actor_peer_id ctx) && (2 <=? length parts)%nat
                && negb (bool_decide (parts !! 1%nat = ctx_actor_peer_id ctx))
             then Ok false else Ok true
           else Ok true
       end.

(** ** Actor peer view *)

Definition actor_peer_view_user_suffix (uri : pystr) (ctx : RequestContext)
    : result (option (list pystr)) :=
  if negb (truthy (ctx_actor_peer_id ctx)) then Ok None
  else match resolve_uri uri with
       | Err NamespaceShapeError => Ok None
       | Err e => Err e
       | Ok _ =>
           parts ← uri_parts uri;
           let user_root_parts := [u "user"; ctx_user_id ctx] in
           if negb (bool_decide (take (length user_root_parts) parts = user_root_parts)) then Ok None
           else Ok (Some (drop (length user_root_parts) parts))
       end.

Definition is_hidden_by_actor_peer_view (uri : pystr) (ctx : RequestContext) : result bool :=
  suffix ← actor_peer_view_user_suffix uri ctx;
  Ok (match suffix with
      | Some suffix => (2 <=? length suffix)%nat && part_is suffix 0 (u "peers")
                       && negb (bool_decide (suffix !! 1%nat = ctx_actor_peer_id ctx))
      | None => false
      end).

Definition may_include_hidden_actor_peers (uri : pystr) (ctx : RequestContext) : result bool :=
  suffix ← actor_peer_view_user_suffix uri ctx;
  Ok (match suffix with
      | Some suffix => bool_decide (suffix = []) || bool_decide (suffix = [u "peers"])
      | None => false
      end).

(** ** Content roots and owners *)

Definition is_content_root_uri (uri kind : pystr) : result bool :=
  match resolve_uri uri with
  | Err e => if is_value_error e then Ok false else Err e
  | Ok _ =>
      parts ← uri_parts uri;
      if seqb kind (u "resource") && bool_decide (parts = [u "resources"]) then Ok true
      else
        classification ← classify_uri uri;
        Ok (seqb (cls_context_type classification) kind
            && match cls_content_index classification with
               | Some i => (length parts =? i + 1)%nat
               | None => false
               end)
  end.

(** The dictionary [{"uri", "owner_user_id"}] as a pair. *)
Definition owner_fields_for_uri (uri : pystr) : result (pystr * option pystr) :=
  match resolve_uri uri with
  | Err e => if is_value_error e then Ok (rstrip is_slash uri, None) else Err e
  | Ok resolved => Ok (ns_uri resolved, ns_owner_user_id resolved)
  end.

Definition content_owner_context_for_uri (uri : pystr) (ctx : RequestContext)
    : result RequestContext :=
  '(_, owner_user_id) ← owner_fields_for_uri uri;
  match owner_user_id with
  | None => Ok ctx
  | Some owner =>
      if negb (nonempty owner) || seqb owner (ctx_user_id ctx) then Ok ctx
      else
        us ← new_user (ctx_account_id ctx) owner;
        Ok (MkCtx us (ctx_role ctx) (ctx_group_ids ctx) (ctx_actor_peer_id ctx)
              (ctx_from_oauth ctx) (ctx_api_key ctx) (ctx_bypass_acl ctx))
  end.

Definition owner_space_for_uri (uri : pystr) : result pystr :=
  resolved ← resolve_uri uri;
  match ns_owner_user_id resolved with
  | Some owner =>
      if seqb (ns_scope resolved) (u "user") && nonempty owner then Ok owner else Ok []
  | None => Ok []
  end.
