(* ===== verification/NamespaceTheory.v ===== *)
(** Theorems about Viking URIs and namespaces ([Uri], [Namespace]). *)
From Stdlib Require Import NArith.
From S2P Require Import Prelude PyStr Identifiers Uri Namespace.

Open Scope N_scope.

(** ** Path segments *)

Definition segs (path : pystr) : list pystr :=
  filter (fun part => nonempty part = true) (split c_slash path).

(** A path segment: not empty and without a slash. *)
Definition seg_ok (s : pystr) : Prop := s <> [] /\ c_slash ∉ s.

Lemma split_app_gen c a b : split c (a ++ c :: b) = split c a ++ split c b.
Proof.
  induction a as [|x a IH]; simpl; [by rewrite N.eqb_refl|].
  destruct (x =? c); [by rewrite IH|]. rewrite IH.
  destruct (split c a) as [|h t] eqn:E; [by apply split_not_nil in E|done].
Qed.

Lemma segs_app a b : segs (a ++ c_slash :: b) = segs a ++ segs b.
Proof. unfold segs. by rewrite split_app_gen, filter_app. Qed.

Lemma segs_nil : segs [] = [].
Proof. done. Qed.

Lemma segs_slashes k : Forall (fun c => c = c_slash) k -> segs k = [].
Proof.
  induction 1 as [|x k -> _ IH]; [done|].
  change (c_slash :: k) with ([] ++ c_slash :: k). by rewrite segs_app, IH.
Qed.

Lemma segs_trailing q k : Forall (fun c => c = c_slash) k -> segs (q ++ k) = segs q.
Proof.
  intros H. destruct H as [|x k -> H]; [by rewrite app_nil_r|].
  by rewrite segs_app, (segs_slashes k), app_nil_r.
Qed.

Lemma segs_seg s : seg_ok s -> segs s = [s].
Proof. intros [H1 H2]. unfold segs. rewrite split_no_sep by done. by destruct s. Qed.

Lemma segs_join l : Forall seg_ok l -> segs (path_join l) = l.
Proof.
  unfold path_join. induction 1 as [|x l Hx Hl IH]; [done|].
  destruct l as [|y l]; [by apply segs_seg|].
  rewrite join_cons by done. cbn [app]. by rewrite segs_app, IH, segs_seg.
Qed.

Lemma segs_ok path : Forall seg_ok (segs path).
Proof.
  apply Forall_forall. intros s [Hne Hin]%list_elem_of_filter. split; [by destruct s|].
  pose proof (split_pieces c_slash path) as H. rewrite Forall_forall in H. auto.
Qed.

Lemma is_slash_all k : Forall (fun c => is_slash c = true) k <-> Forall (fun c => c = c_slash) k.
Proof. apply Forall_iff. intros c. unfold is_slash. by rewrite N.eqb_eq. Qed.

Lemma segs_rstrip q : segs (rstrip is_slash q) = segs q.
Proof.
  destruct (rstrip_decomp is_slash q) as (k & Hk & Hf%is_slash_all).
  rewrite Hk at 2. by rewrite segs_trailing.
Qed.

Lemma before_app c a b : c ∉ a -> before c (a ++ b) = a ++ before c b.
Proof.
  induction a as [|x a IH]; simpl; [done|]. intros [Hx Ha]%not_elem_of_cons.
  destruct (N.eqb_spec x c); [congruence|]. by rewrite IH.
Qed.

Lemma scheme_eq : u "viking://" = SCHEME_SEP.
Proof. done. Qed.

Lemma scheme_no_quest : c_quest ∉ SCHEME_SEP.
Proof. apply (bool_decide_unpack _). by vm_compute. Qed.

Lemma rstrip_scheme_slashes k :
  Forall (fun c => c = c_slash) k -> rstrip is_slash (SCHEME_SEP ++ k) = u "viking:".
Proof.
  intros Hk%is_slash_all.
  change SCHEME_SEP with (u "viking:" ++ [c_slash; c_slash]). rewrite <- app_assoc.
  generalize dependent k. intros k Hk.
  assert (Forall (fun c => is_slash c = true) ([c_slash; c_slash] ++ k)) as Hall
    by (by repeat constructor).
  revert Hall. generalize ([c_slash; c_slash] ++ k). clear. intros k Hk.
  unfold rstrip. rewrite reverse_app. apply Forall_reverse in Hk.
  induction Hk as [|x r Hx _ IH]; [done|]. simpl. by rewrite Hx.
Qed.

Lemma rstrip_slash_nil q : rstrip is_slash q = [] <-> Forall (fun c => c = c_slash) q.
Proof.
  split.
  - intros H. destruct (rstrip_decomp is_slash q) as (k & Hk & Hf%is_slash_all).
    rewrite H in Hk. by rewrite Hk.
  - intros H%is_slash_all. by apply rstrip_all.
Qed.

(** The segments of a URI are those of its path up to the query. *)
Lemma uri_parts_scheme path : uri_parts (SCHEME_SEP ++ path) = Ok (segs (before c_quest path)).
Proof.
  unfold uri_parts. rewrite before_app by apply scheme_no_quest.
  rewrite !scheme_eq, startswith_app. cbn [negb].
  set (q := before c_quest path). clearbody q.
  destruct (seqb (SCHEME_SEP ++ q) SCHEME_SEP) eqn:E.
  - apply seqb_true in E. rewrite <- (app_nil_r SCHEME_SEP) in E at 2.
    apply app_inv_head in E as ->. done.
  - f_equal. destruct (decide (rstrip is_slash q = [])) as [Hn|Hn].
    + apply rstrip_slash_nil in Hn. rewrite rstrip_scheme_slashes by done.
      by rewrite segs_slashes.
    + rewrite rstrip_app by done. rewrite drop_app_length. by rewrite <- segs_rstrip.
Qed.

Lemma uri_parts_inv uri ps : uri_parts uri = Ok ps ->
  exists path, uri = SCHEME_SEP ++ path /\ ps = segs (before c_quest path).
Proof.
  intros H. assert (startswith SCHEME_SEP uri = true) as Hs.
  { unfold uri_parts in H. rewrite scheme_eq in H.
    destruct (startswith SCHEME_SEP (before c_quest uri)) eqn:E; [|done].
    apply startswith_iff in E. apply startswith_iff. etrans; [done|apply before_prefix]. }
  apply startswith_inv in Hs. exists (drop (length SCHEME_SEP) uri). split; [done|].
  rewrite Hs, uri_parts_scheme in H. by simplify_eq.
Qed.

Lemma uri_parts_ok uri ps : uri_parts uri = Ok ps -> Forall seg_ok ps.
Proof. intros (path & _ & ->)%uri_parts_inv. apply segs_ok. Qed.

Lemma segs_no_quest path : c_quest ∉ path -> Forall (fun s => c_quest ∉ s) (segs path).
Proof.
  intros H. apply Forall_forall. intros s [_ Hin]%list_elem_of_filter Hq. apply H.
  rewrite <- (join_split c_slash path). revert Hin. generalize (split c_slash path).
  intros l Hin. induction l as [|x l IH]; [set_solver|].
  destruct l as [|y l]; [set_solver|]. rewrite join_cons by done. set_solver.
Qed.

Lemma uri_parts_no_quest uri ps : uri_parts uri = Ok ps -> Forall (fun s => c_quest ∉ s) ps.
Proof. intros (path & _ & ->)%uri_parts_inv. apply segs_no_quest, before_clean. Qed.

Lemma join_no_quest l : Forall (fun s => c_quest ∉ s) l -> c_quest ∉ path_join l.
Proof.
  unfold path_join. induction 1 as [|x l Hx _ IH]; [set_solver|].
  destruct l as [|y l]; [done|]. rewrite join_cons by done.
  rewrite !elem_of_app, list_elem_of_singleton. naive_solver.
Qed.

(** Segments joined under the scheme split back. *)
Lemma uri_parts_join l :
  Forall seg_ok l -> Forall (fun s => c_quest ∉ s) l ->
  uri_parts (SCHEME_SEP ++ path_join l) = Ok l.
Proof.
  intros H1 H2. rewrite uri_parts_scheme, before_notin by by apply join_no_quest.
  by rewrite segs_join.
Qed.

(** ** Parsing and segments *)

Lemma parse_scope_only scope :
  scope ∈ VISITABLE_SCOPES ->
  parse (SCHEME_SEP ++ scope) = Ok (MkUri (SCHEME_SEP ++ scope) scope scope).
Proof. intros H. by apply (parse_scope scope []). Qed.

Lemma parse_scope_tail scope q :
  scope ∈ VISITABLE_SCOPES ->
  parse (SCHEME_SEP ++ scope ++ c_slash :: q)
  = Ok (MkUri (SCHEME_SEP ++ scope ++ c_slash :: q) scope (scope ++ c_slash :: q)).
Proof.
  intros H. pose proof (parse_scope scope (split c_slash q) H) as P.
  rewrite join_cons, join_split in P by apply split_not_nil. done.
Qed.

Lemma path_join_eq l : path_join l = join [c_slash] l.
Proof. done. Qed.

(** A parsed URI has either no segment or its scope as the first one. *)
Lemma parse_parts uri v :
  parse uri = Ok v ->
  (uri_scope v = [] /\ uri_parts uri = Ok []) \/
  (uri_scope v ∈ VISITABLE_SCOPES /\ exists rest, uri_parts uri = Ok (uri_scope v :: rest) /\
     (uri = SCHEME_SEP ++ uri_scope v \/ exists q, uri = SCHEME_SEP ++ uri_scope v ++ c_slash :: q)).
Proof.
  intros (path & -> & _ & [(Hs & Hsc & _)|(Hfp & Hv & rest & Hsplit)])%parse_ok;
    rewrite uri_parts_scheme.
  - left. split; [done|]. f_equal. apply segs_slashes.
    rewrite before_notin; [done|]. intros Hin. rewrite Forall_forall in Hs.
    by apply Hs in Hin.
  - right. split; [done|]. destruct (visitable_no_slash _ Hv) as (Hne & Hns & Hnq).
    rewrite <- (join_split c_slash path), Hsplit. destruct rest as [|y rest].
    + exists []. simpl join. rewrite before_notin, segs_seg by done. auto.
    + rewrite join_cons by done. rewrite before_app by done. cbn [app before].
      change (c_slash =? c_quest) with false. cbv iota.
      rewrite segs_app, segs_seg by done. eexists. split; [done|]. right. eauto.
Qed.

Lemma parse_parts_head uri v p ps :
  parse uri = Ok v -> uri_parts uri = Ok (p :: ps) ->
  uri_scope v = p /\ p ∈ VISITABLE_SCOPES /\
  (uri = SCHEME_SEP ++ p \/ exists q, uri = SCHEME_SEP ++ p ++ c_slash :: q).
Proof.
  intros [[_ H]|(Hv & rest & H & Hf)]%parse_parts Hp; rewrite H in Hp; simplify_eq; eauto.
Qed.

Lemma parse_str uri v : parse uri = Ok v -> uri_str v = uri.
Proof. by intros (? & _ & ? & _)%parse_ok. Qed.

Lemma rstrip_last_ne p s : s <> [] -> Forall (fun c => p c = false) s -> rstrip p s = s.
Proof.
  intros Hne H. destruct (last s) as [x|] eqn:L; [|by apply last_None in L].
  eapply rstrip_id; [done|]. rewrite Forall_forall in H. by apply H, last_Some_elem_of.
Qed.

Lemma rstrip_slash_no s : s <> [] -> c_slash ∉ s -> rstrip is_slash s = s.
Proof.
  intros Hne H. apply rstrip_last_ne; [done|]. apply Forall_forall. intros c Hc.
  unfold is_slash. apply N.eqb_neq. congruence.
Qed.

Lemma rstrip_keeps p a b :
  rstrip p b = [] -> rstrip p (a ++ b) = rstrip p a.
Proof.
  intros H. destruct (rstrip_decomp p b) as (k & Hk & Hf). rewrite H in Hk. simpl in Hk. subst k.
  unfold rstrip. rewrite reverse_app. apply Forall_reverse in Hf.
  f_equal. induction Hf as [|x r Hx _ IH]; [done|]. simpl. by rewrite Hx.
Qed.

(** Removing trailing slashes keeps the scope of an accepted URI. *)
Lemma rstrip_uri_shape scope q :
  scope ∈ VISITABLE_SCOPES ->
  rstrip is_slash (SCHEME_SEP ++ scope ++ c_slash :: q) = SCHEME_SEP ++ scope
  \/ exists q', rstrip is_slash (SCHEME_SEP ++ scope ++ c_slash :: q) = SCHEME_SEP ++ scope ++ c_slash :: q'.
Proof.
  intros Hv. destruct (visitable_no_slash _ Hv) as (Hne & Hns & _).
  destruct (decide (rstrip is_slash q = [])) as [Hq|Hq].
  - left. rewrite app_assoc. rewrite rstrip_keeps.
    + rewrite rstrip_app by (by rewrite rstrip_slash_no). by rewrite rstrip_slash_no.
    + apply rstrip_slash_nil. constructor; [done|]. by apply rstrip_slash_nil.
  - right. exists (rstrip is_slash q).
    replace (SCHEME_SEP ++ scope ++ c_slash :: q)
      with ((SCHEME_SEP ++ scope ++ [c_slash]) ++ q) by by rewrite <- !app_assoc.
    rewrite rstrip_app by done. by rewrite <- !app_assoc.
Qed.

Lemma parse_rstrip uri v p ps :
  parse uri = Ok v -> uri_parts uri = Ok (p :: ps) ->
  exists v' rest, parse (rstrip is_slash uri) = Ok v' /\ uri_parts (rstrip is_slash uri) = Ok (p :: rest).
Proof.
  intros Hp Hps. destruct (parse_parts_head _ _ _ _ Hp Hps) as (_ & Hv & Hshape).
  destruct (visitable_no_slash _ Hv) as (Hne & Hns & Hnq).
  assert (rstrip is_slash uri = SCHEME_SEP ++ p
          \/ exists q, rstrip is_slash uri = SCHEME_SEP ++ p ++ c_slash :: q) as Hr.
  { destruct Hshape as [-> | [q ->]]; [|by apply rstrip_uri_shape].
    left. rewrite rstrip_app by (by rewrite rstrip_slash_no). by rewrite rstrip_slash_no. }
  assert (exists v', parse (rstrip is_slash uri) = Ok v' /\ uri_scope v' = p) as (v' & Hv' & Hsc).
  { destruct Hr as [-> | [q ->]]; [rewrite parse_scope_only by done|rewrite parse_scope_tail by done]; eauto. }
  exists v'. destruct (parse_parts _ _ Hv') as [[Hn _]|(_ & rest & Hrest & _)]; [congruence|].
  rewrite Hsc in Hrest. eauto.
Qed.

(** ** Canonical form *)

Lemma user_prefix x : u "viking://user/" ++ x = SCHEME_SEP ++ u "user" ++ c_slash :: x.
Proof. done. Qed.

Lemma resolve_user_uri_spec rest r :
  resolve_user_uri (u "user" :: rest) = Ok r ->
  ns_uri r = SCHEME_SEP ++ path_join (u "user" :: rest) /\ ns_scope r = u "user"
  /\ ns_owner_user_id r = head rest
  /\ match rest with [] => True | uid :: _ => validate_user_id uid = None end.
Proof.
  unfold resolve_user_uri. destruct rest as [|uid rest]; [intros; by simplify_eq/=|].
  simpl lookup. cbv iota beta.
  destruct (validate_user_id uid) eqn:Hv; [done|].
  destruct rest as [|y rest]; [intros; by simplify_eq/=|].
  cbn [length Nat.eqb drop]. destruct (validate_peer_id_segments _) as [[]|]; [|done].
  intros [= <-]. split; [|by repeat split]. cbn [ns_uri]. unfold path_join.
  rewrite (join_cons _ (u "user")), (join_cons _ uid) by done. rewrite user_prefix. done.
Qed.

Lemma user_visitable : u "user" ∈ VISITABLE_SCOPES.
Proof. apply (bool_decide_unpack _). by vm_compute. Qed.

(** Resolving a canonical URI gives the same namespace again: the URI of a
    successful resolution is a fixed point of [resolve_uri]. *)
Theorem resolve_uri_idempotent (uri : pystr) (r : ResolvedNamespace)
    (H : resolve_uri uri = Ok r) : resolve_uri (ns_uri r) = Ok r.
Proof.
  unfold resolve_uri in H. destruct (parse uri) as [v|] eqn:Hp; [|done]. simpl in H.
  destruct (uri_parts uri) as [[|p ps]|] eqn:Hps; [by simplify_eq/=| |done]. simpl in H.
  rewrite (parse_str _ _ Hp) in H.
  destruct (seqb p (u "user")) eqn:Hu.
  - apply seqb_true in Hu as ->.
    destruct (resolve_user_uri_spec _ _ H) as (Hr & _). rewrite Hr.
    unfold resolve_uri. rewrite parse_scope by apply user_visitable.
    cbn [mbind result_bind uri_str]. rewrite uri_parts_join.
    + cbn [mbind result_bind]. by rewrite (proj2 (seqb_true _ _) eq_refl).
    + eapply uri_parts_ok, Hps.
    + eapply uri_parts_no_quest, Hps.
  - destruct (parse_rstrip _ _ _ _ Hp Hps) as (v' & rest & Hp' & Hps').
    assert (exists c, c = rstrip is_slash uri /\ rstrip is_slash c = c /\ nonempty c = true)
      as (c & Hc & Hcc & Hcn).
    { eexists. split; [done|]. split; [apply rstrip_idemp|]. apply nonempty_true. intros E.
      rewrite E in Hp'. done. }
    rewrite <- Hc in *. rewrite Hcn in H.
    assert (ns_uri r = c) as ->
      by (repeat match type of H with context [seqb ?a ?b] => destruct (seqb a b) end; by simplify_eq/=).
    unfold resolve_uri. rewrite Hp'. cbn [mbind result_bind].
    rewrite (parse_str _ _ Hp'), Hcc, Hcn, Hps'. cbn [mbind result_bind]. by rewrite Hu.
Qed.

Lemma resolve_uri_idempotent_witness :
  resolve_uri (u "viking://user//alice/peers/bob/")
    = Ok (MkNs (u "viking://user/alice/peers/bob") (u "user") (Some (u "alice")) false)
  /\ resolve_uri (u "viking://user/alice/peers/bob")
    = Ok (MkNs (u "viking://user/alice/peers/bob") (u "user") (Some (u "alice")) false).
Proof.
  split; [by vm_compute|].
  apply (resolve_uri_idempotent (u "viking://user//alice/peers/bob/")
    (MkNs (u "viking://user/alice/peers/bob") (u "user") (Some (u "alice")) false)).
  by vm_compute.
Defined.

(** ** Building, joining and taking the parent *)

Lemma filter_nonempty_ok l : Forall (fun p => c_slash ∉ p) l ->
  Forall seg_ok (filter (fun p => nonempty p = true) l).
Proof.
  intros H. apply Forall_forall. intros s [Hs Hin]%list_elem_of_filter.
  rewrite Forall_forall in H. split; [by apply nonempty_true|auto].
Qed.

(** [VikingURI.build] and [VikingURI] agree: a URI built from a scope and
    slash-free components is accepted, has that scope, and splits into the scope
    and the components that are not empty. *)
Theorem build_parse_roundtrip (scope : pystr) (parts : list pystr) (uri : pystr)
    (Hb : build scope parts = Ok uri)
    (Hs : Forall (fun p => c_slash ∉ p /\ c_quest ∉ p) parts) :
  exists v, parse uri = Ok v /\ uri_scope v = scope
    /\ uri_parts uri = Ok (scope :: filter (fun p => nonempty p = true) parts).
Proof.
  unfold build in Hb. destruct (mem scope VISITABLE_SCOPES) eqn:Hm; [|done].
  apply mem_true in Hm. destruct (mem scope ALIAS_SCOPES); [done|].
  cbn [negb orb] in Hb. injection Hb as <-.
  destruct (visitable_no_slash _ Hm) as (Hne & Hns & Hnq).
  rewrite filter_cons_True by by apply nonempty_true.
  unfold path_join. rewrite parse_scope by done. eexists. split; [done|]. split; [done|].
  apply uri_parts_join.
  - constructor; [done|]. apply filter_nonempty_ok. eapply Forall_impl; [done|]. naive_solver.
  - constructor; [done|]. apply Forall_forall. intros s [_ Hin]%list_elem_of_filter.
    rewrite Forall_forall in Hs. by apply Hs.
Qed.

Lemma build_parse_roundtrip_witness :
  uri_parts (u "viking://user/alice/skills") = Ok [u "user"; u "alice"; u "skills"].
Proof.
  edestruct (build_parse_roundtrip (u "user") [u "alice"; []; u "skills"]
    (u "viking://user/alice/skills")) as (v & _ & _ & Hp); [by vm_compute| |].
  - apply (bool_decide_unpack _). by vm_compute.
  - rewrite Hp. by vm_compute.
Defined.

Lemma rfind_app c a b : c ∉ b -> rfind c (a ++ c :: b) = Some (length a).
Proof.
  intros Hb. assert (rfind c b = None) as Hn.
  { induction b as [|x b IH]; [done|]. apply not_elem_of_cons in Hb as [Hx Hb]. simpl.
    rewrite IH by done. destruct (N.eqb_spec x c); congruence. }
  induction a as [|x a IH]; simpl; [by rewrite Hn, N.eqb_refl|]. by rewrite IH.
Qed.

Lemma last_sep c (s : pystr) : c ∈ s -> exists a b, s = a ++ c :: b /\ c ∉ b.
Proof.
  induction s as [|x s IH]; [set_solver|]. intros Hin.
  destruct (decide (c ∈ s)) as [Hs|Hs].
  - destruct (IH Hs) as (a & b & -> & Hb). by exists (x :: a), b.
  - assert (x = c) as -> by set_solver. by exists [], s.
Qed.

Lemma find_scheme p : find_sub (u "://") (SCHEME_SEP ++ p) = Some 6%nat.
Proof. done. Qed.

Lemma parse_root : parse SCHEME_SEP = Ok (MkUri SCHEME_SEP [] []).
Proof. done. Qed.

Lemma snoc_inj {A} (l1 l2 : list A) x y : l1 ++ [x] = l2 ++ [y] -> l1 = l2 /\ x = y.
Proof. apply app_inj_tail. Qed.

Lemma elem_of_rstrip p s x : x ∈ rstrip p s -> x ∈ s.
Proof. destruct (rstrip_decomp p s) as (k & Hk & _). intros H. rewrite Hk. set_solver. Qed.

Lemma rstrip_length p (s : pystr) : (length (rstrip p s) <= length s)%nat.
Proof.
  destruct (rstrip_decomp p s) as (k & Hk & _). rewrite Hk at 2. rewrite length_app. lia.
Qed.

(** [parent] once trailing slashes are gone, on the two shapes a URI can have. *)
Lemma parent_scope v p :
  rstrip is_slash (uri_str v) = SCHEME_SEP ++ p -> p <> [] -> c_slash ∉ p ->
  parent v = Ok (Some (MkUri SCHEME_SEP [] [])).
Proof.
  intros E Hne Hns. unfold parent. rewrite E, find_scheme.
  change (6 + length (u "://"))%nat with (length SCHEME_SEP). rewrite drop_app_length.
  rewrite bool_decide_eq_false_2 by done. cbn [negb].
  apply nonempty_true in Hne. by rewrite Hne, parse_root.
Qed.

Lemma parent_nested v a leaf w :
  rstrip is_slash (uri_str v) = SCHEME_SEP ++ a ++ c_slash :: leaf -> c_slash ∉ leaf ->
  parse (SCHEME_SEP ++ a) = Ok w -> parent v = Ok (Some w).
Proof.
  intros E Hl Hw. unfold parent. rewrite E, find_scheme.
  change (6 + length (u "://"))%nat with (length SCHEME_SEP). rewrite drop_app_length.
  rewrite bool_decide_eq_true_2 by set_solver. cbn [negb].
  rewrite (app_assoc SCHEME_SEP), rfind_app by done. by rewrite take_app_length, Hw.
Qed.

Lemma before_split c (s : pystr) : c ∈ s -> exists t, s = before c s ++ c :: t.
Proof.
  induction s as [|x s IH]; [set_solver|]. intros Hin. simpl.
  destruct (N.eqb_spec x c) as [->|Hne]; [by exists s|].
  destruct IH as [t Ht]; [set_solver|]. exists t. by rewrite Ht at 1.
Qed.

Lemma segs_before_rstrip path :
  segs (before c_quest (rstrip is_slash path)) = segs (before c_quest path).
Proof.
  destruct (decide (c_quest ∈ path)) as [Hin|Hin].
  - destruct (before_split _ _ Hin) as [t Ht].
    destruct (rstrip_cons_keep is_slash c_quest t eq_refl) as [r Hr].
    rewrite Ht at 1. rewrite rstrip_app by (by rewrite Hr). rewrite Hr, before_app by apply before_clean.
    cbn [before]. by rewrite N.eqb_refl, app_nil_r.
  - rewrite !before_notin by (try intros ?%elem_of_rstrip; done). apply segs_rstrip.
Qed.

Lemma uri_parts_rstrip uri p ps :
  uri_parts uri = Ok (p :: ps) -> uri_parts (rstrip is_slash uri) = Ok (p :: ps).
Proof.
  intros (path & -> & Hpath)%uri_parts_inv.
  assert (rstrip is_slash path <> []) as Hpn.
  { intros Hn. rewrite <- segs_before_rstrip, Hn in Hpath. done. }
  by rewrite rstrip_app, uri_parts_scheme, segs_before_rstrip, <- Hpath.
Qed.

(** The scope survives the removal of trailing slashes. *)
Lemma rstrip_uri_cases uri v p ps :
  parse uri = Ok v -> uri_parts uri = Ok (p :: ps) ->
  rstrip is_slash uri = SCHEME_SEP ++ p
  \/ exists q, rstrip is_slash uri = SCHEME_SEP ++ p ++ c_slash :: q.
Proof.
  intros Hp Hps. destruct (parse_parts_head _ _ _ _ Hp Hps) as (_ & Hv & Hshape).
  destruct (visitable_no_slash _ Hv) as (Hne & Hns & _).
  destruct Hshape as [E | [q E]]; rewrite E; [|by apply rstrip_uri_shape].
  left. rewrite rstrip_app by (by rewrite rstrip_slash_no). by rewrite rstrip_slash_no.
Qed.

(** Cutting a path at its last slash leaves an accepted URI. *)
Lemma parse_before_leaf p q a leaf :
  p ∈ VISITABLE_SCOPES -> p ++ c_slash :: q = a ++ c_slash :: leaf -> c_slash ∉ leaf ->
  exists w, parse (SCHEME_SEP ++ a) = Ok w.
Proof.
  intros Hv Ea Hleaf. destruct (decide (c_slash ∈ q)) as [Hin|Hin].
  - destruct (last_sep _ _ Hin) as (b & l2 & -> & Hl2).
    rewrite app_comm_cons, app_assoc in Ea.
    apply (f_equal (fun s => rfind c_slash s)) in Ea as Ei.
    rewrite !rfind_app in Ei by done. injection Ei as Ei.
    apply app_inj_1 in Ea as [<- _]; [|done]. rewrite parse_scope_tail by done. eauto.
  - apply (f_equal (fun s => rfind c_slash s)) in Ea as Ei.
    rewrite !rfind_app in Ei by done. injection Ei as Ei.
    apply app_inj_1 in Ea as [<- _]; [|done]. rewrite parse_scope_only by done. eauto.
Qed.

Lemma parent_root uri v :
  parse uri = Ok v -> uri_parts uri = Ok [] -> parent v = Ok None.
Proof.
  intros Hp Hps. destruct (parse_parts _ _ Hp) as [[E _]|(_ & r & E & _)]; [|congruence].
  destruct (parse_ok _ _ Hp) as (path & -> & Hstr & [(Hs & _)|(_ & Hv & _)]).
  - unfold parent. by rewrite Hstr, rstrip_scheme_slashes.
  - rewrite E in Hv. by apply visitable_no_slash in Hv as [? _].
Qed.

Lemma leaf_nonempty uri a leaf :
  rstrip is_slash uri = SCHEME_SEP ++ a ++ c_slash :: leaf -> leaf <> [].
Proof.
  intros E ->. assert (last (rstrip is_slash uri) = Some c_slash) as L.
  { rewrite E, app_assoc. by rewrite last_snoc. }
  by apply rstrip_last in L.
Qed.

(** [parent] of an accepted URI without a query always succeeds.  The root
    has no parent; any other URI has one, which is accepted again, is strictly
    shorter and has the same segments without the last. *)
Theorem parent_drops_last (uri : pystr) (v : VikingURI) (ps : list pystr)
    (Hp : parse uri = Ok v) (Hq : c_quest ∉ uri) (Hps : uri_parts uri = Ok ps) :
  match ps with
  | [] => parent v = Ok None
  | _ => exists w, parent v = Ok (Some w) /\ parse (uri_str w) = Ok w
         /\ (length (uri_str w) < length uri)%nat
         /\ uri_parts (uri_str w) = Ok (removelast ps)
  end.
Proof.
  destruct ps as [|p ps]; [eauto using parent_root|].
  pose proof (parse_str _ _ Hp) as Hstr.
  destruct (parse_parts_head _ _ _ _ Hp Hps) as (_ & Hv & _).
  destruct (visitable_no_slash _ Hv) as (Hne & Hns & Hnq).
  pose proof (uri_parts_rstrip _ _ _ Hps) as HU.
  pose proof (rstrip_length is_slash uri) as HUlen.
  assert (c_quest ∉ rstrip is_slash uri) as HUq by (intros ?%elem_of_rstrip; done).
  destruct (rstrip_uri_cases _ _ _ _ Hp Hps) as [E|[q E]]; rewrite E in HU, HUlen, HUq.
  - exists (MkUri SCHEME_SEP [] []). split; [|split; [done|split]].
    + eapply parent_scope; [by rewrite Hstr|done|done].
    + rewrite length_app in HUlen. cbn [uri_str]. destruct p; [done|]. cbn [length] in HUlen. lia.
    + rewrite uri_parts_scheme, before_notin, segs_seg in HU by done. by injection HU as <-.
  - destruct (last_sep c_slash (p ++ c_slash :: q)) as (a & leaf & Ea & Hleaf); [set_solver|].
    rewrite Ea in E, HU, HUlen, HUq. pose proof (leaf_nonempty _ _ _ E) as Hlne.
    destruct (parse_before_leaf _ _ _ _ Hv Ea Hleaf) as [w Hw].
    pose proof (parse_str _ _ Hw) as Hws. exists w. rewrite Hws. split; [|split; [done|split]].
    + eapply parent_nested; [by rewrite Hstr|done|done].
    + rewrite !length_app in HUlen. rewrite length_app. cbn [length] in HUlen. lia.
    + rewrite uri_parts_scheme, before_notin in HU by set_solver.
      rewrite segs_app, (segs_seg leaf) in HU by done. injection HU as HU.
      rewrite uri_parts_scheme, before_notin by set_solver. f_equal.
      rewrite <- HU. by rewrite removelast_last.
Qed.

Lemma parent_drops_last_witness :
  exists w, parent (MkUri (u "viking://user/alice//skills/") (u "user") (u "user/alice//skills/"))
              = Ok (Some w)
            /\ uri_parts (uri_str w) = Ok [u "user"; u "alice"].
Proof.
  destruct (parent_drops_last (u "viking://user/alice//skills/")
    (MkUri (u "viking://user/alice//skills/") (u "user") (u "user/alice//skills/"))
    [u "user"; u "alice"; u "skills"]) as (w & H1 & _ & _ & H2).
  - by vm_compute.
  - apply (bool_decide_unpack _). by vm_compute.
  - by vm_compute.
  - eauto.
Defined.

Lemma strip_slash_segs s : segs (strip is_slash s) = segs s.
Proof.
  unfold strip. rewrite segs_rstrip.
  destruct (lstrip_decomp is_slash s) as (k & Hk & Hf%is_slash_all).
  rewrite Hk at 2. clear Hk. induction Hf as [|x k -> _ IH]; [done|].
  change ((c_slash :: k) ++ ?r) with ([] ++ c_slash :: (k ++ r)). by rewrite segs_app, <- IH.
Qed.

Lemma parse_full_path uri v :
  parse uri = Ok v -> uri_scope v <> [] -> uri = SCHEME_SEP ++ uri_full_path v.
Proof. intros (path & -> & _ & [(_ & ? & _)|(-> & _)])%parse_ok; done. Qed.

(** Joining appends segments: for an accepted URI below the root, [join]
    succeeds and the result has the segments of the URI followed by those of the
    joined part, whatever slashes surround or separate them. *)
Theorem uri_join_segments (uri part : pystr) (v : VikingURI) (ps : list pystr)
    (Hp : parse uri = Ok v) (Hsc : uri_scope v <> [])
    (Hq : c_quest ∉ uri ++ part) (Hps : uri_parts uri = Ok ps) :
  exists w, uri_join v part = Ok w /\ uri_parts (uri_str w) = Ok (ps ++ segs part).
Proof.
  pose proof (parse_str _ _ Hp) as Hstr. apply not_elem_of_app in Hq as [Hq1 Hq2].
  assert ((if nonempty part then strip is_slash part else []) = strip is_slash part) as Hpart
    by by destruct part.
  unfold uri_join. rewrite Hpart.
  rewrite <- (strip_slash_segs part). set (t := strip is_slash part).
  assert (c_quest ∉ t) as Hqt by (intros ?%strip_sub; done).
  destruct (nonempty t) eqn:Ht; cbn [negb].
  2:{ apply nonempty_false in Ht. rewrite Ht, segs_nil, app_nil_r. exists v. by rewrite Hstr. }
  destruct ps as [|p ps].
  { destruct (parse_parts _ _ Hp) as [[? _]|(_ & r & E & _)]; congruence. }
  destruct (parse_parts_head _ _ _ _ Hp Hps) as (_ & Hv & _).
  destruct (visitable_no_slash _ Hv) as (Hne & Hns & Hnq).
  pose proof (parse_full_path _ _ Hp Hsc) as Hfp.
  assert (c_quest ∉ uri_full_path v) as Hqp.
  { rewrite Hfp in Hq1. by apply not_elem_of_app in Hq1 as [_ ?]. }
  set (full := rstrip is_slash (uri_full_path v)).
  assert (full = p \/ exists q, full = p ++ c_slash :: q) as Hfull.
  { assert (full <> []) as Hfn.
    { intros Hn%rstrip_slash_nil. rewrite Hfp, uri_parts_scheme, before_notin in Hps by done.
      by rewrite segs_slashes in Hps. }
    destruct (rstrip_uri_cases _ _ _ _ Hp Hps) as [E|[q E]];
      rewrite Hfp, rstrip_app in E by done; apply app_inv_head in E; eauto. }
  assert (nonempty full = true) as -> by (destruct Hfull as [-> | [q ->]]; by destruct p).
  assert (exists w, parse (SCHEME_SEP ++ full ++ [c_slash] ++ t) = Ok w) as [w Hw].
  { destruct Hfull as [-> | [q ->]]; cbn [app].
    - rewrite parse_scope_tail by done. eauto.
    - rewrite <- app_assoc. cbn [app]. rewrite parse_scope_tail by done. eauto. }
  exists w. split; [done|]. rewrite (parse_str _ _ Hw), uri_parts_scheme.
  assert (c_quest ∉ full) as Hqf by (by intros ?%elem_of_rstrip).
  rewrite before_notin by (cbn [app]; rewrite elem_of_app, elem_of_cons; naive_solver).
  cbn [app]. rewrite segs_app. unfold full. rewrite segs_rstrip.
  rewrite Hfp, uri_parts_scheme, before_notin in Hps by done. injection Hps as Hps.
  by rewrite Hps.
Qed.

Lemma uri_join_segments_witness :
  exists w, uri_join (MkUri (u "viking://user/alice/") (u "user") (u "user/alice/")) (u "/skills//pdf/") = Ok w
            /\ uri_parts (uri_str w) = Ok ([u "user"; u "alice"] ++ [u "skills"; u "pdf"]).
Proof.
  destruct (uri_join_segments (u "viking://user/alice/") (u "/skills//pdf/")
    (MkUri (u "viking://user/alice/") (u "user") (u "user/alice/")) [u "user"; u "alice"])
    as (w & H1 & H2); [by vm_compute|done| |by vm_compute|].
  - apply (bool_decide_unpack _). by vm_compute.
  - exists w. split; [done|]. rewrite H2. by vm_compute.
Defined.

(** ** Access *)

(** The namespace access rule on the segments of a URI. *)
Definition access_rule (parts : list pystr) (ctx : RequestContext) : bool :=
  match parts with
  | [] => true
  | scope :: rest =>
      if mem scope [u "resources"; u "temp"; u "queue"] then true
      else if seqb scope (u "user") then
        match rest with
        | [] => true
        | owner :: rest2 =>
            seqb owner (ctx_user_id ctx) && negb (truthy (validate_user_id owner))
            && match rest2 with
               | peers :: peer :: _ =>
                   negb (seqb peers (u "peers")) || is_ok (require_peer_id_segment peer)
               | _ => true
               end
        end
      else if seqb scope (u "agent") then
        match rest, ctx_actor_peer_id ctx with
        | p1 :: _, Some actor => negb (nonempty actor) || seqb p1 actor
        | _, _ => true
        end
      else false
  end.

Lemma validate_user_id_msg s e : validate_user_id s = Some e -> e <> [].
Proof.
  unfold validate_user_id, validate_identifier_part.
  repeat case_match; intros; simplify_eq; done.
Qed.

Lemma require_peer_error p e : require_peer_id_segment p = Err e -> e = NamespaceShapeError.
Proof.
  unfold require_peer_id_segment, normalize_peer_id, normalize_identifier_part.
  repeat case_match; intros; simplify_eq/=; done.
Qed.

(** [resolve_user_uri] fails only with [NamespaceShapeError], and succeeds exactly
    when the user and peer segments are well formed. *)
Lemma resolve_user_uri_dec owner rest2 :
  let ok := negb (truthy (validate_user_id owner))
            && match rest2 with
               | peers :: peer :: _ =>
                   negb (seqb peers (u "peers")) || is_ok (require_peer_id_segment peer)
               | _ => true
               end in
  (ok = true /\ is_ok (resolve_user_uri (u "user" :: owner :: rest2)) = true) \/
  (ok = false /\ resolve_user_uri (u "user" :: owner :: rest2) = Err NamespaceShapeError).
Proof.
  unfold resolve_user_uri. simpl lookup. cbv iota beta.
  destruct (validate_user_id owner) as [e|] eqn:Hv.
  { right. apply validate_user_id_msg in Hv. by destruct e. }
  destruct rest2 as [|peers [|peer rest2]]; [by left|by left|].
  cbn [length Nat.eqb drop truthy negb andb]. unfold validate_peer_id_segments, part_is.
  cbn [length Nat.leb andb]. simpl lookup.
  rewrite bool_decide_eq_true_2 by done. cbn [andb].
  destruct (decide (peers = u "peers")) as [->|Hne].
  - rewrite bool_decide_eq_true_2 by done. rewrite (proj2 (seqb_true _ _) eq_refl). cbn [negb orb].
    destruct (require_peer_id_segment peer) as [[]|e] eqn:Er; [by left|].
    right. split; [done|]. by rewrite (require_peer_error _ _ Er).
  - rewrite bool_decide_eq_false_2 by congruence. apply seqb_false in Hne. rewrite Hne. by left.
Qed.

Lemma visitable_cases p : p ∈ VISITABLE_SCOPES ->
  p = u "resources" \/ p = u "user" \/ p = u "agent" \/ p = u "session" \/ p = u "temp"
  \/ p = u "queue" \/ p = u "upload" \/ p = u "~".
Proof.
  unfold VISITABLE_SCOPES, PUBLIC_SCOPES, LISTABLE_SCOPES, LEGACY_SCOPES, INTERNAL_SCOPES, ALIAS_SCOPES.
  set_solver.
Qed.

(** [resolve_uri] outside the [user] scope. *)
Lemma resolve_other uri v p ps :
  parse uri = Ok v -> uri_parts uri = Ok (p :: ps) -> p <> u "user" ->
  resolve_uri uri = (if mem p [u "~"; u "session"] then Err NamespaceShapeError
                     else Ok (MkNs (rstrip is_slash uri) p None false)).
Proof.
  intros Hp Hps Hne. destruct (parse_rstrip _ _ _ _ Hp Hps) as (v' & r & Hp' & _).
  assert (nonempty (rstrip is_slash uri) = true) as Hn.
  { apply nonempty_true. intros E. by rewrite E in Hp'. }
  destruct (parse_parts_head _ _ _ _ Hp Hps) as (_ & Hv & _).
  unfold resolve_uri. rewrite Hp. cbn [mbind result_bind].
  rewrite (parse_str _ _ Hp), Hn, Hps. cbn [mbind result_bind].
  apply visitable_cases in Hv.
  destruct_or! Hv; subst p; by vm_compute || done.
Qed.

Lemma resolve_user uri v ps :
  parse uri = Ok v -> uri_parts uri = Ok (u "user" :: ps) ->
  resolve_uri uri = resolve_user_uri (u "user" :: ps).
Proof.
  intros Hp Hps. unfold resolve_uri. rewrite Hp. cbn [mbind result_bind]. rewrite Hps.
  cbn [mbind result_bind]. by rewrite (proj2 (seqb_true _ _) eq_refl).
Qed.

Lemma access_user ctx ps uri v :
  parse uri = Ok v -> uri_parts uri = Ok (u "user" :: ps) -> ctx_role ctx <> ROOT ->
  is_accessible uri ctx = Ok (access_rule (u "user" :: ps) ctx).
Proof.
  intros Hp Hps Hr. unfold is_accessible. apply seqb_false in Hr. rewrite Hr.
  rewrite (resolve_user _ _ _ Hp Hps).
  unfold access_rule. change (mem (u "user") _) with false.
  rewrite (proj2 (seqb_true _ _) eq_refl). cbv iota.
  destruct ps as [|owner rest2]; [done|].
  destruct (resolve_user_uri_dec owner rest2) as [[Hok Hres]|[Hok Hres]];
    rewrite <- andb_assoc; rewrite Hok.
  - destruct (resolve_user_uri _) as [r|] eqn:E; [|done].
    destruct (resolve_user_uri_spec _ _ E) as (_ & Hsc & Hown & Hval).
    rewrite Hsc, Hown. cbn [head]. apply validate_accepts_no_slash in Hval as [Hne _].
    apply nonempty_true in Hne. rewrite Hne. change (mem (u "user") _) with false.
    change (seqb (u "user") (u "upload")) with false.
    rewrite (proj2 (seqb_true _ _) eq_refl). cbn [andb].
    by destruct (seqb owner (ctx_user_id ctx)).
  - by rewrite Hres, andb_false_r.
Qed.

Lemma access_other ctx p ps uri v :
  parse uri = Ok v -> uri_parts uri = Ok (p :: ps) -> p <> u "user" -> ctx_role ctx <> ROOT ->
  is_accessible uri ctx = Ok (access_rule (p :: ps) ctx).
Proof.
  intros Hp Hps Hne Hr. unfold is_accessible. apply seqb_false in Hr. rewrite Hr.
  rewrite (resolve_other _ _ _ _ Hp Hps Hne).
  destruct (parse_parts_head _ _ _ _ Hp Hps) as (_ & Hv & _).
  apply visitable_cases in Hv. destruct_or! Hv; subst p; try done.
  cbn [mem]. change (mem (u "agent") _) with false. cbv iota. cbn [ns_scope ns_uri].
  change (mem (u "agent") _) with false. change (seqb (u "agent") (u "upload")) with false.
  change (seqb (u "agent") (u "user")) with false.
  rewrite (proj2 (seqb_true _ _) eq_refl). cbv iota.
  rewrite (uri_parts_rstrip _ _ _ Hps). cbn [mbind result_bind access_rule].
  change (mem (u "agent") _) with false. change (seqb (u "agent") (u "user")) with false.
  rewrite (proj2 (seqb_true _ _) eq_refl). cbv iota.
  destruct ps as [|p1 ps], (ctx_actor_peer_id ctx) as [a|]; cbn [truthy length Nat.leb andb];
    rewrite ?andb_false_r; try done.
  cbn [lookup list_lookup]. rewrite andb_true_r. destruct (nonempty a); [|done]. cbn [andb negb orb].
  unfold seqb. destruct (decide (p1 = a)) as [->|Hd].
  - by rewrite !bool_decide_eq_true_2.
  - by rewrite !bool_decide_eq_false_2 by congruence.
Qed.

(** For every caller but a root one, the namespace check on an accepted URI
    returns and decides the access rule on the URI's segments. *)
Theorem is_accessible_rule (uri : pystr) (v : VikingURI) (ps : list pystr) (ctx : RequestContext)
    (Hp : parse uri = Ok v) (Hps : uri_parts uri = Ok ps) (Hr : ctx_role ctx <> ROOT) :
  is_accessible uri ctx = Ok (access_rule ps ctx).
Proof.
  destruct ps as [|p ps].
  - unfold is_accessible, resolve_uri. apply seqb_false in Hr. rewrite Hr, Hp.
    cbn [mbind result_bind]. by rewrite Hps.
  - destruct (decide (p = u "user")) as [->|Hne]; [by eapply access_user|by eapply access_other].
Qed.

Definition alice : RequestContext :=
  MkCtx (MkUser (u "acme") (u "alice")) USER [u "ops"] (Some (u "bob")) false None false.

Lemma is_accessible_rule_witness :
  is_accessible (u "viking://user/carol/memories") alice = Ok false
  /\ is_accessible (u "viking://agent/bob/x") alice = Ok true.
Proof.
  split.
  - rewrite (is_accessible_rule (u "viking://user/carol/memories")
      (MkUri (u "viking://user/carol/memories") (u "user") (u "user/carol/memories"))
      [u "user"; u "carol"; u "memories"] alice); by vm_compute.
  - by vm_compute.
Defined.

(** Outside root, only the owner's segment opens a user tree. *)
Lemma owner_only (uri : pystr) (ctx : RequestContext) (owner : pystr) (rest : list pystr)
    (Hr : ctx_role ctx <> ROOT) (Ha : is_accessible uri ctx = Ok true)
    (Hps : uri_parts uri = Ok (u "user" :: owner :: rest)) :
  owner = ctx_user_id ctx.
Proof.
  destruct (parse uri) as [v|e] eqn:Hp.
  - rewrite (access_user _ _ _ _ Hp Hps Hr) in Ha. injection Ha as Ha. cbn [access_rule] in Ha.
    change (mem (u "user") _) with false in Ha.
    rewrite (proj2 (seqb_true _ _) eq_refl) in Ha. cbv iota in Ha.
    apply andb_true_iff in Ha as [[?%seqb_true _]%andb_true_iff _]. done.
  - unfold is_accessible, resolve_uri in Ha. apply seqb_false in Hr. rewrite Hr, Hp in Ha.
    cbn [mbind result_bind] in Ha. by destruct e.
Qed.

(** C9: isolation between users: a caller who is not root is never granted a URI
    below another user's root, whatever slashes, query or suffix the URI has. *)
Theorem user_isolation (uri : pystr) (ctx : RequestContext) (owner : pystr) (rest : list pystr)
    (Hr : ctx_role ctx <> ROOT) (Ha : is_accessible uri ctx = Ok true)
    (Hps : uri_parts uri = Ok (u "user" :: owner :: rest)) :
  owner = ctx_user_id ctx.
Proof. by eapply owner_only. Qed.

Lemma user_isolation_witness : u "alice" = ctx_user_id alice.
Proof.
  apply (user_isolation (u "viking://user//alice/skills?x=1") alice (u "alice") [u "skills"]);
    by vm_compute.
Defined.

(** ** Request aliases *)

Lemma wf_user_segment us : wf_user us -> seg_ok (user_id us) /\ c_quest ∉ user_id us.
Proof.
  unfold wf_user, new_user, user_validate_error. destruct (validate_account_id _) as [e|] eqn:Ha.
  - intros H. destruct e; [|done]. exfalso. clear -Ha. unfold validate_account_id, validate_identifier_part in Ha.
    repeat case_match; simplify_eq; done.
  - destruct (validate_user_id (user_id us)) as [e|] eqn:Hv.
    + apply validate_user_id_msg in Hv. by destruct e.
    + intros _. apply validate_accepts_no_slash in Hv as (? & ? & ? & _). done.
Qed.

Lemma canonical_root_eq ctx :
  canonical_user_root ctx = SCHEME_SEP ++ path_join [u "user"; ctx_user_id ctx].
Proof. done. Qed.

Lemma canonical_below ctx rest :
  rest <> [] ->
  canonical_user_root ctx ++ [c_slash] ++ path_join rest
  = SCHEME_SEP ++ path_join (u "user" :: ctx_user_id ctx :: rest).
Proof.
  intros Hr. rewrite canonical_root_eq. unfold path_join.
  rewrite (join_cons _ (u "user") (ctx_user_id ctx :: rest)), (join_cons _ (ctx_user_id ctx) rest) by done.
  rewrite <- !app_assoc. done.
Qed.

Lemma user_seg_ok : seg_ok (u "user") /\ c_quest ∉ u "user".
Proof. unfold seg_ok. apply (bool_decide_unpack _). by vm_compute. Qed.

Lemma own_parts ctx rest :
  wf_user (ctx_user ctx) -> Forall seg_ok rest -> Forall (fun s => c_quest ∉ s) rest ->
  uri_parts (SCHEME_SEP ++ path_join (u "user" :: ctx_user_id ctx :: rest))
  = Ok (u "user" :: ctx_user_id ctx :: rest).
Proof.
  intros [H1 H2]%wf_user_segment Hr Hq. destruct user_seg_ok.
  apply uri_parts_join; by apply Forall_cons; split; [|apply Forall_cons; split].
Qed.

(** For every role, a URI below the home alias ["~"] resolves, at the
    request boundary, to the same segments below the caller's own user root. *)
Theorem home_alias_resolves (uri : pystr) (ctx : RequestContext) (rest : list pystr)
    (Hw : wf_user (ctx_user ctx)) (Hps : uri_parts uri = Ok (u "~" :: rest)) :
  exists c, resolve_request_uri uri ctx = Ok c
            /\ uri_parts c = Ok (u "user" :: ctx_user_id ctx :: rest).
Proof.
  pose proof (uri_parts_ok _ _ Hps) as Hok. pose proof (uri_parts_no_quest _ _ Hps) as Hq.
  inversion Hok as [|?? _ Hok']; subst. inversion Hq as [|?? _ Hq']; subst.
  exists (SCHEME_SEP ++ path_join (u "user" :: ctx_user_id ctx :: rest)).
  split; [|by apply own_parts].
  unfold resolve_request_uri. rewrite Hps. cbn [mbind result_bind].
  unfold part_is. rewrite bool_decide_eq_true_2 by done.
  unfold resolve_current_user_uri. rewrite Hps. cbn [mbind result_bind].
  rewrite (proj2 (seqb_true _ _) eq_refl). destruct rest as [|y rest]; [done|].
  by rewrite canonical_below.
Qed.

Lemma alice_wf : wf_user (ctx_user alice).
Proof. by vm_compute. Qed.

Lemma home_alias_resolves_witness :
  exists c, resolve_request_uri (u "viking://~/memories/") alice = Ok c
            /\ uri_parts c = Ok [u "user"; u "alice"; u "memories"].
Proof.
  apply (home_alias_resolves (u "viking://~/memories/") alice [u "memories"]);
    [apply alice_wf|by vm_compute].
Defined.

(** A canonical URI: accepted segments whose first one is neither alias. *)
Definition no_alias (ps : list pystr) : Prop :=
  head ps <> Some (u "~") /\ head ps <> Some (u "session").

Lemma resolve_uri_no_alias uri r :
  resolve_uri uri = Ok r -> exists ps, uri_parts (ns_uri r) = Ok ps /\ no_alias ps.
Proof.
  intros H. pose proof H as H0. unfold resolve_uri in H0.
  destruct (parse uri) as [v|] eqn:Hp; [|done]. cbn [mbind result_bind] in H0.
  destruct (uri_parts uri) as [[|p ps]|] eqn:Hps; [|clear H0|done].
  { exists []. injection H0 as <-. done. }
  destruct (decide (p = u "user")) as [->|Hne].
  - rewrite (resolve_user _ _ _ Hp Hps) in H.
    destruct (resolve_user_uri_spec _ _ H) as (-> & _).
    exists (u "user" :: ps). split; [|done].
    apply uri_parts_join; [by eapply uri_parts_ok|by eapply uri_parts_no_quest].
  - rewrite (resolve_other _ _ _ _ Hp Hps Hne) in H.
    destruct (mem p _) eqn:Hm; [done|]. injection H as <-. cbn [ns_uri].
    exists (p :: ps). split; [by apply uri_parts_rstrip|].
    apply mem_false in Hm. unfold no_alias. cbn [head]. set_solver.
Qed.

Lemma sessions_seg_ok : seg_ok (u "sessions") /\ c_quest ∉ u "sessions".
Proof. unfold seg_ok. apply (bool_decide_unpack _). by vm_compute. Qed.

Lemma session_root_eq ctx :
  canonical_session_root ctx = SCHEME_SEP ++ path_join [u "user"; ctx_user_id ctx; u "sessions"].
Proof.
  unfold canonical_session_root. rewrite canonical_root_eq, <- app_assoc. by f_equal.
Qed.

Lemma session_below ctx l :
  l <> [] ->
  canonical_session_root ctx ++ [c_slash] ++ path_join l
  = SCHEME_SEP ++ path_join (u "user" :: ctx_user_id ctx :: u "sessions" :: l).
Proof.
  intros Hl. rewrite session_root_eq. unfold path_join.
  change (u "user" :: ctx_user_id ctx :: u "sessions" :: l)
    with ([u "user"; ctx_user_id ctx; u "sessions"] ++ l).
  rewrite join_app by done. by rewrite <- app_assoc.
Qed.

Lemma current_user_no_alias uri ctx c :
  wf_user (ctx_user ctx) -> resolve_current_user_uri uri ctx = Ok c ->
  exists ps, uri_parts c = Ok ps /\ no_alias ps.
Proof.
  intros Hw H. unfold resolve_current_user_uri in H.
  destruct (uri_parts uri) as [ps|] eqn:Hps; [|done]. cbn [mbind result_bind] in H.
  pose proof (uri_parts_ok _ _ Hps) as Hok. pose proof (uri_parts_no_quest _ _ Hps) as Hq.
  destruct ps as [|p0 rest]; [injection H as <-; by exists []|].
  inversion Hok as [|?? _ Hok']; subst. inversion Hq as [|?? _ Hq']; subst.
  destruct sessions_seg_ok as [Hs1 Hs2].
  destruct (seqb p0 (u "~")).
  { exists (u "user" :: ctx_user_id ctx :: rest). split; [|done].
    rewrite <- own_parts by done. destruct rest; injection H as <-; [done|]. by rewrite <- canonical_below. }
  destruct (seqb p0 (u "session")).
  { exists (u "user" :: ctx_user_id ctx :: u "sessions" :: rest). split; [|done].
    rewrite <- own_parts by (done || by apply Forall_cons).
    destruct rest as [|p1 rest2]; [injection H as <-; by rewrite session_root_eq|].
    inversion Hok' as [|?? [Hne _] _]; subst. apply nonempty_true in Hne.
    rewrite <- session_below by done. unfold canonical_session_uri in H. rewrite Hne in H.
    destruct rest2 as [|y rest2]; injection H as <-; [done|].
    unfold path_join. rewrite (join_cons _ p1) by done. by rewrite <- !app_assoc. }
  destruct (_ && _); [done|].
  destruct (resolve_uri uri) as [r|] eqn:Hr; [|done]. injection H as <-.
  by apply resolve_uri_no_alias in Hr.
Qed.

(** No alias leaves the request boundary: whatever the role, a resolved
    request URI splits into segments whose first one is neither ["~"] nor the
    legacy ["session"]. *)
Theorem request_uri_no_alias (uri : pystr) (ctx : RequestContext) (c : pystr)
    (Hw : wf_user (ctx_user ctx)) (H : resolve_request_uri uri ctx = Ok c) :
  exists ps, uri_parts c = Ok ps /\ head ps <> Some (u "~") /\ head ps <> Some (u "session").
Proof.
  unfold resolve_request_uri in H.
  destruct (uri_parts uri) as [ps|] eqn:Hps; [|done]. cbn [mbind result_bind] in H.
  destruct (part_is ps 0 (u "~")); [by eapply current_user_no_alias|].
  destruct (mem _ _); [by eapply current_user_no_alias|].
  destruct (resolve_uri uri) as [r|] eqn:Hr; [|done]. injection H as <-.
  by apply resolve_uri_no_alias in Hr.
Qed.

Lemma request_uri_no_alias_witness :
  exists ps, uri_parts (u "viking://user/alice/sessions/s1/m") = Ok ps
             /\ head ps <> Some (u "~") /\ head ps <> Some (u "session").
Proof.
  apply (request_uri_no_alias (u "viking://session/s1/m") alice); [apply alice_wf|by vm_compute].
Defined.

(** ** Actor peer view *)

(** A URI at or below the caller's own root, as seen by the actor peer filter. *)
Lemma suffix_below uri ctx r rest :
  truthy (ctx_actor_peer_id ctx) = true -> resolve_uri uri = Ok r ->
  uri_parts uri = Ok (u "user" :: ctx_user_id ctx :: rest) ->
  actor_peer_view_user_suffix uri ctx = Ok (Some rest).
Proof.
  intros Ht Hr Hps. unfold actor_peer_view_user_suffix. rewrite Ht, Hr, Hps. cbn [negb mbind result_bind].
  change (length [u "user"; ctx_user_id ctx]) with 2%nat. cbn [take drop].
  by rewrite bool_decide_eq_true_2.
Qed.

(** The peer view never leaks through a recursive read: when a URI at or
    below the caller's root is neither hidden nor reported as possibly holding
    hidden peers, no URI below it is hidden. *)
Theorem peer_view_covers_descendants (uri child : pystr) (ctx : RequestContext)
    (r rc : ResolvedNamespace) (rest below : list pystr)
    (Hr : resolve_uri uri = Ok r) (Hrc : resolve_uri child = Ok rc)
    (Hps : uri_parts uri = Ok (u "user" :: ctx_user_id ctx :: rest))
    (Hpc : uri_parts child = Ok (u "user" :: ctx_user_id ctx :: rest ++ below))
    (Hh : is_hidden_by_actor_peer_view uri ctx = Ok false)
    (Hm : may_include_hidden_actor_peers uri ctx = Ok false) :
  is_hidden_by_actor_peer_view child ctx = Ok false.
Proof.
  unfold is_hidden_by_actor_peer_view, may_include_hidden_actor_peers in *.
  destruct (truthy (ctx_actor_peer_id ctx)) eqn:Ht.
  2:{ unfold actor_peer_view_user_suffix. by rewrite Ht. }
  rewrite (suffix_below _ _ _ _ Ht Hr Hps) in Hh, Hm.
  rewrite (suffix_below _ _ _ _ Ht Hrc Hpc). cbn [mbind result_bind] in *.
  injection Hh as Hh. injection Hm as Hm. apply orb_false_iff in Hm as [Hm1 Hm2].
  apply bool_decide_eq_false in Hm1, Hm2. f_equal.
  destruct rest as [|p0 [|p1 rest]]; [done| |exact Hh].
  unfold part_is. cbn [app lookup list_lookup].
  rewrite (bool_decide_eq_false_2 (Some p0 = _)) by congruence. by rewrite andb_false_r.
Qed.

Lemma peer_view_covers_descendants_witness :
  is_hidden_by_actor_peer_view (u "viking://user/alice/peers/bob/memories") alice = Ok false.
Proof.
  apply (peer_view_covers_descendants (u "viking://user/alice/peers/bob")
    (u "viking://user/alice/peers/bob/memories") alice
    (MkNs (u "viking://user/alice/peers/bob") (u "user") (Some (u "alice")) false)
    (MkNs (u "viking://user/alice/peers/bob/memories") (u "user") (Some (u "alice")) false)
    [u "peers"; u "bob"] [u "memories"]); by vm_compute.
Defined.

(** Above the caller's root the report is negative although a recursive read
    reaches hidden peers. *)
Example may_include_misses_ancestors :
  may_include_hidden_actor_peers (u "viking://user") alice = Ok false
  /\ is_hidden_by_actor_peer_view (u "viking://user/alice/peers/carol") alice = Ok true.
Proof. by vm_compute. Qed.

(** ** Owners *)

(** Writing content under a URI with the caller's authority keeps everything
    of the request context but the user, and the account of the user: the
    context returned belongs to the owner of the URI, or is the caller's. *)
Theorem content_owner_context_frame (uri : pystr) (ctx ctx' : RequestContext)
    (H : content_owner_context_for_uri uri ctx = Ok ctx') :
  ctx_account_id ctx' = ctx_account_id ctx /\ ctx_role ctx' = ctx_role ctx
  /\ ctx_group_ids ctx' = ctx_group_ids ctx /\ ctx_actor_peer_id ctx' = ctx_actor_peer_id ctx
  /\ ctx_bypass_acl ctx' = ctx_bypass_acl ctx
  /\ match owner_fields_for_uri uri with
     | Ok (_, Some owner) => owner <> [] -> ctx_user_id ctx' = owner
     | _ => ctx' = ctx
     end.
Proof.
  unfold content_owner_context_for_uri in H.
  destruct (owner_fields_for_uri uri) as [[c [owner|]]|]; cbn [mbind result_bind] in H; [| |done].
  2:{ by injection H as <-. }
  destruct (nonempty owner) eqn:Hn; cbn [negb orb] in H.
  2:{ injection H as <-. apply nonempty_false in Hn. naive_solver. }
  destruct (seqb owner (ctx_user_id ctx)) eqn:Ho.
  { injection H as <-. apply seqb_true in Ho. naive_solver. }
  unfold new_user in H. destruct (nonempty (user_validate_error _ _)); [done|].
  cbn [mbind result_bind] in H. injection H as <-. done.
Qed.

Lemma content_owner_context_frame_witness :
  exists ctx', content_owner_context_for_uri (u "viking://user/carol/resources") alice = Ok ctx'
    /\ ctx_role ctx' = USER.
Proof.
  eexists. split; [by vm_compute|].
  refine (proj1 (proj2 (content_owner_context_frame (u "viking://user/carol/resources") alice _ _))).
  by vm_compute.
Defined.
