(* ===== verification/Acl.v ===== *)
(** Access control lists: the pure part of [openviking/storage/acl.py].

    Levels and their masks, principals, grants and their token encoding,
    normalisation of entry lists, union, and the decision [acl_allows]. *)
From Stdlib Require Import NArith ZArith.
From S2P Require Import Prelude PyStr PyVal Identifiers Uri Namespace.

Open Scope N_scope.

(** ** Levels *)

Inductive AclLevel := READ | WRITE | MANAGE.
Inductive AclAction := A_READ | A_WRITE | A_MANAGE.
Inductive CreatorAclGrant := DIRECT | INHERITED.

#[export] Instance AclLevel_eq_dec : EqDecision AclLevel.
Proof. solve_decision. Defined.
#[export] Instance AclAction_eq_dec : EqDecision AclAction.
Proof. solve_decision. Defined.
#[export] Instance CreatorAclGrant_eq_dec : EqDecision CreatorAclGrant.
Proof. solve_decision. Defined.

Definition level_mask (l : AclLevel) : Z :=
  match l with READ => 1 | WRITE => 3 | MANAGE => 7 end%Z.

Definition mask_level (z : Z) : option AclLevel :=
  if Z.eqb z 1 then Some READ else if Z.eqb z 3 then Some WRITE
  else if Z.eqb z 7 then Some MANAGE else None.

(** [AclLevel(action.value)]. *)
Definition action_level (a : AclAction) : AclLevel :=
  match a with A_READ => READ | A_WRITE => WRITE | A_MANAGE => MANAGE end.

Definition level_value (l : AclLevel) : pystr :=
  match l with READ => u "read" | WRITE => u "write" | MANAGE => u "manage" end.

(** [mask & required == required]. *)
Definition level_covers (l : AclLevel) (required : Z) : bool :=
  Z.eqb (Z.land (level_mask l) required) required.

(** ** Entries *)

Record AclEntry := MkEntry { ent_principal : pystr; ent_level : AclLevel }.

#[export] Instance AclEntry_eq_dec : EqDecision AclEntry.
Proof. solve_decision. Defined.

(** [DirectAcl]: a tuple of entries. *)
Abbreviation DirectAcl := (list AclEntry).

(** A raw level argument: an [AclLevel] member or a plain value. *)
Inductive raw_level := RawLevel (l : AclLevel) | RawValue (v : pyval).

(** A raw entry: an [AclEntry], or a mapping read with
    [get("principal")] and [get("level", "")]. *)
Inductive raw_entry :=
| REntry (e : AclEntry)
| RMapping (principal : pyval) (level : raw_level).

Definition normalize_acl_principal (principal : pyval) : result pystr :=
  match principal with
  | VStr principal =>
      let normalized := strip is_space principal in
      let '(kind, separator, identifier) := partition c_colon normalized in
      if negb separator || negb (mem kind [u "user"; u "group"]) then Err InvalidArgumentError
      else if seqb kind (u "user") then
        if negb (seqb identifier (u "*")) then
          match validate_user_id identifier with
          | Some _ => Err InvalidArgumentError
          | None => Ok normalized
          end
        else Ok normalized
      else if seqb identifier (u "*") then Err InvalidArgumentError
      else match validate_identifier_part identifier (u "group_id") with
           | Some _ => Err InvalidArgumentError
           | None => Ok normalized
           end
  | _ => Err InvalidArgumentError
  end.

(** [str(value)] of a value that is not a string is never a level name. *)
Definition normalize_acl_level (value : raw_level) : result AclLevel :=
  match value with
  | RawLevel l => Ok l
  | RawValue (VStr s) =>
      let t := strip is_space s in
      if seqb t (u "read") then Ok READ
      else if seqb t (u "write") then Ok WRITE
      else if seqb t (u "manage") then Ok MANAGE
      else Err InvalidArgumentError
  | RawValue _ => Err InvalidArgumentError
  end.

(** One round of the loop of [_normalize_entries] on the dict [highest]. *)
Definition normalize_step (highest : gmap pystr AclLevel) (raw : raw_entry)
    : result (gmap pystr AclLevel) :=
  let '(principal, raw_level) :=
    match raw with
    | REntry e => (VStr (ent_principal e), RawLevel (ent_level e))
    | RMapping p l => (p, l)
    end in
  principal ← normalize_acl_principal principal;
  level ← normalize_acl_level raw_level;
  match highest !! principal with
  | None => Ok (<[principal := level]> highest)
  | Some current =>
      if Z.ltb (level_mask current) (level_mask level)
      then Ok (<[principal := level]> highest) else Ok highest
  end.

Fixpoint normalize_loop (highest : gmap pystr AclLevel) (entries : list raw_entry)
    : result (gmap pystr AclLevel) :=
  match entries with
  | [] => Ok highest
  | raw :: rest => highest ← normalize_step highest raw; normalize_loop highest rest
  end.

(** [[AclEntry(p, highest[p]) for p in sorted(highest)]]. *)
Definition entries_of (highest : gmap pystr AclLevel) : DirectAcl :=
  omap (fun p => MkEntry p <$> highest !! p) (sorted_strs (fst <$> map_to_list highest)).

Definition normalize_entries (entries : list raw_entry) : result (list AclEntry) :=
  entries_of <$> normalize_loop ∅ entries.

Definition from_entries (entries : list raw_entry) : result DirectAcl := normalize_entries entries.

Definition acl_empty (acl : DirectAcl) : bool := match acl with [] => true | _ => false end.

Definition acl_union (self other : DirectAcl) : result DirectAcl :=
  from_entries (REntry <$> (self ++ other)).

Definition principals_for (acl : DirectAcl) (action : AclAction) : gset pystr :=
  let required_mask := level_mask (action_level action) in
  list_to_set (ent_principal <$>
    filter (fun e => level_covers (ent_level e) required_mask = true) acl).

(** ** Grant tokens *)

Definition mask_digits (l : AclLevel) : pystr :=
  match l with READ => u "1" | WRITE => u "3" | MANAGE => u "7" end.

Definition encode_grant (e : AclEntry) : pystr :=
  mask_digits (ent_level e) ++ [c_colon] ++ ent_principal e.

Definition decode_grant (raw : pyval) : result AclEntry :=
  match raw with
  | VStr raw =>
      let '(raw_mask, separator, raw_principal) := partition c_colon raw in
      let level :=
        if separator then
          match py_int raw_mask with
          | Some z => match mask_level z with Some l => Ok (Some l) | None => Err RuntimeError end
          | None => Err RuntimeError
          end
        else Ok None in
      level ← level;
      principal ← match normalize_acl_principal (VStr raw_principal) with
                  | Ok p => Ok p
                  | Err _ => Err RuntimeError
                  end;
      match level with
      | None => Err RuntimeError
      | Some level =>
          if negb (seqb raw (encode_grant (MkEntry principal level))) then Err RuntimeError
          else Ok (MkEntry principal level)
      end
  | _ => Err RuntimeError
  end.

(** The field [<prefix>_grants] written by [context_fields]. *)
Definition grant_fields (acl : DirectAcl) : pyval := VList (VStr ∘ encode_grant <$> acl).

Fixpoint decode_grants (raws : list pyval) : result (list AclEntry) :=
  match raws with
  | [] => Ok []
  | r :: rs => e ← decode_grant r; es ← decode_grants rs; Ok (e :: es)
  end.

(** [DirectAcl.from_context_fields] on the value of the [<prefix>_grants] field.
    The generator decodes and normalises entry by entry; decoding failures and
    normalisation failures of decoded entries cannot interleave, because a
    decoded entry always normalises. *)
Definition from_context_fields (raw_grants : pyval) : result DirectAcl :=
  if negb (py_truthy raw_grants) then from_entries []
  else match raw_grants with
       | VList l => es ← decode_grants l; from_entries (REntry <$> es)
       | _ => Err RuntimeError
       end.

(** [acl_grant_tokens]: tokens whose presence in the index satisfies the action. *)
Definition acl_grant_tokens (principals : list pystr) (action : AclAction) : list pystr :=
  let required_mask := level_mask (action_level action) in
  principal ← sorted_strs (remove_dups principals);
  level ← filter (fun l => level_covers l required_mask = true) [READ; WRITE; MANAGE];
  [encode_grant (MkEntry principal level)].

(** ** Effective ACLs *)

Record EffectiveAcl := MkEff { eff_enabled : bool; eff_direct : DirectAcl; eff_inherited : DirectAcl }.

#[export] Instance EffectiveAcl_eq_dec : EqDecision EffectiveAcl.
Proof. solve_decision. Defined.

Definition permissions (acl : EffectiveAcl) : result DirectAcl :=
  acl_union (eff_inherited acl) (eff_direct acl).

Definition acl_principals (ctx : RequestContext) : list pystr :=
  [u "user:" ++ ctx_user_id ctx; u "user:*"] ++ ((fun v => u "group:" ++ v) <$> ctx_group_ids ctx).

Definition acl_allows (acl : EffectiveAcl) (ctx : RequestContext) (action : AclAction) : result bool :=
  perms ← permissions acl;
  Ok (existsb (fun p => bool_decide (p ∈ principals_for perms action)) (acl_principals ctx)).

(** ** ACL-bearing URIs *)

Definition is_acl_uri (uri : pystr) : result bool :=
  parts ← uri_parts uri; Ok (bool_decide (take 1 parts = [u "resources"])).

Definition acl_ancestors (uri : pystr) : result (list pystr) :=
  parts ← uri_parts uri;
  if negb (bool_decide (take 1 parts = [u "resources"])) then Err InvalidArgumentError
  else Ok ((fun depth => u "viking://" ++ path_join (take depth parts)) <$> seq 1 (length parts)).

Definition has_implicit_manage (ctx : RequestContext) (uri : pystr) : result bool :=
  b ← is_acl_uri uri; Ok (b && seqb (ctx_role ctx) ADMIN).
