(* ===== verification/AclTheory.v ===== *)
(** Theorems about the pure ACL operations ([Acl]): normalised ACLs form a
    join semilattice, grants round-trip through their tokens, and the token
    index decides exactly what [acl_allows] decides. *)
From Stdlib Require Import NArith ZArith.
From S2P Require Import Prelude PyStr PyVal Identifiers Uri Namespace NamespaceTheory Acl.

Open Scope N_scope.

(** ** Normalised principals and ACLs *)

Definition principal_ok (p : pystr) : Prop := normalize_acl_principal (VStr p) = Ok p.

Lemma normalize_principal_fix v p :
  normalize_acl_principal v = Ok p -> principal_ok p /\ exists s, v = VStr s /\ p = strip is_space s.
Proof.
  unfold principal_ok. destruct v as [| | | |s| |]; try done. simpl.
  set (t := strip is_space s). intros H.
  assert (p = t) as ->.
  { destruct (partition c_colon t) as [[k f] i]. repeat case_match; by simplify_eq. }
  split; [|by exists s]. assert (strip is_space t = t) as -> by apply strip_idemp. exact H.
Qed.

(** The level a list of entries gives to each principal. *)
Definition acl_map (acl : DirectAcl) : gmap pystr AclLevel :=
  list_to_map ((fun e => (ent_principal e, ent_level e)) <$> acl).

(** What [from_entries] produces: entries of distinct, normalised principals in
    code point order. *)
Definition wf_acl (acl : DirectAcl) : Prop :=
  NoDup (ent_principal <$> acl) /\ StronglySorted str_le (ent_principal <$> acl)
  /\ Forall principal_ok (ent_principal <$> acl).

Lemma wf_acl_nil : wf_acl [].
Proof. repeat split; constructor. Qed.

Lemma acl_map_elem acl p l :
  NoDup (ent_principal <$> acl) ->
  acl_map acl !! p = Some l <-> MkEntry p l ∈ acl.
Proof.
  intros Hnd. unfold acl_map. rewrite <- elem_of_list_to_map.
  - rewrite list_elem_of_fmap. split.
    + intros ([p' l'] & [= -> ->] & H). done.
    + intros H. by exists (MkEntry p l).
  - rewrite <- list_fmap_compose. done.
Qed.

Lemma keys_NoDup (m : gmap pystr AclLevel) : NoDup (fst <$> map_to_list m).
Proof. apply NoDup_fst_map_to_list. Qed.

Lemma elem_of_keys (m : gmap pystr AclLevel) p :
  p ∈ (fst <$> map_to_list m) <-> is_Some (m !! p).
Proof.
  rewrite list_elem_of_fmap. split.
  - intros ([p' l] & -> & H%elem_of_map_to_list). by eexists.
  - intros [l H]. exists (p, l). by rewrite elem_of_map_to_list.
Qed.

Lemma entries_of_keys m : ent_principal <$> entries_of m = sorted_strs (fst <$> map_to_list m).
Proof.
  unfold entries_of.
  assert (Forall (fun p => is_Some (m !! p)) (sorted_strs (fst <$> map_to_list m))) as H.
  { apply Forall_forall. intros p. rewrite sorted_strs_perm. apply elem_of_keys. }
  induction H as [|p l [lv Hp] _ IH]; [done|]. simpl. rewrite Hp. simpl. f_equal. exact IH.
Qed.

Lemma elem_of_entries_of m p l : MkEntry p l ∈ entries_of m <-> m !! p = Some l.
Proof.
  unfold entries_of. rewrite list_elem_of_omap. split.
  - intros (q & _ & H). destruct (m !! q) eqn:E; simplify_eq/=. done.
  - intros H. exists p. rewrite H, sorted_strs_perm. split; [|done].
    apply elem_of_keys. by eexists.
Qed.

Lemma entries_of_map m : acl_map (entries_of m) = m.
Proof.
  apply map_eq. intros p. destruct (m !! p) as [l|] eqn:E.
  - apply acl_map_elem; [|by apply elem_of_entries_of].
    rewrite entries_of_keys, sorted_strs_perm. apply keys_NoDup.
  - destruct (acl_map (entries_of m) !! p) as [l|] eqn:E2; [|done].
    apply acl_map_elem, elem_of_entries_of in E2; [congruence|].
    rewrite entries_of_keys, sorted_strs_perm. apply keys_NoDup.
Qed.

Lemma entries_of_wf m :
  (forall p, is_Some (m !! p) -> principal_ok p) -> wf_acl (entries_of m).
Proof.
  intros H. unfold wf_acl. rewrite entries_of_keys. split; [|split].
  - rewrite sorted_strs_perm. apply keys_NoDup.
  - apply sorted_strs_sorted.
  - apply Forall_forall. intros p. rewrite sorted_strs_perm. intros Hp%elem_of_keys. auto.
Qed.

Lemma wf_acl_canonical acl : wf_acl acl -> entries_of (acl_map acl) = acl.
Proof.
  intros (Hnd & Hs & _).
  assert (ent_principal <$> entries_of (acl_map acl) = ent_principal <$> acl) as Hk.
  { rewrite entries_of_keys. eapply (StronglySorted_unique str_le);
      [apply sorted_strs_sorted|done|]. rewrite sorted_strs_perm.
    apply NoDup_Permutation; [apply keys_NoDup|done|]. intros p. rewrite elem_of_keys.
    rewrite list_elem_of_fmap. split.
    - intros [l Hl%acl_map_elem]; [|done]. by exists (MkEntry p l).
    - intros ([p' l] & -> & He). exists l. by apply acl_map_elem. }
  assert (forall e, e ∈ entries_of (acl_map acl) -> e ∈ acl) as Hin.
  { intros [p l] H%elem_of_entries_of. by apply acl_map_elem in H. }
  revert Hk Hin. generalize (entries_of (acl_map acl)). clear Hs.
  induction acl as [|e acl IH]; intros [|e' l'] Hk Hin; try done.
  simpl in Hk. injection Hk as He Hk. apply NoDup_cons in Hnd as [Hn Hnd].
  assert (e' = e) as ->.
  { assert (e' ∈ e :: acl) as Hm by (apply Hin; left).
    apply elem_of_cons in Hm as [->|Hm]; [done|]. exfalso. apply Hn. rewrite <- He.
    apply list_elem_of_fmap. by exists e'. }
  f_equal. apply IH; [done|done|]. intros x Hx.
  assert (x ∈ e :: acl) as Hm by (apply Hin; by right).
  apply elem_of_cons in Hm as [->|Hm]; [|done]. exfalso. apply Hn.
  change (ent_principal e ∈ (ent_principal <$> acl)).
  assert ((ent_principal <$> l') = ent_principal <$> acl) as <- by exact Hk.
  apply list_elem_of_fmap. by exists e.
Qed.

(** Two normalised ACLs that give every principal the same level are equal. *)
Lemma wf_acl_ext a b : wf_acl a -> wf_acl b -> acl_map a = acl_map b -> a = b.
Proof. intros Ha Hb E. by rewrite <- (wf_acl_canonical a), <- (wf_acl_canonical b), E. Qed.

(** ** The lattice of levels *)

Definition lmax (a b : AclLevel) : AclLevel :=
  match a, b with
  | MANAGE, _ | _, MANAGE => MANAGE
  | WRITE, _ | _, WRITE => WRITE
  | READ, READ => READ
  end.

Definition olmax (a b : option AclLevel) : option AclLevel := union_with (fun x y => Some (lmax x y)) a b.

Lemma olmax_comm a b : olmax a b = olmax b a.
Proof. by destruct a as [[]|], b as [[]|]. Qed.
Lemma olmax_assoc a b c : olmax a (olmax b c) = olmax (olmax a b) c.
Proof. by destruct a as [[]|], b as [[]|], c as [[]|]. Qed.
Lemma olmax_idemp a : olmax a a = a.
Proof. by destruct a as [[]|]. Qed.
Lemma olmax_none a : olmax a None = a.
Proof. by destruct a. Qed.

Lemma covers_lmax a b act :
  level_covers (lmax a b) (level_mask (action_level act)) = true <->
  level_covers a (level_mask (action_level act)) = true
  \/ level_covers b (level_mask (action_level act)) = true.
Proof. destruct a, b, act; vm_compute; intuition. Qed.

(** Pointwise maximum of two normalised ACLs. *)
Definition aunion (a b : DirectAcl) : DirectAcl :=
  entries_of (union_with (fun x y => Some (lmax x y)) (acl_map a) (acl_map b)).

Lemma aunion_lookup a b p : acl_map (aunion a b) !! p = olmax (acl_map a !! p) (acl_map b !! p).
Proof. unfold aunion. rewrite entries_of_map. apply lookup_union_with. Qed.

Lemma acl_map_principal acl p : is_Some (acl_map acl !! p) -> p ∈ (ent_principal <$> acl).
Proof.
  intros [l Hl]. apply elem_of_list_to_map_2 in Hl.
  apply list_elem_of_fmap in Hl as (e & [= -> ->] & He). apply list_elem_of_fmap. by exists e.
Qed.

Lemma aunion_wf a b : wf_acl a -> wf_acl b -> wf_acl (aunion a b).
Proof.
  intros (_ & _ & Ha) (_ & _ & Hb). apply entries_of_wf. intros p.
  rewrite lookup_union_with. rewrite Forall_forall in Ha, Hb.
  destruct (acl_map a !! p) as [l|] eqn:Ea; intros Hs.
  - apply Ha, acl_map_principal. by rewrite Ea.
  - apply Hb, acl_map_principal. by destruct (acl_map b !! p).
Qed.

Lemma aunion_comm a b : wf_acl a -> wf_acl b -> aunion a b = aunion b a.
Proof.
  intros. apply wf_acl_ext; eauto using aunion_wf. apply map_eq. intros p.
  rewrite !aunion_lookup. apply olmax_comm.
Qed.

Lemma aunion_assoc a b c :
  wf_acl a -> wf_acl b -> wf_acl c -> aunion a (aunion b c) = aunion (aunion a b) c.
Proof.
  intros. apply wf_acl_ext; eauto using aunion_wf. apply map_eq. intros p.
  rewrite !aunion_lookup. apply olmax_assoc.
Qed.

Lemma aunion_idemp a : wf_acl a -> aunion a a = a.
Proof.
  intros. apply wf_acl_ext; eauto using aunion_wf. apply map_eq. intros p.
  rewrite aunion_lookup. apply olmax_idemp.
Qed.

Lemma aunion_nil_r a : wf_acl a -> aunion a [] = a.
Proof.
  intros. apply wf_acl_ext; eauto using aunion_wf, wf_acl_nil. apply map_eq. intros p.
  rewrite aunion_lookup. apply olmax_none.
Qed.

Lemma aunion_nil_l a : wf_acl a -> aunion [] a = a.
Proof. intros. rewrite aunion_comm by auto using wf_acl_nil. by apply aunion_nil_r. Qed.

(** ** Normalisation *)

(** Raising the level of one principal. *)
Definition raise (h : gmap pystr AclLevel) (p : pystr) (l : AclLevel) : gmap pystr AclLevel :=
  partial_alter (fun o => olmax o (Some l)) p h.

Lemma raise_lookup h p l q :
  raise h p l !! q = if decide (p = q) then olmax (h !! q) (Some l) else h !! q.
Proof.
  unfold raise. destruct (decide (p = q)) as [->|Hne].
  - by rewrite lookup_partial_alter_eq.
  - by rewrite lookup_partial_alter_ne.
Qed.

Lemma normalize_step_spec h raw p l :
  normalize_acl_principal (match raw with REntry e => VStr (ent_principal e) | RMapping v _ => v end) = Ok p ->
  normalize_acl_level (match raw with REntry e => RawLevel (ent_level e) | RMapping _ r => r end) = Ok l ->
  normalize_step h raw = Ok (raise h p l).
Proof.
  intros Hp Hl.
  assert (forall current, h !! p = current ->
    match current with
    | None => Ok (<[p:=l]> h)
    | Some c => if Z.ltb (level_mask c) (level_mask l) then Ok (<[p:=l]> h) else Ok h
    end = Ok (raise h p l)) as Hgen.
  { intros current E.
    assert (forall h', (forall q, h' !! q = raise h p l !! q) -> Ok h' = Ok (raise h p l)) as Hext.
    { intros h' Hq. f_equal. by apply map_eq. }
    destruct current as [c|].
    - destruct (Z.ltb _ _) eqn:Ez; apply Hext; intros q; rewrite raise_lookup.
      + rewrite lookup_insert. case_decide as Hd; [subst q|done]. rewrite E.
        by destruct c, l.
      + case_decide as Hd; [subst q|done]. rewrite E. by destruct c, l.
    - apply Hext. intros q. rewrite raise_lookup, lookup_insert. case_decide; [|done].
      subst q. by rewrite E. }
  unfold normalize_step. destruct raw as [e|v r]; cbv beta iota zeta;
    rewrite Hp, Hl; cbn [mbind result_bind]; by apply Hgen.
Qed.

Lemma normalize_step_inv h raw h' :
  normalize_step h raw = Ok h' -> exists p l, principal_ok p /\ h' = raise h p l.
Proof.
  intros H. set (pv := match raw with REntry e => VStr (ent_principal e) | RMapping v _ => v end).
  set (lv := match raw with REntry e => RawLevel (ent_level e) | RMapping _ r => r end).
  destruct (normalize_acl_principal pv) as [p|e1] eqn:Hp.
  - destruct (normalize_acl_level lv) as [l|e2] eqn:Hl.
    + rewrite (normalize_step_spec _ _ _ _ Hp Hl) in H. injection H as <-. exists p, l.
      split; [by eapply normalize_principal_fix|done].
    + unfold normalize_step in H. destruct raw; cbv beta iota zeta in H;
        unfold pv, lv in *; rewrite Hp, Hl in H; done.
  - unfold normalize_step in H. destruct raw; cbv beta iota zeta in H;
      unfold pv in *; rewrite Hp in H; done.
Qed.

Lemma normalize_loop_keys h raws h' :
  normalize_loop h raws = Ok h' -> (forall p, is_Some (h !! p) -> principal_ok p) ->
  forall p, is_Some (h' !! p) -> principal_ok p.
Proof.
  revert h. induction raws as [|raw raws IH]; simpl; intros h H Hh; [by injection H as <-|].
  destruct (normalize_step h raw) as [h1|] eqn:Hs; [|done]. simpl in H.
  destruct (normalize_step_inv _ _ _ Hs) as (p & l & Hp & ->).
  eapply IH; [done|]. intros q. rewrite raise_lookup. case_decide; [by subst|apply Hh].
Qed.

Lemma from_entries_wf raws acl : from_entries raws = Ok acl -> wf_acl acl.
Proof.
  unfold from_entries, normalize_entries. destruct (normalize_loop ∅ raws) as [h|] eqn:Hl; [|done].
  intros [= <-]. apply entries_of_wf. eapply normalize_loop_keys; [done|].
  intros p. rewrite lookup_empty. by intros [? ?].
Qed.

Lemma normalize_loop_entries h acl :
  NoDup (ent_principal <$> acl) -> Forall principal_ok (ent_principal <$> acl) ->
  exists h', (forall rest, normalize_loop h ((REntry <$> acl) ++ rest) = normalize_loop h' rest)
    /\ forall p, h' !! p = olmax (h !! p) (acl_map acl !! p).
Proof.
  revert h. induction acl as [|[p l] acl IH]; intros h Hnd Hok.
  - exists h. split; [done|]. intros p. by rewrite olmax_none.
  - apply NoDup_cons in Hnd as [Hn Hnd]. apply Forall_cons in Hok as [Hp Hok].
    destruct (IH (raise h p l) Hnd Hok) as (h' & Hl & Hh'). exists h'. split.
    + intros rest. cbn [fmap list_fmap app normalize_loop].
      rewrite (normalize_step_spec h _ p l) by done. apply Hl.
    + intros q. rewrite Hh', raise_lookup. unfold acl_map at 2. cbn [fmap list_fmap list_to_map foldr].
      fold (acl_map acl). cbn [ent_principal ent_level].
      change (list_to_map _) with (acl_map acl). cbn [fst snd uncurry]. rewrite lookup_insert.
      case_decide as Hd; [|done]. subst q.
      destruct (acl_map acl !! p) as [l'|] eqn:E; [|by rewrite olmax_none].
      exfalso. apply Hn. apply acl_map_principal. by eexists.
Qed.

(** On normalised ACLs [union] succeeds and is the pointwise maximum. *)
Lemma acl_union_ok a b : wf_acl a -> wf_acl b -> acl_union a b = Ok (aunion a b).
Proof.
  intros (Ha1 & _ & Ha2) (Hb1 & _ & Hb2). unfold acl_union, from_entries, normalize_entries.
  rewrite fmap_app.
  destruct (normalize_loop_entries ∅ a Ha1 Ha2) as (h1 & Hl1 & H1). rewrite Hl1.
  destruct (normalize_loop_entries h1 b Hb1 Hb2) as (h2 & Hl2 & H2).
  rewrite <- (app_nil_r (REntry <$> b)), Hl2. cbn [normalize_loop fmap result_fmap].
  f_equal. unfold aunion. f_equal. apply map_eq. intros p.
  rewrite H2, H1, lookup_union_with, lookup_empty. f_equal. by destruct (acl_map a !! p).
Qed.

(** On a normalised ACL [from_entries] is the identity. *)
Lemma from_entries_id a : wf_acl a -> from_entries (REntry <$> a) = Ok a.
Proof.
  intros Ha. pose proof (acl_union_ok a [] Ha wf_acl_nil) as H.
  unfold acl_union in H. rewrite app_nil_r in H. by rewrite H, aunion_nil_r.
Qed.

#[export] Hint Resolve wf_acl_nil aunion_wf from_entries_wf : dock.

(** C38: [DirectAcl.from_entries] normalises: whatever mix of entries and mappings
    it accepts, the result holds distinct, well formed principals in code point
    order, and normalising it again returns it unchanged. *)
Theorem from_entries_canonical (raws : list raw_entry) (acl : DirectAcl)
    (H : from_entries raws = Ok acl) :
  wf_acl acl /\ from_entries (REntry <$> acl) = Ok acl.
Proof. apply from_entries_wf in H. auto using from_entries_id. Qed.

Definition sample_raws : list raw_entry :=
  [RMapping (VStr (u " user:bob ")) (RawValue (VStr (u "read")));
   RMapping (VStr (u "group:ops")) (RawLevel WRITE);
   REntry (MkEntry (u "user:bob") MANAGE)].

Definition sample_acl : DirectAcl :=
  [MkEntry (u "group:ops") WRITE; MkEntry (u "user:bob") MANAGE].

Lemma from_entries_canonical_witness :
  wf_acl sample_acl /\ from_entries (REntry <$> sample_acl) = Ok sample_acl.
Proof. apply (from_entries_canonical sample_raws). by vm_compute. Defined.

(** On normalised ACLs [union] is total and makes them a join semilattice:
    it is associative, commutative, idempotent, has the empty ACL as unit, and
    gives each principal the higher of its two levels. *)
Theorem acl_union_semilattice (a b c : DirectAcl)
    (Ha : wf_acl a) (Hb : wf_acl b) (Hc : wf_acl c) :
  (exists ab, acl_union a b = Ok ab /\ acl_union b a = Ok ab /\ wf_acl ab
     /\ (forall p, acl_map ab !! p = olmax (acl_map a !! p) (acl_map b !! p))
     /\ exists bc abc, acl_union b c = Ok bc /\ acl_union ab c = Ok abc /\ acl_union a bc = Ok abc)
  /\ acl_union a a = Ok a /\ acl_union [] a = Ok a /\ acl_union a [] = Ok a.
Proof.
  rewrite !acl_union_ok by auto with dock.
  rewrite aunion_idemp, aunion_nil_l, aunion_nil_r by done. split; [|done].
  exists (aunion a b). rewrite (aunion_comm b a) by done.
  repeat split; auto using aunion_lookup with dock; [by apply aunion_wf..|].
  exists (aunion b c), (aunion (aunion a b) c).
  rewrite !acl_union_ok by auto with dock. by rewrite aunion_assoc.
Qed.

Lemma acl_union_semilattice_witness : acl_union sample_acl sample_acl = Ok sample_acl.
Proof.
  assert (wf_acl sample_acl) as H by (apply (from_entries_wf sample_raws); by vm_compute).
  exact (proj1 (proj2 (acl_union_semilattice sample_acl sample_acl [] H H wf_acl_nil))).
Defined.

(** ** Grant tokens *)

Lemma mask_digits_cases l : exists d, mask_digits l = [d] /\ d <> c_colon /\ py_int [d] = Some (level_mask l).
Proof. destruct l; eexists; repeat split; by vm_compute. Qed.

Lemma mask_level_mask l : mask_level (level_mask l) = Some l.
Proof. by destruct l. Qed.

Lemma encode_grant_inj e1 e2 : encode_grant e1 = encode_grant e2 -> e1 = e2.
Proof.
  destruct e1 as [p1 l1], e2 as [p2 l2]. unfold encode_grant. cbn [ent_principal ent_level].
  intros H. assert (length (mask_digits l1) = length (mask_digits l2)) as Hlen by by destruct l1, l2.
  apply app_inj_1 in H as [Hd [= ->]]; [|done]. f_equal. by destruct l1, l2.
Qed.

Lemma decode_encode_grant e : principal_ok (ent_principal e) -> decode_grant (VStr (encode_grant e)) = Ok e.
Proof.
  destruct e as [p l]. cbn [ent_principal]. intros Hp. unfold decode_grant.
  set (raw := encode_grant (MkEntry p l)).
  destruct (mask_digits_cases l) as (d & Hd & Hne & Hint).
  assert (partition c_colon raw = ([d], true, p)) as ->.
  { unfold raw, encode_grant. cbn [ent_level ent_principal]. rewrite Hd.
    apply (partition_app c_colon [d] p). set_solver. }
  rewrite Hint, mask_level_mask, Hp. cbn [mbind result_bind].
  by rewrite (proj2 (seqb_true _ _) eq_refl).
Qed.

Lemma decode_grant_inv raw e :
  decode_grant raw = Ok e -> raw = VStr (encode_grant e) /\ principal_ok (ent_principal e).
Proof.
  unfold decode_grant. destruct raw as [| | | |s| |]; try done.
  destruct (partition c_colon s) as [[m f] r].
  set (lv := if f then _ else _). destruct lv as [lv'|]; [|done]. cbn [mbind result_bind].
  destruct (normalize_acl_principal (VStr r)) as [p|] eqn:Hp; [|done]. cbn [mbind result_bind].
  destruct lv' as [l|]; [|done]. destruct (seqb s _) eqn:Hs; [|done]. cbn [negb].
  intros [= <-]. apply seqb_true in Hs. split; [by rewrite Hs at 1|].
  by eapply normalize_principal_fix.
Qed.

Lemma decode_encode_grants acl :
  Forall principal_ok (ent_principal <$> acl) -> decode_grants (VStr ∘ encode_grant <$> acl) = Ok acl.
Proof.
  induction acl as [|e acl IH]; [done|]. intros [He Hacl]%Forall_cons.
  cbn [fmap list_fmap decode_grants compose]. rewrite decode_encode_grant by done.
  cbn [mbind result_bind]. rewrite IH by done. done.
Qed.

Lemma grant_fields_ok acl : wf_acl acl -> from_context_fields (grant_fields acl) = Ok acl.
Proof.
  intros H. unfold from_context_fields, grant_fields. destruct acl as [|e acl]; [done|].
  cbn [py_truthy negb fmap list_fmap].
  change (decode_grants _) with (decode_grants (VStr ∘ encode_grant <$> (e :: acl))).
  destruct H as (H1 & H2 & H3). rewrite decode_encode_grants by done. cbn [mbind result_bind].
  by apply from_entries_id.
Qed.

Lemma from_context_fields_wf v acl : from_context_fields v = Ok acl -> wf_acl acl.
Proof.
  unfold from_context_fields. destruct (py_truthy v); cbn [negb]; [|apply from_entries_wf].
  destruct v; try done. destruct (decode_grants l); [|done]. apply from_entries_wf.
Qed.

(** ** Decisions *)

(** The grant field of a context record round-trips: whatever a record's field
    reads as, writing that ACL back and reading again gives the same ACL; and an ACL
    built from entries reads back as itself. *)
Theorem context_fields_roundtrip (acl : DirectAcl) (raws : list raw_entry) (field : pyval)
    (H : from_entries raws = Ok acl \/ from_context_fields field = Ok acl) :
  from_context_fields (grant_fields acl) = Ok acl.
Proof. apply grant_fields_ok. destruct H; eauto using from_entries_wf, from_context_fields_wf. Qed.

Lemma context_fields_roundtrip_witness : from_context_fields (grant_fields sample_acl) = Ok sample_acl.
Proof. apply (context_fields_roundtrip sample_acl sample_raws VNone). left. by vm_compute. Defined.

(** Grant tokens are exact: a token is accepted precisely when it is the
    encoding of an entry with a normalised principal, and then decoding returns
    that entry; no two entries share a token. *)
Theorem grant_token_exact (raw : pystr) (e : AclEntry) :
  decode_grant (VStr raw) = Ok e <-> raw = encode_grant e /\ principal_ok (ent_principal e).
Proof.
  split.
  - by intros [[= ->] ?]%decode_grant_inv.
  - intros [-> H]. by apply decode_encode_grant.
Qed.

Lemma principals_for_spec acl act p :
  NoDup (ent_principal <$> acl) ->
  p ∈ principals_for acl act <->
  exists l, acl_map acl !! p = Some l /\ level_covers l (level_mask (action_level act)) = true.
Proof.
  intros Hnd. unfold principals_for. rewrite elem_of_list_to_set, list_elem_of_fmap. split.
  - intros ([p' l] & -> & [Hc He]%list_elem_of_filter). exists l. by rewrite acl_map_elem.
  - intros (l & Hl%acl_map_elem & Hc); [|done]. exists (MkEntry p l).
    by rewrite list_elem_of_filter.
Qed.

Lemma principals_for_union a b act p :
  wf_acl a -> wf_acl b ->
  p ∈ principals_for (aunion a b) act <-> p ∈ principals_for a act \/ p ∈ principals_for b act.
Proof.
  intros Ha Hb. rewrite !principals_for_spec by apply Ha || apply Hb || by apply aunion_wf.
  setoid_rewrite aunion_lookup.
  destruct (acl_map a !! p) as [la|], (acl_map b !! p) as [lb|]; simpl.
  - pose proof (covers_lmax la lb act). naive_solver.
  - naive_solver.
  - naive_solver.
  - naive_solver.
Qed.

Lemma permissions_ok acl :
  wf_acl (eff_direct acl) -> wf_acl (eff_inherited acl) ->
  permissions acl = Ok (aunion (eff_inherited acl) (eff_direct acl)).
Proof. intros. by apply acl_union_ok. Qed.

Lemma acl_allows_spec acl ctx act :
  wf_acl (eff_direct acl) -> wf_acl (eff_inherited acl) ->
  exists b, acl_allows acl ctx act = Ok b /\
    (b = true <-> exists p, p ∈ acl_principals ctx /\
       (p ∈ principals_for (eff_direct acl) act \/ p ∈ principals_for (eff_inherited acl) act)).
Proof.
  intros Hd Hi. unfold acl_allows. rewrite permissions_ok by done. cbn [mbind result_bind].
  eexists. split; [done|]. rewrite existsb_exists. split.
  - intros (p & Hp & Hb%bool_decide_eq_true). exists p. rewrite principals_for_union in Hb by done.
    rewrite list_elem_of_In. tauto.
  - intros (p & Hp & Hb). exists p. rewrite <- list_elem_of_In. split; [done|].
    apply bool_decide_eq_true, principals_for_union; tauto.
Qed.

(** Permissions are monotone in the action: whoever may manage may write, and
    whoever may write may read. *)
Theorem acl_allows_monotone (acl : EffectiveAcl) (ctx : RequestContext)
    (Hd : wf_acl (eff_direct acl)) (Hi : wf_acl (eff_inherited acl)) :
  (acl_allows acl ctx A_MANAGE = Ok true -> acl_allows acl ctx A_WRITE = Ok true)
  /\ (acl_allows acl ctx A_WRITE = Ok true -> acl_allows acl ctx A_READ = Ok true).
Proof.
  assert (forall a b d p, (forall l, level_covers l (level_mask (action_level a)) = true ->
      level_covers l (level_mask (action_level b)) = true) -> wf_acl d ->
      p ∈ principals_for d a -> p ∈ principals_for d b) as Hmono.
  { intros a b d p Hl [Hd' _]. rewrite !principals_for_spec by done. naive_solver. }
  assert (forall a b, (forall l, level_covers l (level_mask (action_level a)) = true ->
      level_covers l (level_mask (action_level b)) = true) ->
      acl_allows acl ctx a = Ok true -> acl_allows acl ctx b = Ok true) as Hgen.
  { intros a b Hl Ha. destruct (acl_allows_spec acl ctx a Hd Hi) as (ba & Ea & Sa).
    destruct (acl_allows_spec acl ctx b Hd Hi) as (bb & Eb & Sb).
    rewrite Ea in Ha. injection Ha as ->. rewrite Eb. f_equal. apply Sb.
    destruct (proj1 Sa eq_refl) as (p & Hp & [H|H]); exists p; split; eauto. }
  split; apply Hgen; intros []; by vm_compute.
Qed.

Lemma acl_allows_monotone_witness :
  acl_allows (MkEff true [] sample_acl)
    (MkCtx (MkUser (u "acme") (u "bob")) USER [] None false None false) A_WRITE = Ok true.
Proof.
  refine (proj1 (acl_allows_monotone (MkEff true [] sample_acl) _ wf_acl_nil _) _).
  - apply (from_entries_wf sample_raws). by vm_compute.
  - by vm_compute.
Defined.

Lemma elem_of_grant_tokens ps act t :
  t ∈ acl_grant_tokens ps act <->
  exists p l, p ∈ ps /\ level_covers l (level_mask (action_level act)) = true
              /\ t = encode_grant (MkEntry p l).
Proof.
  unfold acl_grant_tokens. rewrite list_elem_of_bind. split.
  - intros (p & Ht & Hp). rewrite sorted_strs_perm, elem_of_remove_dups in Hp.
    apply list_elem_of_bind in Ht as (l & Ht & [Hl _]%list_elem_of_filter).
    apply list_elem_of_singleton in Ht. eauto.
  - intros (p & l & Hp & Hl & ->). exists p. rewrite sorted_strs_perm, elem_of_remove_dups.
    split; [|done]. apply list_elem_of_bind. exists l. split; [set_solver|].
    apply list_elem_of_filter. split; [done|]. destruct l; set_solver.
Qed.

(** C37: filtering by exact grant tokens in the scalar index decides what
    [acl_allows] decides: a stored direct or inherited grant is among the tokens
    computed for the caller and the action exactly when access is allowed. *)
Theorem grant_tokens_decide (acl : EffectiveAcl) (ctx : RequestContext) (act : AclAction)
    (Hd : wf_acl (eff_direct acl)) (Hi : wf_acl (eff_inherited acl)) :
  acl_allows acl ctx act = Ok true <->
  exists t, t ∈ acl_grant_tokens (acl_principals ctx) act
            /\ (t ∈ (encode_grant <$> eff_direct acl) \/ t ∈ (encode_grant <$> eff_inherited acl)).
Proof.
  destruct (acl_allows_spec acl ctx act Hd Hi) as (b & -> & Hb).
  assert (forall d, wf_acl d -> (exists p, p ∈ acl_principals ctx /\ p ∈ principals_for d act) <->
    exists t, t ∈ acl_grant_tokens (acl_principals ctx) act /\ t ∈ (encode_grant <$> d)) as Hone.
  { intros d [Hnd _]. setoid_rewrite elem_of_grant_tokens.
    setoid_rewrite principals_for_spec; [|done].
    setoid_rewrite list_elem_of_fmap. setoid_rewrite acl_map_elem; [|done]. split.
    - intros (p & Hp & l & He & Hl). exists (encode_grant (MkEntry p l)). eauto 10.
    - intros (t & (p & l & Hp & Hl & ->) & e & He%encode_grant_inj & Hin). subst e. eauto 10. }
  assert (Ok b = Ok true <-> b = true) as -> by (split; congruence).
  rewrite Hb. pose proof (Hone _ Hd). pose proof (Hone _ Hi). naive_solver.
Qed.

Lemma grant_tokens_decide_witness :
  acl_allows (MkEff true sample_acl []) (MkCtx (MkUser (u "acme") (u "bob")) USER [] None false None false)
    A_READ = Ok true.
Proof.
  apply grant_tokens_decide.
  - apply (from_entries_wf sample_raws). by vm_compute.
  - apply wf_acl_nil.
  - exists (u "7:user:bob"). split; [|left]; apply (bool_decide_unpack _); by vm_compute.
Defined.
