(* ===== verification/AclStore.v ===== *)
(** [AclManager] of [openviking/storage/acl.py]: ACL fields materialised in the
    context collection.

    The collection is reached through the interface [ContextStore]: the bounded
    query, the fetch by id and the bulk upsert of the vector store adapter, which
    is outside the repository's Python code.  Paging ([scroll]) is the backend's
    own code and is modelled. *)
From Stdlib Require Import NArith ZArith.
From S2P Require Import Prelude PyStr PyVal Identifiers Uri Namespace Acl.

Open Scope N_scope.

(** ** Records of the context collection *)

Record ctx_rec := MkRec {
  r_id : option pystr;              (** ["id"] *)
  r_uri : pystr;                    (** ["uri"], [""] when absent *)
  r_acl_enabled : bool;             (** [bool(record.get("acl_enabled", False))] *)
  r_direct_grants : pyval;          (** ["acl_direct_grants"], [None] when absent *)
  r_inherited_grants : pyval;       (** ["acl_inherited_grants"] *)
  r_creator : option pystr;         (** [(record.get("user") or {}).get("user_id")] *)
  r_creator_grant : option pystr;   (** ["_acl_creator_grant"] *)
  r_payload : pystr }.              (** every other field *)

(** [{**record, **effective.context_fields()}]. *)
Definition with_acl (r : ctx_rec) (e : EffectiveAcl) : ctx_rec :=
  MkRec (r_id r) (r_uri r) (eff_enabled e) (grant_fields (eff_direct e))
    (grant_fields (eff_inherited e)) (r_creator r) (r_creator_grant r) (r_payload r).

(** [record.pop(ACL_CREATOR_GRANT_FIELD, None)] on a copy. *)
Definition without_creator_grant (r : ctx_rec) : ctx_rec :=
  MkRec (r_id r) (r_uri r) (r_acl_enabled r) (r_direct_grants r) (r_inherited_grants r)
    (r_creator r) None (r_payload r).

(** The filter expressions the manager sends: [PathScope("uri", path, depth)] and
    a disjunction of them. *)
Inductive FilterExpr :=
| PathScope (path : pystr) (depth : Z)
| Or (conds : list FilterExpr).

(** Segments of a URI, empty when it has none. *)
Definition parts_of (uri : pystr) : list pystr :=
  match uri_parts uri with Ok ps => ps | Err _ => [] end.

(** Path semantics of the index: depth [0] is the path itself, a negative depth
    the whole subtree. *)
Definition path_matches (path : pystr) (depth : Z) (r : ctx_rec) : bool :=
  if (depth <? 0)%Z
  then bool_decide (parts_of path `prefix_of` parts_of (r_uri r))
  else bool_decide (parts_of path `prefix_of` parts_of (r_uri r)
                    /\ (length (parts_of (r_uri r)) <= length (parts_of path) + Z.to_nat depth)%nat).

Fixpoint fmatch (f : FilterExpr) (r : ctx_rec) : bool :=
  match f with
  | PathScope path depth => path_matches path depth r
  | Or conds => existsb (fun c => fmatch c r) conds
  end.

(** ** The store interface *)

Class ContextStore (St : Type) := {
  cs_records : St -> pystr -> list ctx_rec;
  cs_query : St -> pystr -> FilterExpr -> nat -> nat -> list ctx_rec;
  cs_get : St -> pystr -> list pystr -> list ctx_rec;
  cs_upsert : St -> pystr -> list ctx_rec -> result (list pystr) * St }.

(** What the manager relies on: queries page through the matching records of the
    account in one order; a fetch returns the account's records with those ids; a
    bulk upsert that reports an id for every record replaces records by id. *)
Class ContextStoreOk (St : Type) `{!ContextStore St} : Prop := {
  cs_query_law : forall s a f limit offset,
    cs_query s a f limit offset
    = take limit (drop offset (filter (fun r => fmatch f r = true) (cs_records s a)));
  cs_get_law : forall s a ids r,
    r ∈ cs_get s a ids <-> r ∈ cs_records s a /\ exists i, r_id r = Some i /\ i ∈ ids;
  cs_get_ids : forall s a ids,
    NoDup (r_id <$> cs_records s a) -> NoDup ids -> NoDup (r_id <$> cs_get s a ids);
  cs_upsert_law : forall s a rs ids s',
    NoDup (r_id <$> rs) -> cs_upsert s a rs = (Ok ids, s') -> length ids = length rs ->
    forall r, r ∈ cs_records s' a <-> r ∈ rs \/ (r ∈ cs_records s a /\ r_id r ∉ (r_id <$> rs));
  cs_upsert_ids : forall s a rs ids s',
    NoDup (r_id <$> cs_records s a) -> NoDup (r_id <$> rs) ->
    cs_upsert s a rs = (Ok ids, s') -> length ids = length rs ->
    NoDup (r_id <$> cs_records s' a) }.

(** ** Reading ACLs off records *)

(** [_effective_from_record]. *)
Definition effective_from_record (record : ctx_rec) : result EffectiveAcl :=
  direct ← from_context_fields (r_direct_grants record);
  inherited ← from_context_fields (r_inherited_grants record);
  Ok (MkEff (r_acl_enabled record || negb (acl_empty direct) || negb (acl_empty inherited))
        direct inherited).

Fixpoint effective_all (records : list ctx_rec) : result (list EffectiveAcl) :=
  match records with
  | [] => Ok []
  | r :: rs => e ← effective_from_record r; es ← effective_all rs; Ok (e :: es)
  end.

(** [_effective_from_records]: the records of one URI must agree. *)
Definition effective_from_records (records : list ctx_rec) : result EffectiveAcl :=
  match records with
  | [] => Ok (MkEff false [] [])
  | _ =>
      values ← effective_all records;
      match remove_dups values with
      | [v] => Ok v
      | _ => Err RuntimeError
      end
  end.

(** [_group_by_uri]: a dict from URI to its records, both in order of appearance. *)
Fixpoint group_add (groups : list (pystr * list ctx_rec)) (uri : pystr) (r : ctx_rec)
    : list (pystr * list ctx_rec) :=
  match groups with
  | [] => [(uri, [r])]
  | (k, rs) :: gs => if seqb k uri then (k, rs ++ [r]) :: gs else (k, rs) :: group_add gs uri r
  end.

Definition group_by_uri (records : list ctx_rec) : list (pystr * list ctx_rec) :=
  foldl (fun groups r => if nonempty (r_uri r) then group_add groups (r_uri r) r else groups)
    [] records.

(** [range(0, len(l), n)] slices. *)
Fixpoint chunks_loop {A} (fuel n : nat) (l : list A) : list (list A) :=
  match fuel with
  | O => []
  | S fuel => match l with [] => [] | _ => take n l :: chunks_loop fuel n (drop n l) end
  end.

Definition chunks {A} (n : nat) (l : list A) : list (list A) := chunks_loop (length l) n l.

Fixpoint result_concat {A B} (f : A -> result (list B)) (l : list A) : result (list B) :=
  match l with
  | [] => Ok []
  | x :: xs => ys ← f x; rest ← result_concat f xs; Ok (ys ++ rest)
  end.

(** Folding [inherited = inherited.union(direct_map.get(ancestor, DirectAcl()))]. *)
Fixpoint union_path (direct_map : list (pystr * DirectAcl)) (inherited : DirectAcl)
    (ancestors : list pystr) : result DirectAcl :=
  match ancestors with
  | [] => Ok inherited
  | a :: rest =>
      inherited ← acl_union inherited (default [] (dict_get direct_map a));
      union_path direct_map inherited rest
  end.

(** [ancestors[-2] if len(ancestors) > 1 else None]. *)
Definition parent_of (ancestors : list pystr) : option pystr := last (removelast ancestors).

Section manager.
Context {St : Type} `{!ContextStore St}.
(** A bound on the number of pages one scroll may read. *)
Context (fuel : nat).

(** [_SingleAccountBackend.scroll]. *)
Definition scroll (s : St) (account : pystr) (filter : FilterExpr) (limit : nat) (cursor : option nat)
    : list ctx_rec * option nat :=
  let offset := default 0%nat cursor in
  let records := cs_query s account filter limit offset in
  (records, if (length records =? limit)%nat then Some (offset + limit)%nat else None).

Fixpoint scroll_loop (n : nat) (s : St) (account : pystr) (filter : FilterExpr)
    (records : list ctx_rec) (cursor : option nat) : result (list ctx_rec) :=
  match n with
  | O => Err OutOfFuel
  | S n =>
      let '(page, cursor) := scroll s account filter 500 cursor in
      let records := records ++ page in
      match cursor with
      | None => Ok records
      | Some c => scroll_loop n s account filter records (Some c)
      end
  end.

Definition scroll_all (s : St) (filter : FilterExpr) (ctx : RequestContext) : result (list ctx_rec) :=
  scroll_loop fuel s (ctx_account_id ctx) filter [] None.

Definition records_for_uris (s : St) (uris : list pystr) (ctx : RequestContext)
    : result (list ctx_rec) :=
  let unique := sorted_strs (remove_dups uris) in
  result_concat (fun chunk => scroll_all s (Or ((fun uri => PathScope uri 0) <$> chunk)) ctx)
    (chunks 100 unique).

Definition subtree_records (s : St) (uri : pystr) (ctx : RequestContext) : result (list ctx_rec) :=
  refs ← scroll_all s (PathScope uri (-1)) ctx;
  let ids := omap (fun r => i ← r_id r; if nonempty i then Some i else None) refs in
  Ok (chunks 500 ids ≫= fun chunk => cs_get s (ctx_account_id ctx) chunk).

Definition get_direct (s : St) (uri : pystr) (ctx : RequestContext) : result DirectAcl :=
  _ ← acl_ancestors uri;
  records ← records_for_uris s [uri] ctx;
  eff_direct <$> effective_from_records records.

(** The ACL of a URI that has no record of its own, from its ancestors'. *)
Definition resolve_missing (direct_map : list (pystr * DirectAcl)) (path : list pystr) (uri : pystr)
    : result EffectiveAcl :=
  inherited ← union_path direct_map [] (removelast path);
  let direct := default [] (dict_get direct_map uri) in
  Ok (MkEff (negb (acl_empty inherited) || negb (acl_empty direct)) direct inherited).

Fixpoint resolve_missing_all (direct_map : list (pystr * DirectAcl))
    (paths : list (pystr * list pystr)) (missing : list pystr) : result (list (pystr * EffectiveAcl)) :=
  match missing with
  | [] => Ok []
  | uri :: rest =>
      e ← resolve_missing direct_map (default [] (dict_get paths uri)) uri;
      es ← resolve_missing_all direct_map paths rest;
      Ok ((uri, e) :: es)
  end.

Fixpoint all_ancestors (uris : list pystr) : result (list (pystr * list pystr)) :=
  match uris with
  | [] => Ok []
  | uri :: rest => a ← acl_ancestors uri; ps ← all_ancestors rest; Ok ((uri, a) :: ps)
  end.

(** The URIs of [uris] that have records, with the effective ACL of each. *)
Fixpoint resolve_existing (groups : list (pystr * list ctx_rec)) (uris : list pystr)
    : result (list (pystr * EffectiveAcl)) :=
  match uris with
  | [] => Ok []
  | uri :: rest =>
      match dict_get groups uri with
      | Some items =>
          e ← effective_from_records items; es ← resolve_existing groups rest; Ok ((uri, e) :: es)
      | None => resolve_existing groups rest
      end
  end.

Definition resolve_many (s : St) (uris : list pystr) (ctx : RequestContext)
    : result (list (pystr * EffectiveAcl)) :=
  let unique_uris := reverse (remove_dups (reverse uris)) in
  paths ← all_ancestors unique_uris;
  exact_records ← records_for_uris s unique_uris ctx;
  result ← resolve_existing (group_by_uri exact_records) unique_uris;
  let missing := filter (fun uri => dict_get result uri = None) unique_uris in
  match missing with
  | [] => Ok result
  | _ =>
      ancestor_records ←
        records_for_uris s (missing ≫= fun uri => default [] (dict_get paths uri)) ctx;
      direct_map ← dict_map (fun records => eff_direct <$> effective_from_records records)
                     (group_by_uri ancestor_records);
      more ← resolve_missing_all direct_map paths missing;
      Ok (result ++ more)
  end.

Definition resolve (s : St) (uri : pystr) (ctx : RequestContext) : result EffectiveAcl :=
  result ← resolve_many s [uri] ctx;
  match dict_get result uri with Some e => Ok e | None => Err KeyError end.

(** [(await self.resolve(parent, ctx)).permissions if parent else DirectAcl()]. *)
Definition parent_permissions (s : St) (parent : option pystr) (ctx : RequestContext)
    : result DirectAcl :=
  match parent with
  | Some parent => e ← resolve s parent ctx; permissions e
  | None => Ok []
  end.

(** The loop of [_apply_subtree] over the grouped URIs. *)
Definition subtree_effective (direct_map : list (pystr * DirectAcl)) (base : DirectAcl)
    (root_depth : nat) (uri : pystr) : result EffectiveAcl :=
  ancestors ← acl_ancestors uri;
  inherited ← union_path direct_map base (removelast (drop (root_depth - 1) ancestors));
  let direct := default [] (dict_get direct_map uri) in
  Ok (MkEff (negb (acl_empty direct) || negb (acl_empty inherited)) direct inherited).

Fixpoint subtree_effective_all (direct_map : list (pystr * DirectAcl)) (base : DirectAcl)
    (root_depth : nat) (uris : list pystr) : result (list (pystr * EffectiveAcl)) :=
  match uris with
  | [] => Ok []
  | uri :: rest =>
      e ← subtree_effective direct_map base root_depth uri;
      es ← subtree_effective_all direct_map base root_depth rest;
      Ok ((uri, e) :: es)
  end.

Definition override_root (direct_map : list (pystr * DirectAcl)) (root_uri : pystr)
    (root_direct : option DirectAcl) : list (pystr * DirectAcl) :=
  match root_direct with
  | None => direct_map
  | Some d => (fun '(k, v) => if seqb k root_uri then (k, d) else (k, v)) <$> direct_map
  end.

(** [_apply_subtree]: the result and the store afterwards. *)
Definition apply_subtree (s : St) (root_uri : pystr) (records : list ctx_rec)
    (ctx : RequestContext) (root_direct : option DirectAcl) : result EffectiveAcl * St :=
  let grouped := group_by_uri records in
  match dict_get grouped root_uri with
  | None => (Err InvalidArgumentError, s)
  | Some _ =>
      let planned :=
        direct_map ← dict_map (fun items => eff_direct <$> effective_from_records items) grouped;
        let direct_map := override_root direct_map root_uri root_direct in
        root_ancestors ← acl_ancestors root_uri;
        base ← parent_permissions s (parent_of root_ancestors) ctx;
        effective_by_uri ←
          subtree_effective_all direct_map base (length root_ancestors) (fst <$> grouped);
        let updated := omap (fun r => with_acl r <$> dict_get effective_by_uri (r_uri r)) records in
        Ok (effective_by_uri, updated) in
      match planned with
      | Err e => (Err e, s)
      | Ok (effective_by_uri, updated) =>
          let '(ids, s') := cs_upsert s (ctx_account_id ctx) updated in
          (match ids with
           | Err e => Err e
           | Ok ids =>
               if negb (length ids =? length updated)%nat then Err RuntimeError
               else match dict_get effective_by_uri root_uri with
                    | Some e => Ok e
                    | None => Err KeyError
                    end
           end, s')
      end
  end.

Definition refresh_context_subtree (s : St) (uri : pystr) (ctx : RequestContext) : result unit * St :=
  match subtree_records s uri ctx with
  | Err e => (Err e, s)
  | Ok [] => (Ok tt, s)
  | Ok records =>
      let '(r, s') := apply_subtree s uri records ctx None in
      ((fun _ => tt) <$> r, s')
  end.

Definition set_direct (s : St) (uri : pystr) (entries : list raw_entry) (ctx : RequestContext)
    : result EffectiveAcl * St :=
  match uri_parts uri with
  | Err e => (Err e, s)
  | Ok parts =>
      if bool_decide (parts = [u "resources"]) then (Err InvalidArgumentError, s)
      else match from_entries entries with
           | Err e => (Err e, s)
           | Ok proposed =>
               match subtree_records s uri ctx with
               | Err e => (Err e, s)
               | Ok old_records =>
                   let '(r, s') := apply_subtree s uri old_records ctx (Some proposed) in
                   match r with
                   | Ok effective => (Ok effective, s')
                   | Err e =>
                       match old_records with
                       | [] => (Err e, s')
                       | _ => match cs_upsert s' (ctx_account_id ctx) old_records with
                              | (Ok _, s'') => (Err e, s'')
                              | (Err e', s'') => (Err e', s'')
                              end
                       end
                   end
               end
           end
  end.

(** ** Materialising ACL fields on write *)

(** [CreatorAclGrant(raw)]. *)
Definition parse_creator_grant (raw : option pystr) : result (option CreatorAclGrant) :=
  match raw with
  | None => Ok None
  | Some s => if seqb s (u "direct") then Ok (Some DIRECT)
              else if seqb s (u "inherited") then Ok (Some INHERITED)
              else Err ValueError
  end.

(** The URIs of the records that carry an ACL. *)
Fixpoint resource_uris_of (records : list ctx_rec) : result (list pystr) :=
  match records with
  | [] => Ok []
  | r :: rest =>
      if negb (nonempty (r_uri r)) then resource_uris_of rest
      else
        b ← is_acl_uri (r_uri r);
        us ← resource_uris_of rest;
        Ok (if b : bool then r_uri r :: us else us)
  end.

Fixpoint parents_of (uris : list pystr) : result (list (pystr * option pystr)) :=
  match uris with
  | [] => Ok []
  | uri :: rest => a ← acl_ancestors uri; ps ← parents_of rest; Ok ((uri, parent_of a) :: ps)
  end.

(** The ACL given to a record whose URI has no record yet. *)
Definition new_effective (parents : list (pystr * option pystr))
    (parent_acl : list (pystr * EffectiveAcl)) (r : ctx_rec)
    (creator_grant : option CreatorAclGrant) : result EffectiveAcl :=
  inherited ← match dict_get parents (r_uri r) with
              | None => Err KeyError
              | Some None => Ok []
              | Some (Some parent) =>
                  match dict_get parent_acl parent with
                  | Some e => permissions e
                  | None => Err KeyError
                  end
              end;
  '(direct, inherited) ←
    match r_creator r, creator_grant with
    | Some creator, Some grant =>
        if nonempty creator then
          creator_acl ← from_entries [REntry (MkEntry (u "user:" ++ creator) MANAGE)];
          match grant with
          | DIRECT => Ok (creator_acl, inherited)
          | INHERITED => i ← acl_union inherited creator_acl; Ok ([], i)
          end
        else Ok ([], inherited)
    | _, _ => Ok ([], inherited)
    end;
  Ok (MkEff (negb (acl_empty direct) || negb (acl_empty inherited)) direct inherited).

Fixpoint materialize_all (resource_uris : list pystr) (existing_acl : list (pystr * EffectiveAcl))
    (parents : list (pystr * option pystr)) (parent_acl : list (pystr * EffectiveAcl))
    (records : list ctx_rec) : result (list ctx_rec) :=
  match records with
  | [] => Ok []
  | r :: rest =>
      creator_grant ← parse_creator_grant (r_creator_grant r);
      let record := without_creator_grant r in
      materialized ←
        (if negb (mem (r_uri record) resource_uris) then Ok record
         else match dict_get existing_acl (r_uri record) with
              | Some effective => Ok (with_acl record effective)
              | None =>
                  effective ← new_effective parents parent_acl record creator_grant;
                  Ok (with_acl record effective)
              end);
      more ← materialize_all resource_uris existing_acl parents parent_acl rest;
      Ok (materialized :: more)
  end.

Definition materialize_context_records (enabled_accounts : gset pystr) (s : St)
    (records : list ctx_rec) (ctx : RequestContext) : result (list ctx_rec) :=
  if negb (bool_decide (ctx_account_id ctx ∈ enabled_accounts))
  then Ok (without_creator_grant <$> records)
  else
    resource_uris ← resource_uris_of records;
    match resource_uris with
    | [] => Ok records
    | _ =>
        existing ← records_for_uris s resource_uris ctx;
        existing_acl ← dict_map effective_from_records (group_by_uri existing);
        let new_uris := filter (fun uri => dict_get existing_acl uri = None)
                          (remove_dups resource_uris) in
        parents ← parents_of new_uris;
        parent_acl ← resolve_many s (omap snd parents) ctx;
        materialize_all resource_uris existing_acl parents parent_acl records
    end.

(** The ACL fields of a record moved to [new_uri]. *)
Definition materialize_moved_record (s : St) (record : ctx_rec) (new_uri : pystr)
    (ctx : RequestContext) : result EffectiveAcl :=
  b ← is_acl_uri new_uri;
  if negb b then Ok (MkEff false [] [])
  else
    ancestors ← acl_ancestors new_uri;
    inherited ← parent_permissions s (parent_of ancestors) ctx;
    src ← is_acl_uri (r_uri record);
    direct ← (if src : bool then from_context_fields (r_direct_grants record) else Ok []);
    Ok (MkEff (negb (acl_empty direct) || negb (acl_empty inherited)) direct inherited).
End manager.

(** ** Enabled accounts *)

Definition set_enabled (accounts : gset pystr) (account_id : pystr) (enabled : bool) : gset pystr :=
  if enabled then {[account_id]} ∪ accounts else accounts ∖ {[account_id]}.

Definition is_enabled (accounts : gset pystr) (account_id : pystr) : bool :=
  bool_decide (account_id ∈ accounts).
