(* ===== verification/AclStoreTheory.v ===== *)
(** Refinement of the ACL manager ([AclStore]).

    The abstract state of an account's ACLs is a function [D] from resource paths
    to direct ACLs.  The effective ACL of a path is determined by [D] alone: its
    direct entries, and as inherited entries the union along its strict ancestors.
    The theorems show that the fields materialised in the collection implement
    this: [resolve] reads it back, and [set_direct] is a point update of [D]. *)
From Stdlib Require Import NArith ZArith.
From S2P Require Import Prelude PyStr PyVal Identifiers Uri Namespace NamespaceTheory Acl AclTheory AclStore.

Open Scope N_scope.

(** ** Groups and slices *)

Lemma group_add_get gs uri r k :
  dict_get (group_add gs uri r) k =
    if seqb uri k then Some (default [] (dict_get gs k) ++ [r]) else dict_get gs k.
Proof.
  induction gs as [|[k' rs] gs IH]; simpl; [done|].
  destruct (seqb k' uri) eqn:E; simpl.
  - apply seqb_true in E as ->. by destruct (seqb uri k).
  - rewrite IH. destruct (seqb k' k) eqn:E1; [|done].
    apply seqb_true in E1 as ->. destruct (seqb uri k) eqn:E2; [|done].
    apply seqb_true in E2 as ->. by rewrite (proj2 (seqb_true _ _) eq_refl) in E.
Qed.

Lemma group_by_uri_snoc records r :
  group_by_uri (records ++ [r]) =
    if nonempty (r_uri r) then group_add (group_by_uri records) (r_uri r) r else group_by_uri records.
Proof. unfold group_by_uri. by rewrite foldl_snoc. Qed.

(** The group of a non-empty key holds exactly the records with that URI. *)
Lemma group_by_uri_get records k :
  k <> [] ->
  match dict_get (group_by_uri records) k with
  | Some items => items <> [] /\ forall r, r ∈ items <-> r ∈ records /\ r_uri r = k
  | None => forall r, r ∈ records -> r_uri r <> k
  end.
Proof.
  intros Hk. induction records as [|r records IH] using rev_ind; [set_solver|].
  rewrite group_by_uri_snoc. destruct (nonempty (r_uri r)) eqn:Hn.
  - rewrite group_add_get. destruct (seqb (r_uri r) k) eqn:E.
    + apply seqb_true in E. split; [by destruct (default [] _)|]. intros r'.
      rewrite !elem_of_app, !list_elem_of_singleton.
      destruct (dict_get _ k) as [items|]; simpl.
      * destruct IH as [_ IH]. rewrite IH. naive_solver.
      * split; [set_solver|]. intros [[Hr| ->] E']; [by apply IH in Hr|by right].
    + apply seqb_false in E. destruct (dict_get _ k) as [items|]; simpl.
      * destruct IH as [Hne IH]. split; [done|]. intros r'. rewrite IH, elem_of_app, list_elem_of_singleton.
        naive_solver.
      * intros r' [Hr|Hr%list_elem_of_singleton]%elem_of_app; [by apply IH|by subst].
  - apply nonempty_false in Hn. destruct (dict_get _ k) as [items|].
    + destruct IH as [Hne IH]. split; [done|]. intros r'. rewrite IH, elem_of_app, list_elem_of_singleton.
      naive_solver.
    + intros r' [Hr|Hr%list_elem_of_singleton]%elem_of_app; [by apply IH|]. subst. congruence.
Qed.

Lemma group_add_keys gs uri r k :
  k ∈ (fst <$> group_add gs uri r) <-> k = uri \/ k ∈ (fst <$> gs).
Proof.
  induction gs as [|[k' rs] gs IH]; simpl; [set_solver|].
  destruct (seqb k' uri) eqn:E; simpl.
  - apply seqb_true in E as ->. set_solver.
  - rewrite !elem_of_cons, IH. naive_solver.
Qed.

(** Every key of the groups is the URI of a record. *)
Lemma group_by_uri_keys records k :
  k ∈ (fst <$> group_by_uri records) -> k <> [] /\ exists r, r ∈ records /\ r_uri r = k.
Proof.
  induction records as [|r records IH] using rev_ind; [set_solver|].
  rewrite group_by_uri_snoc. destruct (nonempty (r_uri r)) eqn:Hn.
  - intros [->|H]%group_add_keys.
    + split; [by apply nonempty_true|]. exists r. set_solver.
    + apply IH in H as (? & r' & ? & ?). split; [done|]. exists r'. set_solver.
  - intros H. apply IH in H as (? & r' & ? & ?). split; [done|]. exists r'. set_solver.
Qed.

Lemma chunks_loop_concat {A} fuel n (l : list A) :
  (0 < n)%nat -> (length l <= fuel)%nat -> concat (chunks_loop fuel n l) = l.
Proof.
  intros Hn. revert l. induction fuel as [|fuel IH]; intros l Hl; simpl.
  - destruct l; simpl in *; [done|lia].
  - destruct l as [|x l]; [done|]. cbn [concat]. rewrite IH; [apply take_drop|].
    rewrite length_drop. simpl in *. lia.
Qed.

Lemma chunks_concat {A} n (l : list A) : (0 < n)%nat -> concat (chunks n l) = l.
Proof. intros. by apply chunks_loop_concat. Qed.

Lemma resolve_existing_keys groups uris res k :
  resolve_existing groups uris = Ok res -> k ∈ (fst <$> res) -> k ∈ uris.
Proof.
  revert res. induction uris as [|uri uris IH]; intros res H Hk; [by simplify_eq/=; set_solver|].
  cbn [resolve_existing] in H. destruct (dict_get groups uri) as [items|].
  - destruct (effective_from_records items); [|done]. cbn [mbind result_bind] in H.
    destruct (resolve_existing groups uris); [|done]. injection H as <-.
    cbn in Hk. apply elem_of_cons in Hk as [->|Hk]; [left|right; eauto].
  - right. eauto.
Qed.

(** ** Agreement of the records of one URI *)

Lemma effective_from_records_agree records e :
  records <> [] -> (forall r, r ∈ records -> effective_from_record r = Ok e) ->
  effective_from_records records = Ok e.
Proof.
  intros Hne H. unfold effective_from_records. destruct records as [|r0 rs]; [done|].
  assert (forall l, (forall r, r ∈ l -> effective_from_record r = Ok e) ->
            effective_all l = Ok (replicate (length l) e)) as Hall.
  { induction l as [|x l IH]; intros Hl; [done|]. simpl. rewrite Hl by left. simpl.
    rewrite IH; [done|]. intros; apply Hl; by right. }
  rewrite Hall by done. cbn [mbind result_bind length].
  assert (forall n, remove_dups (replicate (S n) e) = [e]) as ->; [|done].
  induction n as [|n IH]; [done|]. change (replicate (S (S n)) e) with (e :: replicate (S n) e).
  cbn [remove_dups]. case_decide as Hx; [done|]. destruct Hx. left.
Qed.

(** ** Resource paths *)

Definition good_path (ps : list pystr) : Prop :=
  take 1 ps = [u "resources"] /\ Forall seg_ok ps /\ Forall (fun s => c_quest ∉ s) ps.

Definition canon (ps : list pystr) : pystr := u "viking://" ++ path_join ps.

(** The non-empty prefixes of a path, shortest first; the last is the path itself. *)
Definition prefixes (ps : list pystr) : list (list pystr) :=
  (fun depth => take depth ps) <$> seq 1 (length ps).

Lemma canon_parts ps : good_path ps -> uri_parts (canon ps) = Ok ps.
Proof. intros (_ & H1 & H2). unfold canon. rewrite scheme_eq. by apply uri_parts_join. Qed.

Lemma canon_parts_of ps : good_path ps -> parts_of (canon ps) = ps.
Proof. intros H. unfold parts_of. by rewrite canon_parts. Qed.

Lemma canon_inj ps qs : good_path ps -> good_path qs -> canon ps = canon qs -> ps = qs.
Proof. intros Hp Hq E. rewrite <- (canon_parts_of ps Hp), E. by apply canon_parts_of. Qed.

Lemma canon_ne ps : canon ps <> [].
Proof. unfold canon. rewrite scheme_eq. intros E%app_nil. by destruct E. Qed.

Lemma good_path_ne ps : good_path ps -> ps <> [].
Proof. by intros (H & _) ->. Qed.

Lemma good_take ps n : good_path ps -> (0 < n)%nat -> good_path (take n ps).
Proof.
  intros (H & H1 & H2) Hn. split_and!; [|by apply Forall_take..].
  rewrite take_take. by replace (1 `min` n)%nat with 1%nat by lia.
Qed.

Lemma acl_ancestors_canon ps :
  good_path ps -> acl_ancestors (canon ps) = Ok (canon <$> prefixes ps).
Proof.
  intros H. unfold acl_ancestors. rewrite canon_parts by done. cbn [mbind result_bind].
  rewrite bool_decide_eq_true_2 by apply H. cbn [negb]. f_equal.
  unfold prefixes. rewrite <- list_fmap_compose. done.
Qed.

Lemma prefixes_snoc ps x : prefixes (ps ++ [x]) = prefixes ps ++ [ps ++ [x]].
Proof.
  unfold prefixes. rewrite length_app, Nat.add_comm. cbn [length Nat.add].
  replace (S (length ps)) with (length ps + 1)%nat by lia.
  rewrite seq_app, fmap_app. f_equal.
  - apply list_fmap_ext. intros i d [-> Hd]%lookup_seq. apply take_app_le. lia.
  - simpl. rewrite take_ge; [done|]. rewrite length_app. simpl. lia.
Qed.

Lemma elem_of_prefixes q ps : q ∈ prefixes ps <-> q `prefix_of` ps /\ q <> [].
Proof.
  induction ps as [|x ps IH] using rev_ind.
  - unfold prefixes. simpl. split; [set_solver|]. by intros [->%prefix_nil_inv ?].
  - rewrite prefixes_snoc, elem_of_app, list_elem_of_singleton, IH. split.
    + intros [[H ?]| ->]; [split; [by apply prefix_app_r|done]|]. split; [done|].
      by destruct ps.
    + intros [[k Hk] Hne]. destruct k as [|y k _] using rev_ind.
      * right. by rewrite app_nil_r in Hk.
      * left. rewrite app_assoc in Hk. apply snoc_inj in Hk as [-> _]. split; [by exists k|done].
Qed.

Lemma removelast_prefixes ps x : removelast (prefixes (ps ++ [x])) = prefixes ps.
Proof. rewrite prefixes_snoc. apply removelast_last. Qed.

Lemma good_prefix q ps : good_path ps -> q ∈ prefixes ps -> good_path q.
Proof.
  intros H [[k ->] Hne]%elem_of_prefixes. rewrite <- (take_app_length q k).
  apply good_take; [done|]. destruct q; [done|simpl; lia].
Qed.

(** ** The abstract state *)

Abbreviation dstate := (list pystr -> DirectAcl).

(** Inherited entries: the union along the strict ancestors. *)
Definition inh (D : dstate) (ps : list pystr) : DirectAcl :=
  foldl aunion [] (D <$> removelast (prefixes ps)).

Definition eff (D : dstate) (ps : list pystr) : EffectiveAcl :=
  MkEff (negb (acl_empty (D ps)) || negb (acl_empty (inh D ps))) (D ps) (inh D ps).

Definition wf_state (D : dstate) : Prop := forall ps, wf_acl (D ps).

Lemma foldl_aunion_wf b l : wf_acl b -> Forall wf_acl l -> wf_acl (foldl aunion b l).
Proof.
  intros Hb Hl. revert b Hb. induction Hl as [|x l Hx _ IH]; intros b Hb; [done|].
  apply IH. by apply aunion_wf.
Qed.

Lemma fmap_wf D l : wf_state D -> Forall wf_acl (D <$> l).
Proof. intros H. apply Forall_fmap, Forall_forall. intros. apply H. Qed.

Lemma inh_wf D ps : wf_state D -> wf_acl (inh D ps).
Proof. intros. apply foldl_aunion_wf; [apply wf_acl_nil|by apply fmap_wf]. Qed.

(** What a parent passes down is what its child inherits. *)
Lemma permissions_eff D ps x :
  wf_state D -> ps <> [] -> permissions (eff D ps) = Ok (inh D (ps ++ [x])).
Proof.
  intros HD Hne. rewrite permissions_ok by (simpl; auto using inh_wf). f_equal. simpl.
  unfold inh at 2. rewrite removelast_prefixes.
  destruct ps as [|y ps _] using rev_ind; [done|]. unfold inh.
  rewrite removelast_prefixes, prefixes_snoc, fmap_app. simpl. by rewrite foldl_snoc.
Qed.

Lemma dict_all_ancestors pss :
  Forall good_path pss ->
  exists paths, all_ancestors (canon <$> pss) = Ok paths /\
    forall ps, ps ∈ pss -> dict_get paths (canon ps) = Some (canon <$> prefixes ps).
Proof.
  induction 1 as [|ps pss Hg Hgs (paths & IH & IHget)]; [exists []; set_solver|].
  rewrite fmap_cons. cbn [all_ancestors]. rewrite acl_ancestors_canon by done.
  cbn [mbind result_bind]. rewrite IH. cbn [mbind result_bind]. eexists. split; [done|].
  intros qs Hqs. cbn [dict_get]. destruct (seqb (canon ps) (canon qs)) eqn:E.
  - apply seqb_true in E. rewrite Forall_forall in Hgs.
    apply elem_of_cons in Hqs as [->|Hqs]; [done|]. by apply canon_inj in E as ->; auto.
  - apply seqb_false in E. apply elem_of_cons in Hqs as [->|Hqs]; [done|auto].
Qed.

Lemma NoDup_group_keys rs : NoDup (fst <$> group_by_uri rs).
Proof.
  induction rs as [|r rs IH] using rev_ind; [constructor|]. rewrite group_by_uri_snoc.
  destruct (nonempty _); [|done]. generalize (group_by_uri rs) IH. clear IH.
  intros gs. induction gs as [|[k rs'] gs IH]; simpl; intros Hnd.
  - apply NoDup_singleton.
  - apply NoDup_cons in Hnd as [Hk Hnd]. destruct (seqb k (r_uri r)) eqn:E; simpl.
    + by apply NoDup_cons.
    + apply NoDup_cons. split; [|by apply IH]. rewrite group_add_keys. apply seqb_false in E. naive_solver.
Qed.

Lemma union_path_ok dm (D : dstate) b l :
  wf_acl b -> wf_state D -> (forall q, q ∈ l -> default [] (dict_get dm (canon q)) = D q) ->
  union_path dm b (canon <$> l) = Ok (foldl aunion b (D <$> l)).
Proof.
  intros Hb HD. revert b Hb. induction l as [|q l IH]; intros b Hb Hl; [done|].
  rewrite !fmap_cons. cbn [union_path]. rewrite Hl by left. rewrite acl_union_ok by auto.
  cbn [mbind result_bind foldl]. apply IH; [by apply aunion_wf|]. intros; apply Hl; by right.
Qed.

Lemma removelast_canon ps : removelast (canon <$> prefixes ps) = canon <$> removelast (prefixes ps).
Proof.
  destruct ps as [|x ps _] using rev_ind; [done|].
  rewrite removelast_prefixes, prefixes_snoc, fmap_app. apply (removelast_last (canon <$> prefixes ps)).
Qed.

Lemma elem_of_removelast_prefixes q ps : q ∈ removelast (prefixes ps) -> q ∈ prefixes ps.
Proof.
  destruct ps as [|x ps _] using rev_ind; [done|]. rewrite removelast_prefixes, prefixes_snoc.
  intros. apply elem_of_app. by left.
Qed.

Lemma remove_dups_rev_elem (l : list pystr) x : x ∈ reverse (remove_dups (reverse l)) <-> x ∈ l.
Proof. by rewrite elem_of_reverse, elem_of_remove_dups, elem_of_reverse. Qed.

Lemma dedup_canon pss :
  Forall good_path pss ->
  exists qss, reverse (remove_dups (reverse (canon <$> pss))) = canon <$> qss
    /\ (forall ps, ps ∈ pss -> ps ∈ qss) /\ Forall good_path qss.
Proof.
  intros Hg. rewrite Forall_forall in Hg.
  assert (forall l, (forall x, x ∈ l -> exists q, x = canon q /\ good_path q) ->
            exists qss, l = canon <$> qss /\ Forall good_path qss) as Hl.
  { induction l as [|x l IH]; intros H; [by exists []|]. destruct (H x) as (q & -> & Hq); [left|].
    destruct IH as (qss & -> & ?); [intros; apply H; by right|]. exists (q :: qss). auto. }
  destruct (Hl (reverse (remove_dups (reverse (canon <$> pss))))) as (qss & E & Hq).
  { intros x Hx. apply remove_dups_rev_elem, list_elem_of_fmap in Hx as (q & -> & ?). eauto. }
  exists qss. split_and!; [done| |done]. intros ps Hps. rewrite Forall_forall in Hq.
  assert (canon ps ∈ canon <$> qss) as Hin.
  { rewrite <- E, remove_dups_rev_elem. apply list_elem_of_fmap. eauto. }
  apply list_elem_of_fmap in Hin as (q & Ec & Hin). apply canon_inj in Ec as ->; auto.
Qed.

Lemma filter_canon (P : pystr -> Prop) `{!forall x, Decision (P x)} (pss : list (list pystr)) :
  exists ms, filter P (canon <$> pss) = canon <$> ms /\ forall q, q ∈ ms <-> q ∈ pss /\ P (canon q).
Proof.
  induction pss as [|p pss (ms & IH & Hms)]; [exists []; set_solver|]. rewrite fmap_cons.
  destruct (decide (P (canon p))).
  - exists (p :: ms). rewrite filter_cons_True, IH by done. split; [done|]. intros q.
    rewrite !elem_of_cons, Hms. naive_solver.
  - exists ms. rewrite filter_cons_False, IH by done. split; [done|]. intros q.
    rewrite elem_of_cons, Hms. naive_solver.
Qed.

Lemma bind_paths paths ms :
  (forall q, q ∈ ms -> dict_get paths (canon q) = Some (canon <$> prefixes q)) ->
  ((canon <$> ms) ≫= fun uri => default [] (dict_get paths uri)) = canon <$> (ms ≫= prefixes).
Proof.
  induction ms as [|m ms IH]; intros H; [done|]. rewrite fmap_cons, !bind_cons, fmap_app, H by left.
  f_equal. apply IH. intros; apply H; by right.
Qed.

Lemma NoDup_fmap_inj_elem {A B} (f : A -> B) l x y :
  NoDup (f <$> l) -> x ∈ l -> y ∈ l -> f x = f y -> x = y.
Proof.
  intros Hnd [i Hi]%list_elem_of_lookup [j Hj]%list_elem_of_lookup E.
  assert (i = j) as ->; [|congruence].
  apply (NoDup_lookup (f <$> l) i j (f x)); [done| |]; rewrite list_lookup_fmap.
  - by rewrite Hi.
  - rewrite Hj. simpl. by rewrite E.
Qed.

Lemma NoDup_fmap_filter {A B} (f : A -> B) (P : A -> Prop) `{!forall x, Decision (P x)} (l : list A) :
  NoDup (f <$> l) -> NoDup (f <$> filter P l).
Proof.
  induction l as [|x l IH]; intros Hnd; [constructor|]. rewrite fmap_cons in Hnd.
  apply NoDup_cons in Hnd as [Hx Hnd]. destruct (decide (P x)).
  - rewrite filter_cons_True, fmap_cons by done. apply NoDup_cons. split; [|by apply IH].
    rewrite list_elem_of_fmap in Hx |- *. intros (y & ? & Hy%list_elem_of_filter). apply Hx. naive_solver.
  - rewrite filter_cons_False by done. by apply IH.
Qed.

Lemma prefixes_app a b :
  prefixes (a ++ b) = prefixes a ++ ((fun d => a ++ take d b) <$> seq 1 (length b)).
Proof.
  unfold prefixes. rewrite length_app, seq_app, fmap_app. f_equal.
  - apply list_fmap_ext. intros i d [-> Hd]%lookup_seq. apply take_app_le. lia.
  - rewrite (Nat.add_comm 1), <- (fmap_add_seq (length a) 1), <- list_fmap_compose.
    apply list_fmap_ext. intros _ d _. simpl. by rewrite take_app_add.
Qed.

Lemma length_prefixes ps : length (prefixes ps) = length ps.
Proof. unfold prefixes. by rewrite length_fmap, length_seq. Qed.

(** Point update of the abstract state. *)
Definition upd (D : dstate) (ps : list pystr) (d : DirectAcl) : dstate :=
  fun q => if decide (q = ps) then d else D q.

Lemma upd_wf D ps d : wf_state D -> wf_acl d -> wf_state (upd D ps d).
Proof. intros HD Hd q. unfold upd. by case_decide. Qed.

(** An update is seen by the paths below it only. *)
Lemma inh_upd_above D ps d q : ~ (ps `prefix_of` q /\ q <> ps) -> inh (upd D ps d) q = inh D q.
Proof.
  intros Hn. unfold inh. f_equal. apply list_fmap_ext. intros i p Hp%list_elem_of_lookup_2.
  unfold upd. case_decide as E; [|done]. subst p. destruct Hn.
  destruct q as [|x q _] using rev_ind; [by apply elem_of_nil in Hp|].
  rewrite removelast_prefixes in Hp. apply elem_of_prefixes in Hp as [Hp _].
  split; [by apply prefix_app_r|]. intros E. apply prefix_length in Hp.
  rewrite <- E, length_app in Hp. simpl in Hp. lia.
Qed.

Lemma eff_upd_outside D ps d q : ~ ps `prefix_of` q -> eff (upd D ps d) q = eff D q.
Proof.
  intros Hn. unfold eff. rewrite inh_upd_above by tauto. unfold upd. case_decide; [by subst|done].
Qed.

(** Inheritance splits at any ancestor. *)
Lemma inh_split D a b :
  b <> [] ->
  inh D (a ++ b) = foldl aunion (foldl aunion [] (D <$> prefixes a))
                     (D <$> removelast ((fun d => a ++ take d b) <$> seq 1 (length b))).
Proof.
  intros Hb. unfold inh. rewrite prefixes_app, removelast_app; [by rewrite fmap_app, foldl_app|].
  by destruct b.
Qed.

Lemma override_root_get dm root d k :
  dict_get (override_root dm root (Some d)) k
  = (fun v => if seqb k root then d else v) <$> dict_get dm k.
Proof.
  induction dm as [|[k' v] dm IH]; [done|]. cbn [override_root fmap list_fmap] in *.
  destruct (seqb k' root) eqn:E; cbn [dict_get]; rewrite IH; destruct (seqb k' k) eqn:E2; try done;
    apply seqb_true in E2 as ->; cbn; by rewrite E.
Qed.

Lemma stored_effective r (D : dstate) ps :
  wf_state D -> effective_from_record (with_acl r (eff D ps)) = Ok (eff D ps).
Proof.
  intros HD. unfold effective_from_record, with_acl. unfold eff.
  cbn [r_direct_grants r_inherited_grants r_acl_enabled eff_direct eff_inherited eff_enabled].
  rewrite (grant_fields_ok (D ps)), (grant_fields_ok (inh D ps)) by auto using inh_wf.
  cbn [mbind result_bind]. f_equal. f_equal.
  by destruct (acl_empty (D ps)), (acl_empty (inh D ps)).
Qed.

Lemma omap_id_nodup (l : list ctx_rec) :
  NoDup (r_id <$> l) ->
  NoDup (omap (fun r => i ← r_id r; if nonempty i then Some i else None) l).
Proof.
  induction l as [|r l IH]; intros Hnd; [constructor|]. rewrite fmap_cons in Hnd.
  apply NoDup_cons in Hnd as [Hr Hnd]. cbn [omap list_omap]. specialize (IH Hnd).
  destruct (r_id r) as [i|] eqn:E; cbn [mbind option_bind]; [|done]. destruct (nonempty i); [|done].
  apply NoDup_cons. split; [|done]. intros (r' & Hr' & E')%list_elem_of_omap. apply Hr.
  apply list_elem_of_fmap. exists r'. split; [|done]. destruct (r_id r') as [j|]; [|done].
  cbn in E'. destruct (nonempty j); [|done]. congruence.
Qed.

Lemma omap_all {A B} (f : A -> option B) (g : A -> B) (l : list A) :
  (forall x, x ∈ l -> f x = Some (g x)) -> omap f l = g <$> l.
Proof.
  induction l as [|x l IH]; intros H; [done|]. cbn [omap list_omap]. rewrite H by left.
  rewrite fmap_cons. f_equal. apply IH. intros; apply H; by right.
Qed.

(** ** Paging *)

Section store.
Context {St : Type} `{!ContextStore St} `{!ContextStoreOk St}.

Abbreviation matching s a f := (filter (fun r => fmatch f r = true) (cs_records s a)).

Lemma scroll_loop_ok n s a f acc off :
  (length (matching s a f) < n + off)%nat -> (0 < n)%nat ->
  scroll_loop n s a f acc (Some off) = Ok (acc ++ drop off (matching s a f)).
Proof.
  revert acc off. induction n as [|n IH]; intros acc off Hn Hp; [lia|].
  cbn [scroll_loop]. unfold scroll. simpl default. rewrite cs_query_law.
  set (l := matching s a f) in *.
  destruct (length (take 500 (drop off l)) =? 500)%nat eqn:E.
  - apply Nat.eqb_eq in E. rewrite length_take, length_drop in E.
    rewrite IH by (fold l; lia). fold l. f_equal. rewrite <- app_assoc. f_equal.
    rewrite <- drop_drop. apply take_drop.
  - apply Nat.eqb_neq in E. rewrite length_take, length_drop in E.
    by rewrite take_ge by (rewrite length_drop; lia).
Qed.

Lemma scroll_all_ok fuel s f ctx :
  (length (cs_records s (ctx_account_id ctx)) < fuel)%nat ->
  scroll_all fuel s f ctx = Ok (matching s (ctx_account_id ctx) f).
Proof.
  intros Hf. unfold scroll_all.
  assert (forall n acc, scroll_loop n s (ctx_account_id ctx) f acc None
          = scroll_loop n s (ctx_account_id ctx) f acc (Some 0%nat)) as -> by by intros [].
  rewrite scroll_loop_ok; [done| |lia].
  pose proof (length_filter (fun r => fmatch f r = true) (cs_records s (ctx_account_id ctx))). lia.
Qed.

Lemma result_concat_ok {A B} (f : A -> result (list B)) (g : A -> list B) l :
  (forall x, x ∈ l -> f x = Ok (g x)) -> result_concat f l = Ok (l ≫= g).
Proof.
  induction l as [|x l IH]; intros H; [done|]. simpl. rewrite H by left. simpl.
  rewrite IH; [done|]. intros; apply H; by right.
Qed.

Lemma path_matches_exact p r :
  path_matches p 0 r = true <-> parts_of (r_uri r) = parts_of p.
Proof.
  unfold path_matches. simpl. rewrite bool_decide_eq_true. split.
  - intros [[k Hk] Hl]. rewrite Hk, length_app in *. destruct k; [by rewrite app_nil_r|simpl in *; lia].
  - intros ->. split; [done|lia].
Qed.

Lemma path_matches_subtree p r :
  path_matches p (-1) r = true <-> parts_of p `prefix_of` parts_of (r_uri r).
Proof. unfold path_matches. simpl. apply bool_decide_eq_true. Qed.

Lemma records_for_uris_ok fuel s uris ctx :
  (length (cs_records s (ctx_account_id ctx)) < fuel)%nat ->
  exists rs, records_for_uris fuel s uris ctx = Ok rs /\
    forall r, r ∈ rs <-> r ∈ cs_records s (ctx_account_id ctx)
                        /\ exists uri, uri ∈ uris /\ parts_of (r_uri r) = parts_of uri.
Proof.
  intros Hf. unfold records_for_uris.
  erewrite result_concat_ok; [|intros; by apply scroll_all_ok].
  eexists. split; [done|]. intros r. rewrite list_elem_of_bind.
  assert (forall uri, uri ∈ uris <-> exists c, c ∈ chunks 100 (sorted_strs (remove_dups uris)) /\ uri ∈ c) as Hc.
  { intros uri. rewrite <- elem_of_remove_dups, <- (sorted_strs_perm (remove_dups uris)).
    rewrite <- (chunks_concat 100 (sorted_strs _)) at 1 by lia.
    rewrite list_elem_of_In, in_concat. setoid_rewrite list_elem_of_In. done. }
  setoid_rewrite list_elem_of_filter. cbn [fmatch]. setoid_rewrite existsb_exists. split.
  - intros (c & [(f & Hin & Hm) Hr] & Hch). split; [done|].
    apply list_elem_of_In, list_elem_of_fmap in Hin as (uri & -> & Hu).
    exists uri. split; [apply Hc; eauto|]. by apply path_matches_exact.
  - intros (Hr & uri & Hu & He). apply Hc in Hu as (c & Hch & Hu). exists c. split; [|done].
    split; [|done]. exists (PathScope uri 0). split; [|by apply path_matches_exact].
    apply list_elem_of_In, list_elem_of_fmap. eauto.
Qed.

(** ** Representation *)

(** The collection of the account represents [D]: ids are distinct and usable,
    resource records carry canonical URIs and the effective ACL [D] determines,
    and a path without record has no direct entries. *)
Record Represents (s : St) (a : pystr) (D : dstate) : Prop := {
  rep_nodup : NoDup (r_id <$> cs_records s a);
  rep_ids : forall r, r ∈ cs_records s a -> exists i, r_id r = Some i /\ i <> [];
  rep_wf : wf_state D;
  rep_canon : forall r, r ∈ cs_records s a -> good_path (parts_of (r_uri r)) ->
    r_uri r = canon (parts_of (r_uri r))
    /\ effective_from_record r = Ok (eff D (parts_of (r_uri r)));
  rep_none : forall ps, good_path ps -> (forall r, r ∈ cs_records s a -> r_uri r <> canon ps) ->
    D ps = [] }.

Section represented.
Context (fuel : nat) (s : St) (ctx : RequestContext) (D : dstate).
Context (Hrep : Represents s (ctx_account_id ctx) D).
Context (Hfuel : (length (cs_records s (ctx_account_id ctx)) < fuel)%nat).
Abbreviation recs := (cs_records s (ctx_account_id ctx)).

(** Groups of records read for paths below [recs] carry the effective ACL. *)
Lemma group_effective rs ps :
  (forall r, r ∈ rs -> r ∈ recs) -> good_path ps ->
  match dict_get (group_by_uri rs) (canon ps) with
  | Some items => effective_from_records items = Ok (eff D ps) /\ exists r, r ∈ rs /\ r_uri r = canon ps
  | None => forall r, r ∈ rs -> r_uri r <> canon ps
  end.
Proof.
  intros Hrs Hg. pose proof (group_by_uri_get rs (canon ps) (canon_ne ps)) as H.
  destruct (dict_get _ _) as [items|]; [|done]. destruct H as [Hne H]. split.
  - apply effective_from_records_agree; [done|]. intros r [Hr Hu]%H.
    rewrite <- (canon_parts_of ps) in Hg |- * by done. rewrite <- Hu in Hg |- *.
    by apply (rep_canon _ _ _ Hrep); auto.
  - destruct items as [|r items]; [done|]. exists r. apply H. left.
Qed.

(** The keys of groups read for resource paths are canonical. *)
Definition resource_records (rs : list ctx_rec) : Prop :=
  forall r, r ∈ rs -> r ∈ recs /\ good_path (parts_of (r_uri r)).

Lemma group_keys_canon rs k :
  resource_records rs -> k ∈ (fst <$> group_by_uri rs) ->
  exists ps, good_path ps /\ k = canon ps /\ exists r, r ∈ rs /\ r_uri r = canon ps.
Proof.
  intros Hrs (_ & r & Hr & Hu)%group_by_uri_keys. destruct (Hrs r Hr) as [Hin Hg].
  destruct (rep_canon _ _ _ Hrep r Hin Hg) as [Hc _]. exists (parts_of (r_uri r)). split_and!; [done|congruence|].
  by exists r.
Qed.

(** Direct ACLs read off grouped records. *)
Lemma direct_map_ok rs :
  resource_records rs ->
  exists dm,
    dict_map (fun records => eff_direct <$> effective_from_records records) (group_by_uri rs) = Ok dm
    /\ forall ps, good_path ps ->
         dict_get dm (canon ps) =
           if bool_decide (canon ps ∈ (r_uri <$> rs)) then Some (D ps) else None.
Proof.
  intros Hrs. destruct (dict_map_ok (fun records => eff_direct <$> effective_from_records records)
                          (group_by_uri rs)) as (dm & Hdm & _).
  { intros k v Hkv. destruct (group_keys_canon rs k) as (ps & Hg & -> & _); [done| |].
    { apply list_elem_of_fmap. by exists (k, v). }
    pose proof (group_effective rs ps (fun r Hr => proj1 (Hrs r Hr)) Hg) as H.
    rewrite (dict_get_in _ _ _ (NoDup_group_keys rs) Hkv) in H. destruct H as [-> _]. eexists. done. }
  exists dm. split; [done|]. intros ps Hg. pose proof (dict_map_get _ _ _ (canon ps) Hdm) as Hget.
  pose proof (group_effective rs ps (fun r Hr => proj1 (Hrs r Hr)) Hg) as H.
  destruct (dict_get (group_by_uri rs) (canon ps)) as [items|].
  - destruct H as (He & r & Hr & Hu). rewrite bool_decide_eq_true_2.
    + destruct Hget as (w & Hw & ->). rewrite He in Hw. by injection Hw as <-.
    + apply list_elem_of_fmap. by exists r.
  - rewrite bool_decide_eq_false_2; [done|]. intros (r & Hu & Hr)%list_elem_of_fmap.
    by apply (H r Hr).
Qed.

Lemma resolve_existing_ok rs pss :
  (forall r, r ∈ rs -> r ∈ recs) -> Forall good_path pss ->
  exists res, resolve_existing (group_by_uri rs) (canon <$> pss) = Ok res /\
    forall ps, ps ∈ pss -> dict_get res (canon ps) =
      if bool_decide (canon ps ∈ (r_uri <$> rs)) then Some (eff D ps) else None.
Proof.
  intros Hrs. induction 1 as [|ps pss Hg Hgs (res & IH & IHget)]; [exists []; set_solver|].
  rewrite fmap_cons. cbn [resolve_existing].
  pose proof (group_effective rs ps Hrs Hg) as H. rewrite Forall_forall in Hgs.
  destruct (dict_get _ (canon ps)) as [items|].
  - destruct H as (-> & r & Hr & Hu). cbn [mbind result_bind]. rewrite IH. cbn [mbind result_bind].
    eexists. split; [done|]. intros qs Hqs. cbn [dict_get].
    assert (canon ps ∈ (r_uri <$> rs)) as Hin by (apply list_elem_of_fmap; by exists r).
    destruct (seqb (canon ps) (canon qs)) eqn:E.
    + apply seqb_true in E. rewrite <- E, bool_decide_eq_true_2 by done.
      apply elem_of_cons in Hqs as [->|Hqs]; [done|]. by apply canon_inj in E as ->; auto.
    + apply seqb_false in E. apply elem_of_cons in Hqs as [->|Hqs]; [done|auto].
  - exists res. split; [done|]. intros qs Hqs. apply elem_of_cons in Hqs as [->|Hqs]; [|auto].
    rewrite bool_decide_eq_false_2.
    + destruct (decide (ps ∈ pss)) as [Hp|Hp].
      * rewrite IHget by done. rewrite bool_decide_eq_false_2; [done|].
        intros (r & Hu & Hr)%list_elem_of_fmap. by apply (H r Hr).
      * apply dict_get_None. intros Hk. apply (resolve_existing_keys _ _ _ _ IH) in Hk.
        apply list_elem_of_fmap in Hk as (qs & E & Hqs). by apply canon_inj in E as ->; auto.
    + intros (r & Hu & Hr)%list_elem_of_fmap. by apply (H r Hr).
Qed.

Lemma resolve_missing_all_ok dm paths pss :
  Forall good_path pss ->
  (forall ps, ps ∈ pss -> dict_get paths (canon ps) = Some (canon <$> prefixes ps)) ->
  (forall ps q, ps ∈ pss -> q ∈ prefixes ps -> default [] (dict_get dm (canon q)) = D q) ->
  exists res, resolve_missing_all dm paths (canon <$> pss) = Ok res /\
    forall ps, ps ∈ pss -> dict_get res (canon ps) = Some (eff D ps).
Proof.
  pose proof (rep_wf _ _ _ Hrep) as HD.
  induction 1 as [|ps pss Hg Hgs IH]; intros Hp Hdm; [exists []; set_solver|].
  rewrite fmap_cons. cbn [resolve_missing_all]. rewrite Hp by left. simpl default.
  unfold resolve_missing. rewrite removelast_canon, (union_path_ok _ D); [|apply wf_acl_nil|done|].
  2: { intros q Hq. apply (Hdm ps); [left|]. by apply elem_of_removelast_prefixes. }
  cbn [mbind result_bind]. rewrite (Hdm ps ps); [|left|].
  2: { apply elem_of_prefixes. split; [done|by apply good_path_ne]. }
  destruct IH as (res & -> & Hres).
  { intros; apply Hp; by right. }
  { intros ps' q ? ?. apply (Hdm ps'); [by right|done]. }
  cbn [mbind result_bind]. eexists. split; [done|]. intros qs Hqs. cbn [dict_get].
  destruct (seqb (canon ps) (canon qs)) eqn:E.
  - apply seqb_true in E. assert (ps = qs) as <-.
    { apply elem_of_cons in Hqs as [->|Hqs]; [done|]. rewrite Forall_forall in Hgs.
      apply canon_inj; auto. }
    f_equal. unfold eff, inh. f_equal. apply orb_comm.
  - apply seqb_false in E. apply elem_of_cons in Hqs as [->|Hqs]; [done|auto].
Qed.

(** Records read for the prefixes of resource paths are resource records, and the
    read misses none. *)
Lemma records_for_paths pss :
  Forall good_path pss ->
  exists rs, records_for_uris fuel s (canon <$> pss) ctx = Ok rs /\ resource_records rs /\
    forall ps, ps ∈ pss -> canon ps ∈ (r_uri <$> rs) <-> canon ps ∈ (r_uri <$> recs).
Proof.
  intros Hg. rewrite Forall_forall in Hg.
  destruct (records_for_uris_ok fuel s (canon <$> pss) ctx Hfuel) as (rs & Hrs & Hin).
  exists rs. split; [done|]. split.
  - intros r (Hr & uri & (ps & -> & Hps)%list_elem_of_fmap & He)%Hin. split; [done|].
    rewrite He, canon_parts_of; auto.
  - intros ps Hps. rewrite !list_elem_of_fmap. split; intros (r & Hu & Hr); exists r.
    + split; [done|]. by apply Hin in Hr as [? _].
    + split; [done|]. apply Hin. split; [done|]. exists (canon ps). split; [|by rewrite Hu].
      apply list_elem_of_fmap. eauto.
Qed.

(** A path without record has no direct entries. *)
Lemma direct_or_empty (ps : list pystr) :
  good_path ps -> (if bool_decide (canon ps ∈ (r_uri <$> recs)) then D ps else []) = D ps.
Proof.
  intros Hg. case_bool_decide as Hin; [done|]. symmetry. apply (rep_none _ _ _ Hrep _ Hg).
  intros r Hr Hu. apply Hin, list_elem_of_fmap. by exists r.
Qed.

Lemma resolve_many_ok pss :
  Forall good_path pss ->
  exists res, resolve_many fuel s (canon <$> pss) ctx = Ok res /\
    forall ps, ps ∈ pss -> dict_get res (canon ps) = Some (eff D ps).
Proof.
  intros Hg. unfold resolve_many.
  assert (exists qss, reverse (remove_dups (reverse (canon <$> pss))) = canon <$> qss
            /\ (forall ps, ps ∈ pss -> ps ∈ qss) /\ Forall good_path qss) as (qss & -> & Hsub & Hgq).
  { apply dedup_canon. done. }
  destruct (dict_all_ancestors qss Hgq) as (paths & -> & Hpaths). cbn [mbind result_bind].
  destruct (records_for_paths qss Hgq) as (rs & -> & Hrs & Hex). cbn [mbind result_bind].
  destruct (resolve_existing_ok rs qss (fun r Hr => proj1 (Hrs r Hr)) Hgq) as (res & -> & Hres).
  cbn [mbind result_bind].
  destruct (filter_canon (fun uri => dict_get res uri = None) qss) as (ms & Hm & Hms).
  rewrite Hm. assert (Forall good_path ms) as Hgm.
  { apply Forall_forall. intros q [Hq _]%Hms. rewrite Forall_forall in Hgq. auto. }
  destruct (canon <$> ms) as [|u0 us] eqn:Ems.
  { apply fmap_nil_inv in Ems as ->. exists res. split; [done|]. intros ps Hps.
    destruct (dict_get res (canon ps)) eqn:E.
    - rewrite Hres in E by auto. case_bool_decide; [done|done].
    - exfalso. assert (ps ∈ []) by (apply Hms; auto). set_solver. }
  rewrite <- Ems. clear Hm Ems u0 us.
  assert ((canon <$> ms) ≫= (fun uri => default [] (dict_get paths uri))
          = canon <$> (ms ≫= prefixes)) as ->.
  { apply bind_paths. intros q [Hq _]%Hms. by rewrite Hpaths. }
  assert (Forall good_path (ms ≫= prefixes)) as Hgp.
  { apply Forall_forall. intros q (m & Hq & Hmm)%list_elem_of_bind. rewrite Forall_forall in Hgm.
    eapply good_prefix; eauto. }
  destruct (records_for_paths _ Hgp) as (as_ & -> & Has & Hexa). cbn [mbind result_bind].
  destruct (direct_map_ok as_ Has) as (dm & -> & Hdm). cbn [mbind result_bind].
  destruct (resolve_missing_all_ok dm paths ms Hgm) as (more & -> & Hmore).
  { intros q [Hq _]%Hms. auto. }
  { intros m q Hm Hq. assert (q ∈ ms ≫= prefixes) as Hqin by (apply list_elem_of_bind; eauto).
    rewrite Forall_forall in Hgp. rewrite Hdm by auto.
    rewrite (bool_decide_ext _ _ (Hexa q Hqin)). rewrite <- (direct_or_empty q) by auto.
    by case_bool_decide. }
  cbn [mbind result_bind]. eexists. split; [done|]. intros ps Hps. rewrite dict_get_app.
  destruct (dict_get res (canon ps)) as [e|] eqn:E.
  - rewrite Hres in E by auto. by case_bool_decide.
  - apply Hmore, Hms. auto.
Qed.

Lemma resolve_canon ps : good_path ps -> resolve fuel s (canon ps) ctx = Ok (eff D ps).
Proof.
  intros Hg. unfold resolve. destruct (resolve_many_ok [ps]) as (res & E & Hres); [by constructor|].
  change (canon <$> [ps]) with [canon ps] in E. rewrite E. cbn [mbind result_bind].
  rewrite Hres; [done|left].
Qed.

Lemma get_chunks_nodup (cs : list (list pystr)) :
  NoDup (concat cs) ->
  NoDup (r_id <$> (cs ≫= fun c => cs_get s (ctx_account_id ctx) c)).
Proof.
  induction cs as [|c cs IH]; intros Hnd; [constructor|]. cbn [concat] in Hnd.
  apply NoDup_app in Hnd as (Hc & Hdis & Hcs). rewrite bind_cons, fmap_app. apply NoDup_app. split_and!.
  - apply cs_get_ids; [apply Hrep|done].
  - intros oi (r & -> & (_ & i & Hi & Hin)%cs_get_law)%list_elem_of_fmap.
    intros (r' & E & (c' & (_ & j & Hj & Hjn)%cs_get_law & Hc')%list_elem_of_bind)%list_elem_of_fmap.
    apply (Hdis i Hin). rewrite list_elem_of_In, in_concat. exists c'.
    rewrite <- !list_elem_of_In. split; [done|]. congruence.
  - by apply IH.
Qed.

Lemma subtree_records_ok ps :
  good_path ps ->
  exists rs, subtree_records fuel s (canon ps) ctx = Ok rs /\ NoDup (r_id <$> rs) /\
    forall r, r ∈ rs <-> r ∈ recs /\ ps `prefix_of` parts_of (r_uri r).
Proof.
  intros Hg. unfold subtree_records. rewrite scroll_all_ok by done. cbn [mbind result_bind].
  set (refs := filter _ recs). set (ids := omap _ refs).
  assert (forall i, i ∈ ids <-> exists r, r ∈ refs /\ r_id r = Some i) as Hids.
  { intros i. unfold ids. rewrite list_elem_of_omap. split; intros (r & Hr & E); exists r; split; [done| |done|].
    - destruct (r_id r) as [j|]; [|done]. cbn in E. by destruct (nonempty j).
    - rewrite E. cbn. destruct (rep_ids _ _ _ Hrep r) as (j & Hj & Hne).
      { by apply list_elem_of_filter in Hr as [_ ?]. }
      destruct (nonempty i) eqn:En; [done|]. apply nonempty_false in En. congruence. }
  assert (NoDup ids) as Hnd.
  { apply omap_id_nodup. unfold refs. apply NoDup_fmap_filter, Hrep. }
  eexists. split; [done|]. split; [apply get_chunks_nodup; rewrite chunks_concat; [done|lia]|].
  intros r. rewrite list_elem_of_bind. setoid_rewrite cs_get_law.
  assert (r ∈ refs <-> r ∈ recs /\ ps `prefix_of` parts_of (r_uri r)) as Href.
  { unfold refs. rewrite list_elem_of_filter. cbn [fmatch]. rewrite path_matches_subtree, canon_parts_of by done.
    tauto. }
  rewrite <- Href. split.
  - intros (c & (Hr & i & Hi & Hin) & Hc).
    assert (i ∈ ids) as Hi'.
    { rewrite <- (chunks_concat 500 ids) by lia. rewrite list_elem_of_In, in_concat. exists c.
      by rewrite <- !list_elem_of_In. }
    apply Hids in Hi' as (r' & Hr' & E). rewrite (NoDup_fmap_inj_elem r_id recs r r'); [done|apply Hrep|done| |congruence].
    by apply list_elem_of_filter in Hr' as [_ ?].
  - intros Hr. pose proof (proj1 Href Hr) as [Hin _]. destruct (rep_ids _ _ _ Hrep r Hin) as (i & Hi & _).
    assert (i ∈ ids) as Hi' by (apply Hids; eauto).
    rewrite <- (chunks_concat 500 ids) in Hi' by lia. rewrite list_elem_of_In, in_concat in Hi'.
    destruct Hi' as (c & Hc & Hic). exists c. apply list_elem_of_In in Hc, Hic. eauto.
Qed.

Lemma below_good ps uri : good_path ps -> ps `prefix_of` parts_of uri -> good_path (parts_of uri).
Proof using.
  intros Hg Hp. unfold parts_of in *. destruct (uri_parts uri) as [qs|] eqn:E.
  - split_and!; [|by eapply uri_parts_ok|by eapply uri_parts_no_quest].
    destruct Hp as [k ->]. destruct Hg as [Ht _]. destruct ps as [|p ps]; [done|]. done.
  - apply prefix_nil_inv in Hp as ->. by destruct Hg as [? _].
Qed.

Section subtree.
Context (par : list pystr) (x : pystr) (d : DirectAcl) (rs : list ctx_rec).
Abbreviation ps := (par ++ [x]).
Context (Hg : good_path ps) (Hpar : good_path par) (Hd : wf_acl d).
Context (Hroot : canon ps ∈ (r_uri <$> recs)).
Context (Hrs : forall r, r ∈ rs <-> r ∈ recs /\ ps `prefix_of` parts_of (r_uri r)).
Abbreviation D' := (upd D ps d).

Lemma subtree_resource : resource_records rs.
Proof. intros r [Hr Hp]%Hrs. split; [done|by apply (below_good ps)]. Qed.

Lemma subtree_uri r : r ∈ rs -> exists q, good_path q /\ ps `prefix_of` q /\ r_uri r = canon q.
Proof.
  intros Hr. destruct (subtree_resource r Hr) as [Hin Hgr].
  exists (parts_of (r_uri r)). split_and!; [done|by apply Hrs|].
  by destruct (rep_canon _ _ _ Hrep r Hin Hgr).
Qed.

Lemma subtree_uris q : good_path q -> ps `prefix_of` q ->
  canon q ∈ (r_uri <$> rs) <-> canon q ∈ (r_uri <$> recs).
Proof.
  intros Hq Hp. rewrite !list_elem_of_fmap. split; intros (r & Hu & Hr); exists r; (split; [done|]).
  - by apply Hrs in Hr as [? _].
  - apply Hrs. split; [done|]. by rewrite <- Hu, canon_parts_of.
Qed.

(** The direct map of the loop, after the override, is the updated state. *)
Lemma override_direct dm q :
  (forall q, good_path q ->
     dict_get dm (canon q) = if bool_decide (canon q ∈ (r_uri <$> rs)) then Some (D q) else None) ->
  good_path q -> ps `prefix_of` q ->
  default [] (dict_get (override_root dm (canon ps) (Some d)) (canon q)) = D' q.
Proof.
  intros Hdm Hq Hp. rewrite override_root_get, Hdm by done.
  rewrite (bool_decide_ext _ _ (subtree_uris q Hq Hp)).
  unfold upd. case_decide as E.
  - subst q. rewrite bool_decide_eq_true_2 by done. cbn. by rewrite (proj2 (seqb_true _ _) eq_refl).
  - rewrite <- (direct_or_empty q) by done. case_bool_decide; [|done]. cbn.
    rewrite (proj2 (seqb_false (canon q) (canon ps))); [done|]. intros Ec. by apply canon_inj in Ec.
Qed.

Lemma subtree_effective_ok dm q :
  (forall q, good_path q -> ps `prefix_of` q -> default [] (dict_get dm (canon q)) = D' q) ->
  good_path q -> ps `prefix_of` q ->
  subtree_effective dm (inh D ps) (length ps) (canon q) = Ok (eff D' q).
Proof.
  intros Hdm Hq [k ->]. pose proof (rep_wf _ _ _ Hrep) as HD.
  unfold subtree_effective. rewrite acl_ancestors_canon by done. cbn [mbind result_bind].
  rewrite <- (app_assoc par) in *. cbn [app] in *.
  rewrite <- fmap_drop, prefixes_app, length_app, Nat.add_sub.
  rewrite drop_app_length' by (by rewrite length_prefixes).
  set (l := (fun d => par ++ take d (x :: k)) <$> seq 1 (length (x :: k))).
  assert (removelast (canon <$> l) = canon <$> removelast l) as ->.
  { destruct l as [|y l' _] using rev_ind; [done|]. rewrite fmap_app, removelast_last.
    apply (removelast_last (canon <$> l')). }
  rewrite (union_path_ok _ D'); [|by apply inh_wf|by apply upd_wf|].
  - cbn [mbind result_bind]. rewrite Hdm; [|done|exists k; by rewrite <- app_assoc].
    unfold eff. rewrite (inh_split D' par (x :: k)) by done. fold l.
    assert (foldl aunion [] (D' <$> prefixes par) = inh D ps) as ->; [|done].
    rewrite <- (inh_upd_above D ps d ps) by tauto. unfold inh. by rewrite removelast_prefixes.
  - intros q Hql. assert (q ∈ l) as Hin.
    { destruct l as [|y l' _] using rev_ind; [done|]. rewrite removelast_last in Hql.
      apply elem_of_app. by left. }
    apply list_elem_of_fmap in Hin as (n & -> & Hn%elem_of_seq).
    destruct n as [|n]; [lia|]. cbn [take].
    apply Hdm; [|exists (take n k); by rewrite <- app_assoc].
    replace (par ++ x :: take n k) with (take (length par + S n) (par ++ x :: k)) by (rewrite take_app_add; done).
    apply good_take; [done|lia].
Qed.

Lemma subtree_effective_all_ok dm keys :
  (forall q, good_path q -> ps `prefix_of` q -> default [] (dict_get dm (canon q)) = D' q) ->
  (forall k, k ∈ keys -> exists q, good_path q /\ ps `prefix_of` q /\ k = canon q) ->
  exists es, subtree_effective_all dm (inh D ps) (length ps) keys = Ok es /\
    forall q, good_path q -> canon q ∈ keys -> dict_get es (canon q) = Some (eff D' q).
Proof.
  intros Hdm. induction keys as [|k keys IH]; intros Hk; [exists []; set_solver|].
  destruct (Hk k) as (q & Hq & Hp & ->); [left|]. cbn [subtree_effective_all].
  rewrite subtree_effective_ok by done. cbn [mbind result_bind].
  destruct IH as (es & -> & Hes); [intros; apply Hk; by right|]. cbn [mbind result_bind].
  eexists. split; [done|]. intros q' Hq' Hin. cbn [dict_get].
  destruct (seqb (canon q) (canon q')) eqn:E.
  - apply seqb_true in E. by apply canon_inj in E as ->.
  - apply seqb_false in E. apply elem_of_cons in Hin as [Hin|Hin]; [by rewrite Hin in E|auto].
Qed.

(** The records [_apply_subtree] writes back. *)
Definition rewritten : list ctx_rec :=
  (fun r => with_acl r (eff D' (parts_of (r_uri r)))) <$> rs.

Lemma apply_subtree_ok ids s' :
  cs_upsert s (ctx_account_id ctx) rewritten = (Ok ids, s') -> length ids = length rewritten ->
  apply_subtree fuel s (canon ps) rs ctx (Some d) = (Ok (eff D' ps), s').
Proof.
  intros Hup Hlen. pose proof subtree_resource as Hres.
  assert (canon ps ∈ (r_uri <$> rs)) as Hin by by apply subtree_uris.
  unfold apply_subtree. pose proof (group_effective rs ps (fun r Hr => proj1 (Hres r Hr)) Hg) as Hgrp.
  destruct (dict_get (group_by_uri rs) (canon ps)) as [items|].
  2: { apply list_elem_of_fmap in Hin as (r & Hu & Hr). by destruct (Hgrp r Hr). }
  destruct (direct_map_ok rs Hres) as (dm & -> & Hdm). cbn [mbind result_bind].
  rewrite acl_ancestors_canon by done. cbn [mbind result_bind].
  assert (parent_of (canon <$> prefixes ps) = Some (canon par)) as ->.
  { unfold parent_of. rewrite removelast_canon, removelast_prefixes.
    destruct par as [|y p _] using rev_ind; [by destruct Hpar as [? _]|].
    rewrite prefixes_snoc, fmap_app. apply (last_snoc (canon (p ++ [y]))). }
  unfold parent_permissions. rewrite resolve_canon by done. cbn [mbind result_bind].
  rewrite (permissions_eff D par x); [|apply Hrep|by apply good_path_ne]. cbn [mbind result_bind].
  rewrite length_fmap, length_prefixes.
  destruct (subtree_effective_all_ok (override_root dm (canon ps) (Some d)) (fst <$> group_by_uri rs))
    as (es & -> & Hes).
  { intros. by apply override_direct. }
  { intros k (q & Hq & -> & r & Hr & Hu)%group_keys_canon; [|done].
    destruct (subtree_uri r Hr) as (q' & Hq' & Hp & Hu'). rewrite Hu in Hu'.
    apply canon_inj in Hu' as <-; eauto. }
  cbn [mbind result_bind].
  assert (forall q, good_path q -> canon q ∈ (r_uri <$> rs) -> dict_get es (canon q) = Some (eff D' q)) as Hget.
  { intros q Hq Hqin. apply Hes; [done|]. pose proof (group_effective rs q (fun r Hr => proj1 (Hres r Hr)) Hq) as H.
    destruct (dict_get (group_by_uri rs) (canon q)) as [it|] eqn:E.
    - apply dict_get_elem in E. apply list_elem_of_fmap. by exists (canon q, it).
    - apply list_elem_of_fmap in Hqin as (r & Hu & Hr). by destruct (H r Hr). }
  assert (omap (fun r => with_acl r <$> dict_get es (r_uri r)) rs = rewritten) as ->.
  { unfold rewritten. apply omap_all. intros r Hr. destruct (subtree_uri r Hr) as (q & Hq & _ & Hu).
    rewrite Hu, Hget, canon_parts_of; [done|done|done|]. apply list_elem_of_fmap. by exists r. }
  rewrite Hup. rewrite Hlen, Nat.eqb_refl. cbn [negb]. by rewrite Hget.
Qed.

Lemma rewritten_ids : r_id <$> rewritten = r_id <$> rs.
Proof. unfold rewritten. by rewrite <- list_fmap_compose. Qed.

(** The store after the write represents the updated state. *)
Lemma rewritten_represents ids s' :
  NoDup (r_id <$> rs) ->
  cs_upsert s (ctx_account_id ctx) rewritten = (Ok ids, s') -> length ids = length rewritten ->
  Represents s' (ctx_account_id ctx) D'.
Proof.
  intros Hnd Hup Hlen. pose proof (rep_wf _ _ _ Hrep) as HD.
  assert (NoDup (r_id <$> rewritten)) as Hndw by by rewrite rewritten_ids.
  pose proof (cs_upsert_law _ _ _ _ _ Hndw Hup Hlen) as Hlaw. rewrite rewritten_ids in Hlaw.
  split.
  - eapply cs_upsert_ids; [apply Hrep|exact Hndw|done|done].
  - intros r [(r0 & -> & Hr0)%list_elem_of_fmap|[Hr _]]%Hlaw.
    + apply Hrs in Hr0 as [Hr0 _]. apply (rep_ids _ _ _ Hrep r0 Hr0).
    + apply (rep_ids _ _ _ Hrep r Hr).
  - by apply upd_wf.
  - intros r [(r0 & -> & Hr0)%list_elem_of_fmap|[Hr Hid]]%Hlaw Hgr.
    + cbn [with_acl r_uri] in *. apply Hrs in Hr0 as [Hr0 _].
      split; [by apply (rep_canon _ _ _ Hrep)|]. apply stored_effective. by apply upd_wf.
    + destruct (rep_canon _ _ _ Hrep r Hr Hgr) as [Hc He]. split; [done|]. rewrite He.
      f_equal. rewrite eff_upd_outside; [done|]. intros Hp. apply Hid, list_elem_of_fmap.
      exists r. split; [done|]. by apply Hrs.
  - intros q Hq Hnone. unfold upd. case_decide as E.
    + subst q. exfalso. assert (canon ps ∈ (r_uri <$> rs)) as Hin by by apply subtree_uris.
      apply list_elem_of_fmap in Hin as (r & Hu & Hr).
      apply (Hnone (with_acl r (eff D' (parts_of (r_uri r))))); [|done].
      apply Hlaw. left. apply list_elem_of_fmap. by exists r.
    + apply (rep_none _ _ _ Hrep q Hq). intros r Hr Hu.
      destruct (decide (r_id r ∈ (r_id <$> rs))) as [Hid|Hid].
      * apply list_elem_of_fmap in Hid as (r0 & Hi & Hr0). pose proof (proj1 (Hrs r0) Hr0) as [Hr0' _].
        assert (r = r0) as -> by (apply (NoDup_fmap_inj_elem r_id recs); [apply Hrep|done..]).
        apply (Hnone (with_acl r0 (eff D' (parts_of (r_uri r0))))); [|done].
        apply Hlaw. left. apply list_elem_of_fmap. by exists r0.
      * apply (Hnone r); [|done]. apply Hlaw. by right.
Qed.
End subtree.
End represented.
End store.

Lemma principals_foldl b l act p :
  wf_acl b -> Forall wf_acl l ->
  p ∈ principals_for (foldl aunion b l) act <->
  p ∈ principals_for b act \/ exists d, d ∈ l /\ p ∈ principals_for d act.
Proof.
  intros Hb Hl. revert b Hb. induction Hl as [|d l Hd Hl IH]; intros b Hb; cbn [foldl].
  - set_solver.
  - rewrite IH by by apply aunion_wf. rewrite principals_for_union by done. setoid_rewrite elem_of_cons.
    naive_solver.
Qed.

(** [acl_allows] on the effective ACL of a path: some prefix grants the action. *)
Lemma eff_allows (D : dstate) (ps : list pystr) (ctx : RequestContext) (act : AclAction) : wf_state D -> good_path ps ->
  exists b, acl_allows (eff D ps) ctx act = Ok b
    /\ (b = true <-> exists q p, q ∈ prefixes ps /\ p ∈ acl_principals ctx /\ p ∈ principals_for (D q) act).
Proof.
  intros HD Hg.
  destruct (acl_allows_spec (eff D ps) ctx act) as (b & Hb & Hspec); [apply HD|by apply inh_wf|].
  exists b. split; [done|]. rewrite Hspec. cbn [eff eff_direct eff_inherited].
  destruct ps as [|x ps _] using rev_ind; [by apply good_path_ne in Hg|].
  unfold inh. rewrite removelast_prefixes, prefixes_snoc.
  assert (forall p, p ∈ principals_for (foldl aunion [] (D <$> prefixes ps)) act
            <-> exists q, q ∈ prefixes ps /\ p ∈ principals_for (D q) act) as Hfold.
  { intros p. rewrite principals_foldl by auto using wf_acl_nil, fmap_wf.
    split.
    - intros [Hn|(d & (q & -> & Hq)%list_elem_of_fmap & Hp)]; [|eauto].
      unfold principals_for in Hn. set_solver.
    - intros (q & Hq & Hp). right. exists (D q). split; [|done]. apply list_elem_of_fmap. eauto. }
  clear - Hfold. split.
  - intros (p & Hp & [Hd|(q & Hq & Hin)%Hfold]).
    + exists (ps ++ [x]), p. rewrite elem_of_app, list_elem_of_singleton. auto.
    + exists q, p. rewrite elem_of_app. auto.
  - intros (q & p & Hq & Hp & Hin). exists p. split; [done|].
    apply elem_of_app in Hq as [Hq| ->%list_elem_of_singleton]; [|by left]. right. apply Hfold. eauto.
Qed.

(** C5: the manager decides access by the direct ACLs of the path and its ancestors.
    Against any collection that represents the abstract state [D], [resolve] returns
    for every resource path, with or without a record of its own, the effective ACL
    [D] determines, and [acl_allows] on it grants an action exactly when some prefix
    of the path directly grants it to one of the caller's principals. *)
Theorem resolve_refines {St} `{!ContextStore St} `{!ContextStoreOk St} (fuel : nat) (s : St)
    (ctx : RequestContext) (D : dstate) (ps : list pystr) (act : AclAction)
    (Hrep : Represents s (ctx_account_id ctx) D)
    (Hfuel : (length (cs_records s (ctx_account_id ctx)) < fuel)%nat) (Hg : good_path ps) :
  resolve fuel s (canon ps) ctx = Ok (eff D ps)
  /\ exists b, acl_allows (eff D ps) ctx act = Ok b
     /\ (b = true <-> exists q p, q ∈ prefixes ps /\ p ∈ acl_principals ctx /\ p ∈ principals_for (D q) act).
Proof. split; [by apply resolve_canon|]. apply eff_allows; [by apply (rep_wf _ _ _ Hrep)|done]. Qed.

Lemma set_direct_ok {St} `{!ContextStore St} `{!ContextStoreOk St} (fuel : nat) (s : St)
    (ctx : RequestContext) (D : dstate) (ps : list pystr) (entries : list raw_entry) (d : DirectAcl)
    (Hrep : Represents s (ctx_account_id ctx) D)
    (Hfuel : (length (cs_records s (ctx_account_id ctx)) < fuel)%nat)
    (Hg : good_path ps) (Hnr : ps <> [u "resources"])
    (Hroot : canon ps ∈ (r_uri <$> cs_records s (ctx_account_id ctx)))
    (Hd : from_entries entries = Ok d)
    (Hup : forall rs, exists ids s', cs_upsert s (ctx_account_id ctx) rs = (Ok ids, s') /\ length ids = length rs) :
  exists s', set_direct fuel s (canon ps) entries ctx = (Ok (eff (upd D ps d) ps), s')
    /\ Represents s' (ctx_account_id ctx) (upd D ps d).
Proof.
  destruct ps as [|x par _] using rev_ind; [by apply good_path_ne in Hg|].
  assert (good_path par) as Hpar.
  { rewrite <- (take_app_length par [x]). apply good_take; [done|].
    destruct par as [|y par]; [|simpl; lia]. destruct Hg as [Ht _]. by destruct Hnr. }
  destruct (subtree_records_ok fuel s ctx D Hrep Hfuel (par ++ [x]) Hg) as (rs & Hsub & Hnd & Hrs).
  destruct (Hup (rewritten D par x d rs)) as (ids & s' & Hids & Hlen).
  exists s'. apply from_entries_wf in Hd as Hwf. split.
  - unfold set_direct. rewrite canon_parts by done. rewrite bool_decide_eq_false_2 by done.
    rewrite Hd, Hsub. by erewrite apply_subtree_ok.
  - by eapply rewritten_represents.
Qed.

(** C4: [set_direct] is a point update of the abstract state.  On a collection that
    represents [D], setting the entries of an existing resource path (other than the
    root of the resource tree) rewrites the ACL fields of the whole subtree so that
    the collection represents [D] updated at that path and nowhere else, and returns
    the new effective ACL of the path. *)
Theorem set_direct_refines {St} `{!ContextStore St} `{!ContextStoreOk St} (fuel : nat) (s : St)
    (ctx : RequestContext) (D : dstate) (ps : list pystr) (entries : list raw_entry) (d : DirectAcl)
    (Hrep : Represents s (ctx_account_id ctx) D)
    (Hfuel : (length (cs_records s (ctx_account_id ctx)) < fuel)%nat)
    (Hg : good_path ps) (Hnr : ps <> [u "resources"])
    (Hroot : canon ps ∈ (r_uri <$> cs_records s (ctx_account_id ctx)))
    (Hd : from_entries entries = Ok d)
    (Hup : forall rs, exists ids s', cs_upsert s (ctx_account_id ctx) rs = (Ok ids, s') /\ length ids = length rs) :
  exists s', set_direct fuel s (canon ps) entries ctx = (Ok (eff (upd D ps d) ps), s')
    /\ Represents s' (ctx_account_id ctx) (upd D ps d).
Proof. by apply set_direct_ok. Qed.

(** ** A store for concrete runs *)

Module ListStore.
(** One account's collection as a list; an upsert replaces by id. *)
Definition store := list ctx_rec.

#[export] Instance store_ops : ContextStore store := {
  cs_records s _ := s;
  cs_query s _ f limit offset := take limit (drop offset (filter (fun r => fmatch f r = true) s));
  cs_get s _ ids := filter (fun r => match r_id r with Some i => mem i ids | None => false end = true) s;
  cs_upsert s _ rs := (Ok (default [] ∘ r_id <$> rs), rs ++ filter (fun r => r_id r ∉ (r_id <$> rs)) s) }.

#[export] Instance store_ok : ContextStoreOk store.
Proof.
  split.
  - done.
  - intros s a ids r. cbn. rewrite list_elem_of_filter. unfold mem.
    destruct (r_id r) as [i|]; [rewrite bool_decide_eq_true|]; naive_solver.
  - intros. by apply NoDup_fmap_filter.
  - intros s a rs ids s' _ [= <- <-] _ r. cbn. rewrite elem_of_app, list_elem_of_filter. tauto.
  - intros s a rs ids s' Hs Hrs [= <- <-] _. cbn. rewrite fmap_app. apply NoDup_app. split_and!; [done| |].
    + intros i Hi (r & -> & [Hn _]%list_elem_of_filter)%list_elem_of_fmap. done.
    + by apply NoDup_fmap_filter.
Qed.

Definition docs : list pystr := [u "resources"; u "docs"].
Definition guide : list pystr := docs ++ [u "guide.md"].

(** Two records; the outer path grants directly. *)
Definition sample_D : dstate := fun ps => if decide (ps = docs) then sample_acl else [].

Definition blank (id : pystr) (ps : list pystr) : ctx_rec :=
  MkRec (Some id) (canon ps) false VNone VNone None None [].

Definition sample_store : store :=
  [with_acl (blank (u "1") docs) (eff sample_D docs); with_acl (blank (u "2") guide) (eff sample_D guide)].

Lemma sample_rep : Represents sample_store (ctx_account_id alice) sample_D.
Proof.
  assert (wf_state sample_D) as HD.
  { intros ps. unfold sample_D. case_decide; [|apply wf_acl_nil].
    apply (from_entries_wf sample_raws). by vm_compute. }
  assert (parts_of (canon docs) = docs /\ parts_of (canon guide) = guide) as [E1 E2]
    by (split; by vm_compute).
  split.
  - apply (bool_decide_unpack _). by vm_compute.
  - intros r [->|[->|[]%elem_of_nil]%elem_of_cons]%elem_of_cons; eexists; split; try done; by vm_compute.
  - done.
  - intros r [->|[->|[]%elem_of_nil]%elem_of_cons]%elem_of_cons _; cbn [with_acl blank r_uri].
    + rewrite E1. split; [done|by apply stored_effective].
    + rewrite E2. split; [done|by apply stored_effective].
  - intros ps _ Hn. unfold sample_D. case_decide; [|done]. subst.
    destruct (Hn (with_acl (blank (u "1") docs) (eff sample_D docs))); [left|done].
Qed.

Lemma docs_good : good_path docs.
Proof. split_and!; [done| |]; apply (bool_decide_unpack _); by vm_compute. Qed.

Lemma guide_good : good_path guide.
Proof. split_and!; [done| |]; apply (bool_decide_unpack _); by vm_compute. Qed.

Lemma resolve_refines_witness :
  resolve 3 sample_store (canon guide) alice = Ok (eff sample_D guide)
  /\ acl_allows (eff sample_D guide) alice A_READ = Ok true.
Proof.
  split; [|by vm_compute].
  apply (resolve_refines 3 sample_store alice sample_D guide A_READ); [apply sample_rep|cbn; lia|apply guide_good].
Defined.

Lemma set_direct_refines_witness :
  exists s', set_direct 3 sample_store (canon docs) [] alice = (Ok (eff (upd sample_D docs []) docs), s')
    /\ Represents s' (ctx_account_id alice) (upd sample_D docs []).
Proof.
  apply (set_direct_refines 3 sample_store alice sample_D docs []); [apply sample_rep|cbn; lia|apply docs_good| | |done|].
  - by vm_compute.
  - left.
  - intros rs. eexists _, _. split; [done|]. apply length_fmap.
Defined.
End ListStore.
