(* ===== verification/TaskRecord.v ===== *)
(** Task records and what leaves the process: [openviking/service/task_tracker.py]
    (lifecycle states, record type, sanitisation, snapshots). *)
From Stdlib Require Import NArith ZArith.
From S2P Require Import Prelude PyStr PyVal.

Open Scope N_scope.

(** ** Lifecycle states *)

Inductive TaskStatus := PENDING | RUNNING | CANCELLING | COMPLETED | FAILED | CANCELLED.

#[export] Instance TaskStatus_eq_dec : EqDecision TaskStatus.
Proof. solve_decision. Defined.

Definition status_value (s : TaskStatus) : pystr :=
  match s with
  | PENDING => u "pending" | RUNNING => u "running" | CANCELLING => u "cancelling"
  | COMPLETED => u "completed" | FAILED => u "failed" | CANCELLED => u "cancelled"
  end.

(** [TaskStatus(value)]. *)
Definition parse_status (v : pystr) : result TaskStatus :=
  match list_find (fun s => status_value s = v)
          [PENDING; RUNNING; CANCELLING; COMPLETED; FAILED; CANCELLED] with
  | Some (_, s) => Ok s
  | None => Err ValueError
  end.

Definition TERMINAL_STATUSES : list TaskStatus := [COMPLETED; FAILED; CANCELLED].
Definition ACTIVE_STATUSES : list TaskStatus := [PENDING; RUNNING; CANCELLING].

Definition is_active (s : TaskStatus) : bool := bool_decide (s ∈ ACTIVE_STATUSES).
Definition is_terminal (s : TaskStatus) : bool := bool_decide (s ∈ TERMINAL_STATUSES).

Definition CANCELLABLE_TASK_TYPES : list pystr :=
  [u "add_resource"; u "session_commit"; u "admin_reindex"; u "snapshot_restore_reindex"].

(** ** Time stamps *)

(** A time stamp is a finite double.  Every finite double is an integer multiple of
    the least positive one, and [stamp] is that integer; order is kept.  [age] is
    taken exactly: the double subtraction is exact for stamps within a factor of two
    of each other. *)
Abbreviation stamp := Z.

(** One second. *)
Definition second : stamp := (2 ^ 1074)%Z.

(** [math.nextafter(t, math.inf)] for a finite [t]: one unit in the last place up. *)
Definition nextafter (t : stamp) : stamp :=
  (t + 2 ^ Z.max 0 (Z.log2 (if (0 <=? t)%Z then t else - t - 1) - 52))%Z.

(** ** Records *)

Record TaskRecord := MkTask {
  task_id : pystr;
  task_type : pystr;
  status : TaskStatus;
  created_at : stamp;
  updated_at : stamp;
  resource_id : option pystr;
  account_id : option pystr;
  user_id : option pystr;
  meta : pydict;
  stage : option pystr;
  task_result : option pydict;
  error : option pystr;
  auth : pydict }.

(** ** Sanitisation of error texts *)

(** [[a-zA-Z0-9._-]] when case is ignored: the dotted capital I and the dotless i are
    in the letter ranges too. *)
Definition token_char (c : N) : bool :=
  let f := fold_case c in
  ((97 <=? f) && (f <=? 122)) || ((48 <=? c) && (c <=? 57))
  || (c =? c_dot) || (c =? c_under) || (c =? c_minus) || (c =? 304) || (c =? 305).

(** The text after [xox[baprs]-]. *)
Definition after_xox (s : pystr) : option pystr :=
  match after_literal (u "xox") s with
  | Some (c :: r) => if bool_decide (fold_case c ∈ u "baprs") then after_literal (u "-") r else None
  | _ => None
  end.

(** The text after [Bearer\s+]. *)
Definition after_bearer (s : pystr) : option pystr :=
  match after_literal (u "bearer") s with
  | Some (c :: r) => if is_space c then Some (lstrip is_space r) else None
  | _ => None
  end.

Fixpoint first_some {A} (l : list (option A)) : option A :=
  match l with
  | [] => None
  | Some a :: _ => Some a
  | None :: l => first_some l
  end.

(** The text after each alternative of the first group of [_SENSITIVE_PATTERNS]. *)
Definition after_markers (s : pystr) : list (option pystr) :=
  ((fun p => after_literal p s) <$> [u "sk-"; u "cr_"; u "ghp_"; u "ntn_"]) ++ [after_xox s; after_bearer s].

(** [[a-zA-Z0-9._-]+] after an alternative that applied. *)
Definition after_token (o : option pystr) : option pystr :=
  match o with
  | Some (c :: r) => if token_char c then Some (lstrip token_char r) else None
  | _ => None
  end.

(** A match of [_SENSITIVE_PATTERNS] at the start of [s]: the text after it, for the
    first alternative with which the whole pattern matches. *)
Definition match_secret (s : pystr) : option pystr := first_some (after_token <$> after_markers s).

Definition REDACTED : pystr := u "[REDACTED]".

(** [_SENSITIVE_PATTERNS.sub("[REDACTED]", s)]: every round consumes a character, so
    the length of the text is enough fuel. *)
Fixpoint redact_loop (fuel : nat) (s : pystr) : pystr :=
  match fuel with
  | O => []
  | S fuel =>
      match s with
      | [] => []
      | c :: r => match match_secret s with
                  | Some rest => REDACTED ++ redact_loop fuel rest
                  | None => c :: redact_loop fuel r
                  end
      end
  end.

Definition redact (s : pystr) : pystr := redact_loop (length s) s.

Definition MAX_ERROR_LEN : nat := 500.

Definition sanitize_error (error : pystr) : pystr :=
  let sanitized := redact error in
  if (MAX_ERROR_LEN <? length sanitized)%nat
  then take MAX_ERROR_LEN sanitized ++ u "...[truncated]"
  else sanitized.

(** ** Sanitisation of results *)

Definition SENSITIVE_RESULT_KEYS : list pystr := [u "user_key"].

Fixpoint sanitize_task_result (v : pyval) : pyval :=
  match v with
  | VDict items =>
      VDict ((fix go (items : pydict) : pydict :=
                match items with
                | [] => []
                | (key, value) :: rest =>
                    if mem key SENSITIVE_RESULT_KEYS then go rest
                    else (key, sanitize_task_result value) :: go rest
                end) items)
  | VList items => VList (sanitize_task_result <$> items)
  | v => v
  end.

(** The same on a dict known to be one. *)
Definition sanitize_dict (d : pydict) : pydict :=
  match sanitize_task_result (VDict d) with VDict d' => d' | _ => [] end.

(** [TaskTracker._copy]. *)
Definition copy_task (t : TaskRecord) : TaskRecord :=
  MkTask (task_id t) (task_type t) (status t) (created_at t) (updated_at t) (resource_id t)
    (account_id t) (user_id t) (sanitize_dict (meta t)) (stage t)
    (sanitize_dict <$> task_result t) (error t) [].

Definition opt_str (o : option pystr) : pyval := match o with Some s => VStr s | None => VNone end.
Definition opt_dict (o : option pydict) : pyval := match o with Some d => VDict d | None => VNone end.

(** [TaskRecord.to_dict], with the ISO text of a time stamp left to [iso]. *)
Definition to_dict (iso : stamp -> pystr) (t : TaskRecord) : pydict :=
  [(u "task_id", VStr (task_id t)); (u "task_type", VStr (task_type t));
   (u "status", VStr (status_value (status t)));
   (u "created_at", VFloat (created_at t)); (u "updated_at", VFloat (updated_at t));
   (u "resource_id", opt_str (resource_id t));
   (u "meta", sanitize_task_result (VDict (meta t)));
   (u "stage", opt_str (stage t));
   (u "result", sanitize_task_result (opt_dict (task_result t)));
   (u "error", opt_str (error t));
   (u "created_at_iso", VStr (iso (created_at t))); (u "updated_at_iso", VStr (iso (updated_at t)))].

(** ** Storage payloads *)

(** [_task_to_payload]. *)
Definition task_to_payload (t : TaskRecord) : pydict :=
  [(u "task_id", VStr (task_id t)); (u "task_type", VStr (task_type t));
   (u "status", VStr (status_value (status t)));
   (u "created_at", VFloat (created_at t)); (u "updated_at", VFloat (updated_at t));
   (u "resource_id", opt_str (resource_id t)); (u "account_id", opt_str (account_id t));
   (u "user_id", opt_str (user_id t)); (u "meta", VDict (meta t)); (u "stage", opt_str (stage t));
   (u "result", opt_dict (task_result t)); (u "error", opt_str (error t)); (u "auth", VDict (auth t))].

Definition TASK_FIELDS : list pystr :=
  [u "task_id"; u "task_type"; u "status"; u "created_at"; u "updated_at"; u "resource_id";
   u "account_id"; u "user_id"; u "meta"; u "stage"; u "result"; u "error"; u "auth"].

(** Field readers.  A value of another type than the field's is an error of the model:
    the dataclass constructor does not check types, and the store only holds what
    [_task_to_payload] wrote. *)
Definition read_str (v : pyval) : result pystr := match v with VStr s => Ok s | _ => Err TypeError end.
Definition read_opt_str (v : pyval) : result (option pystr) :=
  match v with VStr s => Ok (Some s) | VNone => Ok None | _ => Err TypeError end.
Definition read_stamp (v : pyval) : result stamp := match v with VFloat z => Ok z | _ => Err TypeError end.
Definition read_dict (v : pyval) : result pydict := match v with VDict d => Ok d | _ => Err TypeError end.
Definition read_opt_dict (v : pyval) : result (option pydict) :=
  match v with VDict d => Ok (Some d) | VNone => Ok None | _ => Err TypeError end.

(** A keyword argument with a default. *)
Definition kwarg {A} (data : pydict) (k : string) (read : pyval -> result A) (dflt : A) : result A :=
  match dict_get data (u k) with Some v => read v | None => Ok dflt end.

(** A required one. *)
Definition kwarg_req {A} (data : pydict) (k : string) (read : pyval -> result A) : result A :=
  match dict_get data (u k) with Some v => read v | None => Err TypeError end.

(** [_record_from_payload]: [TaskRecord( **data)] with the status parsed; [now] is the
    default of the two time stamps. *)
Definition record_from_payload (now : stamp) (data : pydict) : result TaskRecord :=
  s ← match dict_get data (u "status") with
      | Some (VStr v) => parse_status v
      | Some _ => Err ValueError
      | None => Err KeyError
      end;
  if negb (forallb (fun '(k, _) => mem k TASK_FIELDS) data) then Err TypeError
  else
    tid ← kwarg_req data "task_id" read_str;
    ty ← kwarg_req data "task_type" read_str;
    ca ← kwarg data "created_at" read_stamp now;
    ua ← kwarg data "updated_at" read_stamp now;
    rid ← kwarg data "resource_id" read_opt_str None;
    acc ← kwarg data "account_id" read_opt_str None;
    usr ← kwarg data "user_id" read_opt_str None;
    me ← kwarg data "meta" read_dict [];
    st ← kwarg data "stage" read_opt_str None;
    res ← kwarg data "result" read_opt_dict None;
    err ← kwarg data "error" read_opt_str None;
    au ← kwarg data "auth" read_dict [];
    Ok (MkTask tid ty s ca ua rid acc usr me st res err au).

Lemma parse_status_value s : parse_status (status_value s) = Ok s.
Proof. destruct s; by vm_compute. Qed.

Lemma payload_fields t : forallb (fun '(k, _) => mem k TASK_FIELDS) (task_to_payload t) = true.
Proof. cbn [task_to_payload forallb]. by vm_compute. Qed.

(** What is written to the store is read back unchanged. *)
Lemma payload_roundtrip now t : record_from_payload now (task_to_payload t) = Ok t.
Proof.
  unfold record_from_payload. rewrite payload_fields. cbn [negb].
  assert (dict_get (task_to_payload t) (u "status") = Some (VStr (status_value (status t)))) as -> by by vm_compute.
  rewrite parse_status_value. destruct t as [tid ty s ca ua [rid|] [acc|] [usr|] me [st|] [res|] [err|] au]; by vm_compute.
Qed.

(** ** No secret survives *)

Lemma first_some_is {A} (l : list (option A)) : is_Some (first_some l) <-> exists a, Some a ∈ l.
Proof.
  induction l as [|[a|] l IH]; cbn.
  - split; [by intros []|]. intros (a & []%elem_of_nil).
  - split; [|eauto]. intros _. exists a. left.
  - rewrite IH. setoid_rewrite elem_of_cons. split; [naive_solver|]. intros (a & [?|?]); [done|eauto].
Qed.

(** A match needs a marker followed by a token character. *)
Definition marker_token (s : pystr) : Prop :=
  exists c r, token_char c = true /\ Some (c :: r) ∈ after_markers s.

Lemma match_secret_is s : is_Some (match_secret s) <-> marker_token s.
Proof.
  unfold match_secret, marker_token. rewrite first_some_is. split.
  - intros (a & ([[|c r]|] & E & Hm)%list_elem_of_fmap); try done. cbn in E.
    destruct (token_char c) eqn:Ec; [eauto|done].
  - intros (c & r & Hc & Hm). exists (lstrip token_char r). apply list_elem_of_fmap.
    exists (Some (c :: r)). cbn. by rewrite Hc.
Qed.

Lemma after_literal_app p a b r : after_literal p a = Some r -> after_literal p (a ++ b) = Some (r ++ b).
Proof.
  revert a. induction p as [|c p IH]; intros a; cbn; [by intros [= ->]|].
  destruct a as [|x a]; [done|]. cbn. destruct (_ =? _); [apply IH|done].
Qed.

(** Reading a literal never crosses an opening bracket. *)
Lemma after_literal_cut p a t r :
  91 ∉ p -> after_literal p (a ++ 91 :: t) = Some r ->
  exists r', after_literal p a = Some r' /\ r = r' ++ 91 :: t.
Proof.
  revert a. induction p as [|c p IH]; intros a Hp; cbn [after_literal].
  - intros [= <-]. by exists a.
  - destruct a as [|x a]; cbn [app].
    + destruct (N.eqb_spec (fold_case 91) c) as [E|_]; [|done]. destruct Hp. rewrite <- E. left.
    + destruct (_ =? _); [|done]. apply IH. set_solver.
Qed.

Lemma lstrip_app p a b : lstrip p a <> [] -> lstrip p (a ++ b) = lstrip p a ++ b.
Proof. induction a as [|x a IH]; cbn; [done|]. by destruct (p x). Qed.

Lemma lstrip_cut p a x t : p x = false -> lstrip p (a ++ x :: t) = lstrip p a ++ x :: t.
Proof. intros Hx. induction a as [|y a IH]; cbn; [by rewrite Hx|]. by destruct (p y). Qed.

Lemma after_markers_elem s o :
  o ∈ after_markers s <->
  o = after_literal (u "sk-") s \/ o = after_literal (u "cr_") s \/ o = after_literal (u "ghp_") s
  \/ o = after_literal (u "ntn_") s \/ o = after_xox s \/ o = after_bearer s.
Proof.
  unfold after_markers. cbn [fmap list_fmap app]. rewrite !elem_of_cons, elem_of_nil. tauto.
Qed.

Lemma after_xox_app a b r : after_xox a = Some r -> after_xox (a ++ b) = Some (r ++ b).
Proof.
  unfold after_xox. destruct (after_literal _ a) as [[|c r']|] eqn:E; [done| |done].
  rewrite (after_literal_app _ _ b _ E). cbn [app]. case_bool_decide; [|done]. apply after_literal_app.
Qed.

Lemma after_bearer_app a b c r : after_bearer a = Some (c :: r) -> after_bearer (a ++ b) = Some (c :: r ++ b).
Proof.
  unfold after_bearer. destruct (after_literal _ a) as [[|c' r']|] eqn:E; [done| |done].
  rewrite (after_literal_app _ _ b _ E). cbn [app]. destruct (is_space c'); [|done].
  intros [= H]. by rewrite lstrip_app, H by by rewrite H.
Qed.

Lemma marker_token_app a b : marker_token a -> marker_token (a ++ b).
Proof.
  intros (c & r & Hc & Hm). exists c, (r ++ b). split; [done|]. apply after_markers_elem.
  apply after_markers_elem in Hm as [H|[H|[H|[H|[H|H]]]]]; symmetry in H.
  - left. by apply (after_literal_app _ _ b) in H.
  - right; left. by apply (after_literal_app _ _ b) in H.
  - do 2 right; left. by apply (after_literal_app _ _ b) in H.
  - do 3 right; left. by apply (after_literal_app _ _ b) in H.
  - do 4 right; left. by apply (after_xox_app _ b) in H.
  - do 5 right. by apply (after_bearer_app _ b) in H.
Qed.

Lemma after_xox_cut a t r : after_xox (a ++ 91 :: t) = Some r -> exists r', after_xox a = Some r' /\ r = r' ++ 91 :: t.
Proof.
  unfold after_xox. destruct (after_literal _ (a ++ _)) as [[|c q]|] eqn:E; [done| |done].
  apply after_literal_cut in E as (q' & -> & Hq); [|decided].
  destruct q' as [|c' q']; cbn in Hq; injection Hq as -> ->; [done|].
  case_bool_decide; [|done]. intros Hx. apply after_literal_cut in Hx; [done|]. decided.
Qed.

Lemma after_bearer_cut a t r :
  after_bearer (a ++ 91 :: t) = Some r -> exists r', after_bearer a = Some r' /\ r = r' ++ 91 :: t.
Proof.
  unfold after_bearer. destruct (after_literal _ (a ++ _)) as [[|c q]|] eqn:E; [done| |done].
  apply after_literal_cut in E as (q' & -> & Hq); [|decided].
  destruct q' as [|c' q']; cbn in Hq; injection Hq as -> ->; [done|].
  destruct (is_space c'); [|done]. intros [= <-]. eexists. split; [done|]. by apply lstrip_cut.
Qed.

Lemma marker_token_cut a t : marker_token (a ++ 91 :: t) -> marker_token a.
Proof.
  intros (c & r & Hc & Hm).
  assert (exists o r', Some r' = o /\ o ∈ after_markers a /\ c :: r = r' ++ 91 :: t) as (o & r' & <- & Ho & E).
  { apply after_markers_elem in Hm as [H|[H|[H|[H|[H|H]]]]]; symmetry in H.
    1-4: apply after_literal_cut in H as (r' & H & E); [|decided].
    5: apply after_xox_cut in H as (r' & H & E).
    6: apply after_bearer_cut in H as (r' & H & E).
    all: eexists _, r'; split; [symmetry; exact H|]; split; [apply after_markers_elem; tauto|done]. }
  destruct r' as [|c' r']; cbn in E; injection E as -> ->; [done|]. by exists c', r'.
Qed.

(** No match at any position. *)
Definition clean (s : pystr) : Prop := forall i, match_secret (drop i s) = None.

Lemma no_match s : match_secret s = None <-> ~ marker_token s.
Proof.
  rewrite <- match_secret_is. split; [by intros -> [? ?]|].
  intros H. destruct (match_secret s) eqn:E; [|done]. destruct H. eauto.
Qed.

Lemma clean_take n s : clean s -> clean (take n s).
Proof.
  intros H i. apply no_match. intros Hm. specialize (H i). apply no_match in H. apply H.
  rewrite <- (take_drop n s) at 1. destruct (Nat.le_gt_cases i (length (take n s))) as [Hi|Hi].
  - rewrite drop_app_le by done. by apply marker_token_app.
  - rewrite drop_ge in Hm by lia. apply (marker_token_app [] (drop i (take n s ++ drop n s))) in Hm. done.
Qed.

Lemma after_literal_length p s r : after_literal p s = Some r -> length s = (length p + length r)%nat.
Proof.
  revert s. induction p as [|c p IH]; intros s; cbn; [by intros [= ->]|].
  destruct s as [|x s]; [done|]. destruct (_ =? _); [|done]. intros H%IH. cbn. lia.
Qed.

Lemma lstrip_length p (s : pystr) : (length (lstrip p s) <= length s)%nat.
Proof. destruct (lstrip_suffix p s) as [k Hk]. rewrite Hk at 2. rewrite length_app. lia. Qed.

Lemma after_markers_length s r : Some r ∈ after_markers s -> (length r < length s)%nat.
Proof.
  intros [H|[H|[H|[H|[H|H]]]]]%after_markers_elem; symmetry in H.
  1-4: apply after_literal_length in H; change (length (u _)) with 3%nat in H
         || change (length (u _)) with 4%nat in H; lia.
  - unfold after_xox in H. destruct (after_literal (u "xox") s) as [[|c q]|] eqn:E; [done| |done].
    apply after_literal_length in E. case_bool_decide; [|done]. apply after_literal_length in H. cbn [length] in E. lia.
  - unfold after_bearer in H. destruct (after_literal _ s) as [[|c q]|] eqn:E; [done| |done].
    apply after_literal_length in E. destruct (is_space c); [|done]. injection H as <-.
    pose proof (lstrip_length is_space q). cbn [length] in E. lia.
Qed.

Lemma match_secret_length s rest : match_secret s = Some rest -> (length rest < length s)%nat.
Proof.
  unfold match_secret. intros H.
  assert (forall l, first_some l = Some rest -> Some rest ∈ l) as Hin.
  { clear. induction l as [|[a|] l IH]; cbn; [done|intros [= ->]; left|]. intros H. right. auto. }
  apply Hin, list_elem_of_fmap in H as (o & E & Ho). destruct o as [[|c r]|]; try done. cbn in E.
  destruct (token_char c); [|done]. injection E as ->. apply after_markers_length in Ho.
  pose proof (lstrip_length token_char r). cbn [length] in Ho. lia.
Qed.

(** The output follows the input until the first redaction, which starts with a bracket. *)
Lemma redact_prefix fuel s :
  (length s <= fuel)%nat ->
  redact_loop fuel s = s \/ exists p rest t, s = p ++ rest /\ redact_loop fuel s = p ++ 91 :: t.
Proof.
  revert s. induction fuel as [|fuel IH]; intros s Hl; [left; destruct s; cbn in Hl; [done|lia]|].
  destruct s as [|c r]; [by left|]. cbn [redact_loop].
  destruct (match_secret (c :: r)) as [rest|].
  - right. exists [], (c :: r). eexists. split; [done|]. cbn [app]. by vm_compute.
  - destruct (IH r) as [->|(p & rest & t & -> & ->)]; [cbn in Hl; lia|by left|].
    right. exists (c :: p), rest, t. done.
Qed.

Lemma redacted_clean i t : (i < length REDACTED)%nat -> match_secret (drop i (REDACTED ++ t)) = None.
Proof. intros Hi. do 10 (destruct i as [|i]; [by vm_compute|]). change (length REDACTED) with 10%nat in Hi. lia. Qed.

Lemma redact_loop_clean fuel s : (length s <= fuel)%nat -> clean (redact_loop fuel s).
Proof.
  revert s. induction fuel as [|fuel IH]; intros s Hl; [intros i; cbn; rewrite drop_nil; by vm_compute|].
  destruct s as [|c r]; [intros i; cbn; rewrite drop_nil; by vm_compute|]. cbn [redact_loop].
  destruct (match_secret (c :: r)) as [rest|] eqn:E.
  - apply match_secret_length in E. cbn [length] in *. intros i.
    destruct (Nat.lt_ge_cases i (length REDACTED)); [by apply redacted_clean|].
    rewrite drop_app_ge by done. apply IH. lia.
  - intros [|i]; [|apply IH; cbn in Hl; lia]. cbn [drop]. apply no_match. intros Hm.
    apply no_match in E. apply E. cbn [length] in Hl.
    destruct (redact_prefix fuel r) as [Hr|(p & rest & t & -> & Hr)]; [lia|by rewrite Hr in Hm|].
    rewrite Hr in Hm. apply (marker_token_cut (c :: p) t) in Hm. by apply (marker_token_app (c :: p) rest) in Hm.
Qed.

(** No secret survives in an error text: what is kept of the message, its first
    [_MAX_ERROR_LEN] characters, has no substring that the pattern of secrets matches,
    and the text is bounded by the limit and the truncation mark. *)
Theorem sanitize_error_no_secret (err : pystr) :
  clean (take MAX_ERROR_LEN (sanitize_error err))
  /\ (length (sanitize_error err) <= MAX_ERROR_LEN + 14)%nat.
Proof.
  unfold sanitize_error. destruct (Nat.ltb_spec MAX_ERROR_LEN (length (redact err))) as [Hl|Hl].
  - rewrite take_app_le by (rewrite length_take; lia). rewrite take_take, Nat.min_id.
    split; [by apply clean_take, redact_loop_clean|]. rewrite length_app, length_take.
    change (length (u "...[truncated]")) with 14%nat. lia.
  - split; [by apply clean_take, redact_loop_clean|]. lia.
Qed.

(** ** No sensitive key survives *)

(** The keys of the dicts inside a value. *)
Fixpoint keys_in (v : pyval) : list pystr :=
  match v with
  | VDict items =>
      (fix go (items : pydict) : list pystr :=
         match items with
         | [] => []
         | (key, value) :: rest => key :: keys_in value ++ go rest
         end) items
  | VList items => items ≫= keys_in
  | _ => []
  end.

Lemma sanitize_keys v k :
  k ∈ keys_in (sanitize_task_result v) <->
  k ∈ keys_in (sanitize_task_result v) /\ k ∉ SENSITIVE_RESULT_KEYS.
Proof.
  split; [|by intros [? _]]. intros Hk. split; [done|]. revert Hk.
  induction v as [| | | | |l IH|d IH] using pyval_nested_ind; cbn; try by rewrite elem_of_nil.
  - rewrite list_elem_of_bind. intros (x & Hk & (y & -> & Hy)%list_elem_of_fmap).
    rewrite Forall_forall in IH. by apply (IH y).
  - induction IH as [|[key x] d Hx _ IHd]; [by rewrite elem_of_nil|]. cbn.
    destruct (mem key SENSITIVE_RESULT_KEYS) eqn:E; [done|].
    rewrite elem_of_cons, elem_of_app. intros [->|[Hk|Hk]]; [|by apply Hx|by apply IHd].
    unfold mem in E. by apply bool_decide_eq_false in E.
Qed.

(** The snapshots handed to callers and the dicts served over HTTP never contain
    the task's credentials: [auth] is empty, the serialised form has no key of the
    record's ownership or credentials, and no dict nested anywhere inside [meta] or
    [result] has a sensitive key. *)
Theorem snapshot_no_secret (t : TaskRecord) (iso : stamp -> pystr) (k : pystr) :
  auth (copy_task t) = []
  /\ (k ∈ keys_in (VDict (meta (copy_task t))) ++ keys_in (opt_dict (task_result (copy_task t))) ->
      k ∉ SENSITIVE_RESULT_KEYS)
  /\ (k ∈ (fst <$> to_dict iso t) -> k ∉ [u "auth"; u "account_id"; u "user_id"])
  /\ (k ∈ keys_in (VDict (to_dict iso t)) -> k ∉ SENSITIVE_RESULT_KEYS).
Proof.
  assert (forall d, VDict (sanitize_dict d) = sanitize_task_result (VDict d)) as Hd by done.
  assert (opt_dict (sanitize_dict <$> task_result t) = sanitize_task_result (opt_dict (task_result t))) as Er.
  { by destruct (task_result t). }
  split_and!; [done| | |].
  - cbn [copy_task meta task_result]. rewrite Hd, Er, elem_of_app. by intros [[_ ?]%sanitize_keys|[_ ?]%sanitize_keys].
  - unfold to_dict. cbn [fmap list_fmap fst]. intros H. repeat (apply elem_of_cons in H as [->|H]; [decided|]).
    by apply elem_of_nil in H.
  - clear Er Hd. unfold to_dict. assert (forall o, keys_in (opt_str o) = []) as Eo by by intros [].
    pose proof (fun k => sanitize_keys (VDict (meta t)) k) as Hm.
    pose proof (fun k => sanitize_keys (opt_dict (task_result t)) k) as Hr.
    generalize dependent (sanitize_task_result (VDict (meta t))). intros vm Hm.
    generalize dependent (sanitize_task_result (opt_dict (task_result t))). intros vr Hr.
    cbn [keys_in]. rewrite !Eo. cbn [app].
    intros H. repeat first
      [ apply elem_of_cons in H as [->|H]; [decided|]
      | apply elem_of_app in H as [H|H]; [first [by apply Hm in H as [_ ?]|by apply Hr in H as [_ ?]]|] ].
    by apply elem_of_nil in H.
Qed.
