(* ===== verification/WorkIndex.v ===== *)
(** The runtime index of queue work owned by tracked tasks:
    [openviking/service/task_work_index.py].

    Payload metadata that makes ownership durable in queue messages, the index itself
    with its enqueue and acknowledgement hooks, and the invariants the task tracker
    relies on. *)
From Stdlib Require Import NArith ZArith.
From S2P Require Import Prelude PyStr PyVal.

Open Scope N_scope.

Definition TASK_WORK_ID_FIELD : pystr := u "_task_work_id".

Record TaskExecutionContext := MkExecCtx {
  ec_task_id : pystr; ec_account_id : pystr; ec_user_id : pystr }.

Record QueueTaskMetadata := MkMeta {
  md_task_id : pystr; md_work_id : pystr; md_account_id : pystr; md_user_id : pystr }.

(** [x or y] on values. *)
Definition py_or (x y : pyval) : pyval := if py_truthy x then x else y.

(** [d.get(k)]. *)
Definition get_or_none (d : list (pystr * pyval)) (k : pystr) : pyval := default VNone (dict_get d k).

(** [v == s]. *)
Definition is_text (s : pystr) (v : pyval) : bool := match v with VStr t => seqb t s | _ => false end.

Section payload.
(** [json.loads] of a message body, [None] when it raises, and [str] of a value that
    is not a string. *)
Context (json_loads : pystr -> option pyval) (render : pyval -> pystr).

Definition py_str (v : pyval) : pystr := match v with VStr s => s | v => render v end.

Definition payload_dict (message : pyval) : option (list (pystr * pyval)) :=
  match message with
  | VDict m =>
      let payload := default message (dict_get m (u "data")) in
      match payload with
      | VStr s => match json_loads s with Some (VDict d) => Some d | _ => None end
      | VDict d => Some d
      | _ => None
      end
  | _ => None
  end.

(** One of the two lookups of [_owner_from_payload]: the field itself, then the
    field of the nested [user] and [context_data] dicts. *)
Definition owner_field (payload : list (pystr * pyval)) (key user_key context_key : pystr) : pystr :=
  let v := get_or_none payload key in
  let v := match get_or_none payload (u "user") with
           | VDict user => py_or v (get_or_none user user_key)
           | _ => v
           end in
  let v := match get_or_none payload (u "context_data") with
           | VDict data => py_or v (get_or_none data context_key)
           | _ => v
           end in
  if py_truthy v then py_str v else [].

Definition owner_from_payload (payload : list (pystr * pyval)) : pystr * pystr :=
  (owner_field payload (u "account_id") (u "account_id") (u "account_id"),
   owner_field payload (u "user_id") (u "user_id") (u "owner_user_id")).

(** [prepare_task_payload] with the current task context and the next uuid. *)
Definition prepare_task_payload (current : option TaskExecutionContext) (uuid4 : pystr)
    (data : list (pystr * pyval)) : list (pystr * pyval) * option QueueTaskMetadata :=
  let task_id := py_or (get_or_none data (u "task_id"))
                   (VStr (match current with Some c => ec_task_id c | None => [] end)) in
  if negb (py_truthy task_id) then (data, None)
  else
    let task_id := py_str task_id in
    let '(account_id, user_id) := owner_from_payload data in
    let '(account_id, user_id) :=
      match current with
      | Some c =>
          if seqb (ec_task_id c) task_id
          then (if nonempty account_id then account_id else ec_account_id c,
                if nonempty user_id then user_id else ec_user_id c)
          else (account_id, user_id)
      | None => (account_id, user_id)
      end in
    let work_id := py_str (py_or (get_or_none data TASK_WORK_ID_FIELD) (VStr uuid4)) in
    let payload := dict_set data (u "task_id") (VStr task_id) in
    let payload := dict_set payload TASK_WORK_ID_FIELD (VStr work_id) in
    let payload :=
      if nonempty account_id && nonempty user_id then
        dict_setdefault (dict_setdefault payload (u "account_id") (VStr account_id))
          (u "user_id") (VStr user_id)
      else payload in
    (payload, Some (MkMeta task_id work_id account_id user_id)).

Definition extract_task_metadata (message : pyval) : option QueueTaskMetadata :=
  match payload_dict message with
  | None => None
  | Some payload =>
      let task_id := get_or_none payload (u "task_id") in
      let work_id := get_or_none payload TASK_WORK_ID_FIELD in
      let work_id :=
        match message with
        | VDict m =>
            if negb (py_truthy work_id) && bool_decide (is_Some (dict_get m (u "data")))
               && py_truthy (get_or_none m (u "id"))
            then VStr (u "queuefs:" ++ py_str (get_or_none m (u "id")))
            else work_id
        | _ => work_id
        end in
      if negb (py_truthy task_id) || negb (py_truthy work_id) then None
      else
        let '(account_id, user_id) := owner_from_payload payload in
        Some (MkMeta (py_str task_id) (py_str work_id) account_id user_id)
  end.

(** ** The index *)

(** Asyncio tasks are known by identity. *)
Record TaskWorkIndex := MkIndex {
  wi_work : gmap pystr (gset (pystr * pystr));
  wi_active : gmap pystr (gset N);
  wi_failures : gmap pystr pystr }.

(** [d.setdefault(k, set()).add(x)]. *)
Definition set_add {A} `{Countable A} (d : gmap pystr (gset A)) (k : pystr) (x : A) : gmap pystr (gset A) :=
  <[k := {[x]} ∪ default ∅ (d !! k)]> d.

(** Discarding an element of [d[k]], and the key once its set is empty. *)
Definition set_discard {A} `{Countable A} (d : gmap pystr (gset A)) (k : pystr) (x : A) : gmap pystr (gset A) :=
  match d !! k with
  | None => d
  | Some entries =>
      let entries := entries ∖ {[x]} in
      if bool_decide (entries = ∅) then delete k d else <[k := entries]> d
  end.

Definition empty_index : TaskWorkIndex := MkIndex ∅ ∅ ∅.

(** One message of [rebuild]. *)
Definition rebuild_message (queue_name : pystr)
    (acc : gmap pystr (gset (pystr * pystr)) * list (pystr * (pystr * pystr))) (message : pyval) :=
  let '(work, owners) := acc in
  match extract_task_metadata message with
  | None => (work, owners)
  | Some metadata =>
      (set_add work (md_task_id metadata) (queue_name, md_work_id metadata),
       if nonempty (md_account_id metadata) && nonempty (md_user_id metadata)
       then dict_set owners (md_task_id metadata) (md_account_id metadata, md_user_id metadata)
       else owners)
  end.

Definition rebuild_work (snapshots : list (pystr * list pyval)) :=
  foldl (fun acc '(queue_name, messages) => foldl (rebuild_message queue_name) acc messages)
    (∅, []) snapshots.

Definition rebuild (idx : TaskWorkIndex) (snapshots : list (pystr * list pyval))
    : list (pystr * (pystr * pystr)) * TaskWorkIndex :=
  let '(work, owners) := rebuild_work snapshots in
  (owners, MkIndex work (wi_active idx) ∅).

Section callbacks.
(** [_is_cancellation_requested], absent before the tracker installs it. *)
Context (is_cancellation_requested : option (pystr -> bool)).

Definition cancellation_requested (task_id : pystr) : bool :=
  match is_cancellation_requested with Some f => f task_id | None => false end.

Definition register (idx : TaskWorkIndex) (queue_name : pystr) (metadata : option QueueTaskMetadata)
    : bool * TaskWorkIndex :=
  match metadata with
  | None => (true, idx)
  | Some md =>
      if cancellation_requested (md_task_id md) then (false, idx)
      else (true, MkIndex (set_add (wi_work idx) (md_task_id md) (queue_name, md_work_id md))
                    (wi_active idx) (wi_failures idx))
  end.

(** [register_active]: whether the running task is cancelled instead. *)
Definition register_active (idx : TaskWorkIndex) (task_id : pystr) (active_task : N)
    : bool * TaskWorkIndex :=
  if cancellation_requested task_id then (true, idx)
  else (false, MkIndex (wi_work idx) (set_add (wi_active idx) task_id active_task) (wi_failures idx)).
End callbacks.

(** [not d.get(k)] on a dict of sets. *)
Definition no_entries {A} `{Countable A} (d : gmap pystr (gset A)) (k : pystr) : bool :=
  bool_decide (default ∅ (d !! k) = ∅).

Definition remove_work (idx : TaskWorkIndex) (queue_name : pystr) (metadata : QueueTaskMetadata)
    : bool * bool * TaskWorkIndex :=
  let entry := (queue_name, md_work_id metadata) in
  let removed := bool_decide (entry ∈ default ∅ (wi_work idx !! md_task_id metadata)) in
  let work := set_discard (wi_work idx) (md_task_id metadata) entry in
  let became_idle := removed && no_entries work (md_task_id metadata)
                     && no_entries (wi_active idx) (md_task_id metadata) in
  (removed, became_idle, MkIndex work (wi_active idx) (wi_failures idx)).

Definition rollback_ack (idx : TaskWorkIndex) (queue_name : pystr) (metadata : QueueTaskMetadata)
    : TaskWorkIndex :=
  MkIndex (set_add (wi_work idx) (md_task_id metadata) (queue_name, md_work_id metadata))
    (wi_active idx) (wi_failures idx).

Definition has_work (idx : TaskWorkIndex) (task_id : pystr) (exclude_work_id : option pystr) : bool :=
  match exclude_work_id with
  | Some w => existsb (fun '(_, work_id) => negb (seqb work_id w)) (elements (default ∅ (wi_work idx !! task_id)))
  | None => negb (no_entries (wi_work idx) task_id) || negb (no_entries (wi_active idx) task_id)
  end.

Definition record_failure (idx : TaskWorkIndex) (task_id error : pystr) : TaskWorkIndex :=
  MkIndex (wi_work idx) (wi_active idx)
    (match wi_failures idx !! task_id with
     | Some _ => wi_failures idx
     | None => <[task_id := error]> (wi_failures idx)
     end).

Definition failure (idx : TaskWorkIndex) (task_id : pystr) : option pystr := wi_failures idx !! task_id.

Definition clear_failure (idx : TaskWorkIndex) (task_id : pystr) : TaskWorkIndex :=
  MkIndex (wi_work idx) (wi_active idx) (delete task_id (wi_failures idx)).

Definition unregister_active (idx : TaskWorkIndex) (task_id : pystr) (active_task : N) : TaskWorkIndex :=
  MkIndex (wi_work idx) (set_discard (wi_active idx) task_id active_task) (wi_failures idx).

(** [cancel_active]: the running tasks to interrupt; the index does not change. *)
Definition cancel_active (idx : TaskWorkIndex) (task_id : pystr) : gset N :=
  default ∅ (wi_active idx !! task_id).

(** ** Acknowledgement *)

(** A message argument: metadata already read, or the queue message itself. *)
Inductive queue_message := Meta (metadata : QueueTaskMetadata) | Raw (message : pyval).

Definition metadata_of (message : queue_message) : option QueueTaskMetadata :=
  match message with Meta md => Some md | Raw m => extract_task_metadata m end.

Section ack.
(** The state the index lives in, and [_finalize_before_ack] acting on it. *)
Context {S : Type} (get_index : S -> TaskWorkIndex) (set_index : TaskWorkIndex -> S -> S).
Context (finalize_before_ack : option (QueueTaskMetadata -> ST S unit)).

Definition discard (queue_name : pystr) (message : queue_message) : ST S unit := fun s =>
  match metadata_of message with
  | None => (Ok tt, s)
  | Some md =>
      let '(_, became_idle, idx) := remove_work (get_index s) queue_name md in
      let s := set_index idx s in
      match finalize_before_ack with
      | Some callback => if became_idle : bool then callback md s else (Ok tt, s)
      | None => (Ok tt, s)
      end
  end.

Definition prepare_ack (queue_name : pystr) (message : queue_message)
    : ST S (option QueueTaskMetadata) := fun s =>
  match metadata_of message with
  | None => (Ok None, s)
  | Some md =>
      let '(removed, became_idle, idx) := remove_work (get_index s) queue_name md in
      let s := set_index idx s in
      if negb removed then (Ok None, s)
      else if negb became_idle then (Ok (Some md), s)
      else match finalize_before_ack with
           | None => (Ok (Some md), s)
           | Some callback =>
               match callback md s with
               | (Ok _, s') => (Ok (Some md), s')
               | (Err e, s') => (Err e, set_index (rollback_ack (get_index s') queue_name md) s')
               end
           end
  end.
End ack.
End payload.

(** ** Entries of the index *)

(** Sets kept in the index are never empty, so that a key means work. *)
Definition wf_index (idx : TaskWorkIndex) : Prop :=
  (forall t e, wi_work idx !! t = Some e -> e <> ∅) /\ (forall t e, wi_active idx !! t = Some e -> e <> ∅).

Definition entries {A} `{Countable A} (d : gmap pystr (gset A)) (k : pystr) : gset A := default ∅ (d !! k).

Section sets.
Context {A : Type} `{Countable A}.
Implicit Types d : gmap pystr (gset A).

Lemma entries_add d k x k' : entries (set_add d k x) k' = if decide (k = k') then {[x]} ∪ entries d k else entries d k'.
Proof.
  unfold entries, set_add. case_decide; [subst; by rewrite lookup_insert_eq|by rewrite lookup_insert_ne].
Qed.

Lemma entries_discard d k x k' :
  entries (set_discard d k x) k' = if decide (k = k') then entries d k ∖ {[x]} else entries d k'.
Proof.
  unfold entries, set_discard. destruct (d !! k) as [e|] eqn:E.
  - case_bool_decide as He; case_decide; subst.
    + rewrite lookup_delete_eq. cbn. by rewrite He.
    + by rewrite lookup_delete_ne.
    + by rewrite lookup_insert_eq.
    + by rewrite lookup_insert_ne.
  - case_decide; [subst; rewrite E; apply leibniz_equiv; set_solver|done].
Qed.

Lemma set_add_nonempty d k x : (forall t e, d !! t = Some e -> e <> ∅) -> forall t e, set_add d k x !! t = Some e -> e <> ∅.
Proof.
  intros Hd t e. unfold set_add. rewrite lookup_insert. case_decide; [|apply Hd].
  intros [= <-]. set_solver.
Qed.

Lemma set_discard_nonempty d k x :
  (forall t e, d !! t = Some e -> e <> ∅) -> forall t e, set_discard d k x !! t = Some e -> e <> ∅.
Proof.
  intros Hd t e. unfold set_discard. destruct (d !! k) as [e0|]; [|apply Hd].
  case_bool_decide as He.
  - rewrite lookup_delete. case_decide; [done|]. apply Hd.
  - rewrite lookup_insert. case_decide; [by intros [= <-]|]. apply Hd.
Qed.

Lemma set_add_discard d k x : (forall t e, d !! t = Some e -> e <> ∅) -> x ∈ entries d k -> set_add (set_discard d k x) k x = d.
Proof.
  intros Hd Hx. unfold set_add, set_discard, entries in *. destruct (d !! k) as [e|] eqn:E; [|set_solver].
  cbn in Hx. case_bool_decide as He.
  - rewrite lookup_delete_eq, insert_delete_eq. cbn. apply insert_id. rewrite E. f_equal.
    apply leibniz_equiv. intros y. destruct (decide (y = x)); set_solver.
  - rewrite lookup_insert_eq, insert_insert_eq. cbn. apply insert_id. rewrite E. f_equal.
    apply leibniz_equiv. intros y. destruct (decide (y = x)); set_solver.
Qed.
End sets.

Lemma no_entries_spec {A} `{Countable A} (d : gmap pystr (gset A)) k : no_entries d k = bool_decide (entries d k = ∅).
Proof. done. Qed.

Lemma has_work_spec idx t :
  has_work idx t None = true <-> entries (wi_work idx) t <> ∅ \/ entries (wi_active idx) t <> ∅.
Proof.
  unfold has_work. rewrite !no_entries_spec, orb_true_iff, !negb_true_iff, !bool_decide_eq_false. done.
Qed.

Lemma has_work_false idx t :
  has_work idx t None = false <-> entries (wi_work idx) t = ∅ /\ entries (wi_active idx) t = ∅.
Proof.
  unfold has_work. rewrite !no_entries_spec, orb_false_iff, !negb_false_iff, !bool_decide_eq_true. done.
Qed.

(** A truthy first field decides ownership. *)
Lemma owner_field_first render payload key uk ck :
  py_truthy (get_or_none payload key) = true ->
  owner_field render payload key uk ck = py_str render (get_or_none payload key).
Proof.
  intros H. unfold owner_field. set (v := get_or_none payload key) in *.
  assert (forall w, py_or v w = v) as Hor by (intros; unfold py_or; by rewrite H).
  destruct (get_or_none payload (u "user")); destruct (get_or_none payload (u "context_data"));
    rewrite ?Hor; by rewrite H.
Qed.

Lemma owner_field_kept render data payload key uk ck x0 x :
  (forall v, py_truthy v = true -> py_str render v <> []) ->
  owner_field render data key uk ck = x0 -> (nonempty x0 = true -> x = x0) -> x <> [] ->
  (forall v, dict_get data key = Some v -> py_truthy v = true) ->
  get_or_none payload key = match dict_get data key with Some v => v | None => VStr x end ->
  owner_field render payload key uk ck = x.
Proof.
  intros Hstr <- Hx Hne Hdata Hpay. destruct (dict_get data key) as [v|] eqn:E.
  - pose proof (Hdata v eq_refl) as Hv.
    assert (get_or_none data key = v) as Hg by (unfold get_or_none; by rewrite E).
    rewrite owner_field_first, Hpay by by rewrite Hpay. rewrite Hx; rewrite owner_field_first; rewrite ?Hg; try done.
    apply nonempty_true. by apply Hstr.
  - rewrite owner_field_first, Hpay; [done|]. rewrite Hpay. cbn. by apply nonempty_true.
Qed.

(** ** Rebuilding *)

Section rebuild_facts.
Context (json_loads : pystr -> option pyval) (render : pyval -> pystr).
Abbreviation extract := (extract_task_metadata json_loads render).

Lemma rebuild_messages_entries q msgs acc t e :
  e ∈ entries (fst (foldl (rebuild_message json_loads render q) acc msgs)) t <->
  e ∈ entries (fst acc) t \/ exists m md, m ∈ msgs /\ extract m = Some md /\ md_task_id md = t /\ e = (q, md_work_id md).
Proof.
  revert acc. induction msgs as [|m msgs IH]; intros acc; cbn [foldl].
  - split; [by left|]. intros [?|(m & md & []%elem_of_nil & _)]. done.
  - rewrite IH. clear IH. setoid_rewrite elem_of_cons. destruct acc as [work owners]. cbn [rebuild_message].
    destruct (extract m) as [md|] eqn:Em; cbn [fst].
    + rewrite entries_add. case_decide as Ht.
      * rewrite elem_of_union, elem_of_singleton. subst t. split.
        -- intros [[->|He]|(m' & md' & Hm & H)]; [right; exists m, md; auto|by left|right; exists m', md'; tauto].
        -- intros [He|(m' & md' & [->|Hm] & H & Ht & ->)]; [tauto| |right; eauto 6].
           rewrite Em in H. injection H as ->. tauto.
      * split.
        -- intros [He|(m' & md' & Hm & H)]; [by left|right; exists m', md'; tauto].
        -- intros [He|(m' & md' & [->|Hm] & H & Ht' & ->)]; [by left| |right; eauto 6]. congruence.
    + split.
      * intros [He|(m' & md' & Hm & H)]; [by left|right; exists m', md'; tauto].
      * intros [He|(m' & md' & [->|Hm] & H & Ht' & ->)]; [by left|congruence|right; eauto 6].
Qed.

Lemma rebuild_work_entries snapshots acc t e :
  e ∈ entries (fst (foldl (fun acc '(q, msgs) => foldl (rebuild_message json_loads render q) acc msgs) acc snapshots)) t <->
  e ∈ entries (fst acc) t \/
  exists q msgs m md, (q, msgs) ∈ snapshots /\ m ∈ msgs /\ extract m = Some md /\ md_task_id md = t /\ e = (q, md_work_id md).
Proof.
  revert acc. induction snapshots as [|[q msgs] snaps IH]; intros acc; cbn [foldl].
  - split; [by left|]. intros [?|(q & msgs & m & md & []%elem_of_nil & _)]. done.
  - rewrite IH, rebuild_messages_entries. setoid_rewrite elem_of_cons. split.
    + intros [[He|(m & md & H)]|(q' & msgs' & m & md & Hs & H)]; [by left|right|right].
      * exists q, msgs, m, md. tauto.
      * exists q', msgs', m, md. tauto.
    + intros [He|(q' & msgs' & m & md & [Hs|Hs] & H)]; [tauto| |].
      * injection Hs as -> ->. left; right. eauto.
      * right. exists q', msgs', m, md. tauto.
Qed.

(** After a restart the index holds exactly the work of the unacknowledged queue
    messages: an entry [(queue, work_id)] of a task for every message whose metadata
    names that task and work id, and no other; recorded failures are forgotten and
    running tasks are kept. *)
Theorem rebuild_exact (idx : TaskWorkIndex) (snapshots : list (pystr * list pyval)) (t q w : pystr) :
  let idx' := snd (rebuild json_loads render idx snapshots) in
  ((q, w) ∈ entries (wi_work idx') t <->
     exists msgs m md, (q, msgs) ∈ snapshots /\ m ∈ msgs /\ extract m = Some md
                       /\ md_task_id md = t /\ md_work_id md = w)
  /\ wi_active idx' = wi_active idx /\ wi_failures idx' = ∅.
Proof.
  cbn zeta. unfold rebuild. pose proof (rebuild_work_entries snapshots (∅, []) t (q, w)) as H.
  unfold rebuild_work. destruct (foldl _ _ snapshots) as [work owners]. cbn [fst snd wi_work wi_active wi_failures] in *.
  split; [|done]. rewrite H. clear H. split.
  - intros [He|(q' & msgs & m & md & Hs & Hm & Hx & Ht & E)]; [|injection E as -> ->; eauto 9].
    unfold entries in He. rewrite lookup_empty in He. cbn in He. set_solver.
  - intros (msgs & m & md & Hs & Hm & Hx & Ht & <-). right. eauto 10.
Qed.

(** Durable ownership round-trips through the queue: the metadata attached to a
    payload when it is enqueued is what is read from its message after a restart,
    when the message body decodes to that payload. *)
Theorem task_payload_roundtrip (current : option TaskExecutionContext) (uuid4 : pystr)
    (data payload : list (pystr * pyval)) (md : QueueTaskMetadata) (body : pystr) (msg_id : pyval)
    (Hprep : prepare_task_payload render current uuid4 data = (payload, Some md))
    (Hstr : forall v, py_truthy v = true -> py_str render v <> []) (Huuid : uuid4 <> [])
    (Howner : md_account_id md <> [] /\ md_user_id md <> [])
    (Hacc : forall v, dict_get data (u "account_id") = Some v -> py_truthy v = true)
    (Husr : forall v, dict_get data (u "user_id") = Some v -> py_truthy v = true)
    (Hjson : json_loads body = Some (VDict payload)) :
  extract (VDict [(u "id", msg_id); (u "data", VStr body)]) = Some md.
Proof.
  unfold prepare_task_payload in Hprep. destruct (negb (py_truthy _)) eqn:Etid; [done|].
  apply negb_false_iff in Etid. apply Hstr in Etid as Htask.
  assert (py_str render (py_or (get_or_none data TASK_WORK_ID_FIELD) (VStr uuid4)) <> []) as Hwork.
  { apply Hstr. unfold py_or. destruct (py_truthy (get_or_none data TASK_WORK_ID_FIELD)) eqn:E; [done|]. cbn. by apply nonempty_true. }
  set (tid := py_str render (py_or (get_or_none data (u "task_id")) _)) in *.
  set (wid := py_str render (py_or (get_or_none data TASK_WORK_ID_FIELD) _)) in *.
  destruct (owner_from_payload render data) as [acc0 usr0] eqn:Eown.
  set (own := match current with
              | Some c => if seqb (ec_task_id c) tid
                          then (if nonempty acc0 then acc0 else ec_account_id c,
                                if nonempty usr0 then usr0 else ec_user_id c)
                          else (acc0, usr0)
              | None => (acc0, usr0)
              end) in Hprep.
  destruct own as [acc usr] eqn:Ecur. unfold own in Ecur.
  injection Hprep as <- <-. cbn [md_task_id md_work_id md_account_id md_user_id] in *.
  destruct Howner as [Ha Hu]. apply nonempty_true in Ha as Ha', Hu as Hu'.
  apply nonempty_true in Hwork as Hwork', Htask as Htask'.
  rewrite Ha', Hu' in Hjson. cbn [andb] in Hjson.
  set (payload := dict_setdefault _ (u "user_id") _) in Hjson.
  assert (get_or_none payload (u "task_id") = VStr tid) as Htid.
  { unfold get_or_none, payload. rewrite !dict_setdefault_get, !dict_set_get. by eval_seqb. }
  assert (get_or_none payload TASK_WORK_ID_FIELD = VStr wid) as Hwid.
  { unfold get_or_none, payload. rewrite !dict_setdefault_get, !dict_set_get. by eval_seqb. }
  assert (payload_dict json_loads (VDict [(u "id", msg_id); (u "data", VStr body)]) = Some payload) as Hpd.
  { unfold payload_dict. change (dict_get [(u "id", msg_id); (u "data", VStr body)] (u "data")) with (Some (VStr body)).
    cbn [from_option id]. by rewrite Hjson. }
  unfold extract_task_metadata. rewrite Hpd, Htid, Hwid. cbn [py_truthy].
  rewrite !Hwork', !Htask'. cbn [negb andb orb]. cbn [py_truthy]. rewrite Hwork'. cbn [negb].
  assert (owner_from_payload render payload = (acc, usr)) as ->; [|done].
  unfold owner_from_payload in Eown |- *. injection Eown as Eacc Eusr.
  assert ((nonempty acc0 = true -> acc = acc0) /\ (nonempty usr0 = true -> usr = usr0)) as [Ea Eu].
  { clear -Ecur. destruct current as [c|]; [destruct (seqb _ _)|]; injection Ecur as <- <-;
      split; intros H; try rewrite H; done. }
  f_equal; (eapply owner_field_kept; [exact Hstr|..]); [exact Eacc|done|done|by apply Hacc| |exact Eusr|done|done|by apply Husr|];
    unfold get_or_none, payload; rewrite !dict_setdefault_get, !dict_set_get; eval_seqb; repeat (case_match; simplify_eq); done.
Qed.
End rebuild_facts.

Lemma task_payload_roundtrip_witness :
  let render := fun _ => u "?" in
  let ctx := Some (MkExecCtx (u "t1") (u "acme") (u "alice")) in
  let payload := fst (prepare_task_payload render ctx (u "w1") [(u "uri", VStr (u "x"))]) in
  extract_task_metadata (fun _ => Some (VDict payload)) render
    (VDict [(u "id", VInt 7); (u "data", VStr (u "body"))])
  = Some (MkMeta (u "t1") (u "w1") (u "acme") (u "alice")).
Proof.
  apply (task_payload_roundtrip _ (fun _ => u "?") (Some (MkExecCtx (u "t1") (u "acme") (u "alice"))) (u "w1")
           [(u "uri", VStr (u "x"))] _ _ (u "body") (VInt 7) eq_refl).
  - intros v Hv. destruct v as [|[]| | |s| |]; try (by vm_compute); try done. cbn in *. by apply nonempty_true.
  - by vm_compute.
  - by vm_compute.
  - by vm_compute.
  - by vm_compute.
  - done.
Defined.

(** ** Acknowledgement *)

Lemma remove_work_spec idx q md removed idle idx' :
  remove_work idx q md = (removed, idle, idx') ->
  (removed = true <-> (q, md_work_id md) ∈ entries (wi_work idx) (md_task_id md))
  /\ (idle = true <-> removed = true /\ has_work idx' (md_task_id md) None = false)
  /\ entries (wi_work idx') (md_task_id md) = entries (wi_work idx) (md_task_id md) ∖ {[(q, md_work_id md)]}
  /\ wi_active idx' = wi_active idx /\ wi_failures idx' = wi_failures idx.
Proof.
  unfold remove_work. intros [= <- <- <-]. cbn [wi_work wi_active wi_failures].
  rewrite has_work_false, entries_discard, decide_True by done.
  split_and!; [by rewrite bool_decide_eq_true| |done|done|done].
  rewrite !andb_true_iff, !no_entries_spec, !bool_decide_eq_true, entries_discard, decide_True by done. cbn [wi_work wi_active].
  rewrite entries_discard, decide_True by done. tauto.
Qed.

Section ack_facts.
Context {S : Type} (get_index : S -> TaskWorkIndex) (set_index : TaskWorkIndex -> S -> S).

(** Acknowledging work never loses it and finalises in time.  [prepare_ack]
    removes exactly the acknowledged entry; the finaliser runs precisely when that
    entry was present and was the last work of its task; and when the finaliser
    fails without touching the index, the index is what it was before. *)
Theorem prepare_ack_safe (s : S) (q : pystr) (md : QueueTaskMetadata)
    (callback : QueueTaskMetadata -> ST S unit) (loads : pystr -> option pyval) (render : pyval -> pystr)
    (Hwf : wf_index (get_index s)) :
  let '(removed, idle, idx) := remove_work (get_index s) q md in
  (idle = true ->
     prepare_ack loads render get_index set_index (Some callback) q (Meta md) s =
       match callback md (set_index idx s) with
       | (Ok _, s') => (Ok (Some md), s')
       | (Err e, s') => (Err e, set_index (rollback_ack (get_index s') q md) s')
       end)
  /\ (idle = false ->
      prepare_ack loads render get_index set_index (Some callback) q (Meta md) s =
        (Ok (if removed : bool then Some md else None), set_index idx s))
  /\ (idle = true <->
        entries (wi_work (get_index s)) (md_task_id md) = {[(q, md_work_id md)]}
        /\ entries (wi_active (get_index s)) (md_task_id md) = ∅)
  /\ (removed = true -> rollback_ack idx q md = get_index s).
Proof.
  destruct (remove_work (get_index s) q md) as [[removed idle] idx] eqn:E.
  pose proof (remove_work_spec _ _ _ _ _ _ E) as (Hr & Hi & Hent & Hact & Hfail).
  split_and!.
  - intros ->. unfold prepare_ack. cbn [metadata_of]. rewrite E.
    destruct removed; [|by destruct Hi as [[? _] _]]. cbn [negb]. done.
  - intros ->. unfold prepare_ack. cbn [metadata_of]. rewrite E. by destruct removed.
  - rewrite Hi, Hr, has_work_false, Hent, Hact. split.
    + intros (Hin & Hem & Ha). split; [|done]. apply leibniz_equiv. intros e.
      rewrite elem_of_singleton. split; [|by intros ->]. intros He.
      destruct (decide (e = (q, md_work_id md))); [done|]. set_solver.
    + intros (Hin & Ha). rewrite Hin. set_solver.
  - intros Hrem%Hr. unfold remove_work in E. injection E as _ _ <-. unfold rollback_ack.
    cbn [wi_work wi_active wi_failures]. destruct Hwf as [Hw _].
    rewrite set_add_discard by done. by destruct (get_index s).
Qed.
End ack_facts.

Lemma prepare_ack_safe_witness :
  let idx := snd (register None empty_index (u "q") (Some (MkMeta (u "t") (u "w") [] []))) in
  let md := MkMeta (u "t") (u "w") [] [] in
  remove_work idx (u "q") md = (true, true, MkIndex ∅ ∅ ∅)
  /\ rollback_ack (MkIndex ∅ ∅ ∅) (u "q") md = idx.
Proof.
  cbn zeta. split; [by vm_compute|].
  pose proof (prepare_ack_safe (S := TaskWorkIndex) (fun i => i) (fun i _ => i)
    (snd (register None empty_index (u "q") (Some (MkMeta (u "t") (u "w") [] [])))) (u "q")
    (MkMeta (u "t") (u "w") [] []) (fun _ => mret tt) (fun _ => None) (fun _ => [])) as H.
  apply H.
  - split; intros t e; unfold register; cbn [cancellation_requested snd wi_work wi_active].
    + apply set_add_nonempty. intros t' e'. cbn; by rewrite lookup_empty.
    + cbn. by rewrite lookup_empty.
  - by vm_compute.
Defined.

(** ** The invariant *)

(** Every hook of the index keeps its sets non-empty. *)
Lemma index_ops_wf idx : wf_index idx ->
  (forall c q md, wf_index (snd (register c idx q md)))
  /\ (forall c t a, wf_index (snd (register_active c idx t a)))
  /\ (forall q md, wf_index (snd (remove_work idx q md)))
  /\ (forall q md, wf_index (rollback_ack idx q md))
  /\ (forall t e, wf_index (record_failure idx t e))
  /\ (forall t, wf_index (clear_failure idx t))
  /\ (forall t a, wf_index (unregister_active idx t a)).
Proof.
  intros [Hw Ha]. split_and!; intros; cbn; try done.
  - destruct md; cbn; [|done]. destruct (cancellation_requested c _); cbn; [done|].
    split; cbn; [by apply set_add_nonempty|done].
  - unfold register_active. destruct (cancellation_requested c t); cbn; [done|].
    split; cbn; [done|by apply set_add_nonempty].
  - split; cbn; [by apply set_discard_nonempty|done].
  - split; cbn; [by apply set_add_nonempty|done].
  - split; cbn; [done|by apply set_discard_nonempty].
Qed.
