(* ===== verification/TaskTracker.v ===== *)
(** The task tracker: [TaskTracker] of [openviking/service/task_tracker.py].

    Mutations of a task run one after the other on the owner loop under a lock per
    task, so each [_..._on_owner] coroutine is one transition of the tracker's state:
    the cache, the store and the index of queue work.  Cancellation of the calling
    coroutine in the middle of a store write is not modelled: the code runs such a
    write to completion and re-raises afterwards.  Clock readings and fresh ids are
    arguments. *)
From Stdlib Require Import NArith ZArith.
From S2P Require Import Prelude PyStr PyVal TaskRecord WorkIndex.

Open Scope N_scope.

(** ** The store interface *)

(** The protocol [TaskStore] of [openviking/service/task_store.py]. *)
Class TaskStore (St : Type) := {
  ts_create : St -> TaskRecord -> result unit * St;
  ts_update : St -> TaskRecord -> result unit * St;
  ts_get : St -> pystr -> option pystr -> option pystr -> result (option pydict);
  ts_list : St -> pystr -> option pystr -> result (list pydict);
  ts_delete : St -> pystr -> pystr -> option pystr -> result unit * St }.

Definition MAX_TASKS : N := 10000.
Definition TTL_COMPLETED : stamp := (86400 * second)%Z.
Definition TTL_FAILED : stamp := (604800 * second)%Z.

(** ** Helpers on records *)

Definition matches_owner (task : TaskRecord) (acc usr : option pystr) : bool :=
  match acc with Some a => bool_decide (account_id task = Some a) | None => true end
  && match usr with Some x => bool_decide (user_id task = Some x) | None => true end.

Definition validate_owner (acc usr : pystr) : result unit :=
  if nonempty acc && nonempty usr then Ok tt else Err ValueError.

Definition is_expired (task : TaskRecord) (now : stamp) : bool :=
  let age := (now - updated_at task)%Z in
  if bool_decide (status task ∈ [COMPLETED; CANCELLED]) then (TTL_COMPLETED <? age)%Z
  else bool_decide (status task = FAILED) && (TTL_FAILED <? age)%Z.

Definition next_updated_at (now : stamp) (task : TaskRecord) : stamp :=
  Z.max now (nextafter (updated_at task)).

(** Field assignments on a copy. *)
Definition with_status (s : TaskStatus) (t : TaskRecord) : TaskRecord :=
  MkTask (task_id t) (task_type t) s (created_at t) (updated_at t) (resource_id t)
    (account_id t) (user_id t) (meta t) (stage t) (task_result t) (error t) (auth t).
Definition with_stage (g : option pystr) (t : TaskRecord) : TaskRecord :=
  MkTask (task_id t) (task_type t) (status t) (created_at t) (updated_at t) (resource_id t)
    (account_id t) (user_id t) (meta t) g (task_result t) (error t) (auth t).
Definition with_updated_at (z : stamp) (t : TaskRecord) : TaskRecord :=
  MkTask (task_id t) (task_type t) (status t) (created_at t) z (resource_id t)
    (account_id t) (user_id t) (meta t) (stage t) (task_result t) (error t) (auth t).
Definition with_result (r : option pydict) (t : TaskRecord) : TaskRecord :=
  MkTask (task_id t) (task_type t) (status t) (created_at t) (updated_at t) (resource_id t)
    (account_id t) (user_id t) (meta t) (stage t) r (error t) (auth t).
Definition with_resource_id (r : option pystr) (t : TaskRecord) : TaskRecord :=
  MkTask (task_id t) (task_type t) (status t) (created_at t) (updated_at t) r
    (account_id t) (user_id t) (meta t) (stage t) (task_result t) (error t) (auth t).
Definition with_error (e : option pystr) (t : TaskRecord) : TaskRecord :=
  MkTask (task_id t) (task_type t) (status t) (created_at t) (updated_at t) (resource_id t)
    (account_id t) (user_id t) (meta t) (stage t) (task_result t) e (auth t).
Definition without_auth (t : TaskRecord) : TaskRecord :=
  MkTask (task_id t) (task_type t) (status t) (created_at t) (updated_at t) (resource_id t)
    (account_id t) (user_id t) (meta t) (stage t) (task_result t) (error t) [].

(** [if e and updated.error is None: updated.error = _sanitize_error(e)]. *)
Definition note_error (e : option pystr) (t : TaskRecord) : TaskRecord :=
  match e, error t with
  | Some e, None => with_error (Some (sanitize_error e)) t
  | _, _ => t
  end.

(** A work failure counts when it is not the empty text. *)
Definition truthy_opt (e : option pystr) : option pystr :=
  match e with Some s => if nonempty s then Some s else None | None => None end.

(** The record [start] writes. *)
Definition started (now : stamp) (stg : option pystr) (t : TaskRecord) : TaskRecord :=
  let updated := with_status RUNNING t in
  let updated := match stg with Some g => with_stage (Some g) updated | None => updated end in
  with_updated_at (next_updated_at now t) updated.

(** The record [update_stage] writes. *)
Definition staged (now : stamp) (stg : pystr) (t : TaskRecord) : TaskRecord :=
  with_updated_at (next_updated_at now t) (with_stage (Some stg) t).

(** The record [_record_outcome_on_owner] writes. *)
Definition outcome (now : stamp) (res : option pydict) (err rid : option pystr)
    (work_error : option pystr) (t : TaskRecord) : TaskRecord :=
  let updated :=
    match res with
    | Some r => let updated := with_result (Some r) t in
                match rid with Some i => with_resource_id (Some i) updated | None => updated end
    | None => t
    end in
  let updated := note_error err updated in
  let updated := note_error (truthy_opt work_error) updated in
  without_auth (with_updated_at (next_updated_at now t) updated).

(** The record [_cancel_on_owner] writes. *)
Definition cancelling (now : stamp) (t : TaskRecord) : TaskRecord :=
  with_updated_at (next_updated_at now t) (with_status CANCELLING t).

(** The record [_finalize_task_on_owner] writes, if the outcome is known. *)
Definition finalized (now : stamp) (work_error : option pystr) (t : TaskRecord) : option TaskRecord :=
  let updated := if bool_decide (status t = CANCELLING) then t else note_error (truthy_opt work_error) t in
  let terminal :=
    if bool_decide (status updated = CANCELLING) then Some CANCELLED
    else if bool_decide (is_Some (error updated)) then Some FAILED
    else if bool_decide (is_Some (task_result updated)) then Some COMPLETED
    else None in
  match terminal with
  | None => None
  | Some s =>
      Some (without_auth (with_updated_at (next_updated_at now t)
              (with_stage (Some (status_value s)) (with_status s updated))))
  end.

(** ** State *)

Record tracker (St : Type) := MkTracker {
  tk_tasks : list (pystr * TaskRecord);
  tk_store : St;
  tk_work : TaskWorkIndex }.
Arguments MkTracker {St} _ _ _.
Arguments tk_tasks {St} _.
Arguments tk_store {St} _.
Arguments tk_work {St} _.

(** [sort(key=created_at, reverse=True)]: descending, equal keys keep their order. *)
Fixpoint insert_recent (t : TaskRecord) (l : list TaskRecord) : list TaskRecord :=
  match l with
  | [] => [t]
  | x :: l' => if (created_at x <? created_at t)%Z then t :: l else x :: insert_recent t l'
  end.

Definition sort_recent (l : list TaskRecord) : list TaskRecord :=
  foldl (fun acc t => insert_recent t acc) [] l.

(** [sorted(tasks.items(), key=created_at)]: ascending, stable. *)
Fixpoint insert_oldest (t : pystr * TaskRecord) (l : list (pystr * TaskRecord)) : list (pystr * TaskRecord) :=
  match l with
  | [] => [t]
  | x :: l' => if (created_at (snd t) <? created_at (snd x))%Z then t :: l else x :: insert_oldest t l'
  end.

Definition sort_oldest (l : list (pystr * TaskRecord)) : list (pystr * TaskRecord) :=
  foldl (fun acc t => insert_oldest t acc) [] l.

(** [l[:limit]]. *)
Definition slice_to {A} (limit : Z) (l : list A) : list A :=
  if (limit <? 0)%Z then take (length l - Z.to_nat (- limit)) l else take (Z.to_nat limit) l.

(** [meta.get("internal") is not True]. *)
Definition is_internal (t : TaskRecord) : bool :=
  match dict_get (meta t) (u "internal") with Some (VBool true) => true | _ => false end.

Section tracker_ops.
Context {St : Type} `{!TaskStore St}.
Abbreviation TK := (tracker St).

Definition set_tasks (f : list (pystr * TaskRecord) -> list (pystr * TaskRecord)) (s : TK) : TK :=
  MkTracker (f (tk_tasks s)) (tk_store s) (tk_work s).
Definition set_store (st : St) (s : TK) : TK := MkTracker (tk_tasks s) st (tk_work s).
Definition set_work (w : TaskWorkIndex) (s : TK) : TK := MkTracker (tk_tasks s) (tk_store s) w.

(** ** Cache *)

Definition cached_task (tid : pystr) : ST TK (option TaskRecord) :=
  st_gets (fun s => dict_get (tk_tasks s) tid).

Definition cache_snapshot : ST TK (list TaskRecord) := st_gets (fun s => snd <$> tk_tasks s).

Definition publish_task (t : TaskRecord) : ST TK unit :=
  st_modify (set_tasks (fun d => dict_set d (task_id t) t)).

(** One loaded record of [_merge_loaded_tasks]: never older than the cached one. *)
Definition merge_one (d : list (pystr * TaskRecord)) (loaded : TaskRecord) : list (pystr * TaskRecord) :=
  match dict_get d (task_id loaded) with
  | None => dict_set d (task_id loaded) loaded
  | Some cached =>
      if (updated_at cached <? updated_at loaded)%Z then dict_set d (task_id loaded) loaded else d
  end.

Definition merge_loaded_tasks (loaded : list TaskRecord) : ST TK unit :=
  st_modify (set_tasks (fun d => foldl merge_one d loaded)).

(** ** Store *)

Fixpoint records_from_payloads (now : stamp) (l : list pydict) : result (list TaskRecord) :=
  match l with
  | [] => Ok []
  | p :: l => t ← record_from_payload now p; ts ← records_from_payloads now l; Ok (t :: ts)
  end.

Definition load_from_store (now : stamp) (tid : pystr) (acc : pystr) (usr : option pystr)
    : ST TK (option TaskRecord) := fun s =>
  (payload ← ts_get (tk_store s) tid (Some acc) usr;
   match payload with
   | None => Ok None
   | Some p => t ← record_from_payload now p; Ok (Some t)
   end, s).

Definition load_all_from_store (now : stamp) (acc : pystr) (usr : option pystr)
    : ST TK (list TaskRecord) := fun s =>
  (l ← ts_list (tk_store s) acc usr; records_from_payloads now l, s).

Definition store_create (t : TaskRecord) : ST TK unit := fun s =>
  let '(r, st) := ts_create (tk_store s) t in (r, set_store st s).
Definition store_update (t : TaskRecord) : ST TK unit := fun s =>
  let '(r, st) := ts_update (tk_store s) t in (r, set_store st s).
Definition store_delete (tid acc : pystr) (usr : option pystr) : ST TK unit := fun s =>
  let '(r, st) := ts_delete (tk_store s) tid acc usr in (r, set_store st s).

(** [_persist_and_publish]: the cache follows the store. *)
Definition persist_create (t : TaskRecord) : ST TK unit := _ ← store_create t; publish_task t.
Definition persist_update (t : TaskRecord) : ST TK unit := _ ← store_update t; publish_task t.

Definition load_for_update (now : stamp) (tid : pystr) (acc usr : option pystr)
    : ST TK (option TaskRecord) :=
  task ← cached_task tid;
  match task with
  | Some t => mret (if matches_owner t acc usr then Some t else None)
  | None =>
      match acc, usr with
      | Some a, Some x => load_from_store now tid a (Some x)
      | _, _ => mret None
      end
  end.

(** ** Creation *)

(** [_create_on_owner]. *)
Definition create_on_owner (now : stamp) (task : TaskRecord) (check_existing : bool) : ST TK TaskRecord :=
  let fresh : ST TK TaskRecord := _ ← persist_create task; mret (copy_task task) in
  if negb check_existing then fresh
  else
    existing ← cached_task (task_id task);
    match existing with
    | Some e =>
        if negb (matches_owner e (account_id task) (user_id task)) then st_raise ValueError
        else mret (copy_task e)
    | None =>
        existing ← load_from_store now (task_id task) (default [] (account_id task)) (user_id task);
        match existing with
        | Some e => _ ← publish_task e; mret (copy_task e)
        | None => fresh
        end
    end.

(** [create], with a fresh uuid and the clock readings of the two time stamps. *)
Definition create (uuid4 : pystr) (now_c now_u : stamp) (ty : pystr) (rid : option pystr)
    (acc usr : pystr) (tid : option pystr) (m a : option pydict) : ST TK TaskRecord :=
  _ ← st_lift (validate_owner acc usr);
  let task := MkTask (match tid with Some i => if nonempty i then i else uuid4 | None => uuid4 end)
                ty PENDING now_c now_u rid (Some acc) (Some usr) (default [] m) None None None
                (default [] a) in
  create_on_owner now_c task (bool_decide (is_Some tid)).

(** The condition of [create_if_no_running] and [has_running]. *)
Definition is_running_for (ty : pystr) (rid : option pystr) (acc usr : option pystr) (t : TaskRecord) : bool :=
  seqb (task_type t) ty && bool_decide (resource_id t = rid) && matches_owner t acc usr && is_active (status t).

Definition create_if_no_running (uuid4 : pystr) (now_c now_u : stamp) (ty rid acc usr : pystr)
    : ST TK (option TaskRecord) :=
  _ ← st_lift (validate_owner acc usr);
  loaded ← load_all_from_store now_c acc (Some usr);
  _ ← merge_loaded_tasks loaded;
  tasks ← cache_snapshot;
  if existsb (is_running_for ty (Some rid) (Some acc) (Some usr)) tasks then mret None
  else
    let task := MkTask uuid4 ty PENDING now_c now_u (Some rid) (Some acc) (Some usr) [] None None None [] in
    _ ← persist_create task;
    mret (Some (copy_task task)).

Definition has_running (now : stamp) (ty rid : pystr) (acc usr : option pystr) : ST TK bool :=
  _ ← match acc with
      | Some a => loaded ← load_all_from_store now a usr; merge_loaded_tasks loaded
      | None => mret tt
      end;
  tasks ← cache_snapshot;
  mret (existsb (is_running_for ty (Some rid) acc usr) tasks).

(** ** Lifecycle *)

Definition start (now : stamp) (tid : pystr) (acc usr : option pystr) (stg : option pystr) : ST TK unit :=
  task ← load_for_update now tid acc usr;
  match task with
  | Some t => if bool_decide (status t ∈ [PENDING; RUNNING]) then persist_update (started now stg t) else mret tt
  | None => mret tt
  end.

Definition update_stage (now : stamp) (tid stg : pystr) (acc usr : option pystr) : ST TK unit :=
  task ← load_for_update now tid acc usr;
  match task with
  | Some t => if bool_decide (status t ∈ [PENDING; RUNNING]) then persist_update (staged now stg t) else mret tt
  | None => mret tt
  end.

(** [_finalize_task_on_owner]. *)
Definition finalize_task (now : stamp) (tid : pystr) (acc usr : option pystr) : ST TK unit :=
  busy ← st_gets (fun s => has_work (tk_work s) tid None);
  if busy : bool then mret tt
  else
    task ← load_for_update now tid acc usr;
    match task with
    | Some t =>
        if is_active (status t) then
          busy ← st_gets (fun s => has_work (tk_work s) tid None);
          if busy : bool then mret tt
          else
            work_error ← st_gets (fun s => failure (tk_work s) tid);
            match finalized now work_error t with
            | None => mret tt
            | Some updated =>
                _ ← persist_update updated;
                st_modify (fun s => set_work (clear_failure (tk_work s) tid) s)
            end
        else mret tt
    | None => mret tt
    end.

(** [_record_outcome_on_owner]: both branches finalise afterwards. *)
Definition record_outcome (now now' : stamp) (tid : pystr) (acc usr : option pystr)
    (res : option pydict) (err rid : option pystr) : ST TK unit :=
  task ← load_for_update now tid acc usr;
  _ ← match task with
      | Some t =>
          if bool_decide (status t ∈ [PENDING; RUNNING]) then
            work_error ← st_gets (fun s => failure (tk_work s) tid);
            persist_update (outcome now res err rid work_error t)
          else mret tt
      | None => mret tt
      end;
  finalize_task now' tid acc usr.

Definition complete (now now' : stamp) (tid : pystr) (res : pydict) (acc usr rid : option pystr) : ST TK unit :=
  record_outcome now now' tid acc usr (Some res) None rid.

Definition fail (now now' : stamp) (tid err : pystr) (acc usr : option pystr) : ST TK unit :=
  record_outcome now now' tid acc usr None (Some err) None.

(** [_cancel_on_owner]: the snapshot returned, and the running coroutines interrupted. *)
Definition cancel (now now' : stamp) (tid : pystr) (acc usr : option pystr)
    : ST TK (option TaskRecord * gset N) :=
  let finish : ST TK (option TaskRecord * gset N) :=
    interrupted ← st_gets (fun s => cancel_active (tk_work s) tid);
    _ ← finalize_task now' tid acc usr;
    task ← cached_task tid;
    mret (match task with
          | Some t => if matches_owner t acc usr then Some (copy_task t) else None
          | None => None
          end, interrupted) in
  task ← load_for_update now tid acc usr;
  match task with
  | None => mret (None, ∅)
  | Some t =>
      if bool_decide (status t = CANCELLED) then mret (Some (copy_task t), ∅)
      else if bool_decide (status t = CANCELLING) then finish
      else if negb (mem (task_type t) CANCELLABLE_TASK_TYPES) then st_raise ValueError
      else if is_terminal (status t) then st_raise ValueError
      else _ ← persist_update (cancelling now t); finish
  end.

(** ** Queries *)

Definition get (now : stamp) (tid : pystr) (acc usr : option pystr) : ST TK (option TaskRecord) :=
  let owned (task : option TaskRecord) : option TaskRecord :=
    match task with
    | Some t => if matches_owner t acc usr then Some (copy_task t) else None
    | None => None
    end in
  task ← cached_task tid;
  match task, acc with
  | Some t, _ => mret (owned (Some t))
  | None, None => mret None
  | None, Some a =>
      loaded ← load_from_store now tid a usr;
      match loaded with
      | Some t => _ ← merge_loaded_tasks [t]; task ← cached_task tid; mret (owned task)
      | None => mret None
      end
  end.

Definition get_task_auth (now : stamp) (tid acc usr : pystr) : ST TK pydict :=
  _ ← st_lift (validate_owner acc usr);
  task ← cached_task tid;
  task ← match task with
         | Some t => mret (Some t)
         | None =>
             loaded ← load_from_store now tid acc (Some usr);
             match loaded with
             | Some t => _ ← publish_task t; mret (Some t)
             | None => mret None
             end
         end;
  mret (match task with
        | Some t => if matches_owner t (Some acc) (Some usr) then auth t else []
        | None => []
        end).

(** [if value: tasks = [t for t in tasks if ...]]. *)
Definition filter_opt (v : option pystr) (f : TaskRecord -> pystr -> bool) (l : list TaskRecord) : list TaskRecord :=
  match truthy_opt v with Some x => filter (fun t => f t x = true) l | None => l end.

Definition list_tasks (now : stamp) (ty stat rid : option pystr) (limit : Z) (acc usr : option pystr)
    (include_internal : bool) : ST TK (list TaskRecord) :=
  _ ← match acc with
      | Some a => loaded ← load_all_from_store now a usr; merge_loaded_tasks loaded
      | None => mret tt
      end;
  source ← cache_snapshot;
  let tasks := copy_task <$> filter (fun t => matches_owner t acc usr = true) source in
  let tasks := if include_internal then tasks else filter (fun t => is_internal t = false) tasks in
  let tasks := filter_opt ty (fun t x => seqb (task_type t) x) tasks in
  let tasks := filter_opt stat (fun t x => seqb (status_value (status t)) x) tasks in
  let tasks := filter_opt rid (fun t x => bool_decide (resource_id t = Some x)) tasks in
  mret (slice_to limit (sort_recent tasks)).

(** ** Deletion *)

(** The loop of [_delete_user_tasks_on_owner]. *)
Fixpoint delete_tasks (acc usr : pystr) (tasks : list TaskRecord) (deleted : nat) : ST TK nat :=
  match tasks with
  | [] => mret deleted
  | task :: rest =>
      current ← cached_task (task_id task);
      match current with
      | None => delete_tasks acc usr rest deleted
      | Some c =>
          if negb (matches_owner c (Some acc) (Some usr)) then delete_tasks acc usr rest deleted
          else
            busy ← st_gets (fun s => has_work (tk_work s) (task_id task) None);
            if is_active (status c) || busy then st_raise RuntimeError
            else
              _ ← store_delete (task_id task) acc (Some usr);
              _ ← st_modify (set_tasks (fun d => dict_pop d (task_id task)));
              _ ← st_modify (fun s => set_work (clear_failure (tk_work s) (task_id task)) s);
              delete_tasks acc usr rest (S deleted)
      end
  end.

Definition delete_user_tasks (now : stamp) (acc usr : pystr) : ST TK nat :=
  _ ← st_lift (validate_owner acc usr);
  loaded ← load_all_from_store now acc (Some usr);
  _ ← merge_loaded_tasks loaded;
  snapshot ← cache_snapshot;
  let tasks := filter (fun t => matches_owner t (Some acc) (Some usr) = true) snapshot in
  if existsb (fun t => is_active (status t)) tasks then st_raise RuntimeError
  else delete_tasks acc usr tasks 0.

(** [_delete_expired_task_on_owner]: a failing delete is logged and skipped. *)
Definition delete_expired_task (now : stamp) (tid : pystr) : ST TK bool := fun s =>
  match dict_get (tk_tasks s) tid with
  | Some t =>
      if negb (is_expired t now) then (Ok false, s)
      else match truthy_opt (account_id t), truthy_opt (user_id t) with
           | Some acc, Some usr =>
               match store_delete tid acc (Some usr) s with
               | (Ok _, s') => (Ok true, set_tasks (fun d => dict_pop d tid) s')
               | (Err _, s') => (Ok false, s')
               end
           | _, _ => (Ok false, s)
           end
  | None => (Ok false, s)
  end.

Fixpoint delete_expired (now : stamp) (ids : list pystr) : ST TK unit :=
  match ids with
  | [] => mret tt
  | tid :: rest => _ ← delete_expired_task now tid; delete_expired now rest
  end.

(** The size bound of the cache. *)
Definition trim_tasks (d : list (pystr * TaskRecord)) : list (pystr * TaskRecord) :=
  if MAX_TASKS <? N.of_nat (length d) then
    foldl (fun d kv => dict_pop d (fst kv)) d
      (take (length d - N.to_nat MAX_TASKS) (sort_oldest d))
  else d.

Definition evict_expired (now : stamp) : ST TK unit :=
  expired_ids ← st_gets (fun s => (fst <$> filter (fun kv => is_expired (snd kv) now = true) (tk_tasks s)));
  _ ← delete_expired now expired_ids;
  st_modify (set_tasks trim_tasks).

(** ** Queue work *)

(** [is_cancellation_requested], installed as the index's callback. *)
Definition is_cancellation_requested (s : TK) (tid : pystr) : bool :=
  match dict_get (tk_tasks s) tid with
  | Some t => bool_decide (status t ∈ [CANCELLING; CANCELLED])
  | None => false
  end.

(** [TaskWorkIndex.register] with the tracker's callbacks. *)
Definition register_work (queue_name : pystr) (md : option QueueTaskMetadata) : ST TK bool := fun s =>
  let '(accepted, w) := register (Some (is_cancellation_requested s)) (tk_work s) queue_name md in
  (Ok accepted, set_work w s).

(** [_finalize_before_ack]. *)
Definition finalize_before_ack (now : stamp) (md : QueueTaskMetadata) : ST TK unit :=
  finalize_task now (md_task_id md) (truthy_opt (Some (md_account_id md))) (truthy_opt (Some (md_user_id md))).

(** [TaskWorkIndex.prepare_ack] and [discard] with the tracker's callbacks. *)
Definition ack_work (now : stamp) (queue_name : pystr) (md : QueueTaskMetadata)
    : ST TK (option QueueTaskMetadata) :=
  prepare_ack (fun _ => None) (fun _ => []) tk_work set_work (Some (finalize_before_ack now)) queue_name (Meta md).

Definition discard_work (now : stamp) (queue_name : pystr) (md : QueueTaskMetadata) : ST TK unit :=
  discard (fun _ => None) (fun _ => []) tk_work set_work (Some (finalize_before_ack now)) queue_name (Meta md).

Definition fail_work (tid err : pystr) : ST TK unit :=
  st_modify (fun s => set_work (record_failure (tk_work s) tid err) s).

(** [register_running_task]: whether the coroutine is interrupted at once. *)
Definition register_running_task (tid : pystr) (active : N) : ST TK bool := fun s =>
  let '(cancelled, w) := register_active (Some (is_cancellation_requested s)) (tk_work s) tid active in
  (Ok cancelled, set_work w s).

Definition unregister_running_task (now : stamp) (tid : pystr) (active : N) : ST TK unit :=
  _ ← st_modify (fun s => set_work (unregister_active (tk_work s) tid active) s);
  finalize_task now tid None None.

(** [restore_work_tasks]. *)
Fixpoint restore_work_tasks (now : stamp) (owners : list (pystr * (pystr * pystr))) : ST TK unit :=
  match owners with
  | [] => mret tt
  | (tid, (acc, usr)) :: rest => _ ← get now tid (Some acc) (Some usr); restore_work_tasks now rest
  end.
End tracker_ops.
