(* ===== verification/TaskTrackerTheory.v ===== *)
(** Theorems about the task tracker ([TaskTracker]).

    The tracker is proved against the interface [TaskStoreOk]: records are kept per
    owner and id, and a store call that raises changes nothing.  The central notion is
    coherence, the agreement of cache and store; every operation keeps it and moves
    every record only forwards in its lifecycle. *)
From Stdlib Require Import NArith ZArith.
From S2P Require Import Prelude PyStr PyVal TaskRecord WorkIndex TaskTracker.

Open Scope N_scope.

(** ** What the tracker relies on *)

Class TaskStoreOk (St : Type) `{!TaskStore St} := {
  ts_view : St -> pystr -> pystr -> pystr -> option pydict;
  ts_create_ok : forall s t s', ts_create s t = (Ok tt, s') ->
    exists a x, account_id t = Some a /\ user_id t = Some x /\ a <> [] /\ x <> [] /\
      forall a' x' i', ts_view s' a' x' i' =
        if decide ((a', x', i') = (a, x, task_id t)) then Some (task_to_payload t) else ts_view s a' x' i';
  ts_update_ok : forall s t s', ts_update s t = (Ok tt, s') ->
    exists a x, account_id t = Some a /\ user_id t = Some x /\ a <> [] /\ x <> [] /\
      forall a' x' i', ts_view s' a' x' i' =
        if decide ((a', x', i') = (a, x, task_id t)) then Some (task_to_payload t) else ts_view s a' x' i';
  ts_create_err : forall s t e s', ts_create s t = (Err e, s') -> forall a x i, ts_view s' a x i = ts_view s a x i;
  ts_update_err : forall s t e s', ts_update s t = (Err e, s') -> forall a x i, ts_view s' a x i = ts_view s a x i;
  ts_get_ok : forall s i a x o, ts_get s i (Some a) (Some x) = Ok o -> a <> [] -> x <> [] -> o = ts_view s a x i;
  ts_get_ownerless : forall s i a x o, ts_get s i (Some a) x = Ok o -> (a = [] \/ default [] x = []) -> o = None;
  ts_list_ok : forall s a x l, ts_list s a (Some x) = Ok l -> a <> [] -> x <> [] ->
    forall p, p ∈ l <-> exists i, ts_view s a x i = Some p;
  ts_list_ownerless : forall s a x l, ts_list s a x = Ok l -> (a = [] \/ default [] x = []) -> l = [];
  ts_delete_ok : forall s i a x s', ts_delete s i a (Some x) = (Ok tt, s') -> a <> [] -> x <> [] ->
    forall a' x' i', ts_view s' a' x' i' = if decide ((a', x', i') = (a, x, i)) then None else ts_view s a' x' i';
  ts_delete_err : forall s i a x e s', ts_delete s i a x = (Err e, s') -> forall a' x' i', ts_view s' a' x' i' = ts_view s a' x' i' }.

(** ** Steps of one record *)

Inductive status_step : TaskStatus -> TaskStatus -> Prop :=
| ss_work s s' : s ∈ [PENDING; RUNNING] -> s' = s \/ s' = RUNNING -> status_step s s'
| ss_cancel s : s ∈ [PENDING; RUNNING] -> status_step s CANCELLING
| ss_cancelled : status_step CANCELLING CANCELLED
| ss_done s s' : s ∈ [PENDING; RUNNING] -> s' ∈ [COMPLETED; FAILED] -> status_step s s'.

(** One write of a task record. *)
Record advance (t t' : TaskRecord) : Prop := {
  adv_id : task_id t' = task_id t;
  adv_type : task_type t' = task_type t;
  adv_created : created_at t' = created_at t;
  adv_account : account_id t' = account_id t;
  adv_user : user_id t' = user_id t;
  adv_meta : meta t' = meta t;
  adv_time : (updated_at t < updated_at t')%Z;
  adv_status : status_step (status t) (status t');
  adv_error : is_Some (error t) -> error t' = error t;
  adv_auth : auth t' = auth t \/ auth t' = [];
  adv_terminal : is_terminal (status t') = true -> auth t' = [] }.

Lemma nextafter_gt t : (t < nextafter t)%Z.
Proof.
  unfold nextafter.
  pose proof (Z.pow_pos_nonneg 2 (Z.max 0 (Z.log2 (if (0 <=? t)%Z then t else (- t - 1)%Z) - 52))). lia.
Qed.

Lemma next_updated_gt now t : (updated_at t < next_updated_at now t)%Z.
Proof. unfold next_updated_at. pose proof (nextafter_gt (updated_at t)). lia. Qed.

Lemma note_error_fields e t :
  task_id (note_error e t) = task_id t /\ task_type (note_error e t) = task_type t
  /\ created_at (note_error e t) = created_at t /\ account_id (note_error e t) = account_id t
  /\ user_id (note_error e t) = user_id t /\ meta (note_error e t) = meta t
  /\ status (note_error e t) = status t /\ auth (note_error e t) = auth t
  /\ updated_at (note_error e t) = updated_at t /\ task_result (note_error e t) = task_result t
  /\ resource_id (note_error e t) = resource_id t
  /\ (is_Some (error t) -> error (note_error e t) = error t).
Proof.
  unfold note_error. destruct e; destruct (error t) eqn:E; split_and!; try done; intros [? [=]].
Qed.

Lemma started_advance now stg t : status t ∈ [PENDING; RUNNING] -> advance t (started now stg t).
Proof.
  intros H. split; unfold started; destruct stg; cbn; try done; auto using next_updated_gt.
  all: first [by apply ss_work; [|right] | intros Ht; by vm_compute in Ht].
Qed.

Lemma staged_advance now stg t : status t ∈ [PENDING; RUNNING] -> advance t (staged now stg t).
Proof.
  intros H. split; cbn; try done; auto using next_updated_gt.
  - apply ss_work; [done|by left].
  - intros Ht. rewrite !elem_of_cons, elem_of_nil in H. destruct_or! H; rewrite ?H in Ht; done.
Qed.

Lemma outcome_advance now res err rid we t : status t ∈ [PENDING; RUNNING] -> advance t (outcome now res err rid we t).
Proof.
  intros H. unfold outcome.
  set (t1 := match res with Some _ => _ | None => _ end).
  assert (task_id t1 = task_id t /\ task_type t1 = task_type t /\ created_at t1 = created_at t
          /\ account_id t1 = account_id t /\ user_id t1 = user_id t /\ meta t1 = meta t
          /\ status t1 = status t /\ error t1 = error t) as (E1 & E2 & E3 & E4 & E5 & E6 & E7 & E8).
  { unfold t1. by destruct res, rid. }
  pose proof (note_error_fields err t1) as N1. pose proof (note_error_fields (truthy_opt we) (note_error err t1)) as N2.
  destruct_and! N1. destruct_and! N2. split; cbn; auto using next_updated_gt; try congruence.
  - replace (status (note_error _ _)) with (status t) by congruence. apply ss_work; [done|by left].
  - intros Hs. transitivity (error (note_error err t1)); [naive_solver congruence|naive_solver congruence].
Qed.

Lemma cancelling_advance now t : status t ∈ [PENDING; RUNNING] -> advance t (cancelling now t).
Proof.
  intros H. split; cbn; try done; auto using next_updated_gt.
  by apply ss_cancel.
Qed.

Lemma finalized_advance now we t t' :
  is_active (status t) = true -> finalized now we t = Some t' ->
  advance t t' /\ is_terminal (status t') = true.
Proof.
  intros Ha H. unfold finalized in H.
  set (t1 := if bool_decide (status t = CANCELLING) then t else note_error (truthy_opt we) t) in H.
  assert (task_id t1 = task_id t /\ task_type t1 = task_type t /\ created_at t1 = created_at t
          /\ account_id t1 = account_id t /\ user_id t1 = user_id t /\ meta t1 = meta t
          /\ status t1 = status t /\ (is_Some (error t) -> error t1 = error t)) as (E1 & E2 & E3 & E4 & E5 & E6 & E7 & E8).
  { unfold t1. clear H; destruct (bool_decide (status t = CANCELLING)); [by split_and!|]. pose proof (note_error_fields (truthy_opt we) t). naive_solver. }
  rewrite E7 in H.
  assert (forall s, status_step (status t) s -> is_terminal s = true ->
            t' = without_auth (with_updated_at (next_updated_at now t) (with_stage (Some (status_value s)) (with_status s t1))) ->
            advance t t' /\ is_terminal (status t') = true) as Hfin.
  { intros s Hs Hterm ->. split; [|done]. split; cbn; auto using next_updated_gt. }
  assert (status t <> CANCELLING -> status t ∈ [PENDING; RUNNING]) as Hpr.
  { intros Hne. apply bool_decide_eq_true in Ha. unfold ACTIVE_STATUSES in Ha. rewrite !elem_of_cons in *. naive_solver. }
  clearbody t1. destruct (decide (status t = CANCELLING)) as [Hc|Hc].
  - rewrite bool_decide_eq_true_2 in H by done. injection H as <-.
    apply (Hfin CANCELLED); [rewrite Hc; apply ss_cancelled|by vm_compute|done].
  - rewrite bool_decide_eq_false_2 in H by done. destruct (bool_decide (is_Some (error t1))).
    + injection H as <-. apply (Hfin FAILED); [apply ss_done; [auto|set_solver]|by vm_compute|done].
    + destruct (bool_decide (is_Some (task_result t1))); [|done]. injection H as <-.
      apply (Hfin COMPLETED); [apply ss_done; [auto|set_solver]|by vm_compute|done].
Qed.

(** ** Coherence *)

Section coherence.
Context {St : Type} `{!TaskStore St} `{!TaskStoreOk St}.
Abbreviation TK := (tracker St).
Abbreviation view s := (ts_view (tk_store s)).

(** The record [t] is the stored record of its owner. *)
Definition stored (s : TK) (t : TaskRecord) : Prop :=
  exists a x, account_id t = Some a /\ user_id t = Some x /\ a <> [] /\ x <> []
              /\ view s a x (task_id t) = Some (task_to_payload t).

(** The cache has distinct keys and agrees with the store, and the store holds
    records under their own owner and id. *)
Record coherent (s : TK) : Prop := {
  co_nodup : NoDup (fst <$> tk_tasks s);
  co_cache : forall i t, dict_get (tk_tasks s) i = Some t -> task_id t = i /\ stored s t;
  co_store : forall a x i p, view s a x i = Some p ->
    exists t, p = task_to_payload t /\ task_id t = i /\ account_id t = Some a /\ user_id t = Some x
              /\ a <> [] /\ x <> [] }.

(** Stored records only move forwards. *)
Definition advances (s s' : TK) : Prop :=
  forall a x i t, view s a x i = Some (task_to_payload t) ->
    exists t', view s' a x i = Some (task_to_payload t') /\ rtc advance t t'.

(** Nothing changes but that terminal records may be gone. *)
Definition prunes (s s' : TK) : Prop :=
  forall a x i, view s' a x i = view s a x i
    \/ view s' a x i = None
       /\ exists t, view s a x i = Some (task_to_payload t) /\ is_terminal (status t) = true.

Lemma payload_inj t t' : task_to_payload t = task_to_payload t' -> t = t'.
Proof.
  intros H. assert (Ok t = Ok t') as [= ->]; [|done].
  rewrite <- (payload_roundtrip 0 t), <- (payload_roundtrip 0 t'). by rewrite H.
Qed.

Lemma terminal_no_step t t' : is_terminal (status t) = true -> ~ advance t t'.
Proof.
  intros Ht Ha. apply bool_decide_eq_true in Ht. unfold TERMINAL_STATUSES in Ht.
  pose proof (adv_status _ _ Ha) as Hs. rewrite !elem_of_cons, elem_of_nil in Ht.
  inversion Hs as [s0 s1 H ? E1 E2|s0 H E1 E2|E1 E2|s0 s1 H ? E1 E2]; subst;
    try rewrite <- E1 in Ht; rewrite ?elem_of_cons, ?elem_of_nil in *; naive_solver congruence.
Qed.

Lemma terminal_rtc t t' : is_terminal (status t) = true -> rtc advance t t' -> t' = t.
Proof. intros Ht H. inversion H; [done|]. by edestruct terminal_no_step. Qed.

#[export] Instance advances_preorder : PreOrder advances.
Proof.
  split.
  - intros s a x i t H. exists t. split; [done|apply rtc_refl].
  - intros s1 s2 s3 H1 H2 a x i t Hv. destruct (H1 _ _ _ _ Hv) as (t2 & Hv2 & R2).
    destruct (H2 _ _ _ _ Hv2) as (t3 & Hv3 & R3). exists t3. split; [done|]. by transitivity t2.
Qed.

#[export] Instance prunes_preorder : PreOrder prunes.
Proof.
  split.
  - intros s a x i. by left.
  - intros s1 s2 s3 H1 H2 a x i. destruct (H2 a x i) as [->|[Hn (t & Hv & Ht)]]; [apply H1|].
    right. split; [done|]. exists t. split; [|done].
    destruct (H1 a x i) as [<-|[Hn' _]]; [done|congruence].
Qed.

(** ** Triples *)

(** Partial correctness on coherent states: coherence is kept, the stored records
    change as [R] allows, and a normal return establishes [Q]. *)
Definition triple {A} (R : relation TK) (P : TK -> Prop) (m : ST TK A) (Q : A -> TK -> Prop) : Prop :=
  forall s, coherent s -> P s ->
    coherent (snd (m s)) /\ R s (snd (m s)) /\ forall a, fst (m s) = Ok a -> Q a (snd (m s)).

Section rules.
Context (R : relation TK) `{!PreOrder R}.

Lemma triple_bind {A B} P (m : ST TK A) Q (f : A -> ST TK B) Q' :
  triple R P m Q -> (forall a, triple R (Q a) (f a) Q') -> triple R P (m ≫= f) Q'.
Proof.
  intros Hm Hf s Hc HP. rewrite st_bind_unfold. destruct (Hm s Hc HP) as (Hc1 & HR1 & HQ).
  destruct (m s) as [[a|e] s1]; cbn in *; [|done].
  destruct (Hf a s1 Hc1 (HQ a eq_refl)) as (Hc2 & HR2 & HQ2). split_and!; [done| |done].
  by transitivity s1.
Qed.

Lemma triple_ret {A} P (a : A) (Q : A -> TK -> Prop) : (forall s, P s -> Q a s) -> triple R P (mret a) Q.
Proof. intros H s Hc HP. split_and!; [done|reflexivity|]. cbn. intros a' [= <-]. auto. Qed.

Lemma triple_gets {A} P (f : TK -> A) (Q : A -> TK -> Prop) :
  (forall s, P s -> Q (f s) s) -> triple R P (st_gets f) Q.
Proof. intros H s Hc HP. split_and!; [done|reflexivity|]. cbn. intros a' [= <-]. auto. Qed.

Lemma triple_raise {A} P e (Q : A -> TK -> Prop) : triple R P (st_raise e) Q.
Proof. intros s Hc HP. split_and!; [done|reflexivity|]. done. Qed.

Lemma triple_lift {A} P (r : result A) : triple R P (st_lift r) (fun a s => P s /\ r = Ok a).
Proof. intros s Hc HP. split_and!; [done|reflexivity|]. done. Qed.

Lemma triple_pre {A} (P P' : TK -> Prop) (m : ST TK A) Q :
  triple R P' m Q -> (forall s, P s -> P' s) -> triple R P m Q.
Proof. intros H HP s Hc Hs. apply H; auto. Qed.

Lemma triple_post {A} P (m : ST TK A) (Q Q' : A -> TK -> Prop) :
  triple R P m Q -> (forall a s, Q a s -> Q' a s) -> triple R P m Q'.
Proof. intros H HQ s Hc Hs. destruct (H s Hc Hs) as (? & ? & ?). auto. Qed.
End rules.

(** ** Cache updates *)

Lemma stored_ext s s' t : tk_store s' = tk_store s -> stored s t -> stored s' t.
Proof. intros E. unfold stored. by rewrite E. Qed.

Lemma coherent_work w s : coherent s -> coherent (set_work w s).
Proof. intros [H1 H2 H3]. by split. Qed.

Lemma coherent_put s t :
  coherent s -> stored s t -> coherent (set_tasks (fun d => dict_set d (task_id t) t) s).
Proof.
  intros [H1 H2 H3] Hs. split; cbn; [by apply dict_set_nodup| |done].
  intros i t'. rewrite dict_set_get. destruct (seqb (task_id t) i) eqn:E.
  - intros [= <-]. apply seqb_true in E. done.
  - apply H2.
Qed.

Lemma coherent_pop s i : coherent s -> coherent (set_tasks (fun d => dict_pop d i) s).
Proof.
  intros [H1 H2 H3]. split; cbn; [by apply dict_pop_nodup| |done].
  intros j t. rewrite dict_pop_get by done. destruct (seqb i j); [done|]. apply H2.
Qed.

Lemma coherent_merge s loaded :
  coherent s -> Forall (stored s) loaded -> coherent (set_tasks (fun d => foldl merge_one d loaded) s).
Proof.
  intros Hc Hl. revert s Hc Hl. induction loaded as [|t l IH]; intros s Hc Hl; [by destruct s|].
  apply Forall_cons in Hl as [Ht Hl]. cbn [foldl].
  assert (coherent (set_tasks (fun d => merge_one d t) s)) as Hc1.
  { pose proof (coherent_put s t Hc Ht) as Hp.
    unfold set_tasks, merge_one in *. destruct (dict_get _ _) as [c|]; [|done].
    destruct (_ <? _)%Z; [done|]. by destruct s. }
  apply (IH (set_tasks (fun d => merge_one d t) s) Hc1). done.
Qed.

(** A live record: what [_load_for_update] returns. *)
Definition live (tid : pystr) (t : TaskRecord) (s : TK) : Prop :=
  task_id t = tid /\ stored s t /\ (dict_get (tk_tasks s) tid = None \/ dict_get (tk_tasks s) tid = Some t).

(** ** Reads *)

(** A method that only reads. *)
Definition reads {A} (m : ST TK A) (Q : A -> TK -> Prop) : Prop :=
  forall s, coherent s -> snd (m s) = s /\ forall a, fst (m s) = Ok a -> Q a s.

Lemma triple_reads R `{!PreOrder R} {A} P (m : ST TK A) Q :
  reads m Q -> triple R P m (fun a s => P s /\ Q a s).
Proof. intros H s Hc HP. destruct (H s Hc) as [-> HQ]. split_and!; [done|reflexivity|]. auto. Qed.

Lemma load_from_store_reads now tid acc usr :
  reads (load_from_store now tid acc usr) (fun o s =>
    match o with
    | Some t => task_id t = tid /\ stored s t /\ account_id t = Some acc /\ user_id t = usr
    | None => forall x, usr = Some x -> acc <> [] -> x <> [] -> view s acc x tid = None
    end).
Proof.
  intros s Hc. split; [done|]. intros o. unfold load_from_store. cbn [fst].
  destruct (ts_get (tk_store s) tid (Some acc) usr) as [p|e] eqn:Eg; [|done]. cbn [mbind result_bind].
  destruct (decide (acc = [] \/ default [] usr = [])) as [Ho|Ho].
  { apply ts_get_ownerless in Eg as ->; [|done]. intros [= <-]. intros x -> Ha Hx. by destruct Ho. }
  destruct usr as [x|]; [|destruct Ho; by right]. cbn in Ho.
  apply ts_get_ok in Eg; [|tauto|tauto]. destruct p as [p|].
  - symmetry in Eg. destruct (co_store _ Hc _ _ _ _ Eg) as (t & -> & Hi & Ha & Hx & _ & _).
    rewrite payload_roundtrip. cbn [mbind result_bind]. intros [= <-].
    split_and!; [done| |done|done]. exists acc, x. rewrite Hi. tauto.
  - intros [= <-]. intros x' [= <-] _ _. by symmetry.
Qed.

Lemma load_all_reads now acc usr :
  reads (load_all_from_store now acc usr) (fun l s =>
    Forall (stored s) l
    /\ forall x t, usr = Some x -> acc <> [] -> x <> [] ->
         (t ∈ l <-> exists i, view s acc x i = Some (task_to_payload t))).
Proof.
  intros s Hc. split; [done|]. intros l. unfold load_all_from_store. cbn [fst].
  destruct (ts_list (tk_store s) acc usr) as [ps|e] eqn:Eg; [|done]. cbn [mbind result_bind].
  destruct (decide (acc = [] \/ default [] usr = [])) as [Ho|Ho].
  { apply ts_list_ownerless in Eg as ->; [|done]. intros [= <-]. split; [constructor|].
    intros x t -> Ha Hx. by destruct Ho. }
  destruct usr as [x|]; [|destruct Ho; by right]. cbn in Ho.
  pose proof (ts_list_ok _ _ _ _ Eg ltac:(tauto) ltac:(tauto)) as Hin. clear Eg.
  intros Hl.
  assert (forall t, t ∈ l <-> task_to_payload t ∈ ps) as Hmem.
  { assert (forall p, p ∈ ps -> exists t, p = task_to_payload t) as Hps.
    { intros p (i & Hv)%Hin. destruct (co_store _ Hc _ _ _ _ Hv) as (t & -> & _). eauto. }
    clear Hin. revert l Hl. induction ps as [|p ps IH]; intros l; cbn [records_from_payloads].
    - intros [= <-] t. by rewrite !elem_of_nil.
    - destruct (Hps p) as [t0 ->]; [left|]. rewrite payload_roundtrip. cbn [mbind result_bind].
      destruct (records_from_payloads now ps) as [ts|]; [|done]. cbn [mbind result_bind].
      intros [= <-] t. rewrite !elem_of_cons, (IH ltac:(intros; apply Hps; by right) ts eq_refl).
      split; intros [?|?]; auto; left; [by subst|by apply payload_inj]. }
  split.
  - apply Forall_forall. intros t Ht%Hmem. apply Hin in Ht as (i & Hv).
    destruct (co_store _ Hc _ _ _ _ Hv) as (t' & ->%payload_inj & Hi & Ha & Hx & ? & ?).
    exists acc, x. rewrite Hi. auto.
  - intros x' t [= <-] _ _. rewrite Hmem. apply Hin.
Qed.

Lemma load_for_update_reads now tid acc usr :
  reads (load_for_update now tid acc usr) (fun o s =>
    forall t, o = Some t -> live tid t s /\ matches_owner t acc usr = true).
Proof.
  intros s Hc. unfold load_for_update. rewrite st_bind_unfold. cbn [cached_task st_gets].
  destruct (dict_get (tk_tasks s) tid) as [t|] eqn:Ec.
  - split; [done|]. intros a [= <-] t'. destruct (matches_owner t acc usr) eqn:Em; [|done].
    intros [= <-]. split; [|done]. destruct (co_cache _ Hc _ _ Ec). split_and!; auto.
  - destruct acc as [a|]; [|split; [done|]; intros ? [= <-] ?; done].
    destruct usr as [x|]; [|split; [done|]; intros ? [= <-] ?; done].
    destruct (load_from_store_reads now tid a (Some x) s Hc) as [E HQ]. split; [done|].
    intros o Ho t ->. specialize (HQ _ Ho). destruct HQ as (Hi & Hs & Ha & Hx).
    split; [split_and!; auto|]. unfold matches_owner. by rewrite Ha, Hx, !bool_decide_eq_true_2.
Qed.

(** ** Writes *)

Abbreviation triv := (fun _ _ => True).
Abbreviation any := (fun _ => True).

Lemma key_of_stored s t a x : stored s t -> account_id t = Some a -> user_id t = Some x ->
  view s a x (task_id t) = Some (task_to_payload t) /\ a <> [] /\ x <> [].
Proof. intros (a' & x' & Ha & Hx & ? & ? & Hv) Ha' Hx'. by simplify_eq. Qed.

(** Cache and store after a successful write of [t']. *)
Lemma write_coherent s st t' a x :
  coherent s -> account_id t' = Some a -> user_id t' = Some x -> a <> [] -> x <> [] ->
  (forall c, dict_get (tk_tasks s) (task_id t') = Some c -> account_id c = Some a /\ user_id c = Some x) ->
  (forall a' x' i', ts_view st a' x' i' =
     if decide ((a', x', i') = (a, x, task_id t')) then Some (task_to_payload t') else view s a' x' i') ->
  coherent (set_tasks (fun d => dict_set d (task_id t') t') (set_store st s)).
Proof.
  intros Hc Ha Hx Hane Hxne Hcached Hview. split; cbn.
  - apply dict_set_nodup, Hc.
  - intros i t. rewrite dict_set_get. destruct (seqb (task_id t') i) eqn:E.
    + intros [= <-]. apply seqb_true in E. split; [done|]. exists a, x. split_and!; auto.
      cbn. by rewrite Hview, decide_True.
    + apply seqb_false in E. intros Hg. destruct (co_cache _ Hc _ _ Hg) as (Hi & a0 & x0 & ? & ? & ? & ? & Hv).
      split; [done|]. exists a0, x0. split_and!; auto. cbn. rewrite Hview, decide_False; [done|]. congruence.
  - intros a0 x0 i p. rewrite Hview. case_decide as E; [|apply (co_store _ Hc)]. injection E as -> -> ->.
    intros [= <-]. exists t'. by split_and!.
Qed.

(** *** Relations an update respects *)

(** The change of the stored records that one accepted update makes, or none. *)
Class WriteRel (R : relation TK) : Prop := {
  wr_preorder :: PreOrder R;
  wr_same : forall s s', (forall a x i, view s' a x i = view s a x i) -> R s s';
  wr_write : forall s s' a x t t', advance t t' -> view s a x (task_id t) = Some (task_to_payload t) ->
    (forall a' x' i', view s' a' x' i' = if decide ((a', x', i') = (a, x, task_id t)) then Some (task_to_payload t') else view s a' x' i') ->
    R s s' }.

#[export] Instance advances_write : WriteRel advances.
Proof.
  split; [apply _| |].
  - intros s s' H a x i t Hv. exists t. rewrite H. split; [done|apply rtc_refl].
  - intros s s' a x t t' Hadv Hv Hview a0 x0 i0 t0 Hv0. rewrite Hview. case_decide as E.
    + injection E as -> -> ->. exists t'. split; [done|]. rewrite Hv in Hv0. apply (inj Some), payload_inj in Hv0 as <-. by apply rtc_once.
    + exists t0. split; [done|apply rtc_refl].
Qed.

(** The same records are stored. *)
Definition same_keys (s s' : TK) : Prop := forall a x i, is_Some (view s' a x i) <-> is_Some (view s a x i).

#[export] Instance same_keys_write : WriteRel same_keys.
Proof.
  split; [split| |].
  - by intros s a x i.
  - intros s1 s2 s3 H1 H2 a x i. etransitivity; [apply H2|apply H1].
  - intros s s' H a x i. by rewrite H.
  - intros s s' a x t t' _ Hv Hview a0 x0 i0. rewrite Hview. case_decide as E; [|done]. injection E as -> -> ->. by rewrite Hv.
Qed.

Lemma advances_same s s' : tk_store s' = tk_store s -> advances s s'.
Proof. intros E. apply wr_same. intros a x i. by rewrite E. Qed.

Lemma prunes_same s s' : tk_store s' = tk_store s -> prunes s s'.
Proof. intros E a x i. left. by rewrite E. Qed.

Lemma merge_triple R `{!PreOrder R} loaded :
  (forall s s', tk_store s' = tk_store s -> R s s') ->
  triple R (fun s => Forall (stored s) loaded) (merge_loaded_tasks loaded) triv.
Proof. intros HR s Hc Hl. split_and!; [by apply coherent_merge|by apply HR|done]. Qed.

(** Loading all of an owner's records into the cache. *)
Lemma refresh_triple R `{!PreOrder R} now acc usr :
  (forall s s', tk_store s' = tk_store s -> R s s') ->
  triple R any (loaded ← load_all_from_store now acc usr; merge_loaded_tasks loaded) triv.
Proof.
  intros HR. eapply triple_bind; [apply _|apply (triple_reads _ _ _ _ (load_all_reads now acc usr))|].
  intros l. eapply triple_pre; [by apply merge_triple|]. by intros s (_ & Hl & _).
Qed.

Section updates.
Context {R : relation TK} `{!WriteRel R}.

Lemma write_same s s' : tk_store s' = tk_store s -> R s s'.
Proof. intros E. apply wr_same. intros a x i. by rewrite E. Qed.

Lemma persist_update_triple tid t t' :
  advance t t' ->
  triple R (live tid t) (persist_update t')
    (fun _ s => live tid t' s /\ dict_get (tk_tasks s) tid = Some t').
Proof.
  intros Hadv s Hc (Hi & Hst & Hcache). unfold persist_update. rewrite st_bind_unfold.
  unfold store_update. destruct (ts_update (tk_store s) t') as [[[]|e] st] eqn:Eu; cbn.
  - destruct (ts_update_ok _ _ _ Eu) as (a & x & Ha & Hx & Hane & Hxne & Hview).
    pose proof (adv_account _ _ Hadv) as Eacc. pose proof (adv_user _ _ Hadv) as Eusr. pose proof (adv_id _ _ Hadv) as Eid.
    destruct (key_of_stored s t a x Hst) as (Hv & _ & _); [congruence|congruence|].
    assert (coherent (set_tasks (fun d => dict_set d (task_id t') t') (set_store st s))) as Hc'.
    { eapply write_coherent; try done. intros c Hcc. rewrite Eid, Hi in Hcc.
      destruct Hcache as [Hn|Hs]; [congruence|]. rewrite Hs in Hcc. injection Hcc as <-. split; congruence. }
    split_and!; [done| |].
    + eapply wr_write; [exact Hadv|exact Hv|]. by rewrite <- Eid.
    + intros _ _. assert (dict_get (dict_set (tk_tasks s) (task_id t') t') tid = Some t') as Hget.
      { rewrite dict_set_get, Eid, Hi. by rewrite (proj2 (seqb_true tid tid) eq_refl). }
      split; [|done]. split_and!; [congruence| |by right].
      apply (co_cache _ Hc' tid). done.
  - pose proof (ts_update_err _ _ _ _ Eu) as Hview. split_and!; [|by apply wr_same|done].
    destruct Hc as [H1 H2 H3]. split; cbn; [done| |].
    + intros i t0 Hg. destruct (H2 i t0 Hg) as (? & a & x & ? & ? & ? & ? & Hv). split; [done|].
      exists a, x. split_and!; auto. cbn. by rewrite Hview.
    + intros a x i p. rewrite Hview. apply H3.
Qed.

Lemma publish_triple t : triple R (fun s => stored s t) (publish_task t) triv.
Proof. intros s Hc Hl. split_and!; [by apply coherent_put|by apply write_same|done]. Qed.

Lemma set_work_triple P f : triple R P (st_modify (fun s => set_work (f s) s)) triv.
Proof. intros s Hc _. split_and!; [by apply coherent_work|by apply write_same|done]. Qed.

(** [task ← load_for_update ...; if status in (...): persist_update ...]. *)
Lemma load_then {A} now tid acc usr (f : option TaskRecord -> ST TK A) :
  (forall t, triple R (live tid t) (f (Some t)) triv) -> triple R any (f None) triv ->
  triple R any (task ← load_for_update now tid acc usr; f task) triv.
Proof.
  intros Hs Hn. eapply triple_bind; [apply _|apply (triple_reads _ _ _ _ (load_for_update_reads now tid acc usr))|].
  intros [t|]; cbn.
  - eapply triple_pre; [apply Hs|]. intros s [_ H]. by apply (H t).
  - eapply triple_pre; [apply Hn|]. done.
Qed.

Lemma skip_triple P : triple R P (mret tt) triv.
Proof. apply (triple_ret R). done. Qed.

(** ** Operations *)

Lemma start_triple now tid acc usr stg : triple R any (start now tid acc usr stg) triv.
Proof.
  apply load_then; [|apply skip_triple]. intros t. case_bool_decide; [|apply skip_triple].
  eapply triple_post; [by apply persist_update_triple, started_advance|done].
Qed.

Lemma update_stage_triple now tid stg acc usr : triple R any (update_stage now tid stg acc usr) triv.
Proof.
  apply load_then; [|apply skip_triple]. intros t. case_bool_decide; [|apply skip_triple].
  eapply triple_post; [by apply persist_update_triple, staged_advance|done].
Qed.

Lemma finalize_triple now tid acc usr : triple R any (finalize_task now tid acc usr) triv.
Proof.
  unfold finalize_task. eapply triple_bind; [apply _|by apply (triple_gets _ _ _ triv)|]. intros [|]; [apply skip_triple|].
  apply load_then; [|apply skip_triple]. intros t. destruct (is_active (status t)) eqn:Ha; [|apply skip_triple].
  eapply triple_bind; [apply _|by apply (triple_gets _ _ _ (fun _ => live tid t))|]. intros [|]; [apply skip_triple|].
  eapply triple_bind; [apply _|by apply (triple_gets _ _ _ (fun _ => live tid t))|]. intros we.
  destruct (finalized now we t) as [t'|] eqn:Ef; [|apply skip_triple].
  eapply triple_bind; [apply _| |intros; apply set_work_triple].
  eapply triple_post; [by eapply persist_update_triple, finalized_advance|done].
Qed.

Lemma record_outcome_triple now now' tid acc usr res err rid :
  triple R any (record_outcome now now' tid acc usr res err rid) triv.
Proof.
  apply load_then.
  - intros t. eapply triple_bind; [apply _| |intros; apply finalize_triple].
    case_bool_decide; [|apply skip_triple].
    eapply triple_bind; [apply _|by apply (triple_gets _ _ _ (fun _ => live tid t))|]. intros we.
    eapply triple_post; [by apply persist_update_triple, outcome_advance|done].
  - eapply triple_bind; [apply _|apply skip_triple|intros; apply finalize_triple].
Qed.

Lemma cancel_triple now now' tid acc usr : triple R any (cancel now now' tid acc usr) triv.
Proof.
  unfold cancel. set (finish := st_gets _ ≫= _).
  assert (triple R any finish triv) as Hfin.
  { unfold finish. eapply triple_bind; [apply _|by apply (triple_gets _ _ _ triv)|]. intros i.
    eapply triple_bind; [apply _|apply finalize_triple|]. intros ?.
    eapply triple_bind; [apply _|by apply (triple_gets _ _ _ triv)|]. intros t. by apply (triple_ret R). }
  apply load_then; [|by apply (triple_ret R)]. intros t.
  destruct (bool_decide (status t = CANCELLED)) eqn:E1; [by apply (triple_ret R)|].
  destruct (bool_decide (status t = CANCELLING)) eqn:E2; [by eapply triple_pre|].
  destruct (negb (mem _ _)); [by apply (triple_raise R)|].
  destruct (is_terminal (status t)) eqn:E3; [by apply (triple_raise R)|].
  eapply triple_bind; [apply _| |intros; by eapply triple_pre].
  eapply triple_post; [apply persist_update_triple, cancelling_advance|done].
  apply bool_decide_eq_false in E1, E2, E3. unfold TERMINAL_STATUSES in E3.
  destruct (status t); set_solver.
Qed.

Lemma load_from_store_triple now tid acc usr P :
  triple R P (load_from_store now tid acc usr) (fun o s => P s /\
    match o with
    | Some t => task_id t = tid /\ stored s t /\ account_id t = Some acc /\ user_id t = usr
    | None => forall x, usr = Some x -> acc <> [] -> x <> [] -> view s acc x tid = None
    end).
Proof. apply (triple_reads R). apply load_from_store_reads. Qed.

Lemma get_triple now tid acc usr : triple R any (get now tid acc usr) triv.
Proof.
  unfold get. eapply triple_bind; [apply _|by apply (triple_gets _ _ _ triv)|].
  intros [t|]; [by apply (triple_ret R)|]. destruct acc as [a|]; [|by apply (triple_ret R)].
  eapply triple_bind; [apply _|apply load_from_store_triple|]. intros [t|]; cbn; [|by apply (triple_ret R)].
  eapply triple_bind; [apply _|eapply triple_pre; [apply (merge_triple R); apply write_same|]|].
  { intros s (_ & _ & Hs & _). by constructor. }
  intros ?. eapply triple_bind; [apply _|by apply (triple_gets _ _ _ triv)|]. intros o. by apply (triple_ret R).
Qed.

Lemma get_task_auth_triple now tid acc usr : triple R any (get_task_auth now tid acc usr) triv.
Proof.
  unfold get_task_auth. eapply triple_bind; [apply _|apply (triple_lift R)|]. intros ?.
  eapply triple_bind; [apply _|by apply (triple_gets _ _ _ triv)|]. intros o.
  eapply (triple_bind _ _ _ triv); [|intros; by apply (triple_ret R)].
  destruct o as [t|]; [by apply (triple_ret R)|].
  eapply triple_bind; [apply _|apply load_from_store_triple|]. intros [t|]; cbn; [|by apply (triple_ret R)].
  eapply triple_bind; [apply _|eapply triple_pre; [apply publish_triple|]|].
  { by intros s (_ & _ & Hs & _). }
  intros ?. by apply (triple_ret R).
Qed.

Lemma has_running_triple now ty rid acc usr : triple R any (has_running now ty rid acc usr) triv.
Proof.
  unfold has_running. eapply (triple_bind _ _ _ triv).
  - destruct acc; [apply (refresh_triple R); apply write_same|apply skip_triple].
  - intros ?. eapply triple_bind; [apply _|by apply (triple_gets _ _ _ triv)|]. intros l. by apply (triple_ret R).
Qed.

Lemma list_tasks_triple now ty stat rid limit acc usr inc :
  triple R any (list_tasks now ty stat rid limit acc usr inc) triv.
Proof.
  unfold list_tasks. eapply (triple_bind _ _ _ triv).
  - destruct acc; [apply (refresh_triple R); apply write_same|apply skip_triple].
  - intros ?. eapply triple_bind; [apply _|by apply (triple_gets _ _ _ triv)|]. intros l. by apply (triple_ret R).
Qed.

End updates.

Lemma persist_create_triple t a x :
  account_id t = Some a -> user_id t = Some x ->
  triple advances (fun s => dict_get (tk_tasks s) (task_id t) = None /\ view s a x (task_id t) = None)
    (persist_create t) (fun _ s => dict_get (tk_tasks s) (task_id t) = Some t).
Proof.
  intros Ha Hx s Hc (Hn & Hnv). unfold persist_create. rewrite st_bind_unfold.
  unfold store_create. destruct (ts_create (tk_store s) t) as [[[]|e] st] eqn:Eu; cbn.
  - destruct (ts_create_ok _ _ _ Eu) as (a' & x' & Ha' & Hx' & Hane & Hxne & Hview).
    simplify_eq. split_and!.
    + eapply write_coherent; try done. intros c. by rewrite Hn.
    + intros a0 x0 i0 t0 Hv0. cbn. rewrite Hview. case_decide as E; [|exists t0; by split].
      injection E as -> -> ->. congruence.
    + intros _ _. rewrite dict_set_get. by rewrite (proj2 (seqb_true _ _) eq_refl).
  - pose proof (ts_create_err _ _ _ _ Eu) as Hview. split_and!; [|intros a0 x0 i t0; cbn; rewrite Hview; intros; exists t0; by split|done].
    destruct Hc as [H1 H2 H3]. split; cbn; [done| |].
    + intros i t0 Hg. destruct (H2 i t0 Hg) as (? & a0 & x0 & ? & ? & ? & ? & Hv). split; [done|].
      exists a0, x0. split_and!; auto. cbn. by rewrite Hview.
    + intros a0 x0 i p. rewrite Hview. apply H3.
Qed.

(** An id no stored record has. *)
Definition fresh_id (i : pystr) (s : TK) : Prop := forall a x, view s a x i = None.

Lemma fresh_not_cached s i : coherent s -> fresh_id i s -> dict_get (tk_tasks s) i = None.
Proof.
  intros Hc Hf. destruct (dict_get (tk_tasks s) i) as [t|] eqn:E; [|done].
  destruct (co_cache _ Hc _ _ E) as (<- & a & x & _ & _ & _ & _ & Hv). by rewrite Hf in Hv.
Qed.

Lemma create_on_owner_triple now t a x check :
  account_id t = Some a -> user_id t = Some x -> a <> [] -> x <> [] ->
  triple advances (fun s => check = true \/ fresh_id (task_id t) s) (create_on_owner now t check) triv.
Proof.
  intros Ha Hx Hane Hxne. unfold create_on_owner. set (fresh := persist_create t ≫= _).
  assert (triple advances (fun s => dict_get (tk_tasks s) (task_id t) = None /\ view s a x (task_id t) = None) fresh triv) as Hfresh.
  { unfold fresh. eapply triple_bind; [apply _|by apply persist_create_triple|]. intros ?. by apply (triple_ret advances). }
  destruct check; cbn [negb].
  - eapply triple_bind; [apply _| |].
    { apply (triple_gets _ _ _ (fun o s => dict_get (tk_tasks s) (task_id t) = o)). done. }
    intros [e|].
    + destruct (negb _); [by apply (triple_raise advances)|by apply (triple_ret advances)].
    + eapply triple_bind; [apply _|apply load_from_store_triple|]. rewrite Ha. cbn [from_option id]. intros [e|].
      * eapply triple_bind; [apply _|eapply triple_pre; [apply publish_triple|]|].
        { by intros s (_ & _ & Hs & _). }
        intros ?. by apply (triple_ret advances).
      * eapply triple_pre; [apply Hfresh|]. intros s (Hn & Hv). auto.
  - intros s Hc [H|H]; [done|]. apply Hfresh; [done|]. split; [by apply fresh_not_cached|apply H].
Qed.

Lemma validate_owner_ok acc usr r : validate_owner acc usr = Ok r -> acc <> [] /\ usr <> [].
Proof.
  unfold validate_owner. destruct (nonempty acc && nonempty usr) eqn:E; [|done].
  apply andb_true_iff in E as [?%nonempty_true ?%nonempty_true]. done.
Qed.

Lemma create_triple uuid now_c now_u ty rid acc usr tid m a :
  triple advances (fresh_id uuid) (create uuid now_c now_u ty rid acc usr tid m a) triv.
Proof.
  unfold create. eapply triple_bind; [apply _|apply (triple_lift advances)|]. intros r.
  destruct (validate_owner acc usr) as [r'|] eqn:Ev; [|intros s ? [_ [=]]].
  apply validate_owner_ok in Ev as [Hane Hxne].
  eapply triple_pre; [by eapply create_on_owner_triple|]. intros s [Hf _]. cbn.
  destruct tid as [i|]; [left; by rewrite bool_decide_eq_true_2 by eauto|by right].
Qed.

Lemma create_if_no_running_triple uuid now_c now_u ty rid acc usr :
  triple advances (fresh_id uuid) (create_if_no_running uuid now_c now_u ty rid acc usr) triv.
Proof.
  unfold create_if_no_running. eapply triple_bind; [apply _|apply (triple_lift advances)|]. intros r.
  destruct (validate_owner acc usr) as [r'|] eqn:Ev; [|intros s ? [_ [=]]].
  eapply triple_bind; [apply _|apply (triple_reads _ _ _ _ (load_all_reads now_c acc (Some usr)))|]. intros l.
  eapply (triple_bind _ _ _ (fun _ => fresh_id uuid)).
  { intros s Hc ([Hf _] & Hl & _). split_and!; [by apply coherent_merge|by apply advances_same|done]. }
  intros ?. eapply triple_bind; [apply _|by apply (triple_gets _ _ _ (fun _ => fresh_id uuid))|]. intros tasks.
  destruct (existsb _ tasks); [by apply (triple_ret advances)|].
  eapply (triple_bind _ _ _ triv); [|intros; by apply (triple_ret advances)].
  intros s Hc Hf.
  destruct (persist_create_triple (MkTask uuid ty PENDING now_c now_u (Some rid) (Some acc) (Some usr) [] None None None [])
              acc usr eq_refl eq_refl s Hc) as (? & ? & _); [|done].
  split; [by apply fresh_not_cached|apply Hf].
Qed.

(** ** Deletion *)

Lemma stored_terminal s a x t : stored s t -> account_id t = Some a -> user_id t = Some x ->
  is_active (status t) = false ->
  exists t', view s a x (task_id t) = Some (task_to_payload t') /\ is_terminal (status t') = true.
Proof.
  intros Hs Ha Hx Hact. exists t. split; [by destruct (key_of_stored s t a x Hs Ha Hx)|].
  destruct (status t); by vm_compute in Hact |- *.
Qed.

(** Deleting the stored record of a cached terminal task, and then the cached one. *)
Lemma delete_cached s t i a x st :
  coherent s -> dict_get (tk_tasks s) i = Some t -> account_id t = Some a -> user_id t = Some x ->
  is_active (status t) = false -> ts_delete (tk_store s) i a (Some x) = (Ok tt, st) ->
  coherent (set_tasks (fun d => dict_pop d i) (set_store st s))
  /\ prunes s (set_tasks (fun d => dict_pop d i) (set_store st s)).
Proof.
  intros Hc Hg Ha Hx Hact Hd. destruct (co_cache _ Hc _ _ Hg) as [Hi Hs].
  destruct (key_of_stored s t a x Hs Ha Hx) as (Hv & Hane & Hxne).
  pose proof (ts_delete_ok _ _ _ _ _ Hd Hane Hxne) as Hview. split.
  - split; cbn.
    + apply dict_pop_nodup, Hc.
    + intros j t'. rewrite dict_pop_get by apply Hc. destruct (seqb i j) eqn:E; [done|]. apply seqb_false in E.
      intros Hg'. destruct (co_cache _ Hc _ _ Hg') as (Hi' & a0 & x0 & ? & ? & ? & ? & Hv').
      split; [done|]. exists a0, x0. split_and!; auto. cbn. rewrite Hview, decide_False; [done|]. congruence.
    + intros a0 x0 i0 p. rewrite Hview. case_decide; [done|]. apply (co_store _ Hc).
  - intros a0 x0 i0. cbn. rewrite Hview. case_decide as E; [|by left]. injection E as -> -> ->. right. split; [done|].
    rewrite <- Hi. by eapply stored_terminal.
Qed.

Lemma delete_err_coherent s st i a x e :
  coherent s -> ts_delete (tk_store s) i a x = (Err e, st) -> coherent (set_store st s) /\ prunes s (set_store st s).
Proof.
  intros Hc Hd. pose proof (ts_delete_err _ _ _ _ _ _ Hd) as Hview. split.
  - destruct Hc as [H1 H2 H3]. split; cbn; [done| |].
    + intros j t Hg. destruct (H2 j t Hg) as (? & a0 & x0 & ? & ? & ? & ? & Hv). split; [done|].
      exists a0, x0. split_and!; auto. cbn. by rewrite Hview.
    + intros a0 x0 i0 p. rewrite Hview. apply H3.
  - intros a0 x0 i0. left. cbn. apply Hview.
Qed.

Lemma matches_owner_some t a x : matches_owner t (Some a) (Some x) = true -> account_id t = Some a /\ user_id t = Some x.
Proof. unfold matches_owner. by intros [?%bool_decide_eq_true ?%bool_decide_eq_true]%andb_true_iff. Qed.

Lemma delete_tasks_triple acc usr tasks n : triple prunes any (delete_tasks acc usr tasks n) triv.
Proof.
  revert n. induction tasks as [|task tasks IH]; intros n s Hc _; cbn [delete_tasks].
  { split_and!; [done|reflexivity|done]. }
  rewrite st_bind_unfold. cbn [cached_task st_gets]. destruct (dict_get (tk_tasks s) (task_id task)) as [c|] eqn:Eg; [|by apply IH].
  destruct (negb (matches_owner c (Some acc) (Some usr))) eqn:Em; [by apply IH|].
  apply negb_false_iff, matches_owner_some in Em as [Ha Hx].
  rewrite st_bind_unfold. cbn [st_gets].
  destruct (is_active (status c) || has_work (tk_work s) (task_id task) None) eqn:Eb.
  { split_and!; [done|reflexivity|done]. }
  apply orb_false_iff in Eb as [Hact _]. rewrite st_bind_unfold. unfold store_delete.
  destruct (ts_delete (tk_store s) (task_id task) acc (Some usr)) as [[[]|e] st] eqn:Ed.
  - destruct (delete_cached s c (task_id task) acc usr st) as [Hc1 Hp1]; try done.
    rewrite !st_bind_unfold. cbn [st_modify].
    destruct (IH (S n) (set_work (clear_failure (tk_work s) (task_id task))
                (set_tasks (fun d => dict_pop d (task_id task)) (set_store st s)))) as (Hc2 & Hp2 & _);
      [by apply coherent_work|done|].
    split_and!; [exact Hc2| |done]. etransitivity; [exact Hp1|]. exact Hp2.
  - destruct (delete_err_coherent _ _ _ _ _ _ Hc Ed) as [? ?]. split_and!; done.
Qed.

Lemma delete_user_tasks_triple now acc usr : triple prunes any (delete_user_tasks now acc usr) triv.
Proof.
  unfold delete_user_tasks. eapply triple_bind; [apply _|apply (triple_lift prunes)|]. intros ?.
  eapply triple_bind; [apply _|apply (triple_reads _ _ _ _ (load_all_reads now acc (Some usr)))|]. intros l.
  eapply (triple_bind _ _ _ triv).
  { eapply triple_pre; [apply (merge_triple prunes); apply prunes_same|]. by intros s (_ & Hl & _). }
  intros ?. eapply triple_bind; [apply _|by apply (triple_gets _ _ _ triv)|]. intros tasks.
  destruct (existsb _ _); [by apply (triple_raise prunes)|apply delete_tasks_triple].
Qed.

Lemma expired_inactive t now : is_expired t now = true -> is_active (status t) = false.
Proof. unfold is_expired. by destruct (status t). Qed.

Lemma delete_expired_task_triple now tid : triple prunes any (delete_expired_task now tid) triv.
Proof.
  intros s Hc _. unfold delete_expired_task.
  destruct (dict_get (tk_tasks s) tid) as [t|] eqn:Eg; [|split_and!; [done|reflexivity|done]].
  destruct (negb (is_expired t now)) eqn:Ee; [split_and!; [done|reflexivity|done]|].
  apply negb_false_iff, expired_inactive in Ee.
  destruct (truthy_opt (account_id t)) as [a|] eqn:Ea; [|split_and!; [done|reflexivity|done]].
  destruct (truthy_opt (user_id t)) as [x|] eqn:Ex; [|split_and!; [done|reflexivity|done]].
  assert (account_id t = Some a) by (destruct (account_id t) as [b|]; cbn in Ea; [destruct (nonempty b)|]; congruence).
  assert (user_id t = Some x) by (destruct (user_id t) as [b|]; cbn in Ex; [destruct (nonempty b)|]; congruence).
  unfold store_delete. destruct (ts_delete (tk_store s) tid a (Some x)) as [[[]|e] st] eqn:Ed.
  - destruct (delete_cached s t tid a x st) as [? ?]; try done.
  - destruct (delete_err_coherent _ _ _ _ _ _ Hc Ed) as [? ?]. split_and!; done.
Qed.

Lemma delete_expired_triple now ids : triple prunes any (delete_expired now ids) triv.
Proof.
  induction ids as [|i ids IH]; cbn [delete_expired]; [by apply (triple_ret prunes)|].
  eapply triple_bind; [apply _|apply delete_expired_task_triple|]. intros ?. apply IH.
Qed.

Lemma evict_triple now : triple prunes any (evict_expired now) triv.
Proof.
  unfold evict_expired. eapply triple_bind; [apply _|by apply (triple_gets _ _ _ triv)|]. intros ids.
  eapply triple_bind; [apply _|apply delete_expired_triple|]. intros ? s Hc _. cbn.
  split_and!; [|by apply prunes_same|done]. unfold set_tasks, trim_tasks.
  destruct (MAX_TASKS <? _); [|by destruct s].
  generalize (take (length (tk_tasks s) - N.to_nat MAX_TASKS) (sort_oldest (tk_tasks s))). intros l.
  revert s Hc. induction l as [|kv l IH]; intros s Hc; cbn [foldl]; [by destruct s|].
  apply (IH (set_tasks (fun d => dict_pop d (fst kv)) s)). by apply coherent_pop.
Qed.

(** ** Queue work *)

Lemma set_work_keeps w s : coherent s -> coherent (set_work w s) /\ advances s (set_work w s).
Proof. intros Hc. split; [by apply coherent_work|by apply advances_same]. Qed.

Lemma register_work_triple q md : triple advances any (register_work q md) triv.
Proof.
  intros s Hc _. unfold register_work. destruct (register _ _ _ _) as [b w]. cbn.
  destruct (set_work_keeps w s Hc). done.
Qed.

Lemma register_running_triple tid a : triple advances any (register_running_task tid a) triv.
Proof.
  intros s Hc _. unfold register_running_task. destruct (register_active _ _ _ _) as [b w]. cbn.
  destruct (set_work_keeps w s Hc). done.
Qed.

Lemma unregister_running_triple now tid a : triple advances any (unregister_running_task now tid a) triv.
Proof. unfold unregister_running_task. eapply triple_bind; [apply _|apply set_work_triple|]. intros ?. apply finalize_triple. Qed.

Lemma ack_work_triple now q md : triple advances any (ack_work now q md) triv.
Proof.
  intros s Hc _. unfold ack_work, prepare_ack. cbn [metadata_of].
  destruct (remove_work (tk_work s) q md) as [[removed idle] w]. destruct (set_work_keeps w s Hc) as [Hc1 Ha1].
  destruct removed; cbn [negb]; [|done]. destruct idle; cbn [negb]; [|done].
  destruct (finalize_triple (R := advances) now (md_task_id md) (truthy_opt (Some (md_account_id md))) (truthy_opt (Some (md_user_id md)))
              (set_work w s) Hc1 I) as (Hc2 & Ha2 & _). unfold finalize_before_ack.
  destruct (finalize_task _ _ _ _ (set_work w s)) as [[[]|e] s2]; cbn in *.
  - split_and!; [done| |done]. by transitivity (set_work w s).
  - destruct (set_work_keeps (rollback_ack (tk_work s2) q md) s2 Hc2) as [Hc3 Ha3].
    split_and!; [done| |done]. transitivity (set_work w s); [done|]. by transitivity s2.
Qed.

Lemma discard_work_triple now q md : triple advances any (discard_work now q md) triv.
Proof.
  intros s Hc _. unfold discard_work, discard. cbn [metadata_of].
  destruct (remove_work (tk_work s) q md) as [[removed idle] w]. destruct (set_work_keeps w s Hc) as [Hc1 Ha1].
  destruct idle; [|done].
  destruct (finalize_triple (R := advances) now (md_task_id md) (truthy_opt (Some (md_account_id md))) (truthy_opt (Some (md_user_id md)))
              (set_work w s) Hc1 I) as (Hc2 & Ha2 & _). unfold finalize_before_ack.
  split_and!; [done| |done]. by transitivity (set_work w s).
Qed.

Lemma restore_triple now owners : triple advances any (restore_work_tasks now owners) triv.
Proof.
  induction owners as [|[i [a x]] owners IH]; cbn [restore_work_tasks]; [apply skip_triple|].
  eapply triple_bind; [apply _|apply get_triple|]. intros ?. apply IH.
Qed.

(** ** Runs *)

(** One operation of the tracker; creations draw ids that are not in use. *)
Inductive tstep (s : TK) : TK -> Prop :=
| st_create uuid nc nu ty rid acc usr tid m a :
    fresh_id uuid s -> tstep s (snd (create uuid nc nu ty rid acc usr tid m a s))
| st_create_if uuid nc nu ty rid acc usr :
    fresh_id uuid s -> tstep s (snd (create_if_no_running uuid nc nu ty rid acc usr s))
| st_start now tid acc usr stg : tstep s (snd (start now tid acc usr stg s))
| st_stage now tid stg acc usr : tstep s (snd (update_stage now tid stg acc usr s))
| st_complete now now' tid res acc usr rid : tstep s (snd (complete now now' tid res acc usr rid s))
| st_fail now now' tid err acc usr : tstep s (snd (fail now now' tid err acc usr s))
| st_cancel now now' tid acc usr : tstep s (snd (cancel now now' tid acc usr s))
| st_get now tid acc usr : tstep s (snd (get now tid acc usr s))
| st_auth now tid acc usr : tstep s (snd (get_task_auth now tid acc usr s))
| st_list now ty stat rid limit acc usr inc : tstep s (snd (list_tasks now ty stat rid limit acc usr inc s))
| st_has now ty rid acc usr : tstep s (snd (has_running now ty rid acc usr s))
| st_register q md : tstep s (snd (register_work q md s))
| st_ack now q md : tstep s (snd (ack_work now q md s))
| st_discard now q md : tstep s (snd (discard_work now q md s))
| st_fail_work tid err : tstep s (snd (fail_work tid err s))
| st_run tid a : tstep s (snd (register_running_task tid a s))
| st_stop now tid a : tstep s (snd (unregister_running_task now tid a s))
| st_restore now owners : tstep s (snd (restore_work_tasks now owners s))
| st_delete_user now acc usr : tstep s (snd (delete_user_tasks now acc usr s))
| st_evict now : tstep s (snd (evict_expired now s)).

Lemma triple_advances {A} (m : ST TK A) s : triple advances any m triv -> coherent s ->
  coherent (snd (m s)) /\ (advances s (snd (m s)) \/ prunes s (snd (m s))).
Proof. intros H Hc. destruct (H s Hc I) as (? & ? & _). auto. Qed.

Lemma triple_prunes {A} (m : ST TK A) s : triple prunes any m triv -> coherent s ->
  coherent (snd (m s)) /\ (advances s (snd (m s)) \/ prunes s (snd (m s))).
Proof. intros H Hc. destruct (H s Hc I) as (? & ? & _). auto. Qed.

Lemma tstep_sound s s' : coherent s -> tstep s s' -> coherent s' /\ (advances s s' \/ prunes s s').
Proof.
  intros Hc Hs. destruct Hs.
  1: by edestruct create_triple as (? & ? & _); eauto.
  1: by edestruct create_if_no_running_triple as (? & ? & _); eauto.
  17-18: apply triple_prunes; [|done]; first [apply delete_user_tasks_triple|apply evict_triple].
  all: apply triple_advances; [|done].
  all: first [apply start_triple|apply update_stage_triple|apply record_outcome_triple|apply cancel_triple
    |apply get_triple|apply get_task_auth_triple|apply list_tasks_triple|apply has_running_triple
    |apply register_work_triple|apply ack_work_triple|apply discard_work_triple|apply set_work_triple
    |apply register_running_triple|apply unregister_running_triple|apply restore_triple].
Qed.

Lemma empty_coherent st : (forall a x i, ts_view st a x i = None) -> coherent (MkTracker [] st empty_index).
Proof. intros H. split; cbn; [constructor|done|]. intros a x i p. by rewrite H. Qed.
End coherence.

(** What a run has made of a stored task: its record is there and has advanced, or there
    was a state of the run in which the record had reached a terminal status, and the
    next step removed it. *)
Definition settled_or_gone {St} `{!TaskStore St} `{!TaskStoreOk St} (s s' : tracker St) (a x i : pystr) (t : TaskRecord) : Prop :=
  (exists t', ts_view (tk_store s') a x i = Some (task_to_payload t') /\ rtc advance t t')
  \/ exists s1 s2 t', rtc tstep s s1 /\ tstep s1 s2 /\ rtc tstep s2 s'
       /\ ts_view (tk_store s1) a x i = Some (task_to_payload t') /\ rtc advance t t'
       /\ is_terminal (status t') = true /\ ts_view (tk_store s2) a x i = None.

Lemma run_coherent {St} `{!TaskStore St} `{!TaskStoreOk St} (s s' : tracker St) : rtc tstep s s' -> coherent s -> coherent s'.
Proof. induction 1 as [|s1 s2 s' Hs _ IH]; [done|]. intros Hc. apply IH. by destruct (tstep_sound _ _ Hc Hs). Qed.

