(* ===== verification/TaskOutcome.v ===== *)
(** Behaviour of single tracker operations ([TaskTracker]): completion, the last
    acknowledgement, cancellation, ownership, uniqueness of running tasks, listing and
    eviction; and an in-memory store on which the theorems are run. *)
From Stdlib Require Import NArith ZArith.
From S2P Require Import Prelude PyStr PyVal TaskRecord WorkIndex TaskTracker TaskTrackerTheory.

Open Scope N_scope.

(** ** A store for concrete runs *)

Module MapStore.
Abbreviation store := (gmap (pystr * pystr * pystr) pydict).

Definition write (s : store) (t : TaskRecord) : result unit * store :=
  match truthy_opt (account_id t), truthy_opt (user_id t) with
  | Some a, Some x => (Ok tt, <[(a, x, task_id t) := task_to_payload t]> s)
  | _, _ => (Err ValueError, s)
  end.

(** The records of one owner. *)
Definition owned (s : store) (a x : pystr) : list pydict :=
  snd <$> filter (fun kv => fst (fst kv) = (a, x)) (map_to_list s).

#[global] Instance store_ops : TaskStore store := {
  ts_create := write;
  ts_update := write;
  ts_get s i a x := match truthy_opt a, truthy_opt x with Some a, Some x => Ok (s !! (a, x, i)) | _, _ => Ok None end;
  ts_list s a x := match truthy_opt (Some a), truthy_opt x with Some a, Some x => Ok (owned s a x) | _, _ => Ok [] end;
  ts_delete s i a x := match x with Some x => (Ok tt, delete (a, x, i) s) | None => (Ok tt, s) end }.

Lemma truthy_some o a : truthy_opt o = Some a <-> o = Some a /\ a <> [].
Proof.
  destruct o as [b|]; cbn; [|split; [done|by intros [? _]]].
  destruct (nonempty b) eqn:E.
  - apply nonempty_true in E. split; [intros [= <-]; done|by intros [[= <-] _]].
  - apply nonempty_false in E as ->. split; [done|]. intros [[= <-] ?]. done.
Qed.

Lemma truthy_none o : truthy_opt o = None <-> default [] o = [].
Proof.
  destruct o as [b|]; cbn; [|done]. destruct (nonempty b) eqn:E.
  - apply nonempty_true in E. done.
  - by apply nonempty_false in E as ->.
Qed.

Lemma write_ok s t s' : write s t = (Ok tt, s') ->
  exists a x, account_id t = Some a /\ user_id t = Some x /\ a <> [] /\ x <> [] /\
    forall a' x' i', s' !! (a', x', i') =
      if decide ((a', x', i') = (a, x, task_id t)) then Some (task_to_payload t) else s !! (a', x', i').
Proof.
  unfold write. destruct (truthy_opt (account_id t)) as [a|] eqn:Ea; [|done].
  destruct (truthy_opt (user_id t)) as [x|] eqn:Ex; [|done]. intros [= <-].
  apply truthy_some in Ea as [? ?], Ex as [? ?]. exists a, x. split_and!; auto. intros a' x' i'.
  rewrite lookup_insert. repeat case_decide; congruence.
Qed.

Lemma write_err s t e s' : write s t = (Err e, s') -> s' = s.
Proof.
  unfold write. destruct (truthy_opt (account_id t)), (truthy_opt (user_id t)); by intros [= ? <-] || done.
Qed.

#[global] Instance store_ok : TaskStoreOk store.
Proof.
  refine {| ts_view := fun (s : store) a x i => s !! (a, x, i) |}.
  - apply write_ok.
  - apply write_ok.
  - intros s t e s' H a x i. by apply write_err in H as ->.
  - intros s t e s' H a x i. by apply write_err in H as ->.
  - intros s i a x o H Ha Hx. cbn [ts_get store_ops] in H.
    rewrite (proj2 (truthy_some (Some a) a)), (proj2 (truthy_some (Some x) x)) in H by done. by injection H as <-.
  - intros s i a x o H Hn. cbn [ts_get store_ops] in H. destruct (truthy_opt (Some a)) as [a'|] eqn:Ea; [|by injection H as <-].
    destruct (truthy_opt x) as [x'|] eqn:Ex; [|by injection H as <-].
    apply truthy_some in Ea as [[= <-] ?], Ex as [-> ?]. by destruct Hn.
  - intros s a x l H Ha Hx p. cbn [ts_list store_ops] in H.
    rewrite (proj2 (truthy_some (Some a) a)), (proj2 (truthy_some (Some x) x)) in H by done. injection H as <-.
    unfold owned. rewrite list_elem_of_fmap. split.
    + intros ([[[a' x'] i] p'] & -> & [[= -> ->] Hm]%list_elem_of_filter). exists i. by apply elem_of_map_to_list.
    + intros (i & Hi). exists ((a, x, i), p). split; [done|]. apply list_elem_of_filter. split; [done|].
      by apply elem_of_map_to_list.
  - intros s a x l H Hn. cbn [ts_list store_ops] in H. destruct (truthy_opt (Some a)) as [a'|] eqn:Ea; [|by injection H as <-].
    destruct (truthy_opt x) as [x'|] eqn:Ex; [|by injection H as <-].
    apply truthy_some in Ea as [[= <-] ?], Ex as [-> ?]. by destruct Hn.
  - intros s i a x s' [= <-] _ _ a' x' i'. rewrite lookup_delete. repeat case_decide; congruence.
  - intros s i a [x|] e s' [= ? ?].
Defined.

(** One running task of alice, one unit of its work in a queue. *)
Definition rec : TaskRecord :=
  MkTask (u "t1") (u "session_commit") RUNNING 5 6 (Some (u "s1")) (Some (u "acme")) (Some (u "alice"))
    [] None None None [(u "user_key", VStr (u "k"))].

Definition md : QueueTaskMetadata := MkMeta (u "t1") (u "w1") (u "acme") (u "alice").

Definition state0 : tracker store :=
  MkTracker [(u "t1", rec)] {[(u "acme", u "alice", u "t1") := task_to_payload rec]} empty_index.

Lemma rec_stored : forall w, stored (MkTracker (tk_tasks state0) (tk_store state0) w) rec.
Proof. intros w. exists (u "acme"), (u "alice"). split_and!; by vm_compute. Qed.

Lemma state0_coherent w : coherent (MkTracker (tk_tasks state0) (tk_store state0) w).
Proof.
  split.
  - apply NoDup_singleton.
  - intros i t. cbn [tk_tasks state0 dict_get]. destruct (seqb (u "t1") i) eqn:E; [|done]. apply seqb_true in E as <-.
    intros [= <-]. split; [done|apply rec_stored].
  - intros a x i p. cbn [tk_store state0 ts_view store_ok]. intros [[= <- <- <-] <-]%lookup_singleton_Some.
    exists rec. split_and!; try done; by vm_compute.
Qed.
End MapStore.


(** ** Single operations *)

Section outcomes.
Context {St : Type} `{!TaskStore St} `{!TaskStoreOk St}.
Abbreviation TK := (tracker St).

(** The store accepts every record that has an owner. *)
Definition store_accepts : Prop :=
  forall st t, (exists a x, account_id t = Some a /\ user_id t = Some x /\ a <> [] /\ x <> []) ->
    exists st', ts_update st t = (Ok tt, st').

Lemma load_cached now tid acc usr (s : TK) t :
  dict_get (tk_tasks s) tid = Some t ->
  load_for_update now tid acc usr s = (Ok (if matches_owner t acc usr then Some t else None), s).
Proof. intros H. unfold load_for_update. rewrite st_bind_unfold. cbn [cached_task st_gets]. by rewrite H. Qed.

(** A write the store accepts. *)
Lemma persist_update_run tid t t' (s : TK) :
  store_accepts -> coherent s -> live tid t s -> advance t t' ->
  exists s', persist_update t' s = (Ok tt, s') /\ tk_work s' = tk_work s /\ coherent s'
    /\ dict_get (tk_tasks s') tid = Some t' /\ stored s' t'.
Proof.
  intros Hacc Hc Hl Hadv. destruct (persist_update_triple tid t t' Hadv s Hc Hl) as (Hc' & _ & Hq).
  destruct Hl as (Hi & (a & x & Ha & Hx & Hane & Hxne & _) & _).
  unfold persist_update, store_update in *. rewrite st_bind_unfold in *.
  destruct (Hacc (tk_store s) t') as [st' E].
  { exists a, x. rewrite (adv_account _ _ Hadv), (adv_user _ _ Hadv). auto. }
  rewrite E in *. cbn in *. destruct (Hq tt eq_refl) as ((_ & Hs & _) & Hg).
  eexists. split; [done|]. auto.
Qed.

(** The terminal record of a task whose work is done. *)
Lemma finalize_run now tid acc usr (s : TK) t t' :
  store_accepts -> coherent s -> dict_get (tk_tasks s) tid = Some t -> matches_owner t acc usr = true ->
  has_work (tk_work s) tid None = false -> is_active (status t) = true ->
  finalized now (failure (tk_work s) tid) t = Some t' ->
  exists s', finalize_task now tid acc usr s = (Ok tt, s')
    /\ tk_work s' = clear_failure (tk_work s) tid /\ coherent s'
    /\ dict_get (tk_tasks s') tid = Some t' /\ stored s' t'.
Proof.
  intros Hacc Hc Hg Hm Hw Hact Hf. destruct (finalized_advance _ _ _ _ Hact Hf) as [Hadv _].
  destruct (co_cache _ Hc _ _ Hg) as [Hi Hst].
  destruct (persist_update_run tid t t' s Hacc Hc) as (s1 & E & Hwk & Hc1 & Hg1 & Hs1); [split_and!; auto|done|].
  unfold finalize_task. rewrite st_bind_unfold. cbn [st_gets]. rewrite Hw, st_bind_unfold, (load_cached _ _ _ _ _ _ Hg), Hm.
  rewrite Hact, !st_bind_unfold. cbn [st_gets]. rewrite Hw, st_bind_unfold. cbn [st_gets]. rewrite Hf, st_bind_unfold, E.
  cbn [st_modify]. eexists. split; [done|]. cbn. rewrite Hwk. split_and!; [done|by apply coherent_work|done|done].
Qed.

Lemma finalize_busy now tid acc usr (s : TK) :
  has_work (tk_work s) tid None = true -> finalize_task now tid acc usr s = (Ok tt, s).
Proof. intros Hw. unfold finalize_task. rewrite st_bind_unfold. cbn [st_gets]. by rewrite Hw. Qed.

Lemma outcome_fields now res rid we t :
  error t = None -> truthy_opt we = None ->
  let t1 := outcome now (Some res) None rid we t in
  status t1 = status t /\ task_result t1 = Some res /\ error t1 = None /\ auth t1 = [].
Proof.
  intros He Hw. unfold outcome. rewrite Hw. cbn [note_error].
  destruct rid; cbn; by rewrite ?He.
Qed.

Lemma finalized_result now t r we :
  status t ∈ [PENDING; RUNNING] -> error t = None -> task_result t = Some r ->
  exists t', finalized now we t = Some t' /\ task_result t' = Some r /\ auth t' = []
    /\ match truthy_opt we with
       | Some e => status t' = FAILED /\ error t' = Some (sanitize_error e) /\ stage t' = Some (u "failed")
       | None => status t' = COMPLETED /\ error t' = None /\ stage t' = Some (u "completed")
       end.
Proof.
  intros Hs He Hr. unfold finalized.
  assert (status t <> CANCELLING) as Hnc by (intros E; rewrite E in Hs; set_solver).
  rewrite (bool_decide_eq_false_2 (status t = CANCELLING)) by done. unfold note_error. rewrite He.
  destruct (truthy_opt we) as [e|].
  - cbn [with_error status error task_result]. rewrite (bool_decide_eq_false_2 (status t = CANCELLING)) by done.
    rewrite bool_decide_eq_true_2 by (by eexists). eexists. by split_and!.
  - rewrite bool_decide_eq_false_2 by done. rewrite bool_decide_eq_false_2 by (rewrite He; by intros [? [=]]).
    rewrite bool_decide_eq_true_2 by (rewrite Hr; by eexists). eexists. by split_and!.
Qed.

(** Completing a task whose queue work is done is immediate and durable: the call
    returns, and the record in cache and store is terminal, carries the result and no
    longer carries credentials. *)
Theorem complete_idle (now now' : stamp) (tid : pystr) (res : pydict) (acc usr rid : option pystr)
    (s : TK) (t : TaskRecord)
    (Hacc : store_accepts) (Hc : coherent s) (Hg : dict_get (tk_tasks s) tid = Some t)
    (Hm : matches_owner t acc usr = true) (Hst : status t ∈ [PENDING; RUNNING])
    (Hw : has_work (tk_work s) tid None = false) (Hf : failure (tk_work s) tid = None) (He : error t = None) :
  exists s' t', complete now now' tid res acc usr rid s = (Ok tt, s')
    /\ dict_get (tk_tasks s') tid = Some t' /\ stored s' t' /\ coherent s'
    /\ status t' = COMPLETED /\ task_result t' = Some res /\ auth t' = []
    /\ (updated_at t < updated_at t')%Z.
Proof.
  destruct (co_cache _ Hc _ _ Hg) as [Hi Hs].
  pose proof (outcome_advance now (Some res) None rid (failure (tk_work s) tid) t Hst) as Hadv1.
  destruct (outcome_fields now res rid (failure (tk_work s) tid) t) as (E1 & E2 & E3 & E4); [done|by rewrite Hf|].
  set (t1 := outcome now (Some res) None rid (failure (tk_work s) tid) t) in *.
  destruct (persist_update_run tid t t1 s Hacc Hc) as (s1 & Er & Hwk & Hc1 & Hg1 & Hs1); [by split_and!; auto|done|].
  destruct (finalized_result now' t1 res (failure (tk_work s1) tid)) as (t2 & Hfin & Hr2 & Ha2 & Hst2); [by rewrite E1|done|done|].
  rewrite Hwk, Hf in Hst2. cbn in Hst2. destruct Hst2 as (Hst2 & _).
  assert (is_active (status t1) = true) as Hact1.
  { rewrite E1. clear -Hst. rewrite !elem_of_cons, elem_of_nil in Hst. destruct Hst as [->|[->|[]]]; by vm_compute. }
  assert (matches_owner t1 acc usr = true) as Hm1.
  { unfold matches_owner in *. by rewrite (adv_account _ _ Hadv1), (adv_user _ _ Hadv1). }
  destruct (finalize_run now' tid acc usr s1 t1 t2) as (s2 & Ef & _ & Hc2 & Hg2 & Hs2); try done; [by rewrite Hwk|].
  exists s2, t2. split_and!; try done.
  - unfold complete, record_outcome. rewrite st_bind_unfold, (load_cached _ _ _ _ _ _ Hg), Hm, st_bind_unfold.
    rewrite bool_decide_eq_true_2 by done. rewrite st_bind_unfold. cbn [st_gets]. fold t1. by rewrite Er.
  - destruct (finalized_advance _ _ _ _ Hact1 Hfin) as [Hadv2 _].
    pose proof (adv_time _ _ Hadv1). pose proof (adv_time _ _ Hadv2). lia.
Qed.


(** A task belongs to its owner: on a cached task of another owner no operation
    has an effect or reveals anything. *)
Theorem foreign_owner_frame (now now' : stamp) (tid : pystr) (a x : pystr) (s : TK) (t : TaskRecord)
    (stg : option pystr) (st err : pystr) (res : pydict) (rid : option pystr)
    (Hg : dict_get (tk_tasks s) tid = Some t) (Hm : matches_owner t (Some a) (Some x) = false) :
  start now tid (Some a) (Some x) stg s = (Ok tt, s)
  /\ update_stage now tid st (Some a) (Some x) s = (Ok tt, s)
  /\ complete now now' tid res (Some a) (Some x) rid s = (Ok tt, s)
  /\ fail now now' tid err (Some a) (Some x) s = (Ok tt, s)
  /\ cancel now now' tid (Some a) (Some x) s = (Ok (None, ∅), s)
  /\ get now tid (Some a) (Some x) s = (Ok None, s)
  /\ (a <> [] -> x <> [] -> get_task_auth now tid a x s = (Ok [], s)).
Proof.
  assert (forall n, load_for_update n tid (Some a) (Some x) s = (Ok None, s)) as Hl.
  { intros n. by rewrite (load_cached _ _ _ _ _ _ Hg), Hm. }
  assert (forall n, finalize_task n tid (Some a) (Some x) s = (Ok tt, s)) as Hfin.
  { intros n. unfold finalize_task. rewrite st_bind_unfold. cbn [st_gets].
    destruct (has_work _ _ _); [done|]. rewrite st_bind_unfold. by rewrite Hl. }
  split_and!.
  - unfold start. by rewrite st_bind_unfold, Hl.
  - unfold update_stage. by rewrite st_bind_unfold, Hl.
  - unfold complete, record_outcome. rewrite st_bind_unfold, Hl, st_bind_unfold. apply Hfin.
  - unfold fail, record_outcome. rewrite st_bind_unfold, Hl, st_bind_unfold. apply Hfin.
  - unfold cancel. by rewrite st_bind_unfold, Hl.
  - unfold get. rewrite st_bind_unfold. cbn [cached_task st_gets]. rewrite Hg. cbn. by rewrite Hm.
  - intros Ha%nonempty_true Hx%nonempty_true. unfold get_task_auth. rewrite st_bind_unfold.
    unfold st_lift, validate_owner. rewrite Ha, Hx. cbn [andb]. rewrite st_bind_unfold. cbn [cached_task st_gets].
    rewrite Hg, st_bind_unfold. cbn. by rewrite Hm.
Qed.

Lemma cancelling_fields now t : status (cancelling now t) = CANCELLING.
Proof. done. Qed.

Lemma finalized_cancelling now we t : status t = CANCELLING ->
  exists t', finalized now we t = Some t' /\ status t' = CANCELLED /\ auth t' = [].
Proof. intros H. unfold finalized. rewrite !(bool_decide_eq_true_2 (status t = CANCELLING)) by done. eexists. by split_and!. Qed.

(** Cancellation takes hold at once and for good.  Cancelling an unfinished task
    of a cancellable kind returns with the task marked in cache and store: already
    cancelled when no queue work is left, cancelling otherwise; the running coroutines
    of the task are the ones interrupted; and from then on the index rejects every new
    work item of the task. *)
Theorem cancel_takes_hold (now now' : stamp) (tid : pystr) (acc usr : option pystr) (s : TK) (t : TaskRecord)
    (q : pystr) (md : QueueTaskMetadata)
    (Hacc : store_accepts) (Hc : coherent s) (Hg : dict_get (tk_tasks s) tid = Some t)
    (Hm : matches_owner t acc usr = true) (Hst : status t ∈ [PENDING; RUNNING])
    (Hty : task_type t ∈ CANCELLABLE_TASK_TYPES) (Hmd : md_task_id md = tid) :
  exists s' t', cancel now now' tid acc usr s = (Ok (Some (copy_task t'), cancel_active (tk_work s) tid), s')
    /\ dict_get (tk_tasks s') tid = Some t' /\ stored s' t'
    /\ status t' = (if has_work (tk_work s) tid None then CANCELLING else CANCELLED)
    /\ fst (register_work q (Some md) s') = Ok false
    /\ tk_work (snd (register_work q (Some md) s')) = tk_work s'.
Proof.
  destruct (co_cache _ Hc _ _ Hg) as [Hi Hs].
  pose proof (cancelling_advance now t Hst) as Hadv1. set (t1 := cancelling now t) in *.
  destruct (persist_update_run tid t t1 s Hacc Hc) as (s1 & Er & Hwk & Hc1 & Hg1 & Hs1); [by split_and!; auto|done|].
  assert (matches_owner t1 acc usr = true) as Hm1.
  { unfold matches_owner in *. by rewrite (adv_account _ _ Hadv1), (adv_user _ _ Hadv1). }
  assert (exists s2 t2, finalize_task now' tid acc usr s1 = (Ok tt, s2)
            /\ dict_get (tk_tasks s2) tid = Some t2 /\ stored s2 t2 /\ matches_owner t2 acc usr = true
            /\ status t2 = (if has_work (tk_work s) tid None then CANCELLING else CANCELLED))
    as (s2 & t2 & Ef & Hg2 & Hs2 & Hm2 & Hst2).
  { destruct (has_work (tk_work s) tid None) eqn:Hw.
    - exists s1, t1. split_and!; try done. apply finalize_busy. by rewrite Hwk.
    - destruct (finalized_cancelling now' (failure (tk_work s1) tid) t1) as (t2 & Hf & Hst2 & _); [done|].
      destruct (finalize_run now' tid acc usr s1 t1 t2) as (s2 & Ef & _ & Hc2 & Hg2 & Hs2); try done; [by rewrite Hwk|].
      destruct (finalized_advance _ _ _ _ (eq_refl : is_active (status t1) = true) Hf) as [Hadv2 _].
      exists s2, t2. split_and!; try done. unfold matches_owner in *.
      by rewrite (adv_account _ _ Hadv2), (adv_user _ _ Hadv2). }
  assert (is_cancellation_requested s2 tid = true) as Hcr.
  { unfold is_cancellation_requested. rewrite Hg2, Hst2. by destruct (has_work _ _ _). }
  exists s2, t2. split_and!; try done.
  - unfold cancel. rewrite st_bind_unfold, (load_cached _ _ _ _ _ _ Hg), Hm.
    rewrite (bool_decide_eq_false_2 (status t = CANCELLED)) by (intros E; rewrite E in Hst; set_solver).
    rewrite (bool_decide_eq_false_2 (status t = CANCELLING)) by (intros E; rewrite E in Hst; set_solver).
    assert (mem (task_type t) CANCELLABLE_TASK_TYPES = true) as -> by by apply bool_decide_eq_true_2.
    assert (is_terminal (status t) = false) as ->.
    { clear -Hst. rewrite !elem_of_cons, elem_of_nil in Hst. destruct Hst as [->|[->|[]]]; by vm_compute. }
    cbn [negb]. rewrite st_bind_unfold. fold t1. rewrite Er.
    rewrite st_bind_unfold. cbn [st_gets]. rewrite Hwk, st_bind_unfold, Ef, st_bind_unfold. cbn [cached_task st_gets].
    by rewrite Hg2, Hm2.
  - unfold register_work, register, cancellation_requested. by rewrite Hmd, Hcr.
  - unfold register_work, register, cancellation_requested. by rewrite Hmd, Hcr.
Qed.

(** ** Creation under exclusion *)

Lemma merge_one_keeps d t i : is_Some (dict_get d i) -> is_Some (dict_get (merge_one d t) i).
Proof.
  intros H. unfold merge_one. destruct (dict_get d (task_id t)); [destruct (_ <? _)%Z|];
    rewrite ?dict_set_get; try destruct (seqb _ _); eauto.
Qed.

Lemma merge_keeps l d i : is_Some (dict_get d i) -> is_Some (dict_get (foldl merge_one d l) i).
Proof. revert d. induction l as [|t l IH]; intros d H; cbn [foldl]; [done|]. by apply IH, merge_one_keeps. Qed.

Lemma merge_has l d t : t ∈ l -> is_Some (dict_get (foldl merge_one d l) (task_id t)).
Proof.
  revert d. induction l as [|t' l IH]; intros d Hin; [by apply elem_of_nil in Hin|]. cbn [foldl].
  apply elem_of_cons in Hin as [<-|Hin]; [|by apply IH]. apply merge_keeps. unfold merge_one.
  destruct (dict_get d (task_id t)) eqn:E; [destruct (_ <? _)%Z|];
    rewrite ?dict_set_get, ?(proj2 (seqb_true _ _) eq_refl); eauto.
Qed.

(** No two stored records share an id. *)
Definition unique_ids (s : TK) : Prop :=
  forall t t', stored s t -> stored s t' -> task_id t = task_id t' -> t = t'.

Lemma snapshot_elem (s : TK) t : coherent s -> t ∈ (snd <$> tk_tasks s) <-> dict_get (tk_tasks s) (task_id t) = Some t.
Proof.
  intros Hc. rewrite list_elem_of_fmap. split.
  - intros ([k t'] & -> & Hin). cbn. apply dict_get_in in Hin as Hg; [|apply Hc].
    destruct (co_cache _ Hc _ _ Hg) as [<- _]. done.
  - intros Hg. exists (task_id t, t). split; [done|]. by apply dict_get_elem.
Qed.

(** C11: at most one active task per kind, resource and owner.
    [create_if_no_running] creates a task only when no stored task of the owner is
    active for that kind and resource, and the new one is then the only one; it
    declines only when there is one. *)
Theorem create_if_no_running_exclusive (uuid : pystr) (nc nu : stamp) (ty rid acc usr : pystr) (s s' : TK)
    (o : option TaskRecord) (Hc : coherent s) (Hf : fresh_id uuid s) (Huniq : unique_ids s)
    (Hrun : create_if_no_running uuid nc nu ty rid acc usr s = (Ok o, s')) :
  let running := is_running_for ty (Some rid) (Some acc) (Some usr) in
  match o with
  | None => exists t, stored s' t /\ running t = true
  | Some snap => task_id snap = uuid
      /\ (forall t, stored s t -> running t = false)
      /\ (forall t, stored s' t -> running t = true <-> task_id t = uuid)
  end.
Proof.
  cbn zeta. unfold create_if_no_running in Hrun. rewrite st_bind_unfold in Hrun. cbn [st_lift] in Hrun.
  unfold st_lift in Hrun. destruct (validate_owner acc usr) as [[]|] eqn:Ev; [|done].
  apply validate_owner_ok in Ev as [Hane Hxne]. rewrite st_bind_unfold in Hrun.
  destruct (load_all_reads nc acc (Some usr) s Hc) as [Hs Hq].
  destruct (load_all_from_store nc acc (Some usr) s) as [[l|] s0]; cbn in Hs; subst s0; [|done].
  destruct (Hq l eq_refl) as [Hl Hin]. clear Hq. rewrite st_bind_unfold in Hrun. cbn [merge_loaded_tasks st_modify] in Hrun.
  pose proof (coherent_merge s l Hc Hl) as Hc1. set (s1 := set_tasks _ s) in *.
  rewrite st_bind_unfold in Hrun. cbn [cache_snapshot st_gets] in Hrun.
  destruct (existsb _ (snd <$> tk_tasks s1)) eqn:Ex.
  - injection Hrun as <- <-. apply existsb_exists in Ex as (t & Ht%list_elem_of_In & Hr).
    apply snapshot_elem in Ht; [|done]. exists t. split; [|done]. by apply (co_cache _ Hc1 _ _ Ht).
  - rewrite st_bind_unfold in Hrun. set (new := MkTask _ _ _ _ _ _ _ _ _ _ _ _ _) in Hrun.
    assert (forall t, stored s t -> is_running_for ty (Some rid) (Some acc) (Some usr) t = false) as Hno.
    { intros t Ht. destruct (is_running_for _ _ _ _ t) eqn:Er; [|done].
      assert (matches_owner t (Some acc) (Some usr) = true) as Hm.
      { unfold is_running_for in Er. by repeat (apply andb_true_iff in Er as [Er ?]). }
      apply matches_owner_some in Hm as [Ha Hx].
      destruct (key_of_stored s t acc usr Ht Ha Hx) as (Hv & _).
      assert (t ∈ l) as Htl by (apply (Hin usr t eq_refl Hane Hxne); eauto).
      destruct (merge_has l (tk_tasks s) t Htl) as [c Hg].
      destruct (co_cache s1 Hc1 (task_id t) c Hg) as [Hi Hst].
      assert (c = t) as -> by (apply Huniq; done).
      assert (existsb (is_running_for ty (Some rid) (Some acc) (Some usr)) (snd <$> tk_tasks s1) = true); [|congruence].
      apply existsb_exists. exists t. split; [|done]. apply list_elem_of_In. by apply snapshot_elem. }
    destruct (persist_create new s1) as [[[]|] s2] eqn:Ep; [|done]. injection Hrun as <- <-.
    split_and!; [done|done|]. intros t.
    assert (stored s2 t -> stored s t \/ t = new) as Hcase.
    { unfold persist_create, store_create in Ep. rewrite st_bind_unfold in Ep.
      destruct (ts_create (tk_store s1) new) as [[[]|] st] eqn:Ec; [|done]. injection Ep as <-.
      destruct (ts_create_ok _ _ _ Ec) as (a & x & [= <-] & [= <-] & _ & _ & Hview).
      intros (a & x & Ha & Hx & ? & ? & Hv). cbn in Hv. rewrite Hview in Hv. case_decide as E.
      - right. apply (inj Some), payload_inj in Hv. done.
      - left. by exists a, x. }
    intros Hst%Hcase. split.
    + intros Hr. destruct Hst as [Hst| ->]; [by rewrite Hno in Hr|done].
    + intros Hid. destruct Hst as [Hst| ->].
      * destruct Hst as (a & x & _ & _ & _ & _ & Hv). by rewrite Hid, Hf in Hv.
      * unfold is_running_for. cbn [new task_type resource_id status].
        rewrite (proj2 (seqb_true ty ty) eq_refl), bool_decide_eq_true_2 by done.
        unfold matches_owner. cbn [new account_id user_id]. by rewrite !bool_decide_eq_true_2.
Qed.

(** ** Listing *)

Definition recent (a b : TaskRecord) : Prop := (created_at b <= created_at a)%Z.

Lemma insert_recent_perm t l : insert_recent t l ≡ₚ t :: l.
Proof. induction l as [|x l IH]; cbn; [done|]. destruct (_ <? _)%Z; [done|]. rewrite IH. apply Permutation_swap. Qed.

Lemma sort_recent_perm l : sort_recent l ≡ₚ l.
Proof.
  unfold sort_recent. assert (forall acc, foldl (fun acc t => insert_recent t acc) acc l ≡ₚ acc ++ l) as H.
  { induction l as [|t l IH]; intros acc; cbn [foldl]; [by rewrite app_nil_r|].
    rewrite IH, insert_recent_perm. apply Permutation_middle. }
  apply (H []).
Qed.

Lemma insert_recent_sorted t l : StronglySorted recent l -> StronglySorted recent (insert_recent t l).
Proof.
  unfold recent. induction 1 as [|x l Hl IH Hx]; cbn; [by repeat constructor|].
  destruct (Z.ltb_spec (created_at x) (created_at t)) as [Hlt|Hge].
  - constructor; [by constructor|]. constructor; [lia|]. eapply Forall_impl; [exact Hx|]. cbn. lia.
  - constructor; [done|]. rewrite insert_recent_perm. constructor; [lia|done].
Qed.

Lemma sort_recent_sorted l : StronglySorted recent (sort_recent l).
Proof.
  unfold sort_recent. assert (forall acc, StronglySorted recent acc -> StronglySorted recent (foldl (fun acc t => insert_recent t acc) acc l)) as H.
  { induction l as [|t l IH]; intros acc Ha; cbn [foldl]; [done|]. by apply IH, insert_recent_sorted. }
  apply H. constructor.
Qed.

Lemma take_sorted {A} (R : A -> A -> Prop) n l : StronglySorted R l -> StronglySorted R (take n l).
Proof.
  intros H. revert n. induction H as [|x l Hl IH Hx]; intros [|n]; cbn; try constructor; auto. by apply Forall_take.
Qed.

Lemma slice_to_sub {A} n (l : list A) : exists k, slice_to n l = take k l /\ (0 <= n -> Z.of_nat (length (slice_to n l)) <= n)%Z.
Proof.
  unfold slice_to. destruct (Z.ltb_spec n 0).
  - eexists. split; [done|lia].
  - eexists. split; [done|]. rewrite length_take. lia.
Qed.

Lemma filter_opt_sub v f l t : t ∈ filter_opt v f l -> t ∈ l.
Proof. unfold filter_opt. destruct (truthy_opt v); [|done]. by intros [_ ?]%list_elem_of_filter. Qed.

(** Listings are safe and ordered: every entry is the sanitised snapshot of a
    stored task of the requested owner, most recent first, and a non-negative limit
    bounds their number. *)
Theorem list_tasks_sound (now : stamp) (ty stat rid : option pystr) (limit : Z) (acc usr : option pystr) (inc : bool)
    (s s' : TK) (l : list TaskRecord) (Hc : coherent s)
    (Hrun : list_tasks now ty stat rid limit acc usr inc s = (Ok l, s')) :
  StronglySorted recent l
  /\ ((0 <= limit)%Z -> (Z.of_nat (length l) <= limit)%Z)
  /\ forall t, t ∈ l -> auth t = [] /\ exists c, stored s' c /\ t = copy_task c /\ matches_owner c acc usr = true.
Proof.
  unfold list_tasks in Hrun. rewrite st_bind_unfold in Hrun.
  set (m := match acc with Some a => _ | None => _ end) in Hrun.
  assert (triple advances (fun _ => True) m (fun _ _ => True)) as Hm.
  { unfold m. destruct acc; [apply (refresh_triple advances); apply advances_same|apply skip_triple]. }
  destruct (Hm s Hc I) as (Hc1 & _ & _). destruct (m s) as [[[]|] s1]; [|done]. cbn in Hc1.
  rewrite st_bind_unfold in Hrun. cbn [cache_snapshot st_gets] in Hrun. injection Hrun as <- <-.
  set (tasks := filter_opt rid _ _). destruct (slice_to_sub limit (sort_recent tasks)) as (k & E & Hlen).
  rewrite E in *. split_and!; [apply take_sorted, sort_recent_sorted|done|].
  intros t Ht. apply elem_of_take in Ht as (j & Hj & _). apply list_elem_of_lookup_2 in Hj.
  rewrite sort_recent_perm in Hj. unfold tasks in Hj. do 3 apply filter_opt_sub in Hj.
  assert (t ∈ copy_task <$> filter (fun t => matches_owner t acc usr = true) (snd <$> tk_tasks s1)) as Ht.
  { destruct inc; [done|]. by apply list_elem_of_filter in Hj as [_ ?]. }
  apply list_elem_of_fmap in Ht as (c & -> & [Hmo Hcin]%list_elem_of_filter). split; [done|].
  apply snapshot_elem in Hcin; [|done]. exists c. split_and!; [|done|done]. by apply (co_cache _ Hc1 _ _ Hcin).
Qed.

(** ** Eviction *)

Lemma dict_pop_length {A} (d : list (pystr * A)) k : k ∈ (fst <$> d) -> length d = S (length (dict_pop d k)).
Proof.
  induction d as [|[k' v] d IH]; cbn; intros Hin; [by apply elem_of_nil in Hin|].
  destruct (seqb k' k) eqn:E; [done|]. apply seqb_false in E. cbn. f_equal. apply IH.
  apply elem_of_cons in Hin as [->|?]; done.
Qed.

Lemma insert_oldest_perm t l : insert_oldest t l ≡ₚ t :: l.
Proof. induction l as [|x l IH]; cbn; [done|]. destruct (_ <? _)%Z; [done|]. rewrite IH. apply Permutation_swap. Qed.

Lemma sort_oldest_perm l : sort_oldest l ≡ₚ l.
Proof.
  unfold sort_oldest. assert (forall acc, foldl (fun acc t => insert_oldest t acc) acc l ≡ₚ acc ++ l) as H.
  { induction l as [|t l IH]; intros acc; cbn [foldl]; [by rewrite app_nil_r|].
    rewrite IH, insert_oldest_perm. apply Permutation_middle. }
  apply (H []).
Qed.

Lemma pop_all_length {A} (l d : list (pystr * A)) :
  NoDup (fst <$> d) -> NoDup (fst <$> l) -> (forall kv, kv ∈ l -> kv ∈ d) ->
  length (foldl (fun d kv => dict_pop d (fst kv)) d l) = (length d - length l)%nat.
Proof.
  revert d. induction l as [|[k v] l IH]; intros d Hd Hl Hin; cbn [foldl length]; [lia|].
  rewrite fmap_cons in Hl. apply NoDup_cons in Hl as [Hk Hl].
  assert (k ∈ (fst <$> d)) as Hkd. { apply list_elem_of_fmap. exists (k, v). split; [done|]. apply Hin. left. }
  rewrite IH; [|by apply dict_pop_nodup|done|].
  - pose proof (dict_pop_length d k Hkd). cbn [fst]. lia.
  - intros [k' v'] Hkv. cbn [fst]. assert (k <> k') as Hne.
    { intros ->. apply Hk. apply list_elem_of_fmap. by exists (k', v'). }
    apply dict_get_elem. rewrite dict_pop_get by done. rewrite (proj2 (seqb_false k k') Hne).
    apply dict_get_in; [done|]. apply Hin. by right.
Qed.

(** Eviction bounds the cache and spares unfinished work: afterwards the cache
    holds at most [MAX_TASKS] records and agrees with the store, and every stored
    record is unchanged, except that records of terminal tasks may have been deleted. *)
Theorem evict_bounds (now : stamp) (s : TK) (Hc : coherent s) :
  let s' := snd (evict_expired now s) in
  N.of_nat (length (tk_tasks s')) <= MAX_TASKS /\ coherent s' /\ prunes s s'.
Proof.
  cbn zeta. destruct (evict_triple now s Hc I) as (Hc' & Hp & _). split_and!; [|done|done].
  unfold evict_expired in *. rewrite st_bind_unfold in *. cbn [st_gets] in *. rewrite st_bind_unfold in *.
  set (ids := fst <$> filter _ _) in *. destruct (delete_expired_triple now ids s Hc I) as (Hc1 & _ & _).
  assert (exists s1, delete_expired now ids s = (Ok tt, s1)) as [s1 E].
  { clearbody ids. clear Hc Hc' Hp Hc1. revert s. induction ids as [|i ids IH]; intros s; cbn [delete_expired]; [by eexists|].
    rewrite st_bind_unfold. assert (exists b s1, delete_expired_task now i s = (Ok b, s1)) as (b & s1 & ->); [|apply IH].
    unfold delete_expired_task. destruct (dict_get _ _); [|by eexists _, _]. destruct (negb _); [by eexists _, _|].
    destruct (truthy_opt _); [|by eexists _, _]. destruct (truthy_opt _); [|by eexists _, _].
    destruct (store_delete _ _ _ _) as [[]]; by eexists _, _. }
  rewrite E in *. cbn in *. unfold trim_tasks. destruct (N.ltb_spec MAX_TASKS (N.of_nat (length (tk_tasks s1)))); [|done].
  rewrite pop_all_length.
  - rewrite length_take, sort_oldest_perm. lia.
  - apply Hc1.
  - rewrite fmap_take. eapply sublist_NoDup; [|apply sublist_take].
    rewrite sort_oldest_perm. apply Hc1.
  - intros kv Hkv. apply elem_of_take in Hkv as (j & Hj & _). apply list_elem_of_lookup_2 in Hj.
    by rewrite sort_oldest_perm in Hj.
Qed.
End outcomes.

(** ** Concrete runs *)

Lemma map_store_accepts : @store_accepts MapStore.store _.
Proof.
  intros st t (a & x & Ha & Hx & Hane & Hxne). unfold ts_update, MapStore.store_ops, MapStore.write.
  rewrite Ha, Hx. rewrite (proj2 (MapStore.truthy_some (Some a) a)), (proj2 (MapStore.truthy_some (Some x) x)) by done.
  by eexists.
Qed.

Lemma complete_idle_witness :
  exists s' t', complete 7 8 (u "t1") [] (Some (u "acme")) (Some (u "alice")) None MapStore.state0 = (Ok tt, s')
    /\ dict_get (tk_tasks s') (u "t1") = Some t' /\ status t' = COMPLETED /\ auth t' = [].
Proof.
  destruct (complete_idle 7 8 (u "t1") [] (Some (u "acme")) (Some (u "alice")) None MapStore.state0 MapStore.rec)
    as (s' & t' & H1 & H2 & _ & _ & H3 & _ & H4 & _);
    [apply map_store_accepts|apply MapStore.state0_coherent|done|done|set_solver|done|done|done|].
  by exists s', t'.
Defined.

(** The same task with its result recorded and one message left, whose work failed. *)
Definition waiting : tracker MapStore.store :=
  let t := outcome 7 (Some []) None None None MapStore.rec in
  MkTracker [(u "t1", t)] {[(u "acme", u "alice", u "t1") := task_to_payload t]}
    (record_failure (snd (register None empty_index (u "q") (Some MapStore.md))) (u "t1") (u "boom sk-123")).

Lemma waiting_coherent : coherent waiting.
Proof.
  set (t := outcome 7 (Some []) None None None MapStore.rec).
  assert (stored waiting t) as Hs by (exists (u "acme"), (u "alice"); split_and!; by vm_compute).
  split.
  - apply NoDup_singleton.
  - intros i t'. cbn [waiting tk_tasks dict_get]. destruct (seqb (u "t1") i) eqn:E; [|done]. apply seqb_true in E as <-.
    intros [= <-]. by split.
  - intros a x i p. cbn [waiting tk_store ts_view MapStore.store_ok]. intros [[= <- <- <-] <-]%lookup_singleton_Some.
    exists t. split_and!; try done; by vm_compute.
Qed.


Lemma foreign_owner_frame_witness :
  get 7 (u "t1") (Some (u "acme")) (Some (u "bob")) MapStore.state0 = (Ok None, MapStore.state0).
Proof.
  apply (foreign_owner_frame 7 7 (u "t1") (u "acme") (u "bob") MapStore.state0 MapStore.rec None [] [] [] None); by vm_compute.
Defined.

Lemma cancel_takes_hold_witness :
  exists s' t', cancel 7 8 (u "t1") None None MapStore.state0 = (Ok (Some (copy_task t'), ∅), s') /\ status t' = CANCELLED.
Proof.
  destruct (cancel_takes_hold 7 8 (u "t1") None None MapStore.state0 MapStore.rec (u "q") MapStore.md)
    as (s' & t' & H1 & _ & _ & H2 & _);
    [apply map_store_accepts|apply MapStore.state0_coherent|done|done|set_solver|decided|done|].
  by exists s', t'.
Defined.

Lemma create_if_no_running_exclusive_witness :
  exists t s', create_if_no_running (u "n") 7 8 (u "session_commit") (u "s1") (u "acme") (u "alice") MapStore.state0 = (Ok None, s')
    /\ stored s' t /\ is_running_for (u "session_commit") (Some (u "s1")) (Some (u "acme")) (Some (u "alice")) t = true.
Proof.
  assert (match fst (create_if_no_running (u "n") 7 8 (u "session_commit") (u "s1") (u "acme") (u "alice") MapStore.state0) with
          | Ok None => true | _ => false end = true) as Hnone by by vm_compute.
  destruct (create_if_no_running (u "n") 7 8 (u "session_commit") (u "s1") (u "acme") (u "alice") MapStore.state0)
    as [[[t|]|e] s'] eqn:E; [done| |done].
  destruct (create_if_no_running_exclusive (u "n") 7 8 (u "session_commit") (u "s1") (u "acme") (u "alice")
              MapStore.state0 s' None) as (t & Hst & Hrun); [| | |exact E|exists t, s'; split; [reflexivity|split; [exact Hst|exact Hrun]]].
  - apply MapStore.state0_coherent.
  - intros a x. cbn [MapStore.state0 tk_store ts_view MapStore.store_ok]. apply lookup_singleton_ne. by intros [=].
  - intros t t' (a & x & _ & _ & _ & _ & Hv) (a' & x' & _ & _ & _ & _ & Hv') _.
    cbn [MapStore.state0 tk_store ts_view MapStore.store_ok] in Hv, Hv'.
    apply lookup_singleton_Some in Hv as [_ Hv], Hv' as [_ Hv']. apply payload_inj. congruence.
Defined.

Lemma list_tasks_sound_witness :
  match fst (list_tasks 7 None None None 50 (Some (u "acme")) (Some (u "alice")) true MapStore.state0) with
  | Ok l => StronglySorted recent l | Err _ => False end.
Proof.
  assert (match fst (list_tasks 7 None None None 50 (Some (u "acme")) (Some (u "alice")) true MapStore.state0) with
          | Ok l => length l | Err _ => 0%nat end = 1%nat) as Hone by by vm_compute.
  destruct (list_tasks 7 None None None 50 (Some (u "acme")) (Some (u "alice")) true MapStore.state0) as [[l|e] s'] eqn:E;
    [|done]. cbn [fst].
  apply (list_tasks_sound 7 None None None 50 (Some (u "acme")) (Some (u "alice")) true MapStore.state0 s' l);
    [apply MapStore.state0_coherent|done].
Defined.

Lemma evict_bounds_witness : prunes MapStore.state0 (snd (evict_expired 7 MapStore.state0)).
Proof. apply (evict_bounds 7 MapStore.state0). apply MapStore.state0_coherent. Defined.

(** ** An interleaving *)

(** [get_task_auth] reads the store without the task's lock and publishes what it read
    unconditionally.  When another operation writes the task between its read and its
    publication, the cache falls back to the older record: here the task that the store
    holds as completed is cached as running again. *)
Example auth_publish_overwrites :
  let s0 : tracker MapStore.store := MkTracker [] (tk_store MapStore.state0) empty_index in
  let s1 := snd (complete 7 8 (u "t1") [] (Some (u "acme")) (Some (u "alice")) None s0) in
  let s2 := snd (publish_task MapStore.rec s1) in
  fst (load_from_store 7 (u "t1") (u "acme") (Some (u "alice")) s0) = Ok (Some MapStore.rec)
  /\ (status <$> dict_get (tk_tasks s1) (u "t1")) = Some COMPLETED
  /\ (status <$> dict_get (tk_tasks s2) (u "t1")) = Some RUNNING
  /\ ~ coherent s2.
Proof.
  cbn zeta. split; [by vm_compute|]. split; [by vm_compute|]. split; [by vm_compute|].
  intros Hc. set (s2 := snd _) in Hc.
  destruct (co_cache _ Hc (u "t1") MapStore.rec) as [_ (a & x & [= <-] & [= <-] & _ & _ & Hv)]; [by vm_compute|].
  assert (match ts_view (tk_store s2) (u "acme") (u "alice") (u "t1") with
          | Some p => dict_get p (u "stage") | None => None end = Some (VStr (u "completed"))) as Hs by by vm_compute.
  change (task_id MapStore.rec) with (u "t1") in Hv. rewrite Hv in Hs. by vm_compute in Hs.
Qed.
