(* ===== verification/TaskErasure.v ===== *)
(** Erasing the tasks of one user ([TaskTracker]): [delete_user_tasks] leaves no record
    of its owner, and the operations on other tasks bring none back. *)
From Stdlib Require Import NArith ZArith.
From S2P Require Import Prelude PyStr PyVal TaskRecord WorkIndex TaskTracker TaskTrackerTheory TaskOutcome.

Open Scope N_scope.

Section erasure.
Context {St : Type} `{!TaskStore St} `{!TaskStoreOk St}.
Abbreviation TK := (tracker St).
Abbreviation view s := (ts_view (tk_store s)).

(** A task id belongs to one owner. *)
Definition unique_keys (s : TK) : Prop :=
  forall a x a' x' i, is_Some (view s a x i) -> is_Some (view s a' x' i) -> (a, x) = (a', x').

(** No other owner has a task of this id. *)
Definition own_id (s : TK) (acc usr tid : pystr) : Prop := forall a x, is_Some (view s a x tid) -> (a, x) = (acc, usr).

(** No record of the owner is stored. *)
Definition erased (s : TK) (acc usr : pystr) : Prop := forall i, view s acc usr i = None.

Lemma same_keys_unique s s' : same_keys s s' -> unique_keys s -> unique_keys s'.
Proof. intros Hk Hu a x a' x' i H1%Hk H2%Hk. by eapply Hu. Qed.

Lemma same_keys_erased s s' acc usr : same_keys s s' -> erased s acc usr -> erased s' acc usr.
Proof.
  intros Hk He i. destruct (view s' acc usr i) eqn:E; [|done].
  assert (is_Some (view s acc usr i)) as H by (apply Hk; by rewrite E). rewrite He in H. by destruct H.
Qed.

(** The records of an owner that a deletion loop has still to visit are cached. *)
Definition pending (acc usr : pystr) (tasks : list TaskRecord) (s : TK) : Prop :=
  forall i, is_Some (view s acc usr i) ->
    i ∈ (task_id <$> tasks) /\ exists c, dict_get (tk_tasks s) i = Some c /\ matches_owner c (Some acc) (Some usr) = true.

Lemma pending_skip acc usr task tasks s :
  pending acc usr (task :: tasks) s ->
  (forall c, dict_get (tk_tasks s) (task_id task) = Some c -> matches_owner c (Some acc) (Some usr) = false) ->
  pending acc usr tasks s.
Proof.
  intros Hp Hno i Hi. destruct (Hp i Hi) as [Hin (c & Hg & Hm)]. split; [|eauto].
  cbn [fmap list_fmap] in Hin. apply elem_of_cons in Hin as [->|Hin]; [|done]. by rewrite (Hno c Hg) in Hm.
Qed.

Lemma delete_tasks_erases acc usr tasks n k s s' : acc <> [] -> usr <> [] -> coherent s -> pending acc usr tasks s ->
  delete_tasks acc usr tasks n s = (Ok k, s') -> erased s' acc usr.
Proof.
  intros Ha Hx. revert n s. induction tasks as [|task tasks IH]; intros n s Hc Hp; cbn [delete_tasks].
  { intros [= _ <-] i. destruct (view s acc usr i) eqn:E; [|done]. destruct (Hp i) as [Hin _]; [by rewrite E|]. by apply elem_of_nil in Hin. }
  rewrite st_bind_unfold. cbn [cached_task st_gets]. destruct (dict_get (tk_tasks s) (task_id task)) as [c|] eqn:Eg.
  2: { apply IH; [done|]. eapply pending_skip; [done|]. by rewrite Eg. }
  destruct (matches_owner c (Some acc) (Some usr)) eqn:Em; cbn [negb].
  2: { apply IH; [done|]. eapply pending_skip; [done|]. rewrite Eg. by intros ? [= <-]. }
  rewrite st_bind_unfold. cbn [st_gets]. destruct (is_active (status c) || _) eqn:Eb; [done|]. apply orb_false_iff in Eb as [Hact _].
  rewrite st_bind_unfold. unfold store_delete. destruct (ts_delete (tk_store s) (task_id task) acc (Some usr)) as [[[]|e] st] eqn:Ed; [|done].
  rewrite !st_bind_unfold. cbn [st_modify]. apply matches_owner_some in Em as [Hca Hcx].
  destruct (delete_cached s c (task_id task) acc usr st) as [Hc1 _]; try done.
  apply IH; [by apply coherent_work|]. pose proof (ts_delete_ok _ _ _ _ _ Ed Ha Hx) as Hview.
  intros i. cbn [tk_store tk_tasks set_work set_tasks set_store]. rewrite Hview. case_decide as E; [by intros [? ?]|].
  intros Hi. destruct (Hp i Hi) as [Hin (c' & Hg & Hm)]. assert (i <> task_id task) as Hne by congruence. split.
  - cbn [fmap list_fmap] in Hin. by apply elem_of_cons in Hin as [->|Hin].
  - exists c'. split; [|done]. rewrite dict_pop_get by apply Hc. by rewrite (proj2 (seqb_false _ _) (not_eq_sym Hne)).
Qed.

Lemma delete_user_tasks_erases now acc usr s s' n : coherent s -> unique_keys s ->
  delete_user_tasks now acc usr s = (Ok n, s') -> erased s' acc usr.
Proof.
  intros Hc Hu. unfold delete_user_tasks. rewrite st_bind_unfold. unfold st_lift.
  destruct (validate_owner acc usr) as [[]|] eqn:Ev; [|done]. apply validate_owner_ok in Ev as [Ha Hx]. rewrite st_bind_unfold.
  destruct (load_all_reads now acc (Some usr) s Hc) as [Hs Hq].
  destruct (load_all_from_store now acc (Some usr) s) as [[l|] s0]; cbn in Hs; subst s0; [|done].
  destruct (Hq l eq_refl) as [Hl Hin]. clear Hq. rewrite st_bind_unfold. cbn [merge_loaded_tasks st_modify].
  pose proof (coherent_merge s l Hc Hl) as Hc1. set (s1 := set_tasks _ s) in *.
  rewrite st_bind_unfold. cbn [cache_snapshot st_gets]. destruct (existsb _ _); [done|].
  apply delete_tasks_erases; [done..|]. intros i [p Hp]. change (view s acc usr i = Some p) in Hp.
  destruct (co_store _ Hc _ _ _ _ Hp) as (t & -> & <- & Hta & Htx & _).
  assert (t ∈ l) as Htl by (apply (Hin usr t eq_refl Ha Hx); eauto).
  destruct (merge_has l (tk_tasks s) t Htl) as [c Hg]. change (dict_get (tk_tasks s1) (task_id t) = Some c) in Hg.
  destruct (co_cache s1 Hc1 _ _ Hg) as [Hi (a' & x' & Ha' & Hx' & _ & _ & Hv')].
  assert ((a', x') = (acc, usr)) as [= -> ->].
  { eapply Hu; [|by rewrite Hp]. rewrite <- Hi. by exists (task_to_payload c). }
  assert (matches_owner c (Some acc) (Some usr) = true) as Hm by (unfold matches_owner; by rewrite Ha', Hx', !bool_decide_eq_true_2).
  split; [|eauto]. apply list_elem_of_fmap. exists c. split; [done|]. apply list_elem_of_filter. split; [done|].
  apply snapshot_elem; [done|]. by rewrite Hi.
Qed.

(** Creating a task under an id of its own. *)
Lemma create_with_id uuid nc nu ty rid acc usr tid m a s : tid <> [] -> coherent s -> unique_keys s -> own_id s acc usr tid ->
  let s' := snd (create uuid nc nu ty rid acc usr (Some tid) m a s) in coherent s' /\ unique_keys s'.
Proof.
  intros Ht Hc Hu Ho. cbn zeta. unfold create. rewrite st_bind_unfold. unfold st_lift.
  destruct (validate_owner acc usr) as [[]|] eqn:Ev; [|done]. apply validate_owner_ok in Ev as [Ha Hx].
  apply nonempty_true in Ht. rewrite Ht, bool_decide_eq_true_2 by done. set (t := MkTask _ _ _ _ _ _ _ _ _ _ _ _ _).
  destruct (create_on_owner_triple nc t acc usr true eq_refl eq_refl Ha Hx s Hc (or_introl eq_refl)) as (Hc1 & _). split; [done|].
  clear Hc1. unfold create_on_owner. cbn [negb]. rewrite st_bind_unfold. cbn [cached_task st_gets].
  destruct (dict_get (tk_tasks s) (task_id t)) as [e|]; [by destruct (negb _)|]. rewrite st_bind_unfold.
  destruct (load_from_store_reads nc (task_id t) (default [] (account_id t)) (user_id t) s Hc) as [Hs Hq].
  destruct (load_from_store _ _ _ _ s) as [[[e|]|] s0]; cbn in Hs; subst s0; [done| |done].
  rewrite st_bind_unfold. unfold persist_create. rewrite st_bind_unfold. unfold store_create.
  destruct (ts_create (tk_store s) t) as [[[]|e] st] eqn:Ec; cbn.
  - destruct (ts_create_ok _ _ _ Ec) as (a' & x' & [= <-] & [= <-] & _ & _ & Hview).
    intros a1 x1 a2 x2 i. cbn. rewrite !Hview. cbn [t task_id]. case_decide as E1; case_decide as E2; try congruence; [| |apply Hu].
    + injection E1 as -> -> ->. intros _ H2. by apply Ho in H2.
    + injection E2 as -> -> ->. intros H1 _. by apply Ho in H1.
  - intros a1 x1 a2 x2 i. cbn. rewrite !(ts_create_err _ _ _ _ Ec). apply Hu.
Qed.
End erasure.
