(* ===== verification/TaskStore.v ===== *)
(** The persistent task store: [PersistentTaskStore] of
    [openviking/service/task_store.py], over the file system client it is given. *)
From Stdlib Require Import NArith ZArith.
From S2P Require Import Prelude PyStr PyVal TaskRecord TaskTracker NamespaceTheory.

Open Scope N_scope.

Definition SYSTEM_TASK_ACCOUNT_ID : pystr := u "_system".
Definition ROOT_PREFIX : pystr := u "/local".
Definition SYSTEM_DIRNAME : pystr := u "_system".
Definition TASKS_DIRNAME : pystr := u "tasks".

(** ** Paths *)

(** [f"{a}/{b}"]. *)
Definition sub_path (a b : pystr) : pystr := a ++ [c_slash] ++ b.

Definition account_dir (account_id : pystr) : pystr := sub_path ROOT_PREFIX account_id.

Definition system_dir (account_id : pystr) : pystr :=
  if seqb account_id SYSTEM_TASK_ACCOUNT_ID then account_dir account_id
  else sub_path (account_dir account_id) SYSTEM_DIRNAME.

Definition task_root_dir (account_id : pystr) : pystr := sub_path (system_dir account_id) TASKS_DIRNAME.
Definition task_dir (account_id user_id : pystr) : pystr := sub_path (task_root_dir account_id) user_id.
Definition task_path (account_id user_id task_id : pystr) : pystr :=
  sub_path (task_dir account_id user_id) (task_id ++ u ".json").

Definition endswith (p s : pystr) : bool := bool_decide (p `suffix_of` s).

(** ** The file system client *)

(** An entry of a directory listing; an absent field is empty. *)
Record ls_item := MkItem { it_path : pystr; it_name : pystr }.

(** [AsyncAGFSClient]: files hold bytes.  [NotFoundError] stands for a missing path,
    [AlreadyExistsError] for an error that says the path exists. *)
Class AGFS (F : Type) := {
  fs_read : F -> pystr -> result (list N);
  fs_write : F -> pystr -> list N -> result unit * F;
  fs_ls : F -> pystr -> result (list ls_item);
  fs_mkdir : F -> pystr -> result unit * F;
  fs_rm : F -> pystr -> result unit * F }.

Section persistent.
Context {F : Type} `{!AGFS F}.
(** [json.dumps(...).encode] of a payload and [json.loads] of a file's text. *)
Context (dumps : pydict -> list N) (loads : list N -> result pydict).

Definition mkdir_if_missing (path : pystr) : ST F unit := fun f =>
  match fs_mkdir f path with
  | (Err AlreadyExistsError, f') => (Ok tt, f')
  | r => r
  end.

Definition ensure_task_dir (acc usr : pystr) : ST F unit :=
  _ ← mkdir_if_missing (account_dir acc);
  _ ← mkdir_if_missing (system_dir acc);
  _ ← mkdir_if_missing (task_root_dir acc);
  mkdir_if_missing (task_dir acc usr).

Definition write_file (path : pystr) (content : list N) : ST F unit := fun f => fs_write f path content.

Definition write_task (t : TaskRecord) : ST F unit :=
  match truthy_opt (account_id t), truthy_opt (user_id t) with
  | Some acc, Some usr =>
      _ ← ensure_task_dir acc usr;
      write_file (task_path acc usr (task_id t)) (dumps (task_to_payload t))
  | _, _ => st_raise ValueError
  end.

Definition store_get (f : F) (tid : pystr) (acc usr : option pystr) : result (option pydict) :=
  match truthy_opt acc, truthy_opt usr with
  | Some a, Some x =>
      match fs_read f (task_path a x tid) with
      | Ok raw => p ← loads raw; Ok (Some p)
      | Err NotFoundError => Ok None
      | Err e => Err e
      end
  | _, _ => Ok None
  end.

(** The loop of [list] over the directory entries. *)
Fixpoint list_items (f : F) (directory : pystr) (items : list ls_item) : result (list pydict) :=
  match items with
  | [] => Ok []
  | item :: rest =>
      let path := if nonempty (it_path item) then it_path item else sub_path directory (it_name item) in
      if negb (endswith (u ".json") path) then list_items f directory rest
      else match fs_read f path with
           | Err NotFoundError => list_items f directory rest
           | Err e => Err e
           | Ok raw => p ← loads raw; ps ← list_items f directory rest; Ok (p :: ps)
           end
  end.

Definition store_list (f : F) (acc : pystr) (usr : option pystr) : result (list pydict) :=
  match truthy_opt usr with
  | None => Ok []
  | Some x =>
      let directory := task_dir acc x in
      match fs_ls f directory with
      | Err NotFoundError => Ok []
      | Err e => Err e
      | Ok items => list_items f directory items
      end
  end.

Definition store_delete (f : F) (tid acc : pystr) (usr : option pystr) : result unit * F :=
  match truthy_opt usr with
  | None => (Ok tt, f)
  | Some x => fs_rm f (task_path acc x tid)
  end.

(** The persistent store implements the tracker's protocol. *)
#[export] Instance persistent_store : TaskStore F := {
  ts_create f t := write_task t f;
  ts_update f t := write_task t f;
  ts_get := store_get;
  ts_list := store_list;
  ts_delete := store_delete }.
End persistent.

(** ** Isolation of records *)

(** What the store relies on: a read returns what the path holds, a write or removal
    changes that path alone, and making a directory changes no file. *)
Class AGFSOk (F : Type) `{!AGFS F} := {
  fs_file : F -> pystr -> option (list N);
  fs_read_law : forall f p, fs_read f p = match fs_file f p with Some c => Ok c | None => Err NotFoundError end;
  fs_write_law : forall f p c f', fs_write f p c = (Ok tt, f') ->
    forall p', fs_file f' p' = if decide (p' = p) then Some c else fs_file f p';
  fs_mkdir_law : forall f p r f', fs_mkdir f p = (r, f') -> forall p', fs_file f' p' = fs_file f p';
  fs_rm_law : forall f p f', fs_rm f p = (Ok tt, f') ->
    forall p', fs_file f' p' = if decide (p' = p) then None else fs_file f p' }.

(** Ids as the service issues them: non-empty and without a slash. *)
Definition id_ok (i : pystr) : Prop := seg_ok i.

Lemma segs_sub a b : segs (sub_path a b) = segs a ++ segs b.
Proof. apply segs_app. Qed.

Lemma json_seg i : id_ok i -> seg_ok (i ++ u ".json").
Proof.
  intros [Hne Hs]. split; [by intros [? _]%app_nil|]. rewrite elem_of_app. intros [?|Hin]; [done|].
  revert Hin. decided.
Qed.

Lemma task_path_segs a x i :
  id_ok a -> id_ok x -> id_ok i ->
  segs (task_path a x i) = [u "local"; a] ++ (if seqb a SYSTEM_TASK_ACCOUNT_ID then [] else [u "_system"])
                           ++ [u "tasks"; x; i ++ u ".json"].
Proof.
  intros Ha Hx Hi. unfold task_path, task_dir, task_root_dir, system_dir. rewrite !segs_sub.
  rewrite (segs_seg x), (segs_seg (i ++ _)) by auto using json_seg.
  assert (segs TASKS_DIRNAME = [u "tasks"]) as -> by by vm_compute.
  assert (segs (account_dir a) = [u "local"; a]) as Hacc.
  { unfold account_dir. rewrite segs_sub, (segs_seg a) by done. by vm_compute. }
  destruct (seqb a SYSTEM_TASK_ACCOUNT_ID).
  - by rewrite Hacc.
  - rewrite segs_sub, Hacc. by vm_compute.
Qed.

Lemma task_path_inj a x i a' x' i' :
  id_ok a -> id_ok x -> id_ok i -> id_ok a' -> id_ok x' -> id_ok i' ->
  task_path a x i = task_path a' x' i' -> (a, x, i) = (a', x', i').
Proof.
  intros Ha Hx Hi Ha' Hx' Hi' E. apply (f_equal segs) in E. rewrite !task_path_segs in E by done.
  destruct (seqb a SYSTEM_TASK_ACCOUNT_ID), (seqb a' SYSTEM_TASK_ACCOUNT_ID); cbn [app] in E.
  - injection E as -> -> Ej. by apply app_inv_tail in Ej as ->.
  - apply (f_equal length) in E. by cbn in E.
  - apply (f_equal length) in E. by cbn in E.
  - injection E as -> -> Ej. by apply app_inv_tail in Ej as ->.
Qed.

Section isolation.
Context {F : Type} `{!AGFS F} `{!AGFSOk F}.
Context (dumps : pydict -> list N) (loads : list N -> result pydict).

Lemma mkdir_files path f r f' : mkdir_if_missing path f = (r, f') -> forall p, fs_file f' p = fs_file f p.
Proof.
  unfold mkdir_if_missing. destruct (fs_mkdir f path) as [[[]|e] f1] eqn:E; pose proof (fs_mkdir_law _ _ _ _ E) as H.
  - by intros [= <- <-].
  - destruct e; by intros [= <- <-].
Qed.

Lemma ensure_files acc usr f r f' : ensure_task_dir acc usr f = (r, f') -> forall p, fs_file f' p = fs_file f p.
Proof.
  unfold ensure_task_dir. rewrite st_bind_unfold.
  destruct (mkdir_if_missing (account_dir acc) f) as [[[]|] f1] eqn:E1; pose proof (mkdir_files _ _ _ _ E1) as H1; [|by intros [= <- <-]].
  rewrite st_bind_unfold.
  destruct (mkdir_if_missing (system_dir acc) f1) as [[[]|] f2] eqn:E2; pose proof (mkdir_files _ _ _ _ E2) as H2;
    [|intros [= <- <-] p; by rewrite H2].
  rewrite st_bind_unfold.
  destruct (mkdir_if_missing (task_root_dir acc) f2) as [[[]|] f3] eqn:E3; pose proof (mkdir_files _ _ _ _ E3) as H3;
    [|intros [= <- <-] p; by rewrite H3, H2].
  intros E4 p. by rewrite (mkdir_files _ _ _ _ E4), H3, H2.
Qed.

(** The persistent store keeps the records of different owners and tasks apart.
    After a successful write, reading the same task of the same owner returns the
    record, and reading any other task, of this or another owner, returns what it
    returned before. *)
Theorem persistent_write_isolated (f f' : F) (t : TaskRecord) (a x a' x' i' : pystr)
    (Hjson : loads (dumps (task_to_payload t)) = Ok (task_to_payload t))
    (Hw : write_task dumps t f = (Ok tt, f'))
    (Ha : account_id t = Some a) (Hx : user_id t = Some x)
    (Hok : id_ok a /\ id_ok x /\ id_ok (task_id t) /\ id_ok a' /\ id_ok x' /\ id_ok i') :
  store_get loads f' i' (Some a') (Some x') =
    if decide ((a', x', i') = (a, x, task_id t)) then Ok (Some (task_to_payload t))
    else store_get loads f i' (Some a') (Some x').
Proof.
  destruct Hok as (Oa & Ox & Oi & Oa' & Ox' & Oi').
  assert (forall o, id_ok o -> truthy_opt (Some o) = Some o) as Ht.
  { intros o [Hne _]. cbn. by rewrite (proj2 (nonempty_true o) Hne). }
  unfold write_task in Hw. rewrite Ha, Hx, !Ht in Hw by done. rewrite st_bind_unfold in Hw.
  destruct (ensure_task_dir a x f) as [[[]|] f1] eqn:E; [|done].
  pose proof (ensure_files _ _ _ _ _ E) as Hens. unfold write_file in Hw.
  pose proof (fs_write_law _ _ _ _ Hw) as Hfile.
  unfold store_get. rewrite !Ht by done. rewrite !fs_read_law, Hfile.
  destruct (decide ((a', x', i') = (a, x, task_id t))) as [[= -> -> ->]|Hne].
  - rewrite decide_True by done. cbn. by rewrite Hjson.
  - rewrite decide_False, Hens; [done|]. intros Ep. apply Hne. symmetry in Ep |- *. by apply task_path_inj.
Qed.
End isolation.

(** ** A file system for concrete runs *)

Module MapFs.
Abbreviation fs := (gmap pystr (list N)).

#[global] Instance fs_ops : AGFS fs := {
  fs_read f p := match f !! p with Some c => Ok c | None => Err NotFoundError end;
  fs_write f p c := (Ok tt, <[p := c]> f);
  fs_ls f d := Ok ((fun p => MkItem p []) <$> filter (fun p => sub_path d [] `prefix_of` p) (fst <$> map_to_list f));
  fs_mkdir f p := (Ok tt, f);
  fs_rm f p := (Ok tt, delete p f) }.

#[global] Instance fs_ok : AGFSOk fs.
Proof.
  refine {| fs_file := fun (f : fs) p => f !! p |}.
  - done.
  - intros f p c f' [= <-] p'. rewrite lookup_insert. repeat case_decide; congruence.
  - by intros f p r f' [= <- <-].
  - intros f p f' [= <-] p'. rewrite lookup_delete. repeat case_decide; congruence.
Defined.

Definition task (i : pystr) : TaskRecord :=
  MkTask i (u "add_resource") PENDING 1 1 None (Some (u "acme")) (Some (u "alice")) [] None None None [].

End MapFs.

Lemma persistent_write_isolated_witness :
  let t := MapFs.task (u "t1") in
  let loads : list N -> result pydict := fun _ => Ok (task_to_payload t) in
  let f' := snd (write_task (fun _ => [1]) t (∅ : MapFs.fs)) in
  store_get loads f' (u "t1") (Some (u "acme")) (Some (u "alice")) = Ok (Some (task_to_payload t))
  /\ store_get loads f' (u "t1") (Some (u "acme")) (Some (u "bob")) = Ok None.
Proof.
  cbn zeta. split.
  - rewrite (persistent_write_isolated (fun _ => [1]) (fun _ => Ok (task_to_payload (MapFs.task (u "t1")))) (∅ : MapFs.fs)
               (snd (write_task (fun _ => [1]) (MapFs.task (u "t1")) (∅ : MapFs.fs))) (MapFs.task (u "t1")) (u "acme") (u "alice")
               (u "acme") (u "alice") (u "t1")); [by vm_compute|done|done|done|done|].
    split_and!; decided.
  - by vm_compute.
Defined.
