(* ===== verification/Tokens.v ===== *)
(** Token estimation: [openviking/utils/token_estimation.py]. *)
From Stdlib Require Import NArith ZArith.
From S2P Require Import Prelude PyStr.

Open Scope N_scope.

(** [str.isascii]. *)
Definition isascii (s : pystr) : bool := forallb (fun c => c <? 128) s.

Definition in_range (lo hi c : N) : bool := (lo <=? c) && (c <=? hi).

(** Quarter-token units of one character. *)
Definition char_units (code_point : N) : N :=
  if in_range 0x4E00 0x9FFF code_point then 6
  else if code_point <? 0x1100 then 1
  else if (code_point <=? 0x11FF) || in_range 0x3000 0x30FF code_point || in_range 0x3130 0x318F code_point
       || in_range 0x31F0 0x31FF code_point || in_range 0x3400 0x4DBF code_point
       || in_range 0xAC00 0xD7AF code_point || in_range 0xF900 0xFAFF code_point
       || in_range 0xFF00 0xFFEF code_point || in_range 0x20000 0x2EBEF code_point then 6
  else if 0xFFFF <? code_point then 8
  else 1.

Definition units (s : pystr) : N := foldl (fun n c => n + char_units c) 0 s.

Definition estimate_text_tokens (s : pystr) : N :=
  match s with
  | [] => 0
  | _ => if isascii s then (N.of_nat (length s) + 3) / 4 else (units s + 3) / 4
  end.

(** ** Truncation *)

(** The binary search of [_prefix_length]: each round halves the interval, so its
    width is enough fuel. *)
Fixpoint prefix_search (fuel : nat) (value : pystr) (budget : N) (low high : nat) : nat :=
  match fuel with
  | O => low
  | S fuel =>
      if (low <? high)%nat then
        let mid := ((low + high + 1) / 2)%nat in
        if estimate_text_tokens (take mid value) <=? budget
        then prefix_search fuel value budget mid high
        else prefix_search fuel value budget low (mid - 1)
      else low
  end.

Definition prefix_length (value : pystr) (budget : N) : nat :=
  prefix_search (length value) value budget 0 (length value).

(** The default [marker] and [head_ratio]; three quarters of an integer, truncated. *)
Definition MARKER : pystr := [10; 0x2026; 10].
Definition head_share (n : N) : N := n * 3 / 4.

Definition truncate_text_to_token_budget (text : pystr) (max_tokens : Z) : pystr :=
  if negb (nonempty text) || (Z.of_N (estimate_text_tokens text) <=? max_tokens)%Z then text
  else if (max_tokens <=? 0)%Z then []
  else
    let max_tokens := Z.to_N max_tokens in
    let '(marker, marker_tokens) :=
      if max_tokens <=? estimate_text_tokens MARKER then ([], 0)
      else (MARKER, estimate_text_tokens MARKER) in
    let content_tokens := max_tokens - marker_tokens in
    let head_tokens := head_share content_tokens in
    let tail_tokens := content_tokens - head_tokens in
    let head_end := prefix_length text head_tokens in
    let remaining := drop head_end text in
    let tail_length := prefix_length (reverse remaining) tail_tokens in
    let tail := drop (length remaining - tail_length) remaining in
    rstrip is_space (take head_end text) ++ marker ++ lstrip is_space tail.

(** ** Facts *)

Lemma foldl_units n s : foldl (fun n c => n + char_units c) n s = n + units s.
Proof.
  unfold units. revert n. induction s as [|c s IH]; intros n; cbn [foldl]; [by rewrite N.add_0_r|].
  rewrite (IH (n + char_units c)), (IH (0 + char_units c)). by rewrite N.add_0_l, N.add_assoc.
Qed.

Lemma units_cons c s : units (c :: s) = char_units c + units s.
Proof. unfold units at 1. cbn [foldl]. by rewrite foldl_units, N.add_0_l. Qed.

Lemma units_app a b : units (a ++ b) = units a + units b.
Proof. induction a as [|c a IH]; [done|]. cbn [app]. rewrite !units_cons, IH. lia. Qed.

Lemma units_reverse s : units (reverse s) = units s.
Proof.
  induction s as [|c s IH]; [done|]. rewrite reverse_cons, units_app, (units_cons c s), IH.
  change (units [c]) with (0 + char_units c). lia.
Qed.

Lemma units_ascii s : isascii s = true -> units s = N.of_nat (length s).
Proof.
  induction s as [|c s IH]; cbn [isascii forallb]; intros H; [done|]. apply andb_true_iff in H as [Hc Hs].
  rewrite units_cons, IH by done. apply N.ltb_lt in Hc.
  unfold char_units, in_range. rewrite (proj2 (N.leb_gt 0x4E00 c)) by lia. cbn [andb].
  rewrite (proj2 (N.ltb_lt c 0x1100)) by lia. cbn [length]. lia.
Qed.

(** The ASCII fast path computes the same as the loop over characters. *)
Lemma estimate_units s : estimate_text_tokens s = (units s + 3) / 4.
Proof.
  unfold estimate_text_tokens. destruct s as [|c s]; [done|].
  destruct (isascii (c :: s)) eqn:E; [|done]. by rewrite (units_ascii _ E).
Qed.

Lemma char_units_bounds c : 1 <= char_units c <= 8.
Proof. unfold char_units. repeat case_match; lia. Qed.

Lemma estimate_mono a b : units a <= units b -> estimate_text_tokens a <= estimate_text_tokens b.
Proof. intros. rewrite !estimate_units. apply N.Div0.div_le_mono. lia. Qed.

Lemma estimate_app a b : estimate_text_tokens (a ++ b) <= estimate_text_tokens a + estimate_text_tokens b.
Proof.
  rewrite !estimate_units, units_app.
  pose proof (N.div_mod (units a + 3) 4 ltac:(done)). pose proof (N.div_mod (units b + 3) 4 ltac:(done)).
  pose proof (N.mod_lt (units a + 3) 4 ltac:(done)). pose proof (N.mod_lt (units b + 3) 4 ltac:(done)).
  apply N.lt_succ_r. apply N.Div0.div_lt_upper_bound. lia.
Qed.

Lemma units_sub a b : a `sublist_of` b -> units a <= units b.
Proof.
  induction 1 as [|x a b _ IH|x a b _ IH]; [done| |]; rewrite ?units_cons; lia.
Qed.

Lemma estimate_take_mono s i j : (i <= j)%nat -> estimate_text_tokens (take i s) <= estimate_text_tokens (take j s).
Proof.
  intros H. apply estimate_mono, units_sub.
  replace (take i s) with (take i (take j s)) by (rewrite take_take; f_equal; lia). apply sublist_take.
Qed.

Lemma prefix_search_spec fuel value budget low high :
  (high - low <= fuel)%nat -> (low <= high <= length value)%nat ->
  estimate_text_tokens (take low value) <= budget ->
  (forall k, (high < k <= length value)%nat -> budget < estimate_text_tokens (take k value)) ->
  let r := prefix_search fuel value budget low high in
  (r <= length value)%nat /\ estimate_text_tokens (take r value) <= budget
  /\ forall k, (r < k <= length value)%nat -> budget < estimate_text_tokens (take k value).
Proof.
  cbn zeta. revert low high. induction fuel as [|fuel IH]; intros low high Hf Hr Hlow Hhigh; cbn [prefix_search].
  - split_and!; [lia|done|]. intros k Hk. apply Hhigh. lia.
  - destruct (Nat.ltb_spec low high) as [Hlt|Hge].
    2: { split_and!; [lia|done|]. intros k Hk. apply Hhigh. lia. }
    set (mid := ((low + high + 1) / 2)%nat).
    assert (low < mid <= high)%nat as Hmid.
    { unfold mid. pose proof (Nat.div_mod_eq (low + high + 1) 2). pose proof (Nat.mod_upper_bound (low + high + 1) 2). lia. }
    destruct (N.leb_spec (estimate_text_tokens (take mid value)) budget) as [Hm|Hm].
    + apply IH; [lia|lia|done|done].
    + apply IH; [lia|lia|done|]. intros k Hk. destruct (Nat.le_gt_cases k high) as [Hkh|]; [|apply Hhigh; lia].
      pose proof (estimate_take_mono value mid k ltac:(lia)). lia.
Qed.

(** The search returns the longest prefix within the budget. *)
Lemma prefix_length_spec value budget :
  let r := prefix_length value budget in
  (r <= length value)%nat /\ estimate_text_tokens (take r value) <= budget
  /\ forall k, (r < k <= length value)%nat -> budget < estimate_text_tokens (take k value).
Proof.
  apply prefix_search_spec; [lia|lia|rewrite take_0; cbn; lia|lia].
Qed.

(** A truncated text costs at most the budget. *)
Lemma truncate_within (text : pystr) (max_tokens : Z) :
  (Z.of_N (estimate_text_tokens (truncate_text_to_token_budget text max_tokens)) <= Z.max 0 max_tokens)%Z.
Proof.
  unfold truncate_text_to_token_budget.
  destruct (negb (nonempty text) || _) eqn:E.
  { apply orb_true_iff in E as [E|E]; [|apply Z.leb_le in E; lia].
    apply negb_true_iff, nonempty_false in E as ->. cbn. lia. }
  destruct (Z.leb_spec max_tokens 0) as [Hz|Hz]; [cbn; lia|].
  set (m := Z.to_N max_tokens).
  destruct (if m <=? estimate_text_tokens MARKER then _ else _) as [marker mt] eqn:Em.
  assert (estimate_text_tokens marker <= mt /\ mt <= m) as [Hmk Hmt].
  { revert Em. destruct (N.leb_spec m (estimate_text_tokens MARKER)); intros [= <- <-]; [change (estimate_text_tokens []) with 0; lia|split; [done|by apply N.lt_le_incl]]. }
  set (h := head_share (m - mt)).
  assert (h <= m - mt) as Hh.
  { unfold h, head_share. apply N.Div0.div_le_upper_bound. lia. }
  set (he := prefix_length text h). set (remaining := drop he text).
  set (tl := prefix_length (reverse remaining) (m - mt - h)).
  pose proof (prefix_length_spec text h) as (_ & Hhead & _). fold he in Hhead.
  pose proof (prefix_length_spec (reverse remaining) (m - mt - h)) as (Hl & Htail & _). fold tl in Hl, Htail.
  assert (estimate_text_tokens (drop (length remaining - tl) remaining) <= m - mt - h) as Htail'.
  { etransitivity; [|exact Htail]. apply estimate_mono. rewrite length_reverse in Hl.
    by rewrite take_reverse, units_reverse. }
  pose proof (estimate_app (rstrip is_space (take he text)) (marker ++ lstrip is_space (drop (length remaining - tl) remaining))) as H1.
  pose proof (estimate_app marker (lstrip is_space (drop (length remaining - tl) remaining))) as H2.
  assert (estimate_text_tokens (rstrip is_space (take he text)) <= h) as H3.
  { etransitivity; [|exact Hhead]. apply estimate_mono.
    destruct (rstrip_decomp is_space (take he text)) as (k & Hk & _). rewrite Hk at 2. rewrite units_app. lia. }
  assert (estimate_text_tokens (lstrip is_space (drop (length remaining - tl) remaining)) <= m - mt - h) as H4.
  { etransitivity; [|exact Htail']. apply estimate_mono.
    destruct (lstrip_suffix is_space (drop (length remaining - tl) remaining)) as (k & Hk). rewrite Hk at 2. rewrite units_app. lia. }
  unfold m in *. lia.
Qed.

(** Truncation respects the budget and stops as late as it can: the result never
    costs more than the (non-negative) budget; a text that fits is unchanged; and the
    part kept from the head is cut from the longest prefix its share of the budget
    allows.  The estimate itself is the same with and without the ASCII fast path. *)
Theorem truncate_fits (text : pystr) (max_tokens : Z) :
  (Z.of_N (estimate_text_tokens (truncate_text_to_token_budget text max_tokens)) <= Z.max 0 max_tokens)%Z
  /\ ((Z.of_N (estimate_text_tokens text) <= max_tokens)%Z -> truncate_text_to_token_budget text max_tokens = text)
  /\ (forall budget k, (prefix_length text budget < k <= length text)%nat -> budget < (units (take k text) + 3) / 4)
  /\ estimate_text_tokens text = (units text + 3) / 4.
Proof.
  split_and!; [apply truncate_within| |intros b k Hk; rewrite <- estimate_units; by apply prefix_length_spec|apply estimate_units].
  - intros H. unfold truncate_text_to_token_budget. apply Z.leb_le in H. by rewrite H, orb_true_r.
Qed.
