(* ===== verification/Message.v ===== *)
(** Messages and their parts: [openviking/message/part.py],
    [openviking/message/message.py]. *)
From Stdlib Require Import NArith ZArith.
From S2P Require Import Prelude PyStr PyVal Identifiers Tokens.

Open Scope N_scope.

(** ** Parts *)

(** Numbers that may be absent are kept as values, [VNone] when absent. *)
Record ToolPart := MkTool {
  tool_id : pystr;
  tool_name : pystr;
  tool_uri : pystr;
  skill_uri : pystr;
  tool_input : option pydict;
  tool_output : pystr;
  tool_status : pystr;
  duration_ms : pyval;
  prompt_tokens : pyval;
  completion_tokens : pyval;
  tool_output_ref : pystr;
  tool_output_truncated : bool;
  tool_output_original_chars : pyval;
  tool_output_preview_chars : pyval;
  tool_output_sha256 : pystr;
  tool_output_storage_uri : pystr;
  tool_output_mime_type : pystr;
  tool_output_source_ref : pystr;
  tool_output_source_offset : pyval;
  tool_output_source_limit : pyval;
  tool_output_externalization_error : pystr;
  tool_output_group_id : pystr;
  tool_output_externalized_reason : pystr;
  tool_output_group_original_chars : pyval;
  tool_output_group_budget_chars : pyval }.

Inductive Part :=
| TextPart (text : pystr)
| ContextPart (uri context_type abstract : pystr)
| ImagePart (url : pystr) (detail : pyval)
| PTool (t : ToolPart).

Record Message := MkMsg {
  m_id : pystr;
  m_role : pystr;
  m_parts : list Part;
  m_peer_id : option pystr;
  m_created_at : option pystr;
  m_turn_id : option pystr;
  m_message_kind : option pystr;
  m_source_message_ids : option (list pystr) }.

(** [content]: the text of the first text part. *)
Definition content (m : Message) : pystr :=
  (fix go (ps : list Part) : pystr :=
     match ps with
     | [] => []
     | TextPart t :: _ => t
     | _ :: ps => go ps
     end) (m_parts m).

(** ** Writing *)

(** Optional dict entries: [if cond: d[k] = v]. *)
Definition present (fields : list (pystr * option pyval)) : pydict :=
  omap (fun '(k, o) => pair k <$> o) fields.

Definition always (v : pyval) : option pyval := Some v.
Definition if_str (s : pystr) : option pyval := if nonempty s then Some (VStr s) else None.
Definition if_val (v : pyval) : option pyval := match v with VNone => None | v => Some v end.
Definition if_opt (o : option pystr) : option pyval := VStr <$> o.

Definition tool_fields (t : ToolPart) : list (pystr * option pyval) :=
  [(u "type", always (VStr (u "tool")));
   (u "tool_id", always (VStr (tool_id t)));
   (u "tool_name", always (VStr (tool_name t)));
   (u "tool_uri", always (VStr (tool_uri t)));
   (u "skill_uri", always (VStr (skill_uri t)));
   (u "tool_status", always (VStr (tool_status t)));
   (u "tool_input", match tool_input t with Some ((_ :: _) as d) => Some (VDict d) | _ => None end);
   (u "tool_output", if_str (tool_output t));
   (u "duration_ms", if_val (duration_ms t));
   (u "prompt_tokens", if_val (prompt_tokens t));
   (u "completion_tokens", if_val (completion_tokens t));
   (u "tool_output_ref", if_str (tool_output_ref t));
   (u "tool_output_truncated", if tool_output_truncated t then Some (VBool true) else None);
   (u "tool_output_original_chars", if_val (tool_output_original_chars t));
   (u "tool_output_preview_chars", if_val (tool_output_preview_chars t));
   (u "tool_output_sha256", if_str (tool_output_sha256 t));
   (u "tool_output_storage_uri", if_str (tool_output_storage_uri t));
   (u "tool_output_mime_type", if seqb (tool_output_mime_type t) (u "text/plain") then None
                               else if_str (tool_output_mime_type t));
   (u "tool_output_source_ref", if_str (tool_output_source_ref t));
   (u "tool_output_source_offset", if_val (tool_output_source_offset t));
   (u "tool_output_source_limit", if_val (tool_output_source_limit t));
   (u "tool_output_externalization_error", if_str (tool_output_externalization_error t));
   (u "tool_output_group_id", if_str (tool_output_group_id t));
   (u "tool_output_externalized_reason", if_str (tool_output_externalized_reason t));
   (u "tool_output_group_original_chars", if_val (tool_output_group_original_chars t));
   (u "tool_output_group_budget_chars", if_val (tool_output_group_budget_chars t))].

Definition part_to_dict (p : Part) : pydict :=
  match p with
  | TextPart text => [(u "type", VStr (u "text")); (u "text", VStr text)]
  | ContextPart uri ct abstract =>
      [(u "type", VStr (u "context")); (u "uri", VStr uri); (u "context_type", VStr ct); (u "abstract", VStr abstract)]
  | ImagePart url detail =>
      [(u "type", VStr (u "image_url"));
       (u "image_url", VDict (present [(u "url", always (VStr url)); (u "detail", if_val detail)]))]
  | PTool t => present (tool_fields t)
  end.

(** [created_at or now]. *)
Definition created_text (now : pystr) (m : Message) : pystr :=
  match m_created_at m with Some c => if nonempty c then c else now | None => now end.

(** [Message.to_dict]; [now] is the current time as an ISO text. *)
Definition message_fields (now : pystr) (m : Message) : list (pystr * option pyval) :=
    [(u "id", always (VStr (m_id m)));
     (u "role", always (VStr (m_role m)));
     (u "parts", always (VList ((fun p => VDict (part_to_dict p)) <$> m_parts m)));
     (u "created_at", always (VStr (created_text now m)));
     (u "peer_id", if_opt (m_peer_id m));
     (u "turn_id", if_opt (m_turn_id m));
     (u "message_kind", if_opt (m_message_kind m));
     (u "source_message_ids", (fun l => VList (VStr <$> l)) <$> m_source_message_ids m)].

Definition to_dict (now : pystr) (m : Message) : pydict := present (message_fields now m).

(** ** Token estimate *)

Section tokens.
(** [json.dumps(tool_input, ensure_ascii=False)]. *)
Context (dumps : pydict -> pystr).

Definition part_texts (p : Part) : list pystr :=
  match p with
  | TextPart text => [text]
  | ContextPart _ _ abstract => [abstract]
  | ImagePart _ _ => []
  | PTool t =>
      [tool_id t; tool_name t]
      ++ match tool_input t with Some ((_ :: _) as d) => [dumps d] | _ => [] end
      ++ (if nonempty (tool_output t) then [tool_output t] else [])
  end.

Definition estimated_tokens (m : Message) : N :=
  estimate_text_tokens (concat (m_parts m ≫= part_texts)).
End tokens.

(** ** Reading *)

(** Typed [data.get(k, default)]; a value of another type is outside the typed records
    of the model. *)
Definition get_str (d : pydict) (k : string) (dflt : pystr) : result pystr :=
  match dict_get d (u k) with None => Ok dflt | Some (VStr s) => Ok s | Some _ => Err TypeError end.
Definition get_val (d : pydict) (k : string) : pyval := default VNone (dict_get d (u k)).
Definition get_opt_str (d : pydict) (k : string) : result (option pystr) :=
  match get_val d k with VStr s => Ok (Some s) | VNone => Ok None | _ => Err TypeError end.
Definition get_opt_dict (d : pydict) (k : string) : result (option pydict) :=
  match get_val d k with VDict s => Ok (Some s) | VNone => Ok None | _ => Err TypeError end.
(** [bool(data.get(k, False))]. *)
Definition get_bool (d : pydict) (k : string) : bool :=
  match dict_get d (u k) with Some v => py_truthy v | None => false end.

Section reading.
(** [str] of a value that is not a string. *)
Context (render : pyval -> pystr).

Definition py_text (v : pyval) : pystr := match v with VStr s => s | v => render v end.

Definition parse_image_url_payload (data : pydict) : pystr * pyval :=
  match get_val data "image_url" with
  | VDict image_url =>
      let url := match dict_get image_url (u "url") with
                 | Some v => if py_truthy v then py_text v else []
                 | None => []
                 end in
      (url, get_val image_url "detail")
  | VStr s => (s, VNone)
  | _ => ([], VNone)
  end.

Definition tool_from_dict (data : pydict) : result ToolPart :=
  a1 ← get_str data "tool_id" [];
  a2 ← get_str data "tool_name" [];
  a3 ← get_str data "tool_uri" [];
  a4 ← get_str data "skill_uri" [];
  a5 ← get_opt_dict data "tool_input";
  a6 ← get_str data "tool_output" [];
  a7 ← get_str data "tool_status" (u "pending");
  b1 ← get_str data "tool_output_ref" [];
  b2 ← get_str data "tool_output_sha256" [];
  b3 ← get_str data "tool_output_storage_uri" [];
  b4 ← get_str data "tool_output_mime_type" (u "text/plain");
  b5 ← get_str data "tool_output_source_ref" [];
  b6 ← get_str data "tool_output_externalization_error" [];
  b7 ← get_str data "tool_output_group_id" [];
  b8 ← get_str data "tool_output_externalized_reason" [];
  Ok (MkTool a1 a2 a3 a4 a5 a6 a7
        (get_val data "duration_ms") (get_val data "prompt_tokens") (get_val data "completion_tokens")
        b1 (get_bool data "tool_output_truncated")
        (get_val data "tool_output_original_chars") (get_val data "tool_output_preview_chars")
        b2 b3 b4 b5
        (get_val data "tool_output_source_offset") (get_val data "tool_output_source_limit")
        b6 b7 b8
        (get_val data "tool_output_group_original_chars") (get_val data "tool_output_group_budget_chars")).

Definition part_from_dict (data : pydict) : result Part :=
  match default (VStr (u "text")) (dict_get data (u "type")) with
  | VStr ty =>
      if seqb ty (u "text") then t ← get_str data "text" []; Ok (TextPart t)
      else if seqb ty (u "context") then
        uri ← get_str data "uri" [];
        ct ← get_str data "context_type" (u "memory");
        ab ← get_str data "abstract" [];
        Ok (ContextPart uri ct ab)
      else if seqb ty (u "image_url") then
        let '(url, detail) := parse_image_url_payload data in
        if negb (nonempty (strip is_space url)) then Err ValueError else Ok (ImagePart url detail)
      else if seqb ty (u "tool") then t ← tool_from_dict data; Ok (PTool t)
      else Ok (TextPart (match dict_get data (u "text") with
                         | Some v => if py_truthy v then py_text v else []
                         | None => render (VDict data)
                         end))
  | _ => Ok (TextPart (match dict_get data (u "text") with
                       | Some v => if py_truthy v then py_text v else []
                       | None => render (VDict data)
                       end))
  end.

Fixpoint parts_from_dicts (l : list pyval) : result (list Part) :=
  match l with
  | [] => Ok []
  | VDict d :: l => p ← part_from_dict d; ps ← parts_from_dicts l; Ok (p :: ps)
  | _ :: _ => Err TypeError
  end.

Fixpoint strs_of (l : list pyval) : result (list pystr) :=
  match l with
  | [] => Ok []
  | VStr s :: l => ss ← strs_of l; Ok (s :: ss)
  | _ :: _ => Err TypeError
  end.

Definition from_dict (data : pydict) : result Message :=
  raw_parts ← match get_val data "parts" with
              | VNone => match get_val data "content" with
                         | VNone => Ok []
                         | legacy => Ok [VDict [(u "type", VStr (u "text")); (u "text", legacy)]]
                         end
              | VList l => Ok l
              | _ => Err TypeError
              end;
  parts ← parts_from_dicts raw_parts;
  raw_peer ← get_opt_str data "peer_id";
  let peer_id := match normalize_peer_id raw_peer with Ok p => p | Err _ => raw_peer end in
  id ← match dict_get data (u "id") with Some (VStr s) => Ok s | Some _ => Err TypeError | None => Err KeyError end;
  role ← match dict_get data (u "role") with Some (VStr s) => Ok s | Some _ => Err TypeError | None => Err KeyError end;
  created ← get_opt_str data "created_at";
  turn ← get_opt_str data "turn_id";
  kind ← get_opt_str data "message_kind";
  sources ← match get_val data "source_message_ids" with
            | VList l => Some <$> strs_of l
            | _ => Ok None
            end;
  Ok (MkMsg id role parts peer_id created turn kind sources).
End reading.

(** ** Round trips *)

Lemma present_get (fields : list (pystr * option pyval)) k :
  NoDup (fst <$> fields) ->
  dict_get (present fields) k = match dict_get fields k with Some o => o | None => None end.
Proof.
  unfold present. induction fields as [|[k' o] fields IH]; [done|]. rewrite fmap_cons. cbn [fst].
  intros [Hk Hnd]%NoDup_cons. cbn [omap list_omap dict_get]. destruct o as [v|]; cbn [fmap option_fmap option_map].
  - cbn [dict_get]. destruct (seqb k' k); [done|]. by apply IH.
  - destruct (seqb k' k) eqn:E; [|by apply IH]. apply seqb_true in E as ->. rewrite IH by done.
    assert (dict_get fields k = None) as ->; [|done]. by apply dict_get_None.
Qed.

Lemma tool_fields_keys t : NoDup (fst <$> tool_fields t).
Proof. apply (bool_decide_unpack _). by vm_compute. Qed.

(** What writing forgets: an empty tool input and an empty MIME type are not written. *)
Definition norm_tool (t : ToolPart) : ToolPart :=
  MkTool (tool_id t) (tool_name t) (tool_uri t) (skill_uri t)
    (match tool_input t with Some [] => None | i => i end) (tool_output t) (tool_status t)
    (duration_ms t) (prompt_tokens t) (completion_tokens t) (tool_output_ref t) (tool_output_truncated t)
    (tool_output_original_chars t) (tool_output_preview_chars t) (tool_output_sha256 t) (tool_output_storage_uri t)
    (if nonempty (tool_output_mime_type t) then tool_output_mime_type t else u "text/plain")
    (tool_output_source_ref t) (tool_output_source_offset t) (tool_output_source_limit t)
    (tool_output_externalization_error t) (tool_output_group_id t) (tool_output_externalized_reason t)
    (tool_output_group_original_chars t) (tool_output_group_budget_chars t).

Definition norm_part (p : Part) : Part := match p with PTool t => PTool (norm_tool t) | p => p end.

(** The value a field of a tool part reads back as. *)
Lemma tool_get t k : dict_get (present (tool_fields t)) k = match dict_get (tool_fields t) k with Some o => o | None => None end.
Proof. apply present_get, tool_fields_keys. Qed.

Lemma get_if_str (d : pydict) k s : dict_get d (u k) = if_str s -> get_str d k [] = Ok s.
Proof.
  intros H. unfold get_str. rewrite H. unfold if_str. destruct (nonempty s) eqn:E; [done|].
  by apply nonempty_false in E as ->.
Qed.

Lemma get_if_val (d : pydict) k v : dict_get d (u k) = if_val v -> get_val d k = v.
Proof. intros H. unfold get_val. rewrite H. by destruct v. Qed.

Lemma get_always (d : pydict) k s dflt : dict_get d (u k) = always (VStr s) -> get_str d k dflt = Ok s.
Proof. intros H. unfold get_str. by rewrite H. Qed.

Ltac tool_field := rewrite tool_get; by vm_compute.

(** Reading a dict whose fields are those of [t]. *)
Definition reads_as (d : pydict) (t : ToolPart) : Prop :=
  (forall dflt, get_str d "tool_id" dflt = Ok (tool_id t)) /\ (forall dflt, get_str d "tool_name" dflt = Ok (tool_name t))
  /\ (forall dflt, get_str d "tool_uri" dflt = Ok (tool_uri t)) /\ (forall dflt, get_str d "skill_uri" dflt = Ok (skill_uri t))
  /\ (forall dflt, get_str d "tool_status" dflt = Ok (tool_status t))
  /\ get_str d "tool_output" [] = Ok (tool_output t)
  /\ get_str d "tool_output_ref" [] = Ok (tool_output_ref t)
  /\ get_str d "tool_output_sha256" [] = Ok (tool_output_sha256 t)
  /\ get_str d "tool_output_storage_uri" [] = Ok (tool_output_storage_uri t)
  /\ get_str d "tool_output_source_ref" [] = Ok (tool_output_source_ref t)
  /\ get_str d "tool_output_externalization_error" [] = Ok (tool_output_externalization_error t)
  /\ get_str d "tool_output_group_id" [] = Ok (tool_output_group_id t)
  /\ get_str d "tool_output_externalized_reason" [] = Ok (tool_output_externalized_reason t)
  /\ get_val d "duration_ms" = duration_ms t
  /\ get_val d "prompt_tokens" = prompt_tokens t
  /\ get_val d "completion_tokens" = completion_tokens t
  /\ get_val d "tool_output_original_chars" = tool_output_original_chars t
  /\ get_val d "tool_output_preview_chars" = tool_output_preview_chars t
  /\ get_val d "tool_output_source_offset" = tool_output_source_offset t
  /\ get_val d "tool_output_source_limit" = tool_output_source_limit t
  /\ get_val d "tool_output_group_original_chars" = tool_output_group_original_chars t
  /\ get_val d "tool_output_group_budget_chars" = tool_output_group_budget_chars t
  /\ get_opt_dict d "tool_input" = Ok (tool_input t)
  /\ get_str d "tool_output_mime_type" (u "text/plain") = Ok (tool_output_mime_type t)
  /\ get_bool d "tool_output_truncated" = tool_output_truncated t.

Lemma reads_as_ok d t : reads_as d t -> tool_from_dict d = Ok t.
Proof.
  intros H. destruct_and! H. unfold tool_from_dict.
  repeat match goal with E : forall dflt, get_str d ?k dflt = _ |- _ => rewrite E; clear E end.
  repeat match goal with E : _ = Ok _ |- _ => rewrite E; clear E end.
  cbn [mbind result_bind]. f_equal. destruct t. cbn in *. by subst.
Qed.

Lemma tool_input_get t :
  get_opt_dict (present (tool_fields t)) "tool_input" = Ok (match tool_input t with Some [] => None | i => i end).
Proof.
  unfold get_opt_dict, get_val. rewrite tool_get.
  assert (dict_get (tool_fields t) (u "tool_input")
          = Some (match tool_input t with Some ((_ :: _) as d) => Some (VDict d) | _ => None end)) as -> by by vm_compute.
  by destruct (tool_input t) as [[|]|].
Qed.

Lemma mime_get t :
  get_str (present (tool_fields t)) "tool_output_mime_type" (u "text/plain")
  = Ok (if nonempty (tool_output_mime_type t) then tool_output_mime_type t else u "text/plain").
Proof.
  unfold get_str. rewrite tool_get.
  assert (dict_get (tool_fields t) (u "tool_output_mime_type")
          = Some (if seqb (tool_output_mime_type t) (u "text/plain") then None
                  else if_str (tool_output_mime_type t))) as -> by by vm_compute.
  destruct (seqb _ _) eqn:E; [apply seqb_true in E as ->; by vm_compute|].
  unfold if_str. by destruct (nonempty _).
Qed.

Lemma truncated_get t : get_bool (present (tool_fields t)) "tool_output_truncated" = tool_output_truncated t.
Proof.
  unfold get_bool. rewrite tool_get.
  assert (dict_get (tool_fields t) (u "tool_output_truncated")
          = Some (if tool_output_truncated t then Some (VBool true) else None)) as -> by by vm_compute.
  by destruct (tool_output_truncated t).
Qed.

Lemma tool_roundtrip t : tool_from_dict (present (tool_fields t)) = Ok (norm_tool t).
Proof.
  apply reads_as_ok. unfold reads_as. split_and!.
  1-5: intros dflt; apply get_always; tool_field.
  1-8: apply get_if_str; tool_field.
  1-9: apply get_if_val; tool_field.
  - exact (tool_input_get t).
  - exact (mime_get t).
  - exact (truncated_get t).
Qed.

(** A part that can be read back: an image needs an address. *)
Definition part_ok (p : Part) : Prop :=
  match p with ImagePart url _ => nonempty (strip is_space url) = true | _ => True end.

Lemma part_from_tool render d t :
  dict_get d (u "type") = Some (VStr (u "tool")) -> tool_from_dict d = Ok t -> part_from_dict render d = Ok (PTool t).
Proof. intros H1 H2. unfold part_from_dict. rewrite H1, H2. by vm_compute. Qed.

Lemma part_from_image render d url detail :
  dict_get d (u "type") = Some (VStr (u "image_url")) -> parse_image_url_payload render d = (url, detail) ->
  nonempty (strip is_space url) = true -> part_from_dict render d = Ok (ImagePart url detail).
Proof.
  intros H1 H2 H3. unfold part_from_dict. rewrite H1, H2. cbn [from_option id]. eval_seqb. by rewrite H3.
Qed.

Lemma image_payload render d img url detail :
  get_val d "image_url" = VDict img -> dict_get img (u "url") = Some (VStr url) -> get_val img "detail" = detail ->
  parse_image_url_payload render d = (url, detail).
Proof.
  intros H1 H2 H3. unfold parse_image_url_payload. rewrite H1, H2, H3. cbn [py_truthy py_text].
  destruct (nonempty url) eqn:E; [done|]. by apply nonempty_false in E as ->.
Qed.

Lemma image_detail url detail : get_val (present [(u "url", always (VStr url)); (u "detail", if_val detail)]) "detail" = detail.
Proof.
  apply get_if_val. rewrite present_get; [by vm_compute|decided].
Qed.

Lemma part_roundtrip render p : part_ok p -> part_from_dict render (part_to_dict p) = Ok (norm_part p).
Proof.
  destruct p as [text|uri ct ab|url detail|t]; intros Hok.
  - by vm_compute.
  - by vm_compute.
  - apply part_from_image; [by vm_compute| |exact Hok].
    eapply image_payload; [by vm_compute|by vm_compute|apply image_detail].
  - apply part_from_tool; [exact (eq_trans (tool_get t (u "type")) eq_refl)|apply tool_roundtrip].
Qed.

Lemma message_fields_keys now m : NoDup (fst <$> message_fields now m).
Proof. decided. Qed.

Lemma message_get now m k :
  dict_get (to_dict now m) k = match dict_get (message_fields now m) k with Some o => o | None => None end.
Proof. apply present_get, message_fields_keys. Qed.

Lemma parts_roundtrip render ps :
  Forall part_ok ps -> parts_from_dicts render ((fun p => VDict (part_to_dict p)) <$> ps) = Ok (norm_part <$> ps).
Proof.
  induction 1 as [|p ps Hp _ IH]; [done|]. rewrite !fmap_cons. cbn [parts_from_dicts].
  rewrite part_roundtrip by done. cbn [mbind result_bind]. by rewrite IH.
Qed.

Lemma strs_roundtrip l : strs_of (VStr <$> l) = Ok l.
Proof. induction l as [|s l IH]; [done|]. rewrite fmap_cons. cbn [strs_of]. by rewrite IH. Qed.

Lemma get_if_opt (d : pydict) k o : dict_get d (u k) = if_opt o -> get_opt_str d k = Ok o.
Proof. intros H. unfold get_opt_str, get_val. rewrite H. by destruct o. Qed.

(** Reading a message from a dict with the given fields. *)
Lemma from_dict_fields render d id role raws parts raw_peer created turn kind sources :
  get_val d "parts" = VList raws -> parts_from_dicts render raws = Ok parts ->
  get_opt_str d "peer_id" = Ok raw_peer -> dict_get d (u "id") = Some (VStr id) -> dict_get d (u "role") = Some (VStr role) ->
  get_opt_str d "created_at" = Ok created -> get_opt_str d "turn_id" = Ok turn -> get_opt_str d "message_kind" = Ok kind ->
  get_val d "source_message_ids" = match sources with Some l => VList (VStr <$> l) | None => VNone end ->
  from_dict render d = Ok (MkMsg id role parts (match normalize_peer_id raw_peer with Ok p => p | Err _ => raw_peer end)
                             created turn kind sources).
Proof.
  intros H1 H2 H3 H4 H5 H6 H7 H8 H9. unfold from_dict. rewrite H1. cbn [mbind result_bind]. rewrite H2.
  cbn [mbind result_bind]. rewrite H3. cbn [mbind result_bind]. rewrite H4, H5. cbn [mbind result_bind].
  rewrite H6. cbn [mbind result_bind]. rewrite H7. cbn [mbind result_bind]. rewrite H8. cbn [mbind result_bind].
  rewrite H9. destruct sources as [l|]; [rewrite strs_roundtrip|]; done.
Qed.

(** Messages round-trip through their JSON form: reading what was written gives the
    same message, with the time stamp filled in, an empty tool input or MIME type read
    as absent or default, and the peer id normalised when it is valid. *)
Theorem message_roundtrip (render : pyval -> pystr) (now : pystr) (m : Message) (Hparts : Forall part_ok (m_parts m)) :
  from_dict render (to_dict now m) =
    Ok (MkMsg (m_id m) (m_role m) (norm_part <$> m_parts m)
          (match normalize_peer_id (m_peer_id m) with Ok p => p | Err _ => m_peer_id m end)
          (Some (created_text now m)) (m_turn_id m) (m_message_kind m) (m_source_message_ids m)).
Proof.
  apply (from_dict_fields render (to_dict now m) (m_id m) (m_role m) ((fun p => VDict (part_to_dict p)) <$> m_parts m)).
  - unfold get_val. rewrite message_get.
    assert (dict_get (message_fields now m) (u "parts")
            = Some (Some (VList ((fun p => VDict (part_to_dict p)) <$> m_parts m)))) as ->; [|done].
    cbn [message_fields dict_get]. by eval_seqb.
  - by apply parts_roundtrip.
  - apply get_if_opt. rewrite message_get. by vm_compute.
  - rewrite message_get. by vm_compute.
  - rewrite message_get. by vm_compute.
  - unfold get_opt_str, get_val. rewrite message_get. by vm_compute.
  - apply get_if_opt. rewrite message_get. by vm_compute.
  - apply get_if_opt. rewrite message_get. by vm_compute.
  - unfold get_val. rewrite message_get.
    assert (dict_get (message_fields now m) (u "source_message_ids")
            = Some ((fun l => VList (VStr <$> l)) <$> m_source_message_ids m)) as -> by by vm_compute.
    by destruct (m_source_message_ids m).
Qed.

Lemma message_roundtrip_witness :
  let m := MkMsg (u "m1") (u "user") [TextPart (u "hi"); ImagePart (u "http://x") VNone] (Some (u "bob")) None None (Some (u "user_query")) None in
  from_dict (fun _ => []) (to_dict (u "now") m)
  = Ok (MkMsg (u "m1") (u "user") [TextPart (u "hi"); ImagePart (u "http://x") VNone] (Some (u "bob")) (Some (u "now")) None (Some (u "user_query")) None).
Proof.
  cbn zeta. rewrite message_roundtrip; [by vm_compute|]. repeat constructor.
Defined.
