(* ===== verification/Retention.v ===== *)
(** Turn-aware retention: [openviking/session/retention.py].

    Messages are grouped into turns and atomic steps, an archive boundary is chosen
    under a token budget, and a budgeted view of the active messages is built. *)
From Stdlib Require Import NArith ZArith.
From S2P Require Import Prelude PyStr PyVal Identifiers Tokens Message.

Open Scope N_scope.

Definition kind_is (m : Message) (k : string) : bool := bool_decide (m_message_kind m = Some (u k)).

Definition is_tool (p : Part) : bool := match p with PTool _ => true | _ => false end.

Definition is_tool_transport (m : Message) : bool :=
  if kind_is m "tool_transport" then true
  else if kind_is m "user_query" then false
  else (match m_parts m with [] => false | _ => true end)
       && seqb (m_role m) (u "user") && forallb is_tool (m_parts m).

Definition is_user_query (m : Message) : bool :=
  if kind_is m "user_query" then true
  else if kind_is m "tool_transport" then false
  else seqb (m_role m) (u "user") && negb (is_tool_transport m).

(** ** Turns *)

Section turns.
(** Physical messages: [A] carries the message object, possibly with its position. *)
Context {A : Type} (msg : A -> Message).

(** One assistant response plus any following tool-transport messages. *)
Abbreviation AssistantStep := (list A).

Record UserTurn := MkTurn { anchor : option A; steps : list AssistantStep }.

Definition turn_messages (t : UserTurn) : list A :=
  match anchor t with Some a => [a] | None => [] end ++ concat (steps t).

Definition append_to_turn (t : UserTurn) (m : A) : UserTurn :=
  match last (steps t) with
  | Some step => if is_tool_transport (msg m)
                 then MkTurn (anchor t) (removelast (steps t) ++ [step ++ [m]])
                 else MkTurn (anchor t) (steps t ++ [[m]])
  | None => MkTurn (anchor t) (steps t ++ [[m]])
  end.

(** One round of [build_turns]; the current turn is the last one. *)
Definition add_message (turns : list UserTurn) (m : A) : list UserTurn :=
  if is_user_query (msg m) then turns ++ [MkTurn (Some m) []]
  else match last turns with
       | None => [append_to_turn (MkTurn None []) m]
       | Some current => removelast turns ++ [append_to_turn current m]
       end.

Definition build_turns (messages : list A) : list UserTurn := foldl add_message [] messages.

Definition flatten_turns (turns : list UserTurn) : list A := concat (turn_messages <$> turns).
End turns.
Arguments UserTurn A : clear implicits.

Section planning.
Context (dumps : pydict -> pystr).

Definition tokens_of (m : Message) : Z := Z.of_N (estimated_tokens dumps m).
Definition message_tokens (l : list Message) : Z := foldr (fun m n => (tokens_of m + n)%Z) 0%Z l.

Definition step_tokens (s : list Message) : Z := message_tokens s.
Definition turn_tokens (t : UserTurn Message) : Z := message_tokens (turn_messages t).

(** ** The retention plan *)

Record RetentionPlan := MkPlan {
  archive_messages : list Message;
  retained_messages : list Message;
  turn_anchor : option Message;
  checkpoint_source_message_ids : list pystr;
  raw_tail_start_message_id : option pystr;
  estimated_active_tokens : Z;
  budget_exceeded : bool;
  partial_turn : bool }.

Definition has_archive_work (p : RetentionPlan) : bool :=
  match archive_messages p with [] => false | _ => true end.

Definition CHECKPOINT_TOKEN_RESERVE : Z := 1024.

(** The loop that takes further steps from the end of [prefix] while they fit:
    the steps left out, the steps kept, and their tokens. *)
Fixpoint extend_tail (rev_prefix retained : list (list Message)) (retained_tokens raw_budget : Z)
    : list (list Message) * list (list Message) * Z :=
  match rev_prefix with
  | [] => ([], retained, retained_tokens)
  | candidate :: rest =>
      if (raw_budget <? retained_tokens + step_tokens candidate)%Z
      then (rev_prefix, retained, retained_tokens)
      else extend_tail rest (candidate :: retained) (retained_tokens + step_tokens candidate)%Z raw_budget
  end.

Definition partial_latest_turn_plan (older_turns : list (UserTurn Message)) (latest_turn : UserTurn Message)
    (token_budget min_raw_tail_steps : Z) : RetentionPlan :=
  let stps := steps latest_turn in
  let min_tail := match stps with [] => 0%nat | _ => Z.to_nat (Z.max 1 min_raw_tail_steps) end in
  let split := (length stps - min_tail)%nat in
  let tail := drop split stps in
  let anchor_tokens := match anchor latest_turn with Some a => tokens_of a | None => 0%Z end in
  let retained_tokens := (anchor_tokens + foldr (fun s n => (step_tokens s + n)%Z) 0%Z tail)%Z in
  let checkpoint_reserve := Z.min CHECKPOINT_TOKEN_RESERVE (Z.max 0 (token_budget / 4)) in
  let raw_budget := Z.max 0 (token_budget - checkpoint_reserve) in
  let '(rev_archived, retained_steps, _) :=
    extend_tail (reverse (take split stps)) tail retained_tokens raw_budget in
  let archived_source_messages := concat (reverse rev_archived) in
  let anchor_msgs := match anchor latest_turn with Some a => [a] | None => [] end in
  let retained := anchor_msgs ++ concat retained_steps in
  let archive :=
    flatten_turns older_turns
    ++ match archived_source_messages with [] => [] | _ => anchor_msgs ++ archived_source_messages end in
  let active_tokens := message_tokens retained in
  MkPlan archive retained (anchor latest_turn) (m_id <$> archived_source_messages)
    (match retained_steps with (m :: _) :: _ => Some (m_id m) | _ => None end)
    active_tokens (token_budget <? active_tokens)%Z
    (match archived_source_messages with [] => false | _ => true end).

(** The eviction loop: the first retained turn. *)
Fixpoint evict_turns (fuel : nat) (turns : list (UserTurn Message)) (token_budget : Z) (start : nat) : nat :=
  match fuel with
  | O => start
  | S fuel =>
      let retained := drop start turns in
      if (1 <? length retained)%nat
         && (token_budget <? foldr (fun t n => (turn_tokens t + n)%Z) 0%Z retained)%Z
      then evict_turns fuel turns token_budget (S start)
      else start
  end.

Definition plan_retention (messages : list Message) (keep_recent_turn_count token_budget min_raw_tail_steps : Z)
    : RetentionPlan :=
  let keep := Z.max 0 keep_recent_turn_count in
  let token_budget := Z.max 0 token_budget in
  let turns := build_turns id messages in
  if (match turns with [] => true | _ => false end) || (keep =? 0)%Z
  then MkPlan messages [] None [] None 0 false false
  else
    let start := evict_turns (length turns) turns token_budget (length turns - Z.to_nat keep) in
    let retained_turns := drop start turns in
    let older_turns := take start turns in
    match last retained_turns with
    | None => MkPlan [] [] None [] None 0 false false
    | Some latest_turn =>
        if (token_budget <? turn_tokens latest_turn)%Z then
          match anchor latest_turn with
          | None => MkPlan (flatten_turns (older_turns ++ [latest_turn])) [] None [] None 0 false false
          | Some _ => partial_latest_turn_plan older_turns latest_turn token_budget min_raw_tail_steps
          end
        else
          let retained := flatten_turns retained_turns in
          MkPlan (flatten_turns older_turns) retained None [] None (message_tokens retained) false false
    end.
End planning.

(** ** Facts about turns *)

Section turn_facts.
Context {A : Type} (msg : A -> Message).

Lemma append_to_turn_messages t m : turn_messages (append_to_turn msg t m) = turn_messages t ++ [m].
Proof.
  unfold append_to_turn, turn_messages. rewrite <- app_assoc. destruct (last (steps t)) as [step|] eqn:E.
  - destruct (is_tool_transport (msg m)); cbn [anchor steps]; f_equal; rewrite concat_snoc; [|done].
    rewrite app_assoc, <- concat_snoc. by rewrite (last_removelast _ _ E).
  - cbn [anchor steps]. by rewrite concat_snoc.
Qed.

Lemma flatten_snoc turns (t : UserTurn A) : flatten_turns (turns ++ [t]) = flatten_turns turns ++ turn_messages t.
Proof. unfold flatten_turns. rewrite fmap_app. apply concat_snoc. Qed.

Lemma flatten_app (a b : list (UserTurn A)) : flatten_turns (a ++ b) = flatten_turns a ++ flatten_turns b.
Proof. unfold flatten_turns. by rewrite fmap_app, concat_app. Qed.

Lemma add_message_flatten turns m : flatten_turns (add_message msg turns m) = flatten_turns turns ++ [m].
Proof.
  unfold add_message. destruct (is_user_query (msg m)); [by rewrite flatten_snoc|].
  destruct (last turns) as [t|] eqn:E.
  - rewrite flatten_snoc, append_to_turn_messages, app_assoc, <- flatten_snoc. by rewrite (last_removelast _ _ E).
  - apply last_None in E as ->. cbn [app]. rewrite <- (app_nil_l [append_to_turn _ _ _]), flatten_snoc.
    by rewrite append_to_turn_messages.
Qed.

(** Grouping loses and reorders nothing. *)
Lemma build_turns_flatten messages : flatten_turns (build_turns msg messages) = messages.
Proof.
  unfold build_turns. assert (forall acc, flatten_turns (foldl (add_message msg) acc messages) = flatten_turns acc ++ messages) as H.
  { induction messages as [|m ms IH]; intros acc; cbn [foldl]; [by rewrite app_nil_r|].
    by rewrite IH, add_message_flatten, <- app_assoc. }
  apply (H []).
Qed.

(** A turn starts with a user query, except a leading one without anchor; no other
    message of a turn is a user query, and no step is empty. *)
Definition turn_ok (t : UserTurn A) : Prop :=
  (forall a, anchor t = Some a -> is_user_query (msg a) = true)
  /\ Forall (fun s => s <> []) (steps t)
  /\ Forall (fun m => is_user_query (msg m) = false) (concat (steps t)).

Lemma append_to_turn_ok t m : turn_ok t -> is_user_query (msg m) = false -> turn_ok (append_to_turn msg t m).
Proof.
  intros (Ha & Hs & Hq) Hm. unfold append_to_turn.
  assert (turn_ok (MkTurn (anchor t) (steps t ++ [[m]]))) as Hnew.
  { split_and!; cbn [anchor steps]; [done|by apply Forall_app; repeat constructor|].
    rewrite concat_snoc. by apply Forall_app; repeat constructor. }
  destruct (last (steps t)) as [step|] eqn:E; [|done]. destruct (is_tool_transport (msg m)); [|done].
  apply last_Some in E as (l & E). rewrite E in *. rewrite removelast_last.
  apply Forall_app in Hs as [Hs _]. rewrite concat_snoc in Hq. apply Forall_app in Hq as [Hq1 Hq2].
  split_and!; cbn [anchor steps]; [done| |].
  - apply Forall_app. split; [done|]. constructor; [by destruct step|constructor].
  - rewrite concat_snoc. rewrite !Forall_app. repeat constructor; done.
Qed.

Lemma build_turns_ok messages : Forall turn_ok (build_turns msg messages).
Proof.
  unfold build_turns. assert (forall acc, Forall turn_ok acc -> Forall turn_ok (foldl (add_message msg) acc messages)) as H.
  { induction messages as [|m ms IH]; intros acc Hacc; cbn [foldl]; [done|]. apply IH. unfold add_message.
    destruct (is_user_query (msg m)) eqn:E.
    - apply Forall_app. split; [done|]. constructor; [|constructor]. split_and!; cbn [anchor steps]; [by intros a [= <-]|constructor|constructor].
    - destruct (last acc) as [t|] eqn:El.
      + apply last_Some in El as (l & ->). rewrite removelast_last. apply Forall_app in Hacc as [Hl Ht].
        apply Forall_app. split; [done|]. constructor; [|constructor]. apply append_to_turn_ok; [|done]. by inversion Ht.
      + constructor; [|constructor]. apply append_to_turn_ok; [|done]. split_and!; cbn; [done|constructor|constructor]. }
  by apply H.
Qed.
End turn_facts.

(** Grouping into turns is lossless and atomic: concatenating the turns gives back the
    messages in order; every turn is anchored at its only user query, except possibly a
    first one without a query; and steps are never empty. *)
Theorem build_turns_partition (messages : list Message) :
  flatten_turns (build_turns id messages) = messages
  /\ Forall (turn_ok id) (build_turns id messages)
  /\ forall i t, build_turns id messages !! i = Some t -> anchor t = None -> i = 0%nat.
Proof.
  split_and!; [apply build_turns_flatten|apply build_turns_ok|].
  unfold build_turns.
  assert (forall acc, (forall i t, acc !! i = Some t -> anchor t = None -> i = 0%nat) ->
            forall i t, foldl (add_message id) acc messages !! i = Some t -> anchor t = None -> i = 0%nat) as H.
  { induction messages as [|m ms IH]; intros acc Hacc; cbn [foldl]; [done|]. apply IH. unfold add_message.
    assert (forall t0 : UserTurn Message, anchor (append_to_turn id t0 m) = anchor t0) as Han.
    { intros t0. unfold append_to_turn. destruct (last (steps t0)); [destruct (is_tool_transport _)|]; done. }
    destruct (is_user_query (id m)).
    - intros i t [Hi|[Hlen Hi]]%lookup_app_Some Hn; [by eapply Hacc|].
      apply list_lookup_singleton_Some in Hi as [_ <-]. done.
    - destruct (last acc) as [t0|] eqn:El.
      + apply last_Some in El as (l & ->). rewrite removelast_last. intros i t Hi Hn.
        apply lookup_app_Some in Hi as [Hi|[Hlen Hi]].
        * eapply Hacc; [|done]. by apply lookup_app_l_Some.
        * apply list_lookup_singleton_Some in Hi as [Hz <-]. rewrite Han in Hn.
          eapply Hacc; [|exact Hn]. rewrite lookup_app_r by done. by rewrite Hz.
      + intros i t [-> _]%list_lookup_singleton_Some _. done. }
  apply H. done.
Qed.

(** ** The plan *)

Section plan_facts.
Context (dumps : pydict -> pystr).
Abbreviation toks := (message_tokens dumps).

Lemma message_tokens_app a b : toks (a ++ b) = (toks a + toks b)%Z.
Proof. induction a as [|m a IH]; [done|]. cbn [app message_tokens foldr] in *. unfold message_tokens in *. lia. Qed.

Lemma message_tokens_nonneg l : (0 <= toks l)%Z.
Proof. induction l as [|m l IH]; [done|]. unfold message_tokens, tokens_of in *. cbn [foldr]. lia. Qed.

Lemma steps_tokens l : foldr (fun s n => (step_tokens dumps s + n)%Z) 0%Z l = toks (concat l).
Proof.
  induction l as [|s l IH]; [done|]. cbn [foldr concat]. rewrite IH, message_tokens_app. done.
Qed.

Lemma turns_tokens l : foldr (fun t n => (turn_tokens dumps t + n)%Z) 0%Z l = toks (flatten_turns l).
Proof.
  induction l as [|t l IH]; [done|]. cbn [foldr]. rewrite IH. unfold flatten_turns at 2. rewrite fmap_cons. cbn [concat].
  by rewrite message_tokens_app.
Qed.

(** The loop moves a suffix of the prefix over, and only while the budget holds. *)
Lemma extend_tail_spec rp retained rt budget :
  let '(lft, kept, total) := extend_tail dumps rp retained rt budget in
  exists moved, rp = reverse moved ++ lft /\ kept = moved ++ retained
    /\ total = (rt + toks (concat moved))%Z /\ (moved <> [] -> (total <= budget)%Z).
Proof.
  revert retained rt. induction rp as [|c rp IH]; intros retained rt; cbn [extend_tail].
  - exists []. split_and!; [done|done|cbn; lia|done].
  - destruct (Z.ltb_spec budget (rt + step_tokens dumps c)) as [Hb|Hb].
    + exists []. split_and!; [done|done|cbn; lia|done].
    + specialize (IH (c :: retained) (rt + step_tokens dumps c)%Z).
      destruct (extend_tail _ rp _ _ _) as [[lft kept] total]. destruct IH as (moved & -> & -> & -> & Hm).
      exists (moved ++ [c]). rewrite reverse_app, reverse_singleton, concat_snoc, message_tokens_app.
      split_and!; [done|by rewrite <- app_assoc|unfold step_tokens; lia|].
      intros _. destruct moved as [|m0 moved]; [cbn; unfold step_tokens in *; lia|]. by apply Hm.
Qed.

Lemma evict_turns_spec fuel turns budget start :
  (length turns - start <= fuel)%nat -> (start < length turns)%nat ->
  let r := evict_turns dumps fuel turns budget start in
  (start <= r < length turns)%nat
  /\ (S r = length turns \/ (toks (flatten_turns (drop r turns)) <= budget)%Z).
Proof.
  cbn zeta. revert start. induction fuel as [|fuel IH]; intros start Hf Hs; cbn [evict_turns]; [lia|].
  rewrite turns_tokens, length_drop.
  destruct (Nat.ltb_spec 1 (length turns - start)) as [Hl|Hl]; cbn [andb].
  - destruct (Z.ltb_spec budget (toks (flatten_turns (drop start turns)))); [|split; [lia|by right]].
    specialize (IH (S start) ltac:(lia) ltac:(lia)). destruct IH as [? ?]. split; [lia|done].
  - split; [lia|]. left. lia.
Qed.

(** What a plan did with the messages: nothing is lost, and a cut inside the newest
    turn falls between two of its steps. *)
Definition lossless (messages : list Message) (p : RetentionPlan) : Prop :=
  if partial_turn p then
    exists older a stps n, messages = older ++ a :: concat stps
      /\ last (build_turns id messages) = Some (MkTurn (Some a) stps)
      /\ archive_messages p = older ++ a :: concat (take n stps)
      /\ retained_messages p = a :: concat (drop n stps)
      /\ turn_anchor p = Some a
      /\ checkpoint_source_message_ids p = m_id <$> concat (take n stps)
      /\ concat (take n stps) <> []
  else archive_messages p ++ retained_messages p = messages.

Lemma reverse_split (l moved lft : list (list Message)) :
  reverse l = reverse moved ++ lft -> l = reverse lft ++ moved.
Proof. intros H. apply (f_equal reverse) in H. by rewrite reverse_app, !reverse_involutive in H. Qed.

Lemma partial_plan_spec older a stps budget min_tail messages :
  messages = flatten_turns older ++ a :: concat stps ->
  last (build_turns id messages) = Some (MkTurn (Some a) stps) ->
  (0 <= budget)%Z ->
  let p := partial_latest_turn_plan dumps older (MkTurn (Some a) stps) budget min_tail in
  lossless messages p
  /\ estimated_active_tokens p = toks (retained_messages p)
  /\ (budget_exceeded p = false -> (toks (retained_messages p) <= budget)%Z)
  /\ (budget_exceeded p = true ->
      retained_messages p = a :: concat (drop (length stps - Z.to_nat (Z.max 1 min_tail)) stps)).
Proof.
  intros Hm Hlast Hb. cbn zeta. unfold partial_latest_turn_plan. cbn [steps anchor].
  set (split := (length stps - match stps with [] => 0 | _ => Z.to_nat (Z.max 1 min_tail) end)%nat).
  assert (drop split stps = drop (length stps - Z.to_nat (Z.max 1 min_tail)) stps) as Hsplit by by destruct stps.
  rewrite steps_tokens. set (rt := (tokens_of dumps a + toks (concat (drop split stps)))%Z).
  set (reserve := Z.min CHECKPOINT_TOKEN_RESERVE (Z.max 0 (budget / 4))). set (raw := Z.max 0 (budget - reserve)).
  pose proof (extend_tail_spec (reverse (take split stps)) (drop split stps) rt raw) as He.
  destruct (extend_tail _ _ _ _ _) as [[lft kept] total]. destruct He as (moved & Hrev & -> & -> & Hmoved).
  apply reverse_split in Hrev.
  assert (stps = reverse lft ++ moved ++ drop split stps) as Hst.
  { rewrite app_assoc, <- Hrev. by rewrite take_drop. }
  assert (take (length (reverse lft)) stps = reverse lft) as Htake by (rewrite Hst; apply take_app_length).
  assert (drop (length (reverse lft)) stps = moved ++ drop split stps) as Hdrop.
  { rewrite Hst at 1. rewrite drop_app_length. done. }
  cbn [estimated_active_tokens retained_messages budget_exceeded].
  split_and!.
  - unfold lossless. cbn [partial_turn archive_messages retained_messages turn_anchor checkpoint_source_message_ids].
    destruct (concat (reverse lft)) as [|m0 src] eqn:Esrc.
    + rewrite app_nil_r. pose proof (f_equal (@concat _) Hst) as Hc. rewrite concat_app, Esrc in Hc. cbn [app] in *. by rewrite Hm, Hc.
    + exists (flatten_turns older), a, stps, (length (reverse lft)). rewrite Htake, Hdrop, Esrc. split_and!; done.
  - done.
  - intros Hle%Z.ltb_ge. exact Hle.
  - intros Hgt%Z.ltb_lt. rewrite <- Hsplit. cbn [app] in *. destruct moved as [|m0 moved]; [done|].
    exfalso. specialize (Hmoved ltac:(done)). cbn [app] in Hgt.
    assert (toks (a :: concat ((m0 :: moved) ++ drop split stps))
            = rt + toks (concat (m0 :: moved)))%Z as Ht.
    { change (toks (a :: concat ((m0 :: moved) ++ drop split stps)))
        with (tokens_of dumps a + toks (concat ((m0 :: moved) ++ drop split stps)))%Z.
      rewrite concat_app, message_tokens_app. unfold rt. lia. }
    assert (raw <= budget)%Z. { unfold raw, reserve, CHECKPOINT_TOKEN_RESERVE. pose proof (Z.div_pos budget 4). lia. }
    cbn [app] in Ht. lia.
Qed.
End plan_facts.

Section plan_theorems.
Context (dumps : pydict -> pystr) (messages : list Message) (keep budget min_tail : Z).
Abbreviation plan := (plan_retention dumps messages keep budget min_tail).
Abbreviation turns := (build_turns id messages).

(** The shape of a plan. *)
Lemma plan_cases :
  (plan = MkPlan messages [] None [] None 0 false false)
  \/ (exists older latest, turns = older ++ [latest] /\ anchor latest <> None
       /\ plan = partial_latest_turn_plan dumps older latest (Z.max 0 budget) min_tail)
  \/ (exists n, plan = MkPlan (flatten_turns (take n turns)) (flatten_turns (drop n turns)) None [] None
                         (message_tokens dumps (flatten_turns (drop n turns))) false false
       /\ (message_tokens dumps (flatten_turns (drop n turns)) <= Z.max 0 budget)%Z).
Proof.
  unfold plan_retention. set (b := Z.max 0 budget).
  assert (match turns with [] => true | _ => false end = bool_decide (turns = [])) as -> by by destruct turns.
  case_bool_decide as Et; [by left|]. cbn [orb].
  destruct (Z.eqb_spec (Z.max 0 keep) 0) as [Hk|Hk]; [by left|].
  assert (0 < length turns)%nat as Hpos by (destruct turns; [done|cbn [length]; lia]).
  pose proof (evict_turns_spec dumps (length turns) turns b (length turns - Z.to_nat (Z.max 0 keep)) ltac:(lia)
                ltac:(lia)) as [Hr Hc].
  set (start := evict_turns _ _ _ _ _) in *.
  destruct (last (drop start turns)) as [latest|] eqn:El.
  2: { apply last_None in El. apply (f_equal length) in El. rewrite length_drop in El. cbn in El. lia. }
  apply last_Some in El as (mid & El).
  assert (turns = take start turns ++ mid ++ [latest]) as Hturns by (rewrite <- El; by rewrite take_drop).
  destruct (Z.ltb_spec b (turn_tokens dumps latest)) as [Hbig|Hbig].
  - assert (mid = []) as ->.
    { destruct Hc as [Hc|Hc].
      - apply (f_equal length) in El. rewrite length_drop, length_app in El. cbn in El. destruct mid; [done|cbn in El; lia].
      - exfalso. rewrite El, flatten_snoc, message_tokens_app in Hc. unfold turn_tokens in Hbig.
        pose proof (message_tokens_nonneg dumps (flatten_turns mid)). lia. }
    cbn [app] in Hturns. destruct (anchor latest) as [a|] eqn:Ea.
    + right; left. exists (take start turns), latest. split_and!; [done|by rewrite Ea|done].
    + left. assert (flatten_turns (take start turns ++ [latest]) = messages) as Hf.
      { rewrite <- Hturns. apply build_turns_flatten. }
      cbn zeta. by rewrite Hf.
  - right; right. exists start. split; [done|]. destruct Hc as [Hc|Hc]; [|done].
    assert (mid = []) as ->.
    { apply (f_equal length) in El. rewrite length_drop, length_app in El. cbn in El. destruct mid; [done|cbn in El; lia]. }
    rewrite El. unfold flatten_turns. cbn [app fmap list_fmap concat]. by rewrite app_nil_r.
Qed.

Lemma partial_case older latest a :
  turns = older ++ [latest] -> anchor latest = Some a ->
  messages = flatten_turns older ++ a :: concat (steps latest) /\ last turns = Some (MkTurn (Some a) (steps latest)).
Proof.
  intros Ht Ha. split.
  - rewrite <- (build_turns_flatten id messages) at 1. rewrite Ht, flatten_snoc. unfold turn_messages. by rewrite Ha.
  - rewrite Ht, last_snoc. destruct latest as [an st]. cbn in *. by rewrite Ha.
Qed.

Lemma plan_lossless : lossless messages plan.
Proof.
  destruct plan_cases as [->|[(older & latest & Ht & Ha & ->)|(n & -> & _)]].
  - unfold lossless. cbn. apply app_nil_r.
  - destruct latest as [[a|] st]; [|done].
    destruct (partial_case older (MkTurn (Some a) st) a Ht eq_refl) as [Hm Hl].
    by apply partial_plan_spec; [|..|lia].
  - unfold lossless. cbn. rewrite <- flatten_app, take_drop. apply build_turns_flatten.
Qed.

(** C34: retention loses nothing: every plan archives and retains all messages in
    order; when the newest turn has to be cut, the cut falls between two of its
    steps, its user query stays live and is copied to the archive, and the archived
    step messages are the recorded checkpoint sources. *)
Theorem plan_retention_lossless : lossless messages plan.
Proof.
  exact plan_lossless.
Qed.

(** Retention respects the budget or says so: unless the plan is flagged, the
    retained messages cost at most the budget; a flagged plan retains nothing beyond
    the newest user query and its mandatory last steps.  The reported token count is
    that of the retained messages. *)
Theorem plan_retention_budget :
  estimated_active_tokens plan = message_tokens dumps (retained_messages plan)
  /\ (budget_exceeded plan = false -> (message_tokens dumps (retained_messages plan) <= Z.max 0 budget)%Z)
  /\ (budget_exceeded plan = true ->
      exists a st, last turns = Some (MkTurn (Some a) st)
        /\ retained_messages plan = a :: concat (drop (length st - Z.to_nat (Z.max 1 min_tail)) st)).
Proof.
  destruct plan_cases as [->|[(older & latest & Ht & Ha & ->)|(n & -> & Hn)]].
  - cbn. split_and!; [done|lia|done].
  - destruct latest as [[a|] st]; [|done].
    destruct (partial_case older (MkTurn (Some a) st) a Ht eq_refl) as [Hm Hl].
    destruct (partial_plan_spec dumps older a st (Z.max 0 budget) min_tail messages) as (_ & H1 & H2 & H3); [done|done|lia|].
    split_and!; [done|done|]. intros Hx. exists a, st. auto.
  - cbn. split_and!; [done|done|done].
Qed.
End plan_theorems.
