(* ===== verification/ActiveBudget.v ===== *)
(** The budgeted view of active messages: [_truncate_message_group] and
    [fit_active_messages_to_budget] of [openviking/session/retention.py]. *)
From Stdlib Require Import NArith ZArith.
From S2P Require Import Prelude PyStr PyVal Identifiers Tokens Message Retention.

Open Scope N_scope.

(** ** Slots *)

(** The text of a part that may be shortened. *)
Definition slot_text (p : Part) : option pystr :=
  match p with
  | TextPart t => Some t
  | ContextPart _ _ a => Some a
  | ImagePart _ _ => None
  | PTool t => Some (tool_output t)
  end.

Definition with_tool_output (t : ToolPart) (o : pystr) : ToolPart :=
  MkTool (tool_id t) (tool_name t) (tool_uri t) (skill_uri t) (tool_input t) o (tool_status t)
    (duration_ms t) (prompt_tokens t) (completion_tokens t) (tool_output_ref t) (tool_output_truncated t)
    (tool_output_original_chars t) (tool_output_preview_chars t) (tool_output_sha256 t) (tool_output_storage_uri t)
    (tool_output_mime_type t) (tool_output_source_ref t) (tool_output_source_offset t) (tool_output_source_limit t)
    (tool_output_externalization_error t) (tool_output_group_id t) (tool_output_externalized_reason t)
    (tool_output_group_original_chars t) (tool_output_group_budget_chars t).

Definition with_tool_input (t : ToolPart) (i : option pydict) : ToolPart :=
  MkTool (tool_id t) (tool_name t) (tool_uri t) (skill_uri t) i (tool_output t) (tool_status t)
    (duration_ms t) (prompt_tokens t) (completion_tokens t) (tool_output_ref t) (tool_output_truncated t)
    (tool_output_original_chars t) (tool_output_preview_chars t) (tool_output_sha256 t) (tool_output_storage_uri t)
    (tool_output_mime_type t) (tool_output_source_ref t) (tool_output_source_offset t) (tool_output_source_limit t)
    (tool_output_externalization_error t) (tool_output_group_id t) (tool_output_externalized_reason t)
    (tool_output_group_original_chars t) (tool_output_group_budget_chars t).

(** [part.tool_output_truncated = True] and the two character counts. *)
Definition with_truncation_mark (t : ToolPart) (original fitted : pystr) : ToolPart :=
  MkTool (tool_id t) (tool_name t) (tool_uri t) (skill_uri t) (tool_input t) (tool_output t) (tool_status t)
    (duration_ms t) (prompt_tokens t) (completion_tokens t) (tool_output_ref t) true
    (match tool_output_original_chars t with VNone => VInt (Z.of_nat (length original)) | v => v end)
    (VInt (Z.of_nat (length fitted))) (tool_output_sha256 t) (tool_output_storage_uri t)
    (tool_output_mime_type t) (tool_output_source_ref t) (tool_output_source_offset t) (tool_output_source_limit t)
    (tool_output_externalization_error t) (tool_output_group_id t) (tool_output_externalized_reason t)
    (tool_output_group_original_chars t) (tool_output_group_budget_chars t).

(** [setattr(part, attribute, text)]. *)
Definition set_slot (text : pystr) (p : Part) : Part :=
  match p with
  | TextPart _ => TextPart text
  | ContextPart uri ct _ => ContextPart uri ct text
  | ImagePart _ _ => p
  | PTool t => PTool (with_tool_output t text)
  end.

Definition with_parts (m : Message) (ps : list Part) : Message :=
  MkMsg (m_id m) (m_role m) ps (m_peer_id m) (m_created_at m) (m_turn_id m) (m_message_kind m) (m_source_message_ids m).

(** Updating one part of one message of the cloned group. *)
Definition update_part (mi pi : nat) (f : Part -> Part) (ms : list Message) : list Message :=
  alter (fun m => with_parts m (alter f pi (m_parts m))) mi ms.

Definition part_at (mi pi : nat) (ms : list Message) : option Part := m ← ms !! mi; m_parts m !! pi.

(** The positions of all parts, most recent first. *)
Definition positions (ms : list Message) : list (nat * nat) :=
  reverse (concat (imap (fun mi m => (fun pi => (mi, pi)) <$> seq 0 (length (m_parts m))) ms)).

(** [slots]: position and original text. *)
Definition slots_of (ms : list Message) : list (nat * nat * pystr) :=
  omap (fun '(mi, pi) => p ← part_at mi pi ms; t ← slot_text p; Some (mi, pi, t)) (positions ms).

(** The group with every shortenable field emptied. *)
Definition cleared (ms : list Message) : list Message :=
  (fun m => with_parts m (set_slot [] <$> m_parts m)) <$> ms.

Section truncation.
Context (dumps : pydict -> pystr).
Abbreviation toks := (message_tokens dumps).

(** Dropping tool inputs, oldest first, until the fixed metadata fits: the group and
    the ids of the messages changed. *)
Fixpoint drop_inputs (todo : list (nat * nat)) (ms : list Message) (ids : list pystr) (budget : Z)
    : list Message * list pystr :=
  match todo with
  | [] => (ms, ids)
  | (mi, pi) :: todo =>
      match part_at mi pi ms with
      | Some (PTool t) =>
          match tool_input t with
          | Some (_ :: _) =>
              let ms := update_part mi pi (fun _ => PTool (with_tool_input t (Some []))) ms in
              let ids := ids ++ match ms !! mi with Some m => [m_id m] | None => [] end in
              if (toks ms <=? budget)%Z then (ms, ids) else drop_inputs todo ms ids budget
          | _ => drop_inputs todo ms ids budget
          end
      | _ => drop_inputs todo ms ids budget
      end
  end.

(** Filling the slots again while budget remains. *)
Fixpoint fill_slots (slots : list (nat * nat * pystr)) (ms : list Message) (budget : Z) : list Message :=
  match slots with
  | [] => ms
  | (mi, pi, original) :: slots =>
      if negb (nonempty original) then fill_slots slots ms budget
      else
        let remaining := Z.max 0 (budget - toks ms) in
        if (remaining <=? 0)%Z then ms
        else fill_slots slots (update_part mi pi (set_slot (truncate_text_to_token_budget original remaining)) ms) budget
  end.

(** Recording which slots were shortened. *)
Fixpoint mark_slots (slots : list (nat * nat * pystr)) (ms : list Message) (ids : list pystr)
    : list Message * list pystr :=
  match slots with
  | [] => (ms, ids)
  | (mi, pi, original) :: slots =>
      let fitted := default [] (part_at mi pi ms ≫= slot_text) in
      if seqb fitted original then mark_slots slots ms ids
      else
        let ids := ids ++ match ms !! mi with Some m => [m_id m] | None => [] end in
        let mark p := match p with PTool t => PTool (with_truncation_mark t original fitted) | p => p end in
        mark_slots slots (update_part mi pi mark ms) ids
  end.

Definition truncate_message_group (messages : list Message) (token_budget : Z) : list Message * list pystr :=
  if (token_budget <=? 0)%Z || (match messages with [] => true | _ => false end) then ([], [])
  else if (toks messages <=? token_budget)%Z then (messages, [])
  else
    let slots := slots_of messages in
    let cloned := cleared messages in
    let '(cloned, ids) :=
      if (token_budget <? toks cloned)%Z
      then drop_inputs (reverse (positions cloned)) cloned [] token_budget
      else (cloned, []) in
    if (token_budget <? toks cloned)%Z then ([], [])
    else
      let cloned := fill_slots slots cloned token_budget in
      let '(cloned, ids) := mark_slots slots cloned ids in
      if (token_budget <? toks cloned)%Z then ([], [])
      else (cloned, sorted_strs (remove_dups ids)).

(** ** Selection *)

Record ActiveMessageBudgetPlan := MkActive {
  ap_messages : list Message;
  ap_estimated_tokens : Z;
  ap_dropped_message_ids : list pystr;
  ap_truncated_message_ids : list pystr }.

(** The state of the selection: chosen messages by position, ids shortened, tokens used. *)
Record selection := MkSel { selected : gmap nat Message; truncated_ids : list pystr; used_tokens : Z }.

Abbreviation item := (nat * Message)%type.

(** [_select_group]: whether the group was taken, and the selection. *)
Definition select_group (token_budget : Z) (group : list item) (allow_truncate : bool) (max_budget : option Z)
    (s : selection) : bool * selection :=
  match group with
  | [] => (true, s)
  | _ =>
      let msgs := snd <$> group in
      let remaining := Z.max 0 (token_budget - used_tokens s) in
      let remaining := match max_budget with Some b => Z.min remaining (Z.max 0 b) | None => remaining end in
      let take_group (chosen : list Message) (ids : list pystr) : bool * selection :=
        (true, MkSel (list_to_map (zip (fst <$> group) chosen) ∪ selected s) (truncated_ids s ++ ids)
                 (used_tokens s + toks chosen)) in
      if (remaining <? toks msgs)%Z then
        if negb allow_truncate || (remaining <=? 0)%Z then (false, s)
        else match truncate_message_group msgs remaining with
             | ([], _) => (false, s)
             | (chosen, ids) => take_group chosen ids
             end
      else take_group msgs []
  end.

(** Selecting groups in order until one does not fit. *)
Fixpoint select_until (token_budget : Z) (allow_truncate : bool) (groups : list (list item)) (s : selection) : selection :=
  match groups with
  | [] => s
  | g :: groups =>
      match select_group token_budget g allow_truncate None s with
      | (true, s') => select_until token_budget allow_truncate groups s'
      | (false, s') => s'
      end
  end.

(** The search of [_minimum_group_budget]; each round halves the interval. *)
Fixpoint minimum_search (fuel : nat) (msgs : list Message) (low high : Z) (minimum : option Z) : option Z :=
  match fuel with
  | O => minimum
  | S fuel =>
      if (low <=? high)%Z then
        let candidate := ((low + high) / 2)%Z in
        match truncate_message_group msgs candidate with
        | ([], _) => minimum_search fuel msgs (candidate + 1) high minimum
        | _ => minimum_search fuel msgs low (candidate - 1) (Some candidate)
        end
      else minimum
  end.

Definition minimum_group_budget (token_budget : Z) (msgs : list Message) : option Z :=
  if (toks msgs =? 0)%Z then Some 0%Z
  else let high := Z.min (toks msgs) token_budget in
       minimum_search (Z.to_nat high) msgs 1 high None.

Definition has_checkpoint (step : list item) : bool :=
  existsb (fun im => kind_is (snd im) "checkpoint") step.

(** The share of the budget kept for the final step. *)
Definition final_reserve (token_budget : Z) (anchor_msgs final_msgs : list Message) : Z :=
  match anchor_msgs, final_msgs with
  | _ :: _, _ :: _ =>
      match minimum_group_budget token_budget anchor_msgs, minimum_group_budget token_budget final_msgs with
      | Some amin, Some fmin =>
          if (amin + fmin <=? token_budget)%Z
          then Z.min (toks final_msgs) (Z.min (Z.max fmin (token_budget / 2)) (token_budget - amin))
          else 0%Z
      | _, _ => 0%Z
      end
  | _, _ => 0%Z
  end.

(** The selection of [fit_active_messages_to_budget]. *)
Definition select_active (token_budget : Z) (turns : list (UserTurn item)) (latest : UserTurn item) : selection :=
  let final_group := default [] (last (steps latest)) in
  let anchor_group := match anchor latest with Some a => [a] | None => [] end in
  let reserve := final_reserve token_budget (snd <$> anchor_group) (snd <$> final_group) in
  let s := MkSel ∅ [] 0 in
  let s := snd (select_group token_budget anchor_group true (Some (token_budget - reserve)%Z) s) in
  let s := snd (select_group token_budget final_group true None s) in
  let earlier := removelast (steps latest) in
  let s := select_until token_budget true (filter (fun st => has_checkpoint st = true) earlier) s in
  let s := select_until token_budget false (filter (fun st => has_checkpoint st = false) (reverse earlier)) s in
  select_until token_budget false (turn_messages <$> reverse (removelast turns)) s.

Definition fit_active_messages_to_budget (messages : list Message) (token_budget : Z) : ActiveMessageBudgetPlan :=
  let token_budget := Z.max 0 token_budget in
  if (match messages with [] => true | _ => false end) || (token_budget =? 0)%Z
  then MkActive [] 0 (m_id <$> messages) []
  else if (toks messages <=? token_budget)%Z then MkActive messages (toks messages) [] []
  else
    let items := imap (fun i m => (i, m)) messages in
    let turns := build_turns snd items in
    match last turns with
    | None => MkActive [] 0 (m_id <$> messages) []
    | Some latest =>
        let s := select_active token_budget turns latest in
        let returned := omap (fun i => selected s !! i) (seq 0 (length messages)) in
        MkActive returned (toks returned)
          (omap (fun im => match selected s !! fst im with Some _ => None | None => Some (m_id (snd im)) end) items)
          (sorted_strs (remove_dups (truncated_ids s)))
    end.
End truncation.
