(* ===== verification/ActiveBudgetTheory.v ===== *)
(** Correctness of the budgeted view of active messages ([ActiveBudget]): truncation of
    an atomic group, the minimum budget of a group, and the selection. *)
From Stdlib Require Import NArith ZArith.
From S2P Require Import Prelude PyStr PyVal Identifiers Tokens Message Retention ActiveBudget.

Open Scope N_scope.

(** ** Frames *)

(** What truncation may not touch: a part without its shortenable text, its tool input
    and the truncation marks. *)
Definition frame (p : Part) : Part :=
  match set_slot [] p with
  | PTool t =>
      PTool (MkTool (tool_id t) (tool_name t) (tool_uri t) (skill_uri t) None [] (tool_status t)
        (duration_ms t) (prompt_tokens t) (completion_tokens t) (tool_output_ref t) false
        VNone VNone (tool_output_sha256 t) (tool_output_storage_uri t)
        (tool_output_mime_type t) (tool_output_source_ref t) (tool_output_source_offset t) (tool_output_source_limit t)
        (tool_output_externalization_error t) (tool_output_group_id t) (tool_output_externalized_reason t)
        (tool_output_group_original_chars t) (tool_output_group_budget_chars t))
  | p => p
  end.

Definition frame_msg (m : Message) : Message := with_parts m (frame <$> m_parts m).

Lemma frame_set_slot text p : frame (set_slot text p) = frame p.
Proof. by destruct p. Qed.

Lemma frame_with_input t i : frame (PTool (with_tool_input t i)) = frame (PTool t).
Proof. done. Qed.

Lemma frame_with_mark t o f : frame (PTool (with_truncation_mark t o f)) = frame (PTool t).
Proof. done. Qed.

Lemma alter_frame (f : Part -> Part) (pi : nat) (ps : list Part) :
  (forall p, ps !! pi = Some p -> frame (f p) = frame p) -> frame <$> alter f pi ps = frame <$> ps.
Proof.
  revert pi. induction ps as [|p ps IH]; intros [|pi] H; [done|done| |].
  - cbn. f_equal. by apply H.
  - cbn. f_equal. apply IH. intros q Hq. by apply H.
Qed.

Lemma update_part_frame mi pi f ms :
  (forall p, part_at mi pi ms = Some p -> frame (f p) = frame p) ->
  frame_msg <$> update_part mi pi f ms = frame_msg <$> ms.
Proof.
  unfold update_part, part_at. revert mi. induction ms as [|m ms IH]; intros [|mi] H; [done|done| |].
  - cbn. f_equal. unfold frame_msg, with_parts. cbn [m_id m_role m_parts m_peer_id m_created_at m_turn_id m_message_kind m_source_message_ids].
    f_equal. apply alter_frame. intros p Hp. apply H. by cbn.
  - cbn. f_equal. apply IH. intros p Hp. by apply H.
Qed.

Lemma cleared_frame ms : frame_msg <$> cleared ms = frame_msg <$> ms.
Proof.
  unfold cleared. rewrite <- list_fmap_compose. apply list_fmap_ext. intros _ m _. cbn.
  unfold frame_msg, with_parts. cbn [m_id m_role m_parts m_peer_id m_created_at m_turn_id m_message_kind m_source_message_ids].
  f_equal. rewrite <- list_fmap_compose. apply list_fmap_ext. intros _ p _. apply frame_set_slot.
Qed.

(** *** What truncation does to a part *)

(** A text is kept, emptied, or cut to some budget. *)
Definition short_text (t t' : pystr) : Prop := t' = t \/ t' = [] \/ exists b, t' = truncate_text_to_token_budget t b.

(** A tool part keeps its input or has a non-empty one emptied; its output is shortened,
    and marked as truncated exactly when it changed; all else stays. *)
Definition short_tool (t t' : ToolPart) : Prop :=
  exists i o, (i = tool_input t \/ (exists kv d, tool_input t = Some (kv :: d)) /\ i = Some []) /\ short_text (tool_output t) o /\
    let t1 := with_tool_output (with_tool_input t i) o in
    t' = if seqb o (tool_output t) then t1 else with_truncation_mark t1 (tool_output t) o.

Definition shortened (p p' : Part) : Prop :=
  match p, p' with
  | TextPart t, TextPart t' => short_text t t'
  | ContextPart uri ct a, ContextPart uri' ct' a' => uri' = uri /\ ct' = ct /\ short_text a a'
  | PTool t, PTool t' => short_tool t t'
  | p, p' => p' = p
  end.

Definition shortened_msg (m m' : Message) : Prop := m' = with_parts m (m_parts m') /\ Forall2 shortened (m_parts m) (m_parts m').

Lemma shortened_refl p : shortened p p.
Proof.
  destruct p as [t|uri ct a|url d|t]; cbn; [by left|split_and!; [done|done|by left]|done|].
  exists (tool_input t), (tool_output t). split_and!; [by left|by left|]. rewrite (proj2 (seqb_true _ _)) by done. by destruct t.
Qed.

Lemma shortened_msg_refl m : shortened_msg m m.
Proof. split; [by destruct m|]. induction (m_parts m) as [|p ps IH]; constructor; [apply shortened_refl|done]. Qed.

(** The marks of [mark_slots]. *)
Definition mark_part (original fitted : pystr) (p : Part) : Part :=
  match p with PTool t => PTool (with_truncation_mark t original fitted) | p => p end.

(** Emptied, its input dropped or not, filled again, and marked. *)
Lemma shortened_steps p p1 t :
  (p1 = set_slot [] p \/ exists tp kv d, set_slot [] p = PTool tp /\ tool_input tp = Some (kv :: d) /\ p1 = PTool (with_tool_input tp (Some []))) ->
  (forall o, slot_text p = Some o -> short_text o t) ->
  shortened p (match slot_text p with Some o => if seqb t o then set_slot t p1 else mark_part o t (set_slot t p1) | None => set_slot t p1 end).
Proof.
  intros Hp1 Ht. destruct p as [txt|uri ct a|url d|tp]; cbn [slot_text set_slot] in *.
  - destruct Hp1 as [->|(tp & kv & d & [=] & _)]. specialize (Ht _ eq_refl). by destruct (seqb t txt).
  - destruct Hp1 as [->|(tp & kv & d & [=] & _)]. specialize (Ht _ eq_refl). by destruct (seqb t a).
  - by destruct Hp1 as [->|(tp & kv & d' & [=] & _)].
  - specialize (Ht _ eq_refl). destruct Hp1 as [->|(tp' & kv & d & [= <-] & Hi & ->)].
    + destruct (seqb t (tool_output tp)) eqn:E; exists (tool_input tp), t; (split_and!; [by left|done|]); rewrite E; by destruct tp.
    + destruct (seqb t (tool_output tp)) eqn:E; exists (Some []), t; (split_and!; [right; split; [by exists kv, d|done]|done|]); rewrite E; by destruct tp.
Qed.

Lemma part_at_update mi pi f ms mi' pi' :
  part_at mi' pi' (update_part mi pi f ms) =
  if decide (mi' = mi /\ pi' = pi) then f <$> part_at mi pi ms else part_at mi' pi' ms.
Proof.
  unfold part_at, update_part. case_decide as H; [destruct H as [-> ->]|].
  - rewrite list_lookup_alter_eq. destruct (ms !! mi) as [m|]; [|done]. apply list_lookup_alter_eq.
  - destruct (decide (mi' = mi)) as [->|Hm]; [|by rewrite list_lookup_alter_ne].
    rewrite list_lookup_alter_eq. destruct (ms !! mi) as [m|]; [|done]. apply list_lookup_alter_ne. naive_solver.
Qed.

(** ** Token cost of updates *)

Section tokens.
Context (dumps : pydict -> pystr).
Abbreviation toks := (message_tokens dumps).

Definition part_units (p : Part) : N := units (concat (part_texts dumps p)).
Definition parts_units (ps : list Part) : N := foldr (fun p n => part_units p + n) 0 ps.

Lemma parts_units_concat ps : units (concat (ps ≫= part_texts dumps)) = parts_units ps.
Proof.
  induction ps as [|p ps IH]; [done|]. rewrite bind_cons, concat_app, units_app, IH. done.
Qed.

Lemma tokens_of_units m : tokens_of dumps m = Z.of_N ((parts_units (m_parts m) + 3) / 4).
Proof. unfold tokens_of, estimated_tokens. by rewrite estimate_units, parts_units_concat. Qed.

Lemma set_slot_units text p : slot_text p = Some [] -> part_units (set_slot text p) = part_units p + units text.
Proof.
  unfold part_units. destruct p as [t|uri ct a|url d|t]; cbn [slot_text set_slot part_texts];
    [intros [= ->]|intros [= ->]|done|intros [= Ho]].
  - cbn [concat]. rewrite !units_app. change (units []) with 0. lia.
  - cbn [concat]. rewrite !units_app. change (units []) with 0. lia.
  - cbn [tool_id tool_name tool_input tool_output with_tool_output]. rewrite Ho. cbn [nonempty].
    rewrite !app_nil_r, app_assoc, concat_app, units_app. destruct text as [|c text]; [done|].
    cbn [nonempty concat]. by rewrite app_nil_r.
Qed.

Lemma mark_units t o f : part_units (PTool (with_truncation_mark t o f)) = part_units (PTool t).
Proof. done. Qed.

Lemma frame_units p : part_units (frame p) <= part_units p.
Proof.
  unfold part_units. destruct p as [t|uri ct a|url d|t]; cbn [frame set_slot part_texts]; [cbn; lia..|].
  cbn [tool_id tool_name tool_input tool_output nonempty with_tool_output].
  rewrite !concat_app, !units_app. cbn. lia.
Qed.

Lemma parts_units_cons p ps : parts_units (p :: ps) = part_units p + parts_units ps.
Proof. done. Qed.

Lemma parts_units_app a b : parts_units (a ++ b) = parts_units a + parts_units b.
Proof. induction a as [|p a IH]; [done|]. unfold parts_units in *. cbn [app foldr]. lia. Qed.

Lemma frame_tokens m : (tokens_of dumps (frame_msg m) <= tokens_of dumps m)%Z.
Proof.
  rewrite !tokens_of_units. apply N2Z.inj_le, N.Div0.div_le_mono. cbn [frame_msg with_parts m_parts].
  induction (m_parts m) as [|p ps IH]; [done|]. cbn [fmap list_fmap parts_units foldr].
  pose proof (frame_units p). unfold parts_units in IH. lia.
Qed.

Lemma frames_tokens ms : (toks (frame_msg <$> ms) <= toks ms)%Z.
Proof.
  induction ms as [|m ms IH]; [done|]. rewrite fmap_cons. unfold message_tokens in *. cbn [foldr].
  pose proof (frame_tokens m). lia.
Qed.

(** The cost of a group in which one part changes. *)
Lemma update_part_tokens mi pi f ms p (k : N) :
  part_at mi pi ms = Some p -> part_units (f p) <= part_units p + k ->
  (toks (update_part mi pi f ms) <= toks ms + Z.of_N ((k + 3) / 4))%Z.
Proof.
  unfold update_part, part_at. revert mi. induction ms as [|m ms IH]; intros [|mi] Hp Hk; [done|done| |].
  - cbn [lookup list_lookup] in Hp. change (alter ?g 0%nat (m :: ms)) with (g m :: ms).
    unfold message_tokens. cbn [foldr]. rewrite !tokens_of_units. cbn [with_parts m_parts].
    apply list_elem_of_split_length in Hp as (l1 & l2 & -> & ->).
    rewrite alter_app_r_alt, Nat.sub_diag by lia. change (alter f 0%nat (p :: l2)) with (f p :: l2).
    rewrite !parts_units_app, !parts_units_cons.
    pose proof (N.div_mod (parts_units l1 + (part_units (f p) + parts_units l2) + 3) 4 ltac:(done)).
    pose proof (N.div_mod (parts_units l1 + (part_units p + parts_units l2) + 3) 4 ltac:(done)).
    pose proof (N.div_mod (k + 3) 4 ltac:(done)).
    pose proof (N.mod_lt (parts_units l1 + (part_units (f p) + parts_units l2) + 3) 4 ltac:(done)).
    pose proof (N.mod_lt (parts_units l1 + (part_units p + parts_units l2) + 3) 4 ltac:(done)).
    pose proof (N.mod_lt (k + 3) 4 ltac:(done)). lia.
  - change (alter ?g (S mi) (m :: ms)) with (m :: alter g mi ms). unfold message_tokens in *. cbn [foldr].
    specialize (IH mi Hp Hk). lia.
Qed.
End tokens.

(** ** Positions and slots *)

Lemma positions_from_NoDup (k : nat) ms :
  NoDup (concat (imap (fun mi m => (fun pi => ((k + mi)%nat, pi)) <$> seq 0 (length (m_parts m))) ms)).
Proof.
  revert k. induction ms as [|m ms IH]; intros k; [constructor|]. rewrite imap_cons. cbn [concat].
  apply NoDup_app. split_and!.
  - apply NoDup_fmap_2; [by intros ? ? [= ->]|apply NoDup_seq].
  - intros [a b] (pi & [= -> ->] & _)%list_elem_of_fmap Hin.
    apply elem_of_concat in Hin as (l & Hin & Hl). apply elem_of_lookup_imap in Hl as (j & m' & -> & _).
    apply list_elem_of_fmap in Hin as (pi' & [= H _] & _). lia.
  - replace (imap _ ms) with (imap (fun mi m => (fun pi => ((S k + mi)%nat, pi)) <$> seq 0 (length (m_parts m))) ms);
      [apply IH|]. apply imap_ext. intros i m' _. cbn. apply list_fmap_ext. intros _ pi _. f_equal. lia.
Qed.

Lemma positions_NoDup ms : NoDup (positions ms).
Proof. unfold positions. rewrite reverse_Permutation. exact (positions_from_NoDup 0 ms). Qed.

Lemma elem_of_positions mi pi ms : (mi, pi) ∈ positions ms <-> is_Some (part_at mi pi ms).
Proof.
  unfold positions, part_at. rewrite elem_of_reverse, elem_of_concat. split.
  - intros (l & Hin & (j & m & -> & Hm)%elem_of_lookup_imap). apply list_elem_of_fmap in Hin as (pi' & [= -> ->] & Hs).
    rewrite Hm. cbn. apply lookup_lt_is_Some. apply elem_of_seq in Hs. lia.
  - intros Hs. destruct (ms !! mi) as [m|] eqn:Hm; [|by destruct Hs]. cbn in Hs. apply lookup_lt_is_Some in Hs.
    eexists. split; [|apply elem_of_lookup_imap; by exists mi, m]. apply list_elem_of_fmap. exists pi. split; [done|].
    apply elem_of_seq. lia.
Qed.

Lemma elem_of_slots mi pi t ms :
  (mi, pi, t) ∈ slots_of ms <-> exists p, part_at mi pi ms = Some p /\ slot_text p = Some t.
Proof.
  unfold slots_of. rewrite list_elem_of_omap. split.
  - intros ([mi' pi'] & _ & H). destruct (part_at mi' pi' ms) as [p|] eqn:Hp; [|done]. cbn in H.
    destruct (slot_text p) as [t'|] eqn:Ht; [|done]. cbn in H. injection H as -> -> ->. eauto.
  - intros (p & Hp & Ht). exists (mi, pi). split; [apply elem_of_positions; by rewrite Hp|]. rewrite Hp. cbn. by rewrite Ht.
Qed.

Lemma slots_NoDup ms : NoDup (fst <$> slots_of ms).
Proof.
  unfold slots_of. pose proof (positions_NoDup ms) as H. induction H as [|[mi pi] l Hni Hl IH]; [constructor|].
  cbn [omap list_omap]. destruct (part_at mi pi ms) as [p|]; [|done]. cbn.
  destruct (slot_text p) as [t|]; [|done]. cbn. constructor; [|done].
  intros ([[mi' pi'] t'] & E & ([a b] & Hin & He)%list_elem_of_omap)%list_elem_of_fmap. cbn in E. injection E as <- <-.
  destruct (part_at a b ms) as [q|]; [|done]. cbn in He. destruct (slot_text q); [|done]. cbn in He. by injection He as -> -> ->.
Qed.

Lemma part_at_cleared mi pi ms : part_at mi pi (cleared ms) = set_slot [] <$> part_at mi pi ms.
Proof.
  unfold part_at, cleared. rewrite list_lookup_fmap. destruct (ms !! mi) as [m|]; [|done]. cbn. by rewrite list_lookup_fmap.
Qed.

Lemma set_slot_text t p : slot_text (set_slot t p) = (fun _ => t) <$> slot_text p.
Proof. by destruct p. Qed.

Lemma set_slot_twice t t' p : set_slot t (set_slot t' p) = set_slot t p.
Proof. by destruct p. Qed.

Lemma set_slot_same t p : slot_text p = Some t -> set_slot t p = p.
Proof. destruct p as [| | |[]]; cbn; intros [= ->]; done. Qed.

Lemma set_slot_none t p : slot_text p = None -> set_slot t p = p.
Proof. by destruct p. Qed.

(** A part whose tool input, if any, is empty. *)
Definition input_free (p : Part) : bool :=
  match p with PTool t => match tool_input t with Some (_ :: _) => false | _ => true end | _ => true end.

Lemma bare_units dumps p : default [] (slot_text p) = [] -> input_free p = true -> part_units dumps p = part_units dumps (frame p).
Proof.
  unfold part_units. intros Ho. destruct p as [t|uri ct a|url d|t]; unfold default, id in Ho;
    cbn [slot_text] in Ho; [by rewrite Ho|by rewrite Ho|done|].
  cbn [input_free frame set_slot part_texts]. intros Hi. cbn [tool_id tool_name tool_input tool_output nonempty with_tool_output]. rewrite Ho.
  destruct (tool_input t) as [[|]|]; done.
Qed.

(** A group of which nothing more can be removed costs what its frame costs. *)
Lemma bare_tokens dumps ms :
  (forall mi pi p, part_at mi pi ms = Some p -> default [] (slot_text p) = [] /\ input_free p = true) ->
  message_tokens dumps ms = message_tokens dumps (frame_msg <$> ms).
Proof.
  induction ms as [|m ms IH]; intros H; [done|]. rewrite fmap_cons. unfold message_tokens in *. cbn [foldr]. f_equal.
  - rewrite !tokens_of_units. cbn [frame_msg with_parts m_parts].
    assert (forall p, p ∈ m_parts m -> part_units dumps p = part_units dumps (frame p)) as Hp.
    { intros p (pi & Hpi)%list_elem_of_lookup. destruct (H 0%nat pi p Hpi). by apply bare_units. }
    assert (parts_units dumps (m_parts m) = parts_units dumps (frame <$> m_parts m)) as ->; [|done].
    clear H. induction (m_parts m) as [|p ps IHp]; [done|]. rewrite fmap_cons, !parts_units_cons. f_equal.
    + apply Hp. by left.
    + apply IHp. intros q Hq. apply Hp. by right.
  - apply IH. intros mi pi p Hp. by apply (H (S mi) pi p).
Qed.

(** ** The loops of truncation *)

Section loops.
Context (dumps : pydict -> pystr).
Abbreviation toks := (message_tokens dumps).
Implicit Types (ms : list Message) (ids : list pystr).

Lemma part_at_lookup mi pi ms m p : ms !! mi = Some m -> m_parts m !! pi = Some p -> part_at mi pi ms = Some p.
Proof. intros H1 H2. unfold part_at. by rewrite H1. Qed.

Lemma lookup_update_ne mi mi' pi f ms : mi' <> mi -> update_part mi pi f ms !! mi' = ms !! mi'.
Proof. intros. unfold update_part. by apply list_lookup_alter_ne. Qed.

(** The ids reported by a loop cover every message it changed. *)
Definition reports ms ms' ids ids' : Prop :=
  (forall i, i ∈ ids -> i ∈ ids') /\
  forall mi m', ms' !! mi = Some m' -> m_id m' ∉ ids' -> ms !! mi = Some m'.

Lemma reports_refl ms ids : reports ms ms ids ids.
Proof. by split. Qed.

Lemma reports_trans ms1 ms2 ms3 ids1 ids2 ids3 :
  reports ms1 ms2 ids1 ids2 -> reports ms2 ms3 ids2 ids3 -> reports ms1 ms3 ids1 ids3.
Proof. intros [H1 H2] [H3 H4]. split; [auto|]. intros mi m' Hm Hn. apply H2; [by apply H4|]. auto. Qed.

Lemma reports_update mi pi f ms ids :
  reports ms (update_part mi pi f ms) ids
    (ids ++ match update_part mi pi f ms !! mi with Some m => [m_id m] | None => [] end).
Proof.
  split; [intros; rewrite elem_of_app; by left|]. intros mi' m' Hm Hn. destruct (decide (mi' = mi)) as [->|Hne].
  - rewrite Hm in Hn. exfalso. apply Hn. rewrite elem_of_app. right. by apply list_elem_of_singleton.
  - by rewrite lookup_update_ne in Hm.
Qed.

(** What dropping inputs at the positions [todo] achieves. *)
Record dropped (todo : list (nat * nat)) ms ids (b : Z) ms' ids' : Prop := MkDropped {
  dr_frame : frame_msg <$> ms' = frame_msg <$> ms;
  dr_reports : reports ms ms' ids ids';
  dr_slots : forall mi pi, slot_text <$> part_at mi pi ms' = slot_text <$> part_at mi pi ms;
  dr_free : forall mi pi p, part_at mi pi ms = Some p -> input_free p = true ->
    exists p', part_at mi pi ms' = Some p' /\ input_free p' = true;
  dr_parts : forall mi pi p, part_at mi pi ms = Some p -> exists p', part_at mi pi ms' = Some p' /\ (p' = p \/
    exists t kv d, p = PTool t /\ tool_input t = Some (kv :: d) /\ p' = PTool (with_tool_input t (Some [])));
  dr_done : (toks ms' <= b)%Z \/
    forall mi pi p, (mi, pi) ∈ todo -> part_at mi pi ms' = Some p -> input_free p = true }.

Lemma dropped_skip mi pi todo ms ids b ms' ids' :
  match part_at mi pi ms with Some p => input_free p = true | None => True end ->
  dropped todo ms ids b ms' ids' -> dropped ((mi, pi) :: todo) ms ids b ms' ids'.
Proof.
  intros H0 [H1 H2 H3 H4 H6 H5]. split; [done..|].
  destruct H5 as [H5|H5]; [by left|right]. intros mi' pi' p [[= -> ->]|Hin]%elem_of_cons Hp; [|by eapply H5].
  destruct (part_at mi pi ms) as [p0|] eqn:E0.
  - destruct (H4 _ _ _ E0 H0) as (p' & Hp' & Hf). congruence.
  - specialize (H3 mi pi). rewrite E0, Hp in H3. done.
Qed.

(** One input dropped. *)
Lemma dropped_one mi pi t kv d ms ids b :
  part_at mi pi ms = Some (PTool t) -> tool_input t = Some (kv :: d) ->
  let ms1 := update_part mi pi (fun _ => PTool (with_tool_input t (Some []))) ms in
  dropped [(mi, pi)] ms ids b ms1 (ids ++ match ms1 !! mi with Some m => [m_id m] | None => [] end).
Proof.
  intros Ep Ei. cbn zeta. split.
  - apply update_part_frame. intros p Hp. rewrite Ep in Hp. injection Hp as <-. apply frame_with_input.
  - apply reports_update.
  - intros mi' pi'. rewrite part_at_update. case_decide as Hd; [|done]. destruct Hd as [-> ->]. by rewrite Ep.
  - intros mi' pi' p Hp Hfree. rewrite part_at_update. case_decide as Hd; [|by eauto].
    destruct Hd as [-> ->]. rewrite Ep. by eexists.
  - intros mi' pi' p Hp. rewrite part_at_update. case_decide as Hd; [|by eauto].
    destruct Hd as [-> ->]. rewrite Ep in Hp |- *. injection Hp as <-. eexists. split; [done|right; eauto 7].
  - right. intros mi' pi' p [= -> ->]%list_elem_of_singleton Hp.
    rewrite part_at_update, decide_True, Ep in Hp by done. by injection Hp as <-.
Qed.

Lemma dropped_trans pos todo ms ms1 ms' ids ids1 ids' b :
  dropped [pos] ms ids b ms1 ids1 -> (b < toks ms1)%Z -> dropped todo ms1 ids1 b ms' ids' ->
  dropped (pos :: todo) ms ids b ms' ids'.
Proof.
  intros [F R S I P [D|D]] Hb [H1 H2 H3 H4 H6 H5]; [lia|]. split.
  - by rewrite H1.
  - by eapply reports_trans.
  - intros mi' pi'. by rewrite H3.
  - intros mi' pi' p Hp Hfree. destruct (I _ _ _ Hp Hfree) as (p1 & Hp1 & Hf1). by eapply H4.
  - intros mi' pi' p Hp. destruct (P _ _ _ Hp) as (p1 & Hp1 & [->|(t & kv & d & -> & Hi & ->)]); [by apply H6|].
    destruct (H6 _ _ _ Hp1) as (p2 & Hp2 & [->|(t' & kv' & d' & [= <-] & [=] & _)]). exists (PTool (with_tool_input t (Some []))). split; [done|right; eauto 7].
  - destruct H5 as [H5|H5]; [by left|right]. intros mi' pi' p [<-|Hin]%elem_of_cons Hp; [|by eapply H5].
    pose proof (H3 mi' pi') as E. rewrite Hp in E. destruct (part_at mi' pi' ms1) as [p1|] eqn:E1; [|done].
    destruct (H4 _ _ _ E1) as (p' & Hp' & Hfree); [|congruence]. eapply D; [|done]. by apply list_elem_of_singleton.
Qed.

Lemma drop_inputs_spec todo ms ids b ms' ids' :
  drop_inputs dumps todo ms ids b = (ms', ids') -> dropped todo ms ids b ms' ids'.
Proof.
  revert ms ids. induction todo as [|[mi pi] todo IH]; intros ms ids; cbn [drop_inputs].
  { intros [= <- <-]. split; [done|apply reports_refl|done|by eauto|by eauto|]. right. by intros ? ? ? ?%elem_of_nil. }
  destruct (part_at mi pi ms) as [p|] eqn:Ep; [|intros E; apply dropped_skip; [by rewrite Ep|auto]].
  destruct p as [txt|uri ct a|url d|t]; [intros E; apply dropped_skip; [by rewrite Ep|auto]..|].
  destruct (tool_input t) as [[|kv inp]|] eqn:Ei;
    [intros E; apply dropped_skip; [rewrite Ep; cbn; by rewrite Ei|auto]|
    |intros E; apply dropped_skip; [rewrite Ep; cbn; by rewrite Ei|auto]].
  pose proof (dropped_one mi pi t kv inp ms ids b Ep Ei) as H1. cbn zeta in H1.
  set (ms1 := update_part mi pi _ ms) in *. set (ids1 := ids ++ _) in *.
  destruct (Z.leb_spec (toks ms1) b) as [Hb|Hb].
  - intros [= <- <-]. destruct H1 as [F R S I P _]. by split; [..|left].
  - intros E. by eapply dropped_trans; [| |apply IH].
Qed.

(** Filling keeps the frame and the budget, and touches slots only. *)
Lemma fill_slots_spec slots ms b :
  NoDup (fst <$> slots) ->
  (forall mi pi o, (mi, pi, o) ∈ slots -> exists p, part_at mi pi ms = Some p /\ slot_text p = Some []) ->
  (toks ms <= b)%Z ->
  let ms' := fill_slots dumps slots ms b in
  frame_msg <$> ms' = frame_msg <$> ms /\ (toks ms' <= b)%Z
  /\ forall mi pi p, part_at mi pi ms = Some p -> exists t, part_at mi pi ms' = Some (set_slot t p)
       /\ (t = default [] (slot_text p) \/ exists o r, (mi, pi, o) ∈ slots /\ t = truncate_text_to_token_budget o r).
Proof.
  cbn zeta. revert ms. induction slots as [|[[mi pi] o] slots IH]; intros ms Hnd Hslots Hb.
  { cbn. split_and!; [done|done|]. intros mi pi p Hp. exists (default [] (slot_text p)).
    split; [|by left]. rewrite Hp. f_equal. destruct (slot_text p) as [t|] eqn:E; [by rewrite set_slot_same|by rewrite set_slot_none]. }
  rewrite fmap_cons in Hnd. apply NoDup_cons in Hnd as [Hni Hnd]. cbn [fill_slots].
  assert (forall mi' pi' o', (mi', pi', o') ∈ slots -> exists p, part_at mi' pi' ms = Some p /\ slot_text p = Some []) as Hrest.
  { intros. eapply Hslots. by right. }
  destruct (negb (nonempty o)).
  { destruct (IH ms Hnd Hrest Hb) as (H1 & H2 & H3). split_and!; [done|done|]. intros mi' pi' p Hp.
    destruct (H3 _ _ _ Hp) as (t & Ht & [->|(o' & r & Hin & ->)]); eexists; (split; [exact Ht|]); [by left|right]. exists o', r. split; [by right|done]. }
  destruct (Z.leb_spec (Z.max 0 (b - toks ms)) 0) as [Hr|Hr].
  { specialize (IH ms Hnd Hrest Hb). split_and!; [done|done|]. intros mi' pi' p Hp. exists (default [] (slot_text p)).
    split; [|by left]. rewrite Hp. f_equal. destruct (slot_text p) as [t|] eqn:E; [by rewrite set_slot_same|by rewrite set_slot_none]. }
  set (t := truncate_text_to_token_budget o (Z.max 0 (b - toks ms))). set (ms1 := update_part mi pi (set_slot t) ms).
  destruct (Hslots mi pi o) as (p0 & Hp0 & Ht0); [by left|].
  assert (toks ms1 <= b)%Z as Hb1.
  { pose proof (update_part_tokens dumps mi pi (set_slot t) ms p0 (units t) Hp0) as H.
    rewrite set_slot_units in H by done. specialize (H ltac:(lia)). rewrite <- estimate_units in H.
    pose proof (truncate_within o (Z.max 0 (b - toks ms))) as Hw. fold t in Hw. unfold ms1. lia. }
  destruct (IH ms1 Hnd) as (H1 & H2 & H3); [|done|].
  { intros mi' pi' o' Hin. unfold ms1. rewrite part_at_update. case_decide as Hd; [|by eapply Hrest].
    destruct Hd as [-> ->]. exfalso. apply Hni. apply list_elem_of_fmap. by exists (mi, pi, o'). }
  split_and!; [|done|].
  - rewrite H1. apply update_part_frame. intros p _. apply frame_set_slot.
  - intros mi' pi' p Hp. pose proof (part_at_update mi pi (set_slot t) ms mi' pi') as E. fold ms1 in E.
    case_decide as Hd.
    + destruct Hd as [-> ->]. assert (p = p0) as -> by congruence. rewrite Hp in E. cbn in E.
      destruct (H3 _ _ _ E) as (t' & Ht' & Hor). exists t'. rewrite Ht', set_slot_twice. split; [done|right].
      destruct Hor as [->|(o' & r & Hin & ->)]; [|exists o', r; split; [by right|done]].
      exists o, (Z.max 0 (b - toks ms)). split; [by left|]. by rewrite set_slot_text, Ht0.
    + rewrite Hp in E. destruct (H3 _ _ _ E) as (t' & Ht' & Hor). exists t'. split; [done|].
      destruct Hor as [->|(o' & r & Hin & ->)]; [by left|right]. exists o', r. split; [by right|done].
Qed.

Lemma update_part_tokens_same mi pi f ms :
  (forall p, part_units dumps (f p) = part_units dumps p) -> toks (update_part mi pi f ms) = toks ms.
Proof.
  intros Hf. unfold update_part. revert mi. induction ms as [|m ms IH]; intros [|mi]; [done|done| |].
  - change (alter ?g 0%nat (m :: ms)) with (g m :: ms). unfold message_tokens. cbn [foldr]. f_equal.
    rewrite !tokens_of_units. cbn [with_parts m_parts].
    assert (parts_units dumps (alter f pi (m_parts m)) = parts_units dumps (m_parts m)) as ->; [|done].
    clear IH. revert pi. induction (m_parts m) as [|p ps IHp]; intros [|pi]; [done|done| |].
    + change (alter f 0%nat (p :: ps)) with (f p :: ps). by rewrite !parts_units_cons, Hf.
    + change (alter f (S pi) (p :: ps)) with (p :: alter f pi ps). by rewrite !parts_units_cons, IHp.
  - change (alter ?g (S mi) (m :: ms)) with (m :: alter g mi ms). unfold message_tokens in *. cbn [foldr]. by rewrite IH.
Qed.

(** Marking changes neither the frame nor the cost, and reports every slot whose text
    is not the original one. *)
Lemma mark_slots_spec slots ms ids ms' ids' :
  mark_slots slots ms ids = (ms', ids') ->
  frame_msg <$> ms' = frame_msg <$> ms /\ toks ms' = toks ms /\ reports ms ms' ids ids'
  /\ forall mi pi o m, (mi, pi, o) ∈ slots -> ms' !! mi = Some m -> m_id m ∉ ids' ->
       default [] (part_at mi pi ms ≫= slot_text) = o.
Proof.
  revert ms ids. induction slots as [|[[mi pi] o] slots IH]; intros ms ids; cbn [mark_slots].
  { intros [= <- <-]. split_and!; [done|done|apply reports_refl|by intros ? ? ? ? ?%elem_of_nil]. }
  destruct (seqb (default [] (part_at mi pi ms ≫= slot_text)) o) eqn:E.
  - apply seqb_true in E. intros H. destruct (IH _ _ H) as (H1 & H2 & H3 & H4). split_and!; [done..|].
    intros mi' pi' o' m [[= -> -> ->]|Hin]%elem_of_cons Hm Hn; [done|by eapply H4].
  - set (mark := fun p : Part => match p with PTool t => _ | p => p end).
    set (ms1 := update_part mi pi mark ms). set (ids1 := ids ++ match ms !! mi with Some m => [m_id m] | None => [] end).
    assert (forall p, frame (mark p) = frame p) as Hmf by by intros [].
    assert (match ms1 !! mi with Some m => [m_id m] | None => [] end = match ms !! mi with Some m => [m_id m] | None => [] end) as Hid.
    { unfold ms1, update_part. rewrite list_lookup_alter_eq. by destruct (ms !! mi). }
    assert (reports ms ms1 ids ids1) as Hr1 by (unfold ids1; rewrite <- Hid; apply reports_update).
    intros H. destruct (IH _ _ H) as (H1 & H2 & H3 & H4). split_and!.
    + rewrite H1. apply update_part_frame. by intros p _.
    + rewrite H2. apply update_part_tokens_same. by intros [].
    + by eapply reports_trans.
    + intros mi' pi' o' m Hin Hm Hn. destruct H3 as [Hsub Hsame].
      assert (mi' <> mi) as Hne.
      { intros ->. apply Hn, Hsub. pose proof (Hsame _ _ Hm Hn) as Hm1. unfold ids1. rewrite <- Hid, Hm1.
        rewrite elem_of_app. right. by apply list_elem_of_singleton. }
      apply elem_of_cons in Hin as [[= -> -> ->]|Hin]; [done|]. specialize (H4 _ _ _ _ Hin Hm Hn).
      unfold ms1 in H4. rewrite part_at_update in H4. rewrite decide_False in H4 by tauto. done.
Qed.
(** What marking does to each part. *)
Lemma mark_slots_parts slots ms ids ms' ids' mi pi p :
  NoDup (fst <$> slots) -> mark_slots slots ms ids = (ms', ids') -> part_at mi pi ms = Some p ->
  (forall o, (mi, pi, o) ∈ slots ->
     part_at mi pi ms' = Some (if seqb (default [] (slot_text p)) o then p else mark_part o (default [] (slot_text p)) p)) /\
  ((mi, pi) ∉ (fst <$> slots) -> part_at mi pi ms' = Some p).
Proof.
  revert ms ids p. induction slots as [|[[mi0 pi0] o0] slots IH]; intros ms ids p Hnd; cbn [mark_slots].
  { intros [= <- <-] Hp. split; [by intros o ?%elem_of_nil|done]. }
  rewrite fmap_cons in Hnd. apply NoDup_cons in Hnd as [Hni Hnd]. rewrite fmap_cons. cbn [fst].
  set (step := if seqb _ o0 then _ else _). intros Hstep Hp.
  set (ms1 := if seqb (default [] (part_at mi0 pi0 ms ≫= slot_text)) o0 then ms
              else update_part mi0 pi0 (mark_part o0 (default [] (part_at mi0 pi0 ms ≫= slot_text))) ms).
  assert (exists ids1, mark_slots slots ms1 ids1 = (ms', ids')) as [ids1 H1].
  { unfold ms1. subst step. destruct (seqb _ o0); eauto. }
  clear Hstep step.
  destruct (decide ((mi, pi) = (mi0, pi0))) as [[= -> ->]|Hne].
  - assert (part_at mi0 pi0 ms1 = Some (if seqb (default [] (slot_text p)) o0 then p else mark_part o0 (default [] (slot_text p)) p)) as Hp1.
    { unfold ms1. rewrite Hp. cbn [mbind option_bind]. destruct (seqb (default [] (slot_text p)) o0); [done|]. by rewrite part_at_update, decide_True, Hp. }
    destruct (IH _ _ _ Hnd H1 Hp1) as [_ Hout]. split; [|by intros []%not_elem_of_cons].
    intros o [[= ->]|Hin]%elem_of_cons; [by apply Hout|]. destruct Hni. apply list_elem_of_fmap. by exists (mi0, pi0, o).
  - assert (part_at mi pi ms1 = Some p) as Hp1.
    { unfold ms1. destruct (seqb _ o0); [done|]. rewrite part_at_update, decide_False; [done|]. by intros [-> ->]. }
    destruct (IH _ _ _ Hnd H1 Hp1) as [Hin Hout]. split.
    + intros o [[= -> -> ->]|Ho]%elem_of_cons; [done|by apply Hin].
    + intros [_ Ho]%not_elem_of_cons. by apply Hout.
Qed.
End loops.

(** ** Truncation of a group *)

Section group.
Context (dumps : pydict -> pystr).
Abbreviation toks := (message_tokens dumps).

(** The messages of two groups with the same frames agree on every other field. *)
Lemma frame_msg_inv m m' : frame_msg m' = frame_msg m -> m_parts m' = m_parts m -> m' = m.
Proof. destruct m, m'. unfold frame_msg, with_parts. cbn. by intros [= -> -> _ -> -> -> -> ->] ->. Qed.

Lemma frames_lookup (ms ms' : list Message) (mi : nat) m' :
  frame_msg <$> ms' = frame_msg <$> ms -> ms' !! mi = Some m' -> exists m, ms !! mi = Some m /\ frame_msg m' = frame_msg m.
Proof.
  intros Hf Hm. assert ((frame_msg <$> ms') !! mi = Some (frame_msg m')) as H by by rewrite list_lookup_fmap, Hm.
  rewrite Hf, list_lookup_fmap in H. destruct (ms !! mi) as [m|]; [|done]. exists m. split; [done|].
  cbn in H. congruence.
Qed.

Lemma parts_frame_length m m' : frame_msg m' = frame_msg m -> length (m_parts m') = length (m_parts m).
Proof. intros H. apply (f_equal (length ∘ m_parts)) in H. cbn in H. by rewrite !length_fmap in H. Qed.

(** What a successful truncation returns. *)
Definition truncated_to (ms : list Message) (b : Z) (g : list Message) (ids : list pystr) : Prop :=
  frame_msg <$> g = frame_msg <$> ms /\ (toks g <= b)%Z
  /\ forall mi m m', ms !! mi = Some m -> g !! mi = Some m' -> shortened_msg m m' /\ (m_id m ∉ ids -> m' = m).

(** Every part of the result is a shortened form of the part it comes from. *)
Lemma parts_shortened (ms ms1 ms2 ms3 : list Message) ids1 ids3 b :
  dropped dumps (positions (cleared ms)) (cleared ms) [] b ms1 ids1 ->
  (forall mi pi p, part_at mi pi ms1 = Some p -> exists t, part_at mi pi ms2 = Some (set_slot t p)
     /\ (t = default [] (slot_text p) \/ exists o r, (mi, pi, o) ∈ slots_of ms /\ t = truncate_text_to_token_budget o r)) ->
  mark_slots (slots_of ms) ms2 ids1 = (ms3, ids3) ->
  forall mi pi p, part_at mi pi ms = Some p -> exists p', part_at mi pi ms3 = Some p' /\ shortened p p'.
Proof.
  intros Hd Hfill Hmark mi pi p Hp. pose proof (part_at_cleared mi pi ms) as Hc. rewrite Hp in Hc. cbn in Hc.
  destruct (dr_parts _ _ _ _ _ _ _ Hd _ _ _ Hc) as (p1 & Hp1 & Hor). destruct (Hfill _ _ _ Hp1) as (t & Hp2 & Ht).
  destruct (mark_slots_parts _ _ _ _ _ _ _ _ (slots_NoDup ms) Hmark Hp2) as [Hin Hout].
  assert (slot_text p1 = slot_text (set_slot [] p)) as Es by (destruct Hor as [->|(tp & kv & d & -> & _ & ->)]; done).
  rewrite set_slot_text in Es. eexists. split; [|apply (shortened_steps p p1 t)].
  - destruct (slot_text p) as [o|] eqn:Eo.
    + rewrite (Hin o) by (apply elem_of_slots; eauto). rewrite set_slot_text, Es. done.
    + apply Hout. intros ([[mi' pi'] o] & [= <- <-] & (q & Hq & Ho)%elem_of_slots)%list_elem_of_fmap. congruence.
  - destruct Hor as [->|(tp & kv & d & Hs & Hi & ->)]; [by left|right; eauto 7].
  - intros o Eo. rewrite Eo in Es. destruct Ht as [->|(o' & r & (q & Hq & Ho)%elem_of_slots & ->)]; [rewrite Es; cbn; unfold short_text; auto|].
    assert (o' = o) as -> by congruence. right; right. by exists r.
Qed.

Lemma msgs_shortened (ms ms3 : list Message) :
  frame_msg <$> ms3 = frame_msg <$> ms -> (forall mi pi p, part_at mi pi ms = Some p -> exists p', part_at mi pi ms3 = Some p' /\ shortened p p') ->
  forall mi m m', ms !! mi = Some m -> ms3 !! mi = Some m' -> shortened_msg m m'.
Proof.
  intros Hf Hp mi m m' Hm Hm'. destruct (frames_lookup _ _ _ _ Hf Hm') as (m0 & Hm0 & Hfm). assert (m0 = m) as -> by congruence. split.
  - apply frame_msg_inv; [|done]. rewrite Hfm. destruct m, m'. unfold frame_msg, with_parts in *. cbn in *. congruence.
  - apply Forall2_same_length_lookup_2; [symmetry; by apply parts_frame_length|]. intros pi p p' H1 H2.
    destruct (Hp mi pi p) as (p2 & Hp2 & Hs); [by eapply part_at_lookup|]. pose proof (part_at_lookup mi pi ms3 m' p' Hm' H2). congruence.
Qed.

(** The group before and after the three loops: an unreported message is untouched. *)
Lemma unreported_same (ms ms1 ms2 ms3 : list Message) ids1 ids3 :
  reports (cleared ms) ms1 [] ids1 ->
  (forall mi pi p, part_at mi pi ms1 = Some p -> exists t, part_at mi pi ms2 = Some (set_slot t p)
     /\ (t = default [] (slot_text p) \/ exists o r, (mi, pi, o) ∈ slots_of ms /\ t = truncate_text_to_token_budget o r)) ->
  frame_msg <$> ms2 = frame_msg <$> ms1 ->
  reports ms2 ms3 ids1 ids3 ->
  (forall mi pi o m, (mi, pi, o) ∈ slots_of ms -> ms3 !! mi = Some m -> m_id m ∉ ids3 ->
     default [] (part_at mi pi ms2 ≫= slot_text) = o) ->
  frame_msg <$> ms3 = frame_msg <$> ms ->
  forall mi m m', ms !! mi = Some m -> ms3 !! mi = Some m' -> m_id m ∉ ids3 -> m' = m.
Proof.
  intros [_ Hr1] Hfill Hf2 [Hsub Hr3] Hmark Hf mi m m' Hm Hm' Hn.
  destruct (frames_lookup _ _ _ _ Hf Hm') as (m0 & Hm0 & Hfm). rewrite Hm in Hm0. injection Hm0 as <-.
  assert (m_id m' = m_id m) as Hid by (by apply (f_equal m_id) in Hfm).
  rewrite <- Hid in Hn. pose proof (Hr3 _ _ Hm' Hn) as Hm2.
  destruct (frames_lookup _ _ _ _ Hf2 Hm2) as (m1 & Hm1 & Hfm1).
  assert (cleared ms !! mi = Some m1) as Hc.
  { apply Hr1; [done|]. apply (f_equal m_id) in Hfm1. cbn in Hfm1. rewrite <- Hfm1. auto. }
  apply frame_msg_inv; [done|]. apply list_eq_same_length with (length (m_parts m)); [done|by apply parts_frame_length|].
  intros pi p' p Hpi Hp' Hp.
  assert (part_at mi pi ms = Some p) as Hat by by eapply part_at_lookup.
  assert (part_at mi pi ms1 = Some (set_slot [] p)) as Hat1.
  { transitivity (part_at mi pi (cleared ms)); [unfold part_at; by rewrite Hm1, Hc|]. by rewrite part_at_cleared, Hat. }
  destruct (Hfill _ _ _ Hat1) as (t & Ht & _). rewrite set_slot_twice in Ht.
  assert (part_at mi pi ms2 = Some p') as Hat2 by by eapply part_at_lookup. rewrite Hat2 in Ht. injection Ht as ->.
  destruct (slot_text p) as [o|] eqn:Eo; [|by apply set_slot_none].
  specialize (Hmark mi pi o m' ltac:(apply elem_of_slots; eauto) Hm' Hn). rewrite Hat2 in Hmark. cbn in Hmark.
  rewrite set_slot_text, Eo in Hmark. cbn in Hmark. subst. by apply set_slot_same.
Qed.

(** Truncation succeeds exactly on the budgets that hold the frame of the group. *)
Lemma truncate_group_spec ms b :
  ms <> [] -> (0 < b)%Z ->
  (truncate_message_group dumps ms b = ([], []) /\ (b < toks (frame_msg <$> ms))%Z)
  \/ exists g ids, truncate_message_group dumps ms b = (g, ids) /\ g <> [] /\ truncated_to ms b g ids
       /\ (toks (frame_msg <$> ms) <= b)%Z.
Proof.
  intros Hne Hb. unfold truncate_message_group. rewrite (proj2 (Z.leb_gt b 0)) by done.
  replace (match ms with [] => true | _ => false end) with false by by destruct ms. cbn [orb].
  pose proof (frames_tokens dumps ms) as Hfr.
  destruct (Z.leb_spec (toks ms) b) as [Hfit|Hbig].
  { right. exists ms, []. split_and!; [done|done|split_and!; [done|done|]|lia]. intros mi m m' Hm Hm'. assert (m' = m) as -> by congruence.
    split; [apply shortened_msg_refl|done]. }
  pose proof (cleared_frame ms) as Hcf.
  destruct (if (b <? toks (cleared ms))%Z then _ else _) as [ms1 ids1] eqn:E1.
  assert (dropped dumps (positions (cleared ms)) (cleared ms) [] b ms1 ids1) as Hd.
  { destruct (Z.ltb_spec b (toks (cleared ms))).
    - apply drop_inputs_spec in E1 as [F R S I P D]. split; [done..|]. destruct D as [D|D]; [by left|right].
      intros mi pi p Hin. apply D. by rewrite elem_of_reverse.
    - injection E1 as <- <-. split; [done|apply reports_refl|done|by eauto|by eauto|by left]. }
  pose proof Hd as [F R S I _ D]. rewrite Hcf in F.
  destruct (Z.ltb_spec b (toks ms1)) as [Hover|Hok].
  { left. split; [done|]. destruct D as [D|D]; [lia|]. rewrite <- F, <- bare_tokens; [done|].
    intros mi pi p Hp. specialize (S mi pi). rewrite Hp, part_at_cleared in S.
    destruct (part_at mi pi ms) as [q|] eqn:Eq; [|done]. cbn in S. injection S as S. split.
    - rewrite S, set_slot_text. by destruct (slot_text q).
    - eapply D; [|done]. apply elem_of_positions. rewrite part_at_cleared, Eq. by eexists. }
  right. set (ms2 := fill_slots dumps (slots_of ms) ms1 b).
  destruct (fill_slots_spec dumps (slots_of ms) ms1 b) as (F2 & T2 & P2); [apply slots_NoDup| |done|].
  { intros mi pi o (q & Hq & Ho)%elem_of_slots. specialize (S mi pi). rewrite part_at_cleared, Hq in S.
    destruct (part_at mi pi ms1) as [p|]; [|done]. cbn in S. injection S as S. exists p. split; [done|].
    by rewrite S, set_slot_text, Ho. }
  fold ms2 in F2, T2, P2. destruct (mark_slots (slots_of ms) ms2 ids1) as [ms3 ids3] eqn:E3.
  destruct (mark_slots_spec dumps _ _ _ _ _ E3) as (F3 & T3 & R3 & M3).
  assert (frame_msg <$> ms3 = frame_msg <$> ms) as Hf by by rewrite F3, F2.
  rewrite (proj2 (Z.ltb_ge b (toks ms3))) by lia. exists ms3, (sorted_strs (remove_dups ids3)).
  split_and!; [done| | |].
  - intros ->. apply Hne. symmetry in Hf. by apply fmap_nil_inv in Hf.
  - split_and!; [done|lia|]. intros mi m m' Hm Hm'. split.
    { apply (msgs_shortened ms ms3 Hf (parts_shortened ms ms1 ms2 ms3 ids1 ids3 b Hd P2 E3) mi m m' Hm Hm'). }
    intros Hn. eapply (unreported_same ms ms1 ms2 ms3); try done. intros Hin. apply Hn. by rewrite sorted_strs_perm, elem_of_remove_dups.
  - pose proof (frames_tokens dumps ms1) as H. rewrite F in H. lia.
Qed.
End group.

(** Truncating an atomic group.  It fails exactly when the budget cannot hold the
    group's fixed part (ids, tool names, at least one token), so the final guard never
    rejects a group that was filled; otherwise the result has the shape of the group,
    costs at most the budget, and every message it changed is reported. *)
Theorem truncate_group_exact (dumps : pydict -> pystr) (ms : list Message) (b : Z) :
  let '(g, ids) := truncate_message_group dumps ms b in
  (g = [] <-> ms = [] \/ (b < Z.max 1 (message_tokens dumps (frame_msg <$> ms)))%Z)
  /\ (g <> [] -> truncated_to dumps ms b g ids).
Proof.
  destruct (decide (ms = [])) as [->|Hne].
  { unfold truncate_message_group. rewrite orb_true_r. split; [tauto|done]. }
  destruct (Z.leb_spec b 0) as [Hz|Hz].
  { unfold truncate_message_group. rewrite (proj2 (Z.leb_le b 0)) by done. split; [|done]. split; [right; lia|done]. }
  destruct (truncate_group_spec dumps ms b Hne Hz) as [[-> H]|(g & ids & -> & Hg & Ht & H)].
  - split; [|done]. split; [right; lia|done].
  - split; [|done]. split; [done|]. intros [?|?]; [done|lia].
Qed.

(** ** The minimum budget of a group *)

Section minimum.
Context (dumps : pydict -> pystr).
Abbreviation toks := (message_tokens dumps).

(** The cost of what truncation cannot remove; no group is returned on an empty budget. *)
Definition need (ms : list Message) : Z := Z.max 1 (toks (frame_msg <$> ms)).

Lemma truncate_fails_iff ms b : ms <> [] -> (0 < b)%Z -> fst (truncate_message_group dumps ms b) = [] <-> (b < need ms)%Z.
Proof.
  intros Hne Hb. unfold need. destruct (truncate_group_spec dumps ms b Hne Hb) as [[-> H]|(g & ids & -> & Hg & _ & H)]; cbn [fst].
  - split; [lia|done].
  - split; [done|lia].
Qed.

(** The binary search finds the least sufficient budget, if one is in range. *)
Lemma minimum_search_spec fuel ms low high minimum top :
  ms <> [] -> (Z.to_nat (high + 1 - low) <= fuel)%nat -> (1 <= low <= need ms)%Z -> (high <= top)%Z ->
  (minimum = None /\ high = top \/ minimum = Some (high + 1)%Z /\ (need ms <= high + 1 <= top)%Z) ->
  minimum_search dumps fuel ms low high minimum = if (need ms <=? top)%Z then Some (need ms) else None.
Proof.
  intros Hne. revert low high minimum. induction fuel as [|fuel IH]; intros low high minimum Hf Hlow Htop Hmin; cbn [minimum_search].
  { destruct Hmin as [[-> ->]|[-> Hmin]].
    - by rewrite (proj2 (Z.leb_gt _ _)) by lia.
    - rewrite (proj2 (Z.leb_le _ _)) by lia. f_equal. lia. }
  destruct (Z.leb_spec low high) as [Hle|Hgt].
  - set (c := ((low + high) / 2)%Z). assert (low <= c <= high)%Z as Hc.
    { unfold c. split; [apply Z.div_le_lower_bound|apply Z.div_le_upper_bound]; lia. }
    pose proof (truncate_fails_iff ms c Hne ltac:(lia)) as Hfail.
    destruct (truncate_message_group dumps ms c) as [[|m g] ids]; cbn [fst] in Hfail.
    + apply IH; [lia|destruct Hfail; intuition lia|done|done].
    + apply IH; [lia|lia|lia|]. right. split; [f_equal; lia|].
      assert (~ (c < need ms)%Z) by (intros H; by apply Hfail in H). lia.
  - destruct Hmin as [[-> ->]|[-> Hmin]].
    + by rewrite (proj2 (Z.leb_gt _ _)) by lia.
    + rewrite (proj2 (Z.leb_le _ _)) by lia. f_equal. lia.
Qed.

Lemma minimum_group_budget_spec b ms :
  ms <> [] -> (0 < b)%Z ->
  minimum_group_budget dumps b ms =
    if (toks ms =? 0)%Z then Some 0%Z else if (need ms <=? b)%Z then Some (need ms) else None.
Proof.
  intros Hne Hb. unfold minimum_group_budget. destruct (Z.eqb_spec (toks ms) 0) as [|Hz]; [done|].
  pose proof (message_tokens_nonneg dumps ms). pose proof (frames_tokens dumps ms).
  assert (need ms <= toks ms)%Z by (unfold need; lia).
  rewrite (minimum_search_spec _ _ _ _ _ (Z.min (toks ms) b)); [|done|lia|unfold need; lia|lia|by left].
  destruct (Z.leb_spec (need ms) (Z.min (toks ms) b)), (Z.leb_spec (need ms) b); try done; lia.
Qed.
End minimum.

(** ** Selection *)

Section selecting.
Context (dumps : pydict -> pystr) (messages : list Message) (b : Z).
Abbreviation toks := (message_tokens dumps).
Abbreviation item := (nat * Message)%type.
Implicit Types (g : list item) (s : selection).

Definition placed (g : list item) : Prop := Forall (fun im => messages !! fst im = Some (snd im)) g.

Lemma placed_elem g im : placed g -> im ∈ g -> messages !! fst im = Some (snd im).
Proof. unfold placed. rewrite Forall_forall. auto. Qed.

Lemma placed_intro g : (forall im, im ∈ g -> messages !! fst im = Some (snd im)) -> placed g.
Proof. intros. by apply Forall_forall. Qed.

Definition kept (s : selection) (idxs : list nat) : list Message := omap (fun i => selected s !! i) idxs.

(** The invariant of the selection. *)
Record sel_ok (s : selection) : Prop := MkSelOk {
  so_cost : forall idxs, NoDup idxs -> (toks (kept s idxs) <= used_tokens s)%Z;
  so_used : (0 <= used_tokens s <= b)%Z;
  so_entry : forall i m', selected s !! i = Some m' ->
    exists m, messages !! i = Some m /\ frame_msg m' = frame_msg m /\ shortened_msg m m' /\ (m' = m \/ m_id m ∈ truncated_ids s) }.

Lemma toks_cons m l : toks (m :: l) = (tokens_of dumps m + toks l)%Z.
Proof. done. Qed.

Lemma omap_insert_cost (M : gmap nat Message) i c idxs : NoDup idxs ->
  (toks (omap (fun j => <[i := c]> M !! j) idxs) <= tokens_of dumps c + toks (omap (fun j => M !! j) idxs))%Z.
Proof.
  intros Hnd. assert (forall m, 0 <= tokens_of dumps m)%Z as Hc by (intros; unfold tokens_of; lia).
  induction Hnd as [|j idxs Hni Hnd IH]; [cbn; specialize (Hc c); lia|].
  cbn [omap list_omap]. destruct (decide (i = j)) as [->|Hne].
  - rewrite lookup_insert_eq, toks_cons. rewrite (omap_ext_in _ (fun j => M !! j)).
    + destruct (M !! j) as [m|]; [rewrite toks_cons; specialize (Hc m)|]; lia.
    + intros k Hk. apply lookup_insert_ne. by intros <-.
  - rewrite lookup_insert_ne by done. destruct (M !! j); [rewrite !toks_cons|]; lia.
Qed.

Lemma omap_zip_cost (l : list (nat * Message)) (M : gmap nat Message) idxs : NoDup idxs ->
  (toks (omap (fun j => (list_to_map l ∪ M) !! j) idxs) <= toks (snd <$> l) + toks (omap (fun j => M !! j) idxs))%Z.
Proof.
  intros Hnd. induction l as [|[i c] l IH].
  - rewrite (omap_ext_in _ (fun j => M !! j)); [cbn; lia|]. intros j _. cbn. by rewrite (left_id_L ∅ (∪)).
  - rewrite fmap_cons, toks_cons. cbn [list_to_map foldr fst snd].
    rewrite (omap_ext_in _ (fun j => <[i := c]> (list_to_map l ∪ M) !! j)).
    + pose proof (omap_insert_cost (list_to_map l ∪ M) i c idxs Hnd). cbn [fst snd]. lia.
    + intros j _. cbn. by rewrite insert_union_l.
Qed.

(** What one call of [_select_group] does to the selection. *)
Record selects (g : list item) (s s' : selection) : Prop := MkSelects {
  se_ok : sel_ok s';
  se_dom : forall i, is_Some (selected s' !! i) <-> i ∈ (fst <$> g) \/ is_Some (selected s !! i);
  se_ids : forall i, i ∈ truncated_ids s -> i ∈ truncated_ids s' }.

(** Taking a group, whole or shortened, within what is left. *)
Lemma take_group_selects g s chosen ids :
  sel_ok s -> placed g -> truncated_to dumps (snd <$> g) (b - used_tokens s) chosen ids ->
  selects g s (MkSel (list_to_map (zip (fst <$> g) chosen) ∪ selected s) (truncated_ids s ++ ids)
                 (used_tokens s + toks chosen)).
Proof.
  intros [Hcost Hused Hentry] Hg (Hf & Hb & Hsame).
  assert (length chosen = length (fst <$> g)) as Hlen.
  { apply (f_equal length) in Hf. by rewrite !length_fmap in *. }
  assert (snd <$> zip (fst <$> g) chosen = chosen) as Hsnd by (apply snd_zip; lia).
  assert (fst <$> zip (fst <$> g) chosen = fst <$> g) as Hfst by (apply fst_zip; lia).
  pose proof (message_tokens_nonneg dumps chosen). split; [split|..]; cbn [selected truncated_ids used_tokens].
  - intros idxs Hnd. unfold kept. cbn [selected].
    pose proof (omap_zip_cost (zip (fst <$> g) chosen) (selected s) idxs Hnd) as H1. rewrite Hsnd in H1.
    specialize (Hcost idxs Hnd). unfold kept in Hcost. lia.
  - lia.
  - intros i m' [Hl|[_ Hr]]%lookup_union_Some_raw.
    + apply elem_of_list_to_map_2, list_elem_of_lookup in Hl as (k & Hk).
      apply lookup_zip_Some in Hk as [Hi Hm']. rewrite list_lookup_fmap in Hi.
      destruct (g !! k) as [[i' m]|] eqn:Ek; [|done]. cbn in Hi. injection Hi as ->.
      assert ((snd <$> g) !! k = Some m) as Hm by (by rewrite list_lookup_fmap, Ek).
      exists m. split_and!.
      * by apply (Forall_lookup_1 _ _ _ _ Hg Ek).
      * destruct (frames_lookup _ _ _ _ Hf Hm') as (m0 & Hm0 & ?). congruence.
      * by eapply Hsame.
      * destruct (decide (m_id m ∈ ids)) as [Hin|Hin]; [right; rewrite elem_of_app; by right|left]. by destruct (Hsame _ _ _ Hm Hm') as [_ ->].
    + destruct (Hentry _ _ Hr) as (m & ? & ? & ? & [->|?]); exists m; rewrite elem_of_app; auto 8.
  - intros i. rewrite lookup_union_is_Some.
    destruct ((list_to_map (zip (fst <$> g) chosen) : gmap nat Message) !! i) as [m|] eqn:E.
    + apply elem_of_list_to_map_2, (list_elem_of_fmap_2 fst) in E. rewrite Hfst in E.
      split; [intros _; by left|intros _; left; by eexists].
    + apply not_elem_of_list_to_map in E. rewrite Hfst in E.
      split; [intros [[? ?]|?]; [done|by right]|intros [?|?]; [done|by right]].
  - intros i Hi. rewrite elem_of_app. by left.
Qed.

Lemma selects_none s : sel_ok s -> selects [] s s.
Proof. intros. split; [done| |done]. intros i. cbn. rewrite elem_of_nil. tauto. Qed.

Lemma select_group_spec g allow cap s : sel_ok s -> placed g ->
  let '(ok, s') := select_group dumps b g allow cap s in
  if ok then selects g s s' else s' = s.
Proof.
  intros Hs Hg. unfold select_group. destruct g as [|im g0] eqn:Eg; [by apply selects_none|]. rewrite <- Eg in *.
  pose proof (so_used _ Hs) as Hu.
  set (remaining := match cap with Some c => _ | None => _ end).
  assert (remaining <= b - used_tokens s)%Z as Hrem by (unfold remaining; destruct cap; lia).
  destruct (Z.ltb_spec remaining (toks (snd <$> g))) as [Hbig|Hfit].
  - destruct (negb allow || (remaining <=? 0)%Z) eqn:E; [done|]. apply orb_false_iff in E as [_ E%Z.leb_gt].
    destruct (truncate_group_spec dumps (snd <$> g) remaining) as [[-> _]|(c & ids & -> & Hne & (H1 & H2 & H3) & _)];
      [by rewrite Eg|done|done|].
    destruct c as [|c0 c]; [done|]. apply take_group_selects; [done|done|]. by split_and!; [|lia|].
  - apply take_group_selects; [done|done|]. split_and!; [done|lia|]. intros mi m m' Hm Hm'. assert (m' = m) as -> by congruence.
    split; [apply shortened_msg_refl|done].
Qed.

(** *** Atomicity *)

Context (atoms : list (list item)).

(** A group that contains each atom entirely or not at all. *)
Definition compat (g : list item) : Prop :=
  forall a, a ∈ atoms -> (forall im, im ∈ a -> im ∈ g) \/ (forall i, i ∈ (fst <$> a) -> i ∉ (fst <$> g)).

(** Each atom is selected entirely or not at all. *)
Definition whole (s : selection) : Prop :=
  forall a, a ∈ atoms ->
    (forall i, i ∈ (fst <$> a) -> is_Some (selected s !! i)) \/ (forall i, i ∈ (fst <$> a) -> selected s !! i = None).

Lemma selects_whole g s s' : compat g -> selects g s s' -> whole s -> whole s'.
Proof.
  intros Hg [_ Hdom _] Hw a Ha. destruct (Hg a Ha) as [Hin|Hout].
  - left. intros i (im & -> & Him)%list_elem_of_fmap. apply Hdom. left. apply list_elem_of_fmap. eauto.
  - destruct (Hw a Ha) as [H|H]; [left|right]; intros i Hi; [apply Hdom; right; auto|].
    apply eq_None_not_Some. intros [?%Hout|Hs]%Hdom; [done|done|]. rewrite (H i Hi) in Hs. by destruct Hs.
Qed.

(** Selections only grow, and keep the invariants. *)
Record grows (s s' : selection) : Prop := MkGrows {
  gr_ok : sel_ok s'; gr_whole : whole s';
  gr_dom : forall i, is_Some (selected s !! i) -> is_Some (selected s' !! i) }.

Lemma grows_refl s : sel_ok s -> whole s -> grows s s.
Proof. by split. Qed.

Lemma grows_trans s1 s2 s3 : grows s1 s2 -> grows s2 s3 -> grows s1 s3.
Proof. intros [_ _ H1] [H2 H3 H4]. split; auto. Qed.

Lemma select_group_grows g allow cap s : sel_ok s -> whole s -> placed g -> compat g ->
  grows s (snd (select_group dumps b g allow cap s)).
Proof.
  intros Hs Hw Hp Hc. pose proof (select_group_spec g allow cap s Hs Hp) as H.
  destruct (select_group _ _ _ _ _ _) as [[] s']; cbn [snd].
  - split; [apply H|by eapply selects_whole|]. intros i Hi. apply (se_dom _ _ _ H). by right.
  - subst. by apply grows_refl.
Qed.

Lemma select_until_grows allow groups s : sel_ok s -> whole s ->
  Forall (fun g => placed g /\ compat g) groups -> grows s (select_until dumps b allow groups s).
Proof.
  intros Hs Hw Hg. revert s Hs Hw. induction Hg as [|g groups [Hp Hc] Hg IH]; intros s Hs Hw; cbn [select_until].
  - by apply grows_refl.
  - pose proof (select_group_grows g allow None s Hs Hw Hp Hc) as H.
    destruct (select_group _ _ _ _ _ _) as [[] s']; cbn [snd] in H; [|done].
    eapply grows_trans; [done|]. apply IH; apply H.
Qed.
End selecting.

(** ** The items of the turns *)

Section items.
Context (messages : list Message).
Abbreviation item := (nat * Message)%type.
Definition items : list item := imap (fun i m => (i, m)) messages.

Lemma items_placed : placed messages items.
Proof.
  apply Forall_lookup_2. intros k im H. unfold items in H. rewrite list_lookup_imap in H.
  destruct (messages !! k) eqn:E; [|done]. cbn in H. by injection H as <-.
Qed.

Lemma items_NoDup : NoDup items.
Proof.
  apply NoDup_alt. intros i j im Hi Hj. unfold items in *. rewrite !list_lookup_imap in *.
  destruct (messages !! i), (messages !! j); try done. cbn in *. congruence.
Qed.

Definition turn_atoms (t : UserTurn item) : list (list item) :=
  match anchor t with Some a => [a] | None => [] end :: steps t.

(** The anchors and steps of the conversation. *)
Definition atoms_of (turns : list (UserTurn item)) : list (list item) := turns ≫= turn_atoms.

Lemma atoms_concat turns : concat (atoms_of turns) = flatten_turns turns.
Proof.
  induction turns as [|t turns IH]; [done|]. unfold atoms_of in *. rewrite bind_cons, concat_app, IH. done.
Qed.

Context (turns : list (UserTurn item)) (Hturns : flatten_turns turns = items).

Lemma atom_placed a : a ∈ atoms_of turns -> placed messages a.
Proof.
  intros Ha. apply placed_intro. intros im Him. apply (placed_elem _ _ _ items_placed).
  rewrite <- Hturns, <- atoms_concat. apply elem_of_concat. eauto.
Qed.

Lemma shared_position a a' im im' :
  a ∈ atoms_of turns -> a' ∈ atoms_of turns -> im ∈ a -> im' ∈ a' -> fst im = fst im' -> a = a'.
Proof.
  intros Ha Ha' Hm Hm' E. pose proof (atom_placed _ Ha) as H. pose proof (atom_placed _ Ha') as H'.
  apply (placed_elem _ _ im) in H; [|done]. apply (placed_elem _ _ im') in H'; [|done].
  assert (im = im') as <- by (destruct im, im'; cbn in *; subst; congruence).
  eapply NoDup_concat_eq; [|done..]. rewrite atoms_concat, Hturns. apply items_NoDup.
Qed.

(** A union of atoms is compatible with every atom. *)
Lemma union_compat (l : list (list item)) : (forall a, a ∈ l -> a ∈ atoms_of turns) -> compat (atoms_of turns) (concat l).
Proof.
  intros Hl a Ha. destruct (decide (Exists (fun i => i ∈ (fst <$> concat l)) (fst <$> a))) as [He|He].
  - left. apply Exists_exists in He as (i & (im & -> & Him)%list_elem_of_fmap & (im' & E & Him')%list_elem_of_fmap).
    apply elem_of_concat in Him' as (a' & Him' & Ha'). rewrite (shared_position a a' im im') by auto.
    intros im0 H0. apply elem_of_concat. eauto.
  - right. intros i Hi Hc. apply He, Exists_exists. eauto.
Qed.

Lemma atom_compat a : a ∈ atoms_of turns -> compat (atoms_of turns) a.
Proof.
  intros Ha. rewrite <- (app_nil_r a). apply (union_compat [a]). by intros a' ->%list_elem_of_singleton.
Qed.

Lemma turn_group t : t ∈ turns -> placed messages (turn_messages t) /\ compat (atoms_of turns) (turn_messages t).
Proof.
  intros Ht. assert (forall a, a ∈ turn_atoms t -> a ∈ atoms_of turns) as Hsub.
  { intros a Ha. apply list_elem_of_bind. eauto. }
  change (turn_messages t) with (concat (turn_atoms t)). split; [|by apply union_compat].
  apply placed_intro. intros im (a & Him & Ha)%elem_of_concat. apply (placed_elem _ a); [|done].
  by apply atom_placed, Hsub.
Qed.

Lemma step_atom t st : t ∈ turns -> st ∈ steps t -> st ∈ atoms_of turns.
Proof. intros Ht Hs. apply list_elem_of_bind. exists t. split; [by right|done]. Qed.

Lemma anchor_atom t : t ∈ turns -> match anchor t with Some a => [a] | None => [] end ∈ atoms_of turns.
Proof. intros Ht. apply list_elem_of_bind. exists t. split; [by left|done]. Qed.
End items.

(** ** The view *)

Section view.
Context (dumps : pydict -> pystr) (messages : list Message) (budget : Z).
Abbreviation toks := (message_tokens dumps).
Abbreviation its := (items messages).
Abbreviation turns := (build_turns snd its).
Abbreviation plan := (fit_active_messages_to_budget dumps messages budget).

Lemma turns_flatten : flatten_turns turns = its.
Proof. apply build_turns_flatten. Qed.

Definition start_sel : selection := MkSel ∅ [] 0.

Lemma start_ok b : (0 <= b)%Z -> sel_ok dumps messages b start_sel.
Proof.
  intros Hb. split; cbn; [|lia|by intros i m' ?%lookup_empty_Some].
  intros idxs _. assert (kept start_sel idxs = []) as ->; [|cbn; lia].
  unfold kept. induction idxs as [|i idxs IH]; [done|]. cbn [omap list_omap selected start_sel]. by rewrite lookup_empty.
Qed.

Lemma start_whole atoms : whole atoms start_sel.
Proof. intros a _. right. intros i _. apply lookup_empty. Qed.

(** The selection after the anchor and the final step. *)
Definition mandatory (b : Z) (latest : UserTurn (nat * Message)) : selection :=
  let final_group := default [] (last (steps latest)) in
  let anchor_group := match anchor latest with Some a => [a] | None => [] end in
  let reserve := final_reserve dumps b (snd <$> anchor_group) (snd <$> final_group) in
  let s := snd (select_group dumps b anchor_group true (Some (b - reserve)%Z) start_sel) in
  snd (select_group dumps b final_group true None s).

Lemma final_group_ok latest : latest ∈ turns ->
  placed messages (default [] (last (steps latest))) /\ compat (atoms_of turns) (default [] (last (steps latest))).
Proof.
  intros Hl. destruct (last (steps latest)) as [st|] eqn:E; cbn.
  - assert (st ∈ atoms_of turns) as Ha.
    { eapply step_atom; [done|]. apply last_Some in E as (l & ->). rewrite elem_of_app. right. by apply list_elem_of_singleton. }
    split; [by eapply atom_placed, Ha; apply turns_flatten|by eapply atom_compat; [apply turns_flatten|]].
  - split; [constructor|]. intros a _. right. by intros i _ ?%elem_of_nil.
Qed.

Lemma anchor_group_ok latest : latest ∈ turns ->
  placed messages (match anchor latest with Some a => [a] | None => [] end)
  /\ compat (atoms_of turns) (match anchor latest with Some a => [a] | None => [] end).
Proof.
  intros Hl. pose proof (anchor_atom turns latest Hl) as Ha.
  split; [by eapply atom_placed, Ha; apply turns_flatten|by eapply atom_compat; [apply turns_flatten|]].
Qed.

Lemma mandatory_ok b latest : (0 <= b)%Z -> latest ∈ turns ->
  sel_ok dumps messages b (mandatory b latest) /\ whole (atoms_of turns) (mandatory b latest).
Proof.
  intros Hb Hl. destruct (anchor_group_ok latest Hl) as [Pa Ca], (final_group_ok latest Hl) as [Pf Cf]. unfold mandatory.
  set (r := final_reserve _ _ _ _).
  destruct (select_group_grows dumps messages b (atoms_of turns) (match anchor latest with Some a => [a] | None => [] end) true
              (Some (b - r)%Z) start_sel) as [H1 H2 _]; [by apply start_ok|apply start_whole|done|done|].
  set (s1 := snd (select_group _ _ _ _ (Some _) _)) in *.
  by destruct (select_group_grows dumps messages b (atoms_of turns) (default [] (last (steps latest))) true None s1) as [? ? _].
Qed.

Lemma select_active_grows b latest : (0 <= b)%Z -> latest ∈ turns ->
  grows dumps messages b (atoms_of turns) (mandatory b latest) (select_active dumps b turns latest).
Proof.
  intros Hb Hl. destruct (mandatory_ok b latest Hb Hl) as [H1 H2].
  assert (forall st, st ∈ removelast (steps latest) -> placed messages st /\ compat (atoms_of turns) st) as Hst.
  { intros st Hin. assert (st ∈ atoms_of turns) as Ha.
    { eapply step_atom; [done|]. by apply elem_of_removelast in Hin. }
    split; [by eapply atom_placed, Ha; apply turns_flatten|by eapply atom_compat; [apply turns_flatten|]]. }
  unfold select_active. fold start_sel. fold (mandatory b latest).
  set (cps := filter (fun st => has_checkpoint st = true) (removelast (steps latest))).
  set (rest := filter (fun st => has_checkpoint st = false) (reverse (removelast (steps latest)))).
  assert (grows dumps messages b (atoms_of turns) (mandatory b latest) (select_until dumps b true cps (mandatory b latest))) as G1.
  { apply select_until_grows; [done|done|]. apply Forall_forall. intros st [_ Hin]%list_elem_of_filter. auto. }
  set (s1 := select_until dumps b true cps _) in *.
  assert (grows dumps messages b (atoms_of turns) s1 (select_until dumps b false rest s1)) as G2.
  { apply select_until_grows; [apply G1|apply G1|]. apply Forall_forall.
    intros st [_ Hin]%list_elem_of_filter. rewrite elem_of_reverse in Hin. auto. }
  eapply grows_trans; [exact G1|]. eapply grows_trans; [exact G2|].
  apply select_until_grows; [apply G2|apply G2|]. apply Forall_forall.
  intros g (t & -> & Ht)%list_elem_of_fmap. rewrite elem_of_reverse in Ht. apply elem_of_removelast in Ht. eapply turn_group; [apply turns_flatten|done].
Qed.

(** The view given by a selection. *)
Definition view_of (sel : gmap nat Message) (p : ActiveMessageBudgetPlan) : Prop :=
  ap_messages p = omap (fun i => sel !! i) (seq 0 (length messages))
  /\ ap_dropped_message_ids p = omap (fun im => match sel !! fst im with Some _ => None | None => Some (m_id (snd im)) end) its
  /\ (forall i m', sel !! i = Some m' -> exists m, messages !! i = Some m /\ shortened_msg m m'
        /\ (m' = m \/ m_id m ∈ ap_truncated_message_ids p))
  /\ forall t st, t ∈ turns -> st ∈ steps t ->
       (forall i, i ∈ (fst <$> st) -> is_Some (sel !! i)) \/ (forall i, i ∈ (fst <$> st) -> sel !! i = None).

Lemma items_snd : snd <$> its = messages.
Proof. apply list_eq. intros k. unfold items. rewrite list_lookup_fmap, list_lookup_imap. by destruct (messages !! k). Qed.

Lemma empty_view : view_of ∅ (MkActive [] 0 (m_id <$> messages) []).
Proof.
  split_and!; cbn.
  - rewrite (omap_ext_in _ (fun _ => None)); [by rewrite omap_none|]. intros i _. apply lookup_empty.
  - rewrite <- items_snd at 1. rewrite <- list_fmap_compose. induction its as [|im l IH]; [done|].
    cbn [omap list_omap]. rewrite lookup_empty. cbn. by rewrite IH.
  - intros i m' Hi. by rewrite lookup_empty in Hi.
  - intros t st _ _. right. intros i _. apply lookup_empty.
Qed.

Lemma full_view n : view_of (map_seq 0 messages) (MkActive messages n [] []).
Proof.
  assert (forall i, map_seq (M:=gmap nat Message) 0 messages !! i = messages !! i) as Hm by apply lookup_map_seq_0.
  split_and!; cbn.
  - rewrite (omap_ext_in _ (fun i => messages !! i)) by auto. clear Hm. induction messages as [|m l IH] using rev_ind; [done|].
    rewrite length_app, Nat.add_1_r, seq_S, omap_app. cbn [omap list_omap]. rewrite lookup_app_r, Nat.sub_diag by lia.
    rewrite (omap_ext_in _ (fun i => l !! i)); [by rewrite <- IH|].
    intros i Hi%elem_of_seq. apply lookup_app_l. lia.
  - rewrite (omap_ext_in _ (fun _ => None)); [by rewrite omap_none|]. intros im Hin. rewrite Hm.
    by rewrite (placed_elem _ _ _ (items_placed messages) Hin).
  - intros i m' Hi. rewrite Hm in Hi. exists m'. split_and!; [done|apply shortened_msg_refl|by left].
  - intros t st Ht Hst. left. intros i (im & -> & Him)%list_elem_of_fmap. rewrite Hm.
    rewrite (placed_elem messages st im); [by eexists| |done]. eapply atom_placed; [apply turns_flatten|by eapply step_atom].
Qed.

Lemma selected_view s n : sel_ok dumps messages n s -> whole (atoms_of turns) s ->
  view_of (selected s)
    (MkActive (kept s (seq 0 (length messages))) (toks (kept s (seq 0 (length messages))))
       (omap (fun im => match selected s !! fst im with Some _ => None | None => Some (m_id (snd im)) end) its)
       (sorted_strs (remove_dups (truncated_ids s)))).
Proof.
  intros [_ _ He] Hw. split_and!; [done|done| |].
  - intros i m' Hi. destruct (He i m' Hi) as (m & Hm & _ & Hf & [->|Hin]); exists m; cbn; [by auto|].
    split_and!; [done|done|right]. by rewrite sorted_strs_perm, elem_of_remove_dups.
  - intros t st Ht Hst. apply Hw. by eapply step_atom.
Qed.

Lemma kept_cost s n : sel_ok dumps messages n s -> (toks (kept s (seq 0 (length messages))) <= n)%Z.
Proof. intros [Hc Hu _]. specialize (Hc (seq 0 (length messages)) (NoDup_seq _ _)). lia. Qed.

(** The shape of the plan. *)
Lemma plan_shape :
  (plan = MkActive [] 0 (m_id <$> messages) [] /\ (messages = [] \/ budget <= 0)%Z)
  \/ (plan = MkActive messages (toks messages) [] [] /\ (toks messages <= budget)%Z)
  \/ (0 < budget)%Z /\ exists latest, last turns = Some latest
      /\ let s := select_active dumps budget turns latest in
         plan = MkActive (kept s (seq 0 (length messages))) (toks (kept s (seq 0 (length messages))))
           (omap (fun im => match selected s !! fst im with Some _ => None | None => Some (m_id (snd im)) end) its)
           (sorted_strs (remove_dups (truncated_ids s))).
Proof.
  unfold fit_active_messages_to_budget. fold its.
  destruct (Z.eqb_spec (Z.max 0 budget) 0) as [Hz|Hz]; [rewrite orb_true_r; left; split; [done|right; lia]|].
  rewrite orb_false_r. assert (Z.max 0 budget = budget) as -> by lia.
  destruct (match messages with [] => true | _ => false end) eqn:E.
  { left. split; [done|]. left. by destruct messages. }
  destruct (Z.leb_spec (toks messages) budget) as [Hf|Hf]; [right; left; auto|].
  destruct (last turns) as [latest|] eqn:El.
  - right; right. split; [lia|]. by exists latest.
  - exfalso. apply last_None in El. pose proof turns_flatten as H. rewrite El in H. cbn in H.
    assert (messages = []) as ->; [by rewrite <- items_snd, <- H|done].
Qed.

Lemma latest_in latest : last turns = Some latest -> latest ∈ turns.
Proof. intros (l & ->)%last_Some. rewrite elem_of_app. right. by apply list_elem_of_singleton. Qed.

(** The view costs what it says, and no more than the budget. *)
Lemma plan_tokens : (toks (ap_messages plan) <= Z.max 0 budget)%Z /\ ap_estimated_tokens plan = toks (ap_messages plan).
Proof.
  destruct plan_shape as [[-> _]|[[-> Hf]|(Hpos & latest & Hl & Hplan)]].
  - split; [cbn; lia|done].
  - split; [cbn [ap_messages]; lia|done].
  - cbn zeta in Hplan. destruct (select_active_grows budget latest) as [Hok _ _]; [lia|by apply latest_in|].
    rewrite Hplan. split; [cbn [ap_messages]; pose proof (kept_cost _ _ Hok); lia|done].
Qed.

(** C35: the budgeted view of the conversation.  It costs at most the budget and reports
    its cost; it keeps some of the messages in their order and names the others as
    dropped; part for part a kept message is the original, except that a text may be
    empty or its own truncation to some budget, that the input of a tool call may be
    empty, and that a tool output that changed is marked as truncated with its sizes, and
    it is the original when its id is not reported as truncated; and an assistant step,
    with its tool results, is kept or dropped as a whole. *)
Theorem active_view_sound :
  (toks (ap_messages plan) <= Z.max 0 budget)%Z
  /\ ap_estimated_tokens plan = toks (ap_messages plan)
  /\ exists sel : gmap nat Message, view_of sel plan.
Proof.
  destruct plan_tokens as [H1 H2]. split_and!; [done..|].
  destruct plan_shape as [[-> _]|[[-> Hf]|(Hpos & latest & Hl & Hplan)]].
  - exists ∅. apply empty_view.
  - exists (map_seq 0 messages). apply full_view.
  - cbn zeta in Hplan. destruct (select_active_grows budget latest) as [Hok Hw _]; [lia|by apply latest_in|].
    rewrite Hplan. eexists. by eapply selected_view.
Qed.

Lemma select_group_taken b g cap s :
  sel_ok dumps messages b s -> placed messages g -> g <> [] ->
  let remaining := match cap with Some c => Z.min (Z.max 0 (b - used_tokens s)) (Z.max 0 c) | None => Z.max 0 (b - used_tokens s) end in
  (toks (snd <$> g) <= remaining \/ need dumps (snd <$> g) <= remaining)%Z ->
  let '(ok, s') := select_group dumps b g true cap s in
  ok = true /\ (used_tokens s' <= used_tokens s + remaining)%Z.
Proof.
  cbn zeta. intros Hs Hp Hne Hfit. unfold select_group. destruct g as [|im g0] eqn:Eg; [done|]. rewrite <- Eg in *.
  set (remaining := match cap with Some c => _ | None => _ end) in *.
  destruct (Z.ltb_spec remaining (toks (snd <$> g))) as [Hbig|Hok]; [|cbn [used_tokens]; split; [done|lia]].
  assert (1 <= need dumps (snd <$> g))%Z by (unfold need; lia). cbn [negb orb].
  rewrite (proj2 (Z.leb_gt remaining 0)) by lia.
  destruct (truncate_group_spec dumps (snd <$> g) remaining) as [[_ Hf]|(c & ids & -> & Hc & (_ & Hb & _) & _)];
    [by rewrite Eg|lia|unfold need in *; lia|].
  destruct c; [done|]. cbn [used_tokens]. split; [done|lia].
Qed.

(** The share kept for the final step leaves enough for the anchor, and is enough for
    the step. *)
Lemma final_reserve_spec b am fm : am <> [] -> fm <> [] -> (need dumps am + need dumps fm <= b)%Z ->
  let r := final_reserve dumps b am fm in
  (0 <= r <= b)%Z /\ (toks am <= b - r \/ need dumps am <= b - r)%Z /\ (toks fm <= r \/ need dumps fm <= r)%Z.
Proof.
  intros Ha Hf Hb. cbn zeta. assert (forall l, 1 <= need dumps l)%Z as H1 by (intros; unfold need; lia).
  assert (forall l, toks l <> 0 -> need dumps l <= toks l)%Z as Hle.
  { intros l Hl. pose proof (message_tokens_nonneg dumps l). pose proof (frames_tokens dumps l). unfold need. lia. }
  pose proof (H1 am). pose proof (H1 fm). pose proof (message_tokens_nonneg dumps fm).
  unfold final_reserve. destruct am as [|m am0] eqn:Ea; [done|]. rewrite <- Ea in *.
  destruct fm as [|m' fm0] eqn:Ef; [done|]. rewrite <- Ef in *.
  rewrite !minimum_group_budget_spec by (done || lia). rewrite !(proj2 (Z.leb_le (need dumps _) b)) by lia.
  assert (0 <= b / 2 <= b)%Z by (split; [apply Z.div_pos|apply Z.div_le_upper_bound]; lia).
  destruct (Z.eqb_spec (toks am) 0) as [Hza|Hza], (Z.eqb_spec (toks fm) 0) as [Hzf|Hzf];
    try pose proof (Hle am Hza); try pose proof (Hle fm Hzf); rewrite (proj2 (Z.leb_le _ b)) by lia; lia.
Qed.

Lemma mandatory_dom b a stps st i : (0 <= b)%Z -> MkTurn (Some a) (stps ++ [st]) ∈ turns -> st <> [] ->
  (need dumps [snd a] + need dumps (snd <$> st) <= b)%Z ->
  i = fst a \/ i ∈ (fst <$> st) -> is_Some (selected (mandatory b (MkTurn (Some a) (stps ++ [st]))) !! i).
Proof.
  intros Hb Hl Hne Hfit Hi. set (latest := MkTurn (Some a) (stps ++ [st])) in *.
  destruct (anchor_group_ok latest Hl) as [Pa Ca], (final_group_ok latest Hl) as [Pf Cf].
  unfold mandatory. cbn [anchor steps latest] in Pa, Pf |- *. rewrite last_snoc in Pf |- *.
  change (default [] (Some st)) with st in Pf |- *.
  destruct (final_reserve_spec b (snd <$> [a]) (snd <$> st)) as (Hr & Hra & Hrf); [done|by destruct st|done|].
  set (r := final_reserve dumps b (snd <$> [a]) (snd <$> st)) in *.
  pose proof (start_ok b Hb) as H0.
  pose proof (select_group_taken b [a] (Some (b - r)%Z) start_sel H0 Pa ltac:(done)) as T1. cbn zeta in T1.
  change (used_tokens start_sel) with 0%Z in T1. specialize (T1 ltac:(destruct Hra; [left|right]; lia)).
  pose proof (select_group_spec dumps messages b [a] true (Some (b - r)%Z) start_sel H0 Pa) as S1.
  destruct (select_group dumps b [a] true _ start_sel) as [ok s1]. destruct T1 as [-> Hu]. cbn [snd used_tokens start_sel] in *.
  pose proof (se_ok _ _ _ _ _ _ S1) as H1. pose proof (so_used _ _ _ _ H1) as Hu1.
  pose proof (select_group_taken b st None s1 H1 Pf Hne) as T2. cbn zeta in T2.
  specialize (T2 ltac:(destruct Hrf; [left|right]; lia)).
  pose proof (select_group_spec dumps messages b st true None s1 H1 Pf) as S2.
  destruct (select_group dumps b st true None s1) as [ok s2]. destruct T2 as [-> _]. cbn [snd].
  apply (se_dom _ _ _ _ _ _ S2). destruct Hi as [->|Hi]; [right|by left].
  apply (se_dom _ _ _ _ _ _ S1). left. by apply list_elem_of_singleton.
Qed.

(** C36: the newest question and its answer survive.  Whenever the budget holds what
    truncation cannot remove of the newest user message and of the last assistant
    step after it, every message of both is in the view. *)
Theorem anchor_and_answer_kept (a : nat * Message) (stps : list (list (nat * Message))) (st : list (nat * Message))
    (Hlast : last turns = Some (MkTurn (Some a) (stps ++ [st])))
    (Hfits : (need dumps [snd a] + need dumps (snd <$> st) <= budget)%Z) :
  forall im, im = a \/ im ∈ st -> exists m', m' ∈ ap_messages plan /\ frame_msg m' = frame_msg (snd im).
Proof.
  intros im Him. assert (MkTurn (Some a) (stps ++ [st]) ∈ turns) as Hin.
  { apply last_Some in Hlast as (l & ->). rewrite elem_of_app. right. by apply list_elem_of_singleton. }
  set (latest := MkTurn (Some a) (stps ++ [st])) in *.
  assert (st <> []) as Hst.
  { pose proof (build_turns_ok snd its) as H. rewrite Forall_forall in H. destruct (H _ Hin) as (_ & Hs & _).
    cbn [steps latest] in Hs. apply Forall_app in Hs as [_ Hs]. by inversion Hs. }
  assert (messages !! fst im = Some (snd im)) as Hm.
  { destruct (turn_group messages turns turns_flatten latest Hin) as [Hp _]. apply (placed_elem _ _ _ Hp).
    unfold turn_messages. cbn [anchor steps latest]. rewrite concat_snoc, !elem_of_app, list_elem_of_singleton. tauto. }
  assert (1 <= need dumps [snd a])%Z by (unfold need; lia). assert (1 <= need dumps (snd <$> st))%Z by (unfold need; lia).
  destruct plan_shape as [[_ [Hnil|Hz]]|[[-> _]|(Hpos & latest' & Hl & Hplan)]].
  - by rewrite Hnil in Hm.
  - lia.
  - exists (snd im). split; [|done]. by eapply list_elem_of_lookup_2.
  - rewrite Hlast in Hl. injection Hl as <-. cbn zeta in Hplan. rewrite Hplan. cbn [ap_messages].
    destruct (select_active_grows budget latest) as [Hok _ Hdom]; [lia|done|].
    set (s := select_active dumps budget turns latest) in *.
    destruct (Hdom (fst im)) as (m' & Hm').
    { apply mandatory_dom; [lia|done|done|done|]. destruct Him as [->|Him]; [by left|right]. apply list_elem_of_fmap. eauto. }
    exists m'. split.
    + apply list_elem_of_omap. exists (fst im). split; [|done]. apply elem_of_seq. apply lookup_lt_Some in Hm. lia.
    + destruct (so_entry _ _ _ _ Hok _ _ Hm') as (m & Hm2 & Hf & _). congruence.
Qed.
End view.

(** A long question and a long answer, neither of which fits in full. *)
Module Sample.
Definition text_message (i r : string) (t : pystr) : Message :=
  MkMsg (u i) (u r) [TextPart t] None None None None None.
Definition question : Message := text_message "q" "user" (replicate 40 97).
Definition answer : Message := text_message "a" "assistant" (replicate 60 98).
End Sample.

Lemma anchor_and_answer_kept_witness :
  exists m, m ∈ ap_messages (fit_active_messages_to_budget (fun _ => []) [Sample.question; Sample.answer] 12)
    /\ frame_msg m = frame_msg Sample.answer.
Proof.
  apply (anchor_and_answer_kept (fun _ => []) [Sample.question; Sample.answer] 12
           (0%nat, Sample.question) [] [(1%nat, Sample.answer)] ltac:(by vm_compute) ltac:(by vm_compute) (1%nat, Sample.answer)).
  right. by left.
Defined.

(** The view of the sample: both messages, shortened to the budget. *)
Example sample_view :
  let p := fit_active_messages_to_budget (fun _ => []) [Sample.question; Sample.answer] 12 in
  m_id <$> ap_messages p = [u "q"; u "a"] /\ ap_estimated_tokens p = 12%Z
  /\ ap_truncated_message_ids p = [u "a"; u "q"] /\ ap_dropped_message_ids p = [].
Proof. by vm_compute. Qed.
