(* ===== verification/PyBytes.v ===== *)
(** Python [bytes]: little-endian integers as [struct] packs them, and UTF-8. *)
From Stdlib Require Import NArith ZArith.
From S2P Require Import Prelude PyStr.

Open Scope N_scope.

Abbreviation bytes := (list N).

(** ** Little-endian integers *)

Fixpoint le_encode (k : nat) (n : N) : bytes :=
  match k with O => [] | S k => n mod 256 :: le_encode k (n / 256) end.

Fixpoint le_decode (b : bytes) : N :=
  match b with [] => 0 | c :: b => c + 256 * le_decode b end.

Lemma length_le_encode k n : length (le_encode k n) = k.
Proof. revert n. induction k as [|k IH]; intros n; cbn [le_encode length]; [done|by rewrite IH]. Qed.

Lemma le_roundtrip k n : n < 256 ^ N.of_nat k -> le_decode (le_encode k n) = n.
Proof.
  revert n. induction k as [|k IH]; intros n H; cbn [le_encode le_decode]; [change (N.of_nat 0) with 0 in H; rewrite N.pow_0_r in H; lia|].
  rewrite Nat2N.inj_succ, N.pow_succ_r' in H. rewrite IH by (apply N.Div0.div_lt_upper_bound; lia).
  pose proof (N.div_mod n 256 ltac:(done)). lia.
Qed.

(** Two's complement, as the signed formats of [struct] use it. *)
Definition of_signed (bits : N) (z : Z) : N := Z.to_N (z mod 2 ^ Z.of_N bits).
Definition to_signed (bits n : N) : Z :=
  if n <? 2 ^ (bits - 1) then Z.of_N n else (Z.of_N n - 2 ^ Z.of_N bits)%Z.

Definition fits_signed (bits : N) (z : Z) : bool :=
  ((- 2 ^ Z.of_N (bits - 1) <=? z) && (z <? 2 ^ Z.of_N (bits - 1)))%Z.

Lemma signed_roundtrip z : fits_signed 64 z = true -> to_signed 64 (of_signed 64 z) = z.
Proof.
  unfold fits_signed, to_signed, of_signed. change (2 ^ Z.of_N (64 - 1))%Z with (2 ^ 63)%Z. change (2 ^ (64 - 1)) with (2 ^ 63).
  change (2 ^ Z.of_N 64)%Z with (2 ^ 64)%Z. intros [H1%Z.leb_le H2%Z.ltb_lt]%andb_true_iff.
  destruct (Z.neg_nonneg_cases z) as [Hn|Hn].
  - rewrite <- (Z.mod_add z 1), Z.mod_small, (proj2 (N.ltb_ge _ _)) by lia. lia.
  - rewrite Z.mod_small, (proj2 (N.ltb_lt _ _)) by lia. lia.
Qed.

Lemma of_signed_lt z : of_signed 64 z < 256 ^ N.of_nat 8.
Proof.
  unfold of_signed. change (2 ^ Z.of_N 64)%Z with (2 ^ 64)%Z. change (256 ^ N.of_nat 8) with (2 ^ 64).
  pose proof (Z.mod_pos_bound z (2 ^ 64) ltac:(lia)). lia.
Qed.

(** ** UTF-8 *)

(** Code points that UTF-8 can carry. *)
Definition is_scalar (c : N) : bool := (c <? 0xD800) || ((0xE000 <=? c) && (c <=? 0x10FFFF)).

Definition utf8_char (c : N) : bytes :=
  if c <? 0x80 then [c]
  else if c <? 0x800 then [0xC0 + c / 64; 0x80 + c mod 64]
  else if c <? 0x10000 then [0xE0 + c / 4096; 0x80 + (c / 64) mod 64; 0x80 + c mod 64]
  else [0xF0 + c / 262144; 0x80 + (c / 4096) mod 64; 0x80 + (c / 64) mod 64; 0x80 + c mod 64].

(** [str.encode("utf-8")]: a lone surrogate raises [UnicodeEncodeError], a [ValueError]. *)
Fixpoint utf8_encode (s : pystr) : result bytes :=
  match s with
  | [] => Ok []
  | c :: s => if is_scalar c then rest ← utf8_encode s; Ok (utf8_char c ++ rest) else Err ValueError
  end.

Definition is_cont (b : N) : bool := (0x80 <=? b) && (b <? 0xC0).

(** [bytes.decode("utf-8")], strict: overlong forms, surrogates and stray bytes raise
    [UnicodeDecodeError], a [ValueError]. *)
Fixpoint utf8_decode (b : bytes) : result pystr :=
  match b with
  | [] => Ok []
  | b0 :: r0 =>
      if b0 <? 0x80 then s ← utf8_decode r0; Ok (b0 :: s)
      else match r0 with
      | [] => Err ValueError
      | b1 :: r1 =>
          if negb (is_cont b1) then Err ValueError
          else if (0xC2 <=? b0) && (b0 <? 0xE0) then s ← utf8_decode r1; Ok ((b0 - 0xC0) * 64 + (b1 - 0x80) :: s)
          else match r1 with
          | [] => Err ValueError
          | b2 :: r2 =>
              if negb (is_cont b2) then Err ValueError
              else if (0xE0 <=? b0) && (b0 <? 0xF0) then
                let c := (b0 - 0xE0) * 4096 + (b1 - 0x80) * 64 + (b2 - 0x80) in
                if (0x800 <=? c) && is_scalar c then s ← utf8_decode r2; Ok (c :: s) else Err ValueError
              else match r2 with
              | [] => Err ValueError
              | b3 :: r3 =>
                  if negb (is_cont b3) then Err ValueError
                  else if (0xF0 <=? b0) && (b0 <? 0xF5) then
                    let c := (b0 - 0xF0) * 262144 + (b1 - 0x80) * 4096 + (b2 - 0x80) * 64 + (b3 - 0x80) in
                    if (0x10000 <=? c) && is_scalar c then s ← utf8_decode r3; Ok (c :: s) else Err ValueError
                  else Err ValueError
              end
          end
      end
  end.

Ltac leb_cases :=
  repeat match goal with
  | |- context [(?a <? ?b)%N] => (rewrite (proj2 (N.ltb_lt a b)) by lia) || rewrite (proj2 (N.ltb_ge a b)) by lia
  | |- context [(?a <=? ?b)%N] => (rewrite (proj2 (N.leb_le a b)) by lia) || rewrite (proj2 (N.leb_gt a b)) by lia
  end.

Lemma cont_ok b : b < 64 -> is_cont (0x80 + b) = true /\ 0x80 + b - 0x80 = b.
Proof. unfold is_cont. intros. split; [apply andb_true_iff; split; [apply N.leb_le|apply N.ltb_lt]; lia|lia]. Qed.

Lemma decode_two a b r : 2 <= a < 32 -> b < 64 ->
  utf8_decode (0xC0 + a :: 0x80 + b :: r) = (s ← utf8_decode r; Ok (a * 64 + b :: s)).
Proof.
  intros Ha Hb. destruct (cont_ok b Hb) as [Cb Eb]. cbn [utf8_decode]. rewrite Cb, Eb.
  assert (0xC0 + a - 0xC0 = a) as -> by lia. leb_cases. done.
Qed.

Lemma decode_three a b d r : a < 16 -> b < 64 -> d < 64 ->
  0x800 <= a * 4096 + b * 64 + d -> is_scalar (a * 4096 + b * 64 + d) = true ->
  utf8_decode (0xE0 + a :: 0x80 + b :: 0x80 + d :: r) = (s ← utf8_decode r; Ok (a * 4096 + b * 64 + d :: s)).
Proof.
  intros Ha Hb Hd Hc Hs. destruct (cont_ok b Hb) as [Cb Eb], (cont_ok d Hd) as [Cd Ed]. cbn [utf8_decode].
  rewrite Cb, Eb, Cd, Ed. assert (0xE0 + a - 0xE0 = a) as -> by lia. rewrite Hs. leb_cases. done.
Qed.

Lemma decode_four a b d e r : a < 5 -> b < 64 -> d < 64 -> e < 64 ->
  0x10000 <= a * 262144 + b * 4096 + d * 64 + e -> is_scalar (a * 262144 + b * 4096 + d * 64 + e) = true ->
  utf8_decode (0xF0 + a :: 0x80 + b :: 0x80 + d :: 0x80 + e :: r)
  = (s ← utf8_decode r; Ok (a * 262144 + b * 4096 + d * 64 + e :: s)).
Proof.
  intros Ha Hb Hd He Hc Hs. destruct (cont_ok b Hb) as [Cb Eb], (cont_ok d Hd) as [Cd Ed], (cont_ok e He) as [Ce Ee].
  cbn [utf8_decode]. rewrite Cb, Eb, Cd, Ed, Ce, Ee. assert (0xF0 + a - 0xF0 = a) as -> by lia. rewrite Hs. leb_cases. done.
Qed.

Lemma utf8_char_decode c b : is_scalar c = true ->
  utf8_decode (utf8_char c ++ b) = (s ← utf8_decode b; Ok (c :: s)).
Proof.
  intros Hs. assert (c <= 0x10FFFF) as Hr by (unfold is_scalar in Hs; lia).
  assert (c / 4096 = c / 64 / 64) as E1 by (symmetry; apply (N.Div0.div_div c 64 64)).
  assert (c / 262144 = c / 64 / 64 / 64) as E2 by (rewrite <- E1; symmetry; apply (N.Div0.div_div c 4096 64)).
  unfold utf8_char. rewrite E2, E1.
  pose proof (N.div_mod c 64 ltac:(done)) as D0. pose proof (N.mod_lt c 64 ltac:(done)) as L0.
  pose proof (N.div_mod (c / 64) 64 ltac:(done)) as D1. pose proof (N.mod_lt (c / 64) 64 ltac:(done)) as L1.
  pose proof (N.div_mod (c / 64 / 64) 64 ltac:(done)) as D2. pose proof (N.mod_lt (c / 64 / 64) 64 ltac:(done)) as L2.
  clear E1 E2. generalize dependent (c / 64 / 64 / 64). intros q3. generalize dependent (c / 64 / 64 mod 64). intros r2.
  generalize dependent (c / 64 / 64). intros q2. generalize dependent (c / 64 mod 64). intros r1.
  generalize dependent (c / 64). intros q1. generalize dependent (c mod 64). intros r0. intros.
  destruct (N.ltb_spec c 0x80) as [H|H]; [cbn [app utf8_decode]; by rewrite (proj2 (N.ltb_lt c 0x80))|].
  destruct (N.ltb_spec c 0x800) as [H2|H2].
  { cbn [app]. rewrite decode_two by lia. by replace (q1 * 64 + r0) with c by lia. }
  destruct (N.ltb_spec c 0x10000) as [H3|H3].
  { assert (q2 * 4096 + r1 * 64 + r0 = c) as E by lia. cbn [app]. rewrite decode_three; rewrite ?E; by (done || lia). }
  assert (q3 * 262144 + r2 * 4096 + r1 * 64 + r0 = c) as E by lia. cbn [app]. rewrite decode_four; rewrite ?E; by (done || lia).
Qed.

(** Decoding inverts encoding. *)
Lemma utf8_roundtrip s b : utf8_encode s = Ok b -> utf8_decode b = Ok s.
Proof.
  revert b. induction s as [|c s IH]; intros b; cbn [utf8_encode]; [by intros [= <-]|].
  destruct (is_scalar c) eqn:E; [|done]. destruct (utf8_encode s) as [rest|e]; [|done].
  intros [= <-]. rewrite utf8_char_decode by done. by rewrite (IH rest).
Qed.

Lemma utf8_encode_app a b x y : utf8_encode a = Ok x -> utf8_encode b = Ok y -> utf8_encode (a ++ b) = Ok (x ++ y).
Proof.
  revert x. induction a as [|c a IH]; intros x Ha Hb; [by injection Ha as <-|]. cbn [utf8_encode app] in *.
  destruct (is_scalar c); [|done]. destruct (utf8_encode a) as [x'|] eqn:E; [|done]. cbn [fmap result_fmap mbind result_bind] in *.
  rewrite (IH x') by done. cbn [fmap result_fmap mbind result_bind]. injection Ha as <-. by rewrite app_assoc.
Qed.

Lemma utf8_encode_ascii s : Forall (fun c => c < 128) s -> utf8_encode s = Ok s.
Proof.
  induction 1 as [|c s Hc _ IH]; [done|]. cbn [utf8_encode]. unfold is_scalar, utf8_char. rewrite (proj2 (N.ltb_lt c 0xD800)) by lia. cbn [orb].
  rewrite IH. rewrite (proj2 (N.ltb_lt c 0x80)) by lia. done.
Qed.

(** UTF-8 produces bytes. *)
Lemma utf8_encode_bytes s b : utf8_encode s = Ok b -> Forall (fun c => c < 256) b.
Proof.
  revert b. induction s as [|c s IH]; intros b; cbn [utf8_encode]; [by intros [= <-]|].
  destruct (is_scalar c) eqn:E; [|done]. destruct (utf8_encode s) as [rest|]; [|done]. intros [= <-]. apply Forall_app. split; [|by apply IH].
  assert (c <= 0x10FFFF) as Hc by (unfold is_scalar in E; lia). clear - Hc. unfold utf8_char.
  destruct (N.ltb_spec c 0x80); [|destruct (N.ltb_spec c 0x800); [|destruct (N.ltb_spec c 0x10000)]]; repeat apply Forall_cons_2; try apply Forall_nil_2;
    try lia; try (pose proof (N.mod_upper_bound (c / 4096) 64 ltac:(done)); pose proof (N.mod_upper_bound (c / 64) 64 ltac:(done)); pose proof (N.mod_upper_bound c 64 ltac:(done)); lia).
Qed.
