(* ===== verification/FsAccess.v ===== *)
(** Access control and path mapping of the virtual file system: [_AccessMixin] of
    [openviking/storage/viking_fs/_access.py], over the namespace rules and the ACL
    manager.

    Path locks, [stat], SHA-256 and the interpreter's Unicode tables are arguments. *)
From Stdlib Require Import NArith ZArith.
From S2P Require Import Prelude Effects PyStr PyVal PyBytes Identifiers Uri Namespace Acl AclStore.

Open Scope N_scope.

(** ** URIs and paths *)

Section paths.
(** [str.isalpha] outside ASCII, and [hashlib.sha256(...).hexdigest()]. *)
Context (unicode_alpha : N -> bool) (sha256_hex : bytes -> pystr).

Definition isalpha (c : N) : bool :=
  if c <? 128 then ((65 <=? c) && (c <=? 90)) || ((97 <=? c) && (c <=? 122)) else unicode_alpha c.

Definition SCHEME : pystr := u "viking://".

(** [[p for p in uri[len("viking://"):].strip("/").split("/") if p]]. *)
Definition raw_parts (uri : pystr) : list pystr :=
  filter (fun p => nonempty p = true) (split c_slash (strip is_slash (drop (length SCHEME) uri))).

Definition unsafe_part (part : pystr) : bool :=
  mem part [u "."; u ".."] || bool_decide (92 ∈ part)
  || match part with c0 :: c1 :: _ => (c1 =? c_colon) && isalpha c0 | _ => false end.

Definition safe_uri_parts (uri : pystr) : result (list pystr) :=
  if negb (startswith SCHEME uri) then Err ValueError
  else if existsb unsafe_part (raw_parts uri) then Err PermissionDeniedError
  else Ok (raw_parts uri).

Definition MAX_FILENAME_BYTES : nat := 255.

(** The loop of [_shorten_component]: one character less per round, so the length of
    the prefix is enough fuel. *)
Fixpoint shrink (fuel : nat) (prefix : pystr) (target : nat) : result pystr :=
  match fuel with
  | O => Ok prefix
  | S fuel =>
      b ← utf8_encode prefix;
      if (target <? length b)%nat && nonempty prefix then shrink fuel (removelast prefix) target else Ok prefix
  end.

Definition shorten_component (component : pystr) : result pystr :=
  b ← utf8_encode component;
  if (length b <=? MAX_FILENAME_BYTES)%nat then Ok component
  else
    let hash_suffix := take 8 (sha256_hex b) in
    suffix ← utf8_encode (u "_" ++ hash_suffix);
    prefix ← shrink (length component) component (MAX_FILENAME_BYTES - length suffix);
    Ok (prefix ++ u "_" ++ hash_suffix).

Fixpoint shorten_all (parts : list pystr) : result (list pystr) :=
  match parts with
  | [] => Ok []
  | p :: parts => q ← shorten_component p; qs ← shorten_all parts; Ok (q :: qs)
  end.

Definition AGENT_DIRS : list pystr := [u "skills"; u "endpoints"; u "tools"; u "payments"].

Definition account_path (ctx : RequestContext) (parts : list pystr) : pystr :=
  u "/local/" ++ ctx_account_id ctx ++ u "/" ++ path_join parts.

Definition is_legacy_agent_id_uri (uri : pystr) : result bool :=
  parts ← safe_uri_parts uri;
  Ok (match parts with a :: b :: _ => seqb a (u "agent") && negb (mem b AGENT_DIRS) | _ => false end).

Definition uri_to_path (uri : pystr) (ctx : RequestContext) : result pystr :=
  parts ← safe_uri_parts uri;
  if bool_decide (take 1 parts = [u "session"]) then Err ValueError
  else
    legacy ← (if part_is parts 0 (u "agent") then is_legacy_agent_id_uri uri else Ok false);
    if legacy : bool then account_path ctx <$> shorten_all parts
    else match parts with
         | [] => Ok (u "/local/" ++ ctx_account_id ctx)
         | _ => account_path ctx <$> shorten_all parts
         end.

(** The places older versions kept sessions in. *)
Definition legacy_session_path (uri : pystr) (ctx : RequestContext) : result pystr :=
  parts ← safe_uri_parts uri; account_path ctx <$> shorten_all parts.

Definition legacy_user_session_path (uri : pystr) (ctx : RequestContext) : result (option pystr) :=
  parts ← safe_uri_parts uri;
  match parts with
  | a :: owner :: c :: d :: rest =>
      if seqb a (u "user") && seqb c (u "sessions")
      then Some ∘ account_path ctx <$> shorten_all (u "session" :: owner :: d :: rest) else Ok None
  | _ => Ok None
  end.

Definition legacy_session_alias (uri : pystr) : result (option pystr) :=
  parts ← safe_uri_parts uri;
  match parts with
  | a :: _ :: c :: suffix =>
      if seqb a (u "user") && seqb c (u "sessions")
      then Ok (Some (u "viking://session" ++ match suffix with [] => [] | _ => u "/" ++ path_join suffix end)) else Ok None
  | _ => Ok None
  end.

Definition is_session_root_uri (uri : pystr) : result bool :=
  alias ← legacy_session_alias uri; Ok (bool_decide (alias = Some (u "viking://session"))).

(** [if candidate and candidate not in paths: paths.append(candidate)]. *)
Definition add_candidate (paths : list pystr) (candidate : option pystr) : list pystr :=
  match candidate with Some p => if nonempty p && negb (mem p paths) then paths ++ [p] else paths | None => paths end.

Definition read_paths (uri : pystr) (ctx : RequestContext) : result (list pystr) :=
  primary ← uri_to_path uri ctx;
  legacy_uri ← legacy_session_alias uri;
  match legacy_uri with
  | Some legacy_uri =>
      legacy ← legacy_session_path legacy_uri ctx;
      nested ← legacy_user_session_path uri ctx;
      Ok (add_candidate (add_candidate [primary] (Some legacy)) nested)
  | None => Ok [primary]
  end.

Definition path_to_uri (path : pystr) (ctx : RequestContext) : result pystr :=
  if negb (startswith (u "/local/") path) then Err ValueError
  else
    let inner := strip is_slash (drop 7 path) in
    if negb (nonempty inner) then Ok SCHEME
    else
      let parts := filter (fun p => nonempty p = true) (split c_slash inner) in
      let parts := match parts with a :: rest => if seqb a (ctx_account_id ctx) then rest else parts | [] => [] end in
      match parts with [] => Ok SCHEME | _ => Ok (SCHEME ++ path_join parts) end.

Definition GIT_INTERNAL_FIRST_SEGMENTS : list pystr :=
  [u "_system"; u "tasks"; u "temp"; u "queue"; u "upload"; u ".path.ovlock"].

Definition uri_to_tree_path (uri : pystr) : result pystr :=
  parts ← safe_uri_parts uri;
  match parts with
  | [] => Err ValueError
  | first :: _ =>
      if seqb first (u "session") then Err ValueError
      else if mem first GIT_INTERNAL_FIRST_SEGMENTS then Err ValueError
      else Ok (path_join parts)
  end.

Definition tree_path_to_uri (tree_path : pystr) : result pystr :=
  let cleaned := strip is_slash tree_path in
  if nonempty cleaned then Ok (SCHEME ++ cleaned) else Err ValueError.

(** [_classify_restore_path]: the vector maintenance a restored file calls for. *)
Inductive ContextLevel := ABSTRACT | OVERVIEW | DETAIL.
Inductive restore_op := OpDelete | OpReindexMarker | OpReindexFile.

#[export] Instance ContextLevel_eq_dec : EqDecision ContextLevel.
Proof. solve_decision. Defined.
#[export] Instance restore_op_eq_dec : EqDecision restore_op.
Proof. solve_decision. Defined.

Definition dir_marker_level (name : pystr) : option ContextLevel :=
  if seqb name (u ".abstract.md") then Some ABSTRACT else if seqb name (u ".overview.md") then Some OVERVIEW else None.

(** [parent, _, name = tree_path.rpartition("/")]. *)
Definition rpartition_slash (tree_path : pystr) : pystr * pystr :=
  match rfind c_slash tree_path with Some i => (take i tree_path, drop (S i) tree_path) | None => ([], tree_path) end.

Definition classify_restore_path (tree_path : pystr) (deleted : bool) : result (option (restore_op * pystr * ContextLevel)) :=
  let '(parent, name) := rpartition_slash tree_path in
  if mem name [u ".relations.json"; u ".ovgitignore"] then Ok None
  else match dir_marker_level name with
       | Some level =>
           if negb (nonempty parent) then Ok None
           else uri ← tree_path_to_uri parent; Ok (Some (if deleted then OpDelete else OpReindexMarker, uri, level))
       | None => uri ← tree_path_to_uri tree_path; Ok (Some (if deleted then OpDelete else OpReindexFile, uri, DETAIL))
       end.

(** The path of the staged file an encrypted write goes through. *)
Definition path_parts (path : pystr) : list pystr := filter (fun p => nonempty p = true) (split c_slash path).

Definition encrypted_mount_relative_path (path : pystr) : pystr * pystr :=
  let normalized := if startswith (u "/") path then path else u "/" ++ path in
  match path_parts normalized with
  | mount :: (_ :: _ as rest) => (u "/" ++ mount, u "/" ++ path_join rest)
  | _ => ([], normalized)
  end.

Definition encrypted_temp_path (path : pystr) : result pystr :=
  let '(mount_prefix, relative_path) := encrypted_mount_relative_path path in
  let temp_root := match path_parts relative_path with
                   | a :: b :: _ => if seqb a (u "local") then u "/local/" ++ b ++ u "/temp/.encrypt_stage" else u "/" ++ a ++ u "/temp/.encrypt_stage"
                   | _ => u "/temp/.encrypt_stage"
                   end in
  b ← utf8_encode relative_path;
  Ok (mount_prefix ++ temp_root ++ u "/" ++ sha256_hex b ++ u ".encrypt").

(** ** Visibility *)

Definition WATCH_TASK_CONTROL_NAMES : list pystr := [u ".watch_tasks.json"; u ".watch_tasks.json.bak"; u ".watch_tasks.json.tmp"].

Definition is_watch_task_control_uri (uri : pystr) : result bool :=
  parts ← uri_parts uri;
  Ok (match parts with [a; b] => seqb a (u "resources") && mem b WATCH_TASK_CONTROL_NAMES | _ => false end).

(** [^\d{8}_[0-9a-f]{6}$] with [re.match]; [\d] outside ASCII is a Unicode table, and
    the final newline the pattern lets pass is kept. *)
Context (unicode_digit : N -> bool).

Definition isdigit (c : N) : bool := if c <? 128 then (48 <=? c) && (c <=? 57) else unicode_digit c.
Definition ishex (c : N) : bool := ((48 <=? c) && (c <=? 57)) || ((97 <=? c) && (c <=? 102)).

Definition looks_like_legacy_temp_leaf (value : pystr) : bool :=
  forallb isdigit (take 8 value) && bool_decide (value !! 8%nat = Some c_under) && forallb ishex (take 6 (drop 9 value))
  && ((length value =? 15)%nat || bool_decide (drop 15 value = [c_nl])) && (15 <=? length value)%nat.

Definition is_legacy_temp_uri_parts (parts : list pystr) : bool :=
  match parts with
  | a :: b :: rest =>
      seqb a (u "temp") && looks_like_legacy_temp_leaf b
      && match rest with [] => true | c :: _ => negb (looks_like_legacy_temp_leaf c) end
  | _ => false
  end.

(** [VikingFS._is_accessible]. *)
Definition fs_is_accessible (uri : pystr) (ctx : RequestContext) : result bool :=
  parts ← safe_uri_parts uri;
  if seqb (ctx_role ctx) ROOT then Ok true
  else
    hidden ← is_hidden_by_actor_peer_view uri ctx;
    if hidden : bool then Ok false
    else
      match parts with
      | [] => Ok true
      | scope :: rest =>
          watch ← is_watch_task_control_uri uri;
          if watch : bool then Ok false
          else if seqb scope (u "resources") then Ok true
          else if seqb scope (u "temp") then
            match rest with
            | [] => Ok true
            | space :: _ => if seqb space (ctx_user_id ctx) then Ok true else Ok (is_legacy_temp_uri_parts parts)
            end
          else if seqb scope (u "upload") then Ok (seqb (ctx_role ctx) ROOT)
          else if seqb scope (u "_system") then Ok false
          else if seqb scope (u "agent") then
            match rest with
            | dir :: _ =>
                if mem dir AGENT_DIRS then Ok true
                else if negb (truthy (ctx_actor_peer_id ctx)) then Ok true
                else Ok (bool_decide (Some dir = ctx_actor_peer_id ctx))
            | [] => Ok true
            end
          else is_accessible uri ctx
      end.

(** ** Decisions *)

(** [dict.fromkeys]: the first occurrence of each key. *)
Definition unique (uris : list pystr) : list pystr := reverse (remove_dups (reverse uris)).

(** The split of the URIs into those with a scheme and the rest, which are refused. *)
Fixpoint check_parts (uris : list pystr) (access : list (pystr * bool)) (valid : list pystr) : result (list (pystr * bool) * list pystr) :=
  match uris with
  | [] => Ok (access, valid)
  | uri :: uris =>
      match safe_uri_parts uri with
      | Ok _ => check_parts uris access (valid ++ [uri])
      | Err ValueError => check_parts uris (dict_set access uri false) valid
      | Err e => Err e
      end
  end.

Fixpoint accessible_all (uris : list pystr) (ctx : RequestContext) (access : list (pystr * bool)) : result (list (pystr * bool)) :=
  match uris with
  | [] => Ok access
  | uri :: uris => b ← fs_is_accessible uri ctx; accessible_all uris ctx (dict_set access uri b)
  end.

(** What is settled without looking an ACL up; [None] leaves the URI pending. *)
Definition settle_one (uri : pystr) (ctx : RequestContext) : result (option bool) :=
  watch ← is_watch_task_control_uri uri;
  if watch : bool then Some <$> fs_is_accessible uri ctx
  else
    under_acl ← is_acl_uri uri;
    if negb under_acl then Some <$> fs_is_accessible uri ctx
    else
      implicit ← (if ctx_bypass_acl ctx then Ok true else has_implicit_manage ctx uri);
      if implicit : bool then Ok (Some true) else Ok None.

Fixpoint settle (uris : list pystr) (ctx : RequestContext) (access : list (pystr * bool)) (pending : list pystr)
    : result (list (pystr * bool) * list pystr) :=
  match uris with
  | [] => Ok (access, pending)
  | uri :: uris =>
      settled ← settle_one uri ctx;
      match settled with
      | Some b => settle uris ctx (dict_set access uri b) pending
      | None => settle uris ctx access (pending ++ [uri])
      end
  end.

Fixpoint decide_pending (pending : list pystr) (effective : list (pystr * EffectiveAcl)) (ctx : RequestContext) (action : AclAction)
    (access : list (pystr * bool)) : result (list (pystr * bool)) :=
  match pending with
  | [] => Ok access
  | uri :: pending =>
      match dict_get effective uri with
      | None => Err KeyError
      | Some acl =>
          b ← (if negb (eff_enabled acl) then fs_is_accessible uri ctx else acl_allows acl ctx action);
          decide_pending pending effective ctx action (dict_set access uri b)
      end
  end.

Section decisions.
Context {St : Type} `{!ContextStore St} (fuel : nat).
(** The accounts with ACLs, when there is a manager, and the guard on deletions. *)
Context (manager : option (gset pystr)) (deletion_guard : option (pystr -> pystr -> bool)).

Definition acl_enabled (ctx : RequestContext) : bool :=
  match manager with Some accounts => is_enabled accounts (ctx_account_id ctx) | None => false end.

Definition can_access_many (s : St) (uris : list pystr) (ctx : RequestContext) (action : AclAction) : result (list (pystr * bool)) :=
  '(access, valid) ← check_parts (unique uris) [] [];
  if negb (acl_enabled ctx) then accessible_all valid ctx access
  else
    '(access, pending) ← settle valid ctx access [];
    effective ← match pending with [] => Ok [] | _ => resolve_many fuel s pending ctx end;
    decide_pending pending effective ctx action access.

Definition ensure_user_not_deleting (ctx : RequestContext) : result unit :=
  match deletion_guard with
  | Some guard => if negb (seqb (ctx_role ctx) ROOT) && guard (ctx_account_id ctx) (ctx_user_id ctx) then Err FailedPreconditionError else Ok tt
  | None => Ok tt
  end.

Definition ensure_supported_delete_namespace (uri : pystr) : result unit :=
  let parts := raw_parts uri in
  if bool_decide (parts = []) || bool_decide (parts = [u "user"]) || bool_decide (parts = [u "agent"])
  then Err PermissionDeniedError else Ok tt.

Definition ensure_supported_write_namespace (uri : pystr) : result unit :=
  let parts := raw_parts uri in
  if bool_decide (parts = [u "user"]) then Err PermissionDeniedError
  else match parts with
       | scope :: rest =>
           if seqb scope (u "session") then Err PermissionDeniedError
           else if seqb scope (u "agent") then
             match rest with
             | dir :: _ => if mem dir AGENT_DIRS then Ok tt else Err PermissionDeniedError
             | [] => Err PermissionDeniedError
             end
           else Ok tt
       | [] => Ok tt
       end.

(** The checks of one URI for an action other than reading. *)
Definition ensure_mutable (uri : pystr) (ctx : RequestContext) (action : AclAction) : result unit :=
  _ ← safe_uri_parts uri;
  if seqb uri SCHEME && seqb (ctx_role ctx) USER then Err PermissionDeniedError
  else
    hidden ← is_hidden_by_actor_peer_view uri ctx;
    hidden ← (if hidden : bool then Ok true else may_include_hidden_actor_peers uri ctx);
    if hidden : bool then Err PermissionDeniedError
    else
      _ ← match action with
          | A_MANAGE =>
              _ ← ensure_supported_delete_namespace uri;
              canonical_parts ← safe_uri_parts uri;
              if negb (seqb (ctx_role ctx) ROOT)
                 && (bool_decide (canonical_parts = [u "resources"])
                     || (bool_decide (take 1 canonical_parts = [u "user"]) && (length canonical_parts =? 2)%nat))
              then Err PermissionDeniedError else Ok tt
          | _ => Ok tt
          end;
      _ ← ensure_supported_write_namespace uri;
      if negb (seqb (ctx_role ctx) ROOT) && seqb (rstrip is_slash uri) (u "viking://temp") then Err PermissionDeniedError else Ok tt.

Fixpoint ensure_mutable_all (uris : list pystr) (ctx : RequestContext) (action : AclAction) : result unit :=
  match uris with
  | [] => Ok tt
  | uri :: uris => _ ← ensure_mutable uri ctx action; ensure_mutable_all uris ctx action
  end.

Definition ensure_access_many (s : St) (uris : list pystr) (ctx : RequestContext) (action : AclAction) : result unit :=
  access ← can_access_many s uris ctx action;
  if negb (forallb (fun uri => default false (dict_get access uri)) uris) then Err PermissionDeniedError
  else match action with
       | A_READ => Ok tt
       | _ => _ ← ensure_user_not_deleting ctx; ensure_mutable_all uris ctx action
       end.

Definition ensure_access (s : St) (uri : pystr) (ctx : RequestContext) (action : AclAction) : result unit :=
  ensure_access_many s [uri] ctx action.

Definition ensure_retrieval_scope (s : St) (uri : pystr) (ctx : RequestContext) : result unit :=
  _ ← safe_uri_parts uri;
  under_acl ← (if acl_enabled ctx then is_acl_uri uri else Ok false);
  if under_acl : bool then Ok tt else ensure_access s uri ctx A_READ.

Definition ensure_acl_manage (s : St) (uri : pystr) (ctx : RequestContext) : result unit :=
  if bool_decide (manager = None) then Err RuntimeError
  else
    _ ← safe_uri_parts uri;
    _ ← acl_ancestors uri;
    implicit ← has_implicit_manage ctx uri;
    if implicit : bool then Ok tt
    else
      effective ← resolve fuel s uri ctx;
      allowed ← (if eff_enabled effective then acl_allows effective ctx A_MANAGE else Ok false);
      if allowed : bool then Ok tt else Err PermissionDeniedError.

(** ** Flattened listings *)

Definition STORAGE_INTERNAL_ENTRY_NAMES : list pystr := [u "_system"; u "tasks"; u ".path.ovlock"; u ".redirect.json"; u ".sync_log.json"].

(** [_is_name_visible_at_path], on the parts of the parent's path. *)
Definition is_name_visible_at (name : pystr) (parent : list pystr) : bool :=
  match parent with
  | [a; _] => if seqb a (u "local") then mem name LISTABLE_SCOPES else negb (mem name STORAGE_INTERNAL_ENTRY_NAMES)
  | _ => negb (mem name STORAGE_INTERNAL_ENTRY_NAMES)
  end.

Definition is_name_visible_at_path (name parent_path : pystr) : bool :=
  is_name_visible_at name (path_parts (strip is_slash parent_path)).

Definition absolute (parts : list pystr) : pystr := u "/" ++ path_join parts.

Definition ancestor_is_filtered (entry_path base_path : pystr) : bool :=
  let base_parts := path_parts (strip is_slash base_path) in
  let entry_parts := path_parts (strip is_slash entry_path) in
  existsb (fun i => match entry_parts !! i with
                    | Some name => negb (is_name_visible_at_path name (absolute (take i entry_parts)))
                    | None => false
                    end)
    (seq (length base_parts) (length entry_parts - 1 - length base_parts)).

Definition is_path_entry_visible (entry_path name base_path : pystr) (ctx : RequestContext) : result bool :=
  if ancestor_is_filtered entry_path base_path then Ok false
  else
    let entry_parts := path_parts (strip is_slash entry_path) in
    if negb (bool_decide (entry_parts = [])) && negb (is_name_visible_at_path name (absolute (removelast entry_parts))) then Ok false
    else if acl_enabled ctx then Ok true
    else uri ← path_to_uri entry_path ctx; fs_is_accessible uri ctx.

(** ** Changing ACLs *)

(** Path locks of the file system over a state of their own, its [stat], and
    [is_not_found_error]. *)
Context {Locks : Type} (pathlock_acquire_tree : pystr -> ST Locks N) (pathlock_release : N -> ST Locks unit) (stat : pystr -> result unit).
Context (is_not_found_error : exn -> bool).

Definition ensure_acl_target_exists (uri : pystr) (ctx : RequestContext) : result unit :=
  match (path ← uri_to_path uri ctx; stat path) with
  | Ok _ => Ok tt
  | Err e => if is_exception e && is_not_found_error e then Err NotFoundError else Err e
  end.

(** [AclManager.to_report]. *)
Record AclReport := MkReport { rep_uri : pystr; rep_enabled : bool; rep_direct : DirectAcl; rep_inherited : DirectAcl; rep_effective : DirectAcl }.

Definition to_report (uri : pystr) (effective : EffectiveAcl) : result AclReport :=
  perms ← permissions effective;
  Ok (MkReport uri (eff_enabled effective) (eff_direct effective) (eff_inherited effective) perms).

Definition get_acl (s : St) (uri : pystr) (ctx : RequestContext) : result AclReport :=
  _ ← ensure_acl_manage s uri ctx; _ ← ensure_acl_target_exists uri ctx;
  effective ← resolve fuel s uri ctx; to_report uri effective.

(** The collection and the locks. *)
Definition on_locks {A} (op : ST Locks A) : ST (St * Locks) A := fun x => let '(r, k) := op x.2 in (r, (x.1, k)).
Definition on_collection {A} (op : St -> result A * St) : ST (St * Locks) A := fun x => let '(r, s) := op x.1 in (r, (s, x.2)).
Definition asking {A} (f : St -> result A) : ST (St * Locks) A := fun x => (f x.1, x).

(** Both operations: authorise, lock the subtree, authorise again, check the target, and
    set the entries [edit] computes; the lock is released on every way out. *)
Definition edit_acl (uri : pystr) (ctx : RequestContext) (edit : St -> result (list raw_entry)) : ST (St * Locks) AclReport :=
  _ ← asking (fun s => ensure_acl_manage s uri ctx);
  path ← st_lift (uri_to_path uri ctx);
  lease ← on_locks (pathlock_acquire_tree path);
  st_finally
    (_ ← asking (fun s => ensure_acl_manage s uri ctx);
     _ ← st_lift (ensure_acl_target_exists uri ctx);
     entries ← asking edit;
     effective ← on_collection (fun s => set_direct fuel s uri entries ctx);
     st_lift (to_report uri effective))
    (on_locks (pathlock_release lease)).

Definition set_acl (uri : pystr) (entries : list raw_entry) (ctx : RequestContext) : ST (St * Locks) AclReport :=
  edit_acl uri ctx (fun _ => Ok entries).

Definition delete_acl (uri : pystr) (ctx : RequestContext) : ST (St * Locks) AclReport := set_acl uri [] ctx.

(** [{entry.principal: entry for entry in direct.entries}] with one entry replaced or
    removed. *)
Definition edit_entry (direct : DirectAcl) (principal : pystr) (level : option AclLevel) : list AclEntry :=
  let entries := foldl (fun d e => dict_set d (ent_principal e) e) [] direct in
  snd <$> match level with
          | None => dict_pop entries principal
          | Some l => dict_set entries principal (MkEntry principal l)
          end.

Definition update_acl_entry (uri : pystr) (principal : pyval) (level : option raw_level) (ctx : RequestContext) : ST (St * Locks) AclReport :=
  p ← st_lift (normalize_acl_principal principal);
  l ← st_lift (match level with Some l => Some <$> normalize_acl_level l | None => Ok None end);
  edit_acl uri ctx (fun s => direct ← get_direct fuel s uri ctx; Ok (REntry <$> edit_entry direct p l)).

Definition grant_acl (uri : pystr) (principal : pyval) (level : raw_level) (ctx : RequestContext) : ST (St * Locks) AclReport :=
  update_acl_entry uri principal (Some level) ctx.

Definition revoke_acl (uri : pystr) (principal : pyval) (ctx : RequestContext) : ST (St * Locks) AclReport :=
  update_acl_entry uri principal None ctx.
End decisions.
End paths.
