(* ===== verification/FsAccessTheory.v ===== *)
(** Correctness of the file system's access layer: paths stay inside the account, user
    trees stay private, ACLs decide resources, and grants are point updates. *)
From Stdlib Require Import NArith ZArith.
From S2P Require Import Prelude Effects PyStr PyVal PyBytes Identifiers Uri Namespace NamespaceTheory Acl AclTheory AclStore AclStoreTheory FsAccess.

Open Scope N_scope.

(** ** Parts of a URI *)

Lemma segs_lstrip q : segs (lstrip is_slash q) = segs q.
Proof.
  destruct (lstrip_decomp is_slash q) as (k & Hk & Hf%is_slash_all). rewrite Hk at 2. clear Hk.
  induction Hf as [|x k -> _ IH]; [done|]. change ((c_slash :: k) ++ lstrip is_slash q) with ([] ++ c_slash :: (k ++ lstrip is_slash q)).
  by rewrite segs_app, IH.
Qed.

Lemma segs_strip q : segs (strip is_slash q) = segs q.
Proof. unfold strip. by rewrite segs_rstrip, segs_lstrip. Qed.

Lemma raw_parts_scheme path : raw_parts (SCHEME ++ path) = segs path.
Proof. unfold raw_parts. rewrite drop_app_length. apply segs_strip. Qed.

Section access.
Context (unicode_alpha : N -> bool).
Abbreviation safe_parts := (safe_uri_parts unicode_alpha).

Lemma safe_parts_inv uri ps : safe_parts uri = Ok ps ->
  exists path, uri = SCHEME ++ path /\ ps = segs path /\ Forall (fun p => unsafe_part unicode_alpha p = false) ps.
Proof.
  unfold safe_uri_parts. destruct (startswith SCHEME uri) eqn:Es; [|done]. cbn [negb]. destruct (existsb _ _) eqn:Ex; [done|].
  intros [= <-]. apply startswith_inv in Es. exists (drop (length SCHEME) uri). split_and!; [done| |].
  - rewrite Es at 1. apply raw_parts_scheme.
  - apply Forall_forall. intros p Hp. apply not_true_iff_false. intros Hu. assert (existsb (unsafe_part unicode_alpha) (raw_parts uri) = true); [|congruence].
    apply existsb_exists. exists p. split; [by apply list_elem_of_In|done].
Qed.

(** The last piece of the one and the first of the other come together. *)
Lemma split_app_any c a b : exists l z w r, split c a = l ++ [z] /\ split c b = w :: r /\ split c (a ++ b) = l ++ (z ++ w) :: r.
Proof.
  induction a as [|x a (l & z & w & r & Ha & Hb & Hab)]; cbn [split app].
  - destruct (split c b) as [|w r] eqn:E; [by destruct (split_not_nil c b)|]. by exists [], [], w, r.
  - destruct (x =? c); [exists ([] :: l), z, w, r; by rewrite Ha, Hb, Hab|]. rewrite Ha, Hab. destruct l as [|y l]; cbn [app].
    + by exists [], (x :: z), w, r.
    + by exists ((x :: y) :: l), z, w, r.
Qed.

(** A query begins in the first part that has a question mark. *)
Lemma segs_before path a b rest : segs path = a :: b :: rest -> c_quest ∉ a -> c_quest ∉ b -> exists rest', segs (before c_quest path) = a :: b :: rest'.
Proof.
  intros Hs Ha Hb. destruct (decide (c_quest ∈ path)) as [Hin|Hin]; [|rewrite before_notin by done; eauto].
  destruct (before_split _ _ Hin) as [t Ht]. set (pre := before c_quest path) in *. rewrite Ht in Hs.
  destruct (split_app_any c_slash pre (c_quest :: t)) as (l & z & w & r & Hl & Hw & Hsp). unfold segs in *.
  assert (c_quest ∈ z ++ w) as Hq.
  { apply elem_of_app. right. cbn in Hw. destruct (split c_slash t); injection Hw as <- _; by left. }
  rewrite Hsp, filter_app, filter_cons_True in Hs by (apply nonempty_true; intros E; rewrite E in Hq; by apply elem_of_nil in Hq).
  rewrite Hl, filter_app. set (k := filter _ l) in *. destruct k as [|x [|y k]]; cbn [app] in *.
  - injection Hs as <- _. done.
  - injection Hs as <- <- _. done.
  - injection Hs as <- <- _. eauto.
Qed.

(** Without a query, the namespace rules see the same parts. *)
Lemma safe_uri_parts_eq uri ps : safe_parts uri = Ok ps -> c_quest ∉ uri -> uri_parts uri = Ok ps.
Proof.
  intros (path & -> & -> & _)%safe_parts_inv Hq. change SCHEME with SCHEME_SEP in *. rewrite uri_parts_scheme.
  rewrite before_notin; [done|]. rewrite elem_of_app in Hq. tauto.
Qed.

(** With one, they still see whose tree it is. *)
Lemma safe_user_parts uri owner rest : safe_parts uri = Ok (u "user" :: owner :: rest) -> c_quest ∉ owner ->
  exists rest', uri_parts uri = Ok (u "user" :: owner :: rest').
Proof.
  intros (path & -> & Hs & _)%safe_parts_inv Hq. change SCHEME with SCHEME_SEP in *. rewrite uri_parts_scheme.
  destruct (segs_before path (u "user") owner rest) as [rest' ->]; [done|decided|done|eauto].
Qed.

Lemma safe_parts_join ps : Forall seg_ok ps -> Forall (fun p => unsafe_part unicode_alpha p = false) ps ->
  safe_parts (SCHEME ++ path_join ps) = Ok ps.
Proof.
  intros Hok Hsafe. unfold safe_uri_parts. rewrite startswith_app. cbn [negb]. rewrite raw_parts_scheme, segs_join by done.
  assert (existsb (unsafe_part unicode_alpha) ps = false) as ->; [|done]. apply not_true_iff_false. intros (p & Hin & Hp)%existsb_exists.
  rewrite Forall_forall in Hsafe. rewrite Hsafe in Hp; [done|by apply list_elem_of_In].
Qed.

(** ** Components of paths *)

(** A component that names a file in its directory, and fits the file system's limit. *)
Definition component_ok (q : pystr) : Prop :=
  seg_ok q /\ q ∉ [u "."; u ".."] /\ exists b, utf8_encode q = Ok b /\ (length b <= MAX_FILENAME_BYTES)%nat.

(** Documented form of [hexdigest()]. *)
Definition hex_digest (sha256_hex : bytes -> pystr) : Prop :=
  forall b, length (sha256_hex b) = 64%nat /\ Forall (fun c => ishex c = true) (sha256_hex b).

Lemma shrink_spec fuel p target r : shrink fuel p target = Ok r -> (length p <= fuel)%nat ->
  r `prefix_of` p /\ exists b, utf8_encode r = Ok b /\ (length b <= target)%nat.
Proof.
  revert p. induction fuel as [|fuel IH]; intros p; cbn [shrink].
  - intros [= <-] Hl. destruct p; [|cbn in Hl; lia]. split; [done|]. exists []. split; [done|cbn; lia].
  - destruct (utf8_encode p) as [b|] eqn:Eb; [|done]. cbn [mbind result_bind].
    destruct (Nat.ltb_spec target (length b)) as [Hlt|Hge]; cbn [andb]; [|intros [= <-] _; split; [done|]; by exists b].
    destruct p as [|c p]; [injection Eb as <-; cbn in Hlt; lia|]. cbn [nonempty]. intros Hs Hl.
    assert (exists x, removelast (c :: p) ++ [x] = c :: p) as [x Hx].
    { exists (List.last (c :: p) c). symmetry. by apply app_removelast_last. }
    destruct (IH _ Hs) as [Hp Hb]; [|split; [|done]].
    + apply (f_equal length) in Hx. rewrite length_app in Hx. cbn [length] in *. lia.
    + etrans; [exact Hp|]. exists [x]. by rewrite Hx.
Qed.

Section digest.
Context (sha256_hex : bytes -> pystr) (Hsha : hex_digest sha256_hex).
Abbreviation shorten := (shorten_component sha256_hex).

Lemma ishex_ascii c : ishex c = true -> c < 128 /\ c <> c_slash.
Proof.
  unfold ishex, c_slash. rewrite orb_true_iff, !andb_true_iff, !N.leb_le. lia.
Qed.

Lemma shorten_ok c q : shorten c = Ok q -> seg_ok c -> c ∉ [u "."; u ".."] -> component_ok q.
Proof.
  unfold shorten_component. destruct (utf8_encode c) as [b|] eqn:Eb; [|done]. cbn [mbind result_bind].
  destruct (Nat.leb_spec (length b) MAX_FILENAME_BYTES) as [Hle|Hgt]; [intros [= <-] Hs Hd; split_and!; [done|done|by exists b]|].
  set (hex := take 8 (sha256_hex b)). destruct (Hsha b) as [Hlen Hhex].
  assert (length hex = 8%nat) as Hl8 by (unfold hex; rewrite length_take; lia).
  assert (Forall (fun c => ishex c = true) hex) as Hh by by apply Forall_take.
  assert (Forall (fun c => c < 128) (u "_" ++ hex)) as Hascii.
  { apply Forall_app. split; [by vm_compute; repeat constructor|]. eapply Forall_impl; [exact Hh|]. intros x Hx. by apply ishex_ascii. }
  rewrite (utf8_encode_ascii _ Hascii). cbn [mbind result_bind].
  destruct (shrink _ _ _) as [r|] eqn:Er; [|done]. cbn [mbind result_bind]. intros [= <-] [Hne Hns] _.
  apply shrink_spec in Er as ((k & Hk) & br & Hbr & Hlr); [|done].
  assert (c_slash ∉ r) as Hr by (intros Hin; apply Hns; rewrite Hk, elem_of_app; by left).
  assert (c_slash ∉ u "_" ++ hex) as Hsuf.
  { rewrite elem_of_app. intros [Hin|Hin]; [by revert Hin; decided|]. rewrite Forall_forall in Hh. by apply Hh, ishex_ascii in Hin as [_ ?]. }
  rewrite length_app, Hl8 in Hlr. change (length (u "_")) with 1%nat in Hlr.
  split_and!.
  - split; [by destruct r|]. rewrite elem_of_app. tauto.
  - assert (9 <= length (r ++ u "_" ++ hex))%nat as H9 by (rewrite !length_app, Hl8; change (length (u "_")) with 1%nat; lia).
    intros Hin. apply elem_of_cons in Hin as [E|[E|Hin]%elem_of_cons]; [rewrite E in H9; by vm_compute in H9; lia..|by apply elem_of_nil in Hin].
  - exists (br ++ (u "_" ++ hex)). split; [by apply utf8_encode_app; [|apply utf8_encode_ascii]|].
    rewrite !length_app, Hl8. change (length (u "_")) with 1%nat. unfold MAX_FILENAME_BYTES in *. lia.
Qed.

Lemma shorten_all_ok ps qs : shorten_all sha256_hex ps = Ok qs -> Forall (fun c => seg_ok c /\ c ∉ [u "."; u ".."]) ps ->
  Forall component_ok qs /\ length qs = length ps.
Proof.
  revert qs. induction ps as [|c ps IH]; intros qs; cbn [shorten_all]; [by intros [= <-] _|].
  destruct (shorten c) as [q|] eqn:Eq; [|done]. cbn [mbind result_bind]. destruct (shorten_all _ ps) as [qs'|]; [|done]. cbn [mbind result_bind].
  intros [= <-] [[Hs Hd] Hps]%Forall_cons. destruct (IH qs' eq_refl Hps) as [H1 H2]. split; [|cbn; lia]. constructor; [|done]. by eapply shorten_ok.
Qed.

(** Short components are kept. *)
Definition short (c : pystr) : Prop := exists b, utf8_encode c = Ok b /\ (length b <= MAX_FILENAME_BYTES)%nat.

Lemma shorten_all_short ps : Forall short ps -> shorten_all sha256_hex ps = Ok ps.
Proof.
  induction 1 as [|c ps (b & Hb & Hl) _ IH]; [done|]. cbn [shorten_all]. unfold shorten_component. rewrite Hb. cbn [mbind result_bind].
  rewrite (proj2 (Nat.leb_le _ _) Hl). cbn [mbind result_bind]. by rewrite IH.
Qed.

Abbreviation to_path := (uri_to_path unicode_alpha sha256_hex).

(** The shape of a mapped path. *)
Lemma to_path_inv uri ctx p : to_path uri ctx = Ok p ->
  exists ps, safe_parts uri = Ok ps /\ take 1 ps <> [u "session"]
    /\ ((ps = [] /\ p = u "/local/" ++ ctx_account_id ctx)
        \/ (ps <> [] /\ exists qs, shorten_all sha256_hex ps = Ok qs /\ p = account_path ctx qs)).
Proof.
  unfold uri_to_path. destruct (safe_parts uri) as [ps|] eqn:Ep; [|done]. cbn [mbind result_bind]. case_bool_decide as Hs; [done|].
  intros H. exists ps. split_and!; [done|done|].
  destruct ps as [|c ps]; [left; split; [done|]; by injection H as <-|right].
  split; [done|]. destruct (if part_is _ _ _ then _ else _) as [legacy|]; [|done]. cbn [mbind result_bind] in H.
  destruct (shorten_all sha256_hex (c :: ps)) as [qs|]; [|by destruct legacy]. exists qs. split; [done|].
  by destruct legacy; injection H as <-.
Qed.

Definition path_of (ctx : RequestContext) (ps : list pystr) : pystr :=
  match ps with [] => u "/local/" ++ ctx_account_id ctx | _ => account_path ctx ps end.

Lemma to_path_short uri ctx ps : safe_parts uri = Ok ps -> take 1 ps <> [u "session"] -> Forall short ps -> to_path uri ctx = Ok (path_of ctx ps).
Proof.
  intros Hps Hns Hshort. pose proof (shorten_all_short _ Hshort) as Hall.
  unfold uri_to_path. rewrite Hps. cbn [mbind result_bind]. rewrite bool_decide_eq_false_2 by done.
  assert (exists l, (if part_is ps 0 (u "agent") then is_legacy_agent_id_uri unicode_alpha uri else Ok false) = Ok l /\ (ps = [] -> l = false)) as (l & -> & Hl).
  { unfold is_legacy_agent_id_uri. rewrite Hps. cbn [mbind result_bind]. destruct ps; [by exists false|]. destruct (part_is _ _ _); eexists; split; done. }
  cbn [mbind result_bind]. destruct ps as [|c ps]; [by rewrite Hl|]. rewrite Hall. by destruct l.
Qed.

Lemma local_ok : seg_ok (u "local").
Proof. split; [by vm_compute|]. by apply (bool_decide_eq_false_1 (c_slash ∈ u "local")); vm_compute. Qed.
#[local] Hint Resolve local_ok : core.

Lemma segs_local x : segs (u "/local/" ++ x) = u "local" :: segs x.
Proof.
  change (u "/local/" ++ x) with ([] ++ c_slash :: (u "local" ++ c_slash :: x)). rewrite segs_app, segs_app, (segs_seg (u "local")) by done. done.
Qed.

Lemma segs_path account qs : seg_ok account -> Forall seg_ok qs -> segs (u "/local/" ++ account ++ u "/" ++ path_join qs) = u "local" :: account :: qs.
Proof.
  intros Ha Hq. rewrite segs_local. change (u "/" ++ path_join qs) with (c_slash :: path_join qs).
  by rewrite segs_app, (segs_seg account), segs_join by done.
Qed.

(** C27: Whatever URI a request names, its path stays below the directory of the
    request's account: no component climbs up or separates paths, and each fits the
    limit of the file system. *)
Theorem uri_to_path_confined (uri : pystr) (ctx : RequestContext) (p : pystr) :
  seg_ok (ctx_account_id ctx) -> to_path uri ctx = Ok p ->
  exists qs, segs p = u "local" :: ctx_account_id ctx :: qs /\ Forall component_ok qs.
Proof.
  intros Ha (ps & Hps & _ & Hcase)%to_path_inv. apply safe_parts_inv in Hps as (path & _ & -> & Hsafe).
  destruct Hcase as [[_ ->]|(_ & qs & Hqs & ->)].
  - exists []. split; [|done]. by rewrite segs_local, segs_seg.
  - apply shorten_all_ok in Hqs as [Hok _]; [exists qs; split; [|done]; apply segs_path; [done|]|].
    + eapply Forall_impl; [exact Hok|]. by intros q [? _].
    + apply Forall_and. split; [apply segs_ok|]. eapply Forall_impl; [exact Hsafe|]. intros q Hq.
      unfold unsafe_part, mem in Hq. rewrite !orb_false_iff, bool_decide_eq_false in Hq. tauto.
Qed.

(** Paths name resources faithfully: mapping a path back gives the URI with the same
    parts, so two URIs share a path only if they have the same parts. *)
Theorem path_uri_roundtrip (uri : pystr) (ctx : RequestContext) (ps : list pystr) :
  seg_ok (ctx_account_id ctx) -> safe_parts uri = Ok ps -> take 1 ps <> [u "session"] -> Forall short ps ->
  exists p uri', to_path uri ctx = Ok p /\ path_to_uri p ctx = Ok uri' /\ safe_parts uri' = Ok ps.
Proof.
  intros Ha Hps Hns Hshort. pose proof (safe_parts_inv _ _ Hps) as (path & _ & Hpath & Hsafe).
  assert (Forall seg_ok ps) as Hok by (rewrite Hpath; apply segs_ok).
  exists (path_of ctx ps), (SCHEME ++ path_join ps). pose proof (to_path_short uri ctx ps Hps Hns Hshort) as Hto.
  split_and!; [done| |by apply safe_parts_join].
  assert (Hback : forall rest, segs rest = ctx_account_id ctx :: ps -> path_to_uri (u "/local/" ++ rest) ctx = Ok (SCHEME ++ path_join ps)).
  { intros rest Hrest. unfold path_to_uri. rewrite startswith_app. cbn [negb]. change 7%nat with (length (u "/local/")). rewrite drop_app_length.
    fold (segs (strip is_slash rest)). rewrite segs_strip, Hrest. rewrite (proj2 (seqb_true _ _)) by done.
    destruct (nonempty (strip is_slash rest)) eqn:En.
    - cbn [negb]. destruct ps; [|done]. by rewrite app_nil_r.
    - exfalso. apply nonempty_false in En. rewrite <- segs_strip, En in Hrest. done. }
  unfold path_of. destruct ps as [|c ps]; [apply Hback; by apply segs_seg|]. unfold account_path. apply Hback.
  change (u "/") with [c_slash]. cbn [app]. by rewrite segs_app, segs_seg, segs_join.
Qed.
End digest.

(** ** The decision loops *)

Section loops.
Context (unicode_digit : N -> bool).
Abbreviation visible := (fs_is_accessible unicode_alpha unicode_digit).
Abbreviation settled := (settle_one unicode_alpha unicode_digit).

Lemma check_parts_valid uris access valid access' valid' :
  check_parts unicode_alpha uris access valid = Ok (access', valid') ->
  forall uri, uri ∈ valid' <-> uri ∈ valid \/ (uri ∈ uris /\ exists ps, safe_parts uri = Ok ps).
Proof.
  revert access valid. induction uris as [|v uris IH]; intros access valid; cbn [check_parts].
  - intros [= <- <-] uri. set_solver.
  - destruct (safe_parts v) as [ps|e] eqn:Ev.
    + intros H uri. rewrite (IH _ _ H uri), elem_of_app, list_elem_of_singleton, elem_of_cons. naive_solver.
    + destruct e; try done. intros H uri. rewrite (IH _ _ H uri), elem_of_cons. split; [naive_solver|].
      intros [?|[[->|?] (ps & Hps)]]; [by left|congruence|eauto].
Qed.

(** Safe URIs all pass the first loop. *)
Lemma check_parts_safe uris access valid :
  Forall (fun uri => exists ps, safe_parts uri = Ok ps) uris -> check_parts unicode_alpha uris access valid = Ok (access, valid ++ uris).
Proof.
  intros H. revert valid. induction H as [|uri uris (ps & Hps) _ IH]; intros valid; cbn [check_parts]; [by rewrite app_nil_r|].
  by rewrite Hps, IH, <- app_assoc.
Qed.

Lemma accessible_all_get uris ctx access access' : accessible_all unicode_alpha unicode_digit uris ctx access = Ok access' ->
  forall uri, (uri ∈ uris -> exists b, visible uri ctx = Ok b /\ dict_get access' uri = Some b)
              /\ (uri ∉ uris -> dict_get access' uri = dict_get access uri).
Proof.
  revert access. induction uris as [|v uris IH]; intros access; cbn [accessible_all]; [intros [= <-] uri; split; [by intros ?%elem_of_nil|done]|].
  destruct (visible v ctx) as [b|] eqn:Ev; [|done]. cbn [mbind result_bind]. intros H uri. destruct (IH _ H uri) as [IH1 IH2].
  rewrite not_elem_of_cons, elem_of_cons. split.
  - intros Hor. destruct (decide (uri ∈ uris)) as [Hin|Hin]; [by apply IH1|]. destruct (decide (uri = v)) as [->|Hne]; [|by destruct Hor].
    exists b. split; [done|]. rewrite IH2, dict_set_get by done. by rewrite (proj2 (seqb_true v v) eq_refl).
  - intros [Hne Hin]. rewrite IH2, dict_set_get by done. by rewrite (proj2 (seqb_false v uri)).
Qed.

Lemma settle_get uris ctx access pending access' pending' : settle unicode_alpha unicode_digit uris ctx access pending = Ok (access', pending') ->
  forall uri, (uri ∈ pending' <-> uri ∈ pending \/ (uri ∈ uris /\ settled uri ctx = Ok None))
              /\ (uri ∈ uris -> exists o, settled uri ctx = Ok o /\ (forall b, o = Some b -> dict_get access' uri = Some b))
              /\ (uri ∉ uris -> dict_get access' uri = dict_get access uri).
Proof.
  revert access pending. induction uris as [|v uris IH]; intros access pending; cbn [settle].
  { intros [= <- <-] uri. split_and!; [set_solver|by intros ?%elem_of_nil|done]. }
  destruct (settled v ctx) as [o|] eqn:Ev; [|done]. cbn [mbind result_bind]. intros H uri.
  assert (forall access1 pending1, settle unicode_alpha unicode_digit uris ctx access1 pending1 = Ok (access', pending') ->
            (uri <> v -> dict_get access1 uri = dict_get access uri) ->
            (forall b, o = Some b -> dict_get access1 v = Some b) ->
            (uri ∈ pending1 <-> uri ∈ pending \/ (uri = v /\ o = None)) ->
            (uri ∈ pending' <-> uri ∈ pending \/ (uri ∈ v :: uris /\ settled uri ctx = Ok None))
            /\ (uri ∈ v :: uris -> exists o, settled uri ctx = Ok o /\ (forall b, o = Some b -> dict_get access' uri = Some b))
            /\ (uri ∉ v :: uris -> dict_get access' uri = dict_get access uri)) as Hstep.
  { intros access1 pending1 H1 Hother Hv Hp. destruct (IH _ _ H1 uri) as (IH1 & IH2 & IH3). rewrite IH1, Hp, not_elem_of_cons, elem_of_cons.
    split_and!.
    - split; [intros [[?|[-> ->]]|[??]]; auto|intros [?|[[->|?] Hs]]; auto]. left. right. split; [done|congruence].
    - intros Hor. destruct (decide (uri ∈ uris)) as [Hin|Hin]; [by apply IH2|]. destruct (decide (uri = v)) as [->|Hne]; [|by destruct Hor].
      exists o. split; [done|]. intros b Hb. rewrite IH3 by done. by apply Hv.
    - intros [Hne Hin]. rewrite IH3 by done. by apply Hother. }
  destruct o as [b|].
  - apply (Hstep _ _ H); [| |naive_solver].
    + intros Hne. rewrite dict_set_get. by rewrite (proj2 (seqb_false v uri)).
    + intros b' [= <-]. rewrite dict_set_get. by rewrite (proj2 (seqb_true v v) eq_refl).
  - apply (Hstep _ _ H); [done|done|]. rewrite elem_of_app, list_elem_of_singleton. naive_solver.
Qed.

Lemma decide_pending_get pending effective ctx action access access' :
  decide_pending unicode_alpha unicode_digit pending effective ctx action access = Ok access' ->
  forall uri, (uri ∈ pending -> exists acl b, dict_get effective uri = Some acl
                 /\ (if negb (eff_enabled acl) then visible uri ctx else acl_allows acl ctx action) = Ok b /\ dict_get access' uri = Some b)
              /\ (uri ∉ pending -> dict_get access' uri = dict_get access uri).
Proof.
  revert access. induction pending as [|v pending IH]; intros access; cbn [decide_pending]; [intros [= <-] uri; split; [by intros ?%elem_of_nil|done]|].
  destruct (dict_get effective v) as [acl|] eqn:Ea; [|done]. destruct (if negb _ then _ else _) as [b|] eqn:Eb; [|done]. cbn [mbind result_bind].
  intros H uri. destruct (IH _ H uri) as [IH1 IH2]. rewrite not_elem_of_cons, elem_of_cons. split.
  - intros Hor. destruct (decide (uri ∈ pending)) as [Hin|Hin]; [by apply IH1|]. destruct (decide (uri = v)) as [->|Hne]; [|by destruct Hor].
    exists acl, b. split_and!; [done|done|]. rewrite IH2, dict_set_get by done. by rewrite (proj2 (seqb_true v v) eq_refl).
  - intros [Hne Hin]. rewrite IH2, dict_set_get by done. by rewrite (proj2 (seqb_false v uri)).
Qed.

Lemma unique_elem uris uri : uri ∈ unique uris <-> uri ∈ uris.
Proof. apply remove_dups_rev_elem. Qed.

(** URIs outside the resource tree are decided by the namespace rules alone. *)
Lemma can_access_private {St} `{!ContextStore St} fuel manager (s : St) uris ctx action access uri ps :
  can_access_many unicode_alpha unicode_digit fuel manager s uris ctx action = Ok access -> uri ∈ uris ->
  safe_parts uri = Ok ps -> is_acl_uri uri = Ok false ->
  exists b, visible uri ctx = Ok b /\ dict_get access uri = Some b.
Proof.
  unfold can_access_many. intros H Hin%unique_elem Hps Hacl. destruct (check_parts _ _ _ _) as [[access0 valid]|] eqn:Ec; [|done]. cbn [mbind result_bind] in H.
  assert (uri ∈ valid) as Hv by (apply (check_parts_valid _ _ _ _ _ Ec); right; eauto).
  destruct (negb _); [by apply (accessible_all_get _ _ _ _ H)|].
  destruct (settle _ _ _ _ _ _) as [[access1 pending]|] eqn:Es; [|done]. cbn [mbind result_bind] in H.
  destruct (match pending with [] => _ | _ => _ end) as [effective|]; [|done]. cbn [mbind result_bind] in H.
  destruct (settle_get _ _ _ _ _ _ Es uri) as (Hp & Hs & _). destruct (Hs Hv) as (o & Ho & Hget).
  unfold settle_one in Ho. rewrite Hacl in Ho. destruct (is_watch_task_control_uri uri) as [w|]; [|done]. cbn [mbind result_bind negb] in Ho.
  assert (Some <$> visible uri ctx = Ok o) as Hvis by by destruct w. destruct (visible uri ctx) as [b|]; [|done]. injection Hvis as <-.
  exists b. split; [done|]. destruct (decide_pending_get _ _ _ _ _ _ H uri) as [_ ->]; [by apply Hget|].
  rewrite Hp. intros [?%elem_of_nil|[_ Hn]]; [done|]. unfold settle_one in Hn. rewrite Hacl in Hn.
  destruct (is_watch_task_control_uri uri) as [w'|]; [|done]. cbn [mbind result_bind negb] in Hn. destruct (visible uri ctx); by destruct w'.
Qed.

Section guard.
Context {St : Type} `{!ContextStore St} (fuel : nat) (manager : option (gset pystr)) (deletion_guard : option (pystr -> pystr -> bool)).
Abbreviation ensure_many := (ensure_access_many unicode_alpha unicode_digit fuel manager deletion_guard).

Lemma ensure_many_inv (s : St) uris ctx action uri : ensure_many s uris ctx action = Ok tt -> uri ∈ uris ->
  exists access, can_access_many unicode_alpha unicode_digit fuel manager s uris ctx action = Ok access /\ dict_get access uri = Some true
    /\ (action <> A_READ -> ensure_mutable unicode_alpha uri ctx action = Ok tt).
Proof.
  unfold ensure_access_many. intros H Hin. destruct (can_access_many _ _ _ _ _ _ _ _) as [access|]; [|done]. cbn [mbind result_bind] in H.
  destruct (forallb _ uris) eqn:Ef; [|done]. cbn [negb] in H. rewrite forallb_forall in Ef. exists access. split_and!; [done| |].
  - specialize (Ef uri (proj1 (list_elem_of_In _ _) Hin)). by destruct (dict_get access uri) as [[]|].
  - intros Ha. assert (ensure_mutable_all unicode_alpha uris ctx action = Ok tt) as Hall.
    { destruct action; [done|..]; destruct (ensure_user_not_deleting _ _); done. }
    clear - Hall Hin. induction uris as [|v uris IH]; [by apply elem_of_nil in Hin|]. cbn [ensure_mutable_all] in Hall.
    destruct (ensure_mutable unicode_alpha v ctx action) as [[]|] eqn:Ev; [|done]. cbn [mbind result_bind] in Hall.
    apply elem_of_cons in Hin as [->|Hin]; auto.
Qed.

(** C25: The file system keeps users apart: a request of a caller who is not root is
    refused as soon as one of its URIs lies below another user's root, whatever the
    action, the ACLs and the other URIs of the request, and whether or not the URI has a
    query.  The owner's id contains no question mark (no user id does). *)
Theorem fs_user_isolation (s : St) (uris : list pystr) (ctx : RequestContext) (action : AclAction) (uri owner : pystr) (rest : list pystr) :
  ctx_role ctx <> ROOT -> uri ∈ uris -> safe_parts uri = Ok (u "user" :: owner :: rest) -> c_quest ∉ owner -> owner <> ctx_user_id ctx ->
  ensure_many s uris ctx action <> Ok tt.
Proof.
  intros Hr Hin Hps Hq Hne H. destruct (ensure_many_inv _ _ _ _ _ H Hin) as (access & Hacc & Hget & _).
  destruct (safe_user_parts _ _ _ Hps Hq) as [rest' Hup].
  destruct (can_access_private _ _ _ _ _ _ _ _ _ Hacc Hin Hps) as (b & Hb & Hget'); [unfold is_acl_uri; by rewrite Hup|].
  rewrite Hget in Hget'. injection Hget' as <-. unfold fs_is_accessible in Hb. rewrite Hps in Hb. cbn [mbind result_bind] in Hb.
  rewrite (proj2 (seqb_false _ _) Hr) in Hb. destruct (is_hidden_by_actor_peer_view uri ctx) as [[]|]; [done| |done]. cbn [mbind result_bind] in Hb.
  assert (is_watch_task_control_uri uri = Ok false) as Hw by (unfold is_watch_task_control_uri; rewrite Hup; by destruct rest').
  rewrite Hw in Hb. cbn [mbind result_bind] in Hb. revert Hb. eval_seqb. intros Hb. by eapply Hne, owner_only.
Qed.

(** The roots of the name space cannot be removed: outside root, no request with the
    manage action passes when it names the account root, [viking://user], a user's
    root, [viking://agent] or [viking://resources], administrators included. *)
Theorem roots_protected (s : St) (uris : list pystr) (ctx : RequestContext) (uri : pystr) (ps : list pystr) :
  ctx_role ctx <> ROOT -> uri ∈ uris -> safe_parts uri = Ok ps ->
  ps = [] \/ ps = [u "user"] \/ ps = [u "agent"] \/ ps = [u "resources"] \/ (exists owner, ps = [u "user"; owner]) ->
  ensure_many s uris ctx A_MANAGE <> Ok tt.
Proof.
  intros Hr Hin Hps Hroot H. destruct (ensure_many_inv _ _ _ _ _ H Hin) as (_ & _ & _ & Hm). specialize (Hm ltac:(done)).
  unfold ensure_mutable in Hm. rewrite Hps in Hm. cbn [mbind result_bind] in Hm. destruct (seqb uri SCHEME && _); [done|].
  destruct (is_hidden_by_actor_peer_view uri ctx) as [h|]; [|done]. cbn [mbind result_bind] in Hm.
  destruct (if h then _ else _) as [h'|]; [|done]. cbn [mbind result_bind] in Hm. destruct h'; [done|].
  unfold ensure_supported_delete_namespace in Hm.
  assert (raw_parts uri = ps) as Hraw by (apply safe_parts_inv in Hps as (path & -> & -> & _); apply raw_parts_scheme). rewrite Hraw in Hm.
  rewrite (proj2 (seqb_false _ _) Hr) in Hm. destruct Hroot as [->|[->|[->|[->|(owner & ->)]]]]; done.
Qed.
End guard.

(** ** Resources under ACLs *)

(** A path the file system accepts that is not a control file of the watch scheduler. *)
Definition resource_path (ps : list pystr) : Prop :=
  good_path ps /\ Forall (fun p => unsafe_part unicode_alpha p = false) ps /\ is_watch_task_control_uri (canon ps) = Ok false.

Lemma canon_safe ps : resource_path ps -> safe_parts (canon ps) = Ok ps.
Proof. intros ((_ & Hs & _) & Hu & _). by apply safe_parts_join. Qed.

Lemma canon_acl ps : good_path ps -> is_acl_uri (canon ps) = Ok true.
Proof. intros Hg. unfold is_acl_uri. rewrite canon_parts by done. cbn. f_equal. apply bool_decide_eq_true_2. by destruct Hg. Qed.

Lemma good_path_cons ps : good_path ps -> exists rest, ps = u "resources" :: rest.
Proof. intros [H _]. destruct ps as [|p rest]; [done|]. injection H as ->. by exists rest. Qed.

Lemma canon_parse ps : good_path ps -> exists v, parse (canon ps) = Ok v.
Proof.
  intros (rest & ->)%good_path_cons. assert (u "resources" ∈ VISITABLE_SCOPES) as Hv by (apply (bool_decide_unpack _); by vm_compute).
  destruct rest as [|p rest]; [eexists; by apply parse_scope_only|]. eexists.
  change (canon (u "resources" :: p :: rest)) with (SCHEME_SEP ++ u "resources" ++ c_slash :: path_join (p :: rest)). by apply parse_scope_tail.
Qed.

(** Without an ACL the resource tree is open to every caller of the account. *)
Lemma resource_visible ps ctx : resource_path ps -> visible (canon ps) ctx = Ok true.
Proof.
  intros Hp. pose proof Hp as (Hg & _ & Hw). unfold fs_is_accessible. rewrite (canon_safe _ Hp). cbn [mbind result_bind].
  destruct (seqb (ctx_role ctx) ROOT); [done|]. destruct (good_path_cons _ Hg) as (rest & ->). destruct (canon_parse _ Hg) as (v & Hv).
  assert (is_hidden_by_actor_peer_view (canon (u "resources" :: rest)) ctx = Ok false) as ->.
  { unfold is_hidden_by_actor_peer_view, actor_peer_view_user_suffix. destruct (truthy _); [|done]. cbn [negb].
    rewrite (resolve_other _ _ _ _ Hv (canon_parts _ Hg)) by done. change (mem (u "resources") _) with false. cbv iota.
    rewrite canon_parts by done. cbn [mbind result_bind]. by rewrite bool_decide_eq_false_2. }
  cbn [mbind result_bind]. rewrite Hw. done.
Qed.

Lemma settle_pending uris ctx access pending : Forall (fun uri => settled uri ctx = Ok None) uris ->
  settle unicode_alpha unicode_digit uris ctx access pending = Ok (access, pending ++ uris).
Proof.
  intros H. revert pending. induction H as [|uri uris Hu _ IH]; intros pending; cbn [settle]; [by rewrite app_nil_r|].
  rewrite Hu. cbn [mbind result_bind]. by rewrite IH, <- app_assoc.
Qed.

Lemma decide_pending_total pending effective ctx action access :
  Forall (fun uri => exists acl b, dict_get effective uri = Some acl
                       /\ (if negb (eff_enabled acl) then visible uri ctx else acl_allows acl ctx action) = Ok b) pending ->
  exists access', decide_pending unicode_alpha unicode_digit pending effective ctx action access = Ok access'.
Proof.
  intros H. revert access. induction H as [|uri pending (acl & b & Ha & Hb) _ IH]; intros access; cbn [decide_pending]; [by eexists|].
  rewrite Ha, Hb. cbn [mbind result_bind]. apply IH.
Qed.

(** An ACL applies to a path when some prefix has one. *)
Lemma acl_empty_aunion a b : acl_empty (aunion a b) = acl_empty a && acl_empty b.
Proof.
  assert (forall x, acl_empty x = true <-> acl_map x = ∅) as He.
  { intros [|[p l] x]; [done|]. split; [done|]. intros H. exfalso. revert H. unfold acl_map. cbn. by apply insert_non_empty. }
  apply eq_true_iff_eq. rewrite andb_true_iff, !He. unfold aunion. rewrite entries_of_map. split.
  - intros H. split; apply map_eq; intros p; apply (f_equal (lookup p)) in H; rewrite lookup_union_with, lookup_empty in H;
      rewrite lookup_empty; by destruct (acl_map a !! p), (acl_map b !! p).
  - intros [-> ->]. apply map_eq. intros p. by rewrite lookup_union_with.
Qed.

Lemma acl_empty_foldl b l : acl_empty (foldl aunion b l) = acl_empty b && forallb acl_empty l.
Proof. revert b. induction l as [|d l IH]; intros b; cbn [foldl forallb]; [by rewrite andb_true_r|]. by rewrite IH, acl_empty_aunion, andb_assoc. Qed.

Lemma eff_enabled_iff D ps : good_path ps -> eff_enabled (eff D ps) = false <-> forall q, q ∈ prefixes ps -> D q = [].
Proof.
  intros Hg. destruct ps as [|x ps _] using rev_ind; [by apply good_path_ne in Hg|]. unfold eff, inh. cbn [eff_enabled].
  rewrite removelast_prefixes, prefixes_snoc, acl_empty_foldl. cbn [acl_empty andb]. rewrite orb_false_iff, !negb_false_iff, forallb_forall.
  assert (forall d, acl_empty d = true <-> d = []) as He by (intros []; done). rewrite He. split.
  - intros [Hx Hps] q. rewrite elem_of_app, list_elem_of_singleton. intros [Hq| ->]; [|done]. apply He, Hps, list_elem_of_In, list_elem_of_fmap. eauto.
  - intros H. split; [apply H, elem_of_app; right; by left|]. intros d (q & -> & Hq)%list_elem_of_In%list_elem_of_fmap. apply He, H, elem_of_app. by left.
Qed.

Section represented.
Context {St : Type} `{!ContextStore St} `{!ContextStoreOk St} (fuel : nat) (s : St) (ctx : RequestContext) (D : list pystr -> DirectAcl).
Context (accounts : gset pystr).
Context (Hrep : Represents s (ctx_account_id ctx) D) (Hfuel : (length (cs_records s (ctx_account_id ctx)) < fuel)%nat).

(** With ACLs on, a resource is open to a plain caller exactly when no ACL lies on
    its path or one of them grants the action to one of the caller's principals; the
    answers of a batch are those of its members. *)
Theorem can_access_many_exact (pss : list (list pystr)) (action : AclAction) :
  is_enabled accounts (ctx_account_id ctx) = true -> ctx_role ctx <> ADMIN -> ctx_bypass_acl ctx = false -> Forall resource_path pss ->
  exists access, can_access_many unicode_alpha unicode_digit fuel (Some accounts) s (canon <$> pss) ctx action = Ok access
    /\ forall ps, ps ∈ pss -> exists b, dict_get access (canon ps) = Some b
       /\ (b = true <-> (forall q, q ∈ prefixes ps -> D q = [])
                        \/ exists q p, q ∈ prefixes ps /\ p ∈ acl_principals ctx /\ p ∈ principals_for (D q) action).
Proof.
  intros Hen Hadm Hby Hpss.
  assert (Forall good_path pss) as Hgood by (eapply Forall_impl; [exact Hpss|]; by intros ? [? _]).
  destruct (dedup_canon pss Hgood) as (qss & Hq & Hsub & Hgq).
  assert (Forall resource_path qss) as Hqss.
  { apply Forall_forall. intros q Hin. assert (canon q ∈ canon <$> pss) as (p & Hc & Hp)%list_elem_of_fmap.
    { apply unique_elem. unfold unique. rewrite Hq. apply list_elem_of_fmap. eauto. }
    rewrite Forall_forall in Hgood, Hgq, Hpss. apply canon_inj in Hc as ->; auto. }
  unfold can_access_many, unique. rewrite Hq, check_parts_safe.
  2:{ apply Forall_fmap. eapply Forall_impl; [exact Hqss|]. intros q Hp. exists q. by apply canon_safe. }
  cbn [mbind result_bind app]. unfold acl_enabled. rewrite Hen. cbn [negb]. rewrite settle_pending.
  2:{ apply Forall_fmap. eapply Forall_impl; [exact Hqss|]. intros q (Hg & _ & Hw). cbn. unfold settle_one, has_implicit_manage.
      rewrite Hw, Hby, (canon_acl q Hg). cbn. by rewrite (proj2 (seqb_false _ _) Hadm). }
  cbn [mbind result_bind app].
  destruct (resolve_many_ok fuel s ctx D Hrep Hfuel qss Hgq) as (effective & Heff & Hget).
  assert (exists effective, match canon <$> qss with [] => Ok [] | _ => resolve_many fuel s (canon <$> qss) ctx end = Ok effective
            /\ forall ps, ps ∈ qss -> dict_get effective (canon ps) = Some (eff D ps)) as (effective' & -> & Hget').
  { destruct qss as [|q qss]; [exists []; split; [done|]; by intros ? ?%elem_of_nil|]. by exists effective. }
  cbn [mbind result_bind]. pose proof (fun ps Hg => eff_allows D ps ctx action (rep_wf _ _ _ Hrep) Hg) as Hallow.
  rewrite Forall_forall in Hqss, Hgq.
  destruct (decide_pending_total (canon <$> qss) effective' ctx action []) as (access & Hacc).
  { apply Forall_fmap, Forall_forall. intros ps Hin. exists (eff D ps). destruct (Hallow ps (Hgq _ Hin)) as (b & Hb & _).
    destruct (negb _); eexists; (split; [by apply Hget'|]); [by apply resource_visible, Hqss|exact Hb]. }
  exists access. split; [done|]. intros ps Hin%Hsub. destruct (decide_pending_get _ _ _ _ _ _ Hacc (canon ps)) as [Hd _].
  destruct Hd as (acl & b & Ha & Hb & Hres); [apply list_elem_of_fmap; eauto|]. rewrite Hget' in Ha by done. injection Ha as <-.
  exists b. split; [done|]. destruct (Hallow ps (Hgq _ Hin)) as (b' & Hb' & Hspec).
  pose proof (eff_enabled_iff D ps (Hgq _ Hin)) as Hen'. destruct (eff_enabled (eff D ps)) eqn:Een; cbn [negb] in Hb.
  - rewrite Hb' in Hb. injection Hb as <-. rewrite Hspec. split; [by right|]. intros [Hno|?]; [|done]. by apply Hen' in Hno.
  - rewrite (resource_visible ps ctx (Hqss _ Hin)) in Hb. injection Hb as <-. split; [|done]. intros _. left. by apply Hen'.
Qed.
End represented.

(** ** Changing ACLs *)

(** Editing a dictionary of entries by principal. *)
Definition by_principal (d : list (pystr * AclEntry)) : Prop := NoDup (fst <$> d) /\ Forall (fun ke => ent_principal ke.2 = ke.1) d.

Lemma by_principal_keys d : by_principal d -> ent_principal <$> (snd <$> d) = fst <$> d.
Proof. intros [_ H]. rewrite <- list_fmap_compose. apply list_fmap_ext. intros i ke Hi. by apply (Forall_lookup_1 _ _ _ _ H Hi). Qed.

Lemma by_principal_map d p : by_principal d -> acl_map (snd <$> d) !! p = ent_level <$> dict_get d p.
Proof.
  intros [Hnd Hp]. induction Hp as [|[k e] d Hk Hp IH]; [done|]. apply NoDup_cons in Hnd as [_ Hnd]. cbn in Hk.
  change (acl_map (snd <$> (k, e) :: d)) with (<[ent_principal e := ent_level e]> (acl_map (snd <$> d))). rewrite Hk. cbn [dict_get].
  rewrite lookup_insert, IH by done. destruct (seqb k p) eqn:E; [apply seqb_true in E as ->; by rewrite decide_True|].
  apply seqb_false in E. by rewrite decide_False.
Qed.

Lemma dict_set_principal d e : by_principal d -> by_principal (dict_set d (ent_principal e) e).
Proof.
  intros [Hnd Hp]. split; [by apply dict_set_nodup|]. clear Hnd. induction Hp as [|[k e'] d Hk Hp IH]; cbn [dict_set]; [by repeat constructor|].
  destruct (seqb k _); by constructor.
Qed.

Lemma dict_pop_principal d p : by_principal d -> by_principal (dict_pop d p).
Proof.
  intros [Hnd Hp]. split; [by apply dict_pop_nodup|]. rewrite Forall_forall in *. intros x Hx%dict_pop_sub. by apply Hp.
Qed.

Lemma entries_dict direct : NoDup (ent_principal <$> direct) -> 
  foldl (fun d e => dict_set d (ent_principal e) e) [] direct = (fun e => (ent_principal e, e)) <$> direct.
Proof.
  induction direct as [|e direct IH] using rev_ind; intros Hnd; [done|]. rewrite fmap_app in Hnd. apply NoDup_app in Hnd as (Hnd & Hn & _).
  rewrite foldl_snoc, IH, fmap_app by done. cbn [fmap list_fmap].
  assert (ent_principal e ∉ (fst <$> ((fun e => (ent_principal e, e)) <$> direct))) as Hfresh.
  { rewrite <- list_fmap_compose. intros Hin. apply (Hn (ent_principal e)); [exact Hin|]. by left. }
  clear - Hfresh. induction direct as [|x direct IH]; [done|]. cbn [fmap list_fmap dict_set fst] in *. apply not_elem_of_cons in Hfresh as [Hne Hf].
  rewrite (proj2 (seqb_false _ _)) by done. cbn [app]. by rewrite IH.
Qed.

(** Normalising an edited ACL keeps the edit. *)
Lemma edit_entry_ok direct p level : wf_acl direct -> principal_ok p ->
  exists d, from_entries (REntry <$> edit_entry direct p level) = Ok d /\ acl_map d = partial_alter (fun _ => level) p (acl_map direct).
Proof.
  intros (Hnd & _ & Hok) Hp. unfold edit_entry. rewrite entries_dict by done. set (d0 := (fun e => (ent_principal e, e)) <$> direct).
  assert (snd <$> d0 = direct /\ fst <$> d0 = ent_principal <$> direct) as [Hs0 Hf0].
  { unfold d0. rewrite <- !list_fmap_compose. split; [apply list_fmap_id|done]. }
  assert (by_principal d0) as Hb0 by (split; [by rewrite Hf0|]; unfold d0; apply Forall_fmap, Forall_forall; done).
  set (d1 := match level with None => _ | Some l => _ end).
  assert (by_principal d1) as Hb1 by (unfold d1; destruct level; [by apply (dict_set_principal d0 (MkEntry p a))|by apply dict_pop_principal]).
  assert (forall q, q ∈ (fst <$> d1) -> q = p \/ q ∈ ent_principal <$> direct) as Hkeys.
  { intros q. unfold d1. rewrite <- Hf0. destruct level; [by rewrite dict_set_keys|]. intros (x & -> & Hx%dict_pop_sub)%list_elem_of_fmap. right. apply list_elem_of_fmap. eauto. }
  pose proof (by_principal_keys _ Hb1) as Hk1. destruct (normalize_loop_entries ∅ (snd <$> d1)) as (h & Hl & Hh).
  { rewrite Hk1. apply Hb1. }
  { rewrite Hk1. apply Forall_forall. intros q [->|Hq]%Hkeys; [done|]. rewrite Forall_forall in Hok. by apply Hok. }
  exists (entries_of h). split.
  - unfold from_entries, normalize_entries. specialize (Hl []). rewrite app_nil_r in Hl. by rewrite Hl.
  - rewrite entries_of_map. apply map_eq. intros q. rewrite Hh, lookup_empty, by_principal_map by done.
    assert (forall o : option AclLevel, olmax None o = o) as -> by by intros [].
    rewrite lookup_partial_alter, <- Hs0, by_principal_map by done. unfold d1. case_decide as E.
    + subst q. destruct level; [rewrite dict_set_get|rewrite dict_pop_get by apply Hb0]; by rewrite (proj2 (seqb_true p p) eq_refl).
    + destruct level; [rewrite dict_set_get|rewrite dict_pop_get by apply Hb0]; by rewrite (proj2 (seqb_false p q) E).
Qed.

Section edits.
Context (sha256_hex : bytes -> pystr).
Context {St : Type} `{!ContextStore St} `{!ContextStoreOk St} (fuel : nat) (s : St) (ctx : RequestContext) (D : list pystr -> DirectAcl).
Context (accounts : gset pystr).
Context (Hrep : Represents s (ctx_account_id ctx) D) (Hfuel : (length (cs_records s (ctx_account_id ctx)) < fuel)%nat).
Context {Locks : Type} (acquire : pystr -> ST Locks N) (release : N -> ST Locks unit) (stat : pystr -> result unit) (is_not_found_error : exn -> bool).

(** Who may change the ACL of a path. *)
Definition manages (ps : list pystr) : Prop :=
  ctx_role ctx = ADMIN \/ exists q p, q ∈ prefixes ps /\ p ∈ acl_principals ctx /\ p ∈ principals_for (D q) A_MANAGE.

Abbreviation can_manage := (ensure_acl_manage unicode_alpha fuel (Some accounts) s).

Lemma ensure_acl_manage_spec ps : resource_path ps ->
  (manages ps -> can_manage (canon ps) ctx = Ok tt) /\ (~ manages ps -> can_manage (canon ps) ctx = Err PermissionDeniedError).
Proof.
  intros Hp. pose proof Hp as (Hg & _). unfold ensure_acl_manage. rewrite bool_decide_eq_false_2 by done. rewrite (canon_safe _ Hp), (acl_ancestors_canon ps Hg).
  unfold has_implicit_manage. rewrite (canon_acl ps Hg). cbn [mbind result_bind andb].
  destruct (seqb (ctx_role ctx) ADMIN) eqn:Ea; [apply seqb_true in Ea; split; [done|]; intros Hn; destruct Hn; by left|].
  apply seqb_false in Ea. rewrite (resolve_canon fuel s ctx D Hrep Hfuel ps Hg). cbn [mbind result_bind].
  destruct (eff_allows D ps ctx A_MANAGE (rep_wf _ _ _ Hrep) Hg) as (b & Hb & Hspec). rewrite Hb.
  pose proof (eff_enabled_iff D ps Hg) as Hen. split.
  - intros [?|Hgr]; [done|]. assert (b = true) as -> by by apply Hspec. destruct (eff_enabled (eff D ps)) eqn:Een; [done|].
    destruct Hgr as (q & p & Hq & _ & Hin). rewrite (proj1 Hen eq_refl q Hq) in Hin. unfold principals_for in Hin. set_solver.
  - intros Hn. destruct b; [destruct Hn; right; by apply Hspec|]. by destruct (eff_enabled (eff D ps)).
Qed.

Lemma get_direct_canon ps : good_path ps -> get_direct fuel s (canon ps) ctx = Ok (D ps).
Proof.
  intros Hg. unfold get_direct. rewrite acl_ancestors_canon by done. cbn [mbind result_bind].
  destruct (records_for_uris_ok fuel s [canon ps] ctx Hfuel) as (rs & Hrs & Hin). rewrite Hrs. cbn [mbind result_bind].
  destruct rs as [|r rs].
  - cbn. rewrite (rep_none _ _ _ Hrep ps Hg); [done|]. intros r Hr Hu. apply (elem_of_nil r), Hin. split; [done|]. exists (canon ps). split; [left|by rewrite Hu].
  - rewrite (effective_from_records_agree (r :: rs) (eff D ps)); [done|done|]. intros x (Hx & uri & ->%list_elem_of_singleton & He)%Hin.
    rewrite (canon_parts_of ps Hg) in He. destruct (rep_canon _ _ _ Hrep x Hx) as [_ Heff]; [by rewrite He|]. by rewrite He in Heff.
Qed.

Abbreviation update_entry := (update_acl_entry unicode_alpha sha256_hex fuel (Some accounts) acquire release stat is_not_found_error).

Definition edit_level (level : option raw_level) : result (option AclLevel) :=
  match level with Some l => Some <$> normalize_acl_level l | None => Ok None end.

(** C26: Granting or revoking on an existing resource is a point update: for a caller who
    manages the path, [grant_acl] and [revoke_acl] (the two shapes of [level]) leave a
    collection that represents the old state with one principal of one path changed,
    report the new entries of the path, and leave the locks as the release of the subtree
    lock they took leaves them.  The path's segments have to fit the file system's limit
    on names (longer ones are locked under a shortened path), the locks to be granted and
    the collection to accept the records written. *)
Theorem update_entry_refines (ps : list pystr) (principal : pyval) (level : option raw_level) (p : pystr) (l : option AclLevel)
    (k k1 k2 : Locks) (lease : N) :
  resource_path ps -> ps <> [u "resources"] -> canon ps ∈ (r_uri <$> cs_records s (ctx_account_id ctx)) -> Forall short ps ->
  manages ps -> normalize_acl_principal principal = Ok p -> edit_level level = Ok l ->
  acquire (account_path ctx ps) k = (Ok lease, k1) -> release lease k1 = (Ok tt, k2) -> stat (account_path ctx ps) = Ok tt ->
  (forall rs, exists ids s', cs_upsert s (ctx_account_id ctx) rs = (Ok ids, s') /\ length ids = length rs) ->
  exists s' d report, update_entry (canon ps) principal level ctx (s, k) = (Ok report, (s', k2))
    /\ Represents s' (ctx_account_id ctx) (upd D ps d)
    /\ acl_map d = partial_alter (fun _ => l) p (acl_map (D ps)) /\ rep_direct report = d.
Proof.
  intros Hp Hnr Hex Hshort Hman Hnp Hnl Hacq Hrel Hstat Hup. pose proof Hp as (Hg & _).
  destruct (edit_entry_ok (D ps) p l (rep_wf _ _ _ Hrep ps)) as (d & Hd & Hmap); [by apply normalize_principal_fix in Hnp as [? _]|].
  destruct (set_direct_ok fuel s ctx D ps _ d Hrep Hfuel Hg Hnr Hex Hd Hup) as (s' & Hset & Hrep').
  pose proof (rep_wf _ _ _ Hrep') as Hwf.
  assert (to_report (canon ps) (eff (upd D ps d) ps) = Ok (MkReport (canon ps) (eff_enabled (eff (upd D ps d) ps)) (upd D ps d ps)
            (inh (upd D ps d) ps) (aunion (inh (upd D ps d) ps) (upd D ps d ps)))) as Hrp.
  { unfold to_report. rewrite permissions_ok by (cbn; auto using inh_wf). done. }
  assert (uri_to_path unicode_alpha sha256_hex (canon ps) ctx = Ok (account_path ctx ps)) as Hpath.
  { rewrite (to_path_short sha256_hex (canon ps) ctx ps) by (done || by apply canon_safe || by destruct Hg as [-> _]).
    by destruct (good_path_cons _ Hg) as (? & ->). }
  pose proof (proj1 (ensure_acl_manage_spec ps Hp) Hman) as Hm.
  assert (ensure_acl_target_exists unicode_alpha sha256_hex stat is_not_found_error (canon ps) ctx = Ok tt) as Hthere
    by (unfold ensure_acl_target_exists; rewrite Hpath; cbn [mbind result_bind]; by rewrite Hstat).
  exists s', d. eexists. split_and!; [|done|done|].
  - unfold update_acl_entry. fold (edit_level level). rewrite Hnp, Hnl, !st_bind_unfold. cbn [st_lift]. rewrite st_bind_unfold. cbn [st_lift].
    unfold edit_acl, asking, on_locks, on_collection. rewrite st_bind_unfold. cbn [fst snd]. rewrite Hm, st_bind_unfold, Hpath. cbn [st_lift].
    rewrite st_bind_unfold. cbn [fst snd]. rewrite Hacq. unfold st_finally. rewrite st_bind_unfold. cbn [fst snd]. rewrite Hm, st_bind_unfold, Hthere. cbn [st_lift].
    rewrite st_bind_unfold. cbn [fst snd]. rewrite (get_direct_canon ps Hg). cbn [mbind result_bind]. rewrite st_bind_unfold. cbn [fst snd].
    rewrite Hset, Hrp. cbn [st_lift fst snd]. by rewrite Hrel.
  - cbn [rep_direct]. unfold upd. by rewrite decide_True.
Qed.

(** Nobody else changes ACLs: a caller who does not manage the path gets
    [PermissionDeniedError] from every editing operation, before any lock is taken and
    with the collection untouched. *)
Theorem acl_edit_refused (ps : list pystr) (entries : list raw_entry) (principal : pyval) (level : option raw_level) (p : pystr) (l : option AclLevel) (k : Locks) :
  resource_path ps -> ~ manages ps -> normalize_acl_principal principal = Ok p -> edit_level level = Ok l ->
  set_acl unicode_alpha sha256_hex fuel (Some accounts) acquire release stat is_not_found_error (canon ps) entries ctx (s, k) = (Err PermissionDeniedError, (s, k))
  /\ delete_acl unicode_alpha sha256_hex fuel (Some accounts) acquire release stat is_not_found_error (canon ps) ctx (s, k) = (Err PermissionDeniedError, (s, k))
  /\ update_entry (canon ps) principal level ctx (s, k) = (Err PermissionDeniedError, (s, k))
  /\ get_acl unicode_alpha sha256_hex fuel (Some accounts) stat is_not_found_error s (canon ps) ctx = Err PermissionDeniedError.
Proof.
  intros Hp Hn Hnp Hnl. pose proof (proj2 (ensure_acl_manage_spec ps Hp) Hn) as Hm.
  unfold delete_acl, set_acl, update_acl_entry, edit_acl, get_acl, asking. fold (edit_level level). rewrite Hnp, Hnl, !st_bind_unfold. cbn [st_lift fst snd].
  rewrite !st_bind_unfold. cbn [st_lift fst snd]. rewrite !st_bind_unfold. cbn [fst snd]. by rewrite Hm.
Qed.
End edits.
End loops.
End access.

(** ** Concrete runs *)

Module FsRuns.
Import ListStore.
Definition ascii_only (c : N) : bool := false.
Definition zero_digest (b : bytes) : pystr := replicate 64 48.
Definition bob : RequestContext := MkCtx (MkUser (u "acme") (u "bob")) USER [] None false None false.
Definition acme : gset pystr := {[u "acme"]}.

Lemma zero_hex : hex_digest zero_digest.
Proof. intros b. split; [done|]. unfold zero_digest. by apply Forall_replicate. Qed.

Lemma acme_ok : seg_ok (ctx_account_id alice).
Proof. split; [by vm_compute|]. apply (bool_decide_unpack _). by vm_compute. Qed.

Lemma uri_to_path_confined_witness :
  exists qs, segs (u "/local/acme/resources/docs") = u "local" :: u "acme" :: qs /\ Forall component_ok qs.
Proof.
  apply (uri_to_path_confined ascii_only zero_digest zero_hex (u "viking://resources//docs/") alice); [apply acme_ok|by vm_compute].
Defined.

Lemma docs_short : Forall short docs.
Proof. repeat constructor; eexists; (split; [by vm_compute|]); vm_compute; lia. Qed.

Lemma path_uri_roundtrip_witness : exists p uri', uri_to_path ascii_only zero_digest (u "viking://resources//docs/") alice = Ok p
  /\ path_to_uri p alice = Ok uri' /\ safe_uri_parts ascii_only uri' = Ok docs.
Proof.
  apply (path_uri_roundtrip ascii_only zero_digest (u "viking://resources//docs/") alice docs); [apply acme_ok|by vm_compute|done|apply docs_short].
Defined.

Lemma fs_user_isolation_witness :
  ensure_access_many ascii_only ascii_only 3 (Some acme) None sample_store [canon docs; u "viking://user//carol/memories?v=1"] alice A_READ <> Ok tt.
Proof.
  apply (fs_user_isolation ascii_only ascii_only 3 (Some acme) None sample_store _ alice A_READ (u "viking://user//carol/memories?v=1") (u "carol") [u "memories?v=1"]);
    [done|right; left|by vm_compute|apply (bool_decide_unpack _); by vm_compute|done].
Defined.

Lemma roots_protected_witness :
  ensure_access_many ascii_only ascii_only 3 (Some acme) None sample_store [u "viking://user/alice/"] alice A_MANAGE <> Ok tt.
Proof.
  apply (roots_protected ascii_only ascii_only 3 (Some acme) None sample_store _ alice (u "viking://user/alice/") [u "user"; u "alice"]);
    [done|left|by vm_compute|do 4 right; eauto].
Defined.

Lemma docs_resource : resource_path ascii_only docs.
Proof. split_and!; [apply docs_good|repeat constructor; by vm_compute|by vm_compute]. Qed.

Lemma guide_resource : resource_path ascii_only guide.
Proof. split_and!; [apply guide_good|repeat constructor; by vm_compute|by vm_compute]. Qed.

Lemma can_access_many_exact_witness :
  exists access, can_access_many ascii_only ascii_only 3 (Some acme) sample_store [canon guide] alice A_WRITE = Ok access /\ is_Some (dict_get access (canon guide)).
Proof.
  destruct (can_access_many_exact ascii_only ascii_only 3 sample_store alice sample_D acme sample_rep ltac:(cbn; lia) [guide] A_WRITE) as (access & Ha & Hget);
    [by vm_compute|done|done|constructor; [apply guide_resource|constructor]|].
  exists access. split; [done|]. destruct (Hget guide) as (b & Hb & _); [left|]. by exists b.
Defined.

Lemma bob_manages : manages bob sample_D docs.
Proof.
  right. exists docs, (u "user:bob"). split_and!; [by right; left|by left|]. apply (bool_decide_unpack _). by vm_compute.
Qed.

(** Locks as the leases given out and not yet released. *)
Definition take_lock (path : pystr) : ST (list N) N := fun held => (Ok 7, 7 :: held).
Definition drop_lock (lease : N) : ST (list N) unit := fun held => (Ok tt, filter (fun x => x <> lease) held).

Lemma update_entry_refines_witness : exists s' d report,
  update_acl_entry ascii_only zero_digest 3 (Some acme) take_lock drop_lock (fun _ => Ok tt) (fun _ => false) (canon docs)
    (VStr (u " user:carol")) (Some (RawLevel READ)) bob (sample_store, []) = (Ok report, (s', []))
  /\ Represents s' (u "acme") (upd sample_D docs d)
  /\ acl_map d = partial_alter (fun _ => Some READ) (u "user:carol") (acl_map (sample_D docs)) /\ rep_direct report = d.
Proof.
  apply (update_entry_refines ascii_only zero_digest 3 sample_store bob sample_D acme sample_rep ltac:(cbn; lia)
           take_lock drop_lock (fun _ => Ok tt) (fun _ => false) docs _ _ (u "user:carol") (Some READ) [] [7] [] 7);
    [apply docs_resource|by vm_compute|left|apply docs_short|apply bob_manages|by vm_compute|done|done|done|done|].
  intros rs. eexists _, _. split; [done|]. apply length_fmap.
Defined.

Lemma alice_does_not_manage : ~ manages alice sample_D docs.
Proof.
  intros [?|H]; [done|]. destruct (eff_allows sample_D docs alice A_MANAGE (rep_wf _ _ _ sample_rep) docs_good) as (b & Hb & Hspec).
  apply Hspec in H as ->. by vm_compute in Hb.
Qed.

Lemma acl_edit_refused_witness :
  update_acl_entry ascii_only zero_digest 3 (Some acme) take_lock drop_lock (fun _ => Ok tt) (fun _ => false) (canon docs)
    (VStr (u "user:alice")) (Some (RawLevel MANAGE)) alice (sample_store, []) = (Err PermissionDeniedError, (sample_store, [])).
Proof.
  apply (acl_edit_refused ascii_only zero_digest 3 sample_store alice sample_D acme sample_rep ltac:(cbn; lia)
           take_lock drop_lock (fun _ => Ok tt) (fun _ => false) docs [] (VStr (u "user:alice")) (Some (RawLevel MANAGE)) (u "user:alice") (Some MANAGE));
    [apply docs_resource|apply alice_does_not_manage|by vm_compute|done].
Defined.
End FsRuns.
