(* ===== verification/Base64.v ===== *)
(** URL-safe base64 as [base64.urlsafe_b64encode] and [urlsafe_b64decode] compute it;
    the decoder is [binascii.a2b_base64] in its non-strict mode, which skips characters
    outside the alphabet and stops at the padding. *)
From Stdlib Require Import NArith.
From S2P Require Import Prelude PyStr PyBytes.

Open Scope N_scope.

Definition c_pad : N := 61.

(** The character of a six-bit group. *)
Definition b64_char (v : N) : N :=
  if v <? 26 then 65 + v else if v <? 52 then 71 + v else if v <? 62 then v - 4 else if v =? 62 then c_minus else c_under.

(** Its inverse; the decoder first maps [-] to [+] and [_] to [/], so it takes both. *)
Definition b64_value (c : N) : option N :=
  if (65 <=? c) && (c <=? 90) then Some (c - 65)
  else if (97 <=? c) && (c <=? 122) then Some (c - 71)
  else if (48 <=? c) && (c <=? 57) then Some (c + 4)
  else if (c =? c_minus) || (c =? 43) then Some 62
  else if (c =? c_under) || (c =? c_slash) then Some 63
  else None.

(** [urlsafe_b64encode] without its padding, and the padding. *)
Fixpoint b64_body (b : bytes) : bytes :=
  match b with
  | [] => []
  | [x] => [b64_char (x / 4); b64_char (x mod 4 * 16)]
  | [x; y] => [b64_char (x / 4); b64_char (x mod 4 * 16 + y / 16); b64_char (y mod 16 * 4)]
  | x :: y :: z :: r =>
      b64_char (x / 4) :: b64_char (x mod 4 * 16 + y / 16) :: b64_char (y mod 16 * 4 + z / 64) :: b64_char (z mod 64) :: b64_body r
  end.

Fixpoint b64_pads (b : bytes) : nat :=
  match b with [] => 0 | [_] => 2 | [_; _] => 1 | _ :: _ :: _ :: r => b64_pads r end.

Definition urlsafe_b64encode (b : bytes) : bytes := b64_body b ++ replicate (b64_pads b) c_pad.

(** [quad]: position in the group of four, [left]: the bits left over. *)
Fixpoint a2b (quad left pads : N) (s : bytes) : result bytes :=
  match s with
  | [] => if quad =? 0 then Ok [] else Err ValueError
  | c :: s =>
      if c =? c_pad then
        if (2 <=? quad) && (4 <=? quad + (pads + 1)) then Ok []
        else a2b quad left (if 2 <=? quad then pads + 1 else pads) s
      else match b64_value c with
           | None => a2b quad left pads s
           | Some v =>
               if quad =? 0 then a2b 1 v 0 s
               else if quad =? 1 then rest ← a2b 2 (v mod 16) 0 s; Ok (left * 4 + v / 16 :: rest)
               else if quad =? 2 then rest ← a2b 3 (v mod 4) 0 s; Ok (left * 16 + v / 4 :: rest)
               else rest ← a2b 0 0 0 s; Ok (left * 64 + v :: rest)
           end
  end.

Definition urlsafe_b64decode (s : bytes) : result bytes := a2b 0 0 0 s.

(** ** Lemmas *)

(** Induction in steps of three. *)
Lemma list_ind3 {A} (P : list A -> Prop) :
  P [] -> (forall x, P [x]) -> (forall x y, P [x; y]) -> (forall x y z l, P l -> P (x :: y :: z :: l)) -> forall l, P l.
Proof.
  intros H0 H1 H2 H3. fix IH 1. intros [|x [|y [|z l]]]; [done|apply H1|apply H2|apply H3, IH].
Qed.

(** Linear arithmetic with division by constants. *)
Ltac div_lia := zify; Z.to_euclidean_division_equations; lia.

Lemma b64_char_value v : v < 64 -> b64_value (b64_char v) = Some v /\ b64_char v <> c_pad.
Proof.
  intros H. unfold b64_value, b64_char, c_pad, c_minus, c_under, c_slash.
  destruct (N.ltb_spec v 26); [|destruct (N.ltb_spec v 52); [|destruct (N.ltb_spec v 62); [|destruct (N.eqb_spec v 62)]]];
    repeat (match goal with |- context [?a <=? ?b] => destruct (N.leb_spec a b); try lia | |- context [?a =? ?b] => destruct (N.eqb_spec a b); try lia end; cbn [andb orb]);
    (split; [f_equal|]; lia).
Qed.

Lemma a2b_char quad left pads v s : v < 64 ->
  a2b quad left pads (b64_char v :: s) =
    (if quad =? 0 then a2b 1 v 0 s
     else if quad =? 1 then rest ← a2b 2 (v mod 16) 0 s; Ok (left * 4 + v / 16 :: rest)
     else if quad =? 2 then rest ← a2b 3 (v mod 4) 0 s; Ok (left * 16 + v / 4 :: rest)
     else rest ← a2b 0 0 0 s; Ok (left * 64 + v :: rest)).
Proof.
  intros Hv. destruct (b64_char_value v Hv) as [Hval Hne]. cbn [a2b]. rewrite (proj2 (N.eqb_neq _ _) Hne), Hval. done.
Qed.

(** The six-bit groups of bytes. *)
Lemma sextets x y : x < 256 -> y < 256 ->
  x / 4 < 64 /\ x mod 4 * 16 < 64 /\ x mod 4 * 16 + y / 16 < 64 /\ y mod 16 * 4 < 64 /\ y mod 16 * 4 + x / 64 < 64 /\ x mod 64 < 64.
Proof. intros. div_lia. Qed.

(** Reassembling a byte from its groups. *)
Lemma unpack a b k : b < k -> (a * k + b) / k = a /\ (a * k + b) mod k = b.
Proof.
  intros Hb. split; [rewrite N.div_add_l, N.div_small by lia; lia|]. by rewrite N.add_comm, N.Div0.mod_add, N.mod_small.
Qed.

Lemma repack x k : k <> 0 -> x / k * k + x mod k = x.
Proof. intros Hk. pose proof (N.div_mod x k Hk). lia. Qed.

Lemma regroup x y : x < 256 -> y < 256 ->
  x / 4 * 4 + (x mod 4 * 16 + y / 16) / 16 = x /\ (x mod 4 * 16 + y / 16) mod 16 = y / 16
  /\ y / 16 * 16 + (y mod 16 * 4 + x / 64) / 4 = y /\ (y mod 16 * 4 + x / 64) mod 4 = x / 64 /\ x / 64 * 64 + x mod 64 = x.
Proof.
  intros Hx Hy. assert (y / 16 < 16) as H1 by (apply N.Div0.div_lt_upper_bound; lia).
  assert (x / 64 < 4) as H2 by (apply N.Div0.div_lt_upper_bound; lia).
  destruct (unpack (x mod 4) _ _ H1) as [-> ->], (unpack (y mod 16) _ _ H2) as [-> ->]. rewrite !repack by done. done.
Qed.

(** Decoding what was encoded. *)
Lemma b64_roundtrip b : Forall (fun c => c < 256) b -> urlsafe_b64decode (urlsafe_b64encode b) = Ok b.
Proof.
  unfold urlsafe_b64decode, urlsafe_b64encode. induction b as [|x|x y|x y z b IH] using list_ind3; intros Hb; [done|..];
    cbn [b64_body b64_pads app replicate]; repeat apply Forall_cons in Hb as [? Hb].
  - pose proof (sextets x 0 ltac:(done) ltac:(lia)). pose proof (regroup x 0 ltac:(done) ltac:(lia)) as (E & _). change (0 / 16) with 0 in E. rewrite N.add_0_r in E.
    do 2 (rewrite a2b_char by tauto; cbn [N.eqb Pos.eqb]). cbn. by rewrite E.
  - pose proof (sextets x y ltac:(done) ltac:(done)). pose proof (regroup x y ltac:(done) ltac:(done)) as (E1 & E2 & _).
    pose proof (regroup 0 y ltac:(lia) ltac:(done)) as (_ & _ & E3 & _). change (0 / 64) with 0 in E3. rewrite N.add_0_r in E3.
    do 3 (rewrite a2b_char by tauto; cbn [N.eqb Pos.eqb]). cbn. by rewrite E2, E1, E3.
  - pose proof (sextets x y ltac:(done) ltac:(done)). pose proof (sextets z y ltac:(done) ltac:(done)). pose proof (regroup x y ltac:(done) ltac:(done)) as (E1 & E2 & _).
    pose proof (regroup z y ltac:(done) ltac:(done)) as (_ & _ & E3 & E4 & E5).
    do 4 (rewrite a2b_char by tauto; cbn [N.eqb Pos.eqb]). rewrite IH by done. cbn [mbind result_bind]. by rewrite E2, E1, E3, E4, E5.
Qed.

(** The padding is the one the length calls for. *)
Lemma b64_pads_length b : b64_pads b = ((4 - length (b64_body b) mod 4) mod 4)%nat.
Proof.
  induction b as [|x|x y|x y z b IH] using list_ind3; [done..|]. cbn [b64_pads b64_body length]. rewrite IH.
  change (S (S (S (S ?n)))) with (4 + n)%nat. rewrite <- Nat.Div0.add_mod_idemp_l. done.
Qed.

(** The alphabet. *)
Definition url_char (c : N) : bool :=
  ((65 <=? c) && (c <=? 90)) || ((97 <=? c) && (c <=? 122)) || ((48 <=? c) && (c <=? 57)) || (c =? c_minus) || (c =? c_under).

Lemma b64_char_url v : v < 64 -> url_char (b64_char v) = true.
Proof.
  intros Hv. unfold url_char, b64_char, c_minus, c_under.
  destruct (N.ltb_spec v 26); [|destruct (N.ltb_spec v 52); [|destruct (N.ltb_spec v 62); [|destruct (N.eqb_spec v 62); [done|done]]]]; lia.
Qed.

Lemma b64_body_chars b : Forall (fun c => c < 256) b -> Forall (fun c => url_char c = true) (b64_body b).
Proof.
  induction b as [|x|x y|x y z b IH] using list_ind3; intros Hb; cbn [b64_body]; repeat apply Forall_cons in Hb as [? Hb]; repeat apply Forall_cons_2;
    first [by apply IH | apply Forall_nil_2 | apply b64_char_url; div_lia].
Qed.

Lemma url_char_facts c : url_char c = true -> c < 128 /\ c <> c_pad /\ c <> c_dot /\ c <> 36.
Proof. unfold url_char, c_minus, c_under, c_pad, c_dot. rewrite !orb_true_iff, !andb_true_iff, !N.leb_le, !N.eqb_eq. lia. Qed.
