(* ===== verification/ApiKeys.v ===== *)
(** API keys: [openviking/server/api_keys/models.py], [legacy.py] and [new.py].

    The key store's files, their locks, Argon2, SHA-256, the clock and the random
    generator are arguments; the values drawn by an operation are its arguments. *)
From Stdlib Require Import NArith ZArith.
From S2P Require Import Prelude PyStr PyVal PyBytes Identifiers Base64.

Open Scope N_scope.

(** ** models.py *)

(** [{"task_id": ..., "owner_account_id": ..., "owner_user_id": ...}]. *)
Record deletion := MkDeletion { del_task_id : pystr; del_owner_account_id : pystr; del_owner_user_id : pystr }.

(** A user's dict; a missing ["key"] or ["key_prefix"] reads as the empty string
    everywhere. *)
Record user_info := MkInfo { ui_role : option pystr; ui_key : pystr; ui_key_prefix : pystr; ui_deletion : option deletion }.

#[export] Instance deletion_eq_dec : EqDecision deletion.
Proof. solve_decision. Defined.
#[export] Instance user_info_eq_dec : EqDecision user_info.
Proof. solve_decision. Defined.

Abbreviation users := (list (pystr * user_info)).
(** Groups as the dict from ids to ["members"]. *)
Abbreviation groups := (list (pystr * list pystr)).

Record AccountInfo := MkAccount { ac_created_at : pystr; ac_users : users; ac_groups : groups }.
Record UserKeyEntry := MkKeyEntry { ke_account_id : pystr; ke_user_id : pystr; ke_role : Role; ke_key_or_hash : pystr; ke_is_hashed : bool }.

#[export] Instance UserKeyEntry_eq_dec : EqDecision UserKeyEntry.
Proof. solve_decision. Defined.

Definition validate_account_user_role (role : pystr) : result Role :=
  if seqb role ROOT then Err PermissionDeniedError
  else if mem role [USER; ADMIN] then Ok role else Err InvalidArgumentError.

Record ResolvedIdentity := MkIdentity { id_role : Role; id_account_id : option pystr; id_user_id : option pystr }.

#[export] Instance ResolvedIdentity_eq_dec : EqDecision ResolvedIdentity.
Proof. solve_decision. Defined.

(** ** In-memory state *)

Record ring := MkRing {
  accounts : list (pystr * AccountInfo);
  prefix_index : gmap pystr (list UserKeyEntry);
  user_group_ids : gmap (pystr * pystr) (list pystr) }.

Definition get_key_prefix (api_key : pystr) : pystr := take 8 api_key.

(** [user_info.get("key_prefix", "")], else the prefix of the stored key. *)
Definition info_prefix (info : user_info) : pystr :=
  if nonempty (ui_key_prefix info) then ui_key_prefix info else get_key_prefix (ui_key info).

Definition info_role (info : user_info) : Role := default USER (ui_role info).
Definition is_argon2 (key : pystr) : bool := startswith (u "$argon2") key.

Definition index_add (pfx : pystr) (entry : UserKeyEntry) (index : gmap pystr (list UserKeyEntry)) : gmap pystr (list UserKeyEntry) :=
  if nonempty pfx then <[pfx := default [] (index !! pfx) ++ [entry]]> index else index.

Definition owned_by (account_id user_id : pystr) (entry : UserKeyEntry) : bool :=
  seqb (ke_account_id entry) account_id && seqb (ke_user_id entry) user_id.

(** The bucket without the user's entries; an empty bucket goes. *)
Definition index_drop (pfx account_id user_id : pystr) (index : gmap pystr (list UserKeyEntry)) : gmap pystr (list UserKeyEntry) :=
  match index !! pfx with
  | None => index
  | Some bucket =>
      match filter (fun e => owned_by account_id user_id e = false) bucket with
      | [] => delete pfx index
      | rest => <[pfx := rest]> index
      end
  end.

Definition remove_key_index_entry (account_id user_id : pystr) (info : user_info) (index : gmap pystr (list UserKeyEntry)) : gmap pystr (list UserKeyEntry) :=
  if nonempty (ui_key info) then index_drop (info_prefix info) account_id user_id index else index.

(** ** Groups *)

(** [_group_memberships]. *)
Definition group_memberships (us : users) (gs : groups) : list (pystr * list pystr) :=
  let by_user :=
    foldl (fun acc '(group_id, members) =>
      foldl (fun acc user_id =>
        if bool_decide (is_Some (dict_get us user_id)) then dict_set acc user_id (default [] (dict_get acc user_id) ++ [group_id]) else acc) acc members)
      [] gs in
  (fun '(user_id, ids) => (user_id, sorted_strs (remove_dups ids))) <$> by_user.

Definition discard_account_group_index (account_id : pystr) (index : gmap (pystr * pystr) (list pystr)) : gmap (pystr * pystr) (list pystr) :=
  filter (fun kv => kv.1.1 <> account_id) index.

Definition add_memberships (account_id : pystr) (ms : list (pystr * list pystr)) (index : gmap (pystr * pystr) (list pystr)) : gmap (pystr * pystr) (list pystr) :=
  foldl (fun index '(user_id, ids) => <[(account_id, user_id) := ids]> index) index ms.

Definition rebuild_account_group_index (account_id : pystr) (r : ring) : ring :=
  let index := discard_account_group_index account_id (user_group_ids r) in
  MkRing (accounts r) (prefix_index r)
    match dict_get (accounts r) account_id with
    | None => index
    | Some account => add_memberships account_id (group_memberships (ac_users account) (ac_groups account)) index
    end.

Definition discard_account_state (account_id : pystr) (r : ring) : ring :=
  let group_index := discard_account_group_index account_id (user_group_ids r) in
  match dict_get (accounts r) account_id with
  | None => MkRing (accounts r) (prefix_index r) group_index
  | Some account =>
      MkRing (dict_pop (accounts r) account_id)
        (foldl (fun index '(user_id, info) => remove_key_index_entry account_id user_id info index) (prefix_index r) (ac_users account))
        group_index
  end.

(** Writes to one account. *)
Definition set_account (account_id : pystr) (account : AccountInfo) (r : ring) : ring :=
  MkRing (dict_set (accounts r) account_id account) (prefix_index r) (user_group_ids r).
Definition with_users (us : users) (account : AccountInfo) : AccountInfo := MkAccount (ac_created_at account) us (ac_groups account).
Definition with_groups (gs : groups) (account : AccountInfo) : AccountInfo := MkAccount (ac_created_at account) (ac_users account) gs.
Definition set_index (f : gmap pystr (list UserKeyEntry) -> gmap pystr (list UserKeyEntry)) (r : ring) : ring :=
  MkRing (accounts r) (f (prefix_index r)) (user_group_ids r).

(** [account.users.get(user_id)] of [self._accounts.get(account_id)]. *)
Definition get_user (r : ring) (account_id user_id : pystr) : option user_info :=
  account ← dict_get (accounts r) account_id; dict_get (ac_users account) user_id.

(** ** Reading *)

Definition get_user_deletion (r : ring) (account_id user_id : pystr) : option deletion :=
  info ← get_user r account_id user_id; ui_deletion info.
Definition is_user_deleting (r : ring) (account_id user_id : pystr) : bool := bool_decide (is_Some (get_user_deletion r account_id user_id)).
Definition iter_user_deletions (r : ring) : list (pystr * pystr * deletion) :=
  accounts r ≫= fun '(account_id, account) =>
    omap (fun '(user_id, info) =>
      match ui_deletion info with Some d => if nonempty (del_task_id d) then Some (account_id, user_id, d) else None | None => None end)
    (ac_users account).
Definition has_user (r : ring) (account_id user_id : pystr) : bool := bool_decide (is_Some (get_user r account_id user_id)).
Definition get_user_role (r : ring) (account_id user_id : pystr) : Role :=
  match get_user r account_id user_id with Some info => info_role info | None => USER end.
Definition get_user_group_ids (r : ring) (account_id user_id : pystr) : list pystr := default [] (user_group_ids r !! (account_id, user_id)).

Definition require_account (r : ring) (account_id : pystr) : result AccountInfo :=
  match dict_get (accounts r) account_id with Some account => Ok account | None => Err NotFoundError end.
Definition require_group (r : ring) (account_id group_id : pystr) : result (list pystr) :=
  account ← require_account r account_id;
  match dict_get (ac_groups account) group_id with Some members => Ok members | None => Err NotFoundError end.

(** [{"group_id": ..., "member_count": ...}]. *)
Definition group_result (group_id : pystr) (members : list pystr) : pystr * nat := (group_id, length (remove_dups members)).
Definition get_group_members (r : ring) (account_id group_id : pystr) : result (list pystr) :=
  members ← require_group r account_id group_id; Ok (sorted_strs (remove_dups members)).

(** ** Key text *)

(** [hmac.compare_digest] on strings raises for text outside ASCII. *)
Definition is_ascii (s : pystr) : bool := forallb (fun c => c <? 128) s.
Definition compare_digest (a b : pystr) : result bool := if is_ascii a && is_ascii b then Ok (seqb a b) else Err TypeError.

Definition is_pad (c : N) : bool := c =? c_pad.

Definition encode_segment (data : pystr) : result pystr :=
  b ← utf8_encode data; s ← utf8_decode (urlsafe_b64encode b); Ok (rstrip is_pad s).

Definition decode_segment (encoded : pystr) : result pystr :=
  let padding_needed := (4 - length encoded mod 4)%nat in
  let encoded := if (padding_needed =? 4)%nat then encoded else encoded ++ replicate padding_needed c_pad in
  b ← utf8_encode encoded; decoded ← urlsafe_b64decode b; utf8_decode decoded.

Definition is_new_format_key (api_key : pystr) : bool := nonempty api_key && (length (split c_dot api_key) =? 3)%nat.

Definition parse_api_key (api_key : pystr) : result (pystr * pystr * pystr) :=
  if negb (is_new_format_key api_key) then Err ValueError
  else match split c_dot api_key with
       | [a; b; c] => account_id ← decode_segment a; user_id ← decode_segment b; secret ← decode_segment c; Ok (account_id, user_id, secret)
       | _ => Err ValueError
       end.

(** What the managers take from outside: SHA-256, Argon2 and the configuration. *)
Record env := MkEnv {
  sha256_hex : bytes -> pystr;
  argon2_hash : pystr -> pystr -> pystr;   (* salt, key *)
  argon2_verify : pystr -> pystr -> result bool;   (* hash, key; a mismatch is [Ok false] *)
  root_key : pystr;
  api_key_hashing_enabled : bool }.

(** The draws of one operation. *)
Record draws := MkDraws { token_hex : pystr; salt : pystr }.

Section managers.
Context (E : env).

Definition derive_seeded_api_key_secret (user_id seed : pystr) : result pystr :=
  if negb (nonempty seed) then Err InvalidArgumentError
  else b ← utf8_encode (user_id ++ 0 :: seed); Ok (sha256_hex E b).

(** [derive_seeded_api_key_secret(...) if seed is not None else token_hex(32)]. *)
Definition draw_secret (d : draws) (user_id : pystr) (seed : option pystr) : result pystr :=
  match seed with Some seed => derive_seeded_api_key_secret user_id seed | None => Ok (token_hex d) end.

Definition generate_api_key (d : draws) (account_id user_id : pystr) (seed : option pystr) : result pystr :=
  account_segment ← encode_segment account_id;
  user_segment ← encode_segment user_id;
  secret ← draw_secret d user_id seed;
  secret_segment ← encode_segment secret;
  Ok (account_segment ++ c_dot :: user_segment ++ c_dot :: secret_segment).

(** ** Resolution *)

Definition verify_entry (api_key : pystr) (entry : UserKeyEntry) : result bool :=
  if ke_is_hashed entry then argon2_verify E (ke_key_or_hash entry) api_key else compare_digest api_key (ke_key_or_hash entry).

Fixpoint first_match (api_key : pystr) (candidates : list UserKeyEntry) : result ResolvedIdentity :=
  match candidates with
  | [] => Err UnauthenticatedError
  | entry :: candidates =>
      ok ← verify_entry api_key entry;
      if ok : bool then Ok (MkIdentity (ke_role entry) (Some (ke_account_id entry)) (Some (ke_user_id entry)))
      else first_match api_key candidates
  end.

Definition legacy_resolve (r : ring) (api_key : pystr) : result ResolvedIdentity :=
  if negb (nonempty api_key) then Err UnauthenticatedError
  else
    is_root ← compare_digest api_key (root_key E);
    if is_root : bool then Ok (MkIdentity ROOT None None)
    else first_match api_key (default [] (prefix_index r !! get_key_prefix api_key)).

(** The fast path: [None] falls through; so does every [Exception]. *)
Definition resolve_by_identity (r : ring) (api_key : pystr) : result (option ResolvedIdentity) :=
  '(account_id, user_id, _) ← parse_api_key api_key;
  match get_user r account_id user_id with
  | None => Ok None
  | Some info =>
      if negb (nonempty (ui_key info)) then Ok None
      else
        ok ← (if is_argon2 (ui_key_prefix info) || is_argon2 (ui_key info) then argon2_verify E (ui_key info) api_key
              else compare_digest api_key (ui_key info));
        Ok (if ok : bool then Some (MkIdentity (info_role info) (Some account_id) (Some user_id)) else None)
  end.

Definition resolve (r : ring) (api_key : pystr) : result ResolvedIdentity :=
  if negb (nonempty api_key) then Err UnauthenticatedError
  else
    is_root ← compare_digest api_key (root_key E);
    if is_root : bool then Ok (MkIdentity ROOT None None)
    else if is_new_format_key api_key then
      match resolve_by_identity r api_key with
      | Ok (Some identity) => Ok identity
      | Ok None => legacy_resolve r api_key
      | Err e => if is_exception e then legacy_resolve r api_key else Err e
      end
    else legacy_resolve r api_key.

Definition get_user_key_fingerprint (r : ring) (account_id user_id : pystr) : result (option pystr) :=
  match get_user r account_id user_id with
  | None => Ok None
  | Some info => if nonempty (ui_key info) then b ← utf8_encode (ui_key info); Ok (Some (sha256_hex E b)) else Ok None
  end.

(** ** Files *)

(** The stored key, and the dict of a user who gets [key]. *)
Definition stored (d : draws) (key : pystr) : pystr := if api_key_hashing_enabled E then argon2_hash E (salt d) key else key.
Definition key_info (d : draws) (role : option pystr) (key : pystr) : user_info :=
  MkInfo role (stored d key) (if api_key_hashing_enabled E then get_key_prefix key else []) None.
Definition key_entry (d : draws) (account_id user_id : pystr) (role : Role) (key : pystr) : UserKeyEntry :=
  MkKeyEntry account_id user_id role (stored d key) (api_key_hashing_enabled E).
End managers.

(** The JSON files of the store under their paths, as [_read_json] and [_write_json] read
    and write them, and their path locks. *)
Class KeyFiles (St : Type) := {
  kf_read_accounts : St -> result (option (list (pystr * pystr)));
  kf_read_users : pystr -> St -> result (option users);
  kf_read_groups : pystr -> St -> result (option groups);
  kf_write_accounts : list (pystr * pystr) -> ST St unit;
  kf_write_users : pystr -> users -> ST St unit;
  kf_write_groups : pystr -> groups -> ST St unit;
  kf_acquire : pystr -> ST St N;
  kf_release : N -> ST St unit }.

Definition ACCOUNTS_PATH : pystr := u "/local/_system/accounts.json".
Definition users_path (account_id : pystr) : pystr := u "/local/" ++ account_id ++ u "/_system/users.json".

Record manager (St : Type) := MkManager { mg_ring : ring; mg_store : St }.
Arguments MkManager {St} _ _.
Arguments mg_ring {St} _.
Arguments mg_store {St} _.

Section operations.
Context {St : Type} `{!KeyFiles St} (E : env).

Definition on_store {A} (op : ST St A) : ST (manager St) A := fun m =>
  let '(r, s) := op (mg_store m) in (r, MkManager (mg_ring m) s).
Definition on_ring (f : ring -> ring) : ST (manager St) unit := st_modify (fun m => MkManager (f (mg_ring m)) (mg_store m)).

(** Lock, body, and release on every way out. *)
Definition with_exact_lock (path : pystr) (body : ST St unit) : ST St unit := fun s =>
  match kf_acquire path s with
  | (Err LockAcquisitionError, s) => (Err ResourceBusyError, s)
  | (Err e, s) => (Err e, s)
  | (Ok lease, s) =>
      let '(r, s) := body s in
      let '(released, s) := kf_release lease s in
      (match released with Ok _ => r | Err e => Err e end, s)
  end.

Definition save_accounts_json : ST (manager St) unit := fun m =>
  on_store (with_exact_lock ACCOUNTS_PATH
    (kf_write_accounts ((fun '(account_id, account) => (account_id, ac_created_at account)) <$> accounts (mg_ring m)))) m.

Definition save_users_json_for (account_id : pystr) (accounts : list (pystr * AccountInfo)) : ST St unit :=
  with_exact_lock (users_path account_id)
    match dict_get accounts account_id with
    | None => mret tt
    | Some account => kf_write_users account_id (ac_users account)
    end.

Definition save_users_json (account_id : pystr) : ST (manager St) unit := fun m =>
  on_store (save_users_json_for account_id (accounts (mg_ring m))) m.

(** [try: body except Exception: handler; raise]. *)
Definition except_reraise {A} (body : ST (manager St) A) (handler : ST (manager St) unit) : ST (manager St) A := fun m =>
  match body m with
  | (Err e, m) => if is_exception e then match handler m with (Ok _, m) => (Err e, m) | (Err e', m) => (Err e', m) end else (Err e, m)
  | r => r
  end.

(** [try: body except Exception: log]. *)
Definition except_log (body : ST (manager St) unit) : ST (manager St) unit := fun m =>
  match body m with (Err e, m) => if is_exception e then (Ok tt, m) else (Err e, m) | r => r end.

Definition rollback_create_account (account_id : pystr) : ST (manager St) unit :=
  _ ← on_ring (discard_account_state account_id); except_log save_accounts_json.

(** ** Accounts and users *)

Definition check_id (error : option pystr) : ST (manager St) unit :=
  match error with Some _ => st_raise InvalidArgumentError | None => mret tt end.

(** The tail shared by both managers' [create_account]: state, files, rollback. *)
Definition install_account (d : draws) (now account_id admin_user_id key : pystr) : ST (manager St) pystr :=
  _ ← on_ring (set_account account_id (MkAccount now [(admin_user_id, key_info E d (Some ADMIN) key)] []));
  _ ← on_ring (set_index (index_add (get_key_prefix key) (key_entry E d account_id admin_user_id ADMIN key)));
  _ ← except_reraise (_ ← save_accounts_json; _ ← save_users_json account_id; on_store (kf_write_groups account_id [])) (rollback_create_account account_id);
  mret key.

Definition account_absent (account_id : pystr) : ST (manager St) unit := fun m =>
  match dict_get (accounts (mg_ring m)) account_id with Some _ => (Err AlreadyExistsError, m) | None => (Ok tt, m) end.

Definition legacy_create_account (d : draws) (now account_id admin_user_id : pystr) (seed : option pystr) : ST (manager St) pystr :=
  _ ← check_id (validate_account_id account_id);
  _ ← check_id (validate_user_id admin_user_id);
  _ ← account_absent account_id;
  key ← st_lift (draw_secret E d admin_user_id seed);
  install_account d now account_id admin_user_id key.

Definition create_account (d : draws) (now account_id admin_user_id : pystr) (seed : option pystr) : ST (manager St) pystr :=
  _ ← check_id (validate_account_id account_id);
  _ ← check_id (validate_user_id admin_user_id);
  key ← st_lift (generate_api_key E d account_id admin_user_id seed);
  _ ← account_absent account_id;
  install_account d now account_id admin_user_id key.

Definition delete_account (account_id : pystr) : ST (manager St) unit :=
  _ ← (fun m => (_ ← require_account (mg_ring m) account_id; Ok tt, m));
  _ ← on_ring (discard_account_state account_id);
  save_accounts_json.

(** The checks and the tail of both managers' [register_user]. *)
Definition user_absent (account_id user_id : pystr) : ST (manager St) AccountInfo := fun m =>
  match require_account (mg_ring m) account_id with
  | Err e => (Err e, m)
  | Ok account => (match dict_get (ac_users account) user_id with Some _ => Err AlreadyExistsError | None => Ok account end, m)
  end.

Definition install_user (d : draws) (account : AccountInfo) (account_id user_id : pystr) (role : Role) (key : pystr) : ST (manager St) pystr :=
  _ ← on_ring (set_account account_id (with_users (dict_set (ac_users account) user_id (key_info E d (Some role) key)) account));
  _ ← on_ring (set_index (index_add (get_key_prefix key) (key_entry E d account_id user_id role key)));
  _ ← save_users_json account_id;
  mret key.

Definition register_with (generate : result pystr) (d : draws) (account_id user_id role : pystr) : ST (manager St) pystr :=
  resolved_role ← st_lift (validate_account_user_role role);
  _ ← check_id (validate_user_id user_id);
  account ← user_absent account_id user_id;
  key ← st_lift generate;
  install_user d account account_id user_id resolved_role key.

Definition legacy_register_user (d : draws) (account_id user_id role : pystr) (seed : option pystr) : ST (manager St) pystr :=
  register_with (draw_secret E d user_id seed) d account_id user_id role.

Definition register_user (d : draws) (account_id user_id role : pystr) (seed : option pystr) : ST (manager St) pystr :=
  register_with (generate_api_key E d account_id user_id seed) d account_id user_id role.

(** The account and the user's dict, or [NotFoundError]. *)
Definition require_user (account_id user_id : pystr) : ST (manager St) (AccountInfo * user_info) := fun m =>
  match require_account (mg_ring m) account_id with
  | Err e => (Err e, m)
  | Ok account => (match dict_get (ac_users account) user_id with Some info => Ok (account, info) | None => Err NotFoundError end, m)
  end.

Definition write_user (account_id : pystr) (account : AccountInfo) (user_id : pystr) (info : user_info) : ST (manager St) unit :=
  on_ring (set_account account_id (with_users (dict_set (ac_users account) user_id info) account)).

(** The old key leaves the index before the new one is drawn. *)
Definition regenerate_with (generate : result pystr) (d : draws) (account_id user_id : pystr) : ST (manager St) pystr :=
  '(account, info) ← require_user account_id user_id;
  if bool_decide (is_Some (ui_deletion info)) then st_raise FailedPreconditionError
  else
    _ ← on_ring (set_index (index_drop (info_prefix info) account_id user_id));
    new_key ← st_lift generate;
    _ ← write_user account_id account user_id (key_info E d (ui_role info) new_key);
    role ← st_lift (match ui_role info with Some role => Ok role | None => Err KeyError end);
    _ ← on_ring (set_index (index_add (get_key_prefix new_key) (key_entry E d account_id user_id role new_key)));
    _ ← save_users_json account_id;
    mret new_key.

Definition legacy_regenerate_key (d : draws) (account_id user_id : pystr) (seed : option pystr) : ST (manager St) pystr :=
  regenerate_with (draw_secret E d user_id seed) d account_id user_id.

Definition regenerate_key (d : draws) (account_id user_id : pystr) (seed : option pystr) : ST (manager St) pystr :=
  regenerate_with (generate_api_key E d account_id user_id seed) d account_id user_id.

(** [entry.role = resolved_role] for the user's first entry of the bucket. *)
Fixpoint update_first_role (account_id user_id : pystr) (role : Role) (bucket : list UserKeyEntry) : list UserKeyEntry :=
  match bucket with
  | [] => []
  | e :: bucket =>
      if owned_by account_id user_id e then MkKeyEntry (ke_account_id e) (ke_user_id e) role (ke_key_or_hash e) (ke_is_hashed e) :: bucket
      else e :: update_first_role account_id user_id role bucket
  end.

Definition set_role (account_id user_id role : pystr) : ST (manager St) unit :=
  resolved_role ← st_lift (validate_account_user_role role);
  '(account, info) ← require_user account_id user_id;
  if bool_decide (is_Some (ui_deletion info)) then st_raise FailedPreconditionError
  else
    _ ← write_user account_id account user_id (MkInfo (Some resolved_role) (ui_key info) (ui_key_prefix info) None);
    _ ← on_ring (set_index (fun index =>
          if nonempty (ui_key info) then
            match index !! info_prefix info with
            | Some bucket => <[info_prefix info := update_first_role account_id user_id resolved_role bucket]> index
            | None => index
            end
          else index));
    save_users_json account_id.

(** ** Deleting users *)

Definition is_admin (info : user_info) : bool := bool_decide (ui_role info = Some ADMIN).
Definition active_admins (us : users) : nat :=
  length (filter (fun kv => is_admin kv.2 = true /\ ui_deletion kv.2 = None) us).

(** [isinstance(existing, dict) and existing.get("task_id")]. *)
Definition fenced (info : user_info) : option deletion :=
  match ui_deletion info with Some d => if nonempty (del_task_id d) then Some d else None | None => None end.

Definition begin_user_deletion (account_id user_id : pystr) (del : deletion) : ST (manager St) (deletion * bool) :=
  '(account, info) ← require_user account_id user_id;
  match fenced info with
  | Some existing => mret (existing, false)
  | None =>
      if is_admin info && (active_admins (ac_users account) <=? 1)%nat then st_raise FailedPreconditionError
      else
        _ ← write_user account_id account user_id (MkInfo (ui_role info) [] [] (Some del));
        _ ← except_reraise (save_users_json account_id) (write_user account_id account user_id info);
        _ ← on_ring (set_index (remove_key_index_entry account_id user_id info));
        mret (del, true)
  end.

Definition replace_user_deletion_task (account_id user_id expected_task_id : pystr) (del : deletion) : ST (manager St) (option deletion) :=
  '(account, info) ← require_user account_id user_id;
  match ui_deletion info with
  | Some current =>
      if negb (seqb (del_task_id current) expected_task_id) then mret (Some current)
      else
        let fence d := write_user account_id account user_id (MkInfo (ui_role info) (ui_key info) (ui_key_prefix info) (Some d)) in
        _ ← fence del;
        _ ← except_reraise (save_users_json account_id) (fence current);
        mret (Some del)
  | None => mret None
  end.

(** The groups without the user; a group that does not hold the user is kept as it is. *)
Definition leave_groups (user_id : pystr) (gs : groups) : groups :=
  (fun '(group_id, members) => (group_id, if mem user_id members then filter (fun m => m <> user_id) members else members)) <$> gs.

Definition finish_user_deletion (account_id user_id task_id : pystr) : ST (manager St) bool := fun m =>
  match dict_get (accounts (mg_ring m)) account_id with
  | None => (Ok false, m)
  | Some account =>
      match dict_get (ac_users account) user_id with
      | None => (Ok false, m)
      | Some info =>
          if negb (bool_decide (del_task_id <$> ui_deletion info = Some task_id)) then (Ok false, m)
          else
            let gs := leave_groups user_id (ac_groups account) in
            let removed := with_users (dict_pop (ac_users account) user_id) account in
            (_ ← on_ring (set_account account_id removed);
             _ ← except_reraise
                   (_ ← save_users_json account_id;
                    if bool_decide (gs = ac_groups account) then mret tt else on_store (kf_write_groups account_id gs))
                   (on_ring (fun r => rebuild_account_group_index account_id
                      (set_account account_id (with_users (dict_set (ac_users removed) user_id info) removed) r)));
             _ ← (if bool_decide (gs = ac_groups account) then mret tt
                  else on_ring (fun r => rebuild_account_group_index account_id (set_account account_id (with_groups gs removed) r)));
             mret true) m
      end
  end.

(** ** Groups *)

Definition replace_groups (account_id : pystr) (account : AccountInfo) (gs : groups) : ST (manager St) unit :=
  _ ← on_store (kf_write_groups account_id gs);
  on_ring (fun r => rebuild_account_group_index account_id (set_account account_id (with_groups gs account) r)).

Definition account_of (account_id : pystr) : ST (manager St) AccountInfo := fun m => (require_account (mg_ring m) account_id, m).
Definition group_of (account_id group_id : pystr) : ST (manager St) (list pystr) := fun m => (require_group (mg_ring m) account_id group_id, m).

Definition create_group (account_id group_id : pystr) : ST (manager St) (pystr * nat) :=
  _ ← check_id (validate_identifier_part group_id (u "group_id"));
  account ← account_of account_id;
  match dict_get (ac_groups account) group_id with
  | Some _ => st_raise AlreadyExistsError
  | None => _ ← replace_groups account_id account (dict_set (ac_groups account) group_id []); mret (group_result group_id [])
  end.

Definition add_group_member (account_id group_id user_id : pystr) : ST (manager St) bool :=
  account ← account_of account_id;
  match dict_get (ac_users account) user_id with
  | None => st_raise NotFoundError
  | Some _ =>
      members ← group_of account_id group_id;
      if mem user_id members then mret true
      else _ ← replace_groups account_id account (dict_set (ac_groups account) group_id (sorted_strs (members ++ [user_id]))); mret true
  end.

Definition remove_group_member (account_id group_id user_id : pystr) : ST (manager St) bool :=
  account ← account_of account_id;
  members ← group_of account_id group_id;
  if negb (mem user_id members) then mret false
  else _ ← replace_groups account_id account (dict_set (ac_groups account) group_id (filter (fun m => m <> user_id) members)); mret true.

Definition delete_group (account_id group_id : pystr) : ST (manager St) unit :=
  account ← account_of account_id;
  members ← group_of account_id group_id;
  match members with
  | _ :: _ => st_raise FailedPreconditionError
  | [] => replace_groups account_id account (dict_pop (ac_groups account) group_id)
  end.

(** ** Loading *)

(** One user of [_build_state]: the dict as it stands after a migration, and the index. *)
Definition load_user (allow_migration : bool) (salt_of : pystr -> pystr) (account_id : pystr) (accounts : list (pystr * AccountInfo)) (account : AccountInfo)
    (user_id : pystr) (info : user_info) (index : gmap pystr (list UserKeyEntry))
    : ST St (AccountInfo * gmap pystr (list UserKeyEntry)) :=
  let key := ui_key info in
  let indexed account key_or_hash hashed pfx :=
    (account, index_add pfx (MkKeyEntry account_id user_id (info_role info) key_or_hash hashed) index) in
  if negb (nonempty key) then mret (account, index)
  else if is_argon2 key then mret (indexed account key true (ui_key_prefix info))
  else if api_key_hashing_enabled E && allow_migration then
    let hash := argon2_hash E (salt_of key) key in
    let account := with_users (dict_set (ac_users account) user_id (MkInfo (ui_role info) hash (get_key_prefix key) (ui_deletion info))) account in
    _ ← save_users_json_for account_id (dict_set accounts account_id account);
    mret (indexed account hash true (get_key_prefix key))
  else mret (indexed account key false (get_key_prefix key)).

Fixpoint load_users (allow_migration : bool) (salt_of : pystr -> pystr) (account_id : pystr) (accounts : list (pystr * AccountInfo)) (account : AccountInfo)
    (pending : users) (index : gmap pystr (list UserKeyEntry)) : ST St (AccountInfo * gmap pystr (list UserKeyEntry)) :=
  match pending with
  | [] => mret (account, index)
  | (user_id, info) :: pending =>
      '(account, index) ← load_user allow_migration salt_of account_id accounts account user_id info index;
      load_users allow_migration salt_of account_id accounts account pending index
  end.

Fixpoint build_state (allow_migration : bool) (salt_of : pystr -> pystr) (pending : list (pystr * pystr)) (r : ring) : ST St ring :=
  match pending with
  | [] => mret r
  | (account_id, created_at) :: pending =>
      us ← (fun s => (default [] <$> kf_read_users account_id s, s));
      gs ← (fun s => (default [] <$> kf_read_groups account_id s, s));
      let account := MkAccount created_at us gs in
      let group_index := add_memberships account_id (group_memberships us gs) (user_group_ids r) in
      '(account, index) ← load_users allow_migration salt_of account_id (accounts r) account us (prefix_index r);
      build_state allow_migration salt_of pending (MkRing (dict_set (accounts r) account_id account) index group_index)
  end.

Definition empty_ring : ring := MkRing [] ∅ ∅.

Definition load (salt_of : pystr -> pystr) (now : pystr) : ST (manager St) unit := fun m =>
  match (data ← (fun s => (kf_read_accounts s, s));
         accounts ← match data with
                    | Some accounts => mret accounts
                    | None => let fresh := [(u "default", now)] in _ ← kf_write_accounts fresh; mret fresh
                    end;
         build_state true salt_of accounts empty_ring) (mg_store m) with
  | (Ok r, s) => (Ok tt, MkManager r s)
  | (Err e, s) => (Err e, MkManager (mg_ring m) s)
  end.

Definition reload (salt_of : pystr -> pystr) : ST (manager St) unit := fun m =>
  match (data ← (fun s => (kf_read_accounts s, s));
         match data with
         | Some accounts => r ← build_state false salt_of accounts empty_ring; mret (Some r)
         | None => mret None
         end) (mg_store m) with
  | (Ok (Some r), s) => (Ok tt, MkManager r s)
  | (Ok None, s) => (Ok tt, MkManager (mg_ring m) s)
  | (Err e, s) => (Err e, MkManager (mg_ring m) s)
  end.
End operations.
