(* ===== verification/ApiKeysTheory.v ===== *)
(** Authentication is exact: in every state the operations reach, a key resolves only to
    a user who holds it now; issued keys resolve, replaced and revoked keys do not. *)
From Stdlib Require Import NArith ZArith.
From S2P Require Import Prelude PyStr PyVal PyBytes Identifiers Base64 ApiKeys.

Open Scope N_scope.

(** ** The index against the user table *)

Abbreviation table := (pystr -> pystr -> option user_info).
Abbreviation index := (gmap pystr (list UserKeyEntry)).

(** A user under deletion has no key, and a stored prefix is the one of the plain key. *)
Definition wf_info (info : user_info) : Prop :=
  (is_Some (ui_deletion info) -> ui_key info = [])
  /\ (is_argon2 (ui_key info) = false -> ui_key_prefix info = [] \/ ui_key_prefix info = get_key_prefix (ui_key info)).

(** An entry of the bucket [pfx] mirrors its user. *)
Definition entry_ok (T : table) (pfx : pystr) (e : UserKeyEntry) : Prop :=
  exists info, T (ke_account_id e) (ke_user_id e) = Some info /\ ui_key info = ke_key_or_hash e /\ ui_key info <> []
    /\ ke_role e = info_role info /\ ke_is_hashed e = is_argon2 (ui_key info) /\ info_prefix info = pfx.

Definition owner (e : UserKeyEntry) : pystr * pystr := (ke_account_id e, ke_user_id e).

Record wf_index (T : table) (ix : index) : Prop := {
  wf_sound : forall pfx bucket e, ix !! pfx = Some bucket -> e ∈ bucket -> entry_ok T pfx e;
  wf_once : forall pfx bucket, ix !! pfx = Some bucket -> NoDup (owner <$> bucket);
  wf_infos : forall a us info, T a us = Some info -> wf_info info }.

Definition no_entries (ix : index) (a us : pystr) : Prop :=
  forall pfx bucket e, ix !! pfx = Some bucket -> e ∈ bucket -> owner e <> (a, us).

Definition upd (T : table) (a us : pystr) (o : option user_info) : table :=
  fun a' us' => if decide ((a', us') = (a, us)) then o else T a' us'.

Lemma owned_by_true a us e : owned_by a us e = true <-> owner e = (a, us).
Proof. unfold owned_by, owner. rewrite andb_true_iff, !seqb_true. naive_solver. Qed.

Lemma owned_by_false a us e : owned_by a us e = false <-> owner e <> (a, us).
Proof. rewrite <- owned_by_true. by destruct (owned_by a us e). Qed.

Lemma wf_index_ext T T' ix : (forall a us, T a us = T' a us) -> wf_index T ix -> wf_index T' ix.
Proof.
  intros HT [H1 H2 H3]. split; [|done|].
  - intros pfx bucket e Hb He. destruct (H1 _ _ _ Hb He) as (info & Hi & ?). exists info. by rewrite <- HT.
  - intros a us info. rewrite <- HT. apply H3.
Qed.

(** A user without table row, or without key, has no entries. *)
Lemma no_entries_absent T ix a us : wf_index T ix -> (forall info, T a us = Some info -> ui_key info = []) -> no_entries ix a us.
Proof.
  intros Hwf Hn pfx bucket e Hb He Ho. destruct (wf_sound _ _ Hwf _ _ _ Hb He) as (info & Hi & _ & Hk & _).
  unfold owner in Ho. injection Ho as Ha Hu. rewrite Ha, Hu in Hi. by apply Hk, Hn.
Qed.

Lemma wf_upd T ix a us o : wf_index T ix -> no_entries ix a us -> (forall info, o = Some info -> wf_info info) -> wf_index (upd T a us o) ix.
Proof.
  intros [H1 H2 H3] Hn Ho. split; [|done|].
  - intros pfx bucket e Hb He. destruct (H1 _ _ _ Hb He) as (info & Hi & ?). exists info. split; [|done].
    unfold upd. rewrite decide_False; [done|]. by apply (Hn _ _ _ Hb He).
  - intros a' us' info. unfold upd. destruct (decide _); [apply Ho|apply H3].
Qed.

Lemma index_add_cases pfx e ix pfx' bucket x : index_add pfx e ix !! pfx' = Some bucket -> x ∈ bucket ->
  (x = e /\ pfx' = pfx /\ pfx <> []) \/ exists bucket', ix !! pfx' = Some bucket' /\ x ∈ bucket'.
Proof.
  unfold index_add. destruct pfx as [|c pfx]; cbn [nonempty]; [eauto|]. rewrite lookup_insert. case_decide as Hd; [|eauto].
  subst pfx'. intros [= <-] [Hx| ->%list_elem_of_singleton]%elem_of_app; [right|by left].
  destruct (ix !! _) as [b|]; [eauto|by apply elem_of_nil in Hx].
Qed.

Lemma wf_add T ix pfx e info : wf_index T ix -> no_entries ix (ke_account_id e) (ke_user_id e) ->
  T (ke_account_id e) (ke_user_id e) = Some info -> ui_key info = ke_key_or_hash e -> (pfx <> [] -> ui_key info <> []) -> ke_role e = info_role info ->
  ke_is_hashed e = is_argon2 (ui_key info) -> info_prefix info = pfx -> wf_index T (index_add pfx e ix).
Proof.
  intros Hwf Hn HT Hk Hne Hr Hh Hp. split; [| |apply (wf_infos _ _ Hwf)].
  - intros pfx' bucket x Hb Hx. destruct (index_add_cases _ _ _ _ _ _ Hb Hx) as [(-> & -> & Hpfx)|(bucket' & Hb' & Hx')].
    + exists info. split_and!; auto.
    + by apply (wf_sound _ _ Hwf _ _ _ Hb' Hx').
  - intros pfx' bucket. unfold index_add. destruct pfx as [|c pfx]; cbn [nonempty]; [apply (wf_once _ _ Hwf)|]. rewrite lookup_insert. case_decide as Hd; [|apply (wf_once _ _ Hwf)].
    subst pfx'. intros [= <-]. rewrite fmap_app, NoDup_app. destruct (ix !! (c :: pfx)) as [b|] eqn:Eb; cbn [default].
    + split_and!; [by apply (wf_once _ _ Hwf _ _ Eb)| |apply NoDup_singleton]. intros o (x & -> & Hx)%list_elem_of_fmap Ho%list_elem_of_singleton.
      by apply (Hn _ _ _ Eb Hx).
    + split_and!; [constructor|by intros ? ?%elem_of_nil|apply NoDup_singleton].
Qed.

Lemma index_drop_cases pfx a us ix pfx' bucket : index_drop pfx a us ix !! pfx' = Some bucket ->
  exists bucket', ix !! pfx' = Some bucket' /\ (pfx' = pfx -> bucket = filter (fun e => owned_by a us e = false) bucket') /\ (pfx' <> pfx -> bucket = bucket').
Proof.
  unfold index_drop. destruct (ix !! pfx) as [b|] eqn:Eb; [|intros H; exists bucket; split_and!; [done|intros ?; subst; congruence|done]].
  destruct (filter _ b) as [|x rest] eqn:Ef.
  - rewrite lookup_delete. case_decide; [done|]. intros H'. exists bucket. split_and!; [done|intros ?; by subst|done].
  - rewrite lookup_insert. case_decide as Hd; [subst pfx'|]; [intros [= <-]|intros H']; eexists; split_and!; eauto; intros ?; by subst.
Qed.

Lemma wf_drop T ix pfx a us : wf_index T ix -> wf_index T (index_drop pfx a us ix).
Proof.
  intros Hwf. split; [| |apply (wf_infos _ _ Hwf)].
  - intros pfx' bucket e (b & Hb & H1 & H2)%index_drop_cases He. apply (wf_sound _ _ Hwf _ _ _ Hb).
    destruct (decide (pfx' = pfx)) as [Heq|Hne]; [rewrite (H1 Heq) in He; by apply list_elem_of_filter in He as [_ ?]|by rewrite (H2 Hne) in He].
  - intros pfx' bucket (b & Hb & H1 & H2)%index_drop_cases. pose proof (wf_once _ _ Hwf _ _ Hb) as Hnd.
    destruct (decide (pfx' = pfx)) as [Heq|Hne]; [|by rewrite (H2 Hne)]. rewrite (H1 Heq). clear - Hnd.
    induction b as [|e b IH]; [done|]. rewrite filter_cons. apply NoDup_cons in Hnd as [Hn Hnd]. case_decide; [|by apply IH].
    apply NoDup_cons. split; [|by apply IH]. contradict Hn. apply list_elem_of_fmap in Hn as (x & Hx & [_ Hin]%list_elem_of_filter).
    rewrite Hx. apply list_elem_of_fmap. eauto.
Qed.

(** Every entry of a user is in the bucket of the user's prefix. *)
Lemma drop_no_entries T ix a us info : wf_index T ix -> T a us = Some info -> no_entries (index_drop (info_prefix info) a us ix) a us.
Proof.
  intros Hwf HT pfx bucket e (b & Hb & H1 & H2)%index_drop_cases He Ho.
  destruct (decide (pfx = info_prefix info)) as [Heq|Hne].
  - rewrite (H1 Heq) in He. apply list_elem_of_filter in He as [Hf _]. by apply owned_by_false in Hf.
  - rewrite (H2 Hne) in He. destruct (wf_sound _ _ Hwf _ _ _ Hb He) as (info' & Hi & _ & _ & _ & _ & Hp). unfold owner in Ho. injection Ho as Ha Hu.
    rewrite Ha, Hu, HT in Hi. injection Hi as <-. done.
Qed.

Lemma wf_remove T ix a us info : wf_index T ix -> T a us = Some info ->
  wf_index T (remove_key_index_entry a us info ix) /\ no_entries (remove_key_index_entry a us info ix) a us.
Proof.
  intros Hwf HT. unfold remove_key_index_entry. destruct (nonempty (ui_key info)) eqn:En.
  - split; [by apply wf_drop|by eapply drop_no_entries].
  - apply nonempty_false in En. split; [done|]. eapply no_entries_absent; [done|]. intros info' Hi. congruence.
Qed.

(** ** Role changes *)

Definition with_role (role : Role) (e : UserKeyEntry) : UserKeyEntry :=
  MkKeyEntry (ke_account_id e) (ke_user_id e) role (ke_key_or_hash e) (ke_is_hashed e).

Lemma update_first_role_owner a us role b : owner <$> update_first_role a us role b = owner <$> b.
Proof. induction b as [|e b IH]; [done|]. cbn [update_first_role]. destruct (owned_by a us e); cbn; [done|by rewrite IH]. Qed.

Lemma update_first_role_elem a us role b x : NoDup (owner <$> b) -> x ∈ update_first_role a us role b ->
  (x ∈ b /\ owner x <> (a, us)) \/ exists e, e ∈ b /\ owner e = (a, us) /\ x = with_role role e.
Proof.
  induction b as [|e b IH]; intros Hnd; cbn [update_first_role]; [by intros ?%elem_of_nil|]. apply NoDup_cons in Hnd as [Hn Hnd].
  destruct (owned_by a us e) eqn:Eo.
  - apply owned_by_true in Eo. intros [->|Hx]%elem_of_cons; [right; exists e; split_and!; [left|done|done]|left]. split; [by right|].
    intros Ho. apply Hn. rewrite Eo, <- Ho. apply list_elem_of_fmap. eauto.
  - apply owned_by_false in Eo. intros [->|Hx]%elem_of_cons; [left; split; [left|done]|]. destruct (IH Hnd Hx) as [[Hin Ho]|(e' & Hin & Ho & ->)].
    + left. split; [by right|done].
    + right. exists e'. split_and!; [by right|done|done].
Qed.

Definition index_role (a us : pystr) (role : Role) (info : user_info) (ix : index) : index :=
  if nonempty (ui_key info) then
    match ix !! info_prefix info with Some bucket => <[info_prefix info := update_first_role a us role bucket]> ix | None => ix end
  else ix.

Lemma wf_role T ix a us info role : wf_index T ix -> T a us = Some info -> ui_deletion info = None ->
  wf_index (upd T a us (Some (MkInfo (Some role) (ui_key info) (ui_key_prefix info) None))) (index_role a us role info ix).
Proof.
  intros Hwf HT Hdel. set (info' := MkInfo _ _ _ _). assert (wf_info info') as Hwi.
  { destruct (wf_infos _ _ Hwf _ _ _ HT) as [_ H2]. split; [by intros [? [=]]|done]. }
  assert (forall pfx bucket x, ix !! pfx = Some bucket -> x ∈ bucket -> owner x = (a, us) -> ui_key info <> [] /\ pfx = info_prefix info) as Hown.
  { intros pfx bucket x Hb Hx Ho. destruct (wf_sound _ _ Hwf _ _ _ Hb Hx) as (i & Hi & _ & Hk & _ & _ & Hp). unfold owner in Ho. injection Ho as Ha Hu.
    rewrite Ha, Hu, HT in Hi. injection Hi as <-. done. }
  assert (forall pfx bucket x, ix !! pfx = Some bucket -> x ∈ bucket -> owner x <> (a, us) -> entry_ok (upd T a us (Some info')) pfx x) as Hother.
  { intros pfx bucket x Hb Hx Ho. destruct (wf_sound _ _ Hwf _ _ _ Hb Hx) as (i & Hi & ?). exists i. split; [|done]. unfold upd. by rewrite decide_False. }
  assert (forall a' us' i, upd T a us (Some info') a' us' = Some i -> wf_info i) as Hinfos.
  { intros a' us' i. unfold upd. destruct (decide _); [by intros [= <-]|apply (wf_infos _ _ Hwf)]. }
  unfold index_role. destruct (nonempty (ui_key info)) eqn:En.
  2:{ split; [|apply (wf_once _ _ Hwf)|done]. intros pfx bucket x Hb Hx. apply (Hother _ _ _ Hb Hx). intros Ho.
      apply nonempty_false in En. by destruct (Hown _ _ _ Hb Hx Ho). }
  destruct (ix !! info_prefix info) as [b|] eqn:Eb.
  2:{ split; [|apply (wf_once _ _ Hwf)|done]. intros pfx bucket x Hb Hx. apply (Hother _ _ _ Hb Hx). intros Ho.
      destruct (Hown _ _ _ Hb Hx Ho) as [_ ->]. congruence. }
  split; [| |done].
  - intros pfx bucket x. rewrite lookup_insert. case_decide as Hd; [subst pfx; intros [= <-] Hx|intros Hb Hx].
    + destruct (update_first_role_elem _ _ _ _ _ (wf_once _ _ Hwf _ _ Eb) Hx) as [[Hin Ho]|(e & Hin & Ho & ->)]; [by apply (Hother _ _ _ Eb Hin)|].
      destruct (wf_sound _ _ Hwf _ _ _ Eb Hin) as (i & Hi & Hk & Hne & _ & Hh & Hp). unfold owner in Ho. injection Ho as Ha Hu.
      rewrite Ha, Hu, HT in Hi. injection Hi as <-. exists info'. cbn [with_role ke_account_id ke_user_id ke_role ke_key_or_hash ke_is_hashed]. rewrite Ha, Hu.
      unfold upd. rewrite decide_True by done. split_and!; done.
    + apply (Hother _ _ _ Hb Hx). intros Ho. by destruct (Hown _ _ _ Hb Hx Ho) as [_ ?].
  - intros pfx bucket. rewrite lookup_insert. case_decide as Hd; [|apply (wf_once _ _ Hwf)]. intros [= <-]. rewrite update_first_role_owner.
    by apply (wf_once _ _ Hwf _ _ Eb).
Qed.

(** ** Rings *)

Record wf_ring (r : ring) : Prop := {
  wr_index : wf_index (get_user r) (prefix_index r);
  wr_accounts : NoDup (fst <$> accounts r);
  wr_users : forall a account, dict_get (accounts r) a = Some account -> NoDup (fst <$> ac_users account) }.

Lemma get_user_some r a us info : get_user r a us = Some info <-> exists account, dict_get (accounts r) a = Some account /\ dict_get (ac_users account) us = Some info.
Proof. unfold get_user. destruct (dict_get (accounts r) a) as [acc|]; cbn; naive_solver. Qed.

Lemma get_user_set a account r a' us' :
  get_user (set_account a account r) a' us' = if decide (a' = a) then dict_get (ac_users account) us' else get_user r a' us'.
Proof.
  unfold get_user, set_account. cbn [accounts]. rewrite dict_set_get. destruct (seqb a a') eqn:E.
  - apply seqb_true in E as ->. by rewrite decide_True.
  - apply seqb_false in E. by rewrite decide_False.
Qed.

(** Writing one user of an existing account. *)
Lemma get_user_write a account us info r a' us' : dict_get (accounts r) a = Some account ->
  get_user (set_account a (with_users (dict_set (ac_users account) us info) account) r) a' us' = upd (get_user r) a us (Some info) a' us'.
Proof.
  intros Ha. rewrite get_user_set. unfold upd. cbn [with_users ac_users]. destruct (decide (a' = a)) as [->|Hne].
  - rewrite dict_set_get. destruct (seqb us us') eqn:E.
    + apply seqb_true in E as ->. by rewrite decide_True.
    + apply seqb_false in E. rewrite decide_False by congruence. unfold get_user. by rewrite Ha.
  - by rewrite decide_False by congruence.
Qed.

Lemma get_user_pop a account us r a' us' : dict_get (accounts r) a = Some account -> NoDup (fst <$> ac_users account) ->
  get_user (set_account a (with_users (dict_pop (ac_users account) us) account) r) a' us' = upd (get_user r) a us None a' us'.
Proof.
  intros Ha Hnd. rewrite get_user_set. unfold upd. cbn [with_users ac_users]. destruct (decide (a' = a)) as [->|Hne].
  - rewrite dict_pop_get by done. destruct (seqb us us') eqn:E.
    + apply seqb_true in E as ->. by rewrite decide_True.
    + apply seqb_false in E. rewrite decide_False by congruence. unfold get_user. by rewrite Ha.
  - by rewrite decide_False by congruence.
Qed.

(** A ring with the same dicts up to one account. *)
Lemma wf_ring_set r a account ix gi : wf_ring r -> NoDup (fst <$> ac_users account) -> wf_index (get_user (set_account a account r)) ix ->
  wf_ring (MkRing (dict_set (accounts r) a account) ix gi).
Proof.
  intros [_ Ha Hu] Hnd Hix. split; cbn [accounts prefix_index].
  - done.
  - by apply dict_set_nodup.
  - intros a' account'. rewrite dict_set_get. destruct (seqb a a'); [by intros [= <-]|apply Hu].
Qed.

Lemma wf_ring_index r ix : wf_ring r -> wf_index (get_user r) ix -> wf_ring (set_index (fun _ => ix) r).
Proof. intros [_ ? ?] ?. by split. Qed.

Lemma wf_ring_groups r gi : wf_ring r -> wf_ring (MkRing (accounts r) (prefix_index r) gi).
Proof. by intros [? ? ?]. Qed.

(** Replacing a user who has no entries. *)
Lemma wf_ring_write r a account us info : wf_ring r -> dict_get (accounts r) a = Some account -> no_entries (prefix_index r) a us -> wf_info info ->
  wf_ring (set_account a (with_users (dict_set (ac_users account) us info) account) r).
Proof.
  intros Hr Ha Hn Hi. apply wf_ring_set; [done|apply dict_set_nodup; by eapply wr_users|].
  eapply wf_index_ext; [intros; symmetry; by apply get_user_write|]. apply wf_upd; [apply Hr|done|by intros ? [= <-]].
Qed.

(** ** Key text *)

Lemma encode_segment_ok data seg : encode_segment data = Ok seg -> Forall (fun c => url_char c = true) seg /\ decode_segment seg = Ok data.
Proof.
  unfold encode_segment. destruct (utf8_encode data) as [b|] eqn:Eb; [|done]. cbn [mbind result_bind].
  pose proof (utf8_encode_bytes _ _ Eb) as Hb. pose proof (b64_body_chars b Hb) as Hc.
  assert (Forall (fun c => c < 128) (urlsafe_b64encode b)) as Hascii.
  { unfold urlsafe_b64encode. apply Forall_app. split; [|by apply Forall_replicate]. eapply Forall_impl; [exact Hc|]. intros c ?%url_char_facts. tauto. }
  rewrite (utf8_roundtrip _ _ (utf8_encode_ascii _ Hascii)). cbn [mbind result_bind]. intros [= <-].
  assert (rstrip is_pad (urlsafe_b64encode b) = b64_body b) as ->.
  { unfold urlsafe_b64encode. destruct (decide (b64_body b = [])) as [Hn|Hn].
    - rewrite Hn. apply rstrip_all. by apply Forall_replicate.
    - apply last_is_Some in Hn as [x Hx]. assert (is_pad x = false) as Hp.
      { rewrite Forall_forall in Hc. unfold is_pad. apply N.eqb_neq. pose proof (url_char_facts x (Hc x (last_Some_elem_of _ _ Hx))). tauto. }
      induction (b64_pads b) as [|n IH]; [rewrite app_nil_r; by apply (rstrip_id _ _ x)|]. rewrite replicate_S_end, app_assoc.
      unfold rstrip in *. rewrite reverse_app. exact IH. }
  split; [done|]. unfold decode_segment. pose proof (b64_pads_length b) as Hp. set (n := (4 - length (b64_body b) mod 4)%nat) in *.
  assert ((if (n =? 4)%nat then b64_body b else b64_body b ++ replicate n c_pad) = urlsafe_b64encode b) as ->.
  { unfold urlsafe_b64encode. rewrite Hp. pose proof (Nat.mod_upper_bound (length (b64_body b)) 4 ltac:(done)).
    destruct (Nat.eqb_spec n 4) as [->|Hne]; [cbn; by rewrite app_nil_r|]. by rewrite Nat.mod_small by (unfold n in *; lia). }
  rewrite (utf8_encode_ascii _ Hascii). cbn [mbind result_bind]. rewrite (b64_roundtrip b Hb). cbn [mbind result_bind]. by apply utf8_roundtrip.
Qed.

Lemma generate_api_key_parts E d a us seed key : generate_api_key E d a us seed = Ok key ->
  exists secret, parse_api_key key = Ok (a, us, secret) /\ is_new_format_key key = true /\ is_ascii key = true /\ is_argon2 key = false.
Proof.
  unfold generate_api_key. destruct (encode_segment a) as [sa|] eqn:Ea; [|done]. cbn [mbind result_bind].
  destruct (encode_segment us) as [su|] eqn:Eu; [|done]. cbn [mbind result_bind]. destruct (draw_secret E d us seed) as [sec|]; [|done]. cbn [mbind result_bind].
  destruct (encode_segment sec) as [ss|] eqn:Es; [|done]. cbn [mbind result_bind]. intros [= <-].
  apply encode_segment_ok in Ea as [Ha Da], Eu as [Hu Du], Es as [Hs Ds].
  assert (forall l, Forall (fun c => url_char c = true) l -> c_dot ∉ l) as Hdot.
  { intros l Hl Hin. rewrite Forall_forall in Hl. by apply Hl, url_char_facts in Hin as (_ & _ & ? & _). }
  assert (split c_dot (sa ++ c_dot :: su ++ c_dot :: ss) = [sa; su; ss]) as Hsplit.
  { rewrite !split_app_sep, split_no_sep by auto. done. }
  exists sec. assert (is_new_format_key (sa ++ c_dot :: su ++ c_dot :: ss) = true) as Hnew.
  { unfold is_new_format_key. rewrite Hsplit. by destruct sa. }
  split_and!; [|done| |].
  - unfold parse_api_key. rewrite Hnew. cbn [negb]. by rewrite Hsplit, Da, Du, Ds.
  - unfold is_ascii. apply forallb_forall. intros c Hc%list_elem_of_In. apply N.ltb_lt.
    assert (forall l, Forall (fun c => url_char c = true) l -> c ∈ l -> c < 128) as Hl.
    { intros l Hl Hin. rewrite Forall_forall in Hl. apply Hl, url_char_facts in Hin. tauto. }
    rewrite elem_of_app, elem_of_cons, elem_of_app, elem_of_cons in Hc. destruct Hc as [Hc|[->|[Hc|[->|Hc]]]]; [eauto|done|eauto|done|eauto].
  - destruct sa as [|c sa]; [done|]. apply Forall_cons in Ha as [Hc _]. apply url_char_facts in Hc as (_ & _ & _ & Hc).
    unfold is_argon2. change (startswith (u "$argon2") ((c :: sa) ++ c_dot :: su ++ c_dot :: ss)) with ((36 =? c) && startswith (u "argon2") (sa ++ c_dot :: su ++ c_dot :: ss)).
    apply not_eq_sym, N.eqb_neq in Hc. by rewrite Hc.
Qed.

(** ** Operations *)

(** The outcome of a call that was not cancelled. *)
Definition calm {A} (r : result A) : Prop := forall e, r = Err e -> is_exception e = true.

(** The files of one account. *)
Definition kf_reads {St} `{!KeyFiles St} (a : pystr) (s : St) : result (option users) * result (option groups) := (kf_read_users a s, kf_read_groups a s).

Class KeyFilesOk (St : Type) `{!KeyFiles St} : Prop := {
  (* Writing one file leaves the others alone, and locks are no files. *)
  kf_users_frame : forall a us s b, b <> a -> kf_reads b (kf_write_users a us s).2 = kf_reads b s;
  kf_accounts_frame : forall l s b, kf_reads b (kf_write_accounts l s).2 = kf_reads b s;
  kf_acquire_frame : forall p s b, kf_reads b (kf_acquire p s).2 = kf_reads b s;
  kf_release_frame : forall l s b, kf_reads b (kf_release l s).2 = kf_reads b s }.

(** Documented forms of the digests: PHC strings of Argon2, hexadecimal SHA-256. *)
Record EnvOk (E : env) : Prop := {
  argon2_form : forall salt key, is_argon2 (argon2_hash E salt key) = true;
  argon2_correct : forall salt key key', argon2_verify E (argon2_hash E salt key) key' = Ok (bool_decide (key' = key));
  sha256_form : forall b, is_argon2 (sha256_hex E b) = false }.

Section ops.
Context {St : Type} `{!KeyFiles St} `{!KeyFilesOk St} (E : env) (HE : EnvOk E).
Abbreviation mgr := (manager St).

(** What an operation on the ring [m] may return: [Q] holds of its result and ring. *)
Definition hoare {A} (P : ring -> Prop) (op : ST mgr A) (Q : result A -> ring -> Prop) : Prop :=
  forall m, P (mg_ring m) -> Q (op m).1 (mg_ring (op m).2).

Lemma hoare_bind {A B} P (R : A -> ring -> Prop) (op : ST mgr A) (f : A -> ST mgr B) Q :
  hoare P op (fun res r => match res with Ok a => R a r | Err e => Q (Err e) r end) -> (forall a, hoare (R a) (f a) Q) -> hoare P (op ≫= f) Q.
Proof.
  intros Hop Hf m HP. rewrite st_bind_unfold. specialize (Hop m HP). destruct (op m) as [[a|e] m']; [by apply Hf|done].
Qed.

Lemma hoare_weaken {A} (P P' : ring -> Prop) (op : ST mgr A) (Q Q' : result A -> ring -> Prop) :
  hoare P op Q -> (forall r, P' r -> P r) -> (forall res r, Q res r -> Q' res r) -> hoare P' op Q'.
Proof. intros H HP HQ m Hm. by apply HQ, H, HP. Qed.

Lemma hoare_on_ring f (Q : result unit -> ring -> Prop) : hoare (fun r => Q (Ok tt) (f r)) (on_ring f) Q.
Proof. by intros m H. Qed.

Lemma hoare_ret {A} (a : A) (Q : result A -> ring -> Prop) : hoare (Q (Ok a)) (mret a) Q.
Proof. by intros m H. Qed.

Lemma hoare_lift {A} (x : result A) (Q : result A -> ring -> Prop) : hoare (Q x) (st_lift x) Q.
Proof. by intros m H. Qed.

Lemma hoare_raise {A} e (Q : result A -> ring -> Prop) : hoare (Q (Err e)) (st_raise e) Q.
Proof. by intros m H. Qed.

(** Operations that leave the ring alone. *)
Definition silent {A} (op : ST mgr A) : Prop := forall m, mg_ring (op m).2 = mg_ring m.

Lemma hoare_silent {A} (op : ST mgr A) P (Q : result A -> ring -> Prop) : silent op -> (forall res r, P r -> Q res r) -> hoare P op Q.
Proof. intros Hs HQ m HP. rewrite Hs. by apply HQ. Qed.

Lemma on_store_silent {A} (op : ST St A) : silent (on_store op).
Proof. intros m. unfold on_store. by destruct (op (mg_store m)). Qed.

Lemma save_users_silent a : silent (save_users_json (St := St) a).
Proof. intros m. apply (on_store_silent (save_users_json_for a (accounts (mg_ring m)))). Qed.

Lemma save_accounts_silent : silent (save_accounts_json (St := St)).
Proof. intros m. apply (on_store_silent (with_exact_lock _ _)). Qed.

Lemma write_groups_silent a gs : silent (on_store (St := St) (kf_write_groups a gs)).
Proof. apply on_store_silent. Qed.

Lemma silent_bind {A B} (op : ST mgr A) (f : A -> ST mgr B) : silent op -> (forall a, silent (f a)) -> silent (op ≫= f).
Proof. intros Ho Hf m. rewrite st_bind_unfold. specialize (Ho m). destruct (op m) as [[a|e] m']; [by rewrite Hf|done]. Qed.

Lemma except_log_silent op : silent op -> silent (except_log (St := St) op).
Proof. intros Ho m. unfold except_log. specialize (Ho m). destruct (op m) as [[[]|e] m']; [done|by destruct (is_exception e)]. Qed.

(** [try ... except Exception: handler; raise]: a cancelled body skips the handler. *)
Lemma hoare_except {A} P (body : ST mgr A) handler (Q : result A -> ring -> Prop) R :
  silent body -> (forall a r, P r -> Q (Ok a) r) -> hoare P handler R -> (forall e r, R (Ok tt) r -> Q (Err e) r) -> (forall e r, R (Err e) r -> Q (Err e) r) ->
  (forall e r, is_exception e = false -> P r -> Q (Err e) r) -> hoare P (except_reraise body handler) Q.
Proof.
  intros Hs HOk Hh HErr HErr' Hcan m HP. unfold except_reraise. specialize (Hs m). destruct (body m) as [[a|e] m']; cbn in *; [apply HOk; by rewrite Hs|].
  rewrite <- Hs in HP. destruct (is_exception e) eqn:Ee; [|by apply Hcan]. specialize (Hh m' HP). destruct (handler m') as [[[]|e'] m'']; cbn in *; auto.
Qed.

Lemma check_id_silent err (Q : result unit -> ring -> Prop) P :
  (forall r, P r -> Q (Ok tt) r) -> (forall r, P r -> Q (Err InvalidArgumentError) r) -> hoare P (check_id (St := St) err) Q.
Proof. intros H1 H2 m HP. destruct err; [by apply H2|by apply H1]. Qed.

(** The two outcomes of looking a user up. *)
Lemma hoare_require_user a us P (Q : result (AccountInfo * user_info) -> ring -> Prop) :
  (forall r account info, P r -> dict_get (accounts r) a = Some account -> dict_get (ac_users account) us = Some info -> Q (Ok (account, info)) r) ->
  (forall r, P r -> Q (Err NotFoundError) r) -> hoare P (require_user (St := St) a us) Q.
Proof.
  intros H1 H2 m HP. unfold require_user, require_account. destruct (dict_get (accounts (mg_ring m)) a) as [account|] eqn:Ea; [|by apply H2].
  destruct (dict_get (ac_users account) us) as [info|] eqn:Eu; [by eapply H1|by apply H2].
Qed.

(** ** Operations keep the index sound *)

Abbreviation keeps op := (hoare wf_ring op (fun _ => wf_ring)).

Lemma key_info_wf d role key : wf_info (key_info E d role key).
Proof.
  unfold key_info, stored. split; [by intros [? [=]]|]. cbn. destruct (api_key_hashing_enabled E); [|by left]. by rewrite (argon2_form E HE).
Qed.

(** Indexing the key a user has just received. *)
Lemma add_key T ix d a us role key : wf_index T ix -> no_entries ix a us -> T a us = Some (key_info E d (Some role) key) -> is_argon2 key = false ->
  wf_index T (index_add (get_key_prefix key) (key_entry E d a us role key) ix).
Proof.
  intros Hwf Hn HT Hplain. destruct (decide (get_key_prefix key = [])) as [->|Hp]; [done|].
  assert (key <> []) as Hk by (by intros ->). assert (is_argon2 (stored E d key) = api_key_hashing_enabled E) as Hh.
  { unfold stored. destruct (api_key_hashing_enabled E); [apply (argon2_form E HE)|done]. }
  apply (wf_add _ _ _ _ (key_info E d (Some role) key)); [done|done|done|done| |done|done|].
  - intros _. cbn. unfold stored in *. destruct (api_key_hashing_enabled E); [|done]. intros Hnil. by rewrite Hnil in Hh.
  - unfold info_prefix, key_info, stored. cbn. destruct (api_key_hashing_enabled E); cbn; [|done]. by rewrite (proj2 (nonempty_true _) Hp).
Qed.

Lemma hoare_pure {A} (op : ST mgr A) P (Q : result A -> ring -> Prop) : (forall m, (op m).2 = m) -> (forall m, P (mg_ring m) -> Q (op m).1 (mg_ring m)) -> hoare P op Q.
Proof. intros H1 H2 m HP. rewrite H1. by apply H2. Qed.

Lemma discard_account_wf a r : wf_ring r -> wf_ring (discard_account_state a r).
Proof.
  intros Hr. unfold discard_account_state. destruct (dict_get (accounts r) a) as [account|] eqn:Ea; [|by apply wf_ring_groups].
  set (ix := foldl _ _ _).
  assert (wf_index (get_user r) ix /\ forall us, no_entries ix a us) as [Hix Hn].
  { pose proof (wr_users r Hr a account Ea) as Hnd.
    assert (forall us info, dict_get (ac_users account) us = Some info -> get_user r a us = Some info) as Hget by (intros us info Hu; apply get_user_some; eauto).
    assert (forall us info, (us, info) ∈ ac_users account -> get_user r a us = Some info) as Hin by (intros us info Hu; by apply Hget, dict_get_in).
    assert (forall us, get_user r a us = None \/ us ∈ (fst <$> ac_users account)) as Hall.
    { intros us. unfold get_user. rewrite Ea. cbn. destruct (dict_get (ac_users account) us) as [i|] eqn:E'; [right|by left].
      apply dict_get_elem in E'. apply list_elem_of_fmap. by exists (us, i). }
    assert (forall pending ix0, (forall x, x ∈ pending -> x ∈ ac_users account) -> wf_index (get_user r) ix0 ->
              let ix1 := foldl (fun ix '(us, info) => remove_key_index_entry a us info ix) ix0 pending in
              wf_index (get_user r) ix1 /\ (forall us, no_entries ix0 a us \/ us ∈ (fst <$> pending) -> no_entries ix1 a us)) as Hfold.
    { induction pending as [|[us info] pending IH]; intros ix0 Hsub Hwf; cbn [foldl]; [split; [done|]; intros us [?|?%elem_of_nil]; done|].
      destruct (wf_remove _ _ a us info Hwf (Hin us info (Hsub _ (list_elem_of_here _ _)))) as [Hwf1 Hn1].
      destruct (IH (remove_key_index_entry a us info ix0)) as [IH1 IH2]; [intros; apply Hsub; by right|done|]. split; [done|].
      intros us' Hor. apply IH2. destruct (decide (us' = us)) as [->|Hne]; [by left|].
      destruct Hor as [H0|[Heq|H0]%elem_of_cons]; [left|by cbn in Heq|by right]. unfold remove_key_index_entry. destruct (nonempty _); [|done].
      intros pfx bucket e (b & Hb & H1 & H2)%index_drop_cases He.
      destruct (decide (pfx = info_prefix info)) as [Heq|Hneq]; [rewrite (H1 Heq) in He; apply list_elem_of_filter in He as [_ He]|rewrite (H2 Hneq) in He]; by apply (H0 _ _ _ Hb He). }
    destruct (Hfold (ac_users account) (prefix_index r)) as [H1 H2]; [done|apply Hr|]. split; [done|].
    intros us. destruct (Hall us) as [Hnone|Hmem]; [|apply H2; by right]. eapply no_entries_absent; [exact H1|]. intros info. by rewrite Hnone. }
  split; cbn [accounts prefix_index].
  - split; [| |].
    + intros pfx bucket e Hb He. destruct (wf_sound _ _ Hix _ _ _ Hb He) as (info & Hi & Hrest). exists info. split; [|done].
      apply get_user_some in Hi as (acc & Ha' & Hu). apply get_user_some. exists acc. split; [|done]. cbn [accounts]. rewrite dict_pop_get by apply Hr.
      rewrite (proj2 (seqb_false a (ke_account_id e))); [done|]. intros Heq. apply (Hn (ke_user_id e) _ _ _ Hb He). unfold owner. by rewrite Heq.
    + apply (wf_once _ _ Hix).
    + intros a' us info (acc & Ha' & Hu)%get_user_some. cbn [accounts] in Ha'. rewrite dict_pop_get in Ha' by apply Hr. destruct (seqb a a'); [done|].
      apply (wf_infos _ _ Hix a' us). apply get_user_some. eauto.
  - apply dict_pop_nodup, Hr.
  - intros a' account'. rewrite dict_pop_get by apply Hr. destruct (seqb a a'); [done|apply Hr].
Qed.

Lemma hoare_fact {A} (phi : Prop) P (op : ST mgr A) Q : (phi -> hoare P op Q) -> hoare (fun r => P r /\ phi) op Q.
Proof. intros H m [HP Hphi]. by apply H. Qed.

(** One write to the ring, then the rest. *)
Lemma hoare_ring {A} f (k : ST mgr A) P R Q : (forall r, P r -> R (f r)) -> hoare R k Q -> hoare P (on_ring f ≫= fun _ => k) Q.
Proof. intros Hf Hk. apply (hoare_bind _ (fun _ => R)); [intros m HP; by apply Hf|done]. Qed.

Lemma hoare_set f P (Q : result unit -> ring -> Prop) : (forall r, P r -> Q (Ok tt) (f r)) -> hoare P (on_ring f) Q.
Proof. intros Hf m HP. by apply Hf. Qed.

(** The user [us] holds [info] and has no entries. *)
Definition unindexed (a us : pystr) (info : user_info) (r : ring) : Prop :=
  wf_ring r /\ get_user r a us = Some info /\ no_entries (prefix_index r) a us.

Lemma index_new_key d a us role key r : is_argon2 key = false -> unindexed a us (key_info E d (Some role) key) r ->
  wf_ring (set_index (index_add (get_key_prefix key) (key_entry E d a us role key)) r).
Proof. intros Hplain (Hr & Hu & Hn). apply (wf_ring_index r (index_add _ _ (prefix_index r)) Hr). apply add_key; [apply Hr|done|done|done]. Qed.

Lemma write_unindexed r a account us info : wf_ring r -> dict_get (accounts r) a = Some account -> no_entries (prefix_index r) a us -> wf_info info ->
  unindexed a us info (set_account a (with_users (dict_set (ac_users account) us info) account) r).
Proof.
  intros Hr Ha Hn Hi. split_and!; [by apply wf_ring_write| |done]. rewrite get_user_write by done. unfold upd. by rewrite decide_True.
Qed.

Lemma install_account_keeps d now a admin key : is_argon2 key = false ->
  hoare (fun r => wf_ring r /\ dict_get (accounts r) a = None) (install_account (St := St) E d now a admin key) (fun _ => wf_ring).
Proof.
  intros Hplain. unfold install_account. apply (hoare_ring _ _ _ (unindexed a admin (key_info E d (Some ADMIN) key))).
  { intros r [Hr Hnone]. assert (forall us, no_entries (prefix_index r) a us) as Hn.
    { intros us. eapply no_entries_absent; [apply Hr|]. intros info (acc & Hacc & _)%get_user_some. congruence. }
    split_and!; [|rewrite get_user_set, decide_True by done; cbn; by rewrite (proj2 (seqb_true admin admin) eq_refl)|apply Hn].
    apply wf_ring_set; [done|apply NoDup_singleton|]. eapply wf_index_ext; [|apply (wf_upd _ _ a admin (Some (key_info E d (Some ADMIN) key)) (wr_index _ Hr) (Hn admin)); intros ? [= <-]; apply key_info_wf].
    intros a' us'. rewrite get_user_set. unfold upd. cbn [ac_users dict_get]. destruct (decide (a' = a)) as [->|Hne]; [|by rewrite decide_False by congruence].
    destruct (seqb admin us') eqn:Es; [apply seqb_true in Es as ->; by rewrite decide_True|]. apply seqb_false in Es. rewrite decide_False by congruence.
    unfold get_user. by rewrite Hnone. }
  apply (hoare_ring _ _ _ wf_ring); [intros r; by apply index_new_key|].
  apply (hoare_bind _ (fun _ => wf_ring)); [|intros [] m Hm; exact Hm].
  apply (hoare_except wf_ring _ _ _ (fun _ => wf_ring)); [|done| |done|done|done].
  - apply silent_bind; [apply save_accounts_silent|intros _]. apply silent_bind; [apply save_users_silent|intros _; apply write_groups_silent].
  - apply (hoare_ring _ _ _ wf_ring); [intros r; apply discard_account_wf|]. by apply hoare_silent; [apply except_log_silent, save_accounts_silent|].
Qed.

Lemma account_absent_keeps a : hoare wf_ring (account_absent (St := St) a) (fun res r => match res with Ok _ => wf_ring r /\ dict_get (accounts r) a = None | Err _ => wf_ring r end).
Proof. intros m Hm. unfold account_absent. by destruct (dict_get _ a) eqn:E'; cbn. Qed.

(** Leading checks that touch nothing. *)
Ltac checks := repeat (apply (hoare_bind _ (fun _ => wf_ring)); [by apply check_id_silent|intros _]).

Definition plain_draws (d : draws) : Prop := is_argon2 (token_hex d) = false.

Lemma draw_secret_plain d us seed key : plain_draws d -> draw_secret E d us seed = Ok key -> is_argon2 key = false.
Proof.
  intros Hd. unfold draw_secret, derive_seeded_api_key_secret. destruct seed as [seed|]; [|by intros [= <-]]. destruct (negb _); [done|].
  destruct (utf8_encode _); [|done]. intros [= <-]. apply (sha256_form E HE).
Qed.

Lemma generate_plain d a us seed key : generate_api_key E d a us seed = Ok key -> is_argon2 key = false.
Proof. by intros (_ & _ & _ & _ & ?)%generate_api_key_parts. Qed.

Lemma create_account_keeps d now a admin seed : keeps (create_account (St := St) E d now a admin seed).
Proof.
  unfold create_account. checks. apply (hoare_bind _ (fun key r => wf_ring r /\ is_argon2 key = false)).
  - intros m Hm. cbn. destruct (generate_api_key E d a admin seed) as [key|] eqn:Eg; [|done]. split; [done|]. by eapply generate_plain.
  - intros key. apply hoare_fact. intros Hp. apply (hoare_bind _ (fun _ r => wf_ring r /\ dict_get (accounts r) a = None)).
    + eapply hoare_weaken; [apply account_absent_keeps|done|]. by intros [] r.
    + intros _. by apply install_account_keeps.
Qed.

Lemma legacy_create_account_keeps d now a admin seed : plain_draws d -> keeps (legacy_create_account (St := St) E d now a admin seed).
Proof.
  intros Hd. unfold legacy_create_account. checks. apply (hoare_bind _ (fun _ r => wf_ring r /\ dict_get (accounts r) a = None)).
  - eapply hoare_weaken; [apply account_absent_keeps|done|]. by intros [] r.
  - intros _. apply (hoare_bind _ (fun key r => (wf_ring r /\ dict_get (accounts r) a = None) /\ is_argon2 key = false)).
    + intros m Hm. cbn. destruct (draw_secret E d admin seed) as [key|] eqn:Eg; [|by destruct Hm]. split; [done|]. by eapply draw_secret_plain.
    + intros key. apply hoare_fact. intros Hp. by apply install_account_keeps.
Qed.

Lemma delete_account_keeps a : keeps (delete_account (St := St) a).
Proof.
  unfold delete_account. apply (hoare_bind _ (fun _ => wf_ring)); [intros m Hm; cbn; by destruct (require_account _ a)|intros _].
  apply (hoare_ring _ _ _ wf_ring); [intros r; apply discard_account_wf|]. by apply hoare_silent; [apply save_accounts_silent|].
Qed.

Lemma register_keeps generate d a us role : (forall key, generate = Ok key -> is_argon2 key = false) -> keeps (register_with (St := St) E generate d a us role).
Proof.
  intros Hgen. unfold register_with. apply (hoare_bind _ (fun _ => wf_ring)); [intros m Hm; cbn; by destruct (validate_account_user_role role)|intros resolved].
  checks. apply (hoare_bind _ (fun account r => wf_ring r /\ dict_get (accounts r) a = Some account /\ dict_get (ac_users account) us = None)).
  { intros m Hm. unfold user_absent, require_account. destruct (dict_get (accounts (mg_ring m)) a) as [account|] eqn:Ea; [|done]. by destruct (dict_get (ac_users account) us) eqn:Eu. }
  intros account. apply (hoare_bind _ (fun key r => (wf_ring r /\ dict_get (accounts r) a = Some account /\ dict_get (ac_users account) us = None) /\ is_argon2 key = false)).
  { intros m Hm. cbn. destruct generate as [key|]; [|by destruct Hm]. split; [done|auto]. }
  intros key. apply hoare_fact. intros Hp. unfold install_user. apply (hoare_ring _ _ _ (unindexed a us (key_info E d (Some resolved) key))).
  { intros r (Hr & Ha & Hu). apply write_unindexed; [done|done| |apply key_info_wf]. eapply no_entries_absent; [apply Hr|].
    intros info (acc & Hacc & Hi)%get_user_some. congruence. }
  apply (hoare_ring _ _ _ wf_ring); [intros r; by apply index_new_key|].
  apply (hoare_bind _ (fun _ => wf_ring)); [by apply hoare_silent; [apply save_users_silent|intros []]|intros _ m Hm; exact Hm].
Qed.

(** The looked-up account and user. *)
Definition found (a us : pystr) (p : AccountInfo * user_info) (r : ring) : Prop :=
  dict_get (accounts r) a = Some p.1 /\ dict_get (ac_users p.1) us = Some p.2.

Lemma found_user a us p r : found a us p r -> get_user r a us = Some p.2.
Proof. intros [H1 H2]. apply get_user_some. eauto. Qed.

Lemma require_user_keeps a us : hoare wf_ring (require_user (St := St) a us) (fun res r => match res with Ok p => wf_ring r /\ found a us p r | Err _ => wf_ring r end).
Proof. by apply hoare_require_user. Qed.

Lemma bind_found {A} a us (k : AccountInfo * user_info -> ST mgr A) (Q : result A -> ring -> Prop) :
  (forall r, wf_ring r -> Q (Err NotFoundError) r) -> (forall p, hoare (fun r => wf_ring r /\ found a us p r) (k p) Q) -> hoare wf_ring (require_user a us ≫= k) Q.
Proof. intros H1 H2. apply (hoare_bind _ (fun p r => wf_ring r /\ found a us p r)); [by apply hoare_require_user|done]. Qed.

Lemma save_keeps a : keeps (save_users_json (St := St) a).
Proof. by apply hoare_silent; [apply save_users_silent|]. Qed.

Lemma regenerate_keeps generate d a us : (forall key, generate = Ok key -> is_argon2 key = false) -> keeps (regenerate_with (St := St) E generate d a us).
Proof.
  intros Hgen. unfold regenerate_with. apply bind_found; [done|]. intros [account info]. case_bool_decide; [by intros m [Hm _]|].
  apply (hoare_ring _ _ _ (fun r => wf_ring r /\ found a us (account, info) r /\ no_entries (prefix_index r) a us)).
  { intros r [Hr Hf]. split_and!; [apply (wf_ring_index r (index_drop _ _ _ (prefix_index r)) Hr), wf_drop, Hr|done|].
    eapply drop_no_entries; [apply Hr|by apply (found_user _ _ _ _ Hf)]. }
  apply (hoare_bind _ (fun key r => (wf_ring r /\ found a us (account, info) r /\ no_entries (prefix_index r) a us) /\ is_argon2 key = false)).
  { intros m Hm. cbn. destruct generate as [key|]; [split; [done|auto]|by destruct Hm]. }
  intros key. apply hoare_fact. intros Hp. apply (hoare_ring _ _ _ (unindexed a us (key_info E d (ui_role info) key))).
  { intros r (Hr & [Ha Hu] & Hn). apply write_unindexed; [done|done|done|apply key_info_wf]. }
  destruct (ui_role info) as [role|]; [|by intros m (Hm & _)].
  apply (hoare_bind _ (fun role' r => unindexed a us (key_info E d (Some role) key) r /\ role' = role)); [by intros m Hm|].
  intros role'. apply hoare_fact. intros ->. apply (hoare_ring _ _ _ wf_ring); [intros r; by apply index_new_key|].
  apply (hoare_bind _ (fun _ => wf_ring)); [eapply hoare_weaken; [apply save_keeps|done|by intros []]|by intros _ m Hm].
Qed.

Lemma set_role_keeps a us role : keeps (set_role (St := St) a us role).
Proof.
  unfold set_role. apply (hoare_bind _ (fun _ => wf_ring)); [intros m Hm; cbn; by destruct (validate_account_user_role role)|intros resolved].
  apply bind_found; [done|]. intros [account info]. case_bool_decide as Hdel; [by intros m [Hm _]|]. apply eq_None_not_Some in Hdel.
  set (f := index_role a us resolved info).
  set (g := set_account a (with_users (dict_set (ac_users account) us (MkInfo (Some resolved) (ui_key info) (ui_key_prefix info) None)) account)).
  assert (forall r, wf_ring r -> found a us (account, info) r -> wf_ring (set_index f (g r))) as Hstep.
  { intros r Hr Hf. pose proof Hf as [Ha Hu]. cbn [fst snd] in *. apply wf_ring_set; [done|apply dict_set_nodup; by eapply wr_users|].
    eapply wf_index_ext; [intros; symmetry; by apply get_user_write|]. apply (wf_role _ _ a us info resolved); [apply Hr|by apply (found_user _ _ _ _ Hf)|done]. }
  apply (hoare_ring _ _ _ (fun r => wf_ring (set_index f r))); [intros r [Hr Hf]; by apply Hstep|].
  apply (hoare_ring _ _ _ wf_ring); [done|apply save_keeps].
Qed.

(** Writing back what was there. *)
Lemma dict_set_id {A} (d : list (pystr * A)) k v : dict_get d k = Some v -> dict_set d k v = d.
Proof.
  induction d as [|[k' v'] d IH]; [done|]. cbn [dict_get dict_set]. destruct (seqb k' k) eqn:Ek; [intros [= ->]; by apply seqb_true in Ek as ->|].
  intros H. by rewrite IH.
Qed.

Lemma dict_set_set {A} (d : list (pystr * A)) k v w : dict_set (dict_set d k v) k w = dict_set d k w.
Proof.
  induction d as [|[k' v'] d IH]; cbn [dict_set]; [by rewrite (proj2 (seqb_true k k) eq_refl)|]. destruct (seqb k' k) eqn:Ek; cbn [dict_set].
  - by rewrite (proj2 (seqb_true k k) eq_refl).
  - by rewrite Ek, IH.
Qed.

Lemma write_back r a account us info info' : dict_get (accounts r) a = Some account -> dict_get (ac_users account) us = Some info ->
  set_account a (with_users (dict_set (ac_users account) us info) account) (set_account a (with_users (dict_set (ac_users account) us info') account) r) = r.
Proof.
  intros Ha Hu. unfold set_account. cbn [accounts prefix_index user_group_ids]. rewrite dict_set_set, (dict_set_id (ac_users account)) by done.
  replace (with_users (ac_users account) account) with account by by destruct account. rewrite dict_set_id by done. by destruct r.
Qed.

(** Cancelling the save would leave the fence without the roll-back. *)
Lemma begin_user_deletion_keeps a us del : hoare wf_ring (begin_user_deletion (St := St) a us del) (fun res r => calm res -> wf_ring r).
Proof.
  unfold begin_user_deletion. apply bind_found; [done|]. intros [account info]. destruct (fenced info); [by intros m [Hm _]|]. destruct (_ && _); [by intros m [Hm _]|].
  set (fence := MkInfo (ui_role info) [] [] (Some del)). set (put := fun i => set_account a (with_users (dict_set (ac_users account) us i) account)).
  apply (hoare_ring _ _ _ (fun r => exists r0, r = put fence r0 /\ wf_ring r0 /\ found a us (account, info) r0)); [intros r H; by exists r|].
  apply (hoare_bind _ (fun _ r => exists r0, r = put fence r0 /\ wf_ring r0 /\ found a us (account, info) r0)).
  - apply (hoare_except _ _ _ _ (fun _ => wf_ring)); [apply save_users_silent|done| |by intros|by intros|].
    2:{ intros e r He _ Hc. by rewrite (Hc e eq_refl) in He. }
    apply hoare_set. intros r (r0 & -> & Hr0 & [Ha Hu]). unfold put. by rewrite write_back.
  - intros _. apply (hoare_ring _ _ _ wf_ring); [|by intros m Hm]. intros r (r0 & -> & Hr0 & Hf). pose proof Hf as [Ha Hu]. cbn [fst snd] in *.
    destruct (wf_remove _ _ a us info (wr_index _ Hr0) (found_user _ _ _ _ Hf)) as [Hix Hn].
    pose proof (wf_ring_index r0 _ Hr0 Hix) as Hr1.
    apply (wf_ring_write (set_index (fun _ => remove_key_index_entry a us info (prefix_index r0)) r0) a account us fence Hr1 Ha Hn).
    split; [done|by left].
Qed.

Lemma replace_user_deletion_task_keeps a us expected del : keeps (replace_user_deletion_task (St := St) a us expected del).
Proof.
  unfold replace_user_deletion_task. apply bind_found; [done|]. intros [account info]. destruct (ui_deletion info) as [cur|] eqn:Ec; [|by intros m [Hm _]].
  destruct (negb _); [by intros m [Hm _]|]. set (fence := fun d => MkInfo (ui_role info) (ui_key info) (ui_key_prefix info) (Some d)).
  set (put := fun i => set_account a (with_users (dict_set (ac_users account) us i) account)).
  apply (hoare_ring _ _ _ (fun r => exists r0, r = put (fence del) r0 /\ wf_ring r0 /\ found a us (account, info) r0)); [intros r H; by exists r|].
  assert (fence cur = info) as Hback by (unfold fence; destruct info; cbn in *; congruence).
  apply (hoare_bind _ (fun _ => wf_ring)); [|by intros _ m Hm].
  assert (forall r0, wf_ring r0 -> found a us (account, info) r0 -> wf_ring (put (fence del) r0)) as Hput.
  { intros r0 Hr0 Hf. pose proof Hf as [Ha Hu]. cbn [fst snd] in *. pose proof (wf_infos _ _ (wr_index _ Hr0) a us info (found_user _ _ _ _ Hf)) as Hwi.
    assert (ui_key info = []) as Hk by (apply Hwi; by rewrite Ec). apply wf_ring_write; [done|done| |].
    - eapply no_entries_absent; [apply Hr0|]. intros i Hi. rewrite (found_user _ _ _ _ Hf) in Hi. by injection Hi as <-.
    - split; [done|]. cbn. apply Hwi. }
  apply (hoare_except _ _ _ _ (fun _ => wf_ring)); [apply save_users_silent| | |done|done|].
  3:{ intros e r _ (r0 & -> & Hr0 & Hf). by apply Hput. }
  - intros [] r (r0 & -> & Hr0 & Hf). by apply Hput.
  - apply hoare_set. intros r (r0 & -> & Hr0 & [Ha Hu]). change (wf_ring (put (fence cur) (put (fence del) r0))). rewrite Hback. unfold put. by rewrite write_back.
Qed.

Lemma rebuild_wf a r : wf_ring r -> wf_ring (rebuild_account_group_index a r).
Proof. apply wf_ring_groups. Qed.

(** A change of groups alone. *)
Lemma set_groups_wf a account gs r : wf_ring r -> dict_get (accounts r) a = Some account -> wf_ring (set_account a (with_groups gs account) r).
Proof.
  intros Hr Ha. apply wf_ring_set; [done|exact (wr_users r Hr a account Ha)|]. eapply wf_index_ext; [|apply Hr]. intros a' us. rewrite get_user_set.
  destruct (decide (a' = a)) as [->|]; [|done]. unfold get_user. rewrite Ha. done.
Qed.

Lemma finish_user_deletion_keeps a us task : keeps (finish_user_deletion (St := St) a us task).
Proof.
  intros m Hm. unfold finish_user_deletion. destruct (dict_get (accounts (mg_ring m)) a) as [account|] eqn:Ea; [|done].
  destruct (dict_get (ac_users account) us) as [info|] eqn:Eu; [|done]. case_bool_decide as Htask; cbn [negb]; [|done].
  set (gs := leave_groups us (ac_groups account)). set (removed := with_users (dict_pop (ac_users account) us) account).
  pose proof (wr_users _ Hm _ _ Ea) as Hnd. pose proof (proj2 (get_user_some _ a us info) (ex_intro _ _ (conj Ea Eu))) as Hget.
  pose proof (wf_infos _ _ (wr_index _ Hm) _ _ _ Hget) as Hwi.
  assert (ui_key info = []) as Hk by (apply Hwi; by destruct (ui_deletion info)).
  assert (forall us', us' = us -> no_entries (prefix_index (mg_ring m)) a us') as Hn.
  { intros us' ->. eapply no_entries_absent; [apply Hm|]. intros i Hi. congruence. }
  assert (wf_ring (set_account a removed (mg_ring m)) /\ dict_get (accounts (set_account a removed (mg_ring m))) a = Some removed
          /\ no_entries (prefix_index (set_account a removed (mg_ring m))) a us) as Hrem.
  { split_and!; [|cbn; rewrite dict_set_get; by rewrite (proj2 (seqb_true a a) eq_refl)|by apply Hn].
    apply wf_ring_set; [done|by apply dict_pop_nodup|]. eapply wf_index_ext; [intros; symmetry; by apply get_user_pop|].
    apply wf_upd; [apply Hm|by apply Hn|done]. }
  set (P := fun r => wf_ring r /\ dict_get (accounts r) a = Some removed /\ no_entries (prefix_index r) a us).
  apply (hoare_ring (set_account a removed) _ (fun r => r = mg_ring m) P (fun _ => wf_ring)); [intros r ->; exact Hrem| |done].
  apply (hoare_bind _ (fun _ => P)).
  - apply (hoare_except P _ _ _ (fun _ => wf_ring)); [|by intros| |done|done|by intros e r _ [? _]].
    + apply silent_bind; [apply save_users_silent|intros _]. case_bool_decide; [by intros m0|apply write_groups_silent].
    + apply hoare_set. intros r (Hr & Ha & Hne). apply rebuild_wf, (wf_ring_write r a removed us info Hr Ha Hne Hwi).
  - intros _. apply (hoare_bind _ (fun _ => wf_ring)); [|by intros _ m0 Hm0]. case_bool_decide; [by intros m0 (H0 & _)|].
    apply hoare_set. intros r (Hr & Ha & _). by apply rebuild_wf, set_groups_wf.
Qed.

(** Groups never touch keys. *)
Lemma replace_groups_keeps a account gs : hoare (fun r => wf_ring r /\ dict_get (accounts r) a = Some account) (replace_groups (St := St) a account gs) (fun _ => wf_ring).
Proof.
  unfold replace_groups. apply (hoare_bind _ (fun _ r => wf_ring r /\ dict_get (accounts r) a = Some account)).
  - apply hoare_silent; [apply write_groups_silent|]. by intros [] r [? ?].
  - intros _. apply hoare_set. intros r [Hr Ha]. by apply rebuild_wf, set_groups_wf.
Qed.

Lemma bind_account {A} a (k : AccountInfo -> ST mgr A) (Q : result A -> ring -> Prop) :
  (forall r e, wf_ring r -> Q (Err e) r) -> (forall account, hoare (fun r => wf_ring r /\ dict_get (accounts r) a = Some account) (k account) Q) ->
  hoare wf_ring (account_of a ≫= k) Q.
Proof.
  intros H1 H2. apply (hoare_bind _ (fun account r => wf_ring r /\ dict_get (accounts r) a = Some account)); [|done].
  intros m Hm. unfold account_of, require_account. destruct (dict_get _ a); [done|by apply H1].
Qed.

Lemma bind_group {A} P a g (k : list pystr -> ST mgr A) (Q : result A -> ring -> Prop) :
  (forall r e, P r -> Q (Err e) r) -> (forall members, hoare P (k members) Q) -> hoare P (group_of a g ≫= k) Q.
Proof.
  intros H1 H2. apply (hoare_bind _ (fun _ => P)); [|done]. intros m Hm. unfold group_of. destruct (require_group _ a g); [done|by apply H1].
Qed.

Ltac group_op := first [by apply replace_groups_keeps | by intros m [Hm _] | apply (hoare_bind _ (fun _ => wf_ring)); [eapply hoare_weaken; [apply replace_groups_keeps|done|by intros []]|by intros _ m Hm]].

Lemma create_group_keeps a g : keeps (create_group (St := St) a g).
Proof. unfold create_group. checks. apply bind_account; [done|]. intros account. destruct (dict_get _ g); group_op. Qed.

Lemma add_group_member_keeps a g us : keeps (add_group_member (St := St) a g us).
Proof.
  unfold add_group_member. apply bind_account; [done|]. intros account. destruct (dict_get _ us); [|group_op].
  apply bind_group; [by intros r e [? _]|]. intros members. destruct (mem us members); group_op.
Qed.

Lemma remove_group_member_keeps a g us : keeps (remove_group_member (St := St) a g us).
Proof.
  unfold remove_group_member. apply bind_account; [done|]. intros account. apply bind_group; [by intros r e [? _]|]. intros members. destruct (negb _); group_op.
Qed.

Lemma delete_group_keeps a g : keeps (delete_group (St := St) a g).
Proof.
  unfold delete_group. apply bind_account; [done|]. intros account. apply bind_group; [by intros r e [? _]|]. intros [|]; group_op.
Qed.

(** ** Loading *)

(** Files as the managers write them: dicts, sound users, and groups of users. *)
Definition users_ok (us : users) : Prop := NoDup (fst <$> us) /\ forall k info, dict_get us k = Some info -> wf_info info.
Definition members_ok (us : users) (gs : groups) : Prop :=
  NoDup (fst <$> gs) /\ forall g members k, dict_get gs g = Some members -> k ∈ members -> is_Some (dict_get us k).

(** The files of the accounts in [L] are sound. *)
Definition files_on (L : pystr -> Prop) (s : St) : Prop :=
  forall a us gs, L a -> kf_reads a s = (Ok us, Ok gs) -> users_ok (default [] us) /\ members_ok (default [] us) (default [] gs).
Definition files_ok (s : St) : Prop := files_on (fun _ => True) s.

Lemma files_on_frame L s s' : files_on L s -> (forall a, L a -> kf_reads a s' = kf_reads a s) -> files_on L s'.
Proof. intros Hs Hf a us gs HL. rewrite Hf by done. by apply Hs. Qed.

Lemma save_users_for_files L a accs s : files_on L s -> ~ L a -> files_on L (save_users_json_for a accs s).2.
Proof.
  intros Hs Hna. eapply files_on_frame; [exact Hs|]. intros b Hb. unfold save_users_json_for, with_exact_lock.
  pose proof (kf_acquire_frame (users_path a) s b) as H1. destruct (kf_acquire _ s) as [[lease|e] s1]; [|by destruct e]. cbn in H1.
  set (body := match dict_get accs a with None => _ | Some account => _ end).
  assert (kf_reads b (body s1).2 = kf_reads b s1) as H2.
  { unfold body. destruct (dict_get accs a) as [account|]; [|done]. apply kf_users_frame. by intros ->. }
  destruct (body s1) as [res s2]. cbn in H2. pose proof (kf_release_frame lease s2 b) as H3.
  destruct (kf_release lease s2) as [[[]|] s3]; cbn in *; congruence.
Qed.

(** The part of a load that concerns one account: [ix] holds nothing of the users in
    [pending] yet. *)
Record loading (r : ring) (a : pystr) (account : AccountInfo) (pending : list pystr) (ix : index) : Prop := {
  ld_wf : wf_index (get_user (set_account a account r)) ix;
  ld_users : users_ok (ac_users account);
  ld_pending : forall us, us ∈ pending -> no_entries ix a us }.

Lemma add_entries pfx e ix a us : no_entries ix a us -> owner e <> (a, us) -> no_entries (index_add pfx e ix) a us.
Proof. intros Hn Ho pfx' bucket x Hb Hx. destruct (index_add_cases _ _ _ _ _ _ Hb Hx) as [(-> & _)|(b & Hb' & Hx')]; [done|by apply (Hn _ _ _ Hb' Hx')]. Qed.

(** Indexing the key a user holds in the file. *)
Lemma load_entry r a account us pending ix info pfx : loading r a account (us :: pending) ix -> us ∉ pending -> dict_get (ac_users account) us = Some info ->
  ui_key info <> [] -> (pfx <> [] -> info_prefix info = pfx) ->
  loading r a account pending (index_add pfx (MkKeyEntry a us (info_role info) (ui_key info) (is_argon2 (ui_key info))) ix).
Proof.
  intros [Hwf Hok Hp] Hnin Hu Hk Hpfx. split; [|done|].
  - destruct pfx as [|c pfx]; [done|]. apply (wf_add _ _ _ _ info); cbn [ke_account_id ke_user_id ke_role ke_key_or_hash ke_is_hashed]; [done|apply Hp; by left| |done|done|done|done|by apply Hpfx].
    rewrite get_user_set. by rewrite decide_True.
  - intros us' Hin. apply add_entries; [apply Hp; by right|]. unfold owner. cbn. intros [= ->]. done.
Qed.

Lemma load_user_ok L allow salts r a account us info pending ix accs s account' ix' s' :
  loading r a account (us :: pending) ix -> us ∉ pending -> dict_get (ac_users account) us = Some info -> files_on L s -> ~ L a ->
  load_user E allow salts a accs account us info ix s = (Ok (account', ix'), s') ->
  loading r a account' pending ix' /\ files_on L s' /\ (forall us', us' <> us -> dict_get (ac_users account') us' = dict_get (ac_users account) us').
Proof.
  intros Hl Hnin Hu Hs HL. pose proof Hl as [Hwf [Hnd Hok] Hp]. pose proof (Hok us info Hu) as Hwi. unfold load_user.
  destruct (nonempty (ui_key info)) eqn:Ek; cbn [negb].
  2:{ intros [= <- <- <-]. split_and!; [|done|done]. split; [done|done|]. intros us' Hin. apply Hp. by right. }
  apply nonempty_true in Ek. destruct (is_argon2 (ui_key info)) eqn:Ea.
  { intros [= <- <- <-]. split_and!; [|done|done]. rewrite <- Ea. apply load_entry; [done|done|done|done|]. intros Hpfx. unfold info_prefix. by rewrite (proj2 (nonempty_true _) Hpfx). }
  assert (get_key_prefix (ui_key info) <> []) as Hpne by (by destruct (ui_key info)).
  destruct (api_key_hashing_enabled E && allow).
  2:{ intros [= <- <- <-]. split_and!; [|done|done]. rewrite <- Ea. apply load_entry; [done|done|done|done|]. intros _. unfold info_prefix.
      destruct Hwi as [_ [->| ->]]; [done|done|]. by rewrite (proj2 (nonempty_true _) Hpne). }
  set (hash := argon2_hash E _ _). set (info' := MkInfo (ui_role info) hash (get_key_prefix (ui_key info)) (ui_deletion info)).
  set (account1 := with_users (dict_set (ac_users account) us info') account). rewrite st_bind_unfold.
  assert (is_argon2 hash = true) as Hh by apply (argon2_form E HE). assert (hash <> []) as Hhne by (intros Hn; by rewrite Hn in Hh).
  assert (wf_info info') as Hwi'. { split; [|by cbn; rewrite Hh]. cbn. intros Hd. by destruct Hwi as [Hwd _]; destruct (Ek (Hwd Hd)). }
  assert (users_ok (ac_users account1)) as Hok1.
  { split; [by apply dict_set_nodup|]. intros k i. cbn. rewrite dict_set_get. destruct (seqb us k); [by intros [= <-]|apply Hok]. }
  pose proof (save_users_for_files L a (dict_set accs a account1) s Hs HL) as Hfiles.
  destruct (save_users_json_for a _ s) as [[[]|] s1]; [|done]. intros [= <- <- <-].
  split_and!; [| |].
  - rewrite <- Hh. change (info_role info) with (info_role info'). change hash with (ui_key info'). apply load_entry; [|done| |done|].
    + split; [|done|done]. eapply wf_index_ext; [|apply (wf_upd _ _ a us (Some info') Hwf); [apply Hp; by left|by intros ? [= <-]]].
      intros a' us'. unfold upd. rewrite !get_user_set. cbn [account1 with_users ac_users]. destruct (decide (a' = a)) as [->|Hne]; [|by rewrite decide_False by congruence].
      rewrite dict_set_get. destruct (seqb us us') eqn:Es; [apply seqb_true in Es as ->; by rewrite decide_True|]. apply seqb_false in Es. by rewrite decide_False by congruence.
    + cbn. rewrite dict_set_get. by rewrite (proj2 (seqb_true us us) eq_refl).
    + intros _. unfold info_prefix. cbn. by rewrite (proj2 (nonempty_true _) Hpne).
  - done.
  - intros us' Hne. cbn. rewrite dict_set_get. by rewrite (proj2 (seqb_false us us') (not_eq_sym Hne)).
Qed.

Lemma load_users_ok L allow salts r a accs pending : ~ L a -> forall account ix s account' ix' s',
  loading r a account (fst <$> pending) ix -> NoDup (fst <$> pending) -> (forall k info, (k, info) ∈ pending -> dict_get (ac_users account) k = Some info) -> files_on L s ->
  load_users E allow salts a accs account pending ix s = (Ok (account', ix'), s') -> loading r a account' [] ix' /\ files_on L s'.
Proof.
  intros HL. induction pending as [|[us info] pending IH]; intros account ix s account' ix' s' Hl Hnd Hin Hs; cbn [load_users]; [by intros [= <- <- <-]|].
  rewrite st_bind_unfold. destruct (load_user _ _ _ _ _ _ _ _ _ s) as [[[account1 ix1]|] s1] eqn:El; [|done].
  cbn [fmap list_fmap fst] in *. apply NoDup_cons in Hnd as [Hn Hnd]. destruct (load_user_ok _ _ _ _ _ _ _ _ _ _ _ _ _ _ _ Hl Hn (Hin _ _ (list_elem_of_here _ _)) Hs HL El) as (Hl1 & Hs1 & Hsame).
  apply IH; [done|done| |done]. intros k i Hk. rewrite Hsame; [apply Hin; by right|]. intros ->. apply Hn, list_elem_of_fmap. by exists (us, i).
Qed.

Lemma build_state_ok allow salts pending : forall r s r' s', NoDup (fst <$> pending) -> (forall a, a ∈ (fst <$> pending) -> dict_get (accounts r) a = None) ->
  wf_ring r -> files_on (fun a => a ∈ (fst <$> pending)) s -> build_state E allow salts pending r s = (Ok r', s') -> wf_ring r'.
Proof.
  induction pending as [|[a created] pending IH]; intros r s r' s' Hnd Hnew Hr Hs; cbn [build_state]; [by intros [= <- <-]|].
  rewrite st_bind_unfold. destruct (kf_read_users a s) as [ous|] eqn:Eu; [|done]. cbn [fmap result_fmap]. rewrite st_bind_unfold.
  destruct (kf_read_groups a s) as [ogs|] eqn:Eg; [|done]. cbn [fmap result_fmap]. rewrite st_bind_unfold.
  cbn [fmap list_fmap fst] in *. apply NoDup_cons in Hnd as [Hn Hnd]. pose proof (Hnew a (list_elem_of_here _ _)) as Hnone.
  assert (users_ok (default [] ous)) as Hok by (apply (Hs a ous ogs); [left|unfold kf_reads; by rewrite Eu, Eg]).
  assert (files_on (fun a' => a' ∈ (fst <$> pending)) s) as Hs' by (intros a' us gs Ha'; apply Hs; by right).
  set (account := MkAccount created (default [] ous) (default [] ogs)).
  destruct (load_users _ _ _ _ _ _ _ _ s) as [[[account1 ix1]|] s1] eqn:El; [|done].
  assert (forall us, no_entries (prefix_index r) a us) as Hno.
  { intros us. eapply no_entries_absent; [apply Hr|]. intros info (acc & Hacc & _)%get_user_some. congruence. }
  assert (loading r a account (fst <$> default [] ous) (prefix_index r)) as Hl.
  { split; [|done|by intros]. pose proof (wr_index _ Hr) as [H1 H2 H3]. split; [|done|].
    - intros pfx bucket e Hb He. destruct (H1 _ _ _ Hb He) as (info & Hi & Hrest). exists info. split; [|done]. rewrite get_user_set.
      destruct (decide (ke_account_id e = a)) as [Heq|]; [|done]. by destruct (Hno (ke_user_id e) _ _ _ Hb He); unfold owner; rewrite Heq.
    - intros a' us info. rewrite get_user_set. destruct (decide (a' = a)); [apply Hok|apply H3]. }
  destruct (load_users_ok _ _ _ r _ _ _ Hn _ _ _ _ _ _ Hl (proj1 Hok) (fun k info => dict_get_in _ k info (proj1 Hok)) Hs' El) as [[Hwf1 Hok1 _] Hs1].
  apply IH; [done| | |done].
  - intros a' Ha'. cbn. rewrite dict_set_get. rewrite (proj2 (seqb_false a a')); [apply Hnew; by right|]. by intros ->.
  - by apply wf_ring_set; [|apply Hok1|].
Qed.

Definition accounts_ok (s : St) : Prop := forall l, kf_read_accounts s = Ok (Some l) -> NoDup (fst <$> l).

Lemma empty_wf : wf_ring empty_ring.
Proof.
  assert (forall pfx (bucket : list UserKeyEntry), (∅ : index) !! pfx = Some bucket -> False) as Hno by (intros pfx bucket; by rewrite lookup_empty).
  split; [|constructor|done]. split; [intros pfx bucket e H; by destruct (Hno _ _ H)|intros pfx bucket H; by destruct (Hno _ _ H)|done].
Qed.

Lemma load_ok salts now m m' : files_ok (mg_store m) -> accounts_ok (mg_store m) -> load E salts now m = (Ok tt, m') -> wf_ring (mg_ring m').
Proof.
  intros Hf Ha. unfold load. rewrite st_bind_unfold. destruct (kf_read_accounts (mg_store m)) as [[l|]|] eqn:El; [| |done]; rewrite st_bind_unfold.
  - cbn [mret ST_ret]. destruct (build_state E true salts l empty_ring (mg_store m)) as [[r|] s'] eqn:Eb; [|done]. intros [= <-]. apply build_state_ok in Eb; [done|by apply Ha|done|apply empty_wf|by intros a us gs _; apply Hf].
  - rewrite st_bind_unfold. pose proof (files_on_frame _ _ _ Hf (fun a _ => kf_accounts_frame [(u "default", now)] (mg_store m) a)) as Hf1.
    destruct (kf_write_accounts _ _) as [[[]|] s1]; [|done]. cbn in Hf1. cbn [mret ST_ret]. destruct (build_state E true salts _ empty_ring s1) as [[r|] s'] eqn:Eb; [|done].
    intros [= <-]. apply build_state_ok in Eb; [done|apply NoDup_singleton|done|apply empty_wf|by intros a us gs _; apply Hf1].
Qed.

Lemma reload_ok salts m : wf_ring (mg_ring m) -> files_ok (mg_store m) -> accounts_ok (mg_store m) -> wf_ring (mg_ring (reload E salts m).2).
Proof.
  intros Hr Hf Ha. unfold reload. rewrite st_bind_unfold. destruct (kf_read_accounts (mg_store m)) as [[l|]|] eqn:El; [|done|done]. rewrite st_bind_unfold.
  destruct (build_state E false salts l empty_ring (mg_store m)) as [[r|] s'] eqn:Eb; [|done]. cbn. apply build_state_ok in Eb; [done|by apply Ha|done|apply empty_wf|by intros a us gs _; apply Hf].
Qed.

(** ** Every run *)

Inductive key_op :=
| KCreate (d : draws) (now a us : pystr) (seed : option pystr)
| KLegacyCreate (d : draws) (now a us : pystr) (seed : option pystr)
| KDelete (a : pystr)
| KRegister (d : draws) (a us role : pystr) (seed : option pystr)
| KLegacyRegister (d : draws) (a us role : pystr) (seed : option pystr)
| KRegenerate (d : draws) (a us : pystr) (seed : option pystr)
| KLegacyRegenerate (d : draws) (a us : pystr) (seed : option pystr)
| KSetRole (a us role : pystr)
| KBeginDeletion (a us : pystr) (del : deletion)
| KReplaceDeletion (a us expected : pystr) (del : deletion)
| KFinishDeletion (a us task : pystr)
| KCreateGroup (a g : pystr)
| KAddMember (a g us : pystr)
| KRemoveMember (a g us : pystr)
| KDeleteGroup (a g : pystr)
| KReload (salts : pystr -> pystr).

Definition forget {A} (op : ST mgr A) : ST mgr unit := _ ← op; mret tt.

Definition run_op (op : key_op) : ST mgr unit :=
  match op with
  | KCreate d now a us seed => forget (create_account E d now a us seed)
  | KLegacyCreate d now a us seed => forget (legacy_create_account E d now a us seed)
  | KDelete a => delete_account a
  | KRegister d a us role seed => forget (register_user E d a us role seed)
  | KLegacyRegister d a us role seed => forget (legacy_register_user E d a us role seed)
  | KRegenerate d a us seed => forget (regenerate_key E d a us seed)
  | KLegacyRegenerate d a us seed => forget (legacy_regenerate_key E d a us seed)
  | KSetRole a us role => set_role a us role
  | KBeginDeletion a us del => forget (begin_user_deletion a us del)
  | KReplaceDeletion a us expected del => forget (replace_user_deletion_task a us expected del)
  | KFinishDeletion a us task => forget (finish_user_deletion a us task)
  | KCreateGroup a g => forget (create_group a g)
  | KAddMember a g us => forget (add_group_member a g us)
  | KRemoveMember a g us => forget (remove_group_member a g us)
  | KDeleteGroup a g => delete_group a g
  | KReload salts => reload E salts
  end.

(** Random tokens are hexadecimal; files that are read again are as managers write them;
    [begin_user_deletion] is not cancelled while it saves. *)
Definition op_ok (op : key_op) (m : mgr) : Prop :=
  match op with
  | KLegacyCreate d _ _ _ _ | KLegacyRegister d _ _ _ _ | KLegacyRegenerate d _ _ _ => plain_draws d
  | KReload _ => files_ok (mg_store m) /\ accounts_ok (mg_store m)
  | KBeginDeletion _ _ _ => calm (run_op op m).1
  | _ => True
  end.

Inductive reachable : mgr -> Prop :=
| reach_load salts now m m' : files_ok (mg_store m) -> accounts_ok (mg_store m) -> load E salts now m = (Ok tt, m') -> reachable m'
| reach_op op m : reachable m -> op_ok op m -> reachable (run_op op m).2.

Lemma forget_keeps {A} (op : ST mgr A) : keeps op -> keeps (forget op).
Proof. intros H. apply (hoare_bind _ (fun _ => wf_ring)); [eapply hoare_weaken; [exact H|done|by intros []]|by intros _ m Hm]. Qed.

Lemma forget_err {A} (op : ST mgr A) m : calm (forget op m).1 -> calm (op m).1.
Proof. unfold forget. rewrite st_bind_unfold. destruct (op m) as [[x|e] m']; [by intros _ e [=]|]. intros H e' [= <-]. by apply H. Qed.

Lemma forget_state {A} (op : ST mgr A) m : (forget op m).2 = (op m).2.
Proof. unfold forget. rewrite st_bind_unfold. by destruct (op m) as [[x|e] m']. Qed.

Lemma begin_deletion_run a us del m : wf_ring (mg_ring m) -> calm (run_op (KBeginDeletion a us del) m).1 -> wf_ring (mg_ring (run_op (KBeginDeletion a us del) m).2).
Proof. intros Hm Hc%forget_err. cbn [run_op]. rewrite forget_state. by apply begin_user_deletion_keeps. Qed.

Lemma reachable_wf m : reachable m -> wf_ring (mg_ring m).
Proof.
  induction 1 as [salts now m m' Hf Ha Hl|op m _ IH Hok]; [by eapply load_ok|].
  destruct op; try (by apply begin_deletion_run); cbn [run_op op_ok] in *; try (apply (forget_keeps _)); try done.
  - apply create_account_keeps.
  - by apply legacy_create_account_keeps.
  - by apply delete_account_keeps.
  - apply register_keeps. intros key. apply generate_plain.
  - apply register_keeps. intros key. by apply draw_secret_plain.
  - apply regenerate_keeps. intros key. apply generate_plain.
  - apply regenerate_keeps. intros key. by apply draw_secret_plain.
  - by apply set_role_keeps.
  - apply replace_user_deletion_task_keeps.
  - apply finish_user_deletion_keeps.
  - apply create_group_keeps.
  - apply add_group_member_keeps.
  - apply remove_group_member_keeps.
  - by apply delete_group_keeps.
  - destruct Hok. by apply reload_ok.
Qed.

(** ** Authentication *)

(** The key matches what is stored for the user. *)
Definition key_matches (info : user_info) (key : pystr) : Prop :=
  if is_argon2 (ui_key info) then argon2_verify E (ui_key info) key = Ok true else key = ui_key info.

(** The identity of a registered, active user who holds the key. *)
Definition holds (r : ring) (key : pystr) (id : ResolvedIdentity) : Prop :=
  exists a us info, get_user r a us = Some info /\ ui_deletion info = None /\ key_matches info key /\ id = MkIdentity (info_role info) (Some a) (Some us).

Lemma compare_true a b : compare_digest a b = Ok true -> a = b.
Proof. unfold compare_digest. destruct (_ && _); [|done]. by intros [= ?%seqb_true]. Qed.

Lemma active_key r a us info : wf_ring r -> get_user r a us = Some info -> ui_key info <> [] -> ui_deletion info = None.
Proof.
  intros Hr Hu Hk. destruct (ui_deletion info) eqn:Ed; [|done]. destruct (wf_infos _ _ (wr_index _ Hr) _ _ _ Hu) as [Hd _]. destruct Hk. apply Hd. by rewrite Ed.
Qed.

Lemma first_match_holds r key pfx bucket id : wf_ring r -> prefix_index r !! pfx = Some bucket -> first_match E key bucket = Ok id -> holds r key id.
Proof.
  intros Hr Hb. assert (forall l, (forall x, x ∈ l -> x ∈ bucket) -> first_match E key l = Ok id -> holds r key id) as Hl; [|by apply Hl].
  induction l as [|e l IH]; intros Hsub; cbn [first_match]; [done|]. destruct (verify_entry E key e) as [[]|] eqn:Ev; [| |done]; cbn [mbind result_bind].
  - intros [= <-]. destruct (wf_sound _ _ (wr_index _ Hr) _ _ _ Hb (Hsub e (list_elem_of_here _ _))) as (info & Hu & Hk & Hne & Hrole & Hh & _).
    exists (ke_account_id e), (ke_user_id e), info. split_and!; [done|by eapply active_key| |by rewrite Hrole].
    unfold key_matches, verify_entry in *. rewrite Hk, <- Hh in *. destruct (ke_is_hashed e); [done|by apply compare_true in Ev].
  - apply IH. intros x Hx. apply Hsub. by right.
Qed.

Lemma legacy_resolve_holds r key id : wf_ring r -> legacy_resolve E r key = Ok id -> (id = MkIdentity ROOT None None /\ key = root_key E) \/ holds r key id.
Proof.
  intros Hr. unfold legacy_resolve. destruct (negb _); [done|]. destruct (compare_digest key (root_key E)) as [[]|] eqn:Ec; [| |done]; cbn [mbind result_bind].
  - intros [= <-]. left. split; [done|by apply compare_true].
  - destruct (prefix_index r !! get_key_prefix key) as [bucket|] eqn:Eb; [|done]. intros Hf. right. by eapply first_match_holds.
Qed.

Lemma argon2_prefix key : is_argon2 (get_key_prefix key) = true -> is_argon2 key = true.
Proof.
  unfold is_argon2, get_key_prefix. rewrite !startswith_iff. intros H. etrans; [exact H|]. apply prefix_take.
Qed.

Lemma resolve_holds r key id : wf_ring r -> resolve E r key = Ok id -> (id = MkIdentity ROOT None None /\ key = root_key E) \/ holds r key id.
Proof.
  intros Hr. unfold resolve. destruct (nonempty key); [|done]. cbn [negb]. destruct (compare_digest key (root_key E)) as [[]|] eqn:Ec; [| |done]; cbn [mbind result_bind].
  { intros [= <-]. left. split; [done|by apply compare_true]. }
  destruct (is_new_format_key key); [|by apply legacy_resolve_holds]. unfold resolve_by_identity.
  destruct (parse_api_key key) as [[[a us] sec]|e]; cbn [mbind result_bind]; [|destruct (is_exception e); [by apply legacy_resolve_holds|done]].
  destruct (get_user r a us) as [info|] eqn:Eu; [|by apply legacy_resolve_holds]. destruct (nonempty (ui_key info)) eqn:Ek; cbn [negb]; [|by apply legacy_resolve_holds].
  apply nonempty_true in Ek. set (cond := is_argon2 (ui_key_prefix info) || is_argon2 (ui_key info)).
  assert (cond = is_argon2 (ui_key info)) as ->.
  { unfold cond. destruct (is_argon2 (ui_key info)) eqn:Ea; [apply orb_true_r|]. rewrite orb_false_r. apply not_true_iff_false. intros Hp.
    destruct (wf_infos _ _ (wr_index _ Hr) _ _ _ Eu) as [_ Hpre]. destruct (Hpre Ea) as [Hnil|Heq]; [by rewrite Hnil in Hp|].
    rewrite Heq in Hp. apply argon2_prefix in Hp. congruence. }
  destruct (if is_argon2 (ui_key info) then _ else _) as [[]|e] eqn:Ev; cbn [mbind result_bind].
  - intros [= <-]. right. exists a, us, info. split_and!; [done|by eapply active_key| |done]. unfold key_matches.
    destruct (is_argon2 (ui_key info)); [done|by apply compare_true in Ev].
  - by apply legacy_resolve_holds.
  - destruct (is_exception e); [by apply legacy_resolve_holds|done].
Qed.

(** The ring [r'] while [begin_user_deletion] awaits its save: the user is fenced, the
    index still holds the key. *)
Definition fencing (a us : pystr) (del : deletion) (r r' : ring) : Prop :=
  exists account info, found a us (account, info) r /\ fenced info = None /\ is_admin info && (active_admins (ac_users account) <=? 1)%nat = false
    /\ r' = set_account a (with_users (dict_set (ac_users account) us (MkInfo (ui_role info) [] [] (Some del))) account) r.

(** It is the ring the save starts from. *)
Lemma begin_user_deletion_saves a us del m r' : fencing a us del (mg_ring m) r' ->
  exists rest, begin_user_deletion (St := St) a us del m = (except_reraise (save_users_json a) rest.1 ≫= fun _ => rest.2) (MkManager r' (mg_store m)).
Proof.
  intros (account & info & [Ha Hu] & Hf & Had & ->). exists (write_user a account us info, (_ ← on_ring (set_index (remove_key_index_entry a us info)); mret (del, true))).
  unfold begin_user_deletion. rewrite st_bind_unfold. unfold require_user at 1, require_account. cbn [fst snd] in *. by rewrite Ha, Hu, Hf, Had.
Qed.

(** A fenced user has an empty key, so only the index can still know the user. *)
Lemma fencing_resolve a us del r r' key id : fencing a us del r r' -> resolve E r' key = Ok id ->
  resolve E r key = Ok id \/ legacy_resolve E r key = Ok id.
Proof.
  intros (account & info & [Ha Hu] & _ & _ & ->). cbn [fst snd] in *. set (r' := set_account _ _ r).
  assert (legacy_resolve E r' key = legacy_resolve E r key) as Hleg by done.
  unfold resolve. destruct (negb _); [by left|]. destruct (compare_digest key (root_key E)) as [[]|]; [by left| |by left]. cbn [mbind result_bind].
  destruct (is_new_format_key key); [|by left]. rewrite Hleg. unfold resolve_by_identity. destruct (parse_api_key key) as [[[a' us'] sec]|e]; [|by left].
  cbn [mbind result_bind]. unfold r'. rewrite get_user_write by done. unfold upd. destruct (decide _); [|by left]. by right.
Qed.

(** C14: In every state the managers reach, a key authenticates as root only if it is the
    root key, and as a user only if that user is registered, is not being deleted,
    holds that key now and has the role returned: no stale entry of the prefix index
    grants access. The store may fail at any point and a request may be cancelled at
    any save, with one exception: no [begin_user_deletion] has been cancelled during its
    save (one that was leaves its user's key working). While a [begin_user_deletion]
    awaits its save, with the user fenced and the index not yet cleaned, keys
    authenticate only as they could just before it. Operations are taken one at a time:
    another one's writes do not fall into that await. Files that are loaded are as the
    managers write them, and Argon2, SHA-256 and random tokens have their documented
    forms. *)
Theorem authentication_sound (m : mgr) (r : ring) (key : pystr) (id : ResolvedIdentity) :
  reachable m -> (r = mg_ring m \/ exists a us del, fencing a us del (mg_ring m) r) -> resolve E r key = Ok id ->
  (id = MkIdentity ROOT None None /\ key = root_key E) \/ holds (mg_ring m) key id.
Proof.
  intros Hm%reachable_wf [->|(a & us & del & Hf)] Hres; [by apply resolve_holds|].
  destruct (fencing_resolve _ _ _ _ _ _ _ Hf Hres); [by apply resolve_holds|by apply legacy_resolve_holds].
Qed.

(** The user holds a freshly generated key. *)
Definition issued (a us : pystr) (key : pystr) (r : ring) : Prop :=
  exists d role seed, generate_api_key E d a us seed = Ok key /\ get_user r a us = Some (key_info E d (Some role) key).

Lemma issued_resolves a us key r : issued a us key r -> is_ascii (root_key E) = true -> key <> root_key E ->
  resolve E r key = Ok (MkIdentity (get_user_role r a us) (Some a) (Some us)).
Proof.
  intros (d & role & seed & Hg & Hu) Hascii Hne. destruct (generate_api_key_parts _ _ _ _ _ _ Hg) as (sec & Hparse & Hnew & Hka & Hplain).
  assert (key <> []) as Hk by (by intros ->). unfold resolve. rewrite (proj2 (nonempty_true key) Hk). cbn [negb].
  unfold compare_digest at 1. rewrite Hka, Hascii. cbn [andb mbind result_bind]. rewrite (proj2 (seqb_false _ _) Hne), Hnew.
  unfold resolve_by_identity, get_user_role. rewrite Hparse. cbn [mbind result_bind]. rewrite Hu. unfold key_info, stored. cbn [ui_key ui_key_prefix].
  destruct (api_key_hashing_enabled E).
  - pose proof (argon2_form E HE (salt d) key) as Hh. destruct (nonempty (argon2_hash E (salt d) key)) eqn:En; [|apply nonempty_false in En; by rewrite En in Hh].
    rewrite Hh, orb_true_r. cbn [negb]. rewrite (argon2_correct E HE). by rewrite bool_decide_eq_true_2.
  - rewrite (proj2 (nonempty_true key) Hk), Hplain. cbn [negb orb]. change (is_argon2 []) with false. cbn [orb]. unfold compare_digest. rewrite Hka. cbn [andb mbind result_bind].
    by rewrite (proj2 (seqb_true key key) eq_refl).
Qed.

Definition issues (op : ST mgr pystr) (a us : pystr) : Prop := hoare (fun _ => True) op (fun res r => forall key, res = Ok key -> issued a us key r).

(** Steps before the key is installed. *)
Lemma bind_any {A B} P (op : ST mgr A) (k : A -> ST mgr B) (Q : result B -> ring -> Prop) :
  (forall e r, Q (Err e) r) -> (forall a, hoare (fun _ => True) (k a) Q) -> hoare P (op ≫= k) Q.
Proof. intros He Hk. apply (hoare_bind _ (fun _ _ => True)); [|done]. intros m _. destruct (op m).1; [done|apply He]. Qed.

Lemma bind_lift {A B} P (x : result A) (k : A -> ST mgr B) (Q : result B -> ring -> Prop) :
  (forall e r, Q (Err e) r) -> (forall a, x = Ok a -> hoare P (k a) Q) -> hoare P (st_lift x ≫= k) Q.
Proof. intros He Hk m HP. rewrite st_bind_unfold. cbn. destruct x as [a|e]; [by apply (Hk a eq_refl)|apply He]. Qed.

Lemma save_then a (key : pystr) (J : ring -> Prop) : hoare J (_ ← save_users_json (St := St) a; mret key) (fun res r => forall key', res = Ok key' -> key' = key /\ J r).
Proof.
  apply (hoare_bind _ (fun _ => J)); [apply hoare_silent; [apply save_users_silent|]; by intros [] r|]. intros _ m Hm key' [= <-]. done.
Qed.

Lemma create_issues d now a us seed : issues (create_account (St := St) E d now a us seed) a us.
Proof.
  unfold issues, create_account. do 2 (apply bind_any; [done|intros _]). apply bind_lift; [done|]. intros key Hg. apply bind_any; [done|intros _]. unfold install_account.
  apply (hoare_ring _ _ _ (issued a us key)).
  { intros r _. exists d, ADMIN, seed. split; [done|]. rewrite get_user_set, decide_True by done. cbn. by rewrite (proj2 (seqb_true us us) eq_refl). }
  apply (hoare_ring _ _ _ (issued a us key)); [done|]. apply (hoare_bind _ (fun _ => issued a us key)); [|by intros _ m Hm key' [= <-]].
  apply (hoare_except (issued a us key) _ _ _ (fun _ _ => True)); [|done|done|done|done|done].
  apply silent_bind; [apply save_accounts_silent|intros _]. apply silent_bind; [apply save_users_silent|intros _; apply write_groups_silent].
Qed.

Lemma register_issues d a us role seed : issues (register_user (St := St) E d a us role seed) a us.
Proof.
  unfold issues, register_user, register_with. do 2 (apply bind_any; [done|intros ?]). apply bind_any; [done|intros account]. apply bind_lift; [done|]. intros key Hg. unfold install_user.
  apply (hoare_ring _ _ _ (issued a us key)).
  { intros r _. exists d, a0, seed. split; [done|]. rewrite get_user_set, decide_True by done. cbn. rewrite dict_set_get. by rewrite (proj2 (seqb_true us us) eq_refl). }
  apply (hoare_ring _ _ _ (issued a us key)); [done|]. eapply hoare_weaken; [apply save_then|done|]. intros res r H key' Hk. by destruct (H key' Hk) as [-> ?].
Qed.

Lemma regenerate_issues d a us seed : issues (regenerate_key (St := St) E d a us seed) a us.
Proof.
  unfold issues, regenerate_key, regenerate_with. apply bind_any; [done|intros [account info]]. case_bool_decide; [by intros m _|].
  apply (hoare_ring _ _ _ (fun _ => True)); [done|]. apply bind_lift; [done|]. intros key Hg.
  apply (hoare_ring _ _ _ (fun r => get_user r a us = Some (key_info E d (ui_role info) key))).
  { intros r _. rewrite get_user_set, decide_True by done. cbn. rewrite dict_set_get. by rewrite (proj2 (seqb_true us us) eq_refl). }
  apply bind_lift; [done|]. intros role Hrole. destruct (ui_role info) as [role'|] eqn:Er; [|done]. injection Hrole as ->.
  apply (hoare_ring _ _ _ (issued a us key)); [intros r Hu; by exists d, role, seed|].
  eapply hoare_weaken; [apply save_then|done|]. intros res r H' key' Hk. by destruct (H' key' Hk) as [-> ?].
Qed.

(** The key an operation hands out works: right after [create_account],
    [register_user] or [regenerate_key] returns a key, that key resolves to the account
    and user it was issued for, with the user's current role (whether or not keys are
    hashed at rest). *)
Theorem issued_key_resolves (d : draws) (now role a us : pystr) (seed : option pystr) (m m' : mgr) (key : pystr) :
  create_account E d now a us seed m = (Ok key, m') \/ register_user E d a us role seed m = (Ok key, m') \/ regenerate_key E d a us seed m = (Ok key, m') ->
  is_ascii (root_key E) = true -> key <> root_key E ->
  resolve E (mg_ring m') key = Ok (MkIdentity (get_user_role (mg_ring m') a us) (Some a) (Some us)).
Proof.
  intros Hop. apply issued_resolves. destruct Hop as [H|[H|H]].
  - pose proof (create_issues d now a us seed m I key) as Hi. rewrite H in Hi. by apply Hi.
  - pose proof (register_issues d a us role seed m I key) as Hi. rewrite H in Hi. by apply Hi.
  - pose proof (regenerate_issues d a us seed m I key) as Hi. rewrite H in Hi. by apply Hi.
Qed.

Lemma begin_deletion_fences a us del : hoare wf_ring (begin_user_deletion (St := St) a us del)
  (fun res r => forall x, res = Ok x -> exists info, get_user r a us = Some info /\ is_Some (ui_deletion info)).
Proof.
  unfold begin_user_deletion. apply bind_found; [done|]. intros [account info]. destruct (fenced info) eqn:Ef.
  { intros m [_ Hf] x _. exists info. split; [by apply (found_user _ _ _ _ Hf)|]. unfold fenced in Ef. by destruct (ui_deletion info). }
  destruct (_ && _); [by intros m _|]. set (fence := MkInfo (ui_role info) [] [] (Some del)).
  apply (hoare_ring _ _ _ (fun r => get_user r a us = Some fence)).
  { intros r [_ [Ha _]]. rewrite get_user_set, decide_True by done. cbn. rewrite dict_set_get. by rewrite (proj2 (seqb_true us us) eq_refl). }
  apply (hoare_bind _ (fun _ r => get_user r a us = Some fence)).
  - apply (hoare_except (fun r => get_user r a us = Some fence) _ _ _ (fun _ _ => True)); [apply save_users_silent|done|done|done|done|done].
  - intros _. apply (hoare_ring _ _ _ (fun r => get_user r a us = Some fence)); [done|]. intros m Hm x _. exists fence. split; [done|by exists del].
Qed.

(** C15: Keys are revoked at once: after [regenerate_key] no other key authenticates as the
    user, and from the moment [begin_user_deletion] returns no key at all does, whether
    the call fenced the user or found the fence of an earlier one. Earlier requests may
    have failed or been cancelled at any save, except that no earlier
    [begin_user_deletion] was cancelled during its own: that one leaves a fenced user
    whose key still works, and later calls only return its fence. Files that
    are loaded are as the managers write them, and Argon2, SHA-256 and random tokens have
    their documented forms. *)
Theorem revoked_keys_dead (m m' : mgr) (a us key : pystr) (id : ResolvedIdentity) :
  reachable m ->
  (exists d seed new, regenerate_key E d a us seed m = (Ok new, m') /\ key <> new) \/ (exists del x, begin_user_deletion a us del m = (Ok x, m')) ->
  resolve E (mg_ring m') key = Ok id -> id_account_id id = Some a -> id_user_id id <> Some us.
Proof.
  intros Hm Hop Hres Ha Hu. assert (wf_ring (mg_ring m')) as Hr.
  { pose proof (reachable_wf m Hm) as Hwf. destruct Hop as [(d & seed & new & H & _)|(del & x & H)].
    - pose proof (regenerate_keeps (generate_api_key E d a us seed) d a us (fun key => generate_plain d a us seed key) m Hwf) as Hk. unfold regenerate_key in H. by rewrite H in Hk.
    - pose proof (begin_user_deletion_keeps a us del m Hwf) as Hk. rewrite H in Hk. by apply Hk. }
  destruct (resolve_holds _ _ _ Hr Hres) as [[-> _]|(a' & us' & info & Hget & Hdel & Hmatch & ->)]; [done|]. cbn in Ha, Hu. injection Ha as ->. injection Hu as ->.
  destruct Hop as [(d & seed & new & H & Hne)|(del & x & H)].
  - pose proof (regenerate_issues d a us seed m I new) as Hi. rewrite H in Hi. destruct (Hi eq_refl) as (d' & role & seed' & Hg & Hget'). cbn in Hget'.
    rewrite Hget in Hget'. injection Hget' as ->. apply Hne. unfold key_matches, key_info, stored in Hmatch. cbn [ui_key] in Hmatch.
    destruct (api_key_hashing_enabled E); [rewrite (argon2_form E HE), (argon2_correct E HE) in Hmatch; by injection Hmatch as ?%bool_decide_eq_true|].
    by rewrite (generate_plain _ _ _ _ _ Hg) in Hmatch.
  - pose proof (begin_deletion_fences a us del m (reachable_wf m Hm) x) as Hf. rewrite H in Hf. destruct (Hf eq_refl) as (info' & Hget' & Hsome). cbn in Hget'.
    rewrite Hget in Hget'. injection Hget' as <-. rewrite Hdel in Hsome. by destruct Hsome.
Qed.
End ops.

(** ** Concrete runs *)

Module KeyRuns.
Record mem := MkMem { mem_accounts : option (list (pystr * pystr)); mem_users : list (pystr * users); mem_groups : list (pystr * groups); mem_down : bool }.

(** A store in memory; when it is down its writes raise [e]. *)
Definition write (e : exn) (f : mem -> mem) : ST mem unit := fun s => if mem_down s then (Err e, s) else (Ok tt, f s).

Definition mem_files (e : exn) : KeyFiles mem := {|
  kf_read_accounts s := Ok (mem_accounts s);
  kf_read_users a s := Ok (dict_get (mem_users s) a);
  kf_read_groups a s := Ok (dict_get (mem_groups s) a);
  kf_write_accounts l := write e (fun s => MkMem (Some l) (mem_users s) (mem_groups s) (mem_down s));
  kf_write_users a us := write e (fun s => MkMem (mem_accounts s) (dict_set (mem_users s) a us) (mem_groups s) (mem_down s));
  kf_write_groups a gs := write e (fun s => MkMem (mem_accounts s) (mem_users s) (dict_set (mem_groups s) a gs) (mem_down s));
  kf_acquire _ s := (Ok 0, s);
  kf_release _ s := (Ok tt, s) |}.
#[export] Instance files : KeyFiles mem := mem_files OtherError.

#[export] Instance files_laws : KeyFilesOk mem.
Proof.
  split; cbn; try done.
  - intros a us s b Hne. unfold kf_reads, write. cbn. destruct (mem_down s); [done|]. cbn. by rewrite dict_set_get, (proj2 (seqb_false a b) (not_eq_sym Hne)).
  - intros l s b. unfold kf_reads, write. cbn. by destruct (mem_down s).
Qed.

Definition env_with (hashing : bool) : env :=
  MkEnv (fun _ => replicate 64 48) (fun _ key => u "$argon2id$" ++ key) (fun h key => Ok (seqb h (u "$argon2id$" ++ key))) (u "root-key") hashing.

Lemma env_ok hashing : EnvOk (env_with hashing).
Proof.
  split; [done| |done]. intros s k k'. cbn. f_equal. unfold seqb. apply bool_decide_ext. split; [intros H|by intros ->].
  by apply (app_inv_head (u "$argon2id$")) in H.
Qed.

Definition blank_store : mem := MkMem None [] [] false.
Definition start (E : env) : manager mem := (load E (fun _ => []) (u "now") (MkManager empty_ring blank_store)).2.

Lemma start_reachable hashing : reachable (env_with hashing) (start (env_with hashing)).
Proof.
  eapply (reach_load _ (fun _ => []) (u "now") (MkManager empty_ring blank_store)); [|done|].
  { intros a us gs _ [= <- <-]. by repeat split; try constructor. }
  unfold start. by destruct hashing.
Qed.

Definition d1 : draws := MkDraws (u "aa") (u "s1").
Definition d2 : draws := MkDraws (u "bb") (u "s2").

(** An account with an administrator, with hashing on. *)
Definition hashed : env := env_with true.
Definition acme : manager mem := (run_op hashed (KCreate d1 (u "now") (u "acme") (u "alice") None) (start hashed)).2.
Definition alice_key : pystr := match generate_api_key hashed d1 (u "acme") (u "alice") None with Ok key => key | Err _ => [] end.

Lemma acme_reachable : reachable hashed acme.
Proof. by apply (reach_op hashed (KCreate d1 (u "now") (u "acme") (u "alice") None)); [apply start_reachable|]. Qed.

Lemma authentication_sound_witness :
  MkIdentity ADMIN (Some (u "acme")) (Some (u "alice")) = MkIdentity ROOT None None /\ alice_key = root_key hashed
  \/ holds hashed (mg_ring acme) alice_key (MkIdentity ADMIN (Some (u "acme")) (Some (u "alice"))).
Proof. apply (authentication_sound hashed (env_ok true) acme (mg_ring acme) alice_key); [apply acme_reachable|by left|by vm_compute]. Defined.

Lemma pair_ok {A S} (x : result A * S) a : x.1 = Ok a -> x = (Ok a, x.2).
Proof. destruct x as [r s]. cbn. by intros ->. Qed.

Lemma issued_key_resolves_witness :
  resolve hashed (mg_ring (create_account hashed d1 (u "now") (u "acme") (u "alice") None (start hashed)).2) alice_key
  = Ok (MkIdentity (get_user_role (mg_ring (create_account hashed d1 (u "now") (u "acme") (u "alice") None (start hashed)).2) (u "acme") (u "alice")) (Some (u "acme")) (Some (u "alice"))).
Proof.
  apply (issued_key_resolves hashed (env_ok true) d1 (u "now") [] (u "acme") (u "alice") None (start hashed)); [|by vm_compute|by vm_compute].
  left. apply pair_ok. by vm_compute.
Defined.

(** A second user, whose key outlives the regeneration of the first one's. *)
Definition with_bob : manager mem := (run_op hashed (KRegister d2 (u "acme") (u "bob") USER None) acme).2.
Definition bob_key : pystr := match generate_api_key hashed d2 (u "acme") (u "bob") None with Ok key => key | Err _ => [] end.
Definition new_key : pystr := match generate_api_key hashed d2 (u "acme") (u "alice") None with Ok key => key | Err _ => [] end.

Lemma revoked_keys_dead_witness : id_user_id (MkIdentity USER (Some (u "acme")) (Some (u "bob"))) <> Some (u "alice").
Proof.
  apply (revoked_keys_dead hashed (env_ok true) with_bob (regenerate_key hashed d2 (u "acme") (u "alice") None with_bob).2 (u "acme") (u "alice") bob_key).
  - by apply (reach_op hashed (KRegister d2 (u "acme") (u "bob") USER None)); [apply acme_reachable|].
  - left. exists d2, None, new_key. split; [apply pair_ok; by vm_compute|by vm_compute].
  - by vm_compute.
  - done.
Defined.

(** The old key is refused after a regeneration, the new one accepted. *)
Example regeneration_run :
  let m := (regenerate_key hashed d2 (u "acme") (u "alice") None acme).2 in
  resolve hashed (mg_ring acme) alice_key = Ok (MkIdentity ADMIN (Some (u "acme")) (Some (u "alice")))
  /\ resolve hashed (mg_ring m) alice_key = Err UnauthenticatedError /\ resolve hashed (mg_ring m) new_key = Ok (MkIdentity ADMIN (Some (u "acme")) (Some (u "alice"))).
Proof. split_and!; by vm_compute. Qed.

(** A user with a key of the legacy format. *)
Definition plain : env := env_with false.
Definition legacy : manager mem := (run_op plain (KLegacyCreate d1 (u "now") (u "acme") (u "alice") None) (start plain)).2.

(** A regeneration that fails on an empty seed has already dropped the old key from the
    index: the user's valid key is refused until the next reload. *)
Example failed_regeneration_locks_out :
  let x := regenerate_key plain d2 (u "acme") (u "alice") (Some []) legacy in
  x.1 = Err InvalidArgumentError /\ get_user (mg_ring x.2) (u "acme") (u "alice") = get_user (mg_ring legacy) (u "acme") (u "alice")
  /\ resolve plain (mg_ring legacy) (u "aa") = Ok (MkIdentity ADMIN (Some (u "acme")) (Some (u "alice")))
  /\ resolve plain (mg_ring x.2) (u "aa") = Err UnauthenticatedError.
Proof. split_and!; by vm_compute. Qed.

Definition down (m : manager mem) : manager mem :=
  MkManager (mg_ring m) (MkMem (mem_accounts (mg_store m)) (mem_users (mg_store m)) (mem_groups (mg_store m)) true).

(** Cancelling the request while the deletion is being saved leaves the user fenced with
    the key still in the index: a key meant to be revoked authenticates. *)
Example cancelled_deletion_keeps_key :
  let x := @begin_user_deletion mem (mem_files CancelledError) (u "acme") (u "bob") (MkDeletion (u "t1") (u "acme") (u "alice")) (down with_bob) in
  x.1 = Err CancelledError /\ is_user_deleting (mg_ring x.2) (u "acme") (u "bob") = true
  /\ resolve hashed (mg_ring x.2) bob_key = Ok (MkIdentity USER (Some (u "acme")) (Some (u "bob"))).
Proof. split_and!; by vm_compute. Qed.

(** A registration whose save fails stays in memory: it cannot be retried. *)
Example failed_registration_stays :
  let x := register_user hashed d2 (u "acme") (u "bob") USER None (down acme) in
  x.1 = Err OtherError /\ has_user (mg_ring x.2) (u "acme") (u "bob") = true
  /\ (register_user hashed d2 (u "acme") (u "bob") USER None (MkManager (mg_ring x.2) (mg_store acme))).1 = Err AlreadyExistsError.
Proof. split_and!; by vm_compute. Qed.

(** A key with a character outside ASCII raises instead of being refused. *)
Example non_ascii_key_raises : resolve hashed (mg_ring acme) [233] = Err TypeError.
Proof. by vm_compute. Qed.
End KeyRuns.
