(* ===== verification/ApiKeyGroups.v ===== *)
(** The group index of the API key managers is exact: the groups a request carries are
    those that list its user. *)
From Stdlib Require Import NArith ZArith.
From S2P Require Import Prelude PyStr PyVal PyBytes Identifiers Base64 ApiKeys ApiKeysTheory.

Open Scope N_scope.

(** ** Memberships *)

Definition join_group (us : users) (g : pystr) (acc : list (pystr * list pystr)) (k : pystr) : list (pystr * list pystr) :=
  if bool_decide (is_Some (dict_get us k)) then dict_set acc k (default [] (dict_get acc k) ++ [g]) else acc.

Definition listed (acc : list (pystr * list pystr)) (k g : pystr) : Prop := g ∈ default [] (dict_get acc k).

Lemma join_members us g members : forall acc, NoDup (fst <$> acc) -> 
  let acc' := foldl (join_group us g) acc members in
  NoDup (fst <$> acc') /\ forall k h, listed acc' k h <-> listed acc k h \/ (h = g /\ is_Some (dict_get us k) /\ k ∈ members).
Proof.
  induction members as [|m members IH]; intros acc Hnd; cbn [foldl]; [split; [done|]; intros k h; rewrite elem_of_nil; tauto|].
  destruct (IH (join_group us g acc m)) as [H1 H2].
  { unfold join_group. case_bool_decide; [by apply dict_set_nodup|done]. }
  split; [done|]. intros k h. rewrite H2, elem_of_cons. unfold listed, join_group. case_bool_decide as Hm.
  - rewrite dict_set_get. destruct (seqb m k) eqn:Ek.
    + apply seqb_true in Ek as ->. cbn [from_option]. unfold id. rewrite elem_of_app, list_elem_of_singleton. fold (listed acc k h). tauto.
    + apply seqb_false in Ek. naive_solver.
  - naive_solver.
Qed.

Lemma dict_get_fmap {A B} (f : A -> B) (d : list (pystr * A)) k : dict_get ((fun '(k, v) => (k, f v)) <$> d) k = f <$> dict_get d k.
Proof. induction d as [|[k' v] d IH]; [done|]. cbn. by destruct (seqb k' k). Qed.

Lemma group_memberships_ok us gs : NoDup (fst <$> group_memberships us gs)
  /\ forall k g, listed (group_memberships us gs) k g <-> is_Some (dict_get us k) /\ exists members, (g, members) ∈ gs /\ k ∈ members.
Proof.
  unfold group_memberships. set (fold := foldl _ [] gs).
  assert (forall gs acc, NoDup (fst <$> acc) -> let acc' := foldl (fun acc '(g, members) => foldl (join_group us g) acc members) acc gs in
            NoDup (fst <$> acc') /\ forall k g, listed acc' k g <-> listed acc k g \/ (is_Some (dict_get us k) /\ exists members, (g, members) ∈ gs /\ k ∈ members)) as Hfold.
  { clear. induction gs as [|[g members] gs IH]; intros acc Hnd; cbn [foldl].
    - split; [done|]. intros k g. setoid_rewrite elem_of_nil. naive_solver.
    - destruct (join_members us g members acc Hnd) as [H1 H2]. destruct (IH _ H1) as [H3 H4]. split; [done|]. intros k h. rewrite H4, H2. setoid_rewrite elem_of_cons.
      naive_solver. }
  assert (NoDup (fst <$> fold) /\ forall k g, listed fold k g <-> is_Some (dict_get us k) /\ exists members, (g, members) ∈ gs /\ k ∈ members) as [H1 H2].
  { destruct (Hfold gs [] NoDup_nil_2) as [H1 H2]. split; [exact H1|]. intros k g. etrans; [exact (H2 k g)|]. unfold listed. cbn. rewrite elem_of_nil. tauto. }
  split.
  - rewrite <- list_fmap_compose. erewrite list_fmap_ext; [exact H1|]. by intros i [k ids] _.
  - intros k g. rewrite <- H2. unfold listed. rewrite dict_get_fmap. destruct (dict_get fold k) as [ids|]; cbn; [|done].
    by rewrite sorted_strs_perm, elem_of_remove_dups.
Qed.

Lemma add_memberships_lookup a ms : forall ix b k, NoDup (fst <$> ms) ->
  add_memberships a ms ix !! (b, k) = if decide (b = a) then match dict_get ms k with Some ids => Some ids | None => ix !! (b, k) end else ix !! (b, k).
Proof.
  induction ms as [|[k' ids] ms IH]; intros ix b k Hnd; [by case_decide|]. cbn [add_memberships foldl fmap list_fmap fst] in *. apply NoDup_cons in Hnd as [Hn Hnd].
  fold (add_memberships a ms (<[(a, k') := ids]> ix)). rewrite IH by done. cbn [dict_get]. destruct (decide (b = a)) as [->|Hne].
  - destruct (seqb k' k) eqn:Ek.
    + apply seqb_true in Ek as ->. rewrite (proj2 (dict_get_None ms k) Hn). by rewrite lookup_insert_eq.
    + apply seqb_false in Ek. destruct (dict_get ms k); [done|]. by rewrite lookup_insert_ne by congruence.
  - by rewrite lookup_insert_ne by congruence.
Qed.

Lemma discard_groups_lookup a ix b k : discard_account_group_index a ix !! (b, k) = if decide (b = a) then None else ix !! (b, k).
Proof.
  unfold discard_account_group_index. destruct (decide (b = a)) as [->|Hne].
  - apply map_lookup_filter_None. right. intros ids _ H. by apply H.
  - destruct (ix !! (b, k)) as [ids|] eqn:E.
    + apply map_lookup_filter_Some. done.
    + apply map_lookup_filter_None. by left.
Qed.

(** ** The invariant *)

Definition in_group (r : ring) (a us g : pystr) : Prop :=
  exists account members, dict_get (accounts r) a = Some account /\ is_Some (dict_get (ac_users account) us)
    /\ dict_get (ac_groups account) g = Some members /\ us ∈ members.

(** The index is exact for the accounts in [L]. *)
Definition exact_on (L : pystr -> Prop) (r : ring) : Prop := forall a us g, L a -> g ∈ get_user_group_ids r a us <-> in_group r a us g.
Definition all_members (r : ring) : Prop := forall a account, dict_get (accounts r) a = Some account -> members_ok (ac_users account) (ac_groups account).

Definition groups_wf (r : ring) : Prop := all_members r /\ exact_on (fun _ => True) r.

(** Only the account dict matters for membership. *)
Lemma in_group_set a account r b us g : in_group (set_account a account r) b us g <->
  if decide (b = a) then is_Some (dict_get (ac_users account) us) /\ exists members, dict_get (ac_groups account) g = Some members /\ us ∈ members
  else in_group r b us g.
Proof.
  unfold in_group, set_account. cbn [accounts]. setoid_rewrite dict_set_get. destruct (seqb a b) eqn:E.
  - apply seqb_true in E as ->. rewrite decide_True by done. naive_solver.
  - apply seqb_false in E. by rewrite decide_False.
Qed.

Lemma all_members_set a account r : all_members r -> members_ok (ac_users account) (ac_groups account) -> all_members (set_account a account r).
Proof. intros H1 H2 b acc. cbn. rewrite dict_set_get. destruct (seqb a b); [by intros [= <-]|apply H1]. Qed.

(** Rebuilding one account makes the index exact there. *)
Lemma rebuild_exact_on a r : all_members r -> exact_on (fun b => b <> a) r -> groups_wf (rebuild_account_group_index a r).
Proof.
  intros Hm Hex. split; [done|]. intros b us g _. unfold get_user_group_ids, rebuild_account_group_index. cbn [user_group_ids].
  change (in_group _ b us g) with (in_group r b us g). destruct (dict_get (accounts r) a) as [account|] eqn:Ea.
  - destruct (group_memberships_ok (ac_users account) (ac_groups account)) as [Hnd Hmem]. rewrite add_memberships_lookup, discard_groups_lookup by done.
    destruct (decide (b = a)) as [->|Hne]; [|by apply Hex]. specialize (Hmem us g). unfold listed in Hmem.
    assert (in_group r a us g <-> is_Some (dict_get (ac_users account) us) /\ exists members, (g, members) ∈ ac_groups account /\ us ∈ members) as ->.
    { destruct (Hm a account Ea) as [Hndg _]. unfold in_group. rewrite Ea. split.
      - intros (acc & ms & [= <-] & Hu & Hg & Hin). split; [done|]. exists ms. split; [by apply dict_get_elem|done].
      - intros (Hu & ms & Hg & Hin). exists account, ms. split_and!; [done|done|by apply dict_get_in|done]. }
    rewrite <- Hmem. by destruct (dict_get (group_memberships _ _) us).
  - rewrite discard_groups_lookup. destruct (decide (b = a)) as [->|Hne]; [|by apply Hex]. cbn. rewrite elem_of_nil. unfold in_group. rewrite Ea. naive_solver.
Qed.

(** An account whose groups and set of users stay the same. *)
Lemma groups_wf_same a account account' r : groups_wf r -> dict_get (accounts r) a = Some account ->
  (forall us, is_Some (dict_get (ac_users account') us) <-> is_Some (dict_get (ac_users account) us)) -> ac_groups account' = ac_groups account ->
  groups_wf (set_account a account' r).
Proof.
  intros [Hm Hex] Ha Hu Hg. split.
  - apply all_members_set; [done|]. destruct (Hm a account Ha) as [H1 H2]. rewrite Hg. split; [done|]. intros g ms k Hgm Hin. apply Hu. by eapply H2.
  - intros b us g _. rewrite in_group_set. change (get_user_group_ids _ b us) with (get_user_group_ids r b us). rewrite (Hex b us g I).
    destruct (decide (b = a)) as [->|]; [|done]. rewrite Hu, Hg. unfold in_group. rewrite Ha. naive_solver.
Qed.

(** A new account without groups. *)
Lemma groups_wf_new a account r : groups_wf r -> dict_get (accounts r) a = None -> ac_groups account = [] -> groups_wf (set_account a account r).
Proof.
  intros [Hm Hex] Ha Hg. split.
  - apply all_members_set; [done|]. rewrite Hg. split; [constructor|done].
  - intros b us g _. rewrite in_group_set. change (get_user_group_ids _ b us) with (get_user_group_ids r b us). rewrite (Hex b us g I).
    destruct (decide (b = a)) as [->|]; [|done]. rewrite Hg. unfold in_group. rewrite Ha. naive_solver.
Qed.

(** A user more or less who is in no group. *)
Lemma groups_wf_user a account us0 us' r : groups_wf r -> dict_get (accounts r) a = Some account ->
  (forall us, us <> us0 -> dict_get us' us = dict_get (ac_users account) us) ->
  (forall g members, dict_get (ac_groups account) g = Some members -> us0 ∉ members) -> groups_wf (set_account a (with_users us' account) r).
Proof.
  intros [Hm Hex] Ha Hu Hn. split.
  - apply all_members_set; [done|]. destruct (Hm a account Ha) as [H1 H2]. split; [done|]. cbn. intros g ms k Hg Hin. rewrite Hu; [by eapply H2|]. intros ->. by eapply Hn.
  - intros b us g _. rewrite in_group_set. change (get_user_group_ids _ b us) with (get_user_group_ids r b us). rewrite (Hex b us g I).
    destruct (decide (b = a)) as [->|]; [|done]. cbn. unfold in_group. rewrite Ha. destruct (decide (us = us0)) as [->|Hne].
    + split; [intros (acc & ms & [= <-] & _ & Hg & Hin)|intros (_ & ms & Hg & Hin)]; by destruct (Hn g ms Hg).
    + rewrite Hu by done. naive_solver.
Qed.

Lemma groups_wf_discard a r : NoDup (fst <$> accounts r) -> groups_wf r -> groups_wf (discard_account_state a r).
Proof.
  intros Hnd [Hm Hex]. unfold discard_account_state. destruct (dict_get (accounts r) a) as [account|] eqn:Ea.
  - split.
    + intros b acc. cbn. rewrite dict_pop_get by done. destruct (seqb a b); [done|apply Hm].
    + intros b us g _. unfold get_user_group_ids, in_group. cbn [user_group_ids accounts]. rewrite discard_groups_lookup. setoid_rewrite dict_pop_get; [|done].
      destruct (decide (b = a)) as [->|Hne].
      * rewrite (proj2 (seqb_true a a) eq_refl). cbn. rewrite elem_of_nil. naive_solver.
      * rewrite (proj2 (seqb_false a b)) by congruence. by apply Hex.
  - split; [done|]. intros b us g _. unfold get_user_group_ids. cbn [user_group_ids]. rewrite discard_groups_lookup. change (in_group _ b us g) with (in_group r b us g).
    destruct (decide (b = a)) as [->|Hne]; [|by apply Hex]. cbn. rewrite elem_of_nil. unfold in_group. rewrite Ea. naive_solver.
Qed.

(** ** Operations *)

Record grouped (r : ring) : Prop := {
  gp_accounts : NoDup (fst <$> accounts r);
  gp_users : forall a account, dict_get (accounts r) a = Some account -> NoDup (fst <$> ac_users account);
  gp_wf : groups_wf r }.

Lemma grouped_set a account r : grouped r -> NoDup (fst <$> ac_users account) -> groups_wf (set_account a account r) -> grouped (set_account a account r).
Proof.
  intros [H1 H2 _] Hnd Hg. split; [by apply dict_set_nodup| |done]. intros b acc. cbn. rewrite dict_set_get. destruct (seqb a b); [by intros [= <-]|apply H2].
Qed.

(** The account [a] has the users and the groups of [account], whatever their keys. *)
Definition like (a : pystr) (account : AccountInfo) (r : ring) : Prop :=
  grouped r /\ exists acc, dict_get (accounts r) a = Some acc
    /\ (forall us, is_Some (dict_get (ac_users acc) us) <-> is_Some (dict_get (ac_users account) us)) /\ ac_groups acc = ac_groups account.

Lemma found_like a account r : grouped r -> dict_get (accounts r) a = Some account -> like a account r.
Proof. intros Hr Ha. split; [done|]. by exists account. Qed.

Lemma dict_set_dom {A} (d : list (pystr * A)) k v x : is_Some (dict_get d k) -> is_Some (dict_get (dict_set d k v) x) <-> is_Some (dict_get d x).
Proof. intros Hk. rewrite dict_set_get. destruct (seqb k x) eqn:E; [apply seqb_true in E as <-; split; [done|by eexists]|done]. Qed.

Lemma write_like a account us info r : like a account r -> NoDup (fst <$> ac_users account) -> is_Some (dict_get (ac_users account) us) ->
  like a account (set_account a (with_users (dict_set (ac_users account) us info) account) r).
Proof.
  intros (Hr & acc & Ha & Hu & Hg) Hnd Hus. split.
  - apply grouped_set; [done|by apply dict_set_nodup|]. apply (groups_wf_same a acc); [apply Hr|done| |by rewrite Hg].
    intros us'. cbn. rewrite dict_set_dom by done. by rewrite Hu.
  - exists (with_users (dict_set (ac_users account) us info) account). cbn. rewrite dict_set_get, (proj2 (seqb_true a a) eq_refl). split_and!; [done| |done].
    intros us'. by apply dict_set_dom.
Qed.

Lemma grouped_index f r : grouped r -> grouped (set_index f r).
Proof. by intros [? ? ?]. Qed.

Lemma like_index a account f r : like a account r -> like a account (set_index f r).
Proof. intros [Hr ?]. split; [by apply grouped_index|done]. Qed.

Lemma grouped_discard a r : grouped r -> grouped (discard_account_state a r).
Proof.
  intros [H1 H2 H3]. split; [| |by apply groups_wf_discard].
  - unfold discard_account_state. destruct (dict_get (accounts r) a); [by apply dict_pop_nodup|done].
  - unfold discard_account_state. destruct (dict_get (accounts r) a); [|done]. intros b acc. cbn. rewrite dict_pop_get by done. destruct (seqb a b); [done|apply H2].
Qed.

Section ops.
Context {St : Type} `{!KeyFiles St} `{!KeyFilesOk St} (E : env).
Abbreviation mgr := (manager St).
Abbreviation gkeeps op := (hoare grouped op (fun _ => grouped)).

(** A lookup of a user and what follows. *)
Lemma gbind_user {A} a us (k : AccountInfo * user_info -> ST mgr A) :
  (forall account info, dict_get (ac_users account) us = Some info -> NoDup (fst <$> ac_users account) ->
     hoare (like a account) (k (account, info)) (fun _ => grouped)) ->
  gkeeps (require_user a us ≫= k).
Proof.
  intros Hk. apply (hoare_bind _ (fun p r => like a p.1 r /\ (dict_get (ac_users p.1) us = Some p.2 /\ NoDup (fst <$> ac_users p.1)))).
  - apply hoare_require_user; [|done]. intros r account info Hr Ha Hu. split; [by apply found_like|]. split; [done|by apply (gp_users r Hr a)].
  - intros [account info]. apply hoare_fact. intros [Hu Hnd]. by apply Hk.
Qed.

(** Steps that leave accounts and groups alone. *)
Lemma gbind_silent {A B} P (op : ST mgr A) (k : A -> ST mgr B) : silent op -> (forall r, P r -> grouped r) ->
  (forall x, hoare P (k x) (fun _ => grouped)) -> hoare P (op ≫= k) (fun _ => grouped).
Proof. intros Hs HP Hk. apply (hoare_bind _ (fun _ => P)); [|done]. apply hoare_silent; [done|]. intros [] r; auto. Qed.

Lemma gbind_lift {A B} P (x : result A) (k : A -> ST mgr B) : (forall r, P r -> grouped r) -> (forall a, hoare P (k a) (fun _ => grouped)) ->
  hoare P (st_lift x ≫= k) (fun _ => grouped).
Proof. intros HP Hk m Hm. rewrite st_bind_unfold. cbn. destruct x as [a|e]; [by apply Hk|by apply HP]. Qed.

Lemma gbind_check {B} P err (k : unit -> ST mgr B) : (forall r, P r -> grouped r) -> (forall a, hoare P (k a) (fun _ => grouped)) ->
  hoare P (check_id err ≫= k) (fun _ => grouped).
Proof. intros HP Hk m Hm. rewrite st_bind_unfold. destruct err; [by apply HP|by apply Hk]. Qed.

Lemma gsave a P : (forall r, P r -> grouped r) -> hoare P (save_users_json (St := St) a) (fun _ => grouped).
Proof. intros HP. apply hoare_silent; [apply save_users_silent|]. intros res r. apply HP. Qed.

Lemma gsave_ret {A} a (x : A) P : (forall r, P r -> grouped r) -> hoare P (_ ← save_users_json (St := St) a; mret x) (fun _ => grouped).
Proof. intros HP. apply gbind_silent; [apply save_users_silent|done|]. intros _ m Hm. by apply HP. Qed.

Lemma like_grouped a account r : like a account r -> grouped r.
Proof. by intros [? _]. Qed.
Hint Resolve like_grouped : core.

Lemma regenerate_groups generate d a us : gkeeps (regenerate_with (St := St) E generate d a us).
Proof.
  apply gbind_user. intros account info Hu Hnd. case_bool_decide; [by intros m [Hm _]|]. apply (hoare_ring _ _ _ (like a account)); [intros r; apply like_index|].
  apply gbind_lift; [eauto|]. intros key. apply (hoare_ring _ _ _ (like a account)); [intros r Hr; apply write_like; [done|done|by eexists]|].
  apply gbind_lift; [eauto|]. intros role. apply (hoare_ring _ _ _ (like a account)); [intros r; apply like_index|]. apply gsave_ret. eauto.
Qed.

Lemma set_role_groups a us role : gkeeps (set_role (St := St) a us role).
Proof.
  unfold set_role. apply gbind_lift; [done|]. intros resolved. apply gbind_user. intros account info Hu Hnd. case_bool_decide; [by intros m [Hm _]|].
  apply (hoare_ring _ _ _ (like a account)); [intros r Hr; apply write_like; [done|done|by eexists]|].
  apply (hoare_ring _ _ _ (like a account)); [intros r; apply like_index|]. apply gsave. eauto.
Qed.

(** Fencing a user: the save may fail and be undone. *)
Lemma fence_groups {B} a account us info info' info'' (k : ST mgr B) : dict_get (ac_users account) us = Some info -> NoDup (fst <$> ac_users account) ->
  hoare (like a account) k (fun _ => grouped) ->
  hoare (like a account) (_ ← write_user (St := St) a account us info'; _ ← except_reraise (save_users_json a) (write_user a account us info''); k) (fun _ => grouped).
Proof.
  intros Hu Hnd Hk. apply (hoare_ring _ _ _ (like a account)); [intros r Hr; apply write_like; [done|done|by eexists]|].
  apply (hoare_bind _ (fun _ => like a account)); [|done].
  apply (hoare_except (like a account) _ _ _ (fun _ => grouped)); [apply save_users_silent|done| |done|done|by intros e r _ [? _]].
  apply hoare_set. intros r Hr. eapply like_grouped, write_like; [exact Hr|done|by eexists].
Qed.

Lemma begin_user_deletion_groups a us del : gkeeps (begin_user_deletion (St := St) a us del).
Proof.
  apply gbind_user. intros account info Hu Hnd. destruct (fenced info); [by intros m [Hm _]|]. destruct (_ && _); [by intros m [Hm _]|].
  apply (fence_groups _ _ _ info); [done|done|]. apply (hoare_ring _ _ _ (like a account)); [intros r; apply like_index|]. by intros m [Hm _].
Qed.

Lemma replace_user_deletion_task_groups a us expected del : gkeeps (replace_user_deletion_task (St := St) a us expected del).
Proof.
  apply gbind_user. intros account info Hu Hnd. destruct (ui_deletion info) as [cur|] eqn:Ec; [|by intros m [Hm _]]. destruct (negb _); [by intros m [Hm _]|].
  cbv zeta. apply (fence_groups _ _ _ info); [done|done|]. by intros m [Hm _].
Qed.

Lemma install_account_groups d now a admin key :
  hoare (fun r => grouped r /\ dict_get (accounts r) a = None) (install_account (St := St) E d now a admin key) (fun _ => grouped).
Proof.
  unfold install_account. apply (hoare_ring _ _ _ grouped).
  { intros r [Hr Ha]. apply grouped_set; [done|apply NoDup_singleton|]. by apply groups_wf_new; [apply Hr| |]. }
  apply (hoare_ring _ _ _ grouped); [intros r; apply grouped_index|]. apply (hoare_bind _ (fun _ => grouped)); [|by intros _ m Hm].
  apply (hoare_except grouped _ _ _ (fun _ => grouped)); [|done| |done|done|done].
  - apply silent_bind; [apply save_accounts_silent|intros _]. apply silent_bind; [apply save_users_silent|intros _; apply write_groups_silent].
  - apply (hoare_ring _ _ _ grouped); [intros r; apply grouped_discard|].
    by apply hoare_silent; [apply except_log_silent, save_accounts_silent|].
Qed.

Lemma create_with_groups {A} P (x : result A) d now a admin (key : A -> pystr) :
  (forall r, P r -> grouped r /\ dict_get (accounts r) a = None) ->
  hoare P (k ← st_lift x; install_account (St := St) E d now a admin (key k)) (fun _ => grouped).
Proof. intros HP. apply gbind_lift; [intros r ?%HP; tauto|]. intros k. eapply hoare_weaken; [apply install_account_groups|done|done]. Qed.

Lemma account_absent_groups a : hoare grouped (account_absent (St := St) a) (fun res r => match res with Ok _ => grouped r /\ dict_get (accounts r) a = None | Err _ => grouped r end).
Proof. intros m Hm. unfold account_absent. by destruct (dict_get _ a) eqn:E'; cbn. Qed.

Lemma create_account_groups d now a admin seed : gkeeps (create_account (St := St) E d now a admin seed).
Proof.
  unfold create_account. do 2 (apply gbind_check; [done|intros _]). apply gbind_lift; [done|]. intros key.
  apply (hoare_bind _ (fun _ r => grouped r /\ dict_get (accounts r) a = None)); [eapply hoare_weaken; [apply account_absent_groups|done|by intros []]|].
  intros _. apply install_account_groups.
Qed.

Lemma legacy_create_account_groups d now a admin seed : gkeeps (legacy_create_account (St := St) E d now a admin seed).
Proof.
  unfold legacy_create_account. do 2 (apply gbind_check; [done|intros _]).
  apply (hoare_bind _ (fun _ r => grouped r /\ dict_get (accounts r) a = None)); [eapply hoare_weaken; [apply account_absent_groups|done|by intros []]|].
  intros _. by apply (create_with_groups _ _ _ _ _ _ (fun k => k)).
Qed.

Lemma delete_account_groups a : gkeeps (delete_account (St := St) a).
Proof.
  unfold delete_account. apply (hoare_bind _ (fun _ => grouped)); [intros m Hm; cbn; by destruct (require_account _ a)|intros _].
  apply (hoare_ring _ _ _ grouped); [intros r; apply grouped_discard|]. by apply hoare_silent; [apply save_accounts_silent|].
Qed.

Lemma register_groups generate d a us role : gkeeps (register_with (St := St) E generate d a us role).
Proof.
  unfold register_with. apply gbind_lift; [done|]. intros resolved. apply gbind_check; [done|intros _].
  apply (hoare_bind _ (fun account r => grouped r /\ dict_get (accounts r) a = Some account /\ dict_get (ac_users account) us = None)).
  { intros m Hm. unfold user_absent, require_account. destruct (dict_get (accounts (mg_ring m)) a) as [account|] eqn:Ea; [|done]. by destruct (dict_get (ac_users account) us) eqn:Eu. }
  intros account. apply gbind_lift; [by intros r [? _]|]. intros key. unfold install_user. apply (hoare_ring _ _ _ grouped).
  { intros r (Hr & Ha & Hu). pose proof (gp_users r Hr a account Ha) as Hnd. apply grouped_set; [done|by apply dict_set_nodup|].
    apply (groups_wf_user a account us); [apply Hr|done| |].
    - intros us' Hne. by rewrite dict_set_get, (proj2 (seqb_false us us') (not_eq_sym Hne)).
    - intros g members Hg Hin. destruct (gp_wf r Hr) as [Hm _]. destruct (Hm a account Ha) as [_ Hmem]. destruct (Hmem g members us Hg Hin) as [i Hi]. congruence. }
  apply (hoare_ring _ _ _ grouped); [intros r; apply grouped_index|]. by apply gsave_ret.
Qed.

(** Rebuilding an account after a change of its users or groups. *)
Lemma grouped_rebuild a account r : grouped r -> NoDup (fst <$> ac_users account) -> members_ok (ac_users account) (ac_groups account) ->
  grouped (rebuild_account_group_index a (set_account a account r)).
Proof.
  intros Hr Hnd Hm. destruct (gp_wf r Hr) as [Hall Hex].
  assert (groups_wf (rebuild_account_group_index a (set_account a account r))) as Hwf.
  { apply rebuild_exact_on; [by apply all_members_set|]. intros b us g Hne. rewrite in_group_set, decide_False by done. by apply Hex. }
  split; [apply dict_set_nodup, Hr| |done]. intros b acc. cbn. rewrite dict_set_get. destruct (seqb a b); [by intros [= <-]|apply Hr].
Qed.

Lemma leave_groups_get us gs g : dict_get (leave_groups us gs) g = (fun members => if mem us members then filter (fun m => m <> us) members else members) <$> dict_get gs g.
Proof. apply dict_get_fmap. Qed.

Lemma leave_groups_members us0 us us' gs : members_ok us gs -> (forall k, k <> us0 -> is_Some (dict_get us k) -> is_Some (dict_get us' k)) -> members_ok us' (leave_groups us0 gs).
Proof.
  intros [Hnd Hm] Hu. split.
  - unfold leave_groups. rewrite <- list_fmap_compose. erewrite list_fmap_ext; [exact Hnd|]. by intros i [g ms] _.
  - intros g members k. rewrite leave_groups_get. destruct (dict_get gs g) as [ms|] eqn:Eg; [|done]. cbn. intros [= <-] Hin.
    assert (k ∈ ms /\ k <> us0) as [Hk Hne].
    { unfold mem in Hin. case_bool_decide as Hb; [by apply list_elem_of_filter in Hin as [? ?]|]. split; [done|]. by intros ->. }
    apply Hu; [done|]. by eapply Hm.
Qed.

(** Groups that do not change did not hold the user. *)
Lemma leave_groups_same us gs g members : leave_groups us gs = gs -> dict_get gs g = Some members -> us ∉ members.
Proof.
  intros Hsame Hg Hin. apply (f_equal (fun l => dict_get l g)) in Hsame. rewrite leave_groups_get, Hg in Hsame. cbn in Hsame. injection Hsame as Hs.
  unfold mem in Hs. rewrite bool_decide_eq_true_2 in Hs by done. rewrite <- Hs in Hin. by apply list_elem_of_filter in Hin as [? _].
Qed.

Lemma finish_user_deletion_groups a us task : hoare grouped (finish_user_deletion (St := St) a us task) (fun res r => calm res -> grouped r).
Proof.
  intros m Hm. unfold finish_user_deletion. destruct (dict_get (accounts (mg_ring m)) a) as [account|] eqn:Ea; [|done].
  destruct (dict_get (ac_users account) us) as [info|] eqn:Eu; [|done]. case_bool_decide as Htask; cbn [negb]; [|done].
  set (gs := leave_groups us (ac_groups account)). set (removed := with_users (dict_pop (ac_users account) us) account).
  pose proof (gp_users _ Hm _ _ Ea) as Hnd. destruct (gp_wf _ Hm) as [Hall Hex]. pose proof (Hall a account Ea) as Hmem.
  assert (forall k, k <> us -> dict_get (ac_users removed) k = dict_get (ac_users account) k) as Hrem.
  { intros k Hne. cbn. by rewrite dict_pop_get, (proj2 (seqb_false us k) (not_eq_sym Hne)). }
  assert (NoDup (fst <$> ac_users removed)) as Hndr by by apply dict_pop_nodup.
  (* the ring between the steps: the original, without the user *)
  set (P := fun r => r = set_account a removed (mg_ring m)).
  assert (forall acc, set_account a acc (set_account a removed (mg_ring m)) = set_account a acc (mg_ring m)) as Hss.
  { intros acc. unfold set_account. cbn. by rewrite dict_set_set. }
  apply (hoare_ring (set_account a removed) _ (fun r => r = mg_ring m) P (fun res r => calm res -> grouped r)); [by intros r ->| |done].
  apply (hoare_bind _ (fun _ => P)).
  - apply (hoare_except P _ _ _ (fun _ => grouped)); [|by intros| |done|done|intros e r He _ Hc; by rewrite (Hc e eq_refl) in He].
    + apply silent_bind; [apply save_users_silent|intros _]. case_bool_decide; [by intros m0|apply write_groups_silent].
    + apply hoare_set. intros r ->. rewrite Hss. apply grouped_rebuild; [done|by apply dict_set_nodup|]. cbn. destruct Hmem as [H1 H2]. split; [done|].
      intros g ms k Hg Hin. rewrite dict_set_get. destruct (seqb us k) eqn:Ek; [by eexists|]. apply seqb_false in Ek.
      specialize (Hrem k (not_eq_sym Ek)). cbn in Hrem. rewrite Hrem. by eapply H2.
  - intros _. apply (hoare_bind _ (fun _ => grouped)); [|by intros _ m0 Hm0 _]. case_bool_decide as Hgs.
    + intros m0 Hm0. unfold P in Hm0. cbn. rewrite Hm0. apply grouped_set; [done|done|]. apply (groups_wf_user a account us); [apply Hm|done|exact Hrem|]. intros g ms Hg. by apply (leave_groups_same _ _ g ms Hgs Hg).
    + apply hoare_set. intros r ->. rewrite Hss. apply grouped_rebuild; [done|done|]. cbn. apply (leave_groups_members _ (ac_users account)); [done|].
      intros k Hne. specialize (Hrem k Hne). cbn in Hrem. by rewrite Hrem.
Qed.

Lemma replace_groups_groups a account gs : members_ok (ac_users account) gs ->
  hoare (fun r => grouped r /\ dict_get (accounts r) a = Some account) (replace_groups (St := St) a account gs) (fun _ => grouped).
Proof.
  intros Hm. unfold replace_groups. apply (hoare_bind _ (fun _ r => grouped r /\ dict_get (accounts r) a = Some account)).
  - apply hoare_silent; [apply write_groups_silent|]. by intros [] r [? ?].
  - intros _. apply hoare_set. intros r [Hr Ha]. apply grouped_rebuild; [done|exact (gp_users r Hr a account Ha)|done].
Qed.

Lemma gbind_account {A} a (k : AccountInfo -> ST mgr A) :
  (forall account, members_ok (ac_users account) (ac_groups account) -> hoare (fun r => grouped r /\ dict_get (accounts r) a = Some account) (k account) (fun _ => grouped)) ->
  gkeeps (account_of a ≫= k).
Proof.
  intros Hk. apply (hoare_bind _ (fun account r => (grouped r /\ dict_get (accounts r) a = Some account) /\ members_ok (ac_users account) (ac_groups account))).
  - intros m Hm. unfold account_of, require_account. destruct (dict_get _ a) as [account|] eqn:Ea; [|done]. cbn. split; [done|]. by apply (proj1 (gp_wf _ Hm) a).
  - intros account. apply hoare_fact. apply Hk.
Qed.

Lemma gbind_group {A} a account g (k : list pystr -> ST mgr A) :
  (forall members, dict_get (ac_groups account) g = Some members -> hoare (fun r => grouped r /\ dict_get (accounts r) a = Some account) (k members) (fun _ => grouped)) ->
  hoare (fun r => grouped r /\ dict_get (accounts r) a = Some account) (group_of a g ≫= k) (fun _ => grouped).
Proof.
  intros Hk. apply (hoare_bind _ (fun members r => (grouped r /\ dict_get (accounts r) a = Some account) /\ dict_get (ac_groups account) g = Some members)).
  - intros m [Hm Ha]. unfold group_of, require_group, require_account. rewrite Ha. cbn. by destruct (dict_get (ac_groups account) g).
  - intros members. apply hoare_fact. apply Hk.
Qed.

Lemma set_group_members us gs g members : members_ok us gs -> (forall k, k ∈ members -> is_Some (dict_get us k)) -> members_ok us (dict_set gs g members).
Proof.
  intros [H1 H2] Hm. split; [by apply dict_set_nodup|]. intros h ms k. rewrite dict_set_get. destruct (seqb g h); [intros [= <-]; apply Hm|apply H2].
Qed.

Ltac group_update := first [by intros ? [? _] | apply (hoare_bind _ (fun _ => grouped)); [eapply hoare_weaken; [apply replace_groups_groups|done|by intros []]|by intros _ ? ?]].

Lemma create_group_groups a g : gkeeps (create_group (St := St) a g).
Proof.
  unfold create_group. apply gbind_check; [done|intros _]. apply gbind_account. intros account Hm. destruct (dict_get _ g); group_update.
  apply set_group_members; [done|by intros k ?%elem_of_nil].
Qed.

Lemma add_group_member_groups a g us : gkeeps (add_group_member (St := St) a g us).
Proof.
  apply gbind_account. intros account Hm. destruct (dict_get (ac_users account) us) eqn:Eu; [|group_update]. apply gbind_group. intros members Hg.
  destruct (mem us members); group_update. apply set_group_members; [done|]. intros k. rewrite sorted_strs_perm, elem_of_app, list_elem_of_singleton.
  intros [Hin| ->]; [by eapply Hm|by eexists].
Qed.

Lemma remove_group_member_groups a g us : gkeeps (remove_group_member (St := St) a g us).
Proof.
  apply gbind_account. intros account Hm. apply gbind_group. intros members Hg. destruct (negb _); group_update.
  apply set_group_members; [done|]. intros k [_ Hin]%list_elem_of_filter. by eapply Hm.
Qed.

Lemma delete_group_groups a g : gkeeps (delete_group (St := St) a g).
Proof.
  apply gbind_account. intros account Hm. apply gbind_group. intros [|] Hg; [|group_update]. apply replace_groups_groups. destruct Hm as [H1 H2]. split; [by apply dict_pop_nodup|].
  intros h ms k. rewrite dict_pop_get by done. destruct (seqb g h); [done|apply H2].
Qed.

(** ** Loading *)

(** Loading keys changes neither the set of users nor the groups. *)
Definition same_people (x y : AccountInfo) : Prop :=
  (forall us, is_Some (dict_get (ac_users y) us) <-> is_Some (dict_get (ac_users x) us)) /\ ac_groups y = ac_groups x /\ (NoDup (fst <$> ac_users x) -> NoDup (fst <$> ac_users y)).

Lemma load_user_people allow salts a accs account us info ix s account' ix' s' : is_Some (dict_get (ac_users account) us) ->
  load_user E allow salts a accs account us info ix s = (Ok (account', ix'), s') -> same_people account account'.
Proof.
  intros Hu. unfold load_user. destruct (negb _); [by intros [= <- _ _]|]. destruct (is_argon2 _); [by intros [= <- _ _]|].
  destruct (_ && _); [|by intros [= <- _ _]]. rewrite st_bind_unfold. destruct (save_users_json_for _ _ s) as [[[]|] s1]; [|done]. intros [= <- _ _].
  split_and!; [|done|]; cbn; [intros us'; by apply dict_set_dom|apply dict_set_nodup].
Qed.

Lemma load_users_people allow salts a accs pending : forall account ix s account' ix' s', (forall k info, (k, info) ∈ pending -> is_Some (dict_get (ac_users account) k)) ->
  load_users E allow salts a accs account pending ix s = (Ok (account', ix'), s') -> same_people account account'.
Proof.
  induction pending as [|[us info] pending IH]; intros account ix s account' ix' s' Hin; cbn [load_users]; [by intros [= <- _ _]|].
  rewrite st_bind_unfold. destruct (load_user _ _ _ _ _ _ _ _ _ s) as [[[account1 ix1]|] s1] eqn:El; [|done].
  destruct (load_user_people _ _ _ _ _ _ _ _ _ _ _ _ (Hin us info (list_elem_of_here _ _)) El) as (H1 & H2 & H3). intros Hl.
  apply IH in Hl as (H4 & H5 & H6); [|intros k i Hk; apply H1, (Hin k i); by right]. split_and!; [intros k; by rewrite H4, H1|by rewrite H5|auto].
Qed.

Lemma load_users_files L allow salts a accs pending : ~ L a -> forall account ix s, files_on L s -> files_on L (load_users E allow salts a accs account pending ix s).2.
Proof.
  intros HL. induction pending as [|[us info] pending IH]; intros account ix s Hs; cbn [load_users]; [done|]. rewrite st_bind_unfold.
  assert (files_on L (load_user E allow salts a accs account us info ix s).2) as H1.
  { unfold load_user. destruct (negb _); [done|]. destruct (is_argon2 _); [done|]. destruct (_ && _); [|done]. rewrite st_bind_unfold.
    set (accs' := dict_set accs a _). pose proof (save_users_for_files L a accs' s Hs HL) as H1. by destruct (save_users_json_for a accs' s) as [[[]|] s1]. }
  destruct (load_user _ _ _ _ _ _ _ _ _ s) as [[[account1 ix1]|] s1]; [by apply IH|done].
Qed.

(** One more account in the index. *)
Lemma grouped_load a us gs account r ix : grouped r -> dict_get (accounts r) a = None -> NoDup (fst <$> us) -> members_ok us gs ->
  (forall k, is_Some (dict_get (ac_users account) k) <-> is_Some (dict_get us k)) -> NoDup (fst <$> ac_users account) -> ac_groups account = gs ->
  grouped (MkRing (dict_set (accounts r) a account) ix (add_memberships a (group_memberships us gs) (user_group_ids r))).
Proof.
  intros Hr Hnone Hnd Hm Hdom Hnda Hgs. destruct (gp_wf r Hr) as [Hall Hex]. destruct (group_memberships_ok us gs) as [Hndm Hmem].
  assert (members_ok (ac_users account) (ac_groups account)) as Hma.
  { destruct Hm as [H1 H2]. rewrite Hgs. split; [done|]. intros g ms k Hg Hk. apply Hdom. by eapply H2. }
  split; [apply dict_set_nodup, Hr| |split].
  - intros b acc. cbn. rewrite dict_set_get. destruct (seqb a b); [by intros [= <-]|apply Hr].
  - by apply (all_members_set a account r).
  - intros b k g _. unfold get_user_group_ids. cbn [user_group_ids]. rewrite add_memberships_lookup by done. etrans; [|symmetry; apply (in_group_set a account r b k g)].
    destruct (decide (b = a)) as [->|Hne]; [|by apply Hex]. specialize (Hmem k g). unfold listed in Hmem. specialize (Hex a k g I).
    assert (~ in_group r a k g) as Hno by (unfold in_group; rewrite Hnone; naive_solver).
    rewrite Hdom, Hgs. destruct Hm as [Hndg _].
    assert ((exists members, (g, members) ∈ gs /\ k ∈ members) <-> (exists members, dict_get gs g = Some members /\ k ∈ members)) as Heq.
    { split; intros (ms & Hg & Hk); exists ms; split; try done; [by apply dict_get_in|by apply dict_get_elem]. }
    rewrite <- Heq, <- Hmem. destruct (dict_get (group_memberships us gs) k); [done|]. cbn. rewrite elem_of_nil. unfold get_user_group_ids in Hex. tauto.
Qed.

Lemma build_state_groups allow salts pending : forall r s r' s', NoDup (fst <$> pending) -> (forall a, a ∈ (fst <$> pending) -> dict_get (accounts r) a = None) ->
  grouped r -> files_on (fun a => a ∈ (fst <$> pending)) s -> build_state E allow salts pending r s = (Ok r', s') -> grouped r'.
Proof.
  induction pending as [|[a created] pending IH]; intros r s r' s' Hnd Hnew Hr Hs; cbn [build_state]; [by intros [= <- <-]|].
  rewrite st_bind_unfold. destruct (kf_read_users a s) as [ous|] eqn:Eu; [|done]. cbn [fmap result_fmap]. rewrite st_bind_unfold.
  destruct (kf_read_groups a s) as [ogs|] eqn:Eg; [|done]. cbn [fmap result_fmap]. rewrite st_bind_unfold.
  cbn [fmap list_fmap fst] in *. apply NoDup_cons in Hnd as [Hn Hnd].
  destruct (Hs a ous ogs (list_elem_of_here _ _)) as [[Hndu Hwf] Hm]; [unfold kf_reads; by rewrite Eu, Eg|].
  destruct (load_users _ _ _ _ _ _ _ _ s) as [[[account1 ix1]|] s1] eqn:El; [|done].
  assert (files_on (fun a' => a' ∈ (fst <$> pending)) s1) as Hs1.
  { assert (files_on (fun a' => a' ∈ (fst <$> pending)) s) as Hs' by (intros a' us gs Ha'; apply Hs; by right).
    pose proof (load_users_files _ allow salts a (accounts r) (default [] ous) Hn (MkAccount created (default [] ous) (default [] ogs)) (prefix_index r) s Hs') as Hl. by rewrite El in Hl. }
  apply load_users_people in El as (H1 & H2 & H3); [|intros k info Hk; exists info; by apply dict_get_in].
  apply IH; [done| | |done].
  - intros a' Ha'. cbn. rewrite dict_set_get. rewrite (proj2 (seqb_false a a')); [apply Hnew; by right|]. by intros ->.
  - apply grouped_load; [done|apply Hnew; left|done|done|exact H1|by apply H3|exact H2].
Qed.

Lemma empty_grouped : grouped empty_ring.
Proof.
  split; [constructor|done|]. split; [done|]. intros a us g _. unfold get_user_group_ids, in_group. cbn. rewrite lookup_empty. cbn. rewrite elem_of_nil. naive_solver.
Qed.

Lemma load_groups salts now m m' : files_ok (mg_store m) -> accounts_ok (mg_store m) -> load E salts now m = (Ok tt, m') -> grouped (mg_ring m').
Proof.
  intros Hf Ha. unfold load. rewrite st_bind_unfold. destruct (kf_read_accounts (mg_store m)) as [[l|]|] eqn:El; [| |done]; rewrite st_bind_unfold.
  - cbn [mret ST_ret]. destruct (build_state E true salts l empty_ring (mg_store m)) as [[r|] s'] eqn:Eb; [|done]. intros [= <-].
    apply build_state_groups in Eb; [done|by apply Ha|done|apply empty_grouped|by intros a us gs _; apply Hf].
  - rewrite st_bind_unfold. pose proof (files_on_frame _ _ _ Hf (fun a _ => kf_accounts_frame [(u "default", now)] (mg_store m) a)) as Hf1.
    destruct (kf_write_accounts _ _) as [[[]|] s1]; [|done]. cbn in Hf1. cbn [mret ST_ret]. destruct (build_state E true salts _ empty_ring s1) as [[r|] s'] eqn:Eb; [|done].
    intros [= <-]. apply build_state_groups in Eb; [done|apply NoDup_singleton|done|apply empty_grouped|by intros a us gs _; apply Hf1].
Qed.

Lemma reload_groups salts m : grouped (mg_ring m) -> files_ok (mg_store m) -> accounts_ok (mg_store m) -> grouped (mg_ring (reload E salts m).2).
Proof.
  intros Hr Hf Ha. unfold reload. rewrite st_bind_unfold. destruct (kf_read_accounts (mg_store m)) as [[l|]|] eqn:El; [|done|done]. rewrite st_bind_unfold.
  destruct (build_state E false salts l empty_ring (mg_store m)) as [[r|] s'] eqn:Eb; [|done]. cbn.
  apply build_state_groups in Eb; [done|by apply Ha|done|apply empty_grouped|by intros a us gs _; apply Hf].
Qed.

Lemma forget_groups {A} (op : ST mgr A) : gkeeps op -> gkeeps (forget op).
Proof. intros H. apply (hoare_bind _ (fun _ => grouped)); [eapply hoare_weaken; [exact H|done|by intros []]|by intros _ m Hm]. Qed.

(** States reached by operations that return or raise, none being cancelled. *)
Inductive uncancelled : mgr -> Prop :=
| un_load salts now m m' : files_ok (mg_store m) -> accounts_ok (mg_store m) -> load E salts now m = (Ok tt, m') -> uncancelled m'
| un_op op m : uncancelled m -> op_ok E op m -> calm (run_op E op m).1 -> uncancelled (run_op E op m).2.

Lemma finish_deletion_run a us task m : grouped (mg_ring m) -> calm (run_op E (KFinishDeletion a us task) m).1 -> grouped (mg_ring (run_op E (KFinishDeletion a us task) m).2).
Proof. intros Hm Hc%forget_err. cbn [run_op]. rewrite forget_state. by apply finish_user_deletion_groups. Qed.

Lemma uncancelled_grouped m : uncancelled m -> grouped (mg_ring m).
Proof.
  induction 1 as [salts now m m' Hf Ha Hl|op m _ IH Hok Hc]; [by eapply load_groups|].
  destruct op; try (by apply finish_deletion_run); clear Hc; cbn [run_op op_ok] in *; try (apply (forget_groups _)); try done.
  - apply create_account_groups.
  - apply legacy_create_account_groups.
  - by apply delete_account_groups.
  - apply register_groups.
  - apply register_groups.
  - apply regenerate_groups.
  - apply regenerate_groups.
  - by apply set_role_groups.
  - apply begin_user_deletion_groups.
  - apply replace_user_deletion_task_groups.
  - apply create_group_groups.
  - apply add_group_member_groups.
  - apply remove_group_member_groups.
  - by apply delete_group_groups.
  - destruct Hok. by apply reload_groups.
Qed.

(** The groups a user is given for access control are exact: in every state the
    managers reach without an operation being cancelled halfway, [get_user_group_ids] lists a group if and only if the user is
    registered in the account and the group lists the user as a member. *)
Theorem group_ids_exact (m : mgr) (a us g : pystr) : uncancelled m -> g ∈ get_user_group_ids (mg_ring m) a us <-> in_group (mg_ring m) a us g.
Proof. intros Hm. by apply (gp_wf _ (uncancelled_grouped m Hm)). Qed.
End ops.

(** ** Concrete runs *)

Module GroupRuns.
Import KeyRuns.

Definition ops_group : manager mem :=
  (run_op hashed (KAddMember (u "acme") (u "ops") (u "bob")) (run_op hashed (KCreateGroup (u "acme") (u "ops")) with_bob).2).2.

Lemma group_ids_exact_witness : u "ops" ∈ get_user_group_ids (mg_ring ops_group) (u "acme") (u "bob") <-> in_group (mg_ring ops_group) (u "acme") (u "bob") (u "ops").
Proof.
  apply (group_ids_exact hashed ops_group). apply (un_op hashed (KAddMember (u "acme") (u "ops") (u "bob"))); [|done|by intros e [=]].
  apply (un_op hashed (KCreateGroup (u "acme") (u "ops"))); [|done|by intros e [=]].
  apply (un_op hashed (KRegister d2 (u "acme") (u "bob") USER None)); [|done|by intros e [=]].
  apply (un_op hashed (KCreate d1 (u "now") (u "acme") (u "alice") None)); [|done|by intros e [=]].
  eapply (un_load hashed (fun _ => []) (u "now") (MkManager empty_ring blank_store)); [|done|done].
  intros a us gs _ [= <- <-]. by repeat split; try constructor.
Defined.

Example ops_group_run : get_user_group_ids (mg_ring ops_group) (u "acme") (u "bob") = [u "ops"] /\ get_user_group_ids (mg_ring ops_group) (u "acme") (u "alice") = [].
Proof. split; by vm_compute. Qed.

(** A store that loses the second of the two writes of a finished deletion. *)
Definition groups_down : KeyFiles mem := {|
  kf_read_accounts := @kf_read_accounts mem files; kf_read_users := @kf_read_users mem files; kf_read_groups := @kf_read_groups mem files;
  kf_write_accounts := @kf_write_accounts mem files; kf_write_users := @kf_write_users mem files; kf_write_groups a gs s := (Err OtherError, s);
  kf_acquire := @kf_acquire mem files; kf_release := @kf_release mem files |}.

(** When the groups file cannot be written after the users file was, the deleted user is
    restored in memory only; after the next reload a new user of the same name is born
    with the old user's groups. *)
Example recreated_user_inherits_groups :
  let fenced := (begin_user_deletion (u "acme") (u "bob") (MkDeletion (u "t1") (u "acme") (u "alice")) ops_group).2 in
  let failed := @finish_user_deletion mem groups_down (u "acme") (u "bob") (u "t1") fenced in
  let reloaded := (reload hashed (fun _ => []) failed.2).2 in
  let reborn := (reload hashed (fun _ => []) (register_user hashed d1 (u "acme") (u "bob") USER None reloaded).2).2 in
  failed.1 = Err OtherError /\ has_user (mg_ring reloaded) (u "acme") (u "bob") = false
  /\ get_user_group_ids (mg_ring reborn) (u "acme") (u "bob") = [u "ops"].
Proof. split_and!; by vm_compute. Qed.
End GroupRuns.
