(* ===== verification/UriMutation.v ===== *)
(** URI leases: [openviking/resource/uri_mutation_coordinator.py].

    Operations that need a URI to stay where it is hold access leases on it, moves hold
    mutation leases.  The coordinator's state, its operations and the interleavings of
    its users as a step relation; mutations exclude every overlapping lease, nested
    accesses never wait, and every waiter can get in. *)
From Stdlib Require Import NArith.
From S2P Require Import Prelude PyStr.

Open Scope N_scope.

(** ** URI scopes *)

Definition normalize_uri (uri : pystr) : pystr := rstrip is_slash uri.

Definition normalize_uris (uris : list (option pystr)) : list pystr :=
  sorted_strs (remove_dups (normalize_uri <$> filter (fun uri => nonempty uri = true) (omap id uris))).

Definition uri_matches_prefix (uri : option pystr) (pfx : pystr) : bool :=
  match uri with
  | None => false
  | Some uri =>
      nonempty uri &&
      (seqb (normalize_uri uri) (normalize_uri pfx) || startswith (normalize_uri pfx ++ [c_slash]) (normalize_uri uri))
  end.

Definition uris_overlap (left right : list pystr) : bool :=
  existsb (fun l => existsb (fun r => uri_matches_prefix (Some l) r || uri_matches_prefix (Some r) l) right) left.

(** ** Leases *)

(** Leases are compared by identity ([eq=False], [current is lease]): [lease_id]. *)
Record UriLease := MkLease { lease_id : nat; lease_account : pystr; lease_uris : list pystr }.

#[export] Instance UriLease_eq_dec : EqDecision UriLease.
Proof. solve_decision. Defined.

Definition overlaps (self other : UriLease) : bool :=
  seqb (lease_account self) (lease_account other) && uris_overlap (lease_uris self) (lease_uris other).

Record coordinator := MkCoordinator { active_accesses : list UriLease; active_mutations : list UriLease }.

Definition empty_coordinator : coordinator := MkCoordinator [] [].

Definition active_leases (mutation : bool) (c : coordinator) : list UriLease :=
  if mutation then active_mutations c else active_accesses c.

Definition set_active (mutation : bool) (active : list UriLease) (c : coordinator) : coordinator :=
  if mutation then MkCoordinator (active_accesses c) active else MkCoordinator active (active_mutations c).

Definition has_blocker (lease : UriLease) (mutation : bool) (c : coordinator) : bool :=
  existsb (overlaps lease) (active_mutations c) || mutation && existsb (overlaps lease) (active_accesses c).

(** One round of [_acquire]'s loop under the condition: [None] is [wait()]. *)
Definition acquire (lease : UriLease) (mutation : bool) (c : coordinator) : option coordinator :=
  if has_blocker lease mutation c then None else Some (set_active mutation (active_leases mutation c ++ [lease]) c).

Fixpoint remove_lease (lease : UriLease) (active : list UriLease) : list UriLease :=
  match active with
  | [] => []
  | current :: rest => if (lease_id current =? lease_id lease)%nat then rest else current :: remove_lease lease rest
  end.

Definition release (lease : UriLease) (mutation : bool) (c : coordinator) : coordinator :=
  set_active mutation (remove_lease lease (active_leases mutation c)) c.

(** ** Interleavings *)

(** The coordinator with its waiters, and the number of leases made so far. *)
Record system := MkSystem { sys : coordinator; waiting : list (UriLease * bool); made : nat }.

(** A user of [access] or [mutation] makes a lease and enters [_acquire]; a waiter goes
    through when nothing blocks it, or is cancelled; a holder releases. *)
Inductive step : system -> system -> Prop :=
| step_enter s account_id uris mutation :
    step s (MkSystem (sys s) (waiting s ++ [(MkLease (made s) account_id (normalize_uris uris), mutation)]) (S (made s)))
| step_acquire s ws1 lease mutation ws2 c :
    waiting s = ws1 ++ (lease, mutation) :: ws2 -> acquire lease mutation (sys s) = Some c ->
    step s (MkSystem c (ws1 ++ ws2) (made s))
| step_cancel s ws1 w ws2 :
    waiting s = ws1 ++ w :: ws2 -> step s (MkSystem (sys s) (ws1 ++ ws2) (made s))
| step_release s lease mutation :
    lease ∈ active_leases mutation (sys s) -> step s (MkSystem (release lease mutation (sys s)) (waiting s) (made s)).

Definition initial : system := MkSystem empty_coordinator [] 0.
Abbreviation reachable := (rtc step initial).

(** ** Scopes are paths *)

Definition segments (uri : pystr) : list pystr := split c_slash (normalize_uri uri).

(** Equal, or one below the other. *)
Definition touches (a b : pystr) : Prop := segments a `prefix_of` segments b \/ segments b `prefix_of` segments a.

Lemma split_app_char c a b : split c (a ++ c :: b) = split c a ++ split c b.
Proof.
  induction a as [|x a IH]; cbn; [by rewrite N.eqb_refl|].
  destruct (x =? c); [by rewrite IH|]. rewrite IH. destruct (split c a) as [|y l] eqn:E; [by destruct (split_not_nil c a)|done].
Qed.

Lemma segments_prefix p q : split c_slash p `prefix_of` split c_slash q <-> q = p \/ p ++ [c_slash] `prefix_of` q.
Proof.
  split.
  - intros [l Hl]. destruct (decide (l = [])) as [->|Hne].
    + left. rewrite app_nil_r in Hl. rewrite <- (join_split c_slash q), Hl. by rewrite join_split.
    + right. exists (join [c_slash] l). rewrite <- (join_split c_slash q), Hl.
      rewrite (join_app _ _ _ (split_not_nil _ _) Hne), join_split. by rewrite <- app_assoc.
  - intros [->|[r ->]]; [done|]. rewrite <- app_assoc. cbn. rewrite split_app_char. by exists (split c_slash r).
Qed.

Lemma matches_segments uri p : uri_matches_prefix (Some uri) p = true <-> uri <> [] /\ segments p `prefix_of` segments uri.
Proof.
  unfold uri_matches_prefix, segments. rewrite segments_prefix, andb_true_iff, orb_true_iff, nonempty_true, seqb_true, startswith_iff. done.
Qed.

Lemma touches_comm a b : touches a b -> touches b a.
Proof. intros [H|H]; [by right|by left]. Qed.

Lemma overlap_touches l r : uris_overlap l r = true -> exists a b, a ∈ l /\ b ∈ r /\ touches a b.
Proof.
  unfold uris_overlap. intros (a & Ha & (b & Hb & H)%existsb_exists)%existsb_exists. exists a, b.
  rewrite !list_elem_of_In. do 2 (split; [done|]).
  apply orb_true_iff in H as [[_ H]%matches_segments|[_ H]%matches_segments]; [by right|by left].
Qed.

Lemma touches_overlap l r a b : a ∈ l -> b ∈ r -> a <> [] -> b <> [] -> touches a b -> uris_overlap l r = true.
Proof.
  intros Ha Hb Hna Hnb H. apply existsb_exists. exists a. split; [by apply list_elem_of_In|].
  apply existsb_exists. exists b. split; [by apply list_elem_of_In|]. apply orb_true_iff.
  destruct H as [H|H]; [right|left]; by apply matches_segments.
Qed.

Lemma uris_overlap_comm l r : uris_overlap l r = uris_overlap r l.
Proof.
  apply eq_true_iff_eq. unfold uris_overlap. rewrite !existsb_exists.
  split; intros (a & Ha & (b & Hb & H)%existsb_exists); exists b; (split; [done|]); apply existsb_exists; exists a; split; try done; by rewrite orb_comm.
Qed.

Lemma overlaps_comm a b : overlaps a b = overlaps b a.
Proof. unfold overlaps. rewrite uris_overlap_comm. f_equal. apply eq_true_iff_eq. rewrite !seqb_true. naive_solver. Qed.

(** ** The invariant *)

(** Leases have identities of their own, and an active mutation overlaps no other
    active lease. *)
Record coherent (c : coordinator) : Prop := {
  co_ids : NoDup (lease_id <$> active_accesses c ++ active_mutations c);
  co_apart : forall l l', l ∈ active_mutations c -> l' ∈ active_mutations c -> l <> l' -> overlaps l l' = false;
  co_stable : forall l l', l ∈ active_mutations c -> l' ∈ active_accesses c -> overlaps l l' = false }.

Definition ids (s : system) : list nat :=
  (lease_id <$> active_accesses (sys s) ++ active_mutations (sys s)) ++ ((fun w => lease_id w.1) <$> waiting s).

Record sys_ok (s : system) : Prop := {
  so_coherent : coherent (sys s);
  so_ids : NoDup (ids s);
  so_made : Forall (fun i => i < made s)%nat (ids s) }.

Lemma remove_lease_sub l active x : x ∈ remove_lease l active -> x ∈ active.
Proof.
  induction active as [|y r IH]; cbn; [done|]. destruct (lease_id y =? lease_id l)%nat; rewrite !elem_of_cons; [by right|]. intros [H|H]; [by left|right; auto].
Qed.

Lemma remove_lease_perm l active : NoDup (lease_id <$> active) -> l ∈ active -> active ≡ₚ l :: remove_lease l active.
Proof.
  induction active as [|y r IH]; cbn; [by intros _ ?%elem_of_nil|]. intros [Hy Hr]%NoDup_cons Hl.
  destruct (lease_id y =? lease_id l)%nat eqn:E.
  - apply Nat.eqb_eq in E. apply elem_of_cons in Hl as [->|Hl]; [done|]. destruct Hy. rewrite E. by apply list_elem_of_fmap_2.
  - apply elem_of_cons in Hl as [->|Hl]; [by rewrite Nat.eqb_refl in E|]. rewrite (IH Hr Hl) at 1. constructor.
Qed.

Lemma active_nodup c m : coherent c -> NoDup (lease_id <$> active_leases m c).
Proof. intros [H _ _]. rewrite fmap_app in H. apply NoDup_app in H as (H1 & _ & H2). by destruct m. Qed.

(** Which leases are active after an acquisition and a release. *)
Lemma acquire_active l m c c' : acquire l m c = Some c' ->
  has_blocker l m c = false /\ active_accesses c' ++ active_mutations c' ≡ₚ l :: active_accesses c ++ active_mutations c /\
  (forall b x, x ∈ active_leases b c' <-> x ∈ active_leases b c \/ b = m /\ x = l).
Proof.
  unfold acquire. destruct (has_blocker l m c); [done|]. intros [= <-]. split; [done|]. destruct m; cbn.
  - split; [rewrite app_assoc, Permutation_app_comm; by cbn|]. intros [] x; cbn; [rewrite elem_of_app, list_elem_of_singleton|]; naive_solver.
  - split; [rewrite <- app_assoc; cbn; by rewrite <- Permutation_middle|]. intros [] x; cbn; [|rewrite elem_of_app, list_elem_of_singleton]; naive_solver.
Qed.

Lemma release_active l m c : coherent c -> l ∈ active_leases m c ->
  active_accesses c ++ active_mutations c ≡ₚ l :: active_accesses (release l m c) ++ active_mutations (release l m c) /\
  (forall b x, x ∈ active_leases b (release l m c) -> x ∈ active_leases b c).
Proof.
  intros Hc Hl. pose proof (remove_lease_perm _ _ (active_nodup _ m Hc) Hl) as Hp. unfold release. destruct m; cbn in *.
  - split; [rewrite Hp at 1; by rewrite <- Permutation_middle|]. intros [] x; cbn; [apply remove_lease_sub|done].
  - split; [by rewrite Hp at 1|]. intros [] x; cbn; [done|apply remove_lease_sub].
Qed.

Lemma no_blocker l m c x : has_blocker l m c = false -> (x ∈ active_mutations c \/ m = true /\ x ∈ active_accesses c) -> overlaps l x = false.
Proof.
  unfold has_blocker. rewrite orb_false_iff, andb_false_iff. intros [H1 H2] Hx. apply not_true_is_false. intros Ho.
  destruct Hx as [Hx|[-> Hx]].
  - apply not_true_iff_false in H1. destruct H1. apply existsb_exists. exists x. by rewrite <- list_elem_of_In.
  - destruct H2 as [H2|H2]; [done|]. apply not_true_iff_false in H2. destruct H2. apply existsb_exists. exists x. by rewrite <- list_elem_of_In.
Qed.

Lemma acquire_coherent l m c c' : coherent c -> NoDup (lease_id <$> l :: active_accesses c ++ active_mutations c) -> acquire l m c = Some c' -> coherent c'.
Proof.
  intros [Hi Ha Hs] Hn H. destruct (acquire_active _ _ _ _ H) as (Hb & Hp & Hx). split.
  - by rewrite Hp.
  - intros x y Hxm Hym Hne. apply (Hx true) in Hxm as [Hxm|[Em ->]], Hym as [Hym|[Em' ->]]; cbn in *; auto.
    + rewrite overlaps_comm. eapply no_blocker; eauto.
    + eapply no_blocker; eauto.
    + done.
  - intros x y Hxm Hya. apply (Hx true) in Hxm as [Hxm|[Em ->]]; apply (Hx false) in Hya as [Hya|[Em' ->]]; cbn in *; auto.
    + rewrite overlaps_comm. eapply no_blocker; eauto.
    + eapply no_blocker; eauto.
    + congruence.
Qed.

Lemma release_coherent l m c : coherent c -> l ∈ active_leases m c -> coherent (release l m c).
Proof.
  intros Hc Hl. destruct (release_active _ _ _ Hc Hl) as [Hp Hx]. destruct Hc as [Hi Ha Hs]. split.
  - rewrite Hp in Hi. by apply NoDup_cons in Hi as [_ Hi].
  - intros x y Hxm Hym. apply Ha; by apply (Hx true).
  - intros x y Hxm Hya. apply Hs; [by apply (Hx true)|by apply (Hx false)].
Qed.

Lemma ids_perm s s' : ids s' ≡ₚ ids s -> NoDup (ids s) -> NoDup (ids s').
Proof. by intros ->. Qed.

Lemma step_ok s s' : step s s' -> sys_ok s -> sys_ok s'.
Proof.
  intros Hst [Hc Hn Hm]. destruct Hst as [s a uris m|s ws1 l m ws2 c Hw Hac|s ws1 w ws2 Hw|s l m Hl].
  - assert (ids (MkSystem (sys s) (waiting s ++ [(MkLease (made s) a (normalize_uris uris), m)]) (S (made s))) = ids s ++ [made s]) as E.
    { unfold ids. cbn [sys waiting]. by rewrite (fmap_app _ (waiting s)), app_assoc. }
    split; [done| |]; rewrite E.
    + apply NoDup_app. split; [done|]. split; [|apply NoDup_singleton]. intros i Hi ->%list_elem_of_singleton.
      pose proof (proj1 (Forall_forall _ _) Hm _ Hi) as Hlt. cbn in Hlt. lia.
    + apply Forall_app. split; [|by repeat constructor]. eapply Forall_impl; [exact Hm|]. cbn. lia.
  - destruct (acquire_active _ _ _ _ Hac) as (_ & Hp & _).
    assert (ids (MkSystem c (ws1 ++ ws2) (made s)) ≡ₚ ids s) as E.
    { unfold ids. cbn [sys waiting]. rewrite Hp, Hw, !(fmap_app (fun w : UriLease * bool => lease_id w.1)), !fmap_cons. cbn [fst].
      rewrite <- (Permutation_middle (_ <$> ws1)). cbn [app]. by rewrite <- Permutation_middle. }
    split; cbn.
    + eapply acquire_coherent; eauto. rewrite fmap_cons. unfold ids in Hn. rewrite Hw, (fmap_app (fun w : UriLease * bool => lease_id w.1)), fmap_cons in Hn. cbn [fst] in Hn.
      rewrite app_assoc, <- Permutation_middle in Hn. apply NoDup_cons in Hn as [Hi Hn]. apply NoDup_cons. split; [|apply Hc].
      intros Hin. apply Hi. rewrite !elem_of_app. tauto.
    + by rewrite E.
    + by rewrite E.
  - assert (ids s ≡ₚ lease_id w.1 :: ids (MkSystem (sys s) (ws1 ++ ws2) (made s))) as E.
    { unfold ids. cbn [sys waiting]. rewrite Hw, !(fmap_app (fun w : UriLease * bool => lease_id w.1)), fmap_cons.
      by rewrite !app_assoc, <- Permutation_middle. }
    rewrite E in Hn, Hm. apply NoDup_cons in Hn as [_ Hn]. apply Forall_cons in Hm as [_ Hm]. by split.
  - destruct (release_active _ _ _ Hc Hl) as [Hp _].
    assert (ids s ≡ₚ lease_id l :: ids (MkSystem (release l m (sys s)) (waiting s) (made s))) as E.
    { unfold ids. cbn [sys waiting]. by rewrite Hp. }
    rewrite E in Hn, Hm. apply NoDup_cons in Hn as [_ Hn]. apply Forall_cons in Hm as [_ Hm]. split; [by apply release_coherent|done|done].
Qed.

Lemma reachable_ok s : reachable s -> sys_ok s.
Proof.
  intros H. assert (sys_ok initial) as Hi by (split; [split; [constructor|by intros ?? ?%elem_of_nil|by intros ?? ?%elem_of_nil]|constructor|constructor]).
  revert Hi. induction H as [|s s1 s2 Hst _ IH]; [done|]. intros Hi. by apply IH, (step_ok s).
Qed.

(** ** Exclusion *)

Lemma apart l l' a b : overlaps l l' = false -> lease_account l = lease_account l' -> a ∈ lease_uris l -> b ∈ lease_uris l' ->
  a <> [] -> b <> [] -> ~ touches a b.
Proof.
  unfold overlaps. intros Ho Ha Hin Hin' Hna Hnb Ht. apply andb_false_iff in Ho as [Ho|Ho]; [by apply seqb_false in Ho|].
  by rewrite (touches_overlap _ _ _ _ Hin Hin' Hna Hnb Ht) in Ho.
Qed.

(** C23: A URI mutation is exclusive: in every interleaving of requests, acquisitions,
    cancellations and releases, while a mutation lease is held no other lease of the
    account, for access or for mutation, is held on the same URI, on one below it or on
    one above it. *)
Theorem mutation_exclusive (s : system) (l l' : UriLease) (mutation : bool) (a b : pystr) :
  reachable s -> l ∈ active_mutations (sys s) -> l' ∈ active_leases mutation (sys s) -> l <> l' -> lease_account l = lease_account l' ->
  a ∈ lease_uris l -> b ∈ lease_uris l' -> a <> [] -> b <> [] -> ~ touches a b.
Proof.
  intros [[_ Ha Hs] _ _]%reachable_ok Hl Hl' Hne. apply apart. destruct mutation; [by apply Ha|by apply Hs].
Qed.

(** ** Nesting *)

(** [covers l uris]: every one of [uris] is below one of the lease's. *)
Definition covers (l : UriLease) (uris : list pystr) : Prop := forall b, b ∈ uris -> exists a, a ∈ lease_uris l /\ a <> [] /\ segments a `prefix_of` segments b.

Lemma prefix_comparable {A} (l1 l2 l : list A) : l1 `prefix_of` l -> l2 `prefix_of` l -> l1 `prefix_of` l2 \/ l2 `prefix_of` l1.
Proof. apply prefix_weak_total. Qed.

Lemma normalize_uris_elem uris b : b ∈ normalize_uris uris <-> exists uri, Some uri ∈ uris /\ uri <> [] /\ b = normalize_uri uri.
Proof.
  unfold normalize_uris. rewrite sorted_strs_perm, elem_of_remove_dups, list_elem_of_fmap. setoid_rewrite list_elem_of_filter.
  setoid_rewrite list_elem_of_omap. setoid_rewrite nonempty_true. split.
  - intros (uri & -> & Hne & x & Hx & E). unfold id in E. subst x. by exists uri.
  - intros (uri & Hin & Hne & ->). exists uri. do 2 (split; [done|]). by exists (Some uri).
Qed.

Lemma blocked l m c : has_blocker l m c = true -> exists x b, x ∈ active_leases b c /\ (b = true \/ m = true) /\ overlaps l x = true.
Proof.
  unfold has_blocker. rewrite orb_true_iff, andb_true_iff. intros [(x & Hx & Ho)%existsb_exists|[-> (x & Hx & Ho)%existsb_exists]].
  - exists x, true. rewrite list_elem_of_In. auto.
  - exists x, false. rewrite list_elem_of_In. auto.
Qed.

(** A holder of an access lease never waits for another access below its own URIs,
    whatever mutations are waiting: nested accesses (a scheduled run that updates its
    own task) cannot deadlock with a move. *)
Theorem nested_access_enters (s : system) (outer inner : UriLease) :
  reachable s -> outer ∈ active_accesses (sys s) -> lease_account inner = lease_account outer ->
  Forall (fun b => b <> []) (lease_uris inner) -> covers outer (lease_uris inner) ->
  Forall (fun l => Forall (fun b => b <> []) (lease_uris l)) (active_mutations (sys s)) ->
  exists c, acquire inner false (sys s) = Some c.
Proof.
  intros [[_ _ Hs] _ _]%reachable_ok Ho Ha Hn Hc Hm. unfold acquire. destruct (has_blocker inner false (sys s)) eqn:Hb; [|eauto].
  apply blocked in Hb as (x & b & Hx & [->|?] & Hov); [|done]. cbn in Hx. exfalso.
  unfold overlaps in Hov. apply andb_true_iff in Hov as [Hacc%seqb_true (i & m & Hi & Hmi & Ht)%overlap_touches].
  destruct (Hc _ Hi) as (o & Hoin & Hone & Hpre). pose proof (Hs _ _ Hx Ho) as Hap.
  assert (m <> []) as Hmne by (exact (proj1 (Forall_forall _ _) (proj1 (Forall_forall _ _) Hm _ Hx) _ Hmi)).
  apply (apart _ _ m o Hap); auto; [congruence|]. unfold touches in *. destruct Ht as [Ht|Ht].
  - right. by etrans.
  - destruct (prefix_comparable _ _ _ Hpre Ht); auto.
Qed.

(** ** Progress *)

(** Releasing leases one after the other. *)
Lemma drain s : reachable s -> exists c, rtc step s (MkSystem c (waiting s) (made s)) /\ active_accesses c = [] /\ active_mutations c = [].
Proof.
  remember (length (active_accesses (sys s) ++ active_mutations (sys s))) as n eqn:En. revert s En. induction n as [|n IH]; intros s En Hr.
  - destruct (active_accesses (sys s) ++ active_mutations (sys s)) eqn:E; [|done]. apply app_eq_nil in E as [E1 E2].
    exists (sys s). split; [destruct s; apply rtc_refl|done].
  - assert (exists l m, l ∈ active_leases m (sys s)) as (l & m & Hl).
    { destruct (active_accesses (sys s)) as [|l r] eqn:E1; [destruct (active_mutations (sys s)) as [|l r] eqn:E2; [done|]|].
      - exists l, true. cbn. rewrite E2. by left.
      - exists l, false. cbn. rewrite E1. by left. }
    pose proof (step_release s l m Hl) as Hst. destruct (release_active _ _ _ (so_coherent _ (reachable_ok _ Hr)) Hl) as [Hp _].
    apply Permutation_length in Hp. cbn in Hp. destruct (IH (MkSystem (release l m (sys s)) (waiting s) (made s))) as (c & Hrun & Hc).
    + cbn [sys]. rewrite Hp in En. by injection En.
    + by eapply rtc_r.
    + exists c. split; [|done]. by eapply rtc_l.
Qed.

(** Nobody waits for ever by force: from every reachable state, once the leases held
    there are released, every waiting request can enter. *)
Theorem waiter_enters (s : system) (ws1 ws2 : list (UriLease * bool)) (lease : UriLease) (mutation : bool) :
  reachable s -> waiting s = ws1 ++ (lease, mutation) :: ws2 ->
  exists s', rtc step s s' /\ waiting s' = ws1 ++ ws2 /\ lease ∈ active_leases mutation (sys s').
Proof.
  intros Hr Hw. destruct (drain s Hr) as (c & Hrun & Ha & Hm).
  destruct (acquire lease mutation c) as [c'|] eqn:E.
  - exists (MkSystem c' (ws1 ++ ws2) (made s)). split; [|split; [done|]].
    + eapply rtc_r; [exact Hrun|]. by eapply (step_acquire (MkSystem c (waiting s) (made s))).
    + destruct (acquire_active _ _ _ _ E) as (_ & _ & Hx). apply Hx. by right.
  - unfold acquire, has_blocker in E. rewrite Ha, Hm in E. cbn in E. by rewrite andb_false_r in E.
Qed.

(** ** A run *)

Module LeaseRuns.
Definition docs : pystr := u "viking://resources/docs".
Definition attic : pystr := u "viking://resources/attic".
Definition notes : pystr := u "viking://resources/notes".
Definition acme : pystr := u "acme".

(** A move of [docs] to [attic] holds its lease; then [notes] is accessed beside it, and
    an access to a document below [docs] waits. *)
Definition mover : UriLease := MkLease 0 acme (normalize_uris [Some docs; Some attic]).
Definition reader : UriLease := MkLease 1 acme (normalize_uris [Some notes]).
Definition blocked_reader : UriLease := MkLease 2 acme (normalize_uris [Some (docs ++ u "/a")]).
Definition moving_docs : system := MkSystem (MkCoordinator [] [mover]) [] 1.
Definition beside_docs : system := MkSystem (MkCoordinator [reader] [mover]) [(blocked_reader, false)] 3.

Lemma moving_docs_reachable : reachable moving_docs.
Proof.
  eapply rtc_l; [apply (step_enter initial acme [Some docs; Some attic] true)|]. apply rtc_once.
  exact (step_acquire (MkSystem empty_coordinator [(mover, true)] 1) [] mover true [] (MkCoordinator [] [mover]) eq_refl eq_refl).
Qed.

Lemma beside_docs_reachable : reachable beside_docs.
Proof.
  etrans; [exact moving_docs_reachable|]. eapply rtc_l; [apply (step_enter moving_docs acme [Some notes] false)|].
  assert (acquire reader false (MkCoordinator [] [mover]) = Some (MkCoordinator [reader] [mover])) as Hac by (vm_compute; reflexivity).
  eapply rtc_l; [exact (step_acquire (MkSystem (MkCoordinator [] [mover]) [(reader, false)] 2) [] reader false [] _ eq_refl Hac)|].
  apply rtc_once. exact (step_enter (MkSystem (MkCoordinator [reader] [mover]) [] 2) acme [Some (docs ++ u "/a")] false).
Qed.

Example reader_waits : acquire blocked_reader false (sys beside_docs) = None.
Proof. by vm_compute. Qed.

Lemma mutation_exclusive_witness : mover ∈ active_mutations (sys beside_docs) /\ reader ∈ active_accesses (sys beside_docs) /\ ~ touches docs notes.
Proof.
  split; [by left|]. split; [by left|].
  apply (mutation_exclusive beside_docs mover reader false docs notes beside_docs_reachable); [by left|by left|by intros [=]|done|decided|decided|by vm_compute|by vm_compute].
Defined.

Lemma waiter_enters_witness : exists s', rtc step beside_docs s' /\ waiting s' = [] /\ blocked_reader ∈ active_accesses (sys s').
Proof. apply (waiter_enters beside_docs [] [] blocked_reader false); [exact beside_docs_reachable|done]. Defined.

Lemma nested_access_enters_witness : exists c, acquire (MkLease 3 acme (normalize_uris [Some (notes ++ u "/today"); None])) false (sys beside_docs) = Some c.
Proof.
  apply (nested_access_enters beside_docs reader); [exact beside_docs_reachable|by left|done|by repeat constructor| |by repeat constructor].
  intros b Hb. exists notes. split; [decided|]. split; [by vm_compute|]. apply list_elem_of_singleton in Hb as ->. exists [u "today"]. by vm_compute.
Defined.
End LeaseRuns.
