(* ===== verification/Watch.v ===== *)
(** Watch tasks: [openviking/resource/watch_manager.py].

    The manager keeps watch tasks in a dict and an index from target URIs to tasks, and
    saves them to a file of the context file system.  JSON, ISO timestamps, pydantic's
    constructor and the file system are arguments; so are the clock and fresh ids. *)
From Stdlib Require Import NArith ZArith.
From S2P Require Import Prelude PyStr PyVal UriMutation.

Open Scope N_scope.

(** ** URIs *)

Definition WATCH_TASK_STORAGE_URI : pystr := u "viking://resources/.watch_tasks.json".
Definition WATCH_TASK_STORAGE_BAK_URI : pystr := u "viking://resources/.watch_tasks.json.bak".
Definition WATCH_TASK_STORAGE_TMP_URI : pystr := u "viking://resources/.watch_tasks.json.tmp".

Definition rewrite_uri_prefix (uri old_prefix new_prefix : pystr) : pystr :=
  let old_normalized := rstrip is_slash old_prefix in
  let new_normalized := rstrip is_slash new_prefix in
  if seqb uri old_normalized then new_normalized else new_normalized ++ drop (length old_normalized) uri.

(** [normalized.rsplit("/", 1)[0]] for a text with a slash: what precedes the last one. *)
Definition parent_of (uri : pystr) : option pystr :=
  let normalized := rstrip is_slash uri in
  if bool_decide (c_slash ∈ normalized) then
    let parent := path_join (removelast (split c_slash normalized)) in
    if mem parent [u "viking:/"; u "viking://"] then None else Some parent
  else None.

(** ** Time *)

(** A datetime is its number of microseconds from the year 1; an interval in minutes is
    a finite double, given as in [VFloat] by its multiple of 2^-1074. *)
Definition ONE : Z := (2 ^ 1074)%Z.
Definition DATETIME_END : Z := (3652059 * 86400000000)%Z.

(** Rounding a natural number of least doubles to a double. *)
Definition round53 (z : Z) : Z :=
  let e := (Z.log2 z - 52)%Z in
  if (e <=? 0)%Z then z else
  let q := Z.shiftr z e in
  let r := (z - Z.shiftl q e)%Z in
  let half := Z.shiftl 1 (e - 1) in
  Z.shiftl (if (r <? half)%Z then q else if (half <? r)%Z then q + 1 else if Z.even q then q else q + 1) e.

(** The microseconds of [timedelta(minutes=x)]: the whole minutes exactly, the fraction
    scaled in doubles, the rest rounded to the nearest, halves to even. *)
Definition minutes_us (x : Z) : Z :=
  let a := Z.abs x in
  let s := round53 ((a mod ONE) * 60000000) in
  let us := (a / ONE * 60000000 + s / ONE)%Z in
  let r := (s mod ONE)%Z in
  let us := if (2 * r <? ONE)%Z then us else if (ONE <? 2 * r)%Z then (us + 1)%Z else if Z.even us then us else (us + 1)%Z in
  (Z.sgn x * us)%Z.

(** [base_time + timedelta(minutes=interval)]; out of range raises, for the timedelta as
    for the sum. *)
Definition add_minutes (base_time interval : Z) : result Z :=
  let t := (base_time + minutes_us interval)%Z in
  if ((0 <=? t) && (t <? DATETIME_END))%Z then Ok t else Err OverflowError.

(** ** Tasks *)

Record WatchTask := MkTask {
  task_id : pystr; path : pystr; source_type : option pystr; to_uri : option pystr; to_is_directory : option bool;
  parent_uri : option pystr; reason : pystr; instruction : pystr; watch_interval : Z; build_index : bool; summarize : bool;
  processing_mode : pystr; processor_kwargs : pydict; auth_state : option pydict; created_at : Z;
  last_execution_time : option Z; next_execution_time : option Z; is_active : bool;
  account_id : pystr; user_id : pystr; original_role : pystr }.

Definition calculate_next_execution_time (t : WatchTask) : result Z :=
  add_minutes (default (created_at t) (last_execution_time t)) (watch_interval t).

(** Assignments to the fields. *)
Definition set_target (to : option pystr) (parent : option pystr) (t : WatchTask) : WatchTask :=
  MkTask (task_id t) (path t) (source_type t) to (to_is_directory t) parent (reason t) (instruction t) (watch_interval t)
    (build_index t) (summarize t) (processing_mode t) (processor_kwargs t) (auth_state t) (created_at t)
    (last_execution_time t) (next_execution_time t) (is_active t) (account_id t) (user_id t) (original_role t).

Definition set_schedule (interval : Z) (active : bool) (next : option Z) (t : WatchTask) : WatchTask :=
  MkTask (task_id t) (path t) (source_type t) (to_uri t) (to_is_directory t) (parent_uri t) (reason t) (instruction t) interval
    (build_index t) (summarize t) (processing_mode t) (processor_kwargs t) (auth_state t) (created_at t)
    (last_execution_time t) next active (account_id t) (user_id t) (original_role t).

Definition set_last (last : option Z) (t : WatchTask) : WatchTask :=
  MkTask (task_id t) (path t) (source_type t) (to_uri t) (to_is_directory t) (parent_uri t) (reason t) (instruction t) (watch_interval t)
    (build_index t) (summarize t) (processing_mode t) (processor_kwargs t) (auth_state t) (created_at t)
    last (next_execution_time t) (is_active t) (account_id t) (user_id t) (original_role t).

Definition set_auth (auth : option pydict) (t : WatchTask) : WatchTask :=
  MkTask (task_id t) (path t) (source_type t) (to_uri t) (to_is_directory t) (parent_uri t) (reason t) (instruction t) (watch_interval t)
    (build_index t) (summarize t) (processing_mode t) (processor_kwargs t) auth (created_at t)
    (last_execution_time t) (next_execution_time t) (is_active t) (account_id t) (user_id t) (original_role t).

Definition set_next (next : option Z) (t : WatchTask) : WatchTask := set_schedule (watch_interval t) (is_active t) next t.
Definition deactivated (t : WatchTask) : WatchTask := set_schedule (watch_interval t) false None t.

(** ** Stored form *)

Definition opt_str (s : option pystr) : pyval := match s with Some s => VStr s | None => VNone end.

(** A value of the dict handed to the constructor: a JSON value or a datetime. *)
Inductive field := FVal (v : pyval) | FTime (t : Z).

(** Python's and pydantic's part. *)
Class WatchEnv := {
  isoformat : Z -> pystr;
  fromisoformat : pystr -> result Z;
  construct : list (pystr * field) -> result WatchTask;
  json_dumps : pyval -> pystr;
  json_loads : pystr -> result pyval }.

Section stored_form.
Context `{!WatchEnv}.

Definition opt_time (t : option Z) : pyval := match t with Some t => VStr (isoformat t) | None => VNone end.

Definition to_dict (t : WatchTask) : pydict :=
  [(u "task_id", VStr (task_id t)); (u "path", VStr (path t)); (u "source_type", opt_str (source_type t)); (u "to_uri", opt_str (to_uri t));
   (u "parent_uri", opt_str (parent_uri t)); (u "reason", VStr (reason t)); (u "instruction", VStr (instruction t));
   (u "watch_interval", VFloat (watch_interval t)); (u "build_index", VBool (build_index t)); (u "summarize", VBool (summarize t));
   (u "processing_mode", VStr (processing_mode t)); (u "processor_kwargs", VDict (processor_kwargs t));
   (u "created_at", VStr (isoformat (created_at t))); (u "last_execution_time", opt_time (last_execution_time t));
   (u "next_execution_time", opt_time (next_execution_time t)); (u "is_active", VBool (is_active t)); (u "account_id", VStr (account_id t));
   (u "user_id", VStr (user_id t)); (u "original_role", VStr (original_role t))].

Definition to_storage_dict (t : WatchTask) : pydict :=
  let data := to_dict t ++ [(u "to_is_directory", match to_is_directory t with Some b => VBool b | None => VNone end)] in
  match auth_state t with Some auth => data ++ [(u "auth_state", VDict auth)] | None => data end.

(** [if isinstance(data.get(k), str): data[k] = datetime.fromisoformat(data[k])]. *)
Definition read_time (k : pystr) (data : list (pystr * field)) : result (list (pystr * field)) :=
  match dict_get data k with
  | Some (FVal (VStr s)) => t ← fromisoformat s; Ok (dict_set data k (FTime t))
  | _ => Ok data
  end.

Definition from_dict (data : pydict) : result WatchTask :=
  let data := prod_map id FVal <$> data in
  data ← read_time (u "created_at") data;
  data ← read_time (u "last_execution_time") data;
  data ← read_time (u "next_execution_time") data;
  let data := match dict_get data (u "processor_kwargs") with
              | None | Some (FVal VNone) => dict_set data (u "processor_kwargs") (FVal (VDict []))
              | Some _ => data
              end in
  let data := match dict_get data (u "auth_state") with
              | None | Some (FVal VNone) | Some (FVal (VDict _)) => data
              | Some _ => dict_set data (u "auth_state") (FVal VNone)
              end in
  construct data.
End stored_form.

(** ** Manager *)

Record watch := MkWatch { tasks : list (pystr * WatchTask); uri_to_task : gmap (pystr * pystr) pystr; initialized : bool }.

Definition empty_watch : watch := MkWatch [] ∅ false.

Definition set_task (t : WatchTask) (w : watch) : watch := MkWatch (dict_set (tasks w) (task_id t) t) (uri_to_task w) (initialized w).
Definition index_target (account : pystr) (to : option pystr) (id : pystr) (w : watch) : watch :=
  match to with
  | Some uri => if nonempty uri then MkWatch (tasks w) (<[(account, uri) := id]> (uri_to_task w)) (initialized w) else w
  | None => w
  end.
Definition unindex_target (account : pystr) (to : option pystr) (w : watch) : watch :=
  match to with
  | Some uri => if nonempty uri then MkWatch (tasks w) (delete (account, uri) (uri_to_task w)) (initialized w) else w
  | None => w
  end.

(** [role.lower()] decides only between ["root"], ["admin"] and the rest. *)
Definition check_permission (t : WatchTask) (account user role : pystr) : bool :=
  let role_value := fold_case <$> role in
  if seqb role_value (u "root") then true
  else if negb (seqb (account_id t) account) then false
  else if seqb role_value (u "admin") then true
  else seqb (user_id t) user.

Definition check_uri_conflict (w : watch) (to : option pystr) (account : pystr) (exclude_task_id : option pystr) : bool :=
  match to with
  | None => false
  | Some uri =>
      if nonempty uri then
        match uri_to_task w !! (account, uri) with
        | None => false
        | Some existing =>
            if nonempty existing then
              match exclude_task_id with
              | Some id => negb (nonempty id && seqb existing id)
              | None => true
              end
            else false
        end
      else false
  end.

(** ** The file system *)

(** What the manager uses of [VikingFS], as the default user with the root role. *)
Class WatchFS (St : Type) := {
  fs_read : pystr -> ST St pystr;
  fs_write : pystr -> pystr -> ST St unit;
  fs_exists : pystr -> ST St bool;
  fs_rm : pystr -> ST St unit;
  fs_mv : pystr -> pystr -> ST St unit;
  (** [viking_fs] was given, and it has [mv], [rm], [exists] and [write_file]. *)
  attached : bool;
  supports_atomic : bool }.

Record manager (St : Type) := MkManager { mg_watch : watch; mg_store : St }.
Arguments MkManager {St} _ _.
Arguments mg_watch {St} _.
Arguments mg_store {St} _.

Section operations.
Context {St : Type} `{!WatchEnv, !WatchFS St}.

Definition on_store {A} (op : ST St A) : ST (manager St) A := fun m =>
  let '(r, s) := op (mg_store m) in (r, MkManager (mg_watch m) s).
Definition on_watch (f : watch -> watch) : ST (manager St) unit := st_modify (fun m => MkManager (f (mg_watch m)) (mg_store m)).

(** [try: body except Exception: pass]. *)
Definition swallow {S} (body : ST S unit) : ST S unit := fun s =>
  match body s with (Err e, s) => if is_exception e then (Ok tt, s) else (Err e, s) | r => r end.

(** *** Saving *)

Definition storage_content (stamp : Z) (w : watch) : pystr :=
  json_dumps (VDict [(u "tasks", VList ((fun '(_, t) => VDict (to_storage_dict t)) <$> tasks w)); (u "updated_at", VStr (isoformat stamp))]).

(** Drop the backup, make the current file the backup, put the new file in place. *)
Definition rotate (main bak tmp : pystr) (content : pystr) : ST St unit :=
  _ ← fs_write tmp content;
  _ ← swallow (there ← fs_exists bak; if there : bool then fs_rm bak else mret tt);
  _ ← swallow (there ← fs_exists main;
               if there : bool then fs_mv main bak else mret tt);
  fs_mv tmp main.

Definition write_storage (content : pystr) : ST St unit :=
  if nonempty (strip is_space content) then
    _ ← st_lift (json_loads content);
    if supports_atomic then rotate WATCH_TASK_STORAGE_URI WATCH_TASK_STORAGE_BAK_URI WATCH_TASK_STORAGE_TMP_URI content else fs_write WATCH_TASK_STORAGE_URI content
  else st_raise ValueError.

Definition save_tasks (stamp : Z) : ST (manager St) unit := fun m =>
  if attached then on_store (write_storage (storage_content stamp (mg_watch m))) m else (Ok tt, m).

(** *** Loading *)

(** One of the two reads: [None] for a missing, blank, invalid or unreadable file. *)
Definition read_json (uri : pystr) : ST St (option pyval) := fun s =>
  match fs_read uri s with
  | (Ok content, s) =>
      if nonempty (strip is_space content)
      then match json_loads content with
           | Ok v => (Ok (Some v), s)
           | Err e => (if is_exception e then Ok None else Err e, s)
           end
      else (Ok None, s)
  | (Err e, s) => (if is_exception e then Ok None else Err e, s)
  end.

(** The data, and whether it came from the backup. *)
Definition read_stored (main bak : pystr) : ST St (pyval * bool) :=
  data ← read_json main;
  match data with
  | Some VNone | None =>
      backup ← read_json bak;
      mret (default VNone backup, bool_decide (is_Some backup))
  | Some v => mret (v, false)
  end.

(** A loaded task made consistent, and whether that changed it. *)
Definition normalize_loaded (t : WatchTask) : result (WatchTask * bool) :=
  if negb (is_active t) then
    match next_execution_time t with Some _ => Ok (set_next None t, true) | None => Ok (t, false) end
  else if (watch_interval t <=? 0)%Z then Ok (deactivated t, true)
  else match next_execution_time t with
       | None => next ← calculate_next_execution_time t; Ok (set_next (Some next) t, true)
       | Some _ => Ok (t, false)
       end.

(** Adding the tasks one by one; one that does not load is skipped, an entry that is not
    a dict ends the loop ([task_data.get] in the handler raises). *)
Fixpoint load_entries (entries : list pyval) (w : watch) (normalized : bool) : watch * bool * bool :=
  match entries with
  | [] => (w, normalized, true)
  | VDict data :: rest =>
      match (t ← from_dict data; normalize_loaded t) with
      | Ok (t, changed) => load_entries rest (index_target (account_id t) (to_uri t) (task_id t) (set_task t w)) (normalized || changed)
      | Err _ => load_entries rest w normalized
      end
  | _ :: _ => (w, normalized, false)
  end.

(** [data.get("tasks", [])], as far as the loop gets: iterating a nonempty string or
    dict yields strings, which end it at once, and other values do not iterate. *)
Definition stored_entries (data : pyval) : list pyval :=
  match data with
  | VDict d =>
      match dict_get d (u "tasks") with
      | None => []
      | Some (VList entries) => entries
      | Some (VStr []) | Some (VDict []) => []
      | Some _ => [VNone]
      end
  | _ => []
  end.

Definition load_body (stamp : Z) : ST (manager St) unit := fun m =>
  match on_store (read_stored WATCH_TASK_STORAGE_URI WATCH_TASK_STORAGE_BAK_URI) m with
  | (Err e, m) => (Err e, m)
  | (Ok (data, recovered), m) =>
      let '(w, normalized, complete) := load_entries (stored_entries data) (mg_watch m) false in
      let m := MkManager w (mg_store m) in
      if complete : bool then if normalized || recovered then save_tasks stamp m else (Ok tt, m) else (Err OtherError, m)
  end.

Definition load_tasks (stamp : Z) : ST (manager St) unit := if attached then swallow (load_body stamp) else mret tt.

Definition initialize (stamp : Z) : ST (manager St) unit := fun m =>
  if initialized (mg_watch m) then (Ok tt, m)
  else (_ ← load_tasks stamp; on_watch (fun w => MkWatch (tasks w) (uri_to_task w) true)) m.

(** *** Creating *)

Record watch_args := MkArgs {
  a_path : pystr; a_account_id : pystr; a_user_id : pystr; a_original_role : pystr; a_source_type : option pystr; a_to_uri : option pystr;
  a_to_is_directory : option bool; a_parent_uri : option pystr; a_reason : pystr; a_instruction : pystr; a_watch_interval : Z;
  a_build_index : bool; a_summarize : bool; a_processing_mode : pystr; a_processor_kwargs : option pydict; a_auth_state : option pydict }.

Definition new_task (id : pystr) (now : Z) (a : watch_args) : WatchTask :=
  MkTask id (a_path a) (a_source_type a) (a_to_uri a) (a_to_is_directory a) (a_parent_uri a) (a_reason a) (a_instruction a)
    (a_watch_interval a) (a_build_index a) (a_summarize a) (a_processing_mode a) (default [] (a_processor_kwargs a)) (a_auth_state a)
    now None None true (a_account_id a) (a_user_id a) (a_original_role a).

Definition create_task (id : pystr) (now stamp : Z) (a : watch_args) : ST (manager St) WatchTask := fun m =>
  if negb (nonempty (a_path a)) then (Err ValueError, m)
  else if (a_watch_interval a <=? 0)%Z then (Err ValueError, m)
  else if check_uri_conflict (mg_watch m) (a_to_uri a) (a_account_id a) None then (Err ConflictError, m)
  else match calculate_next_execution_time (new_task id now a) with
       | Err e => (Err e, m)
       | Ok next =>
           let t := set_next (Some next) (new_task id now a) in
           (_ ← on_watch (fun w => index_target (a_account_id a) (a_to_uri a) id (set_task t w));
            _ ← save_tasks stamp;
            mret t) m
       end.

(** *** Updating *)

(** The optional arguments of [update_task]; [c_auth_state] is [None] for [_UNSET]. *)
Record changes := MkChanges {
  c_path : option pystr; c_source_type : option pystr; c_to_uri : option pystr; c_to_is_directory : option bool; c_parent_uri : option pystr;
  c_reason : option pystr; c_instruction : option pystr; c_watch_interval : option Z; c_build_index : option bool; c_summarize : option bool;
  c_processing_mode : option pystr; c_processor_kwargs : option pydict; c_auth_state : option (option pydict); c_is_active : option bool }.

(** [if x is not None: task.x = x] up to [instruction]. *)
Definition change_source (c : changes) (t : WatchTask) : WatchTask :=
  MkTask (task_id t) (default (path t) (c_path c)) (match c_source_type c with Some s => Some s | None => source_type t end)
    (match c_to_uri c with Some s => Some s | None => to_uri t end) (match c_to_is_directory c with Some b => Some b | None => to_is_directory t end)
    (match c_parent_uri c with Some s => Some s | None => parent_uri t end) (default (reason t) (c_reason c)) (default (instruction t) (c_instruction c))
    (watch_interval t) (build_index t) (summarize t) (processing_mode t) (processor_kwargs t) (auth_state t) (created_at t)
    (last_execution_time t) (next_execution_time t) (is_active t) (account_id t) (user_id t) (original_role t).

(** ... and from [build_index] to [is_active]. *)
Definition change_options (c : changes) (t : WatchTask) : WatchTask :=
  MkTask (task_id t) (path t) (source_type t) (to_uri t) (to_is_directory t) (parent_uri t) (reason t) (instruction t)
    (watch_interval t) (default (build_index t) (c_build_index c)) (default (summarize t) (c_summarize c)) (default (processing_mode t) (c_processing_mode c))
    (default (processor_kwargs t) (c_processor_kwargs c)) (default (auth_state t) (c_auth_state c)) (created_at t)
    (last_execution_time t) (next_execution_time t) (default (is_active t) (c_is_active c)) (account_id t) (user_id t) (original_role t).

(** The new interval: what is raised, and the task left. *)
Definition change_interval (c : changes) (t : WatchTask) : result unit * WatchTask :=
  match c_watch_interval c with
  | None => (Ok tt, t)
  | Some interval =>
      if (interval <=? 0)%Z then
        if bool_decide (c_is_active c = Some true) then (Err ValueError, t)
        else (Ok tt, set_schedule interval false None t)
      else (Ok tt, set_schedule interval (is_active t) (next_execution_time t) t)
  end.

(** The next execution after the fields are set. *)
Definition reschedule (c : changes) (t : WatchTask) : result WatchTask :=
  if bool_decide (is_Some (c_watch_interval c)) then
    if is_active t && (0 <? watch_interval t)%Z
    then next ← calculate_next_execution_time t; Ok (set_next (Some next) t)
    else Ok (set_next None t)
  else if bool_decide (is_Some (c_is_active c)) then
    if is_active t then
      if (watch_interval t <=? 0)%Z then Err ValueError
      else match next_execution_time t with
           | None => next ← calculate_next_execution_time t; Ok (set_next (Some next) t)
           | Some _ => Ok t
           end
    else Ok (set_next None t)
  else Ok t.

(** All the assignments, and the raise that stops them. *)
Definition apply_changes (c : changes) (t : WatchTask) : result unit * WatchTask :=
  let '(r, t1) := change_interval c (change_source c t) in
  match r with
  | Err e => (Err e, t1)
  | Ok _ =>
      let t2 := change_options c t1 in
      match reschedule c t2 with Ok t3 => (Ok tt, t3) | Err e => (Err e, t2) end
  end.

(** [_update_task_unlocked]. *)
Definition update_task_unlocked (stamp : Z) (t : WatchTask) (c : changes) : ST (manager St) WatchTask := fun m =>
  if check_uri_conflict (mg_watch m) (c_to_uri c) (account_id t) (Some (task_id t)) then (Err ConflictError, m)
  else
    let '(r, t') := apply_changes c t in
    (_ ← on_watch (set_task t');
     _ ← st_lift r;
     _ ← on_watch (fun w =>
           match c_to_uri c with
           | None => w
           | Some _ =>
               let w := if bool_decide (to_uri t = c_to_uri c) then w else unindex_target (account_id t) (to_uri t) w in
               index_target (account_id t) (c_to_uri c) (task_id t) w
           end);
     _ ← save_tasks stamp;
     mret t') m.

(** The loop of [update_task], [delete_task] and [get_task]: read the task's account and
    target, wait for an access lease on them, look again under the lock, and start over
    if they changed.  [others i] is what other coroutines do to the manager while round
    [i] waits, [between i] what they do before the next. *)
Fixpoint with_stable_target {A} (fuel : nat) (others between : nat -> manager St -> manager St) (i : nat)
    (missing : result A) (id : pystr) (body : WatchTask -> ST (manager St) A) : ST (manager St) A := fun m =>
  match fuel with
  | O => (Err OutOfFuel, m)
  | S fuel =>
      match dict_get (tasks (mg_watch m)) id with
      | None => (missing, m)
      | Some snapshot =>
          let m := others i m in
          match dict_get (tasks (mg_watch m)) id with
          | None => (missing, m)
          | Some t =>
              if seqb (account_id t) (account_id snapshot) && bool_decide (to_uri t = to_uri snapshot) then body t m
              else with_stable_target fuel others between (S i) missing id body (between i m)
          end
      end
  end.

(** What the three do with the stable task. *)
Definition update_stable (stamp : Z) (account user role : pystr) (c : changes) (t : WatchTask) : ST (manager St) WatchTask :=
  if check_permission t account user role then update_task_unlocked stamp t c else st_raise PermissionDeniedError.

Definition delete_stable (stamp : Z) (id account user role : pystr) (t : WatchTask) : ST (manager St) bool :=
  if check_permission t account user role then
    _ ← on_watch (fun w => unindex_target (account_id t) (to_uri t) (MkWatch (dict_pop (tasks w) id) (uri_to_task w) (initialized w)));
    _ ← save_tasks stamp;
    mret true
  else st_raise PermissionDeniedError.

Definition get_stable (account user role : pystr) (t : WatchTask) : ST (manager St) (option WatchTask) :=
  mret (if check_permission t account user role then Some t else None).

Definition update_task fuel others between (stamp : Z) (id account user role : pystr) (c : changes) : ST (manager St) WatchTask :=
  with_stable_target fuel others between 0 (Err ValueError) id (update_stable stamp account user role c).
Definition delete_task fuel others between (stamp : Z) (id account user role : pystr) : ST (manager St) bool :=
  with_stable_target fuel others between 0 (Ok false) id (delete_stable stamp id account user role).
Definition get_task fuel others between (id account user role : pystr) : ST (manager St) (option WatchTask) :=
  with_stable_target fuel others between 0 (Ok None) id (get_stable account user role).

Definition update_auth_state (stamp : Z) (id : pystr) (auth : option pydict) : ST (manager St) unit := fun m =>
  match dict_get (tasks (mg_watch m)) id with
  | None => (Ok tt, m)
  | Some t => (_ ← on_watch (set_task (set_auth auth t)); save_tasks stamp) m
  end.

(** *** Moving and removing targets *)

(** The new target of every task of the account at or below [old_uri]. *)
Definition moving (w : watch) (old_uri new_uri account : pystr) : list (pystr * pystr) :=
  omap (fun '(id, t) =>
    if seqb (account_id t) account && uri_matches_prefix (to_uri t) (rstrip is_slash old_uri)
    then Some (id, rewrite_uri_prefix (default [] (to_uri t)) (rstrip is_slash old_uri) (rstrip is_slash new_uri)) else None) (tasks w).

(** No target is taken, by a task that stays or by another that moves. *)
Definition target_free (w : watch) (account : pystr) (plan : list (pystr * pystr)) (item : pystr * pystr) : bool :=
  match uri_to_task w !! (account, item.2) with
  | None => true
  | Some existing =>
      let moves := bool_decide (is_Some (dict_get plan existing)) in
      if nonempty existing && negb moves then false else negb (moves && negb (seqb existing item.1))
  end.

Definition plan_target_prefix_rewrite_unlocked (w : watch) (old_uri new_uri account : pystr) : result (list (pystr * pystr)) :=
  let plan := moving w old_uri new_uri account in
  if forallb (target_free w account plan) plan then Ok plan else Err ConflictError.

Definition validate_target_prefix_rewrite_internal (old_uri new_uri account : pystr) : ST (manager St) unit := fun m =>
  (plan ← plan_target_prefix_rewrite_unlocked (mg_watch m) old_uri new_uri account; Ok tt, m).

(** The first loop takes the old targets out of the index, the second moves each task. *)
Definition unindex_moved (account : pystr) (plan : list (pystr * pystr)) (w : watch) : watch :=
  foldl (fun w '(id, _) =>
    match dict_get (tasks w) id with Some t => unindex_target account (to_uri t) w | None => w end) w plan.

Definition moved_task (target : pystr) (t : WatchTask) : WatchTask :=
  let old_parent := parent_of (default [] (to_uri t)) in
  set_target (Some target)
    (match parent_uri t with
     | Some p => if bool_decide (Some p = old_parent) then parent_of target else Some p
     | None => None
     end) t.

Definition move_one (account : pystr) (w : watch) (item : pystr * pystr) : watch :=
  match dict_get (tasks w) item.1 with
  | Some t => MkWatch (dict_set (tasks w) item.1 (moved_task item.2 t)) (<[(account, item.2) := item.1]> (uri_to_task w)) (initialized w)
  | None => w
  end.

Definition move_all (account : pystr) (plan : list (pystr * pystr)) (w : watch) : watch :=
  foldl (move_one account) (unindex_moved account plan w) plan.

(** The handler: targets and parents of the moved tasks, and the whole index, as before. *)
Definition restore_targets (w0 : watch) (plan : list (pystr * pystr)) (w : watch) : watch :=
  MkWatch ((fun '(id, t) =>
      (id, if bool_decide (is_Some (dict_get plan id)) then
             match dict_get (tasks w0) id with Some t0 => set_target (to_uri t0) (parent_uri t0) t | None => t end
           else t)) <$> tasks w)
    (uri_to_task w0) (initialized w).

Definition rewrite_target_prefix_internal (stamp : Z) (old_uri new_uri account : pystr) : ST (manager St) (list WatchTask) := fun m =>
  match plan_target_prefix_rewrite_unlocked (mg_watch m) old_uri new_uri account with
  | Err e => (Err e, m)
  | Ok [] => (Ok [], m)
  | Ok plan =>
      match (_ ← on_watch (move_all account plan); save_tasks stamp) m with
      | (Ok _, m') => (Ok (omap (fun '(id, _) => dict_get (tasks (mg_watch m')) id) plan), m')
      | (Err e, m') => (Err e, if is_exception e then MkManager (restore_targets (mg_watch m) plan (mg_watch m')) (mg_store m') else m')
      end
  end.

Definition matched (w : watch) (uri account : pystr) : list WatchTask :=
  filter (fun t => seqb (account_id t) account && uri_matches_prefix (to_uri t) uri = true) ((tasks w).*2).

Definition deactivate_tasks_under_uri_internal (stamp : Z) (uri account : pystr) : ST (manager St) (list WatchTask) := fun m =>
  match matched (mg_watch m) uri account with
  | [] => (Ok [], m)
  | found =>
      (_ ← on_watch (fun w => foldl (fun w t => set_task (deactivated t) w) w found);
       _ ← save_tasks stamp;
       mret (deactivated <$> found)) m
  end.

(** *** Queries *)

Definition get_all_tasks (account user role : pystr) (active_only : bool) (w : watch) : list WatchTask :=
  filter (fun t => check_permission t account user role && negb (active_only && negb (is_active t)) = true) ((tasks w).*2).

(** [self._uri_to_task.get(...)] and the task it names. *)
Definition task_at (w : watch) (account to : pystr) : option (option WatchTask) :=
  match uri_to_task w !! (account, to) with
  | Some id => if nonempty id then Some (dict_get (tasks w) id) else None
  | None => None
  end.

Definition get_task_by_uri (to account user role : pystr) (w : watch) : option WatchTask :=
  match task_at w account to with
  | Some (Some t) => if check_permission t account user role then Some t else None
  | _ => None
  end.

Definition get_upsertable_task_by_uri (source to account user role : pystr) (w : watch) : result (option WatchTask) :=
  match task_at w account to with
  | None => Ok None
  | Some None => Err ConflictError
  | Some (Some t) =>
      if negb (check_permission t account user role) then Err ConflictError
      else if is_active t && negb (seqb (path t) source) then Err ConflictError
      else Ok (Some t)
  end.

(** *** Execution *)

Definition update_execution_time (now stamp : Z) (id : pystr) : ST (manager St) unit := fun m =>
  match dict_get (tasks (mg_watch m)) id with
  | None => (Ok tt, m)
  | Some t =>
      if negb (is_active t) || (watch_interval t <=? 0)%Z then (_ ← on_watch (set_task (deactivated t)); save_tasks stamp) m
      else
        let t := set_last (Some now) t in
        match calculate_next_execution_time t with
        | Err e => (_ ← on_watch (set_task t); st_raise e) m
        | Ok next => (_ ← on_watch (set_task (set_next (Some next) t)); save_tasks stamp) m
        end
  end.

Definition of_account (account : option pystr) (t : WatchTask) : bool :=
  match account with Some a => negb (nonempty a && negb (seqb (account_id t) a)) | None => true end.

Definition get_due_tasks (now : Z) (account : option pystr) (w : watch) : list WatchTask :=
  filter (fun t => is_active t && of_account account t && match next_execution_time t with Some n => (n <=? now)%Z | None => false end = true) ((tasks w).*2).

Definition get_next_execution_time (account : option pystr) (w : watch) : option Z :=
  match omap (fun t => if is_active t && of_account account t then next_execution_time t else None) ((tasks w).*2) with
  | [] => None
  | n :: rest => Some (foldl Z.min n rest)
  end.
End operations.
