(* ===== verification/WatchTheory.v ===== *)
(** Theorems about the watch manager: its index and schedule over every sequence of
    operations, the retry loop, permissions, and the schedule's queries. *)
From Stdlib Require Import NArith ZArith.
From S2P Require Import Prelude PyStr PyVal UriMutation Watch.

Open Scope N_scope.

(** ** An index as the inverse of a partial function *)

Section exact.
Context {K : Type} `{Countable K}.

Definition exact (m : gmap K pystr) (f : pystr -> option K) : Prop := forall k id, m !! k = Some id <-> f id = Some k.

Definition upd (f : pystr -> option K) (id : pystr) (o : option K) : pystr -> option K := fun j => if seqb id j then o else f j.

Lemma upd_same f id o : upd f id o id = o.
Proof. unfold upd. by rewrite (proj2 (seqb_true _ _)). Qed.
Lemma upd_other f id o j : j <> id -> upd f id o j = f j.
Proof. intros Hne. unfold upd. by rewrite (proj2 (seqb_false id j)) by congruence. Qed.

Lemma exact_ext m f g : (forall id, f id = g id) -> exact m f -> exact m g.
Proof. intros Hfg Hm k id. rewrite <- Hfg. apply Hm. Qed.

Lemma exact_unique m m' f : exact m f -> exact m' f -> m = m'.
Proof.
  intros Hm Hm'. apply map_eq. intros k. apply option_eq. intros id. by rewrite (Hm k id), (Hm' k id).
Qed.

(** Forgetting what [id] had. *)
Lemma exact_clear m f id : exact m f -> exact (match f id with Some k => delete k m | None => m end) (upd f id None).
Proof.
  intros Hm k j. destruct (decide (j = id)) as [->|Hne].
  - rewrite upd_same. split; [|done]. destruct (f id) as [k0|] eqn:E.
    + rewrite lookup_delete_Some. intros [Hk Hj%Hm]. congruence.
    + rewrite (Hm k id). congruence.
  - rewrite upd_other by done. destruct (f id) as [k0|] eqn:E; [|apply Hm]. rewrite lookup_delete_Some, (Hm k j). split; [by intros [_ ?]|].
    intros Hj. split; [|done]. intros ->. apply Hm in E. apply Hm in Hj. congruence.
Qed.

(** Giving [id] a key nobody has. *)
Lemma exact_set m f id k : exact m f -> f id = None -> m !! k = None -> exact (<[k := id]> m) (upd f id (Some k)).
Proof.
  intros Hm Hid Hk k' j. destruct (decide (j = id)) as [->|Hne].
  - rewrite upd_same, lookup_insert_Some. split; [|intros [= ->]; by left]. intros [[-> _]|[_ Hj%Hm]]; [done|congruence].
  - rewrite upd_other by done. rewrite lookup_insert_Some, (Hm k' j). split; [intros [[_ ->]|[_ ?]]; done|].
    intros Hj. right. split; [|done]. intros ->. apply Hm in Hj. congruence.
Qed.
End exact.

(** ** Targets *)

Definition tgt (t : WatchTask) : option (pystr * pystr) :=
  match to_uri t with Some x => if nonempty x then Some (account_id t, x) else None | None => None end.

Definition target (w : watch) (id : pystr) : option (pystr * pystr) := t ← dict_get (tasks w) id; tgt t.

(** A task is due at a time exactly while it is active, and only a positive interval
    keeps it active. *)
Definition scheduled (t : WatchTask) : Prop :=
  if is_active t then (0 < watch_interval t)%Z /\ is_Some (next_execution_time t) else next_execution_time t = None.

Record wf (w : watch) : Prop := {
  wf_keys : forall id t, dict_get (tasks w) id = Some t -> task_id t = id /\ id <> [] /\ scheduled t;
  wf_nodup : NoDup (fst <$> tasks w);
  wf_index : exact (uri_to_task w) (target w) }.

Lemma tgt_some t k : tgt t = Some k <-> exists x, to_uri t = Some x /\ x <> [] /\ k = (account_id t, x).
Proof.
  unfold tgt. destruct (to_uri t) as [x|]; [|naive_solver]. destruct (nonempty x) eqn:E.
  - apply nonempty_true in E. naive_solver.
  - apply nonempty_false in E as ->. naive_solver.
Qed.

Lemma index_target_map a to id w : uri_to_task (index_target a to id w) =
  match to with Some x => if nonempty x then <[(a, x) := id]> (uri_to_task w) else uri_to_task w | None => uri_to_task w end.
Proof. destruct to as [x|]; cbn; [by destruct (nonempty x)|done]. Qed.
Lemma index_target_tasks a to id w : tasks (index_target a to id w) = tasks w.
Proof. destruct to as [x|]; cbn; [by destruct (nonempty x)|done]. Qed.
Lemma unindex_target_map t w : uri_to_task (unindex_target (account_id t) (to_uri t) w) =
  match tgt t with Some k => delete k (uri_to_task w) | None => uri_to_task w end.
Proof. unfold tgt. destruct (to_uri t) as [x|]; cbn; [by destruct (nonempty x)|done]. Qed.
Lemma unindex_target_tasks a to w : tasks (unindex_target a to w) = tasks w.
Proof. destruct to as [x|]; cbn; [by destruct (nonempty x)|done]. Qed.

(** Storing a task. *)
Lemma wf_put w t m b : wf w -> task_id t <> [] -> scheduled t -> exact m (upd (target w) (task_id t) (tgt t)) ->
  wf (MkWatch (dict_set (tasks w) (task_id t) t) m b).
Proof.
  intros Hw Hne Hs Hm. split; cbn.
  - intros j x. rewrite dict_set_get. destruct (seqb (task_id t) j) eqn:E; [|apply Hw]. apply seqb_true in E as <-. by intros [= <-].
  - apply dict_set_nodup, Hw.
  - eapply exact_ext; [|exact Hm]. intros j. unfold upd, target. cbn. rewrite dict_set_get. by destruct (seqb (task_id t) j).
Qed.

(** ... without changing where it points. *)
Lemma wf_set_task w t t' : wf w -> dict_get (tasks w) (task_id t) = Some t -> task_id t' = task_id t -> tgt t' = tgt t -> scheduled t' -> wf (set_task t' w).
Proof.
  intros Hw Hg Hid Ht Hs. destruct (wf_keys _ Hw _ _ Hg) as (_ & Hne & _). apply wf_put; [done|by rewrite Hid|done|].
  eapply exact_ext; [|apply Hw]. intros j. unfold upd. destruct (seqb (task_id t') j) eqn:E; [|done]. apply seqb_true in E as <-.
  unfold target. by rewrite Hid, Hg.
Qed.

(** No conflict: the new target is free, or the task's own. *)
Lemma no_conflict w to a x : wf w -> check_uri_conflict w to a None = false -> to = Some x -> x <> [] -> uri_to_task w !! (a, x) = None.
Proof.
  intros Hw Hc -> Hx. cbn in Hc. rewrite (proj2 (nonempty_true _) Hx) in Hc. destruct (uri_to_task w !! (a, x)) as [id|] eqn:E; [|done].
  apply (wf_index _ Hw) in E. unfold target in E. destruct (dict_get (tasks w) id) as [t|] eqn:Hg; [|done].
  destruct (wf_keys _ Hw _ _ Hg) as (_ & Hne & _). by rewrite (proj2 (nonempty_true _) Hne) in Hc.
Qed.

Lemma no_conflict_own w to a x own : wf w -> check_uri_conflict w to a (Some own) = false -> to = Some x -> x <> [] ->
  uri_to_task w !! (a, x) = None \/ uri_to_task w !! (a, x) = Some own.
Proof.
  intros Hw Hc -> Hx. cbn in Hc. rewrite (proj2 (nonempty_true _) Hx) in Hc. destruct (uri_to_task w !! (a, x)) as [id|] eqn:E; [|by left].
  apply (wf_index _ Hw) in E. unfold target in E. destruct (dict_get (tasks w) id) as [t|] eqn:Hg; [|done].
  destruct (wf_keys _ Hw _ _ Hg) as (_ & Hne & _). rewrite (proj2 (nonempty_true _) Hne) in Hc.
  apply negb_false_iff, andb_true_iff in Hc as [_ Hc%seqb_true]. right. by rewrite Hc.
Qed.

(** A new task. *)
Lemma wf_create w t : wf w -> dict_get (tasks w) (task_id t) = None -> task_id t <> [] -> scheduled t ->
  check_uri_conflict w (to_uri t) (account_id t) None = false ->
  wf (index_target (account_id t) (to_uri t) (task_id t) (set_task t w)).
Proof.
  intros Hw Hg Hne Hs Hc. assert (target w (task_id t) = None) as Hno by (unfold target; by rewrite Hg).
  assert (exact (uri_to_task (index_target (account_id t) (to_uri t) (task_id t) (set_task t w))) (upd (target w) (task_id t) (tgt t))) as Hx.
  { rewrite index_target_map. cbn. destruct (tgt t) as [k|] eqn:E.
    - apply tgt_some in E as (x & Ht & Hxn & ->). rewrite Ht, (proj2 (nonempty_true _) Hxn). apply exact_set; [apply Hw|done|by eapply no_conflict].
    - assert (exact (uri_to_task w) (upd (target w) (task_id t) None)) as Hcl.
      { pose proof (exact_clear _ _ (task_id t) (wf_index _ Hw)) as H. by rewrite Hno in H. }
      unfold tgt in E. destruct (to_uri t) as [x|]; [|done]. by destruct (nonempty x). }
  pose proof (wf_put _ _ _ (initialized w) Hw Hne Hs Hx) as H. destruct (to_uri t) as [x|]; cbn in H |- *; [by destruct (nonempty x)|done].
Qed.

(** A task whose target may have changed. *)
Lemma wf_retarget w t t' : wf w -> dict_get (tasks w) (task_id t) = Some t -> task_id t' = task_id t -> account_id t' = account_id t -> scheduled t' ->
  check_uri_conflict w (to_uri t') (account_id t) (Some (task_id t)) = false ->
  wf (index_target (account_id t) (to_uri t') (task_id t)
        (if bool_decide (to_uri t = to_uri t') then set_task t' w else unindex_target (account_id t) (to_uri t) (set_task t' w))).
Proof.
  intros Hw Hg Hid Hac Hs Hc. destruct (wf_keys _ Hw _ _ Hg) as (_ & Hne & _).
  assert (target w (task_id t) = tgt t) as Hold by (unfold target; by rewrite Hg).
  case_bool_decide as E.
  - assert (tgt t' = tgt t) as Ht by (unfold tgt; by rewrite <- E, Hac). pose proof (wf_set_task _ _ _ Hw Hg Hid Ht Hs) as H.
    destruct (to_uri t') as [x|] eqn:Ex; cbn; [|done]. destruct (nonempty x) eqn:Hx; [|done]. apply nonempty_true in Hx.
    assert (uri_to_task w !! (account_id t, x) = Some (task_id t)) as Hk.
    { apply (wf_index _ Hw). rewrite Hold. apply tgt_some. by exists x. }
    rewrite insert_id; [by destruct H|done].
  - set (w1 := unindex_target _ _ _).
    assert (exact (uri_to_task (index_target (account_id t) (to_uri t') (task_id t) w1)) (upd (target w) (task_id t') (tgt t'))) as Hx.
    { rewrite index_target_map. subst w1. rewrite unindex_target_map. cbn.
      pose proof (exact_clear _ _ (task_id t) (wf_index _ Hw)) as Hcl. rewrite Hold in Hcl. rewrite Hid. destruct (tgt t') as [k|] eqn:Et.
      - apply tgt_some in Et as (x & Ht & Hxn & ->). rewrite Ht, (proj2 (nonempty_true _) Hxn), Hac.
        eapply exact_ext; [|apply (exact_set _ _ (task_id t) (account_id t, x) Hcl)].
        + intros j. unfold upd. by destruct (seqb (task_id t) j).
        + apply upd_same.
        + assert (forall k, (match tgt t with Some k0 => delete k0 (uri_to_task w) | None => uri_to_task w end) !! k = None <-> uri_to_task w !! k = None \/ tgt t = Some k) as Hdel.
          { intros k. destruct (tgt t) as [k0|]; [rewrite lookup_delete_None|]; naive_solver. }
          apply Hdel. destruct (no_conflict_own _ _ _ _ _ Hw Hc Ht Hxn) as [Hk|Hk]; [by left|]. right.
          apply (wf_index _ Hw) in Hk. by rewrite Hold in Hk.
      - unfold tgt in Et. destruct (to_uri t') as [x|]; [|done]. by destruct (nonempty x). }
    assert (task_id t' <> []) as Hne' by (by rewrite Hid).
    pose proof (wf_put _ _ _ (initialized w) Hw Hne' Hs Hx) as H.
    assert (forall v, tasks v = dict_set (tasks w) (task_id t') t' -> initialized v = initialized w -> v = MkWatch (dict_set (tasks w) (task_id t') t') (uri_to_task v) (initialized w)) as Hv.
    { intros [] ??; cbn in *; by subst. }
    rewrite (Hv (index_target (account_id t) (to_uri t') (task_id t) w1)); [done| |].
    + by rewrite index_target_tasks; subst w1; rewrite unindex_target_tasks.
    + subst w1. destruct (to_uri t') as [x|]; cbn; [destruct (nonempty x)|]; destruct (to_uri t) as [y|]; cbn; try done; by destruct (nonempty y).
Qed.

Lemma wf_delete w t id : wf w -> dict_get (tasks w) id = Some t ->
  wf (unindex_target (account_id t) (to_uri t) (MkWatch (dict_pop (tasks w) id) (uri_to_task w) (initialized w))).
Proof.
  intros Hw Hg. set (w1 := MkWatch _ _ _).
  assert (forall v, tasks v = tasks w1 -> uri_to_task v = match tgt t with Some k => delete k (uri_to_task w) | None => uri_to_task w end -> wf v) as Hv.
  { intros v Hvt Hvm. split; rewrite ?Hvt; subst w1; cbn.
    - intros j x. rewrite dict_pop_get by apply Hw. destruct (seqb id j); [done|apply Hw].
    - apply dict_pop_nodup, Hw.
    - rewrite Hvm. pose proof (exact_clear _ _ id (wf_index _ Hw)) as Hcl. unfold target at 1 in Hcl. rewrite Hg in Hcl. cbn in Hcl.
      eapply exact_ext; [|exact Hcl]. intros j. unfold upd, target. rewrite Hvt. cbn. rewrite dict_pop_get by apply Hw. by destruct (seqb id j). }
  apply Hv; [apply unindex_target_tasks|by rewrite unindex_target_map].
Qed.

(** ** Moving targets *)

Lemma rewrite_suffix uri old new : uri_matches_prefix (Some uri) (rstrip is_slash old) = true ->
  uri = rstrip is_slash old ++ drop (length (rstrip is_slash old)) uri /\
  rewrite_uri_prefix uri (rstrip is_slash old) (rstrip is_slash new) = rstrip is_slash new ++ drop (length (rstrip is_slash old)) uri.
Proof.
  intros [Hne H]%andb_true_iff. unfold normalize_uri in H. rewrite rstrip_idemp in H. unfold rewrite_uri_prefix. rewrite !rstrip_idemp.
  assert (uri = rstrip is_slash old ++ drop (length (rstrip is_slash old)) uri) as Hu.
  { destruct (rstrip_decomp is_slash uri) as (k & Hk & _). apply orb_true_iff in H as [H%seqb_true|H].
    - rewrite H in Hk. rewrite Hk at 2. by rewrite drop_app_length.
    - apply startswith_iff in H as [r Hr]. rewrite Hr in Hk. rewrite <- !app_assoc in Hk. rewrite Hk at 2. by rewrite drop_app_length. }
  split; [done|]. destruct (seqb uri (rstrip is_slash old)) eqn:E; [|done]. apply seqb_true in E. rewrite E, drop_all. by rewrite app_nil_r.
Qed.

Lemma elem_of_moving w old new a id x : NoDup (fst <$> tasks w) -> (id, x) ∈ moving w old new a <-> exists t uri, dict_get (tasks w) id = Some t /\
  account_id t = a /\ to_uri t = Some uri /\ uri_matches_prefix (Some uri) (rstrip is_slash old) = true /\
  x = rewrite_uri_prefix uri (rstrip is_slash old) (rstrip is_slash new).
Proof.
  intros Hnd. unfold moving. rewrite list_elem_of_omap. split.
  - intros ([id' t] & Hin & H). destruct (seqb (account_id t) a && uri_matches_prefix (to_uri t) (rstrip is_slash old)) eqn:E; [|done].
    injection H as <- <-. apply andb_true_iff in E as [E1%seqb_true E2]. destruct (to_uri t) as [uri|] eqn:Et; [|done].
    exists t, uri. split_and!; try done. by apply dict_get_in.
  - intros (t & uri & Hg & Ha & Ht & Hm & ->). exists (id, t). split; [by apply dict_get_elem|].
    rewrite Ht, Ha, Hm, (proj2 (seqb_true _ _)) by done. done.
Qed.

Lemma moving_nodup w old new a : NoDup (fst <$> tasks w) -> NoDup (fst <$> moving w old new a).
Proof.
  unfold moving. intros Hnd. induction (tasks w) as [|[id t] l IH]; [constructor|]. rewrite fmap_cons in Hnd. apply NoDup_cons in Hnd as [Hid Hnd].
  cbn [omap list_omap]. destruct (_ && _); [|by apply IH]. rewrite fmap_cons. apply NoDup_cons. split; [|by apply IH].
  intros (y & Hy & (z & Hz & Hzy)%list_elem_of_omap)%list_elem_of_fmap. apply Hid, list_elem_of_fmap. exists z. split; [|done].
  destruct z as [id' t']. destruct (_ && _); [|done]. by injection Hzy as <-.
Qed.

(** Different tasks get different targets. *)
Lemma moving_targets_nodup w old new a : wf w -> NoDup (snd <$> moving w old new a).
Proof.
  intros Hw. pose proof (wf_nodup _ Hw) as Hnd. assert (NoDup (moving w old new a)) as Hn by (eapply NoDup_fmap_1; by apply moving_nodup).
  apply NoDup_fmap_2_strong; [|done]. intros [id x] [id' x'] H1 H2 E. cbn in E. subst x'.
  pose proof H1 as (t & uri & Hg & Ha & Ht & Hm & Hx)%elem_of_moving; [|done].
  pose proof H2 as (t' & uri' & Hg' & Ha' & Ht' & Hm' & Hx')%elem_of_moving; [|done].
  destruct (rewrite_suffix _ _ new Hm) as [Hu Hr], (rewrite_suffix _ _ new Hm') as [Hu' Hr']. rewrite Hr in Hx. rewrite Hr' in Hx'.
  rewrite Hx in Hx'. apply app_inv_head in Hx'. rewrite <- Hx' in Hu'. rewrite <- Hu in Hu'. subst uri'.
  assert (forall i y, dict_get (tasks w) i = Some y -> account_id y = a -> to_uri y = Some uri -> uri_to_task w !! (a, uri) = Some i) as Hix.
  { intros i y Hi Hay Hyu. apply (wf_index _ Hw). unfold target. rewrite Hi. cbn. apply tgt_some. exists uri. split; [done|].
    unfold uri_matches_prefix in Hm. apply andb_true_iff in Hm as [Hm%nonempty_true _]. split; [done|]. by rewrite Hay. }
  pose proof (Hix _ _ Hg Ha Ht). pose proof (Hix _ _ Hg' Ha' Ht'). congruence.
Qed.

(** After the first loop nobody in the plan is indexed. *)
Lemma unindex_moved_exact a plan : forall w f, NoDup (fst <$> plan) ->
  (forall id, id ∈ fst <$> plan -> exists t, dict_get (tasks w) id = Some t /\ account_id t = a /\ f id = tgt t) -> exact (uri_to_task w) f ->
  tasks (unindex_moved a plan w) = tasks w /\ exact (uri_to_task (unindex_moved a plan w)) (fun j => if mem j (fst <$> plan) then None else f j).
Proof.
  unfold unindex_moved. induction plan as [|[id x] plan IH]; intros w f Hn Hp Hf; [by split|].
  rewrite fmap_cons in Hn, Hp. apply NoDup_cons in Hn as [Hid Hn]. cbn [foldl]. destruct (Hp id) as (t & Hg & Ha & Hft); [by left|].
  rewrite Hg, <- Ha. destruct (IH (unindex_target (account_id t) (to_uri t) w) (upd f id None)) as [Ht Hx]; [done| | |].
  - rewrite unindex_target_tasks. intros j Hj. destruct (Hp j) as (t' & H1 & H2 & H3); [by right|]. exists t'. split_and!; [done|done|].
    rewrite upd_other; [done|]. by intros ->.
  - rewrite unindex_target_map. pose proof (exact_clear _ _ id Hf) as Hc. by rewrite Hft in Hc.
  - split; [by rewrite Ha; rewrite Ha in Ht; rewrite Ht, unindex_target_tasks|]. rewrite Ha in Hx |- *. eapply exact_ext; [|exact Hx]. intros j. unfold mem, upd.
    rewrite fmap_cons. cbn [fst]. destruct (seqb id j) eqn:E.
    + apply seqb_true in E as ->. rewrite (bool_decide_eq_true_2 (j ∈ j :: _)) by left. by case_bool_decide.
    + apply seqb_false in E. repeat case_bool_decide; try done; [|].
      * destruct H0. by right.
      * apply elem_of_cons in H0 as [->|?]; done.
Qed.

Lemma moved_tgt x t : x <> [] -> tgt (moved_task x t) = Some (account_id t, x).
Proof. intros Hx. apply tgt_some. by exists x. Qed.

(** The second loop gives each its new target. *)
Lemma move_loop a ps : forall w f,
  (forall id t, dict_get (tasks w) id = Some t -> task_id t = id /\ id <> [] /\ scheduled t) -> NoDup (fst <$> tasks w) -> exact (uri_to_task w) f ->
  NoDup (fst <$> ps) -> NoDup (snd <$> ps) ->
  (forall id x, (id, x) ∈ ps -> (exists t, dict_get (tasks w) id = Some t /\ account_id t = a) /\ f id = None /\ uri_to_task w !! (a, x) = None /\ x <> []) ->
  (forall j, j ∉ fst <$> ps -> target w j = f j) ->
  wf (foldl (move_one a) w ps).
Proof.
  induction ps as [|[id x] ps IH]; intros w f Hk Hnd Hf Hn1 Hn2 Hps Htg; cbn [foldl].
  - split; [done|done|]. eapply exact_ext; [|exact Hf]. intros j. symmetry. apply Htg. by intros ?%elem_of_nil.
  - rewrite fmap_cons in Hn1, Hn2, Htg. apply NoDup_cons in Hn1 as [Hi1 Hn1]. apply NoDup_cons in Hn2 as [Hi2 Hn2]. cbn [fst snd] in *.
    destruct (Hps id x) as ((t & Hg & Ha) & Hfi & Hfree & Hx); [by left|]. unfold move_one at 2. cbn [fst snd]. rewrite Hg.
    destruct (Hk _ _ Hg) as (Hid & Hne & Hs). apply (IH _ (upd f id (Some (a, x)))); cbn [tasks uri_to_task]; [| | |done|done| |].
    + intros j y. rewrite dict_set_get. destruct (seqb id j) eqn:E; [|apply Hk]. apply seqb_true in E as <-. by intros [= <-].
    + by apply dict_set_nodup.
    + by apply exact_set.
    + intros j y Hj. destruct (Hps j y) as ((t' & Hg' & Ha') & Hfj & Hfree' & Hy); [by right|].
      assert (id <> j) as Hij by (intros ->; apply Hi1, list_elem_of_fmap; by exists (j, y)).
      assert (x <> y) as Hxy by (intros ->; apply Hi2, list_elem_of_fmap; by exists (j, y)). split_and!.
      * exists t'. by rewrite dict_set_get, (proj2 (seqb_false _ _) Hij).
      * by rewrite upd_other by congruence.
      * rewrite lookup_insert_ne by congruence. done.
      * done.
    + intros j Hj. unfold target, upd. cbn [tasks]. rewrite dict_set_get. destruct (seqb id j) eqn:E.
      * cbn [mbind option_bind]. rewrite moved_tgt by done. by rewrite Ha.
      * apply Htg. apply seqb_false in E. by intros [->|?]%elem_of_cons.
Qed.

Lemma wf_move_all w old new a plan : wf w -> plan_target_prefix_rewrite_unlocked w old new a = Ok plan -> rstrip is_slash new <> [] -> wf (move_all a plan w).
Proof.
  intros Hw Hplan Hnew. pose proof (wf_nodup _ Hw) as Hnd. unfold plan_target_prefix_rewrite_unlocked in Hplan.
  destruct (forallb _ _) eqn:Hfree; [|done]. injection Hplan as <-. unfold move_all.
  assert (forall id, id ∈ fst <$> moving w old new a -> exists t, dict_get (tasks w) id = Some t /\ account_id t = a /\ target w id = tgt t) as Hp.
  { intros id ([id' x] & -> & (t & uri & Hg & Ha & _)%elem_of_moving)%list_elem_of_fmap; [|done]. exists t. unfold target. cbn. by rewrite Hg. }
  destruct (unindex_moved_exact a _ w (target w) (moving_nodup _ _ _ _ Hnd) Hp (wf_index _ Hw)) as [Ht Hx].
  eapply move_loop; rewrite ?Ht; [apply Hw|done|exact Hx|by apply moving_nodup|by apply moving_targets_nodup| |].
  - intros id x Hin. pose proof Hin as (t & uri & Hg & Ha & Htu & Hm & Hxe)%elem_of_moving; [|done].
    assert (id ∈ fst <$> moving w old new a) as Hid by (apply list_elem_of_fmap; by exists (id, x)). split_and!.
    + by exists t.
    + unfold mem. by rewrite bool_decide_eq_true_2.
    + destruct (uri_to_task (unindex_moved a _ w) !! (a, x)) as [j|] eqn:Hj; [|done]. apply Hx in Hj. unfold mem in Hj.
      case_bool_decide as Hjn; [done|]. apply (wf_index _ Hw) in Hj. pose proof (proj1 (forallb_forall _ _) Hfree (id, x)) as Hfr.
      rewrite <- list_elem_of_In in Hfr. specialize (Hfr Hin). unfold target_free in Hfr. cbn in Hfr. rewrite Hj in Hfr.
      destruct (dict_get (moving w old new a) j) as [y|] eqn:Hjm.
      * destruct Hjn. apply list_elem_of_fmap. exists (j, y). split; [done|by apply dict_get_elem].
      * rewrite bool_decide_eq_false_2 in Hfr by (by intros [? [=]]). apply (wf_index _ Hw) in Hj. unfold target in Hj.
        destruct (dict_get (tasks w) j) as [tj|] eqn:Hgj; [|done]. destruct (wf_keys _ Hw _ _ Hgj) as (_ & Hne & _).
        by rewrite (proj2 (nonempty_true _) Hne) in Hfr.
    + rewrite Hxe. destruct (rewrite_suffix _ _ new Hm) as [_ ->]. by destruct (rstrip is_slash new).
  - intros j Hj. unfold mem. rewrite bool_decide_eq_false_2 by done. unfold target. by rewrite Ht.
Qed.

(** ** Undoing a move *)

Lemma dict_set_map {A} (d : list (pystr * A)) k v : NoDup (fst <$> d) -> k ∈ fst <$> d ->
  dict_set d k v = (fun '(j, x) => (j, if seqb k j then v else x)) <$> d.
Proof.
  induction d as [|[j x] d IH]; [by intros _ ?%elem_of_nil|]. rewrite !fmap_cons. intros [Hj Hn]%NoDup_cons Hk. cbn [dict_set fst] in *.
  destruct (seqb j k) eqn:E.
  - apply seqb_true in E as ->. rewrite (proj2 (seqb_true k k)) by done. f_equal. symmetry. transitivity (id <$> d); [|apply list_fmap_id].
    apply list_fmap_ext. intros i [j y] Hy. cbn. rewrite (proj2 (seqb_false k j)); [done|]. intros ->.
    apply Hj, list_elem_of_fmap. exists (j, y). split; [done|by eapply list_elem_of_lookup_2].
  - apply seqb_false in E. rewrite (proj2 (seqb_false k j)) by congruence. f_equal. apply IH; [done|].
    by apply elem_of_cons in Hk as [->|Hk].
Qed.

Definition relocated (plan : list (pystr * pystr)) (item : pystr * WatchTask) : pystr * WatchTask :=
  (item.1, match dict_get plan item.1 with Some x => moved_task x item.2 | None => item.2 end).

Lemma relocated_keys plan (l : list (pystr * WatchTask)) : fst <$> (relocated plan <$> l) = fst <$> l.
Proof. rewrite <- list_fmap_compose. by apply list_fmap_ext. Qed.

(** The tasks after the second loop. *)
Lemma move_loop_tasks a ps : forall w, NoDup (fst <$> tasks w) -> NoDup (fst <$> ps) -> (forall id, id ∈ fst <$> ps -> id ∈ fst <$> tasks w) ->
  tasks (foldl (move_one a) w ps) = relocated ps <$> tasks w /\ initialized (foldl (move_one a) w ps) = initialized w.
Proof.
  induction ps as [|[id x] ps IH]; intros w Hnd Hn Hin; cbn [foldl].
  - split; [|done]. symmetry. transitivity (Datatypes.id <$> tasks w); [|apply list_fmap_id]. apply list_fmap_ext. by intros i [j t] _.
  - rewrite fmap_cons in Hn, Hin. apply NoDup_cons in Hn as [Hid Hn]. cbn [fst] in *. unfold move_one at 2 4. cbn [fst snd].
    destruct (dict_get (tasks w) id) as [t|] eqn:Hg; [|apply dict_get_None in Hg; destruct Hg; by apply Hin; left].
    destruct (IH (MkWatch (dict_set (tasks w) id (moved_task x t)) (<[(a, x) := id]> (uri_to_task w)) (initialized w))) as [IHt IHi]; cbn [tasks].
    + by apply dict_set_nodup.
    + done.
    + intros j Hj. rewrite dict_set_keys. right. apply Hin. by right.
    + split; [|by rewrite IHi]. rewrite IHt. cbn [tasks]. rewrite dict_set_map; [|done|by apply Hin; left]. rewrite <- list_fmap_compose.
      apply list_fmap_ext. intros i [j y] Hy%list_elem_of_lookup_2. unfold relocated. cbn. destruct (seqb id j) eqn:E; [|done].
      apply seqb_true in E as <-. rewrite (proj2 (dict_get_None ps id)) by done. f_equal. f_equal.
      apply dict_get_in in Hy; [|done]. congruence.
Qed.

Lemma plan_ids w old new a plan id : wf w -> plan_target_prefix_rewrite_unlocked w old new a = Ok plan ->
  plan = moving w old new a /\ NoDup (fst <$> plan) /\ (id ∈ fst <$> plan -> id ∈ fst <$> tasks w).
Proof.
  intros Hw Hplan. unfold plan_target_prefix_rewrite_unlocked in Hplan. destruct (forallb _ _); [|done]. injection Hplan as <-.
  split; [done|]. split; [apply moving_nodup, Hw|]. intros ([j x] & -> & (t & uri & Hg & _)%elem_of_moving)%list_elem_of_fmap; [|apply Hw].
  apply list_elem_of_fmap. exists (j, t). split; [done|by apply dict_get_elem].
Qed.

Lemma unindex_moved_tasks a plan w : tasks (unindex_moved a plan w) = tasks w /\ initialized (unindex_moved a plan w) = initialized w.
Proof.
  unfold unindex_moved. revert w. induction plan as [|[id x] plan IH]; intros w; [done|]. cbn [foldl]. destruct (dict_get (tasks w) id) as [t|]; [|apply IH].
  destruct (IH (unindex_target a (to_uri t) w)) as [-> ->]. split; [apply unindex_target_tasks|]. destruct (to_uri t) as [y|]; cbn; [by destruct (nonempty y)|done].
Qed.

Lemma move_all_tasks w old new a plan : wf w -> plan_target_prefix_rewrite_unlocked w old new a = Ok plan ->
  tasks (move_all a plan w) = relocated plan <$> tasks w /\ initialized (move_all a plan w) = initialized w.
Proof.
  intros Hw Hp. unfold move_all. destruct (unindex_moved_tasks a plan w) as [E1 E2]. rewrite <- E1, <- E2.
  apply move_loop_tasks; [by rewrite E1; apply Hw|by destruct (plan_ids _ _ _ _ _ [] Hw Hp) as (_ & ? & _)|].
  intros id. rewrite E1. by destruct (plan_ids _ _ _ _ _ id Hw Hp) as (_ & _ & ?).
Qed.

(** The handler puts the manager back exactly as it was. *)
Lemma restore_move w old new a plan : wf w -> plan_target_prefix_rewrite_unlocked w old new a = Ok plan ->
  restore_targets w plan (move_all a plan w) = w.
Proof.
  intros Hw Hp. unfold restore_targets. destruct (move_all_tasks _ _ _ _ _ Hw Hp) as [-> ->]. destruct w as [tks ix b] eqn:Ew. cbn [tasks uri_to_task initialized]. f_equal.
  rewrite <- list_fmap_compose. transitivity (id <$> tks); [|apply list_fmap_id]. apply list_fmap_ext. intros i [j t] Hj%list_elem_of_lookup_2. cbn.
  apply dict_get_in in Hj; [|by apply (wf_nodup _ Hw)]. rewrite Hj. destruct (dict_get plan j) as [x|] eqn:E.
  - rewrite bool_decide_eq_true_2 by eauto. by destruct t.
  - rewrite bool_decide_eq_false_2 by (by intros [? [=]]). done.
Qed.

(** ** Updates *)

Lemma reschedule_ok c t t' : reschedule c t = Ok t' ->
  (is_Some (c_watch_interval c) -> is_active t = true -> (0 < watch_interval t)%Z) -> (c_watch_interval c = None -> c_is_active c = None -> scheduled t) ->
  task_id t' = task_id t /\ account_id t' = account_id t /\ to_uri t' = to_uri t /\ scheduled t'.
Proof.
  unfold reschedule. intros H Hpos Hkeep.
  assert (forall n, (0 < watch_interval t)%Z -> is_active t = true -> scheduled (set_next (Some n) t)) as Hact by (intros n Hi Ha; unfold scheduled; cbn; by rewrite Ha).
  assert (is_active t = false -> scheduled (set_next None t)) as Hina by (intros Ha; unfold scheduled; cbn; by rewrite Ha).
  case_bool_decide as Hw; [|case_bool_decide as Ha].
  - destruct (is_active t) eqn:Ea; cbn in H.
    + rewrite (proj2 (Z.ltb_lt _ _)) in H by auto. destruct (calculate_next_execution_time t) as [n|]; [|done]. injection H as <-. split_and!; auto.
    + injection H as <-. split_and!; auto.
  - destruct (is_active t) eqn:Ea.
    + destruct (watch_interval t <=? 0)%Z eqn:Ei; [done|]. apply Z.leb_gt in Ei. destruct (next_execution_time t) as [n|] eqn:En.
      * injection H as <-. split_and!; try done. unfold scheduled. rewrite Ea, En. eauto.
      * destruct (calculate_next_execution_time t) as [n|]; [|done]. injection H as <-. split_and!; auto.
    + injection H as <-. split_and!; auto.
  - injection H as <-. split_and!; try done. apply Hkeep; by apply eq_None_not_Some.
Qed.

Lemma apply_changes_ok c t t' : apply_changes c t = (Ok tt, t') -> scheduled t ->
  task_id t' = task_id t /\ account_id t' = account_id t /\ to_uri t' = match c_to_uri c with Some x => Some x | None => to_uri t end /\ scheduled t'.
Proof.
  unfold apply_changes, change_interval. intros H Hs. destruct (c_watch_interval c) as [iv|] eqn:Ew.
  - destruct (iv <=? 0)%Z eqn:Ei.
    + case_bool_decide as Ea; [done|]. cbn in H. destruct (reschedule _ _) as [t3|] eqn:Hr; [|done]. injection H as <-.
      apply reschedule_ok in Hr as (H1 & H2 & H3 & H4); [by split_and!| |by rewrite Ew]. cbn. intros _. by destruct (c_is_active c) as [[]|].
    + apply Z.leb_gt in Ei. cbn in H. destruct (reschedule _ _) as [t3|] eqn:Hr; [|done]. injection H as <-.
      apply reschedule_ok in Hr as (H1 & H2 & H3 & H4); [by split_and!|by cbn|by rewrite Ew].
  - destruct (reschedule _ _) as [t3|] eqn:Hr; [|done]. injection H as <-.
    apply reschedule_ok in Hr as (H1 & H2 & H3 & H4); [by split_and!|by rewrite Ew; intros [? [=]]|].
    intros _ Hna. unfold scheduled, change_options, change_source. cbn. by rewrite Hna.
Qed.

(** ** Every operation keeps the invariant *)

Section operations.
Context {St : Type} {env : WatchEnv} {fs : WatchFS St}.
Abbreviation mgr := (manager St).

Lemma save_watch stamp (m : mgr) : mg_watch (save_tasks stamp m).2 = mg_watch m.
Proof. unfold save_tasks, on_store. destruct attached; [|done]. by destruct (write_storage _ _) as [r s]. Qed.

Definition keeps {A} (op : ST mgr A) : Prop := forall m, wf (mg_watch m) -> wf (mg_watch (op m).2).

(** A change of the manager followed by a save and a result. *)
Lemma keeps_saved {A} (f : watch -> watch) stamp (a : A) (m : mgr) : wf (f (mg_watch m)) ->
  wf (mg_watch ((_ ← on_watch f; _ ← save_tasks stamp; mret a) m).2).
Proof.
  intros Hf. rewrite st_bind_unfold. cbn [on_watch st_modify]. rewrite st_bind_unfold.
  pose proof (save_watch stamp (MkManager (f (mg_watch m)) (mg_store m))) as Hs. destruct (save_tasks _ _) as [[] m']; cbn in *; by rewrite Hs.
Qed.

Lemma keeps_saved_unit (f : watch -> watch) stamp (m : mgr) : wf (f (mg_watch m)) -> wf (mg_watch ((_ ← on_watch f; save_tasks stamp) m).2).
Proof. intros Hf. rewrite st_bind_unfold. cbn [on_watch st_modify]. by rewrite save_watch. Qed.

Lemma create_keeps id now stamp a (m : mgr) : wf (mg_watch m) -> dict_get (tasks (mg_watch m)) id = None -> id <> [] ->
  wf (mg_watch (create_task id now stamp a m).2).
Proof.
  intros Hw Hf Hne. unfold create_task. destruct (nonempty (a_path a)); [|done]. cbn [negb]. destruct (a_watch_interval a <=? 0)%Z eqn:Ei; [done|].
  apply Z.leb_gt in Ei. destruct (check_uri_conflict _ _ _ _) eqn:Hc; [done|]. destruct (calculate_next_execution_time _) as [next|e]; [|done].
  apply keeps_saved. apply (wf_create _ (set_next (Some next) (new_task id now a))); try done.
Qed.

(** An update that is applied, or is refused before it has given the task another target
    or left its schedule half set.  The fields are checked while they are being set. *)
Definition harmless (c : changes) (t : WatchTask) : Prop :=
  (apply_changes c t).1 = Ok tt \/ to_uri (apply_changes c t).2 = to_uri t /\ scheduled (apply_changes c t).2.

Lemma apply_changes_owner c t : task_id (apply_changes c t).2 = task_id t /\ account_id (apply_changes c t).2 = account_id t.
Proof.
  unfold apply_changes, change_interval, reschedule.
  repeat (case_match; simplify_eq/=; try done).
  all: repeat match goal with H : (_ ← _; _) = Ok _ |- _ => destruct (calculate_next_execution_time _); cbn in H; simplify_eq/= end; done.
Qed.

Lemma update_keeps stamp account user role c t (m : mgr) : wf (mg_watch m) -> dict_get (tasks (mg_watch m)) (task_id t) = Some t ->
  harmless c t -> wf (mg_watch (update_stable stamp account user role c t m).2).
Proof.
  intros Hw Hg Hok. unfold update_stable. destruct (check_permission _ _ _ _); [|done]. unfold update_task_unlocked.
  destruct (check_uri_conflict _ _ _ _) eqn:Hc; [done|]. unfold harmless in Hok. destruct (apply_changes_owner c t) as [Hid0 Hac0].
  destruct (apply_changes c t) as [r t'] eqn:Ha. cbn [fst snd] in *. destruct r as [[]|e].
  2: { destruct Hok as [?|[Htu Hs]]; [done|]. rewrite st_bind_unfold. cbn. apply (wf_set_task _ t); try done. unfold tgt. by rewrite Htu, Hac0. }
  destruct (wf_keys _ Hw _ _ Hg) as (_ & _ & Hs). destruct (apply_changes_ok _ _ _ Ha Hs) as (Hid & Hac & Htu & Hs').
  rewrite st_bind_unfold. cbn [on_watch st_modify]. rewrite st_bind_unfold. cbn [st_lift]. apply keeps_saved. cbn [mg_watch].
  destruct (c_to_uri c) as [x|] eqn:Ec.
  - rewrite <- Htu. by apply wf_retarget; rewrite ?Htu.
  - apply (wf_set_task _ t); try done. unfold tgt. by rewrite Htu, Hac.
Qed.

Lemma delete_keeps stamp id account user role t (m : mgr) : wf (mg_watch m) -> dict_get (tasks (mg_watch m)) id = Some t ->
  wf (mg_watch (delete_stable stamp id account user role t m).2).
Proof.
  intros Hw Hg. unfold delete_stable. destruct (check_permission _ _ _ _); [|done]. by apply keeps_saved, wf_delete.
Qed.

Lemma auth_keeps stamp id auth : keeps (update_auth_state stamp id auth).
Proof.
  intros m Hw. unfold update_auth_state. destruct (dict_get _ id) as [t|] eqn:Hg; [|done]. apply keeps_saved_unit.
  destruct (wf_keys _ Hw _ _ Hg) as (<- & _ & Hs). by apply (wf_set_task _ t).
Qed.

Lemma executed_keeps now stamp id : keeps (update_execution_time now stamp id).
Proof.
  intros m Hw. unfold update_execution_time. destruct (dict_get _ id) as [t|] eqn:Hg; [|done]. destruct (wf_keys _ Hw _ _ Hg) as (<- & _ & Hs).
  destruct (negb (is_active t) || (watch_interval t <=? 0)%Z) eqn:E.
  - apply keeps_saved_unit. by apply (wf_set_task _ t).
  - apply orb_false_iff in E as [Ea%negb_false_iff Ei%Z.leb_gt]. destruct (calculate_next_execution_time _) as [next|e].
    + apply keeps_saved_unit. apply (wf_set_task _ t); try done. unfold scheduled. cbn. rewrite Ea. eauto.
    + rewrite st_bind_unfold. cbn. by apply (wf_set_task _ t).
Qed.

Lemma rewrite_keeps stamp old new a (m : mgr) : rstrip is_slash new <> [] -> wf (mg_watch m) ->
  wf (mg_watch (rewrite_target_prefix_internal stamp old new a m).2).
Proof.
  intros Hnew Hw. unfold rewrite_target_prefix_internal. destruct (plan_target_prefix_rewrite_unlocked _ _ _ _) as [plan|e] eqn:Hp; [|done].
  destruct plan as [|p plan]; [done|]. rewrite st_bind_unfold. cbn [on_watch st_modify].
  pose proof (save_watch stamp (MkManager (move_all a (p :: plan) (mg_watch m)) (mg_store m))) as Hs.
  destruct (save_tasks _ _) as [[[]|e] m']; cbn [mg_watch snd] in Hs |- *; [rewrite Hs; by eapply wf_move_all|].
  destruct (is_exception e); cbn [mg_watch]; rewrite Hs; [by rewrite (restore_move _ _ _ _ _ Hw Hp)|by eapply wf_move_all].
Qed.

(** Deactivating tasks of the manager one by one. *)
Lemma deactivate_loop found : forall w, wf w -> (forall t, t ∈ found -> dict_get (tasks w) (task_id t) = Some t) -> NoDup (task_id <$> found) ->
  wf (foldl (fun w t => set_task (deactivated t) w) w found).
Proof.
  induction found as [|t found IH]; intros w Hw Hin Hn; [done|]. rewrite fmap_cons in Hn. apply NoDup_cons in Hn as [Hid Hn]. cbn [foldl].
  apply IH; [|intros t' Ht'|done].
  - apply (wf_set_task _ t); try done. apply Hin. by left.
  - cbn. rewrite dict_set_get, (proj2 (seqb_false _ _)); [apply Hin; by right|]. intros E. apply Hid. rewrite E. by apply list_elem_of_fmap_2.
Qed.

Lemma tasks_ids w : wf w -> task_id <$> (tasks w).*2 = (tasks w).*1.
Proof.
  intros Hw. rewrite <- list_fmap_compose. apply list_fmap_ext. intros i [id t] Hi%list_elem_of_lookup_2. cbn.
  apply dict_get_in in Hi; [|apply Hw]. by destruct (wf_keys _ Hw _ _ Hi).
Qed.

Lemma in_tasks w t : wf w -> t ∈ (tasks w).*2 <-> dict_get (tasks w) (task_id t) = Some t.
Proof.
  intros Hw. split.
  - intros ([id t'] & -> & Hi)%list_elem_of_fmap. apply dict_get_in in Hi; [|apply Hw]. cbn. destruct (wf_keys _ Hw _ _ Hi) as (-> & _). done.
  - intros Hg%dict_get_elem. apply list_elem_of_fmap. by exists (task_id t, t).
Qed.

Lemma sublist_filter_nodup {A B} (f : A -> B) (P : A -> Prop) `{!forall x, Decision (P x)} l : NoDup (f <$> l) -> NoDup (f <$> filter P l).
Proof.
  induction l as [|x l IH]; [done|]. rewrite fmap_cons. intros [Hx Hn]%NoDup_cons. rewrite filter_cons. case_decide; [|by apply IH].
  rewrite fmap_cons. apply NoDup_cons. split; [|by apply IH]. intros (y & Hy & [_ Hin]%list_elem_of_filter)%list_elem_of_fmap.
  apply Hx, list_elem_of_fmap. by exists y.
Qed.

Lemma deactivate_keeps stamp uri a : keeps (deactivate_tasks_under_uri_internal stamp uri a).
Proof.
  intros m Hw. unfold deactivate_tasks_under_uri_internal.
  assert (wf (foldl (fun w t => set_task (deactivated t) w) (mg_watch m) (matched (mg_watch m) uri a))) as H.
  { apply deactivate_loop; [done| |].
    - intros t [_ Ht]%list_elem_of_filter. by apply in_tasks.
    - apply sublist_filter_nodup. rewrite tasks_ids by done. apply Hw. }
  destruct (matched (mg_watch m) uri a); [done|]. by apply keeps_saved.
Qed.

(** ** Runs *)

(** Nobody else acts. *)
Definition idle : nat -> mgr -> mgr := fun _ m => m.

Lemma stable_idle {A} fuel between i (missing : result A) id body (m : mgr) :
  with_stable_target (S fuel) idle between i missing id body m =
  match dict_get (tasks (mg_watch m)) id with None => (missing, m) | Some t => body t m end.
Proof.
  cbn. unfold idle. destruct (dict_get _ id) as [t|]; [|done]. by rewrite (proj2 (seqb_true _ _)), bool_decide_eq_true_2 by done.
Qed.

(** The operations, each under the manager's lock, whatever they return or raise.
    Fresh ids are fresh, targets move to a real URI, and updates are [harmless]: one that
    is refused after it has set a new target leaves the index behind (see
    [failed_update_breaks_index]). *)
Inductive watch_step (m : mgr) : mgr -> Prop :=
| step_create id now stamp a : dict_get (tasks (mg_watch m)) id = None -> id <> [] -> watch_step m (create_task id now stamp a m).2
| step_update stamp id account user role c :
    (forall t, dict_get (tasks (mg_watch m)) id = Some t -> harmless c t) ->
    watch_step m (update_task 1 idle idle stamp id account user role c m).2
| step_delete stamp id account user role : watch_step m (delete_task 1 idle idle stamp id account user role m).2
| step_auth stamp id auth : watch_step m (update_auth_state stamp id auth m).2
| step_rewrite stamp old new account : rstrip is_slash new <> [] -> watch_step m (rewrite_target_prefix_internal stamp old new account m).2
| step_deactivate stamp uri account : watch_step m (deactivate_tasks_under_uri_internal stamp uri account m).2
| step_executed now stamp id : watch_step m (update_execution_time now stamp id m).2.

Lemma step_keeps m m' : watch_step m m' -> wf (mg_watch m) -> wf (mg_watch m').
Proof.
  intros [id now stamp a Hf Hne|stamp id account user role c Hc|stamp id account user role|stamp id auth|stamp old new account Hn|stamp uri account|now stamp id] Hw.
  - by apply create_keeps.
  - unfold update_task. rewrite stable_idle. destruct (dict_get _ id) as [t|] eqn:Hg; [|done]. destruct (wf_keys _ Hw _ _ Hg) as (<- & _).
    apply update_keeps; auto.
  - unfold delete_task. rewrite stable_idle. destruct (dict_get _ id) as [t|] eqn:Hg; [|done]. by apply delete_keeps.
  - by apply auth_keeps.
  - by apply rewrite_keeps.
  - by apply deactivate_keeps.
  - by apply executed_keeps.
Qed.

Lemma run_keeps m m' : rtc watch_step m m' -> wf (mg_watch m) -> wf (mg_watch m').
Proof. induction 1 as [|x y z Hs _ IH]; [done|]. intros Hw. by apply IH, (step_keeps x). Qed.

Lemma empty_watch_wf : wf empty_watch.
Proof. split; cbn; [done|constructor|]. intros k id. unfold target. cbn. by rewrite lookup_empty. Qed.

(** C21: In a watch manager the target index is exact (a URI of an account is indexed
    under an id if and only if that task of the account targets it, so no two tasks of
    an account share a target), and every task is either active with a positive interval
    and a time for its next run, or inactive with none.  A new manager satisfies this,
    and every sequence of operations keeps it, with saves that fail or are cancelled
    anywhere, provided that new ids are fresh, that targets move to a URI that is not
    empty, and that no update is refused after it has set a new target or a part of a
    schedule: the fields of an update are checked while they are being set, and such an
    update breaks the index. *)
Theorem watch_invariant (m0 m : mgr) :
  wf (mg_watch m0) -> rtc watch_step m0 m ->
  (forall a x id, uri_to_task (mg_watch m) !! (a, x) = Some id <->
     x <> [] /\ exists t, dict_get (tasks (mg_watch m)) id = Some t /\ account_id t = a /\ to_uri t = Some x) /\
  (forall id t, dict_get (tasks (mg_watch m)) id = Some t ->
     task_id t = id /\ (if is_active t then (0 < watch_interval t)%Z /\ is_Some (next_execution_time t) else next_execution_time t = None)).
Proof.
  intros H0 Hw%run_keeps; [|done]. split.
  - intros a x id. rewrite (wf_index _ Hw (a, x) id). unfold target. destruct (dict_get _ id) as [t|] eqn:Hg; cbn [mbind option_bind].
    + rewrite tgt_some. naive_solver.
    + naive_solver.
  - intros id t Hg. destruct (wf_keys _ Hw _ _ Hg) as (H1 & _ & H2). by split.
Qed.

(** ** The retry loop *)

Definition same_target (id : pystr) (m m' : mgr) : Prop :=
  match dict_get (tasks (mg_watch m)) id, dict_get (tasks (mg_watch m')) id with
  | Some t, Some t' => account_id t' = account_id t /\ to_uri t' = to_uri t
  | _, _ => True
  end.

(** The manager at the start of round [i]. *)
Fixpoint round_start (others between : nat -> mgr -> mgr) (i : nat) (m : mgr) : mgr :=
  match i with O => m | S i => let m := round_start others between i m in between i (others i m) end.

(** How the loop may end in the round that starts with [m]: the task is not there, or is
    gone after the wait; or it is there before and after the wait, with the same account
    and target, and the body runs on it. *)
Definition ends {A} (others : mgr -> mgr) (id : pystr) (missing : result A) (body : WatchTask -> ST mgr A) (m : mgr) (outcome : result A * mgr) : Prop :=
  match dict_get (tasks (mg_watch m)) id, dict_get (tasks (mg_watch (others m))) id with
  | None, _ => outcome = (missing, m)
  | Some _, None => outcome = (missing, others m)
  | Some t0, Some t => account_id t = account_id t0 /\ to_uri t = to_uri t0 /\ outcome = body t (others m)
  end.

(** Rounds are charged to the busy indices from [i] on. *)
Lemma stable_loop {A} busy others between id (missing : result A) body (m0 : mgr) fuel : forall i,
  (forall j m, j ∉ busy -> same_target id m (others j m)) -> (length (filter (fun j => i <= j)%nat busy) < fuel)%nat ->
  exists n, (i <= n < i + fuel)%nat
    /\ (forall j, (i <= j < n)%nat -> ~ same_target id (round_start others between j m0) (others j (round_start others between j m0)))
    /\ ends (others n) id missing body (round_start others between n m0)
         (with_stable_target fuel others between i missing id body (round_start others between i m0)).
Proof.
  induction fuel as [|fuel IH]; intros i Hq Hlt; [lia|]. cbn [with_stable_target]. set (m := round_start others between i m0) in *.
  destruct (dict_get (tasks (mg_watch m)) id) as [t0|] eqn:Hg; [|exists i; split_and!; [lia|lia|intros; lia|unfold ends; fold m; by rewrite Hg]].
  destruct (dict_get (tasks (mg_watch (others i m))) id) as [t|] eqn:Hg'; [|exists i; split_and!; [lia|lia|intros; lia|unfold ends; fold m; by rewrite Hg, Hg']].
  destruct (seqb (account_id t) (account_id t0) && bool_decide (to_uri t = to_uri t0)) eqn:E.
  { apply andb_true_iff in E as [E1%seqb_true E2%bool_decide_eq_true]. exists i. split_and!; [lia|lia|intros; lia|unfold ends; fold m; by rewrite Hg, Hg']. }
  assert (~ same_target id m (others i m)) as Hmoved.
  { unfold same_target. rewrite Hg, Hg'. intros [H1 H2]. by rewrite H1, H2, (proj2 (seqb_true _ _)), bool_decide_eq_true_2 in E. }
  destruct (IH (S i) Hq) as (n & Hn & Hbusy & Hend).
  - assert (i ∈ busy) as Hi by (destruct (decide (i ∈ busy)) as [|Hi]; [done|by destruct Hmoved; apply Hq]).
    eapply Nat.lt_le_trans; [|apply Nat.lt_succ_r, Hlt].
    assert (forall l, i ∈ l -> length (filter (fun j => S i <= j)%nat l) < length (filter (fun j => i <= j)%nat l))%nat as Hl; [|by apply Hl].
    assert (forall l, length (filter (fun j => S i <= j)%nat l) <= length (filter (fun j => i <= j)%nat l))%nat as Hle.
    { induction l as [|j l IHl]; [done|]. rewrite !filter_cons. repeat case_decide; cbn; lia. }
    induction l as [|j l IHl]; [by intros ?%elem_of_nil|]. intros [->|Hin]%elem_of_cons; rewrite !filter_cons.
    + rewrite decide_False, decide_True by lia. cbn. specialize (Hle l). lia.
    + specialize (IHl Hin). repeat case_decide; cbn; lia.
  - exists n. split_and!; [lia|lia| |exact Hend]. intros j Hj. destruct (decide (j = i)) as [->|]; [done|]. apply Hbusy. lia.
Qed.

(** C24: The retry loops of [update_task], [delete_task] and [get_task] end: if in all but
    [length busy] rounds the others leave the task's account and target alone while it
    waits for its lease, one round more than that is enough.  The loop goes on from a
    round only if the task's account or target changed during its wait; it reports the
    task as missing only if it is not in the manager at that moment, and otherwise runs
    its body once, on the task as it is after the wait, whose account and target are
    those the lease was asked for. *)
Theorem stable_target_terminates {A} (busy : list nat) (others between : nat -> mgr -> mgr) (id : pystr) (missing : result A)
    (body : WatchTask -> ST mgr A) (m : mgr) (fuel : nat) :
  (forall j m, j ∉ busy -> same_target id m (others j m)) -> (length busy < fuel)%nat ->
  exists n, (n < fuel)%nat
    /\ (forall j, (j < n)%nat -> ~ same_target id (round_start others between j m) (others j (round_start others between j m)))
    /\ ends (others n) id missing body (round_start others between n m) (with_stable_target fuel others between 0 missing id body m).
Proof.
  intros Hq Hlt. destruct (stable_loop busy others between id missing body m fuel 0) as (n & Hn & Hb & He); [done| |].
  - eapply Nat.le_lt_trans; [apply length_filter|done].
  - exists n. split_and!; [lia|intros j Hj; apply Hb; lia|exact He].
Qed.

(** ** Permissions *)

(** The requester is not root, and the task is another account's, or another user's and
    the requester no administrator. *)
Definition foreign (t : WatchTask) (account user role : pystr) : Prop :=
  fold_case <$> role <> u "root" /\ (account_id t <> account \/ fold_case <$> role <> u "admin" /\ user_id t <> user).

Lemma foreign_refused t account user role : foreign t account user role -> check_permission t account user role = false.
Proof.
  intros [Hr H]. unfold check_permission. rewrite (proj2 (seqb_false _ _) Hr). destruct H as [H|[Ha Hu]].
  - by rewrite (proj2 (seqb_false _ _) H).
  - destruct (negb (seqb (account_id t) account)); [done|]. by rewrite (proj2 (seqb_false _ _) Ha), (proj2 (seqb_false _ _) Hu).
Qed.

(** Watch tasks are private: a requester who is neither root, nor an administrator
    of the task's account, nor its owner is refused by update and delete with the
    manager and its files untouched, and sees the task through no query. *)
Theorem watch_isolation (m : mgr) (t : WatchTask) (id account user role to source : pystr) (stamp : Z) (c : changes) (active_only : bool) :
  dict_get (tasks (mg_watch m)) id = Some t -> foreign t account user role ->
  update_task 1 idle idle stamp id account user role c m = (Err PermissionDeniedError, m) /\
  delete_task 1 idle idle stamp id account user role m = (Err PermissionDeniedError, m) /\
  get_task 1 idle idle id account user role m = (Ok None, m) /\
  t ∉ get_all_tasks account user role active_only (mg_watch m) /\
  get_task_by_uri to account user role (mg_watch m) <> Some t /\
  get_upsertable_task_by_uri source to account user role (mg_watch m) <> Ok (Some t).
Proof.
  intros Hg Hf%foreign_refused. unfold update_task, delete_task, get_task. rewrite !stable_idle, Hg. unfold update_stable, delete_stable, get_stable. rewrite Hf.
  split_and!; try done.
  - intros [[H _]%andb_true_iff _]%list_elem_of_filter. congruence.
  - unfold get_task_by_uri. destruct (task_at _ _ _) as [[t'|]|]; [|done|done]. destruct (check_permission t' account user role) eqn:E; [|done].
    intros [= ->]. congruence.
  - unfold get_upsertable_task_by_uri. destruct (task_at _ _ _) as [[t'|]|]; [|done|done]. destruct (check_permission t' account user role) eqn:E; [|done].
    cbn. destruct (_ && _); [done|]. intros [= ->]. congruence.
Qed.

(** ** The schedule's queries *)

Lemma fold_min_le l : forall n, (foldl Z.min n l <= n)%Z /\ Forall (fun x => foldl Z.min n l <= x)%Z l /\ (foldl Z.min n l = n \/ foldl Z.min n l ∈ l).
Proof.
  induction l as [|x l IH]; intros n; cbn [foldl]; [split_and!; [lia|constructor|by left]|]. destruct (IH (Z.min n x)) as (H1 & H2 & H3). split_and!.
  - lia.
  - constructor; [lia|done].
  - destruct H3 as [H3|H3]; [|right; by right]. destruct (Z.min_spec n x) as [[_ E]|[_ E]]; rewrite E in H3 |- *; [by left|right; rewrite H3; by left].
Qed.

(** The scheduler sleeps just long enough: the time it asks for is the earliest
    moment at which a task is due, and without one no task ever is. *)
Theorem next_execution_is_first_due (w : watch) (account : option pystr) (now : Z) :
  match get_next_execution_time account w with
  | None => get_due_tasks now account w = []
  | Some next => get_due_tasks now account w <> [] <-> (next <= now)%Z
  end.
Proof.
  unfold get_next_execution_time.
  assert (forall t, t ∈ get_due_tasks now account w <-> exists n, t ∈ (tasks w).*2 /\
    (if is_active t && of_account account t then next_execution_time t else None) = Some n /\ (n <= now)%Z) as Hdue.
  { intros t. unfold get_due_tasks. rewrite list_elem_of_filter. destruct (is_active t && of_account account t); [|naive_solver].
    destruct (next_execution_time t) as [n|]; [|naive_solver]. cbn. rewrite Z.leb_le. naive_solver. }
  set (times := omap _ _).
  assert (forall n, n ∈ times <-> exists t, t ∈ (tasks w).*2 /\ (if is_active t && of_account account t then next_execution_time t else None) = Some n) as Ht.
  { intros n. subst times. apply list_elem_of_omap. }
  destruct times as [|n l].
  - destruct (get_due_tasks now account w) as [|t l] eqn:E; [done|]. destruct (proj1 (Hdue t)) as (n & Hin & Hn & _); [by left|].
    assert (n ∈ @nil Z) as []%elem_of_nil by (apply Ht; eauto).
  - destruct (fold_min_le l n) as (H1 & H2 & H3). split.
    + intros Hne. destruct (get_due_tasks now account w) as [|t l'] eqn:E; [done|]. destruct (proj1 (Hdue t)) as (n' & Hin & Hn & Hle); [by left|].
      assert (n' ∈ n :: l) as [->|Hl]%elem_of_cons by (apply Ht; eauto); [lia|]. pose proof (proj1 (Forall_forall _ _) H2 _ Hl). cbn in *. lia.
    + intros Hle Hnil. assert (foldl Z.min n l ∈ n :: l) as Hin by (destruct H3 as [H3|H3]; [rewrite H3; by left|by right]).
      apply Ht in Hin as (t & Hin & Hn). assert (t ∈ get_due_tasks now account w) as Hd by (apply Hdue; eauto). rewrite Hnil in Hd. by apply elem_of_nil in Hd.
Qed.
End operations.
