(* ===== verification/WireJson.v ===== *)
(** A concrete codec of dynamic values as texts, on which the theorems that take
    [json.dumps] and [json.loads] as arguments are run. *)
From Stdlib Require Import NArith ZArith.
From S2P Require Import Prelude PyStr PyVal.

Open Scope N_scope.

Definition wire_z (z : Z) : list N := [if (z <? 0)%Z then 1 else 0; Z.abs_N z].
Definition wire_s (s : pystr) : list N := N.of_nat (length s) :: s.

Fixpoint wire (v : pyval) : pystr :=
  match v with
  | VNone => [33]
  | VBool b => [34; if b then 1 else 0]
  | VInt z => 35 :: wire_z z
  | VFloat z => 36 :: wire_z z
  | VStr s => 37 :: wire_s s
  | VList l => 38 :: N.of_nat (length l) :: (l ≫= wire)
  | VDict d => 39 :: N.of_nat (length d) ::
      (fix go (d : pydict) : pystr := match d with [] => [] | (k, v) :: d => wire_s k ++ wire v ++ go d end) d
  end.

Definition wire_dict : pydict -> pystr :=
  fix go d := match d with [] => [] | (k, v) :: d => wire_s k ++ wire v ++ go d end.

(** [n] times [f], each on what the one before left. *)
Fixpoint many {A} (f : pystr -> option (A * pystr)) (n : nat) (s : pystr) : option (list A * pystr) :=
  match n with
  | O => Some ([], s)
  | S n => '(a, s) ← f s; '(l, s) ← many f n s; Some (a :: l, s)
  end.

Definition read_z (s : pystr) : option (Z * pystr) :=
  match s with sg :: n :: s => Some (if sg =? 1 then (- Z.of_N n)%Z else Z.of_N n, s) | _ => None end.
Definition read_s (s : pystr) : option (pystr * pystr) :=
  match s with n :: s => Some (take (N.to_nat n) s, drop (N.to_nat n) s) | _ => None end.

Fixpoint unwire (fuel : nat) (s : pystr) : option (pyval * pystr) :=
  match fuel, s with
  | S fuel, 33 :: s => Some (VNone, s)
  | S fuel, 34 :: b :: s => Some (VBool (b =? 1), s)
  | S fuel, 35 :: s => '(z, s) ← read_z s; Some (VInt z, s)
  | S fuel, 36 :: s => '(z, s) ← read_z s; Some (VFloat z, s)
  | S fuel, 37 :: s => '(k, s) ← read_s s; Some (VStr k, s)
  | S fuel, 38 :: n :: s => '(l, s) ← many (unwire fuel) (N.to_nat n) s; Some (VList l, s)
  | S fuel, 39 :: n :: s =>
      '(d, s) ← many (fun s => '(k, s) ← read_s s; '(v, s) ← unwire fuel s; Some ((k, v), s)) (N.to_nat n) s; Some (VDict d, s)
  | _, _ => None
  end.

Definition wire_loads (s : pystr) : result pyval := match unwire (length s) s with Some (v, []) => Ok v | _ => Err ValueError end.

Lemma read_wire_z z s : read_z (wire_z z ++ s) = Some (z, s).
Proof. unfold wire_z, read_z. cbn. destruct (z <? 0)%Z eqn:E; cbn; do 2 f_equal; lia. Qed.

Lemma read_wire_s k s : read_s (wire_s k ++ s) = Some (k, s).
Proof. unfold wire_s, read_s. cbn. by rewrite Nat2N.id, take_app_length, drop_app_length. Qed.

Lemma many_spec {A} (f : pystr -> option (A * pystr)) (g : A -> pystr) l s :
  Forall (fun a => forall s, f (g a ++ s) = Some (a, s)) l -> many f (length l) ((l ≫= g) ++ s) = Some (l, s).
Proof.
  induction 1 as [|a l Ha _ IH]; [done|]. rewrite bind_cons, <- app_assoc. cbn [length many]. rewrite Ha. cbn [mbind option_bind]. by rewrite IH.
Qed.

Lemma wire_dict_bind d : wire_dict d = d ≫= fun kv => wire_s kv.1 ++ wire kv.2.
Proof. induction d as [|[k v] d IH]; [done|]. rewrite bind_cons. cbn [wire_dict]. by rewrite IH, app_assoc. Qed.

Lemma in_bind_length {A} (g : A -> pystr) l a : a ∈ l -> (length (g a) <= length (l ≫= g))%nat.
Proof.
  induction l as [|x l IH]; [by intros ?%elem_of_nil|]. rewrite bind_cons, length_app. intros [->|H]%elem_of_cons; [lia|]. specialize (IH H). lia.
Qed.

Lemma unwire_wire v : forall fuel s, (length (wire v) <= fuel)%nat -> unwire fuel (wire v ++ s) = Some (v, s).
Proof.
  induction v as [|b|z|z|k|l IH|d IH] using pyval_nested_ind; intros [|fuel] s Hf; cbn in Hf; try lia; try done.
  - by destruct b.
  - change (wire (VInt z)) with (35 :: wire_z z). cbn [app unwire]. by rewrite read_wire_z.
  - change (wire (VFloat z)) with (36 :: wire_z z). cbn [app unwire]. by rewrite read_wire_z.
  - change (wire (VStr k)) with (37 :: wire_s k). cbn [app unwire]. by rewrite read_wire_s.
  - change (wire (VList l)) with (38 :: N.of_nat (length l) :: (l ≫= wire)). cbn [app unwire]. rewrite Nat2N.id, many_spec; [done|].
    apply Forall_forall. intros a Ha s'. apply (proj1 (Forall_forall _ _) IH); [done|].
    pose proof (in_bind_length wire _ _ Ha). lia.
  - change (wire (VDict d)) with (39 :: N.of_nat (length d) :: wire_dict d). cbn [app unwire]. rewrite Nat2N.id, wire_dict_bind, many_spec; [done|].
    apply Forall_forall. intros [k a] Ha s'. cbn [fst snd]. rewrite <- app_assoc, read_wire_s. cbn [mbind option_bind].
    rewrite (proj1 (Forall_forall _ _) IH _ Ha); [done|]. cbn [snd].
    change ((fix go (d : pydict) : pystr := match d with [] => [] | (k, v) :: d => wire_s k ++ wire v ++ go d end) d) with (wire_dict d) in Hf.
    rewrite wire_dict_bind in Hf. pose proof (in_bind_length (fun kv => wire_s kv.1 ++ wire kv.2) _ _ Ha) as Hl. cbn [fst snd] in Hl. rewrite length_app in Hl. lia.
Qed.

Lemma wire_roundtrip v : wire_loads (wire v) = Ok v.
Proof. unfold wire_loads. pose proof (unwire_wire v (length (wire v)) [] (Nat.le_refl _)) as H. rewrite app_nil_r in H. by rewrite H. Qed.

Lemma wire_nonblank d : nonempty (strip is_space (wire (VDict d))) = true.
Proof.
  change (wire (VDict d)) with (39 :: N.of_nat (length d) :: wire_dict d). apply nonempty_true. unfold strip.
  set (s := N.of_nat _ :: _). assert (lstrip is_space (39 :: s) = 39 :: s) as -> by done. intros H.
  destruct (rstrip_decomp is_space (39 :: s)) as (k & Hk & Hall). rewrite H in Hk. cbn in Hk. subst k. by apply Forall_cons in Hall as [? _].
Qed.
