(* ===== verification/WatchStorage.v ===== *)
(** What the watch manager's file holds: a save that stops anywhere leaves the old tasks
    or the new ones, and a restart gets back exactly the saved manager. *)
From Stdlib Require Import NArith ZArith.
From S2P Require Import Prelude PyStr PyVal UriMutation Watch WatchTheory.

Open Scope N_scope.

(** ** What the file system promises *)

(** Everything an operation may do besides succeeding: raise (an exception or a
    cancellation) before or after its effect; a write may leave anything in the file it
    writes. *)
Definition moved_file (src dst : pystr) (f f' : gmap pystr pystr) : Prop := exists c, f !! src = Some c /\ f' = <[dst := c]> (delete src f).

Class WatchFSOk (St : Type) {fs : WatchFS St} (files : St -> gmap pystr pystr) : Prop := {
  write_ok : forall uri c s, match fs_write uri c s with
    | (Ok _, s') => files s' = <[uri := c]> (files s)
    | (Err _, s') => delete uri (files s') = delete uri (files s) end;
  exists_ok : forall uri s, match fs_exists uri s with
    | (Ok b, s') => files s' = files s /\ b = bool_decide (is_Some (files s !! uri))
    | (Err _, s') => files s' = files s end;
  rm_ok : forall uri s, match fs_rm uri s with
    | (Ok _, s') => files s' = delete uri (files s)
    | (Err _, s') => files s' = files s \/ files s' = delete uri (files s) end;
  mv_ok : forall src dst s, match fs_mv src dst s with
    | (Ok _, s') => moved_file src dst (files s) (files s')
    | (Err _, s') => files s' = files s \/ moved_file src dst (files s) (files s') end;
  read_ok : forall uri s, files (fs_read uri s).2 = files s }.

(** ** What Python and pydantic promise *)

(** The declared fields with their values. *)
Definition time_field (t : option Z) : field := match t with Some t => FTime t | None => FVal VNone end.
Definition model_fields (t : WatchTask) : list (pystr * field) :=
  [(u "task_id", FVal (VStr (task_id t))); (u "path", FVal (VStr (path t))); (u "source_type", FVal (opt_str (source_type t)));
   (u "to_uri", FVal (opt_str (to_uri t))); (u "to_is_directory", FVal (match to_is_directory t with Some b => VBool b | None => VNone end));
   (u "parent_uri", FVal (opt_str (parent_uri t))); (u "reason", FVal (VStr (reason t))); (u "instruction", FVal (VStr (instruction t)));
   (u "watch_interval", FVal (VFloat (watch_interval t))); (u "build_index", FVal (VBool (build_index t))); (u "summarize", FVal (VBool (summarize t)));
   (u "processing_mode", FVal (VStr (processing_mode t))); (u "processor_kwargs", FVal (VDict (processor_kwargs t)));
   (u "auth_state", FVal (match auth_state t with Some d => VDict d | None => VNone end)); (u "created_at", FTime (created_at t));
   (u "last_execution_time", time_field (last_execution_time t)); (u "next_execution_time", time_field (next_execution_time t));
   (u "is_active", FVal (VBool (is_active t))); (u "account_id", FVal (VStr (account_id t))); (u "user_id", FVal (VStr (user_id t)));
   (u "original_role", FVal (VStr (original_role t)))].

(** [data] gives every field its value, or leaves out an [auth_state] of [None], its
    default. *)
Definition declares (data : list (pystr * field)) (t : WatchTask) : Prop :=
  Forall (fun kv => dict_get data kv.1 = Some kv.2 \/ kv = (u "auth_state", FVal VNone) /\ dict_get data kv.1 = None) (model_fields t).

Class WatchEnvOk {env : WatchEnv} : Prop := {
  iso_roundtrip : forall t, (0 <= t < DATETIME_END)%Z -> fromisoformat (isoformat t) = Ok t;
  json_roundtrip : forall v, json_loads (json_dumps v) = Ok v;
  json_nonblank : forall d, nonempty (strip is_space (json_dumps (VDict d))) = true;
  construct_ok : forall data t, declares data t -> construct data = Ok t }.

(** ** A task's stored form *)

Definition is_time (t : Z) : Prop := (0 <= t < DATETIME_END)%Z.
Definition timed (t : WatchTask) : Prop :=
  is_time (created_at t) /\ from_option is_time True (last_execution_time t) /\ from_option is_time True (next_execution_time t).

Section env.
Context {env : WatchEnv} {env_ok : WatchEnvOk}.

(** The dict [from_dict] hands to the constructor. *)
Definition read_fields (t : WatchTask) : list (pystr * field) :=
  [(u "task_id", FVal (VStr (task_id t))); (u "path", FVal (VStr (path t))); (u "source_type", FVal (opt_str (source_type t)));
   (u "to_uri", FVal (opt_str (to_uri t)));
   (u "parent_uri", FVal (opt_str (parent_uri t))); (u "reason", FVal (VStr (reason t))); (u "instruction", FVal (VStr (instruction t)));
   (u "watch_interval", FVal (VFloat (watch_interval t))); (u "build_index", FVal (VBool (build_index t))); (u "summarize", FVal (VBool (summarize t)));
   (u "processing_mode", FVal (VStr (processing_mode t))); (u "processor_kwargs", FVal (VDict (processor_kwargs t)));
   (u "created_at", FTime (created_at t));
   (u "last_execution_time", time_field (last_execution_time t)); (u "next_execution_time", time_field (next_execution_time t));
   (u "is_active", FVal (VBool (is_active t))); (u "account_id", FVal (VStr (account_id t))); (u "user_id", FVal (VStr (user_id t)));
   (u "original_role", FVal (VStr (original_role t))); (u "to_is_directory", FVal (match to_is_directory t with Some b => VBool b | None => VNone end))] ++
  match auth_state t with Some d => [(u "auth_state", FVal (VDict d))] | None => [] end.

Ltac field := vm_compute; reflexivity.

Lemma read_fields_declare t : declares (read_fields t) t.
Proof.
  unfold declares, model_fields. destruct t as [? ? ? ? ? ? ? ? ? ? ? ? ? auth ? ? ? ? ? ? ?]. destruct auth as [d|]; cbn [auth_state];
    repeat (apply Forall_cons; split; [first [left; field | right; split; field]|]); apply Forall_nil_2.
Qed.

Lemma read_time_str k s t data : dict_get data k = Some (FVal (VStr s)) -> fromisoformat s = Ok t -> read_time k data = Ok (dict_set data k (FTime t)).
Proof. intros Hg Ht. unfold read_time. by rewrite Hg, Ht. Qed.

Lemma read_time_none k data : dict_get data k = Some (FVal VNone) -> read_time k data = Ok data.
Proof. intros Hg. unfold read_time. by rewrite Hg. Qed.

(** An optional time is read back where it was written. *)
Lemma read_time_opt k t data : from_option is_time True t -> dict_get data k = Some (FVal (opt_time t)) ->
  read_time k data = Ok (match t with Some t => dict_set data k (FTime t) | None => data end).
Proof. intros Ht Hg. destruct t as [t|]; [|by apply read_time_none]. eapply read_time_str; [exact Hg|]. by apply iso_roundtrip. Qed.

Lemma from_storage_dict t : timed t -> from_dict (to_storage_dict t) = Ok t.
Proof.
  intros (Hc & Hl & Hn). rewrite <- (construct_ok _ _ (read_fields_declare t)). unfold from_dict.
  rewrite (read_time_opt _ (Some (created_at t))); [|done|]. 2: { unfold to_storage_dict. destruct (auth_state t); field. }
  cbn [mbind result_bind]. rewrite (read_time_opt _ (last_execution_time t)); [|done|]. 2: { unfold to_storage_dict. destruct (auth_state t); field. }
  cbn [mbind result_bind]. rewrite (read_time_opt _ (next_execution_time t)); [|done|].
  2: { unfold to_storage_dict. destruct (auth_state t), (last_execution_time t); field. }
  cbn [mbind result_bind]. unfold to_storage_dict, read_fields, time_field.
  destruct t as [? ? ? ? ? ? ? ? ? ? ? ? ? auth ? last next ? ? ? ?]; cbn [auth_state last_execution_time next_execution_time].
  destruct auth as [d|], last as [tl|], next as [tn|]; field.
Qed.
End env.

(** ** Saving *)

Section store.
Context {St : Type} {env : WatchEnv} {fs : WatchFS St} {files : St -> gmap pystr pystr}.
Context {env_ok : WatchEnvOk} {fs_ok : WatchFSOk St files}.
Abbreviation mgr := (manager St).

Section keys.
(** The three files; nothing but their being different matters. *)
Context {MAIN BAK TMP : pystr} (main_bak : MAIN <> BAK) (main_tmp : MAIN <> TMP) (bak_tmp : BAK <> TMP).
#[local] Definition bak_main := not_eq_sym main_bak.
#[local] Definition tmp_main := not_eq_sym main_tmp.
#[local] Definition tmp_bak := not_eq_sym bak_tmp.

(** What a file says, and what a load of the two files would work with. *)
Definition parsed (c : pystr) : option pyval :=
  if nonempty (strip is_space c) then match json_loads c with Ok v => Some v | Err _ => None end else None.
Definition disk (f : gmap pystr pystr) : pyval :=
  match f !! MAIN ≫= parsed with
  | Some VNone | None => default VNone (f !! BAK ≫= parsed)
  | Some v => v
  end.

(** The file is there and says something, or neither it nor its backup exists. *)
Definition settled (f : gmap pystr pystr) : Prop :=
  (exists v, f !! MAIN ≫= parsed = Some v /\ v <> VNone) \/ f !! MAIN = None /\ f !! BAK = None.

(** The same after the file became the backup. *)
Definition shows (f : gmap pystr pystr) (v : pyval) : Prop := disk f = v /\ (settled f \/ f !! MAIN = None /\ f !! BAK ≫= parsed = Some v).

Lemma disk_main f v : f !! MAIN ≫= parsed = Some v -> v <> VNone -> disk f = v.
Proof. intros E Hv. unfold disk. rewrite E. by destruct v. Qed.

Lemma shows_ext f f' v : f' !! MAIN = f !! MAIN -> f' !! BAK = f !! BAK -> shows f v -> shows f' v.
Proof. intros E1 E2. unfold shows, settled, disk. by rewrite E1, E2. Qed.

Lemma shows_drop_bak f v : settled f -> disk f = v -> settled (delete BAK f) /\ disk (delete BAK f) = v.
Proof.
  intros Hs Hd.
  assert (delete BAK f !! MAIN = f !! MAIN) as E by exact (lookup_delete_ne _ _ _ bak_main).
  destruct Hs as [(x & Hx & Hne)|[Hm Hb]].
  - split; [left; exists x; by rewrite E|]. rewrite (disk_main _ x); [|by rewrite E|done]. by rewrite <- (disk_main _ _ Hx Hne).
  - split; [right; rewrite E; split; [done|apply lookup_delete_eq]|]. unfold disk in *. rewrite E, Hm, lookup_delete_eq. by rewrite Hm, Hb in Hd.
Qed.

Lemma shows_main_to_bak f f' v : settled f -> disk f = v -> moved_file MAIN BAK f f' -> shows f' v.
Proof.
  intros [(x & Hx & Hne)|[Hm _]] Hd (c & Hc & ->); [|congruence].
  rewrite Hc in Hx. cbn in Hx. pose proof (disk_main f x) as Hdx. rewrite Hc in Hdx. specialize (Hdx Hx Hne). subst v.
  assert (<[BAK:=c]> (delete MAIN f) !! MAIN = None) as Em by (rewrite (lookup_insert_ne _ _ _ _ bak_main); apply lookup_delete_eq).
  assert (<[BAK:=c]> (delete MAIN f) !! BAK ≫= parsed = Some (disk f)) as Eb by (rewrite lookup_insert_eq; cbn; by rewrite Hdx).
  split; [|by right]. unfold disk at 1. by rewrite Em, Eb.
Qed.

Lemma swallow_state {S} (body : ST S unit) s : (swallow body s).2 = (body s).2.
Proof. unfold swallow. destruct (body s) as [[]  s']; [done|]. by destruct (is_exception e). Qed.

Lemma delete_agree k f f' : delete k f = delete k f' -> forall (j : pystr), j <> k -> f !! j = (f' : gmap pystr pystr) !! j.
Proof. intros H j Hj. rewrite <- (lookup_delete_ne f k j), <- (lookup_delete_ne f' k j) by congruence. by rewrite H. Qed.

(** Writing the temporary file touches neither of the others. *)
Lemma write_tmp c s : let '(r, s') := fs_write TMP c s in
  files s' !! MAIN = files s !! MAIN /\ files s' !! BAK = files s !! BAK /\ (r = Ok tt -> files s' !! TMP = Some c).
Proof.
  pose proof (write_ok TMP c s) as H. destruct (fs_write TMP c s) as [[[]|e] s'].
  - rewrite H, (lookup_insert_ne _ _ _ _ tmp_main), (lookup_insert_ne _ _ _ _ tmp_bak). by rewrite lookup_insert_eq.
  - pose proof (delete_agree _ _ _ H) as Hd. by rewrite (Hd _ main_tmp), (Hd _ bak_tmp).
Qed.

(** Dropping the backup. *)
Definition drop_backup : ST St unit := swallow (there ← fs_exists BAK; if there : bool then fs_rm BAK else mret tt).
(** Making the file the backup. *)
Definition make_backup : ST St unit := swallow (there ← fs_exists MAIN; if there : bool then fs_mv MAIN BAK else mret tt).

Lemma drop_backup_files s : files (drop_backup s).2 = files s \/ files (drop_backup s).2 = delete BAK (files s).
Proof.
  unfold drop_backup. rewrite swallow_state, st_bind_unfold. pose proof (exists_ok BAK s) as He.
  destruct (fs_exists BAK s) as [[b|e] s1]; [destruct He as [He _]|by left].
  destruct b; [|by left]. pose proof (rm_ok BAK s1) as Hr. rewrite He in Hr. destruct (fs_rm BAK s1) as [[]  s2]; [by right|done].
Qed.

Lemma make_backup_files s : files (make_backup s).2 = files s \/ moved_file MAIN BAK (files s) (files (make_backup s).2).
Proof.
  unfold make_backup. rewrite swallow_state, st_bind_unfold. pose proof (exists_ok MAIN s) as He.
  destruct (fs_exists MAIN s) as [[b|e] s1]; [destruct He as [He _]|by left].
  destruct b; [|by left]. pose proof (mv_ok MAIN BAK s1) as Hr. rewrite He in Hr. destruct (fs_mv MAIN BAK s1) as [[]  s2]; [by right|done].
Qed.

(** Neither touches the temporary file. *)
Lemma drop_backup_tmp s : files (drop_backup s).2 !! TMP = files s !! TMP.
Proof. destruct (drop_backup_files s) as [->| ->]; [done|]. by rewrite (lookup_delete_ne _ _ _ bak_tmp). Qed.
Lemma make_backup_tmp s : files (make_backup s).2 !! TMP = files s !! TMP.
Proof.
  destruct (make_backup_files s) as [->|(c & _ & ->)]; [done|]. by rewrite (lookup_insert_ne _ _ _ _ bak_tmp), (lookup_delete_ne _ _ _ main_tmp).
Qed.

Lemma drop_backup_shows s v : settled (files s) -> disk (files s) = v -> settled (files (drop_backup s).2) /\ disk (files (drop_backup s).2) = v.
Proof. intros Hs Hd. destruct (drop_backup_files s) as [->| ->]; [done|by apply shows_drop_bak]. Qed.
Lemma make_backup_shows s v : settled (files s) -> disk (files s) = v -> shows (files (make_backup s).2) v.
Proof. intros Hs Hd. destruct (make_backup_files s) as [->|Hm]; [by split; [|left]|by eapply shows_main_to_bak]. Qed.

(** The new file in place. *)
Lemma placed c v f f' : f !! TMP = Some c -> parsed c = Some v -> v <> VNone -> moved_file TMP MAIN f f' -> disk f' = v /\ settled f'.
Proof.
  intros Et Hp Hv (c' & Hc' & ->). rewrite Et in Hc'. injection Hc' as <-.
  assert (<[MAIN:=c]> (delete TMP f) !! MAIN ≫= parsed = Some v) as E by (rewrite lookup_insert_eq; done).
  split; [by apply disk_main|]. left. by exists v.
Qed.

(** A rotation that returns leaves the new, from any files. *)
Lemma rotate_returned c v s s' : parsed c = Some v -> v <> VNone -> rotate MAIN BAK TMP c s = (Ok tt, s') -> disk (files s') = v /\ settled (files s').
Proof.
  intros Hp Hv. unfold rotate. fold drop_backup make_backup. rewrite st_bind_unfold. pose proof (write_tmp c s) as Hw.
  destruct (fs_write TMP c s) as [[[]|e] s1]; [|done]. destruct Hw as (_ & _ & Et). specialize (Et eq_refl).
  rewrite st_bind_unfold. pose proof (drop_backup_tmp s1) as E1. destruct (drop_backup s1) as [[[]|e] s2]; [|done]. cbn [snd] in E1.
  rewrite st_bind_unfold. pose proof (make_backup_tmp s2) as E2. destruct (make_backup s2) as [[[]|e] s3]; [|done]. cbn [snd] in E2.
  intros Hmv. pose proof (mv_ok TMP MAIN s3) as Hr. rewrite Hmv in Hr. eapply placed; [|done|done|exact Hr]. by rewrite E2, E1.
Qed.

(** A rotation that ends anywhere, with any exception, leaves the old or the new. *)
Lemma rotate_safe c v s r s' : settled (files s) -> parsed c = Some v -> v <> VNone -> rotate MAIN BAK TMP c s = (r, s') ->
  disk (files s') = disk (files s) \/ disk (files s') = v.
Proof.
  intros Hs Hp Hv. unfold rotate. fold drop_backup make_backup. rewrite st_bind_unfold. pose proof (write_tmp c s) as Hw.
  destruct (fs_write TMP c s) as [[[]|e] s1]; destruct Hw as (Em & Eb & Et).
  2: { intros [= <- <-]. left. unfold disk. by rewrite Em, Eb. }
  specialize (Et eq_refl). assert (settled (files s1) /\ disk (files s1) = disk (files s)) as [Hs1 Hd1] by (unfold settled, disk; by rewrite Em, Eb).
  rewrite st_bind_unfold. destruct (drop_backup_shows _ _ Hs1 Hd1) as (Hs2 & Hd2). pose proof (drop_backup_tmp s1) as Et2.
  destruct (drop_backup s1) as [[[]|e] s2]; cbn [snd] in *; [|intros [= <- <-]; by left].
  rewrite st_bind_unfold. destruct (make_backup_shows _ _ Hs2 Hd2) as [Hd3 _]. pose proof (make_backup_tmp s2) as Et3.
  destruct (make_backup s2) as [[[]|e] s3]; cbn [snd] in *; [|intros [= <- <-]; by left].
  intros Hmv. pose proof (mv_ok TMP MAIN s3) as Hr. rewrite Hmv in Hr.
  assert (forall f', moved_file TMP MAIN (files s3) f' -> disk f' = v) as Hnew by (intros f' Hf; apply (placed c v (files s3)); [by rewrite Et3, Et2|done..]).
  destruct r as [[]|e]; [by right; apply Hnew|]. destruct Hr as [->|Hr]; [by left|right; by apply Hnew].
Qed.

End keys.

Lemma main_bak_ne : WATCH_TASK_STORAGE_URI <> WATCH_TASK_STORAGE_BAK_URI.
Proof. by vm_compute. Qed.
Lemma main_tmp_ne : WATCH_TASK_STORAGE_URI <> WATCH_TASK_STORAGE_TMP_URI.
Proof. by vm_compute. Qed.
Lemma bak_tmp_ne : WATCH_TASK_STORAGE_BAK_URI <> WATCH_TASK_STORAGE_TMP_URI.
Proof. by vm_compute. Qed.

(** The data of a save. *)
Definition saved_data (stamp : Z) (w : watch) : pyval :=
  VDict [(u "tasks", VList ((fun '(_, t) => VDict (to_storage_dict t)) <$> tasks w)); (u "updated_at", VStr (isoformat stamp))].

Lemma saved_data_some stamp w : saved_data stamp w <> VNone.
Proof. by intros [=]. Qed.

Lemma content_parsed stamp w : parsed (storage_content stamp w) = Some (saved_data stamp w).
Proof. unfold parsed, storage_content. by rewrite json_nonblank, json_roundtrip. Qed.

Definition settled_files : gmap pystr pystr -> Prop := settled (MAIN := WATCH_TASK_STORAGE_URI) (BAK := WATCH_TASK_STORAGE_BAK_URI).
Definition on_disk : gmap pystr pystr -> pyval := disk (MAIN := WATCH_TASK_STORAGE_URI) (BAK := WATCH_TASK_STORAGE_BAK_URI).

(** What [save_tasks] runs. *)
Lemma save_unfold (m m' : mgr) stamp r : attached = true -> save_tasks stamp m = (r, m') ->
  (if supports_atomic then rotate WATCH_TASK_STORAGE_URI WATCH_TASK_STORAGE_BAK_URI WATCH_TASK_STORAGE_TMP_URI (storage_content stamp (mg_watch m))
   else fs_write WATCH_TASK_STORAGE_URI (storage_content stamp (mg_watch m))) (mg_store m) = (r, mg_store m').
Proof.
  intros Hat. unfold save_tasks, on_store, write_storage. rewrite Hat. unfold storage_content at 1. rewrite json_nonblank, st_bind_unfold.
  cbn [st_lift]. unfold storage_content at 1. rewrite json_roundtrip. cbv zeta.
  match goal with |- (let '(_, _) := ?run in _) = _ -> _ => destruct run as [r' s'] end. by intros [= <- <-].
Qed.

Lemma save_returned (m m' : mgr) (stamp : Z) : attached = true -> save_tasks stamp m = (Ok tt, m') ->
  on_disk (files (mg_store m')) = saved_data stamp (mg_watch m) /\ settled_files (files (mg_store m')).
Proof.
  intros Hat Hr%save_unfold; [|done]. destruct supports_atomic.
  - exact (rotate_returned main_tmp_ne bak_tmp_ne _ _ _ _ (content_parsed _ _) (saved_data_some _ _) Hr).
  - pose proof (write_ok WATCH_TASK_STORAGE_URI (storage_content stamp (mg_watch m)) (mg_store m)) as Hw. rewrite Hr in Hw.
    assert (files (mg_store m') !! WATCH_TASK_STORAGE_URI ≫= parsed = Some (saved_data stamp (mg_watch m))) as E
      by (rewrite Hw, lookup_insert_eq; apply content_parsed).
    split; [exact (disk_main _ _ E (saved_data_some _ _))|]. left. exists (saved_data stamp (mg_watch m)). split; [exact E|apply saved_data_some].
Qed.


(** ** Loading *)

(** Reads that find what is there. *)
Definition reads_work : Prop :=
  forall uri s, (fs_read uri s).1 = match files s !! uri with Some c => Ok c | None => Err NotFoundError end.

Lemma read_json_parsed uri s v : reads_work -> files s !! uri ≫= parsed = Some v -> exists s', read_json uri s = (Ok (Some v), s') /\ files s' = files s.
Proof.
  intros Hr. unfold read_json. pose proof (Hr uri s) as H1. pose proof (read_ok uri s) as H2. destruct (fs_read uri s) as [r s']. cbn in H1, H2. subst r.
  destruct (files s !! uri) as [c|]; [|done]. cbn. unfold parsed. intros Hp. exists s'. destruct (nonempty (strip is_space c)); [|done].
  destruct (json_loads c) as [v'|]; [|done]. by injection Hp as ->.
Qed.

Lemma read_stored_disk main bak s v : reads_work -> settled (MAIN := main) (BAK := bak) (files s) -> disk (MAIN := main) (BAK := bak) (files s) = v -> v <> VNone ->
  exists s', read_stored main bak s = (Ok (v, false), s').
Proof.
  intros Hr Hs Hd Hv. destruct Hs as [(x & Hx & Hne)|[Hm Hb]].
  - rewrite (disk_main _ _ Hx Hne) in Hd. subst x. destruct (read_json_parsed _ _ _ Hr Hx) as (s' & E & _). exists s'.
    unfold read_stored. rewrite st_bind_unfold, E. by destruct v.
  - unfold disk in Hd. rewrite Hm, Hb in Hd. cbn in Hd. congruence.
Qed.

Lemma normalize_scheduled t : scheduled t -> normalize_loaded t = Ok (t, false).
Proof.
  unfold scheduled, normalize_loaded. destruct (is_active t); cbn.
  - intros [Hi [n ->]]. by rewrite (proj2 (Z.leb_gt _ _) Hi).
  - by intros ->.
Qed.

Definition stored_form (item : pystr * WatchTask) : pyval := VDict (to_storage_dict item.2).

(** Loading the entries of a manager one by one rebuilds it. *)
Lemma load_entries_rebuild w l : forall w0 n, wf w -> wf w0 -> Forall (fun item => timed item.2) (tasks w) -> tasks w0 ++ l = tasks w ->
  exists w', load_entries (stored_form <$> l) w0 n = (w', n, true) /\ wf w' /\ tasks w' = tasks w.
Proof.
  induction l as [|[id t] l IH]; intros w0 n Hw Hw0 Ht E; [exists w0; by rewrite app_nil_r in E|].
  pose proof (wf_nodup _ Hw) as Hnd. assert ((id, t) ∈ tasks w) as Hin by (rewrite <- E; apply elem_of_app; right; left).
  assert (dict_get (tasks w) id = Some t) as Hg by (by apply dict_get_in). destruct (wf_keys _ Hw _ _ Hg) as (Hid & Hne & Hs).
  assert (id ∉ fst <$> tasks w0) as Hfresh.
  { rewrite <- E, fmap_app in Hnd. apply NoDup_app in Hnd as (_ & Hd & _). intros Hi. apply (Hd _ Hi). rewrite fmap_cons. by left. }
  rewrite fmap_cons. unfold stored_form at 1. cbn [load_entries snd]. rewrite from_storage_dict by exact (proj1 (Forall_forall _ _) Ht _ Hin).
  cbn [mbind result_bind]. rewrite (normalize_scheduled _ Hs), orb_false_r. subst id. apply IH; [done| |done|].
  - apply wf_create; [done|by apply dict_get_None|done|done|]. unfold check_uri_conflict. destruct (to_uri t) as [x|] eqn:Ex; [|done].
    destruct (nonempty x) eqn:Hx; [|done]. apply nonempty_true in Hx. destruct (uri_to_task w0 !! (account_id t, x)) as [j|] eqn:Hj; [|done]. exfalso.
    apply (wf_index _ Hw0) in Hj. unfold target in Hj. destruct (dict_get (tasks w0) j) as [tj|] eqn:Hgj; [|done]. cbn [mbind option_bind] in Hj.
    assert (forall i y, dict_get (tasks w) i = Some y -> tgt y = Some (account_id t, x) -> uri_to_task w !! (account_id t, x) = Some i) as Hix.
    { intros i y Hi Hy. apply (wf_index _ Hw). unfold target. by rewrite Hi. }
    assert (dict_get (tasks w) j = Some tj) as Hgj' by (rewrite <- E, dict_get_app; by rewrite Hgj).
    assert (tgt t = Some (account_id t, x)) as Htt by (apply tgt_some; by exists x).
    pose proof (Hix _ _ Hgj' Hj) as E1. rewrite (Hix _ _ Hg Htt) in E1. injection E1 as <-. apply dict_get_elem in Hgj.
    apply Hfresh, list_elem_of_fmap. by exists (task_id t, tj).
  - rewrite index_target_tasks. cbn [set_task tasks]. rewrite dict_set_fresh by done. by rewrite <- app_assoc.
Qed.

(** C22: A restart restores the manager: after a save that returned, from whatever files,
    a new manager that initialises from the files it left has the same tasks, in the same
    order and with every field, and the same index.  The saved manager's index has to be
    exact and its tasks' times those a datetime can hold, and at the restart the reads
    have to answer with what is in the files: a file that cannot be read then counts as
    missing. *)
Theorem restart_restores (m m' : mgr) (stamp stamp' : Z) :
  attached = true -> wf (mg_watch m) -> Forall (fun item => timed item.2) (tasks (mg_watch m)) -> reads_work ->
  save_tasks stamp m = (Ok tt, m') ->
  let '(r, m2) := initialize stamp' (MkManager empty_watch (mg_store m')) in
  r = Ok tt /\ tasks (mg_watch m2) = tasks (mg_watch m) /\ uri_to_task (mg_watch m2) = uri_to_task (mg_watch m).
Proof.
  intros Hat Hw Htm Hr Hsave. destruct (save_returned _ _ _ Hat Hsave) as [Hd Hs'].
  destruct (read_stored_disk _ _ _ _ Hr Hs' Hd) as (s2 & Hread); [done|].
  destruct (load_entries_rebuild (mg_watch m) (tasks (mg_watch m)) empty_watch false Hw empty_watch_wf Htm eq_refl) as (w' & Hload & Hw' & Htw).
  unfold initialize, load_tasks. rewrite Hat. cbn [mg_watch initialized empty_watch]. rewrite st_bind_unfold. unfold swallow, load_body, on_store.
  cbn [mg_store]. rewrite Hread. cbn [mg_watch].
  assert (stored_entries (saved_data stamp (mg_watch m)) = stored_form <$> tasks (mg_watch m)) as ->.
  { transitivity ((fun '(_, t) => VDict (to_storage_dict t)) <$> tasks (mg_watch m)); [done|]. apply list_fmap_ext. by intros i [] _. }
  rewrite Hload. cbn. split_and!; [done|done|]. eapply exact_unique; [apply Hw'|]. eapply exact_ext; [|apply Hw]. intros id. unfold target. by rewrite Htw.
Qed.
End store.
