(* ===== verification/WatchMove.v ===== *)
(** Moving a resource that is being watched: [_move_resource_with_watch_transaction] of
    [openviking/service/fs_service.py], over the URI leases and the watch manager.

    The transaction holds a mutation lease on both URIs; other coroutines act on the
    manager while it waits for the file system, under leases of their own. *)
From Stdlib Require Import NArith ZArith.
From S2P Require Import Prelude PyStr PyVal UriMutation Watch WatchTheory.

Open Scope N_scope.

(** ** The transaction *)

(** A waiter leaves the condition's queue. *)
Fixpoint leave (w : UriLease * bool) (ws : list (UriLease * bool)) : list (UriLease * bool) :=
  match ws with
  | [] => []
  | x :: r => if decide (x = w) then r else x :: leave w r
  end.

Section transaction.
Context {St : Type} {env : WatchEnv} {fs : WatchFS St}.

(** The coordinator with its users, and the watch manager. *)
Definition service : Type := system * manager St.

Definition on_manager {A} (f : ST (manager St) A) : ST service A := fun x => let '(r, m) := f x.2 in (r, (x.1, m)).

(** [others i] is what the others do at the [i]-th wait.  The lease of [mutation()], as
    its user enters [_acquire] with it. *)
Definition mutation_lease (account : pystr) (uris : list (option pystr)) (x : service) : UriLease :=
  MkLease (made x.1) account (normalize_uris uris).

Definition enter (lease : UriLease) (mutation : bool) (x : service) : service :=
  (MkSystem (sys x.1) (waiting x.1 ++ [(lease, mutation)]) (S (made x.1)), x.2).

(** [_acquire]: at most [rounds] waits, [None] when it would wait once more; with the
    number of the next wait. *)
Fixpoint acquire_loop (others : nat -> service -> service) (lease : UriLease) (rounds i : nat) (x : service) : option (nat * service) :=
  match acquire lease true (sys x.1) with
  | Some c => Some (i, (MkSystem c (leave (lease, true) (waiting x.1)) (made x.1), x.2))
  | None => match rounds with O => None | S rounds => acquire_loop others lease rounds (S i) (others i x) end
  end.

(** What the move does under its lease; each call may wait before it acts. *)
Definition move_locked (others : nat -> service -> service) (i : nat) (stamp : Z) (from_uri to_uri account : pystr) : ST service unit := fun x =>
  match on_manager (validate_target_prefix_rewrite_internal from_uri to_uri account) (others i x) with
  | (Err e, x) => (Err e, x)
  | (Ok _, x) =>
      match on_manager (on_store (fs_mv from_uri to_uri)) (others (1 + i)%nat x) with
      | (Err e, x) => (Err e, x)
      | (Ok _, x) =>
          match on_manager (rewrite_target_prefix_internal stamp from_uri to_uri account) (others (2 + i)%nat x) with
          | (Ok _, x) => (Ok tt, x)
          | (Err commit_error, x) =>
              if is_exception commit_error then
                match on_manager (on_store (fs_mv to_uri from_uri)) (others (3 + i)%nat x) with
                | (Ok _, x) => (Err commit_error, x)
                | (Err rollback_error, x) => (Err rollback_error, x)
                end
              else (Err commit_error, x)
          end
      end
  end.

Definition move_resource_with_watch_transaction (others : nat -> service -> service) (rounds : nat) (stamp : Z) (from_uri to_uri account : pystr)
    (x : service) : option (result unit * service) :=
  let lease := mutation_lease account [Some from_uri; Some to_uri] x in
  match acquire_loop others lease rounds 0 (enter lease true x) with
  | None => None
  | Some (i, x) =>
      let '(r, x) := move_locked others i stamp from_uri to_uri account x in
      let x := others (4 + i)%nat x in
      Some (r, (MkSystem (release lease true (sys x.1)) (waiting x.1) (made x.1), x.2))
  end.
End transaction.
Arguments service : clear implicits.

(** ** What the others may do *)

(** [l] is the lease an operation holds on [uris]. *)
Definition holds (l : UriLease) (account : pystr) (uris : list (option pystr)) : Prop :=
  lease_account l = account /\ lease_uris l = normalize_uris uris.

Section leased.
Context {St : Type} {env : WatchEnv} {fs : WatchFS St}.
Abbreviation mgr := (manager St).

(** The manager's operations with the leases they hold: accesses for those that create,
    change or remove a target, a mutation other than [own] for another move. *)
Inductive leased_step (own : UriLease) (c : coordinator) (m : mgr) : mgr -> Prop :=
| leased_create l id now stamp a :
    l ∈ active_accesses c -> holds l (a_account_id a) [a_to_uri a] -> dict_get (tasks (mg_watch m)) id = None -> id <> [] ->
    leased_step own c m (create_task id now stamp a m).2
| leased_update l stamp t account user role ch :
    l ∈ active_accesses c -> holds l (account_id t) [to_uri t; c_to_uri ch] -> dict_get (tasks (mg_watch m)) (task_id t) = Some t ->
    harmless ch t -> leased_step own c m (update_stable stamp account user role ch t m).2
| leased_delete l stamp t account user role :
    l ∈ active_accesses c -> holds l (account_id t) [to_uri t] -> dict_get (tasks (mg_watch m)) (task_id t) = Some t ->
    leased_step own c m (delete_stable stamp (task_id t) account user role t m).2
| leased_move l stamp old new account :
    l ∈ active_mutations c -> l <> own -> holds l account [Some old; Some new] -> rstrip is_slash old <> [] -> rstrip is_slash new <> [] ->
    leased_step own c m (rewrite_target_prefix_internal stamp old new account m).2
| leased_deactivate stamp uri account : leased_step own c m (deactivate_tasks_under_uri_internal stamp uri account m).2
| leased_auth stamp id auth : leased_step own c m (update_auth_state stamp id auth m).2
| leased_executed now stamp id : leased_step own c m (update_execution_time now stamp id m).2.

(** The coordinator and the manager go on, and leave [own] where it is: in the queue or
    held. *)
Inductive together (own : UriLease) : relation (service St) :=
| together_leases s s' m :
    step s s' -> (own ∈ active_mutations (sys s) -> own ∈ active_mutations (sys s')) -> ((own, true) ∈ waiting s -> (own, true) ∈ waiting s') ->
    together own (s, m) (s', m)
| together_watch s m m' : leased_step own (sys s) m m' -> together own (s, m) (s, m').

Lemma leased_watch own c m m' : leased_step own c m m' -> wf (mg_watch m) -> wf (mg_watch m').
Proof.
  intros [] Hw; [by apply create_keeps|by apply update_keeps|by apply delete_keeps|by apply rewrite_keeps|by apply deactivate_keeps|by apply auth_keeps|by apply executed_keeps].
Qed.
End leased.

(** ** Dicts, item by item *)

Lemma omap_dict_set {A B} (f : pystr * A -> option B) d k v : NoDup (fst <$> d) ->
  f (k, v) = match dict_get d k with Some old => f (k, old) | None => None end -> omap f (dict_set d k v) = omap f d.
Proof.
  induction d as [|[j x] d IH]; intros Hn Hf; cbn [dict_set dict_get] in *; [cbn; by rewrite Hf|]. rewrite fmap_cons in Hn. apply NoDup_cons in Hn as [_ Hn].
  destruct (seqb j k) eqn:E; cbn [omap list_omap].
  - apply seqb_true in E as ->. by rewrite Hf.
  - by rewrite (IH Hn Hf).
Qed.

Lemma omap_dict_pop {A B} (f : pystr * A -> option B) d k : (forall v, dict_get d k = Some v -> f (k, v) = None) -> omap f (dict_pop d k) = omap f d.
Proof.
  induction d as [|[j x] d IH]; intros Hf; [done|]. cbn [dict_pop dict_get] in *. destruct (seqb j k) eqn:E; cbn [omap list_omap].
  - apply seqb_true in E as ->. by rewrite (Hf x).
  - by rewrite (IH Hf).
Qed.

Lemma omap_map {A B C} (g : A -> B) (f : B -> option C) (l : list A) : omap f (g <$> l) = omap (fun x => f (g x)) l.
Proof. induction l as [|x l IH]; [done|]. cbn. by rewrite <- IH. Qed.

(** ** Scopes apart *)

Lemma segments_normalize p : segments (normalize_uri p) = segments p.
Proof. unfold segments, normalize_uri. by rewrite rstrip_idemp. Qed.

Lemma matches_normalize uri p : uri_matches_prefix uri (rstrip is_slash p) = uri_matches_prefix uri p.
Proof. unfold uri_matches_prefix, normalize_uri. by rewrite rstrip_idemp. Qed.

Lemma segments_slashes p y : normalize_uri y = [] -> segments p `prefix_of` segments y -> normalize_uri p = [].
Proof.
  unfold segments. intros -> [l H]. cbn in H. destruct (split c_slash (normalize_uri p)) as [|z r] eqn:E; [by destruct (split_not_nil c_slash (normalize_uri p))|].
  injection H as -> H. destruct r; [|done]. rewrite <- (join_split c_slash (normalize_uri p)), E. done.
Qed.

(** A URI below a scope keeps its suffix when the scope is renamed. *)
Lemma rewrite_below y old new : uri_matches_prefix (Some y) (rstrip is_slash old) = true -> rstrip is_slash new <> [] ->
  uri_matches_prefix (Some (rewrite_uri_prefix y (rstrip is_slash old) (rstrip is_slash new))) new = true.
Proof.
  intros Hm Hnew. destruct (rewrite_suffix _ _ new Hm) as [Hy ->]. set (sfx := drop _ y) in *.
  apply matches_segments. split; [by destruct (rstrip is_slash new)|]. unfold segments. apply segments_prefix. unfold normalize_uri.
  destruct (decide (rstrip is_slash sfx = [])) as [Hs|Hs].
  - left. destruct (rstrip_decomp is_slash sfx) as (k & Hk & Hall). rewrite Hs in Hk. cbn in Hk. rewrite Hk.
    destruct (last (rstrip is_slash new)) as [z|] eqn:El; [|by apply last_None in El].
    destruct (rstrip_decomp is_slash (rstrip is_slash new ++ k)) as (k' & Hk' & Hall').
    unfold rstrip at 1. rewrite reverse_app.
    assert (forall l r, Forall (fun x => is_slash x = true) l -> lstrip is_slash (l ++ r) = lstrip is_slash r) as Hstrip.
    { intros l r. induction 1 as [|x l Hx _ IH]; [done|]. cbn. by rewrite Hx. }
    rewrite Hstrip by (by apply Forall_reverse). exact (rstrip_idemp is_slash new).
  - right. rewrite (rstrip_app _ _ _ Hs). apply prefix_app.
    unfold uri_matches_prefix, normalize_uri in Hm. apply andb_true_iff in Hm as [_ Hm]. rewrite rstrip_idemp in Hm.
    assert (rstrip is_slash y = rstrip is_slash old ++ rstrip is_slash sfx) as Hry by (rewrite Hy; by apply rstrip_app).
    rewrite Hry in Hm. apply orb_true_iff in Hm as [Hm%seqb_true|Hm%startswith_iff].
    + rewrite <- (app_nil_r (rstrip is_slash old)) in Hm at 2. by apply app_inv_head in Hm.
    + by apply prefix_app_inv in Hm.
Qed.

(** ** What the others leave alone *)

Section quiet.
Context (from to a : pystr) (Hfrom : rstrip is_slash from <> []) (Hto : rstrip is_slash to <> []).

(** The plan of the move, and who holds the URIs below its destination. *)
Definition quiet (w w' : watch) : Prop :=
  moving w' from to a = moving w from to a /\ forall x, uri_matches_prefix (Some x) to = true -> uri_to_task w' !! (a, x) = uri_to_task w !! (a, x).

Lemma quiet_self w : quiet w w.
Proof. done. Qed.
Lemma quiet_then w1 w2 w3 : quiet w1 w2 -> quiet w2 w3 -> quiet w1 w3.
Proof. intros [H1 H2] [H3 H4]. split; [by rewrite H3|]. intros x Hx. by rewrite H4, H2. Qed.

(** [t] is another account's, or points elsewhere. *)
Definition away (p : pystr) (t : WatchTask) : Prop := account_id t = a -> forall y, to_uri t = Some y -> y <> [] -> uri_matches_prefix (Some y) p = false.

Definition item (it : pystr * WatchTask) : option (pystr * pystr) :=
  let '(id, t) := it in
  if seqb (account_id t) a && uri_matches_prefix (to_uri t) (rstrip is_slash from)
  then Some (id, rewrite_uri_prefix (default [] (to_uri t)) (rstrip is_slash from) (rstrip is_slash to)) else None.

Lemma item_away id t : away from t -> item (id, t) = None.
Proof.
  intros Ha. unfold item. destruct (seqb (account_id t) a) eqn:E; [|done]. apply seqb_true in E. rewrite matches_normalize.
  destruct (to_uri t) as [y|] eqn:Ey; [|done]. destruct (decide (y = [])) as [->|Hne]; [done|]. by rewrite (Ha E y).
Qed.

Lemma quiet_put w id t' m b : NoDup (fst <$> tasks w) -> item (id, t') = match dict_get (tasks w) id with Some t => item (id, t) | None => None end ->
  (forall x, uri_matches_prefix (Some x) to = true -> m !! (a, x) = uri_to_task w !! (a, x)) -> quiet w (MkWatch (dict_set (tasks w) id t') m b).
Proof. intros Hn Hi Hm. split; [|done]. unfold moving. cbn [tasks]. exact (omap_dict_set item _ _ _ Hn Hi). Qed.

(** A task that keeps its account and target. *)
Lemma quiet_set_task w t t' : NoDup (fst <$> tasks w) -> dict_get (tasks w) (task_id t) = Some t -> task_id t' = task_id t -> account_id t' = account_id t -> to_uri t' = to_uri t ->
  quiet w (set_task t' w).
Proof. intros Hn Hg Hid Ha Ht. apply quiet_put; [done| |done]. rewrite Hid, Hg. unfold item. by rewrite Ha, Ht. Qed.

Lemma insert_elsewhere (acc to' x id : pystr) (m : gmap (pystr * pystr) pystr) : (acc = a -> to' <> x) -> <[(acc, to') := id]> m !! (a, x) = m !! (a, x).
Proof. intros H. apply lookup_insert_ne. intros [= -> ->]. by apply H. Qed.
Lemma delete_elsewhere (acc to' x : pystr) (m : gmap (pystr * pystr) pystr) : (acc = a -> to' <> x) -> delete (acc, to') m !! (a, x) = m !! (a, x).
Proof. intros H. apply lookup_delete_ne. intros [= -> ->]. by apply H. Qed.

Lemma away_ne t y x : away to t -> to_uri t = Some y -> y <> [] -> uri_matches_prefix (Some x) to = true -> account_id t = a -> y <> x.
Proof. intros Ha Ht Hne Hx Hac ->. by rewrite (Ha Hac x) in Hx. Qed.

Lemma index_away acc t id w x : away to t -> account_id t = acc -> uri_matches_prefix (Some x) to = true ->
  uri_to_task (index_target acc (to_uri t) id w) !! (a, x) = uri_to_task w !! (a, x).
Proof.
  intros Ha <- Hx. rewrite index_target_map. destruct (to_uri t) as [y|] eqn:Ey; [|done]. destruct (nonempty y) eqn:Hy; [|done].
  apply nonempty_true in Hy. apply insert_elsewhere. by eapply away_ne.
Qed.
Lemma unindex_away t w x : away to t -> uri_matches_prefix (Some x) to = true ->
  uri_to_task (unindex_target (account_id t) (to_uri t) w) !! (a, x) = uri_to_task w !! (a, x).
Proof.
  intros Ha Hx. rewrite unindex_target_map. destruct (tgt t) as [k|] eqn:E; [|done]. apply tgt_some in E as (y & Ey & Hy & ->).
  apply delete_elsewhere. by eapply away_ne.
Qed.

(** ** Other moves *)

Lemma unindex_moved_lookup acc plan k : forall w, (forall id t y, id ∈ fst <$> plan -> dict_get (tasks w) id = Some t -> to_uri t = Some y -> (acc, y) <> k) ->
  uri_to_task (unindex_moved acc plan w) !! k = uri_to_task w !! k.
Proof.
  unfold unindex_moved. induction plan as [|[id x] plan IH]; intros w Hk; [done|]. rewrite fmap_cons in Hk. cbn [foldl].
  destruct (dict_get (tasks w) id) as [t|] eqn:Hg; [|apply IH; intros; eapply Hk; eauto; by right]. rewrite IH.
  - destruct (to_uri t) as [y|] eqn:Ey; [|done]. cbn. destruct (nonempty y); [|done]. cbn. apply lookup_delete_ne. eapply Hk; eauto. by left.
  - rewrite unindex_target_tasks. intros. eapply Hk; eauto. by right.
Qed.

Lemma move_loop_lookup acc ps k : (forall id x, (id, x) ∈ ps -> (acc, x) <> k) -> forall w, uri_to_task (foldl (move_one acc) w ps) !! k = uri_to_task w !! k.
Proof.
  induction ps as [|[id x] ps IH]; intros Hk w; [done|]. cbn [foldl]. rewrite IH by (intros j y Hj; apply (Hk j); by right).
  unfold move_one. cbn [fst snd]. destruct (dict_get (tasks w) id); [|done]. cbn. apply lookup_insert_ne. apply (Hk id). by left.
Qed.

Lemma quiet_move_all w old new acc plan : wf w -> plan_target_prefix_rewrite_unlocked w old new acc = Ok plan -> rstrip is_slash new <> [] ->
  (acc = a -> forall p q y, p ∈ [from; to] -> q ∈ [old; new] -> uri_matches_prefix (Some y) q = true -> uri_matches_prefix (Some y) p = false) ->
  quiet w (move_all acc plan w).
Proof.
  intros Hw Hp Hnew Hap. destruct (move_all_tasks _ _ _ _ _ Hw Hp) as [Ht _]. destruct (plan_ids _ _ _ _ _ [] Hw Hp) as (-> & Hnd & _).
  pose proof (wf_nodup _ Hw) as Hn. assert (from ∈ [from; to] /\ to ∈ [from; to] /\ old ∈ [old; new] /\ new ∈ [old; new]) as (F1 & F2 & F3 & F4) by set_solver.
  split.
  - unfold moving at 1 3. rewrite Ht, omap_map. apply omap_ext_in. intros [id t] Hin%dict_get_in; [|done]. change (item (relocated (moving w old new acc) (id, t)) = item (id, t)).
    unfold relocated. cbn [fst snd]. destruct (dict_get (moving w old new acc) id) as [x|] eqn:Hx; [|done].
    apply dict_get_elem, elem_of_moving in Hx as (t' & y & Hg & Hac & Hty & Hm & ->); [|done]. rewrite Hg in Hin. injection Hin as ->.
    pose proof (rewrite_below _ _ _ Hm Hnew) as Hxn. rewrite matches_normalize in Hm. rewrite !item_away; [done| |]; intros Hta z Hz _; cbn in Hta, Hz.
    + assert (z = y) as -> by congruence. eapply Hap; [congruence|done|exact F3|done].
    + injection Hz as <-. eapply Hap; [congruence|done|exact F4|done].
  - intros x Hx. unfold move_all. rewrite move_loop_lookup; [apply unindex_moved_lookup|].
    + intros id t y ([j z] & -> & Hj)%list_elem_of_fmap Hg' Hy [= -> ->]. apply elem_of_moving in Hj as (t' & y' & Hg & Hac & Hty & Hm & _); [|done]. cbn in Hg'.
      assert (y' = x) as -> by congruence. rewrite matches_normalize in Hm. pose proof (Hap eq_refl to old x F2 F3 Hm). congruence.
    + intros id z Hj [= -> ->]. apply elem_of_moving in Hj as (t' & y' & Hg & Hac & Hty & Hm & ->); [|done].
      pose proof (rewrite_below _ _ _ Hm Hnew) as Hxn. pose proof (Hap eq_refl to new _ F2 F4 Hxn). congruence.
Qed.

(** ** Every leased operation is quiet *)

Lemma quiet_index acc t id w : away to t -> account_id t = acc -> quiet w (index_target acc (to_uri t) id w).
Proof. intros Ha He. split; [unfold moving; by rewrite index_target_tasks|]. intros x Hx. by apply index_away. Qed.
Lemma quiet_unindex t w : away to t -> quiet w (unindex_target (account_id t) (to_uri t) w).
Proof. intros Ha. split; [unfold moving; by rewrite unindex_target_tasks|]. intros x Hx. by apply unindex_away. Qed.

Lemma quiet_deactivate found : forall w, NoDup (fst <$> tasks w) -> (forall t, t ∈ found -> dict_get (tasks w) (task_id t) = Some t) -> NoDup (task_id <$> found) ->
  quiet w (foldl (fun w t => set_task (deactivated t) w) w found).
Proof.
  induction found as [|t found IH]; intros w Hn Hin Hnf; [done|]. rewrite fmap_cons in Hnf. apply NoDup_cons in Hnf as [Hid Hnf]. cbn [foldl].
  eapply quiet_then; [|apply IH; [by apply dict_set_nodup|intros t' Ht'|done]].
  - apply (quiet_set_task _ t); try done. apply Hin. by left.
  - cbn. rewrite dict_set_get, (proj2 (seqb_false _ _)); [apply Hin; by right|]. intros E. apply Hid. rewrite E. by apply list_elem_of_fmap_2.
Qed.

Context (own : UriLease) (Hown : holds own a [Some from; Some to]).

Lemma own_uris p : p ∈ [from; to] -> rstrip is_slash p <> [] /\ normalize_uri p ∈ lease_uris own.
Proof.
  destruct Hown as [_ ->]. rewrite normalize_uris_elem. intros Hp.
  assert (rstrip is_slash p <> []) as Hne by (apply elem_of_cons in Hp as [->|Hp]; [done|]; by apply list_elem_of_singleton in Hp as ->).
  split; [done|]. exists p. split_and!; [set_solver| |done]. intros ->. by apply Hne.
Qed.

(** The scopes of a lease apart from [own] are not below the move's. *)
Lemma apart_below l acc uris p y : overlaps own l = false -> holds l acc uris -> acc = a -> p ∈ [from; to] -> Some y ∈ uris -> y <> [] ->
  uri_matches_prefix (Some y) p = false.
Proof.
  intros Ho [Hac Hus] -> Hp Hy Hne. apply not_true_is_false. intros [_ Hm]%matches_segments. destruct (own_uris p Hp) as [Hpn Hpin].
  destruct (decide (normalize_uri y = [])) as [Hny|Hny]; [by apply Hpn, (segments_slashes p y)|].
  apply (apart own l (normalize_uri p) (normalize_uri y) Ho); [by rewrite Hac; destruct Hown|done| |done|done|].
  - rewrite Hus. apply normalize_uris_elem. by exists y.
  - left. by rewrite !segments_normalize.
Qed.

Lemma apart_away l acc uris p t : overlaps own l = false -> holds l acc uris -> account_id t = acc -> p ∈ [from; to] ->
  (forall y, to_uri t = Some y -> Some y ∈ uris) -> away p t.
Proof. intros Ho Hl Hac Hp Hin Hta y Hy Hne. eapply apart_below; eauto. congruence. Qed.

Lemma apart_scopes l old new p q y : overlaps own l = false -> holds l a [Some old; Some new] -> rstrip is_slash old <> [] -> rstrip is_slash new <> [] ->
  p ∈ [from; to] -> q ∈ [old; new] -> uri_matches_prefix (Some y) q = true -> uri_matches_prefix (Some y) p = false.
Proof.
  intros Ho [Hac Hus] Hold Hnew Hp Hq [Hy Hmq]%matches_segments. apply not_true_is_false. intros [_ Hmp]%matches_segments.
  destruct (own_uris p Hp) as [Hpn Hpin].
  assert (rstrip is_slash q <> []) as Hqn by (apply elem_of_cons in Hq as [->|Hq]; [done|]; by apply list_elem_of_singleton in Hq as ->).
  apply (apart own l (normalize_uri p) (normalize_uri q) Ho); [by rewrite Hac; destruct Hown|done| |done|done|].
  - rewrite Hus. apply normalize_uris_elem. exists q. split_and!; [set_solver| |done]. intros ->. by apply Hqn.
  - unfold touches. rewrite !segments_normalize. destruct (prefix_comparable _ _ _ Hmp Hmq); auto.
Qed.

Section managers.
Context {St : Type} {env : WatchEnv} {fs : WatchFS St}.
Abbreviation mgr := (manager St).

Lemma saved_watch {A} (f : watch -> watch) stamp (x : A) (m : mgr) : mg_watch ((_ ← on_watch f; _ ← save_tasks stamp; mret x) m).2 = f (mg_watch m).
Proof.
  rewrite st_bind_unfold. cbn [on_watch st_modify]. rewrite st_bind_unfold.
  pose proof (save_watch stamp (MkManager (f (mg_watch m)) (mg_store m))) as Hs. by destruct (save_tasks _ _) as [[] m'].
Qed.
Lemma saved_watch_unit (f : watch -> watch) stamp (m : mgr) : mg_watch ((_ ← on_watch f; save_tasks stamp) m).2 = f (mg_watch m).
Proof. rewrite st_bind_unfold. cbn [on_watch st_modify]. by rewrite save_watch. Qed.

Lemma in_from : from ∈ [from; to].
Proof. set_solver. Qed.
Lemma in_to : to ∈ [from; to].
Proof. set_solver. Qed.
#[local] Hint Resolve in_from in_to : core.

Lemma create_quiet l id now stamp args (m : mgr) : wf (mg_watch m) -> overlaps own l = false -> holds l (a_account_id args) [a_to_uri args] ->
  dict_get (tasks (mg_watch m)) id = None -> quiet (mg_watch m) (mg_watch (create_task id now stamp args m).2).
Proof.
  intros Hw Ho Hl Hf. unfold create_task. destruct (negb _); [done|]. destruct (_ <=? _)%Z; [done|]. destruct (check_uri_conflict _ _ _ _); [done|].
  destruct (calculate_next_execution_time _) as [next|e]; [|done]. rewrite saved_watch. set (t := set_next _ _).
  assert (forall p, p ∈ [from; to] -> away p t) as Haw.
  { intros p Hp. eapply apart_away; [exact Ho|exact Hl|done|done|]. cbn. intros y ->. by left. }
  eapply quiet_then; [|apply (quiet_index _ t); auto]. apply quiet_put; [apply Hw| |done]. cbn [task_id t set_next set_schedule new_task].
  rewrite Hf. apply item_away. auto.
Qed.

Lemma update_quiet l stamp t account user role ch (m : mgr) : wf (mg_watch m) -> overlaps own l = false -> holds l (account_id t) [to_uri t; c_to_uri ch] ->
  dict_get (tasks (mg_watch m)) (task_id t) = Some t -> harmless ch t ->
  quiet (mg_watch m) (mg_watch (update_stable stamp account user role ch t m).2).
Proof.
  intros Hw Ho Hl Hg Hok. unfold update_stable. destruct (check_permission _ _ _ _); [|done]. unfold update_task_unlocked.
  destruct (check_uri_conflict _ _ _ _); [done|]. unfold harmless in Hok. destruct (apply_changes_owner ch t) as [Hid0 Hac0].
  destruct (apply_changes ch t) as [r t'] eqn:Ha. cbn [fst snd] in *. destruct r as [[]|e].
  2: { destruct Hok as [?|[Htu _]]; [done|]. rewrite st_bind_unfold. cbn. apply (quiet_set_task _ t); try done. apply Hw. }
  destruct (wf_keys _ Hw _ _ Hg) as (_ & _ & Hs). destruct (apply_changes_ok _ _ _ Ha Hs) as (Hid & Hac & Htu & _).
  assert (forall p, p ∈ [from; to] -> away p t) as Haw.
  { intros p Hp. eapply apart_away; [exact Ho|exact Hl|done|done|]. intros y ->. by left. }
  assert (forall p, p ∈ [from; to] -> away p t') as Haw'.
  { intros p Hp. eapply apart_away; [exact Ho|exact Hl|done|done|]. rewrite Htu. destruct (c_to_uri ch) as [z|]; intros y Hy; rewrite <- Hy; [right|]; by left. }
  rewrite st_bind_unfold. cbn [on_watch st_modify]. rewrite st_bind_unfold. cbn [st_lift]. rewrite saved_watch. cbn [mg_watch].
  eapply quiet_then; [|].
  - apply (quiet_put _ (task_id t') t'); [apply Hw| |intros x Hx; reflexivity]. rewrite Hid, Hg, !item_away; auto.
  - cbn [c_to_uri]. destruct (c_to_uri ch) as [z|]; [|done]. rewrite <- Htu. case_bool_decide.
    + by apply quiet_index; auto.
    + eapply quiet_then; [apply (quiet_unindex t); auto|]. by apply quiet_index; auto.
Qed.

Lemma delete_quiet l stamp t account user role (m : mgr) : wf (mg_watch m) -> overlaps own l = false -> holds l (account_id t) [to_uri t] ->
  dict_get (tasks (mg_watch m)) (task_id t) = Some t -> quiet (mg_watch m) (mg_watch (delete_stable stamp (task_id t) account user role t m).2).
Proof.
  intros Hw Ho Hl Hg. unfold delete_stable. destruct (check_permission _ _ _ _); [|done]. rewrite saved_watch.
  assert (forall p, p ∈ [from; to] -> away p t) as Haw.
  { intros p Hp. eapply apart_away; [exact Ho|exact Hl|done|done|]. intros y ->. by left. }
  eapply quiet_then; [|apply quiet_unindex; auto]. split; [|done]. unfold moving. cbn [tasks]. apply (omap_dict_pop item). intros v Hv.
  assert (v = t) as -> by congruence. apply item_away; auto.
Qed.

Lemma move_quiet l stamp old new account (m : mgr) : wf (mg_watch m) -> overlaps own l = false -> holds l account [Some old; Some new] ->
  rstrip is_slash old <> [] -> rstrip is_slash new <> [] -> quiet (mg_watch m) (mg_watch (rewrite_target_prefix_internal stamp old new account m).2).
Proof.
  intros Hw Ho Hl Hold Hnew. unfold rewrite_target_prefix_internal. destruct (plan_target_prefix_rewrite_unlocked _ _ _ _) as [plan|e] eqn:Hp; [|done].
  destruct plan as [|p plan]; [done|].
  assert (quiet (mg_watch m) (move_all account (p :: plan) (mg_watch m))) as Hq.
  { eapply quiet_move_all; eauto. intros -> p' q y. by apply (apart_scopes l). }
  pose proof (saved_watch_unit (move_all account (p :: plan)) stamp m) as Hs. destruct ((_ ← on_watch _; save_tasks stamp) m) as [[[]|e] m']; cbn [snd mg_watch] in *; [by rewrite Hs|].
  destruct (is_exception e); cbn [mg_watch]; rewrite Hs; [by rewrite (restore_move _ _ _ _ _ Hw Hp)|done].
Qed.

Lemma leased_quiet c m m' : coherent c -> own ∈ active_mutations c -> wf (mg_watch m) -> leased_step own c m m' -> quiet (mg_watch m) (mg_watch m').
Proof.
  intros Hc Ho Hw [l id now stamp args Hl Hh Hf _|l stamp t account user role ch Hl Hh Hg Hok|l stamp t account user role Hl Hh Hg|l stamp old new account Hl Hne Hh H1 H2|stamp uri account|stamp id auth|now stamp id].
  - apply (create_quiet l); auto. by apply (co_stable _ Hc).
  - apply (update_quiet l); auto. by apply (co_stable _ Hc).
  - apply (delete_quiet l); auto. by apply (co_stable _ Hc).
  - apply (move_quiet l); auto. by apply (co_apart _ Hc).
  - unfold deactivate_tasks_under_uri_internal. pose proof (quiet_deactivate (matched (mg_watch m) uri account) (mg_watch m) (wf_nodup _ Hw)) as Hq.
    destruct (matched (mg_watch m) uri account) as [|t0 found] eqn:E; [done|]. rewrite saved_watch. apply Hq; rewrite <- E.
    + intros t [_ Ht]%list_elem_of_filter. by apply in_tasks.
    + apply sublist_filter_nodup. rewrite tasks_ids by done. apply Hw.
  - unfold update_auth_state. destruct (dict_get _ id) as [t|] eqn:Hg; [|done]. rewrite saved_watch_unit. destruct (wf_keys _ Hw _ _ Hg) as (<- & _).
    apply (quiet_set_task _ t); try done. apply Hw.
  - unfold update_execution_time. destruct (dict_get _ id) as [t|] eqn:Hg; [|done]. destruct (wf_keys _ Hw _ _ Hg) as (<- & _).
    destruct (negb (is_active t) || _); [rewrite saved_watch_unit; apply (quiet_set_task _ t); try done; apply Hw|].
    destruct (calculate_next_execution_time _) as [next|e]; [rewrite saved_watch_unit; apply (quiet_set_task _ t); try done; apply Hw|].
    rewrite st_bind_unfold. cbn. apply (quiet_set_task _ t); try done. apply Hw.
Qed.
End managers.
End quiet.

(** ** The transaction among the others *)

Section commit.
Context {St : Type} {env : WatchEnv} {fs : WatchFS St}.
Context (from to a : pystr) (Hfrom : rstrip is_slash from <> []) (Hto : rstrip is_slash to <> []).
Context (own : UriLease) (Hown : holds own a [Some from; Some to]).
Abbreviation mgr := (manager St).

Lemma together_step x y : together (St := St) own x y -> sys_ok x.1 -> wf (mg_watch x.2) ->
  sys_ok y.1 /\ wf (mg_watch y.2) /\ ((own, true) ∈ waiting x.1 -> (own, true) ∈ waiting y.1) /\
  (own ∈ active_mutations (sys x.1) -> own ∈ active_mutations (sys y.1) /\ quiet from to a (mg_watch x.2) (mg_watch y.2)).
Proof.
  intros [s s' m Hstep Hh Hq|s m m' Hleased] Hs Hw; cbn in *.
  - split_and!; [by apply (step_ok s)|done|done|]. intros Ho. split; [auto|done].
  - split_and!; [done|by eapply leased_watch|done|]. intros Ho. split; [done|].
    exact (leased_quiet _ _ _ Hfrom Hto own Hown _ _ _ (so_coherent _ Hs) Ho Hw Hleased).
Qed.

Lemma together_run x y : rtc (together (St := St) own) x y -> sys_ok x.1 -> wf (mg_watch x.2) ->
  sys_ok y.1 /\ wf (mg_watch y.2) /\ ((own, true) ∈ waiting x.1 -> (own, true) ∈ waiting y.1) /\
  (own ∈ active_mutations (sys x.1) -> own ∈ active_mutations (sys y.1) /\ quiet from to a (mg_watch x.2) (mg_watch y.2)).
Proof.
  induction 1 as [x|x y z Hst _ IH]; intros Hs Hw; [done|]. destruct (together_step _ _ Hst Hs Hw) as (Hs1 & Hw1 & Hq1 & Hh1).
  destruct (IH Hs1 Hw1) as (Hs2 & Hw2 & Hq2 & Hh2). split_and!; [done|done|auto|]. intros Ho. destruct (Hh1 Ho) as [Ho1 Hx1], (Hh2 Ho1) as [Ho2 Hx2].
  split; [done|by eapply quiet_then].
Qed.

(** The plan survives. *)
Lemma quiet_plan w w' plan : wf w -> quiet from to a w w' -> plan_target_prefix_rewrite_unlocked w from to a = Ok plan ->
  plan_target_prefix_rewrite_unlocked w' from to a = Ok plan.
Proof.
  intros Hw [Hm Hx]. unfold plan_target_prefix_rewrite_unlocked. rewrite Hm. destruct (forallb (target_free w a _) _) eqn:E; [|done]. intros [= <-].
  assert (forallb (target_free w' a (moving w from to a)) (moving w from to a) = true) as ->; [|done].
  apply forallb_forall. intros [id x] Hin. pose proof (proj1 (forallb_forall _ _) E _ Hin) as Hf. unfold target_free in *. cbn [snd fst] in *.
  apply list_elem_of_In, elem_of_moving in Hin as (t & y & _ & _ & _ & Hy & ->); [|apply Hw]. rewrite Hx; [done|]. by apply rewrite_below.
Qed.

(** So do the targets it is about. *)
Lemma quiet_targets w w' id x : wf w -> wf w' -> quiet from to a w w' -> (id, x) ∈ moving w from to a -> target w' id = target w id.
Proof.
  intros Hw Hw' [Hm _] Hin. assert ((id, x) ∈ moving w' from to a) as Hin' by (by rewrite Hm).
  apply elem_of_moving in Hin as (t & y & Hg & Hac & Hty & Hy & Hx); [|apply Hw].
  apply elem_of_moving in Hin' as (t' & y' & Hg' & Hac' & Hty' & Hy' & Hx'); [|apply Hw'].
  destruct (rewrite_suffix _ _ to Hy) as [Hs Hr], (rewrite_suffix _ _ to Hy') as [Hs' Hr']. rewrite Hr in Hx. rewrite Hr', Hx in Hx'.
  apply app_inv_head in Hx'. rewrite <- Hx', <- Hs in Hs'. unfold target. rewrite Hg, Hg'. unfold tgt. cbn. rewrite Hty, Hty', Hac, Hac', Hs'. done.
Qed.

Lemma relocated_get plan l id : dict_get (relocated plan <$> l) id = (fun t => match dict_get plan id with Some x => moved_task x t | None => t end) <$> dict_get l id.
Proof.
  induction l as [|[j t] l IH]; [done|]. rewrite fmap_cons. unfold relocated at 1. cbn [dict_get fst snd]. destruct (seqb j id) eqn:E; [|done]. by apply seqb_true in E as ->.
Qed.

Lemma moved_targets w plan id x : wf w -> plan_target_prefix_rewrite_unlocked w from to a = Ok plan -> (id, x) ∈ plan -> target (move_all a plan w) id = Some (a, x).
Proof.
  intros Hw Hp Hin. destruct (move_all_tasks _ _ _ _ _ Hw Hp) as [Ht _]. destruct (plan_ids _ _ _ _ _ [] Hw Hp) as (-> & Hn & _).
  pose proof (dict_get_in _ _ _ Hn Hin) as Hg. apply elem_of_moving in Hin as (t & y & Hgt & Hac & Hty & Hy & Hx); [|apply Hw].
  unfold target. rewrite Ht, relocated_get, Hgt, Hg. cbn [fmap option_fmap option_map mbind option_bind]. rewrite moved_tgt; [by rewrite Hac|].
  rewrite Hx. destruct (rewrite_suffix _ _ to Hy) as [_ ->]. by destruct (rstrip is_slash to).
Qed.

(** Rewriting at the commit. *)
Lemma commit_outcome stamp (m m' : mgr) r plan : wf (mg_watch m) -> plan_target_prefix_rewrite_unlocked (mg_watch m) from to a = Ok plan ->
  rewrite_target_prefix_internal stamp from to a m = (r, m') ->
  match r with
  | Ok _ => forall id x, (id, x) ∈ plan -> target (mg_watch m') id = Some (a, x)
  | Err e => is_exception e = true -> mg_watch m' = mg_watch m
  end.
Proof.
  intros Hw Hp. unfold rewrite_target_prefix_internal. rewrite Hp. destruct plan as [|it plan]; [intros [= <- <-]; by intros id x ?%elem_of_nil|].
  pose proof (saved_watch_unit (move_all a (it :: plan)) stamp m) as Hs. destruct ((_ ← on_watch _; save_tasks stamp) m) as [[[]|e] m1]; cbn [snd] in Hs; intros [= <- <-].
  - intros id x Hin. rewrite Hs. by apply moved_targets.
  - intros He. rewrite He. cbn [mg_watch]. rewrite Hs. by apply (restore_move _ from to).
Qed.

(** A target given by the move stays until the lease is released. *)
Lemma quiet_moved w w' id x : wf w -> wf w' -> quiet from to a w w' -> uri_matches_prefix (Some x) to = true -> target w id = Some (a, x) -> target w' id = Some (a, x).
Proof. intros Hw Hw' [_ Hx] Hm Ht. apply (wf_index _ Hw'). rewrite Hx by done. by apply (wf_index _ Hw). Qed.

Lemma leave_split w ws : w ∈ ws -> exists ws1 ws2, ws = ws1 ++ w :: ws2 /\ leave w ws = ws1 ++ ws2.
Proof.
  induction ws as [|y ws IH]; [by intros ?%elem_of_nil|]. cbn. intros Hin. destruct (decide (y = w)) as [->|Hne]; [by exists [], ws|].
  apply elem_of_cons in Hin as [->|Hin]; [done|]. destruct (IH Hin) as (ws1 & ws2 & -> & ->). by exists (y :: ws1), ws2.
Qed.

(** What the others do at each wait is a run of leased operations beside [own]. *)
Definition beside (others : nat -> service St -> service St) : Prop := forall i x, rtc (together own) x (others i x).

(** The loop ends with the lease held, in a coordinator and a manager that are in order. *)
Lemma acquire_loop_held others rounds : forall i x j y, beside others -> sys_ok x.1 -> wf (mg_watch x.2) -> (own, true) ∈ waiting x.1 ->
  acquire_loop others own rounds i x = Some (j, y) -> sys_ok y.1 /\ wf (mg_watch y.2) /\ own ∈ active_mutations (sys y.1).
Proof.
  induction rounds as [|rounds IH]; intros i x j y Hb Hs Hw Hq; cbn [acquire_loop]; destruct (acquire own true (sys x.1)) as [c|] eqn:Hac; try done.
  3: { destruct (together_run _ _ (Hb i x) Hs Hw) as (Hs' & Hw' & Hq' & _). apply IH; auto. }
  all: intros [= <- <-]; destruct (leave_split _ _ Hq) as (ws1 & ws2 & E & ->); cbn; split_and!;
    [exact (step_ok _ _ (step_acquire _ _ _ _ _ _ E Hac) Hs)|done|apply (proj2 (proj2 (acquire_active _ _ _ _ Hac)) true); by right].
Qed.

(** The move under its lease. *)
Lemma move_locked_outcome others i stamp (x y : service St) (r : result unit) :
  beside others -> sys_ok x.1 -> wf (mg_watch x.2) -> own ∈ active_mutations (sys x.1) ->
  move_locked others i stamp from to a x = (r, y) ->
  sys_ok y.1 /\ wf (mg_watch y.2) /\ own ∈ active_mutations (sys y.1) /\
  match r with
  | Ok _ => forall id t, (id, t) ∈ moving (mg_watch x.2) from to a -> target (mg_watch y.2) id = Some (a, t)
  | Err e => is_exception e = true -> quiet from to a (mg_watch x.2) (mg_watch y.2)
  end.
Proof.
  intros Hb Hs Hw Ho. unfold move_locked. destruct (together_run _ _ (Hb i x) Hs Hw) as (Hs0 & Hw0 & _ & Hh0). destruct (Hh0 Ho) as [Ho0 Hq0]. clear Hh0.
  set (x0 := others i x) in *. unfold on_manager at 1, validate_target_prefix_rewrite_internal.
  destruct (plan_target_prefix_rewrite_unlocked (mg_watch x0.2) from to a) as [plan|e] eqn:Hp; cbn [mbind result_bind]; [|by intros [= <- <-]].
  destruct (plan_ids _ _ _ _ _ [] Hw0 Hp) as (Eplan & _). destruct x0 as [s0 m0] eqn:Ex0. cbn [fst snd] in *.
  destruct (together_run _ _ (Hb (1 + i)%nat (s0, m0)) Hs0 Hw0) as (Hs1 & Hw1 & _ & Hh1). destruct (Hh1 Ho0) as [Ho1 Hq1]. clear Hh1.
  destruct (others (1 + i)%nat (s0, m0)) as [s1 m1] eqn:E1. cbn [fst snd] in *. pose proof (quiet_then _ _ _ _ _ _ Hq0 Hq1) as Hq01.
  unfold on_manager at 1, on_store at 1. cbn [fst snd]. destruct (fs_mv from to (mg_store m1)) as [[[]|e] t1]; [|by intros [= <- <-]].
  set (m1' := MkManager (mg_watch m1) t1). destruct (together_run _ _ (Hb (2 + i)%nat (s1, m1')) Hs1 Hw1) as (Hs2 & Hw2 & _ & Hh2). destruct (Hh2 Ho1) as [Ho2 Hq2]. clear Hh2.
  destruct (others (2 + i)%nat (s1, m1')) as [s2 m2] eqn:E2. cbn [fst snd] in *. change (mg_watch m1') with (mg_watch m1) in Hq2.
  pose proof (quiet_plan _ _ _ Hw0 (quiet_then _ _ _ _ _ _ Hq1 Hq2) Hp) as Hp2. pose proof (quiet_then _ _ _ _ _ _ Hq01 Hq2) as Hq02.
  unfold on_manager at 1. cbn [fst snd]. pose proof (rewrite_keeps stamp from to a m2 Hto Hw2) as Hw3.
  destruct (rewrite_target_prefix_internal stamp from to a m2) as [[moved|e] m3] eqn:Hrw; pose proof (commit_outcome _ _ _ _ _ Hw2 Hp2 Hrw) as Hc; cbn [snd] in Hw3.
  - intros [= <- <-]. split_and!; [done|done|done|]. cbn. destruct Hq0 as [<- _]. by rewrite <- Eplan.
  - destruct (is_exception e) eqn:He; [|intros [= <- <-]; split_and!; [done|done|done|intros He'; congruence]]. specialize (Hc He).
    destruct (together_run _ _ (Hb (3 + i)%nat (s2, m3)) Hs2 Hw3) as (Hs4 & Hw4 & _ & Hh4). destruct (Hh4 Ho2) as [Ho4 Hq4]. clear Hh4.
    destruct (others (3 + i)%nat (s2, m3)) as [s4 m4] eqn:E4. cbn [fst snd] in *. rewrite Hc in Hq4. pose proof (quiet_then _ _ _ _ _ _ Hq02 Hq4) as Hq04.
    unfold on_manager, on_store. cbn [fst snd]. destruct (fs_mv to from (mg_store m4)) as [[[]|e'] t4]; intros [= <- <-]; by split_and!.
Qed.

Lemma released x : sys_ok x -> own ∈ active_mutations (sys x) -> own ∉ active_mutations (release own true (sys x)).
Proof.
  intros Hs Ho Hin. pose proof (active_nodup _ true (so_coherent _ Hs)) as Hn. cbn in Hn, Hin. rewrite (remove_lease_perm _ _ Hn Ho) in Hn.
  rewrite fmap_cons in Hn. apply NoDup_cons in Hn as [Hn _]. apply Hn. by apply list_elem_of_fmap_2.
Qed.
End commit.

(** C19: Watched targets follow a moved resource.  The move makes a mutation lease on both
    URIs, waits until it holds it and releases it at its end.  From the moment it holds
    the lease, and whatever the others do to the coordinator and to the manager at its
    waits under leases of their own, a move that returns has given every task of the
    account at or below the old URI its new target, and a move that fails with an
    exception has left their targets alone.  Both URIs have to be more than slashes, the
    target index has to be exact at the start, and the others' updates must not be
    refused after they have set a new target or a part of a schedule. *)
Theorem watched_move {St : Type} {env : WatchEnv} {fs : WatchFS St} (others : nat -> service St -> service St) (rounds : nat) (stamp : Z)
    (from to a : pystr) (x x' : service St) (r : result unit) :
  let lease := mutation_lease a [Some from; Some to] x in
  rstrip is_slash from <> [] -> rstrip is_slash to <> [] -> reachable x.1 -> wf (mg_watch x.2) -> beside lease others ->
  move_resource_with_watch_transaction others rounds stamp from to a x = Some (r, x') ->
  lease ∉ active_mutations (sys x'.1) /\
  exists i x1, acquire_loop others lease rounds 0 (enter lease true x) = Some (i, x1) /\ lease ∈ active_mutations (sys x1.1) /\
    match r with
    | Ok _ => forall id t, (id, t) ∈ moving (mg_watch x1.2) from to a -> target (mg_watch x'.2) id = Some (a, t)
    | Err e => is_exception e = true -> forall id t, (id, t) ∈ moving (mg_watch x1.2) from to a -> target (mg_watch x'.2) id = target (mg_watch x1.2) id
    end.
Proof.
  intros lease Hfrom Hto Hr Hw Hb. unfold move_resource_with_watch_transaction. fold lease.
  assert (holds lease a [Some from; Some to]) as Hown by done.
  assert (sys_ok (enter lease true x).1) as Hs by (apply (step_ok x.1), reachable_ok, Hr; exact (step_enter x.1 a [Some from; Some to] true)).
  assert ((lease, true) ∈ waiting (enter lease true x).1) as Hq by (cbn; apply elem_of_app; right; by left).
  destruct (acquire_loop others lease rounds 0 (enter lease true x)) as [[i x1]|] eqn:Ea; [|done].
  destruct (acquire_loop_held from to a Hfrom Hto lease Hown _ _ _ _ _ _ Hb Hs Hw Hq Ea) as (Hs1 & Hw1 & Ho1).
  destruct (move_locked others i stamp from to a x1) as [r1 x2] eqn:Em.
  destruct (move_locked_outcome from to a Hfrom Hto lease Hown _ _ _ _ _ _ Hb Hs1 Hw1 Ho1 Em) as (Hs2 & Hw2 & Ho2 & Hout).
  destruct (together_run from to a Hfrom Hto lease Hown _ _ (Hb (4 + i)%nat x2) Hs2 Hw2) as (Hs3 & Hw3 & _ & Hh3). destruct (Hh3 Ho2) as [Ho3 Hq3].
  intros [= <- <-]. cbn [fst snd sys]. split; [by apply released|]. exists i, x1. split; [done|]. split; [done|]. destruct r1 as [[]|e].
  - intros id t Hin. apply (quiet_moved from to a _ _ _ _ Hw2 Hw3 Hq3); [|by apply Hout].
    apply elem_of_moving in Hin as (t0 & y & _ & _ & _ & Hy & ->); [|apply Hw1]. by apply rewrite_below.
  - intros He id t Hin. eapply quiet_targets; [exact Hw1|exact Hw3| |exact Hin]. eapply quiet_then; [by apply Hout|done].
Qed.
