(* ===== verification/WatchRuns.v ===== *)
(** Runs of the watch manager on files in memory: the laws its theorems assume hold of a
    concrete environment, the theorems applied there, and what goes wrong at the edges. *)
From Stdlib Require Import NArith ZArith.
From S2P Require Import Prelude PyStr PyVal WireJson UriMutation Watch WatchTheory WatchStorage WatchMove.

Open Scope N_scope.

(** ** A concrete environment *)

Definition fld (data : list (pystr * field)) (k : pystr) : field := default (FVal VNone) (dict_get data k).

Definition as_str (f : field) : option pystr := match f with FVal (VStr s) => Some s | _ => None end.
Definition as_opt_str (f : field) : option (option pystr) := match f with FVal (VStr s) => Some (Some s) | FVal VNone => Some None | _ => None end.
Definition as_bool (f : field) : option bool := match f with FVal (VBool b) => Some b | _ => None end.
Definition as_opt_bool (f : field) : option (option bool) := match f with FVal (VBool b) => Some (Some b) | FVal VNone => Some None | _ => None end.
Definition as_float (f : field) : option Z := match f with FVal (VFloat z) => Some z | _ => None end.
Definition as_dict (f : field) : option pydict := match f with FVal (VDict d) => Some d | _ => None end.
Definition as_opt_dict (f : field) : option (option pydict) := match f with FVal (VDict d) => Some (Some d) | FVal VNone => Some None | _ => None end.
Definition as_time (f : field) : option Z := match f with FTime t => Some t | _ => None end.
Definition as_opt_time (f : field) : option (option Z) := match f with FTime t => Some (Some t) | FVal VNone => Some None | _ => None end.

(** A constructor that accepts exactly values of the declared types. *)
Definition strict_construct (data : list (pystr * field)) : result WatchTask :=
  match
    (id ← as_str (fld data (u "task_id")); path ← as_str (fld data (u "path")); src ← as_opt_str (fld data (u "source_type"));
     to ← as_opt_str (fld data (u "to_uri")); dir ← as_opt_bool (fld data (u "to_is_directory")); par ← as_opt_str (fld data (u "parent_uri"));
     reason ← as_str (fld data (u "reason")); ins ← as_str (fld data (u "instruction")); iv ← as_float (fld data (u "watch_interval"));
     bi ← as_bool (fld data (u "build_index")); su ← as_bool (fld data (u "summarize")); pm ← as_str (fld data (u "processing_mode"));
     pk ← as_dict (fld data (u "processor_kwargs")); au ← as_opt_dict (fld data (u "auth_state")); ca ← as_time (fld data (u "created_at"));
     la ← as_opt_time (fld data (u "last_execution_time")); ne ← as_opt_time (fld data (u "next_execution_time")); ac ← as_bool (fld data (u "is_active"));
     acc ← as_str (fld data (u "account_id")); usr ← as_str (fld data (u "user_id")); rol ← as_str (fld data (u "original_role"));
     Some (MkTask id path src to dir par reason ins iv bi su pm pk au ca la ne ac acc usr rol))
  with Some t => Ok t | None => Err ValueError end.

Definition wire_env : WatchEnv := {|
  isoformat t := [Z.to_N t];
  fromisoformat s := match s with [n] => Ok (Z.of_N n) | _ => Err ValueError end;
  construct := strict_construct;
  json_dumps := wire;
  json_loads := wire_loads |}.

Lemma declares_fld data t : declares data t -> Forall (fun kv => fld data kv.1 = kv.2) (model_fields t).
Proof.
  unfold declares. intros H. eapply Forall_impl; [exact H|]. clear H. intros [k v] [H|[[= -> ->] H]]; cbn in *; unfold fld; by rewrite H.
Qed.

Lemma wire_env_ok : WatchEnvOk (env := wire_env).
Proof.
  split; cbn.
  - intros t Ht. f_equal. lia.
  - apply wire_roundtrip.
  - apply wire_nonblank.
  - intros data t H%declares_fld. unfold strict_construct, model_fields in *. repeat (apply Forall_cons in H as [?E H]). cbn [fst snd] in *.
    repeat match goal with E : fld data _ = _ |- _ => rewrite E; clear E end. clear H. unfold opt_str, time_field.
    destruct t as [? ? src to dir par ? ? ? ? ? ? ? au ? la ne ? ? ? ?]; cbn. by destruct src, to, dir, par, au, la, ne.
Qed.

(** Files in memory; every write, rename, removal and test takes the next outcome: go on,
    or raise before doing anything.  Reads of a flaky file raise. *)
Record mem := MkMem { m_files : gmap pystr pystr; m_outcomes : list (option exn) }.

Definition next_outcome {A} (s : mem) (run : gmap pystr pystr -> result A * gmap pystr pystr) : result A * mem :=
  match m_outcomes s with
  | Some e :: rest => (Err e, MkMem (m_files s) rest)
  | outcomes => let '(r, f) := run (m_files s) in (r, MkMem f (tail outcomes))
  end.

Definition mem_fs (flaky : pystr -> bool) : WatchFS mem := {|
  fs_read uri s := (match m_files s !! uri with
                    | Some c => if flaky uri then Err OtherError else Ok c
                    | None => Err NotFoundError end, s);
  fs_write uri c s := next_outcome s (fun f => (Ok tt, <[uri := c]> f));
  fs_exists uri s := next_outcome s (fun f => (Ok (bool_decide (is_Some (f !! uri))), f));
  fs_rm uri s := next_outcome s (fun f => (Ok tt, delete uri f));
  fs_mv src dst s := next_outcome s (fun f => match f !! src with Some c => (Ok tt, <[dst := c]> (delete src f)) | None => (Err NotFoundError, f) end);
  attached := true; supports_atomic := true |}.

Lemma next_outcome_cases {A} (s : mem) (run : gmap pystr pystr -> result A * gmap pystr pystr) :
  (exists e rest, next_outcome s run = (Err e, MkMem (m_files s) rest)) \/ (exists rest, next_outcome s run = ((run (m_files s)).1, MkMem (run (m_files s)).2 rest)).
Proof. unfold next_outcome. destruct (m_outcomes s) as [|[e|] rest]; [right|left|right]; [destruct (run (m_files s))|..|destruct (run (m_files s))]; eauto. Qed.

Lemma mem_fs_ok flaky : WatchFSOk mem (fs := mem_fs flaky) m_files.
Proof.
  split; cbn.
  - intros uri c s. destruct (next_outcome_cases s (fun f => (Ok tt, <[uri := c]> f))) as [(e & rest & ->)|(rest & ->)]; done.
  - intros uri s. destruct (next_outcome_cases s (fun f => (Ok (bool_decide (is_Some (f !! uri))), f))) as [(e & rest & ->)|(rest & ->)]; done.
  - intros uri s. destruct (next_outcome_cases s (fun f => (Ok tt, delete uri f))) as [(e & rest & ->)|(rest & ->)]; [by left|done].
  - intros src dst s. destruct (next_outcome_cases s (fun f => match f !! src with Some c => (Ok tt, <[dst := c]> (delete src f)) | None => (Err NotFoundError, f) end)) as [(e & rest & ->)|(rest & ->)]; [by left|].
    destruct (m_files s !! src) as [c|] eqn:E; cbn; [by exists c|by left].
  - done.
Qed.

Definition sound_fs := mem_fs (fun _ => false).
#[local] Existing Instance wire_env.
#[local] Existing Instance wire_env_ok.
#[local] Existing Instance sound_fs.
#[local] Instance sound_fs_ok : WatchFSOk mem m_files := mem_fs_ok _.

(** ** Runs *)

(** One minute, six seconds (a tenth of a minute is no double), and half a microsecond. *)
Example minutes_run :
  minutes_us ONE = 60000000%Z /\ minutes_us (3602879701896397 * 2 ^ 1019) = 6000000%Z /\ minutes_us (- ONE) = (-60000000)%Z /\ minutes_us 1 = 0%Z.
Proof. by vm_compute. Qed.

Definition docs : pystr := u "viking://resources/docs".
Definition docs_a : pystr := u "viking://resources/docs/a".
Definition docs_b : pystr := u "viking://resources/docs/b".
Definition attic : pystr := u "viking://resources/attic".
Definition acme : pystr := u "acme".
Definition ann : pystr := u "ann".

Definition args (to : pystr) (user : pystr) : watch_args :=
  MkArgs (u "https://example.com/a") acme user (u "user") None (Some to) None None [] [] (10 * ONE) true false (u "semantic_and_vectors") None None.
Definition start : manager mem := MkManager empty_watch (MkMem ∅ []).
Definition one : manager mem := (create_task (u "t1") 1000 1001 (args docs_a ann) start).2.
Definition no_changes : changes := MkChanges None None None None None None None None None None None None None None.

(** The rest of the run uses these on [one]. *)
Lemma one_run : rtc watch_step start one.
Proof. apply rtc_once. apply step_create; by vm_compute. Qed.

Definition target_of (m : manager mem) (id : pystr) : option pystr := t ← dict_get (tasks (mg_watch m)) id; to_uri t.
Definition ids_of (m : manager mem) : list pystr := fst <$> tasks (mg_watch m).
Definition indexed (m : manager mem) (x : pystr) : option pystr := uri_to_task (mg_watch m) !! (acme, x).

(** An update is checked while its fields are being set: a refused one has already moved
    the target, the index does not know, and a second task takes the same target. *)
Definition bad_changes : changes := MkChanges None None (Some docs_b) None None None None (Some 0%Z) None None None None None (Some true).
Definition refused : result WatchTask * manager mem := update_task 1 idle idle 2000 (u "t1") acme ann (u "user") bad_changes one.

Example failed_update_breaks_index :
  is_ok refused.1 = false /\ target_of refused.2 (u "t1") = Some docs_b /\ indexed refused.2 docs_b = None /\ indexed refused.2 docs_a = Some (u "t1") /\
  (let second := create_task (u "t2") 3000 3001 (args docs_b ann) refused.2 in
   is_ok second.1 = true /\ target_of second.2 (u "t1") = Some docs_b /\ target_of second.2 (u "t2") = Some docs_b).
Proof. by vm_compute. Qed.

(** An interval too long for a datetime raises after it was stored; the task stays due
    whenever it runs. *)
Definition too_long : changes := MkChanges None None None None None None None (Some (10 ^ 30 * ONE)%Z) None None None None None None.
Definition overflowed : result WatchTask * manager mem := update_task 1 idle idle 2000 (u "t1") acme ann (u "user") too_long one.

Example overflow_stays_due :
  overflowed.1 = Err OverflowError /\
  (let ran := update_execution_time 700000000 700000001 (u "t1") overflowed.2 in
   ran.1 = Err OverflowError /\ task_id <$> get_due_tasks 700000002 None (mg_watch ran.2) = [u "t1"]).
Proof. by vm_compute. Qed.

(** ** The files *)

(** The last rename of a save fails, so that the old tasks are only in the backup; the
    next save removes the backup first and is stopped there: both are gone. *)
Definition saved_once : manager mem := (save_tasks 5000 one).2.
Definition half_saved : result unit * manager mem :=
  save_tasks 6000 (MkManager (mg_watch one) (MkMem (m_files (mg_store saved_once)) [None; None; None; None; None; Some OtherError])).
Definition stopped : result unit * manager mem :=
  save_tasks 7000 (MkManager (mg_watch one) (MkMem (m_files (mg_store half_saved.2)) [None; None; None; Some CancelledError])).

Example two_failures_lose_tasks :
  half_saved.1 = Err OtherError /\ stopped.1 = Err CancelledError /\
  m_files (mg_store stopped.2) !! WATCH_TASK_STORAGE_URI = None /\ m_files (mg_store stopped.2) !! WATCH_TASK_STORAGE_BAK_URI = None /\
  ids_of (initialize 8000 (MkManager empty_watch (mg_store stopped.2))).2 = [].
Proof. by vm_compute. Qed.

(** A file that cannot be read at the start counts as missing: the backup is loaded and
    saved over it, and the next save drops what it held. *)
Definition two : manager mem := (create_task (u "t2") 2000 2001 (args docs_b ann) one).2.
Definition flaky_fs : WatchFS mem := mem_fs (fun uri => seqb uri WATCH_TASK_STORAGE_URI).
Definition restarted : manager mem := (initialize (WatchFS0 := flaky_fs) 9000 (MkManager empty_watch (mg_store two))).2.
Definition resaved : manager mem := (save_tasks 9001 restarted).2.

Example read_error_loses_tasks :
  ids_of two = [u "t1"; u "t2"] /\ ids_of restarted = [u "t1"] /\
  ids_of (initialize 9002 (MkManager empty_watch (mg_store resaved))).2 = [u "t1"] /\
  (f ← m_files (mg_store resaved) !! WATCH_TASK_STORAGE_BAK_URI; parsed f) = Some (saved_data 9000 (mg_watch one)).
Proof. by vm_compute. Qed.

(** One entry that is no dict ends the loading of all that follow. *)
Example malformed_entry_stops_load :
  (load_entries [VStr (u "x"); VDict (to_storage_dict (new_task (u "t9") 0 (args docs ann)))] empty_watch false).1.1 = empty_watch.
Proof. done. Qed.

(** ** The theorems at work *)

Lemma watch_invariant_witness :
  rtc watch_step start one /\ exists t, dict_get (tasks (mg_watch one)) (u "t1") = Some t /\ is_active t = true /\
    (if is_active t then (0 < watch_interval t)%Z /\ is_Some (next_execution_time t) else next_execution_time t = None).
Proof.
  split; [exact one_run|]. destruct (dict_get (tasks (mg_watch one)) (u "t1")) as [t|] eqn:E; [|by vm_compute in E]. exists t. split; [reflexivity|]. split.
  - vm_compute in E. injection E as <-. reflexivity.
  - exact (proj2 (proj2 (watch_invariant start one empty_watch_wf one_run) _ _ E)).
Defined.

Lemma watch_isolation_witness :
  foreign (new_task (u "t1") 1000 (args docs_a ann)) acme (u "bob") (u "user") /\
  fst (delete_task 1 idle idle 1 (u "t1") acme (u "bob") (u "user") one) = Err PermissionDeniedError.
Proof.
  split; [split; [by vm_compute|right; split; by vm_compute]|].
  destruct (dict_get (tasks (mg_watch one)) (u "t1")) as [t|] eqn:E; [|by vm_compute in E].
  assert (foreign t acme (u "bob") (u "user")) as Hf by (vm_compute in E; injection E as <-; split; [by vm_compute|right; split; by vm_compute]).
  by rewrite (proj1 (proj2 (watch_isolation one t (u "t1") acme (u "bob") (u "user") [] [] 1 no_changes false E Hf))).
Defined.

(** Somebody moves the target during the first wait. *)
Definition meddle (i : nat) (m : manager mem) : manager mem :=
  match i with O => (rewrite_target_prefix_internal 3000 docs attic acme m).2 | _ => m end.

Lemma stable_target_terminates_witness :
  exists n, (n < 2)%nat /\
    ends (meddle n) (u "t1") (Ok None) (get_stable acme ann (u "user")) (round_start meddle idle n one)
      (with_stable_target 2 meddle idle 0 (Ok None) (u "t1") (get_stable acme ann (u "user")) one).
Proof.
  destruct (stable_target_terminates [0%nat] meddle idle (u "t1") (Ok None) (get_stable acme ann (u "user")) one 2) as (n & Hn & _ & He);
    [|by cbn; lia|exists n; split; [exact Hn|exact He]].
  intros [|j] m Hj; [by destruct Hj; left|]. unfold same_target. cbn. by destruct (dict_get _ (u "t1")).
Defined.

Lemma settled_empty : settled_files (∅ : gmap pystr pystr).
Proof. right. by rewrite !lookup_empty. Qed.

Definition stops_at_rename : manager mem := MkManager (mg_watch one) (MkMem ∅ [None; None; None; Some CancelledError]).


Definition fresh_store : manager mem := MkManager (mg_watch one) (MkMem ∅ []).

Lemma reads_sound : reads_work (files := m_files).
Proof. intros uri s. cbn. by destruct (m_files s !! uri). Qed.

Definition timedb (t : WatchTask) : bool :=
  forallb (fun x => (0 <=? x) && (x <? DATETIME_END))%Z (created_at t :: option_list (last_execution_time t) ++ option_list (next_execution_time t)).

Lemma timedb_timed t : timedb t = true -> timed t.
Proof.
  unfold timedb, timed, is_time. cbn. rewrite forallb_app, !andb_true_iff, Z.leb_le, Z.ltb_lt. intros (Hc & Hl & Hn). split; [done|].
  split; [destruct (last_execution_time t)|destruct (next_execution_time t)]; cbn in *; try done.
  - rewrite !andb_true_iff, Z.leb_le, Z.ltb_lt in Hl. tauto.
  - rewrite !andb_true_iff, Z.leb_le, Z.ltb_lt in Hn. tauto.
Qed.

(** Nothing on disk yet: the only save so far failed. *)
Definition unsaved : manager mem := MkManager empty_watch (MkMem ∅ [Some OtherError]).
Definition pending : manager mem := (create_task (u "t1") 1000 1001 (args docs_a ann) unsaved).2.

Lemma pending_run : rtc watch_step unsaved pending.
Proof. apply rtc_once. apply step_create; by vm_compute. Qed.

Lemma pending_timed : Forall (fun item => timed item.2) (tasks (mg_watch pending)).
Proof.
  assert (forallb (fun item => timedb item.2) (tasks (mg_watch pending)) = true) as H by (vm_compute; reflexivity).
  apply Forall_forall. intros it Hit. apply timedb_timed. exact (proj1 (forallb_forall _ _) H _ (proj1 (list_elem_of_In _ _) Hit)).
Qed.

Lemma restart_restores_witness :
  exists m', save_tasks 2000 pending = (Ok tt, m') /\
    tasks (mg_watch (initialize 3000 (MkManager empty_watch (mg_store m'))).2) = tasks (mg_watch pending).
Proof.
  exists (save_tasks 2000 pending).2. assert (save_tasks 2000 pending = (Ok tt, (save_tasks 2000 pending).2)) as E.
  { rewrite (surjective_pairing (save_tasks 2000 pending)) at 1. apply (f_equal (fun r => (r, _))). vm_compute. reflexivity. }
  split; [exact E|].
  assert (wf (mg_watch pending)) as Hw by exact (run_keeps _ _ pending_run empty_watch_wf).
  pose proof (restart_restores (files := m_files) pending _ 2000 3000 eq_refl Hw pending_timed reads_sound E) as H.
  destruct (initialize 3000 _) as [r m2]. exact (proj1 (proj2 H)).
Defined.

(** While [docs] moves to the attic, a reader that is in its way lets go at the first
    wait, and afterwards somebody renews the task's credentials at every wait. *)
Definition mover : UriLease := MkLease 1 acme (normalize_uris [Some docs; Some attic]).
Definition reader : UriLease := MkLease 0 acme (normalize_uris [Some docs_a]).
Definition reading : system := MkSystem (MkCoordinator [reader] []) [] 1.

Lemma reading_reachable : reachable reading.
Proof.
  eapply rtc_l; [apply (step_enter initial acme [Some docs_a] false)|]. apply rtc_once.
  exact (step_acquire (MkSystem empty_coordinator [(reader, false)] 1) [] reader false [] (MkCoordinator [reader] []) eq_refl eq_refl).
Qed.

Definition renew (i : nat) (x : service mem) : service mem :=
  if decide (reader ∈ active_accesses (sys x.1)) then (MkSystem (release reader false (sys x.1)) (waiting x.1) (made x.1), x.2)
  else (x.1, (update_auth_state 4000 (u "t1") (Some []) x.2).2).

Lemma renew_beside : beside mover renew.
Proof.
  intros i [s m]. unfold renew. cbn [fst snd]. case_decide as Hr; apply rtc_once.
  - apply together_leases; [exact (step_release s reader false Hr)|done|done].
  - apply together_watch. apply leased_auth.
Qed.

Definition stored_docs : manager mem := MkManager empty_watch (MkMem (<[docs := u "data"]> ∅) []).
Definition one_with_docs : manager mem := (create_task (u "t1") 1000 1001 (args docs_a ann) stored_docs).2.
Definition move_run : option (result unit * service mem) :=
  move_resource_with_watch_transaction renew 1 5000 docs attic acme (reading, one_with_docs).
Definition moved : service mem := default (reading, one_with_docs) (snd <$> move_run).

Lemma watched_move_witness :
  move_run = Some (Ok tt, moved) /\ mover ∉ active_mutations (sys moved.1) /\
  target (mg_watch moved.2) (u "t1") = Some (acme, u "viking://resources/attic/a").
Proof.
  assert (fst <$> move_run = Some (Ok tt)) as Hok by (vm_compute; reflexivity).
  assert (move_run = Some (Ok tt, moved)) as Hrun by (unfold moved; destruct move_run as [[r y]|]; [cbn in Hok; by injection Hok as ->|done]).
  assert (wf (mg_watch one_with_docs)) as Hw by (apply create_keeps; [exact empty_watch_wf|by vm_compute|by vm_compute]).
  destruct (watched_move renew 1 5000 docs attic acme (reading, one_with_docs) moved (Ok tt) ltac:(by vm_compute) ltac:(by vm_compute) reading_reachable Hw renew_beside Hrun)
    as (Hrel & i & x1 & Ha & _ & Ht).
  split; [exact Hrun|]. split; [exact Hrel|]. apply Ht.
  assert ((fun y => moving (mg_watch y.2.2) docs attic acme) <$> acquire_loop renew mover 1 0 (enter mover true (reading, one_with_docs)) =
    Some [(u "t1", u "viking://resources/attic/a")]) as E by (vm_compute; reflexivity).
  change (mutation_lease acme [Some docs; Some attic] (reading, one_with_docs)) with mover in Ha. rewrite Ha in E. injection E as ->. by left.
Defined.
