(* ===== verification/BytesRow.v ===== *)
(** The row format of the vector store: [_PySchema] and [_PyBytesRow] of
    [openviking/storage/vectordb/store/bytes_row.py].

    A row is a byte with the number of fields, a fixed region with one slot per field
    (a number, or the absolute offset of a variable-size value), and a variable region. *)
From Stdlib Require Import NArith ZArith.
From S2P Require Import Prelude PyStr PyVal PyBytes.

Open Scope N_scope.

Definition INT64_SIZE : N := 8.
Definition UINT64_SIZE : N := 8.
Definition FLOAT32_SIZE : N := 4.
Definition UINT32_SIZE : N := 4.
Definition UINT16_SIZE : N := 2.
Definition BOOL_SIZE : N := 1.
Definition STRING_MAX_UINT16_LENGTH : N := 0xFFFF.

Inductive FieldType :=
| int64 | uint64 | float32 | string_ | binary | boolean | list_int64 | list_string | list_float32 | text.

#[export] Instance FieldType_eq_dec : EqDecision FieldType.
Proof. solve_decision. Defined.

(** The values of a row.  A float is given by the 64 bits of its double. *)
Inductive cell :=
| CInt (z : Z) | CFloat (d : N) | CStr (s : pystr) | CBytes (b : bytes) | CBool (b : bool)
| CInts (l : list Z) | CStrs (l : list pystr) | CFloats (l : list N).

(** ** Schema *)

(** One entry of the [fields] argument. *)
Record field := MkField { f_name : pystr; f_type : FieldType; f_id : nat; f_default : option cell }.

Record FieldMeta := MkMeta { fm_name : pystr; data_type : FieldType; offset : N; fm_id : nat; default_value : cell }.

(** [TYPE_INFO]: the size of the slot and the default value. *)
Definition type_info (t : FieldType) : N * cell :=
  match t with
  | int64 => (INT64_SIZE, CInt 0)
  | uint64 => (UINT64_SIZE, CInt 0)
  | float32 => (FLOAT32_SIZE, CFloat 0)
  | string_ => (UINT32_SIZE, CStr (u "default"))
  | binary => (UINT32_SIZE, CBytes [])
  | boolean => (BOOL_SIZE, CBool false)
  | list_int64 => (UINT32_SIZE, CInts [0%Z])
  | list_string => (UINT32_SIZE, CStrs [u "default"])
  | list_float32 => (UINT32_SIZE, CFloats [0])
  | text => (UINT32_SIZE, CStr [])
  end.

Record Schema := MkSchema {
  field_metas : list (pystr * FieldMeta);
  field_orders : list (option FieldMeta);
  total_byte_length : N }.

(** The loop of [_PySchema.__init__]; an id past the end of [field_orders] raises [IndexError]. *)
Fixpoint schema_loop (fields : list field) (metas : list (pystr * FieldMeta)) (orders : list (option FieldMeta))
    (current_offset : N) : result Schema :=
  match fields with
  | [] => Ok (MkSchema metas orders current_offset)
  | f :: fields =>
      let '(byte_len, dflt) := type_info (f_type f) in
      let m := MkMeta (f_name f) (f_type f) current_offset (f_id f) (default dflt (f_default f)) in
      if (f_id f <? length orders)%nat
      then schema_loop fields (dict_set metas (f_name f) m) (<[f_id f := Some m]> orders) (current_offset + byte_len)
      else Err OtherError
  end.

Definition new_schema (fields : list field) : result Schema :=
  schema_loop fields [] (replicate (length fields) None) 1.

Definition get_field_meta (s : Schema) (name : pystr) : result FieldMeta :=
  match dict_get (field_metas s) name with Some m => Ok m | None => Err KeyError end.

(** ** Floats *)

(** A double is [sign * 2^63 + exponent * 2^52 + fraction], a single-precision number
    [sign * 2^31 + exponent * 2^23 + fraction]. *)
Definition dbl_sign (d : N) : N := (d / 2 ^ 63) mod 2.
Definition dbl_exp (d : N) : N := (d / 2 ^ 52) mod 2 ^ 11.
Definition dbl_frac (d : N) : N := d mod 2 ^ 52.

(** [m / 2^s] rounded to the nearest integer, ties to even. *)
Definition round_shift (m s : N) : N :=
  let q := m / 2 ^ s in
  let r := m mod 2 ^ s in
  if (2 ^ (s - 1) <? r) || (2 ^ (s - 1) =? r) && N.odd q then q + 1 else q.

(** Exponent and fraction of the nearest single-precision number to a finite double. *)
Definition narrow_finite (e m : N) : N :=
  if 897 <=? e then (e - 897) * 2 ^ 23 + round_shift (2 ^ 52 + m) 29
  else if e =? 0 then round_shift m 925
  else round_shift (2 ^ 52 + m) (926 - e).

(** [(float)x] in [struct.pack] of an [f]: [None] is [OverflowError].  Infinities stay, a
    NaN keeps the head of its payload and becomes quiet. *)
Definition to_single (d : N) : option N :=
  let bits :=
    if dbl_exp d =? 2047 then Some (if dbl_frac d =? 0 then 255 * 2 ^ 23 else N.lor (511 * 2 ^ 22) (255 * 2 ^ 23 + dbl_frac d / 2 ^ 29))
    else let b := narrow_finite (dbl_exp d) (dbl_frac d) in if b <? 255 * 2 ^ 23 then Some b else None in
  (fun b => dbl_sign d * 2 ^ 31 + b mod 2 ^ 31) <$> bits.

(** [(double)x] in [struct.unpack] of an [f]. *)
Definition of_single (b : N) : N :=
  let sign := (b / 2 ^ 31) mod 2 in
  let e := (b / 2 ^ 23) mod 2 ^ 8 in
  let f := b mod 2 ^ 23 in
  sign * 2 ^ 63 +
  (if e =? 255 then if f =? 0 then 2047 * 2 ^ 52 else N.lor (4095 * 2 ^ 51) (2047 * 2 ^ 52 + f * 2 ^ 29)
   else if e =? 0 then if f =? 0 then 0 else (N.log2 f + 874) * 2 ^ 52 + (f - 2 ^ N.log2 f) * 2 ^ (52 - N.log2 f)
   else (e + 896) * 2 ^ 52 + f * 2 ^ 29).

(** ** Packing *)

(** One value of a [struct] format. *)
Inductive packed :=
| Pq (z : Z) | PQ (z : Z) | Pf (d : N) | PB (z : Z) | PI (n : N) | PH (n : N) | Ps (b : bytes).

(** [struct.pack] of one value, little-endian; a value outside its range raises [struct.error]. *)
Definition pack1 (p : packed) : result bytes :=
  match p with
  | Pq z => if fits_signed 64 z then Ok (le_encode 8 (of_signed 64 z)) else Err OtherError
  | PQ z => if ((0 <=? z) && (z <? 2 ^ 64))%Z then Ok (le_encode 8 (Z.to_N z)) else Err OtherError
  | Pf d => match to_single d with Some bits => Ok (le_encode 4 bits) | None => Err OverflowError end
  | PB z => if ((0 <=? z) && (z <? 2 ^ 8))%Z then Ok (le_encode 1 (Z.to_N z)) else Err OtherError
  | PI n => if n <? 2 ^ 32 then Ok (le_encode 4 n) else Err OtherError
  | PH n => if n <? 2 ^ 16 then Ok (le_encode 2 n) else Err OtherError
  | Ps b => Ok b
  end.

Fixpoint pack (ps : list packed) : result bytes :=
  match ps with
  | [] => Ok []
  | p :: ps => b ← pack1 p; rest ← pack ps; Ok (b ++ rest)
  end.

Definition blen (b : bytes) : N := N.of_nat (length b).

(** The elements of a [list_string] field, and the offset after them. *)
Fixpoint string_items (l : list pystr) (off : N) : result (list packed * N) :=
  match l with
  | [] => Ok ([], off)
  | item :: l =>
      b ← utf8_encode item;
      if STRING_MAX_UINT16_LENGTH <? blen b then Err ValueError
      else '(ps, off') ← string_items l (off + (UINT16_SIZE + blen b)); Ok (PH (blen b) :: Ps b :: ps, off')
  end.

(** The branches of the loop of [serialize]: the value of the slot, the values appended
    to the variable region, and the next variable offset.  Values of other types than
    the field's are outside the typed rows of the model. *)
Definition serialize_field (t : FieldType) (value : cell) (voff : N) : result (packed * list packed * N) :=
  match t, value with
  | int64, CInt z => Ok (Pq z, [], voff)
  | uint64, CInt z => Ok (PQ z, [], voff)
  | float32, CFloat d => Ok (Pf d, [], voff)
  | int64, CBool b => Ok (Pq (Z.b2z b), [], voff)
  | uint64, CBool b => Ok (PQ (Z.b2z b), [], voff)
  | boolean, CBool b => Ok (PB (Z.b2z b), [], voff)
  | boolean, CInt z => Ok (PB z, [], voff)
  | string_, CStr s =>
      b ← utf8_encode s;
      if STRING_MAX_UINT16_LENGTH <? blen b then Err ValueError
      else Ok (PI voff, [PH (blen b); Ps b], voff + UINT16_SIZE + blen b)
  | binary, CBytes b => Ok (PI voff, [PI (blen b); Ps b], voff + UINT32_SIZE + blen b)
  | text, CStr s => b ← utf8_encode s; Ok (PI voff, [PI (blen b); Ps b], voff + UINT32_SIZE + blen b)
  | list_int64, CInts l =>
      Ok (PI voff, PH (N.of_nat (length l)) :: (Pq <$> l), voff + (UINT16_SIZE + N.of_nat (length l) * INT64_SIZE))
  | list_float32, CFloats l =>
      Ok (PI voff, PH (N.of_nat (length l)) :: (Pf <$> l), voff + (UINT16_SIZE + N.of_nat (length l) * FLOAT32_SIZE))
  | list_string, CStrs l =>
      '(ps, off) ← string_items l (voff + UINT16_SIZE);
      Ok (PI voff, PH (N.of_nat (length l)) :: ps, off)
  | _, _ => Err TypeError
  end.

Abbreviation row := (list (pystr * cell)).

(** [row_data[name] if name in row_data else default]. *)
Definition row_value (r : row) (m : FieldMeta) : cell := default (default_value m) (dict_get r (fm_name m)).

Fixpoint serialize_loop (orders : list (option FieldMeta)) (r : row) (fix_vals var_vals : list packed) (voff : N)
    : result (list packed * list packed) :=
  match orders with
  | [] => Ok (fix_vals, var_vals)
  | None :: _ => Err OtherError
  | Some m :: orders =>
      '(f, vs, voff') ← serialize_field (data_type m) (row_value r m) voff;
      serialize_loop orders r (fix_vals ++ [f]) (var_vals ++ vs) voff'
  end.

Definition serialize (s : Schema) (r : row) : result bytes :=
  '(fix_vals, var_vals) ← serialize_loop (field_orders s) r [] [] (total_byte_length s);
  if (255 <? length (field_orders s))%nat then Err ValueError
  else body ← pack (fix_vals ++ var_vals); Ok (N.of_nat (length (field_orders s)) :: body).

(** ** Reading *)

(** [data[a : a + n]]. *)
Definition slice (data : bytes) (a n : N) : bytes := take (N.to_nat n) (drop (N.to_nat a) data).

(** [struct.unpack_from] of one unsigned integer of [k] bytes. *)
Definition unpack_uint (k : nat) (data : bytes) (off : N) : result N :=
  if off + N.of_nat k <=? blen data then Ok (le_decode (slice data off (N.of_nat k))) else Err OtherError.

Fixpoint unpack_ints (n : nat) (data : bytes) (off : N) : result (list Z) :=
  match n with
  | O => Ok []
  | S n => v ← unpack_uint 8 data off; vs ← unpack_ints n data (off + 8); Ok (to_signed 64 v :: vs)
  end.

Fixpoint unpack_floats (n : nat) (data : bytes) (off : N) : result (list N) :=
  match n with
  | O => Ok []
  | S n => v ← unpack_uint 4 data off; vs ← unpack_floats n data (off + 4); Ok (of_single v :: vs)
  end.

Fixpoint unpack_strings (n : nat) (data : bytes) (off : N) : result (list pystr) :=
  match n with
  | O => Ok []
  | S n =>
      len ← unpack_uint 2 data off;
      s ← utf8_decode (slice data (off + UINT16_SIZE) len);
      vs ← unpack_strings n data (off + UINT16_SIZE + len); Ok (s :: vs)
  end.

Definition read_field (m : FieldMeta) (data : bytes) : result cell :=
  match data_type m with
  | int64 => v ← unpack_uint 8 data (offset m); Ok (CInt (to_signed 64 v))
  | uint64 => v ← unpack_uint 8 data (offset m); Ok (CInt (Z.of_N v))
  | float32 => v ← unpack_uint 4 data (offset m); Ok (CFloat (of_single v))
  | boolean => match data !! N.to_nat (offset m) with Some b => Ok (CBool (negb (b =? 0))) | None => Err OtherError end
  | string_ =>
      off ← unpack_uint 4 data (offset m); len ← unpack_uint 2 data off;
      s ← utf8_decode (slice data (off + UINT16_SIZE) len); Ok (CStr s)
  | binary =>
      off ← unpack_uint 4 data (offset m); len ← unpack_uint 4 data off;
      Ok (CBytes (slice data (off + UINT32_SIZE) len))
  | text =>
      off ← unpack_uint 4 data (offset m); len ← unpack_uint 4 data off;
      s ← utf8_decode (slice data (off + UINT32_SIZE) len); Ok (CStr s)
  | list_string =>
      off ← unpack_uint 4 data (offset m); len ← unpack_uint 2 data off;
      l ← unpack_strings (N.to_nat len) data (off + UINT16_SIZE); Ok (CStrs l)
  | list_int64 =>
      off ← unpack_uint 4 data (offset m); len ← unpack_uint 2 data off;
      l ← unpack_ints (N.to_nat len) data (off + UINT16_SIZE); Ok (CInts l)
  | list_float32 =>
      off ← unpack_uint 4 data (offset m); len ← unpack_uint 2 data off;
      l ← unpack_floats (N.to_nat len) data (off + UINT16_SIZE); Ok (CFloats l)
  end.

Definition deserialize_field (s : Schema) (data : bytes) (name : pystr) : result cell :=
  m ← get_field_meta s name;
  match data with
  | [] => Err OtherError
  | n :: _ => if n <=? N.of_nat (fm_id m) then Ok (default_value m) else read_field m data
  end.

Fixpoint deserialize_loop (s : Schema) (orders : list (option FieldMeta)) (data : bytes) (acc : row) : result row :=
  match orders with
  | [] => Ok acc
  | None :: _ => Err OtherError
  | Some m :: orders =>
      v ← deserialize_field s data (fm_name m);
      deserialize_loop s orders data (dict_set acc (fm_name m) v)
  end.

Definition deserialize (s : Schema) (data : bytes) : result row := deserialize_loop s (field_orders s) data [].
