(* ===== verification/BytesRowTheory.v ===== *)
(** The row format ([BytesRow]) round-trips, also when the schema has grown since the row
    was written. *)
From Stdlib Require Import NArith ZArith.
From S2P Require Import Prelude PyStr PyVal PyBytes BytesRow.

Open Scope N_scope.

(** ** Schemas whose ids count the fields *)

Definition slot_size (t : FieldType) : N := fst (type_info t).

Definition meta_of (off : N) (f : field) : FieldMeta :=
  MkMeta (f_name f) (f_type f) off (f_id f) (default (snd (type_info (f_type f))) (f_default f)).

Fixpoint metas_from (off : N) (fs : list field) : list FieldMeta :=
  match fs with [] => [] | f :: fs => meta_of off f :: metas_from (off + slot_size (f_type f)) fs end.

Fixpoint end_off (off : N) (fs : list field) : N :=
  match fs with [] => off | f :: fs => end_off (off + slot_size (f_type f)) fs end.

(** The ids are the positions, starting at [k]. *)
Fixpoint counted (k : nat) (fs : list field) : Prop :=
  match fs with [] => True | f :: fs => f_id f = k /\ counted (S k) fs end.

Definition schema_of (fs : list field) : Schema :=
  MkSchema ((fun m => (fm_name m, m)) <$> metas_from 1 fs) (Some <$> metas_from 1 fs) (end_off 1 fs).

Lemma schema_loop_counted fs done off :
  NoDup (fm_name <$> done) -> NoDup (f_name <$> fs) -> (forall f, f ∈ fs -> f_name f ∉ (fm_name <$> done)) ->
  counted (length done) fs ->
  schema_loop fs ((fun m => (fm_name m, m)) <$> done) ((Some <$> done) ++ replicate (length fs) None) off
  = Ok (MkSchema ((fun m => (fm_name m, m)) <$> (done ++ metas_from off fs)) (Some <$> (done ++ metas_from off fs)) (end_off off fs)).
Proof.
  revert done off. induction fs as [|f fs IH]; intros done off Hd Hn Hf Hc; cbn [schema_loop metas_from end_off].
  { cbn. by rewrite !app_nil_r. }
  destruct Hc as [Hid Hc]. rewrite fmap_cons in Hn. apply NoDup_cons in Hn as [Hni Hn].
  unfold slot_size. destruct (type_info (f_type f)) as [sz dv] eqn:E. cbn [fst].
  rewrite Hid, length_app, !length_fmap, length_replicate.
  rewrite (proj2 (Nat.ltb_lt _ _)) by (cbn [length]; lia).
  rewrite dict_set_fresh.
  2: { rewrite <- list_fmap_compose. apply (Hf f). by left. }
  replace (MkMeta (f_name f) (f_type f) off (length done) (default dv (f_default f))) with (meta_of off f)
    by (unfold meta_of; by rewrite E, Hid).
  rewrite insert_app_r_alt by (rewrite length_fmap; lia). rewrite length_fmap, Nat.sub_diag. cbn [replicate length].
  change (<[0%nat:=Some (meta_of off f)]> (None :: replicate (length fs) None)) with (Some (meta_of off f) :: replicate (length fs) None).
  assert (((fun m => (fm_name m, m)) <$> done) ++ [(f_name f, meta_of off f)] = (fun m => (fm_name m, m)) <$> (done ++ [meta_of off f])) as ->
    by (by rewrite fmap_app).
  assert ((Some <$> done) ++ Some (meta_of off f) :: replicate (length fs) None = (Some <$> (done ++ [meta_of off f])) ++ replicate (length fs) None) as ->
    by (by rewrite fmap_app, <- app_assoc).
  replace (done ++ meta_of off f :: metas_from (off + sz) fs) with ((done ++ [meta_of off f]) ++ metas_from (off + sz) fs)
    by (by rewrite <- app_assoc).
  apply IH; [|done| |rewrite length_app; cbn [length]; by rewrite Nat.add_1_r].
  - rewrite fmap_app. apply NoDup_app. split_and!; [done| |apply NoDup_singleton].
    intros x Hx ->%list_elem_of_singleton. eapply Hf; [by left|done].
  - intros g Hg. rewrite fmap_app, not_elem_of_app. split; [apply Hf; by right|].
    intros Hx%list_elem_of_singleton. cbn [meta_of fm_name] in Hx. apply Hni. rewrite <- Hx. by apply list_elem_of_fmap_2.
Qed.

Lemma new_schema_counted fs : NoDup (f_name <$> fs) -> counted 0 fs -> new_schema fs = Ok (schema_of fs).
Proof.
  intros Hn Hc. unfold new_schema. apply (schema_loop_counted fs [] 1); [constructor|done| |done].
  intros f _. apply not_elem_of_nil.
Qed.

(** ** Sizes *)

Definition psize (p : packed) : N :=
  match p with Pq _ | PQ _ => 8 | Pf _ | PI _ => 4 | PB _ => 1 | PH _ => 2 | Ps b => blen b end.
Fixpoint psizes (ps : list packed) : N := match ps with [] => 0 | p :: ps => psize p + psizes ps end.

Lemma psizes_app a b : psizes (a ++ b) = psizes a + psizes b.
Proof. induction a as [|p a IH]; [done|]. cbn [app psizes]. lia. Qed.

Lemma blen_app a b : blen (a ++ b) = blen a + blen b.
Proof. unfold blen. rewrite length_app. lia. Qed.

Lemma blen_encode k n : blen (le_encode k n) = N.of_nat k.
Proof. unfold blen. by rewrite length_le_encode. Qed.

Lemma pack1_size p b : pack1 p = Ok b -> blen b = psize p.
Proof. destruct p; cbn [pack1 psize]; repeat case_match; intros [= <-]; try done; by rewrite blen_encode. Qed.

Lemma pack_size ps b : pack ps = Ok b -> blen b = psizes ps.
Proof.
  revert b. induction ps as [|p ps IH]; intros b; cbn [pack psizes]; [by intros [= <-]|].
  destruct (pack1 p) as [b1|] eqn:E1; [|done]. destruct (pack ps) as [b2|]; [|done]. intros [= <-].
  rewrite blen_app, (pack1_size _ _ E1), (IH b2); done.
Qed.

Lemma pack_app a b : pack (a ++ b) = (x ← pack a; y ← pack b; Ok (x ++ y)).
Proof.
  induction a as [|p a IH]; cbn [app pack]; [by destruct (pack b)|]. rewrite IH.
  destruct (pack1 p); [|done]. cbn. destruct (pack a); [|done]. cbn. destruct (pack b); [|done]. cbn. by rewrite app_assoc.
Qed.

Lemma string_items_size l off ps off' : string_items l off = Ok (ps, off') -> off' = off + psizes ps.
Proof.
  revert off ps off'. induction l as [|s l IH]; intros off ps off'; cbn [string_items].
  - intros [= <- <-]. cbn. lia.
  - destruct (utf8_encode s) as [b|]; [|done]. cbn. destruct (_ <? _); [done|].
    destruct (string_items l _) as [[ps' o']|] eqn:E; [|done]. intros [= <- <-]. apply IH in E. cbn [psizes psize]. unfold UINT16_SIZE in *. lia.
Qed.

Lemma psizes_fmap {A} (f : A -> packed) (l : list A) k : (forall x, psize (f x) = k) -> psizes (f <$> l) = N.of_nat (length l) * k.
Proof. intros H. induction l as [|x l IH]; [done|]. rewrite fmap_cons. cbn [psizes length]. rewrite H, IH. lia. Qed.

(** A field occupies its slot, and advances the variable offset by what it appends. *)
Lemma serialize_field_size t v voff f vs voff' :
  serialize_field t v voff = Ok (f, vs, voff') -> psize f = slot_size t /\ voff' = voff + psizes vs.
Proof.
  destruct t, v; cbn [serialize_field]; try done; try (intros [= <- <- <-]; split; [done|cbn [psizes psize]; unfold UINT32_SIZE, INT64_SIZE, FLOAT32_SIZE, UINT16_SIZE; try rewrite (psizes_fmap _ _ 8) by done; try rewrite (psizes_fmap _ _ 4) by done; lia]).
  - destruct (utf8_encode s); [|done]. cbn. destruct (_ <? _); [done|]. intros [= <- <- <-]. split; [done|]. cbn [psizes psize]. unfold UINT16_SIZE. lia.
  - destruct (string_items l _) as [[ps o]|] eqn:E; [|done]. cbn. intros [= <- <- <-]. apply string_items_size in E.
    split; [done|]. cbn [psizes psize]. unfold UINT16_SIZE in *. lia.
  - destruct (utf8_encode s); [|done]. cbn. intros [= <- <- <-]. split; [done|]. cbn [psizes psize]. unfold UINT32_SIZE. lia.
Qed.

(** ** Floats *)

Lemma to_single_bound d n : to_single d = Some n -> n < 2 ^ 32.
Proof.
  unfold to_single. cbv zeta. match goal with |- _ <$> ?o = _ -> _ => destruct o as [b|]; [|done] end. cbn [fmap option_fmap option_map]. intros [= <-].
  pose proof (N.mod_upper_bound b (2 ^ 31) ltac:(done)). pose proof (N.mod_upper_bound (d / 2 ^ 63) 2 ltac:(done)). unfold dbl_sign. lia.
Qed.

(** The fields of a number put together. *)
Lemma digits (p q s e f : N) : s < 2 -> e < 2 ^ p -> f < 2 ^ q ->
  let n := s * 2 ^ (p + q) + e * 2 ^ q + f in (n / 2 ^ (p + q)) mod 2 = s /\ (n / 2 ^ q) mod 2 ^ p = e /\ n mod 2 ^ q = f.
Proof.
  intros Hs He Hf n. assert (2 ^ q <> 0 /\ 2 ^ p <> 0 /\ 2 ^ (p + q) <> 0) as (Hq & Hp & Hpq) by (split_and!; by apply N.pow_nonzero).
  assert (n / 2 ^ q = s * 2 ^ p + e) as E1.
  { symmetry. apply (N.div_unique _ _ _ f); [done|]. unfold n. rewrite N.pow_add_r. ring. }
  split_and!.
  - rewrite N.pow_add_r, N.mul_comm, <- N.Div0.div_div, E1. rewrite N.div_add_l, (N.div_small e), N.add_0_r by done. by apply N.mod_small.
  - rewrite E1, N.add_comm, N.Div0.mod_add. by apply N.mod_small.
  - symmetry. apply (N.mod_unique _ _ (s * 2 ^ p + e)); [done|]. unfold n. rewrite N.pow_add_r. ring.
Qed.

Lemma dbl_digits s e f : s < 2 -> e < 2 ^ 11 -> f < 2 ^ 52 -> let d := s * 2 ^ 63 + (e * 2 ^ 52 + f) in dbl_sign d = s /\ dbl_exp d = e /\ dbl_frac d = f.
Proof. intros Hs He Hf. cbn zeta. rewrite N.add_assoc. exact (digits 11 52 s e f Hs He Hf). Qed.

(** No rounding is needed for multiples. *)
Lemma round_shift_exact m s : 0 < s -> round_shift (m * 2 ^ s) s = m.
Proof.
  intros Hs. unfold round_shift. assert (2 ^ s <> 0) as Hz by by apply N.pow_nonzero. rewrite N.div_mul, N.Div0.mod_mul by done.
  assert (0 < 2 ^ (s - 1)) as Hp by (apply N.neq_0_lt_0; by apply N.pow_nonzero).
  destruct (N.ltb_spec (2 ^ (s - 1)) 0); [lia|]. destruct (N.eqb_spec (2 ^ (s - 1)) 0); [lia|done].
Qed.

(** A double that is a single-precision number, infinities included. *)
Definition is_nan_single (b : N) : bool := ((b / 2 ^ 23) mod 2 ^ 8 =? 255) && negb (b mod 2 ^ 23 =? 0).
Definition single_precision (d : N) : Prop := exists b, b < 2 ^ 32 /\ is_nan_single b = false /\ d = of_single b.

Lemma to_single_fields s e f : s < 2 -> e < 2047 -> f < 2 ^ 52 -> narrow_finite e f < 255 * 2 ^ 23 ->
  to_single (s * 2 ^ 63 + (e * 2 ^ 52 + f)) = Some (s * 2 ^ 31 + narrow_finite e f).
Proof.
  intros Hs He Hf Hn. destruct (dbl_digits s e f Hs ltac:(lia) Hf) as (E1 & E2 & E3). unfold to_single. rewrite E1, E2, E3.
  destruct (N.eqb_spec e 2047); [lia|]. destruct (N.ltb_spec (narrow_finite e f) (255 * 2 ^ 23)); [|lia]. cbn [fmap option_fmap option_map].
  by rewrite (N.mod_small (narrow_finite e f)) by lia.
Qed.

Lemma narrow_normal e f : 0 < e -> narrow_finite (e + 896) (f * 2 ^ 29) = e * 2 ^ 23 + f.
Proof.
  intros He. unfold narrow_finite. destruct (N.leb_spec 897 (e + 896)); [|lia].
  replace (2 ^ 52 + f * 2 ^ 29) with ((2 ^ 23 + f) * 2 ^ 29) by lia. rewrite round_shift_exact by done. lia.
Qed.

Lemma narrow_subnormal f : 0 < f -> f < 2 ^ 23 -> narrow_finite (N.log2 f + 874) ((f - 2 ^ N.log2 f) * 2 ^ (52 - N.log2 f)) = f.
Proof.
  intros Hf Hlt. destruct (N.log2_spec f Hf) as [Hl _]. set (k := N.log2 f) in *. assert (k < 23) as Hk by (apply N.log2_lt_pow2; done).
  unfold narrow_finite. destruct (N.leb_spec 897 (k + 874)); [lia|]. destruct (N.eqb_spec (k + 874) 0); [lia|].
  assert (2 ^ 52 = 2 ^ k * 2 ^ (52 - k)) as E by (rewrite <- N.pow_add_r; f_equal; lia).
  replace (926 - (k + 874)) with (52 - k) by lia.
  replace (2 ^ 52 + (f - 2 ^ k) * 2 ^ (52 - k)) with (f * 2 ^ (52 - k)); [apply round_shift_exact; lia|].
  rewrite E, <- N.mul_add_distr_r. f_equal. lia.
Qed.

Lemma single_exact b : b < 2 ^ 32 -> is_nan_single b = false -> to_single (of_single b) = Some b.
Proof.
  intros Hb Hnan. unfold is_nan_single, of_single in *. set (s := (b / 2 ^ 31) mod 2) in *. set (e := (b / 2 ^ 23) mod 2 ^ 8) in *. set (f := b mod 2 ^ 23) in *.
  assert (s < 2) as Hs by by apply N.mod_upper_bound. assert (e < 2 ^ 8) as He by by apply N.mod_upper_bound. assert (f < 2 ^ 23) as Hf by by apply N.mod_upper_bound.
  assert (b = s * 2 ^ 31 + (e * 2 ^ 23 + f)) as Eb.
  { pose proof (N.div_mod b (2 ^ 23) ltac:(done)) as E1. pose proof (N.div_mod (b / 2 ^ 23) (2 ^ 8) ltac:(done)) as E2. fold f in E1. fold e in E2.
    rewrite N.Div0.div_div in E2. change (2 ^ 23 * 2 ^ 8) with (2 ^ 31) in E2.
    assert (s = b / 2 ^ 31) as -> by (apply N.mod_small, N.Div0.div_lt_upper_bound; lia). lia. }
  clearbody s e f. destruct (N.eqb_spec e 255) as [->|He'].
  - destruct (N.eqb_spec f 0) as [Ef|]; [|done]. rewrite Eb, Ef. clear - Hs. assert (s = 0 \/ s = 1) as [->| ->] by lia; by vm_compute.
  - destruct (N.eqb_spec e 0) as [->|He0]; [destruct (N.eqb_spec f 0) as [Ef|Hf0]|].
    + rewrite Eb, Ef. clear - Hs. assert (s = 0 \/ s = 1) as [->| ->] by lia; by vm_compute.
    + assert (N.log2 f < 23) as Hk by (apply N.log2_lt_pow2; lia). destruct (N.log2_spec f ltac:(lia)) as [Hl1 Hl2].
      assert ((f - 2 ^ N.log2 f) * 2 ^ (52 - N.log2 f) < 2 ^ 52) as Hm.
      { replace (2 ^ 52) with (2 ^ N.log2 f * 2 ^ (52 - N.log2 f)) by (rewrite <- N.pow_add_r; f_equal; lia).
        apply N.mul_lt_mono_pos_r; [apply N.neq_0_lt_0, N.pow_nonzero; done|]. rewrite N.pow_succ_r' in Hl2. lia. }
      rewrite to_single_fields; rewrite ?narrow_subnormal by lia; [by rewrite Eb|done|lia|done|lia].
    + rewrite to_single_fields; rewrite ?narrow_normal by lia; [by rewrite Eb|done|lia|lia|lia].
Qed.

(** ** Reading back *)

Lemma slice_at a x c n : blen a = n -> slice (a ++ x ++ c) n (blen x) = x.
Proof.
  intros <-. unfold slice, blen. rewrite !Nat2N.id, drop_app_length. apply take_app_length.
Qed.

Lemma unpack_at k a x c off : blen a = off -> length x = k -> unpack_uint k (a ++ x ++ c) off = Ok (le_decode x).
Proof.
  intros Ha Hk. unfold unpack_uint. rewrite !blen_app, Ha. unfold blen at 1. rewrite Hk.
  rewrite (proj2 (N.leb_le _ _)) by lia. replace (N.of_nat k) with (blen x) by (unfold blen; by rewrite Hk). by rewrite slice_at.
Qed.

Lemma unpack_encoded k n a c off : blen a = off -> n < 256 ^ N.of_nat k -> unpack_uint k (a ++ le_encode k n ++ c) off = Ok n.
Proof. intros Ha Hn. rewrite unpack_at; [by rewrite le_roundtrip|done|apply length_le_encode]. Qed.

Lemma pack_PI n b : pack1 (PI n) = Ok b -> n < 256 ^ N.of_nat 4 /\ b = le_encode 4 n.
Proof. cbn [pack1]. destruct (N.ltb_spec n (2 ^ 32)); [|done]. intros [= <-]. by change (256 ^ N.of_nat 4) with (2 ^ 32). Qed.

Lemma pack_PH n b : pack1 (PH n) = Ok b -> n < 256 ^ N.of_nat 2 /\ b = le_encode 2 n.
Proof. cbn [pack1]. destruct (N.ltb_spec n (2 ^ 16)); [|done]. intros [= <-]. by change (256 ^ N.of_nat 2) with (2 ^ 16). Qed.

Lemma pack_Pq z b : pack1 (Pq z) = Ok b -> fits_signed 64 z = true /\ b = le_encode 8 (of_signed 64 z).
Proof. cbn [pack1]. destruct (fits_signed 64 z); [|done]. by intros [= <-]. Qed.

(** What a float reads back as. *)
Definition narrowed (d : N) : N := from_option of_single d (to_single d).

Lemma pack_Pf d b : pack1 (Pf d) = Ok b -> exists n, n < 256 ^ N.of_nat 4 /\ b = le_encode 4 n /\ narrowed d = of_single n.
Proof.
  cbn [pack1]. unfold narrowed. destruct (to_single d) as [n|] eqn:E; [|done]. intros [= <-]. exists n. split_and!; [|done|done].
  change (256 ^ N.of_nat 4) with (2 ^ 32). by apply to_single_bound in E.
Qed.

Lemma pack_cons_inv p ps b : pack (p :: ps) = Ok b -> exists b1 b2, pack1 p = Ok b1 /\ pack ps = Ok b2 /\ b = b1 ++ b2.
Proof.
  cbn [pack]. destruct (pack1 p) as [b1|]; [|done]. destruct (pack ps) as [b2|]; [|done]. intros [= <-]. by exists b1, b2.
Qed.

Lemma pack_Ps b x : pack [Ps b] = Ok x -> x = b.
Proof. cbn. intros [= <-]. apply app_nil_r. Qed.

(** A length-prefixed run of bytes. *)
Lemma read_prefixed (k : nat) (w : N -> packed) a c b x off :
  (forall n y, pack1 (w n) = Ok y -> n < 256 ^ N.of_nat k /\ y = le_encode k n) ->
  pack [w (blen b); Ps b] = Ok x -> blen a = off ->
  unpack_uint k (a ++ x ++ c) off = Ok (blen b) /\ slice (a ++ x ++ c) (off + N.of_nat k) (blen b) = b.
Proof.
  intros Hw (y & z & Hy & Hz & ->)%pack_cons_inv Ha. apply Hw in Hy as [Hlt ->]. apply pack_Ps in Hz as ->.
  rewrite <- app_assoc. split; [by apply unpack_encoded|]. rewrite app_assoc. apply slice_at. by rewrite blen_app, blen_encode, Ha.
Qed.

Lemma unpack_ints_ok l a x c off :
  pack (Pq <$> l) = Ok x -> blen a = off -> unpack_ints (length l) (a ++ x ++ c) off = Ok l.
Proof.
  revert a x off. induction l as [|z l IH]; intros a x off Hx Ha; [done|]. rewrite fmap_cons in Hx.
  apply pack_cons_inv in Hx as (y & r & Hy & Hr & ->). apply pack_Pq in Hy as [Ef ->].
  cbn [length unpack_ints]. rewrite <- app_assoc, unpack_encoded by (done || apply of_signed_lt). cbn [mbind result_bind].
  rewrite app_assoc, (IH _ _ _ Hr) by (by rewrite blen_app, blen_encode, Ha). cbn [mbind result_bind]. by rewrite signed_roundtrip.
Qed.

Lemma unpack_floats_ok l a x c off :
  pack (Pf <$> l) = Ok x -> blen a = off -> unpack_floats (length l) (a ++ x ++ c) off = Ok (narrowed <$> l).
Proof.
  revert a x off. induction l as [|z l IH]; intros a x off Hx Ha; [done|]. rewrite fmap_cons in Hx.
  apply pack_cons_inv in Hx as (y & r & Hy & Hr & ->). apply pack_Pf in Hy as (n & Hn & -> & Enar).
  cbn [length unpack_floats]. rewrite <- app_assoc, unpack_encoded by done. cbn [mbind result_bind]. rewrite fmap_cons, Enar.
  by rewrite app_assoc, (IH _ _ _ Hr) by (by rewrite blen_app, blen_encode, Ha).
Qed.

Lemma unpack_strings_ok l o ps o' a x c off :
  string_items l o = Ok (ps, o') -> pack ps = Ok x -> blen a = off -> unpack_strings (length l) (a ++ x ++ c) off = Ok l.
Proof.
  revert o ps o' a x off. induction l as [|s l IH]; intros o ps o' a x off; cbn [string_items]; [done|].
  destruct (utf8_encode s) as [b|] eqn:Eb; [|done]. cbn [mbind result_bind]. destruct (_ <? _); [done|].
  destruct (string_items l _) as [[ps' o1]|] eqn:E; [|done]. intros [= <- <-] Hx Ha.
  change (PH (blen b) :: Ps b :: ps') with ([PH (blen b); Ps b] ++ ps') in Hx. rewrite pack_app in Hx.
  destruct (pack [PH (blen b); Ps b]) as [y|] eqn:Ey; [|done]. destruct (pack ps') as [r|] eqn:Er; [|done]. injection Hx as <-.
  cbn [length unpack_strings]. rewrite <- app_assoc.
  destruct (read_prefixed 2 PH a (r ++ c) b y off) as [-> Hs]; [apply pack_PH|done|done|]. cbn [mbind result_bind].
  unfold UINT16_SIZE. change 2 with (N.of_nat 2). rewrite Hs, (utf8_roundtrip s b Eb). cbn [mbind result_bind].
  rewrite app_assoc, (IH _ _ _ _ _ _ E Er); [done|]. rewrite blen_app, Ha, (pack_size _ _ Ey). cbn [psizes psize]. lia.
Qed.

(** What a value reads back as: floats are rounded to single precision, integers in
    boolean fields and booleans in integer fields change their type. *)
Definition stored_as (t : FieldType) (v : cell) : cell :=
  match t, v with
  | int64, CBool b | uint64, CBool b => CInt (Z.b2z b)
  | boolean, CInt z => CBool (negb (z =? 0)%Z)
  | float32, CFloat d => CFloat (narrowed d)
  | list_float32, CFloats l => CFloats (narrowed <$> l)
  | _, v => v
  end.

(** A value of the field's own type; a float, if it has single precision. *)
Definition exact_cell (t : FieldType) (v : cell) : Prop :=
  match t, v with
  | int64, CInt _ | uint64, CInt _ | boolean, CBool _ | string_, CStr _ | text, CStr _ | binary, CBytes _ | list_int64, CInts _ | list_string, CStrs _ => True
  | float32, CFloat d => single_precision d
  | list_float32, CFloats l => Forall single_precision l
  | _, _ => False
  end.

Lemma narrowed_exact d : single_precision d -> narrowed d = d.
Proof. intros (b & Hb & Hn & ->). unfold narrowed. by rewrite single_exact. Qed.

Lemma exact_stored t v : exact_cell t v -> stored_as t v = v.
Proof.
  destruct t, v as [z|d|s|b|b|l|l|l]; cbn; try done; intros H; f_equal; [by apply narrowed_exact|].
  induction H as [|d l Hd _ IH]; [done|]. by rewrite fmap_cons, narrowed_exact, IH.
Qed.

Section read_one.
Context (m : FieldMeta) (v : cell) (voff voff' : N) (f : packed) (vs : list packed) (pre bf mid bvs post : bytes).
Context (Hpre : blen pre = offset m) (Hf : pack1 f = Ok bf) (Hvs : pack vs = Ok bvs).
Context (Hvoff : blen (pre ++ bf ++ mid) = voff).

Abbreviation data := (pre ++ bf ++ mid ++ bvs ++ post).

Lemma data_var : data = (pre ++ bf ++ mid) ++ bvs ++ post.
Proof. by rewrite <- !app_assoc. Qed.

Lemma read_offset : f = PI voff -> unpack_uint 4 data (offset m) = Ok voff.
Proof. intros ->. apply pack_PI in Hf as [Hlt ->]. by apply unpack_encoded. Qed.

Lemma read_len k (w : N -> packed) b : f = PI voff -> vs = [w (blen b); Ps b] ->
  (forall n y, pack1 (w n) = Ok y -> n < 256 ^ N.of_nat k /\ y = le_encode k n) ->
  unpack_uint 4 data (offset m) = Ok voff /\ unpack_uint k data voff = Ok (blen b)
  /\ slice data (voff + N.of_nat k) (blen b) = b.
Proof.
  intros E1 E2 Hw. split; [by apply read_offset|]. rewrite data_var. rewrite E2 in Hvs. by apply (read_prefixed k w).
Qed.

(** The head of a list value. *)
Lemma read_head n ps : f = PI voff -> vs = PH n :: ps ->
  exists r, pack ps = Ok r /\ unpack_uint 4 data (offset m) = Ok voff /\ unpack_uint 2 data voff = Ok n
    /\ data = ((pre ++ bf ++ mid) ++ le_encode 2 n) ++ r ++ post
    /\ blen ((pre ++ bf ++ mid) ++ le_encode 2 n) = voff + UINT16_SIZE.
Proof.
  intros E1 E2. rewrite E2 in Hvs. apply pack_cons_inv in Hvs as (y & r & Hy & Hr & Hb). apply pack_PH in Hy as [Hlt ->].
  exists r. split_and!; [done|by apply read_offset| | |by rewrite blen_app, blen_encode, Hvoff].
  - rewrite data_var, Hb, <- (app_assoc (le_encode 2 n) r post). by apply unpack_encoded.
  - rewrite data_var, Hb. by rewrite <- !app_assoc.
Qed.

Lemma read_int z : f = Pq z -> (x ← unpack_uint 8 data (offset m); Ok (CInt (to_signed 64 x))) = Ok (CInt z).
Proof.
  intros ->. apply pack_Pq in Hf as [Hfit ->]. rewrite unpack_encoded by (done || apply of_signed_lt).
  cbn [mbind result_bind]. by rewrite signed_roundtrip.
Qed.

Lemma read_uint z : f = PQ z -> (x ← unpack_uint 8 data (offset m); Ok (CInt (Z.of_N x))) = Ok (CInt z).
Proof.
  intros E. rewrite E in Hf. cbn [pack1] in Hf.
  destruct ((0 <=? z) && (z <? 2 ^ 64))%Z eqn:Hz; [|done]. apply andb_true_iff in Hz as [Hz1%Z.leb_le Hz2%Z.ltb_lt].
  assert (bf = le_encode 8 (Z.to_N z)) as -> by congruence.
  rewrite unpack_encoded; [|done|change (256 ^ N.of_nat 8) with (2 ^ 64); lia]. cbn [mbind result_bind]. do 2 f_equal. lia.
Qed.

Lemma read_bool z : f = PB z ->
  match data !! N.to_nat (offset m) with Some b => Ok (CBool (negb (b =? 0))) | None => Err OtherError end = Ok (CBool (negb (z =? 0)%Z)).
Proof.
  intros E. rewrite E in Hf. cbn [pack1] in Hf.
  destruct ((0 <=? z) && (z <? 2 ^ 8))%Z eqn:Hz; [|done]. apply andb_true_iff in Hz as [Hz1%Z.leb_le Hz2%Z.ltb_lt].
  assert (bf = [Z.to_N z mod 256]) as -> by (cbn [le_encode] in Hf; congruence).
  rewrite <- Hpre. unfold blen. cbn [app]. rewrite Nat2N.id, list_lookup_middle by done. rewrite N.mod_small by lia.
  do 3 f_equal. destruct (Z.eqb_spec z 0), (N.eqb_spec (Z.to_N z) 0); try done; lia.
Qed.

Lemma read_field_ok : serialize_field (data_type m) v voff = Ok (f, vs, voff') -> read_field m data = Ok (stored_as (data_type m) v).
Proof.
  intros Hser. unfold read_field. destruct (data_type m), v as [z|bits|s|b|b|l|l|l]; cbn [serialize_field] in Hser; try done; cbn [stored_as];
    try (injection Hser as Ef Evs _).
  - by apply read_int.
  - by apply read_int.
  - by apply read_uint.
  - by apply read_uint.
  - rewrite <- Ef in Hf. apply pack_Pf in Hf as (n & Hlt & -> & ->). by rewrite unpack_encoded.
  - destruct (utf8_encode s) as [b|] eqn:Eb; [|done]. cbn [mbind result_bind] in Hser. destruct (_ <? _); [done|]. injection Hser as Ef Evs _.
    destruct (read_len 2 PH b) as (-> & Hl & Hs); [done|done|apply pack_PH|]. cbn [mbind result_bind]. rewrite Hl. cbn [mbind result_bind].
    unfold UINT16_SIZE. change 2 with (N.of_nat 2). by rewrite Hs, (utf8_roundtrip s b).
  - destruct (read_len 4 PI b) as (-> & Hl & Hs); [done|done|apply pack_PI|]. cbn [mbind result_bind]. rewrite Hl. cbn [mbind result_bind].
    unfold UINT32_SIZE. change 4 with (N.of_nat 4). by rewrite Hs.
  - by apply read_bool.
  - rewrite (read_bool (Z.b2z b)) by done. by destruct b.
  - destruct (read_head (N.of_nat (length l)) (Pq <$> l)) as (r & Hr & -> & Hn & Hd & Hb); [done|done|].
    cbn [mbind result_bind]. rewrite Hn. cbn [mbind result_bind]. by rewrite Hd, Nat2N.id, (unpack_ints_ok l _ r).
  - destruct (string_items l _) as [[ps o]|] eqn:E; [|done]. cbn [mbind result_bind] in Hser. injection Hser as Ef Evs _.
    destruct (read_head (N.of_nat (length l)) ps) as (r & Hr & -> & Hn & Hd & Hb); [done|done|].
    cbn [mbind result_bind]. rewrite Hn. cbn [mbind result_bind]. by rewrite Hd, Nat2N.id, (unpack_strings_ok l _ ps o _ r _ _ E).
  - destruct (read_head (N.of_nat (length l)) (Pf <$> l)) as (r & Hr & -> & Hn & Hd & Hb); [done|done|].
    cbn [mbind result_bind]. rewrite Hn. cbn [mbind result_bind]. by rewrite Hd, Nat2N.id, (unpack_floats_ok l _ r).
  - destruct (utf8_encode s) as [b|] eqn:Eb; [|done]. cbn [mbind result_bind] in Hser. injection Hser as Ef Evs _.
    destruct (read_len 4 PI b) as (-> & Hl & Hs); [done|done|apply pack_PI|]. cbn [mbind result_bind]. rewrite Hl. cbn [mbind result_bind].
    unfold UINT32_SIZE. change 4 with (N.of_nat 4). by rewrite Hs, (utf8_roundtrip s b).
Qed.
End read_one.

(** ** Whole rows *)

Lemma serialize_loop_spec ms r F V voff F' V' :
  serialize_loop (Some <$> ms) r F V voff = Ok (F', V') ->
  exists parts : list (packed * list packed), length parts = length ms
    /\ F' = F ++ (fst <$> parts) /\ V' = V ++ concat (snd <$> parts)
    /\ forall i m p, ms !! i = Some m -> parts !! i = Some p ->
         exists voff', serialize_field (data_type m) (row_value r m) (voff + psizes (concat (snd <$> take i parts)))
                       = Ok (fst p, snd p, voff').
Proof.
  revert F V voff. induction ms as [|m ms IH]; intros F V voff; cbn [fmap list_fmap serialize_loop].
  - intros [= <- <-]. exists []. rewrite !app_nil_r. by split_and!.
  - destruct (serialize_field _ _ voff) as [[[f vs] voff']|] eqn:E; [|done]. cbn [mbind result_bind]. intros H.
    destruct (IH _ _ _ H) as (parts & Hl & -> & -> & Hp). exists ((f, vs) :: parts). cbn [length fmap list_fmap concat fst snd].
    rewrite <- !app_assoc. split_and!; [by rewrite Hl|done|done|]. intros [|i] m' p; cbn [lookup list_lookup].
    + intros [= <-] [= <-]. cbn [take fmap list_fmap concat psizes fst snd]. rewrite N.add_0_r. eauto.
    + intros Hm Hi. destruct (Hp i m' p Hm Hi) as (o & Ho). exists o. apply serialize_field_size in E as [_ ->].
      cbn [take fmap list_fmap concat snd]. by rewrite psizes_app, N.add_assoc.
Qed.

Lemma metas_from_lookup off fs i m : metas_from off fs !! i = Some m ->
  exists f, fs !! i = Some f /\ m = meta_of (end_off off (take i fs)) f.
Proof.
  revert off i. induction fs as [|f fs IH]; intros off [|i] H; [done|done| |].
  - injection H as <-. by exists f.
  - cbn [metas_from lookup list_lookup] in H. destruct (IH _ _ H) as (g & Hg & ->). by exists g.
Qed.

Lemma metas_from_app off fs gs : metas_from off (fs ++ gs) = metas_from off fs ++ metas_from (end_off off fs) gs.
Proof. revert off. induction fs as [|f fs IH]; intros off; [done|]. cbn [app metas_from end_off]. by rewrite IH. Qed.

Lemma length_metas off fs : length (metas_from off fs) = length fs.
Proof. revert off. induction fs as [|f fs IH]; intros off; [done|]. cbn [metas_from length]. by rewrite IH. Qed.

Lemma metas_names off fs : fm_name <$> metas_from off fs = f_name <$> fs.
Proof. revert off. induction fs as [|f fs IH]; intros off; [done|]. cbn [metas_from]. rewrite !fmap_cons. by rewrite IH. Qed.

Lemma counted_lookup k fs i f : counted k fs -> fs !! i = Some f -> f_id f = (k + i)%nat.
Proof.
  revert k i. induction fs as [|g fs IH]; intros k [|i] Hc Hi; [done|done| |]; destruct Hc as [Hg Hc]; cbn in Hi.
  - injection Hi as <-. lia.
  - rewrite (IH _ _ Hc Hi). lia.
Qed.

(** The fixed region is as long as the schema says. *)
Lemma fixed_size off fs (parts : list (packed * list packed)) r (voffs : nat -> N) :
  length parts = length fs ->
  (forall i m p, metas_from off fs !! i = Some m -> parts !! i = Some p ->
     exists o, serialize_field (data_type m) (row_value r m) (voffs i) = Ok (fst p, snd p, o)) ->
  end_off off fs = off + psizes (fst <$> parts).
Proof.
  revert off parts voffs. induction fs as [|f fs IH]; intros off [|p parts] voffs Hl Hp; [cbn; lia|done|done|].
  injection Hl as Hl. cbn [end_off]. rewrite (IH _ parts (fun i => voffs (S i)) Hl).
  - destruct (Hp 0%nat _ p eq_refl eq_refl) as (o & Ho). apply serialize_field_size in Ho as [Ho _]. rewrite fmap_cons. cbn [psizes].
    cbn [meta_of data_type] in Ho. lia.
  - intros i m q Hm Hq. by apply (Hp (S i)).
Qed.

Lemma deserialize_loop_ok s data (g : FieldMeta -> cell) ms acc :
  NoDup ((fst <$> acc) ++ (fm_name <$> ms)) ->
  (forall m, m ∈ ms -> deserialize_field s data (fm_name m) = Ok (g m)) ->
  deserialize_loop s (Some <$> ms) data acc = Ok (acc ++ ((fun m => (fm_name m, g m)) <$> ms)).
Proof.
  revert acc. induction ms as [|m ms IH]; intros acc Hn Hg; cbn [fmap list_fmap deserialize_loop]; [by rewrite app_nil_r|].
  rewrite Hg by (by left). cbn [mbind result_bind]. rewrite fmap_cons in Hn.
  rewrite dict_set_fresh by (intros Hin; apply NoDup_app in Hn as (_ & Hd & _); eapply Hd; [done|by left]).
  rewrite IH; [by rewrite <- app_assoc| |].
  - rewrite fmap_app, <- app_assoc. done.
  - intros m' Hm'. apply Hg. by right.
Qed.

Lemma get_field_meta_ok fs m : NoDup (f_name <$> fs) -> m ∈ metas_from 1 fs -> get_field_meta (schema_of fs) (fm_name m) = Ok m.
Proof.
  intros Hn Hm. unfold get_field_meta. cbn [schema_of field_metas]. rewrite (dict_get_in _ _ m); [done| |].
  - rewrite <- list_fmap_compose. by rewrite <- (metas_names 1) in Hn.
  - apply list_elem_of_fmap. by exists m.
Qed.

Lemma pack_split a p b x : pack (a ++ p :: b) = Ok x ->
  exists xa xp xb, pack a = Ok xa /\ pack1 p = Ok xp /\ pack b = Ok xb /\ x = xa ++ xp ++ xb.
Proof.
  rewrite pack_app. destruct (pack a) as [xa|]; [|done]. cbn [mbind result_bind].
  destruct (pack (p :: b)) as [y|] eqn:E; [|done]. intros [= <-]. apply pack_cons_inv in E as (xp & xb & Hp & Hb & ->). by exists xa, xp, xb.
Qed.

Lemma pack_app_inv a b x : pack (a ++ b) = Ok x -> exists xa xb, pack a = Ok xa /\ pack b = Ok xb /\ x = xa ++ xb.
Proof. rewrite pack_app. destruct (pack a) as [xa|]; [|done]. destruct (pack b) as [xb|]; [|done]. intros [= <-]. by exists xa, xb. Qed.

(** Each field of a serialised row reads back. *)
Lemma serialized_field fs r data i f m :
  serialize (schema_of fs) r = Ok data -> fs !! i = Some f -> metas_from 1 fs !! i = Some m ->
  read_field m data = Ok (stored_as (f_type f) (row_value r m)).
Proof.
  intros Hser Hi Hm. unfold serialize in Hser. cbn [schema_of field_orders total_byte_length] in Hser.
  destruct (serialize_loop _ r [] [] _) as [[F V]|] eqn:E; [|done]. cbn [mbind result_bind] in Hser.
  destruct (_ <? _)%nat; [done|]. destruct (pack (F ++ V)) as [body|] eqn:Ep; [|done]. cbn [mbind result_bind] in Hser. injection Hser as <-.
  destruct (serialize_loop_spec _ _ _ _ _ _ _ E) as (parts & Hl & EF & EV & Hp). cbn [app] in EF, EV. subst F V.
  rewrite length_metas in Hl.
  pose proof (fixed_size 1 fs parts r _ Hl Hp) as Hfix.
  destruct (parts !! i) as [[pf pvs]|] eqn:Hpi; [|apply lookup_ge_None in Hpi; apply lookup_lt_Some in Hi; lia].
  destruct (Hp i m _ Hm Hpi) as (o & Ho). cbn [fst snd] in Ho.
  pose proof (take_drop_middle _ _ _ Hpi) as Hsplit.
  destruct (metas_from_lookup _ _ _ _ Hm) as (f' & Hf' & Em). rewrite Hi in Hf'. injection Hf' as <-.
  assert (end_off 1 (take i fs) = 1 + psizes (fst <$> take i parts)) as Hoff.
  { apply (fixed_size 1 (take i fs) (take i parts) r (fun j => end_off 1 fs + psizes (concat (snd <$> take j parts)))).
    - rewrite !length_take. lia.
    - intros j m' p' Hm' Hp'. destruct (decide (j < i)%nat) as [Hji|]; [|rewrite lookup_take_ge in Hp' by lia; done].
      rewrite lookup_take_lt in Hp' by done. apply (Hp j); [|done].
      rewrite <- (take_drop i fs), metas_from_app. by apply lookup_app_l_Some. }
  assert (fst <$> parts = (fst <$> take i parts) ++ pf :: (fst <$> drop (S i) parts)) as EF.
  { rewrite <- Hsplit at 1. by rewrite fmap_app, fmap_cons. }
  assert (concat (snd <$> parts) = concat (snd <$> take i parts) ++ pvs ++ concat (snd <$> drop (S i) parts)) as EV.
  { rewrite <- Hsplit at 1. by rewrite fmap_app, fmap_cons, concat_app. }
  apply pack_app_inv in Ep as (bF & bV & HF & HV & ->). pose proof (pack_size _ _ HF) as HsF. rewrite EF in HF. rewrite EV in HV.
  apply pack_split in HF as (b1 & bf & b2 & H1 & Hbf & H2 & ->).
  apply pack_app_inv in HV as (b3 & bv & H3 & HV & ->). apply pack_app_inv in HV as (bvs & b4 & Hbvs & H4 & ->).
  rewrite length_fmap, length_metas.
  replace (N.of_nat (length fs) :: (b1 ++ bf ++ b2) ++ b3 ++ bvs ++ b4)
    with ((N.of_nat (length fs) :: b1) ++ bf ++ (b2 ++ b3) ++ bvs ++ b4) by (cbn [app]; by rewrite <- !app_assoc).
  assert (data_type m = f_type f) as Et by by rewrite Em. rewrite <- Et.
  eapply read_field_ok; [|done|done| |done].
  - rewrite Em. cbn [meta_of offset]. rewrite Hoff, <- (pack_size _ _ H1). unfold blen. cbn [length]. lia.
  - rewrite Hfix, <- HsF, <- (pack_size _ _ H3), !blen_app. unfold blen. cbn [length]. lia.
Qed.

Definition field_default (f : field) : cell := default (snd (type_info (f_type f))) (f_default f).
Definition field_value (r : row) (f : field) : cell := default (field_default f) (dict_get r (f_name f)).

(** The value of each field when a row written with the first fields of a schema is read
    with all of them. *)
Lemma deserialized_field fs gs r data i f m :
  NoDup (f_name <$> fs ++ gs) -> counted 0 (fs ++ gs) -> serialize (schema_of fs) r = Ok data ->
  (fs ++ gs) !! i = Some f -> metas_from 1 (fs ++ gs) !! i = Some m ->
  deserialize_field (schema_of (fs ++ gs)) data (fm_name m)
  = Ok (if (i <? length fs)%nat then stored_as (f_type f) (field_value r f) else field_default f).
Proof.
  intros Hn Hc Hser Hi Hm. unfold deserialize_field.
  rewrite get_field_meta_ok by (done || by eapply list_elem_of_lookup_2). cbn [mbind result_bind].
  assert (exists body, data = N.of_nat (length fs) :: body) as [body Hd].
  { unfold serialize in Hser. destruct (serialize_loop _ _ _ _ _) as [[F V]|]; [|done]. cbn [mbind result_bind] in Hser.
    destruct (_ <? _)%nat; [done|]. destruct (pack _) as [b|]; [|done]. cbn [mbind result_bind] in Hser. injection Hser as <-.
    cbn [schema_of field_orders]. rewrite length_fmap, length_metas. by eexists. }
  rewrite Hd. destruct (metas_from_lookup _ _ _ _ Hm) as (f' & Hf' & Em). rewrite Hi in Hf'. injection Hf' as <-.
  assert (fm_id m = i) as -> by (rewrite Em; cbn [meta_of fm_id]; by rewrite (counted_lookup 0 _ i f Hc Hi)).
  destruct (Nat.ltb_spec i (length fs)) as [Hlt|Hge].
  - rewrite (proj2 (N.leb_gt _ _)) by lia. rewrite <- Hd. rewrite lookup_app_l in Hi by done.
    rewrite metas_from_app, lookup_app_l in Hm by (by rewrite length_metas).
    rewrite (serialized_field fs r data i f m) by done. by rewrite Em.
  - rewrite (proj2 (N.leb_le _ _)) by lia. by rewrite Em.
Qed.

(** C30: rows round-trip, across schema growth.  A row written under a schema whose ids
    count its fields and whose names are distinct is read back, under any extension of
    that schema with more such fields, with what each field stores of the value written
    (or of the default, where the row left it out), and with the defaults of the fields
    added since.  A value of the field's own type comes back unchanged, a float if it has
    single precision: other floats are rounded to the nearest such number (ties to even),
    an integer in a boolean field comes back as its truth value, and a boolean in an
    integer field as 0 or 1. *)
Theorem row_roundtrip (fs gs : list field) (s s' : Schema) (r : row) (data : bytes)
    (Hn : NoDup (f_name <$> fs ++ gs)) (Hc : counted 0 (fs ++ gs))
    (Hs : new_schema fs = Ok s) (Hs' : new_schema (fs ++ gs) = Ok s') (Hser : serialize s r = Ok data) :
  deserialize s' data =
    Ok (((fun f => (f_name f, stored_as (f_type f) (field_value r f))) <$> fs)
        ++ ((fun f => (f_name f, field_default f)) <$> gs))
  /\ forall f, f ∈ fs -> exact_cell (f_type f) (field_value r f) -> stored_as (f_type f) (field_value r f) = field_value r f.
Proof.
  split; [|intros f _; apply exact_stored].
  assert (NoDup (f_name <$> fs) /\ counted 0 fs) as [Hnf Hcf].
  { split; [rewrite fmap_app in Hn; by apply NoDup_app in Hn as [? _]|].
    clear -Hc. revert Hc. generalize 0%nat. induction fs as [|f fs IH]; intros k; [done|]. cbn. intros [? ?]. auto. }
  rewrite new_schema_counted in Hs, Hs' by done. injection Hs as <-. injection Hs' as <-.
  set (g := fun m : FieldMeta => default (CInt 0) (f ← (fs ++ gs) !! fm_id m;
              Some (if (fm_id m <? length fs)%nat then stored_as (f_type f) (field_value r f) else field_default f))).
  assert (forall i m, metas_from 1 (fs ++ gs) !! i = Some m -> fm_id m = i) as Hid.
  { intros i m Hm. destruct (metas_from_lookup _ _ _ _ Hm) as (f & Hf & ->). exact (counted_lookup 0 _ i f Hc Hf). }
  unfold deserialize. cbn [schema_of field_orders]. rewrite (deserialize_loop_ok _ _ g); cbn [app].
  - f_equal. apply list_eq. intros i. rewrite list_lookup_fmap.
    destruct (metas_from 1 (fs ++ gs) !! i) as [m|] eqn:Hm.
    + destruct (metas_from_lookup _ _ _ _ Hm) as (f & Hf & Em).
      assert (g m = if (i <? length fs)%nat then stored_as (f_type f) (field_value r f) else field_default f) as Hg
        by (unfold g; by rewrite (Hid i m Hm), Hf).
      change (Some (fm_name m, g m) = (((fun f => (f_name f, stored_as (f_type f) (field_value r f))) <$> fs)
                ++ ((fun f => (f_name f, field_default f)) <$> gs)) !! i).
      rewrite Hg. assert (fm_name m = f_name f) as -> by by rewrite Em. destruct (Nat.ltb_spec i (length fs)).
      * rewrite lookup_app_l by (by rewrite length_fmap). rewrite lookup_app_l in Hf by done. by rewrite list_lookup_fmap, Hf.
      * rewrite lookup_app_r by (by rewrite length_fmap). rewrite lookup_app_r in Hf by done.
        by rewrite length_fmap, list_lookup_fmap, Hf.
    + cbn. symmetry. apply lookup_ge_None. apply lookup_ge_None in Hm. rewrite length_metas, length_app in Hm.
      rewrite length_app, !length_fmap. lia.
  - by rewrite metas_names.
  - intros m (i & Hm)%list_elem_of_lookup. destruct (metas_from_lookup _ _ _ _ Hm) as (f & Hf & _).
    rewrite (deserialized_field fs gs r data i f m) by done. unfold g. by rewrite (Hid i m Hm), Hf.
Qed.

(** ** When a row can be written *)

Definition utf8_len (s : pystr) : N := match utf8_encode s with Ok b => blen b | Err _ => 0 end.

Definition short_string (s : pystr) : bool := forallb is_scalar s && (utf8_len s <=? STRING_MAX_UINT16_LENGTH).

(** A value of the field's type and within the limits of the format. *)
Definition cell_fits (t : FieldType) (v : cell) : bool :=
  match t, v with
  | int64, CInt z => fits_signed 64 z
  | uint64, CInt z => ((0 <=? z) && (z <? 2 ^ 64))%Z
  | float32, CFloat d => bool_decide (is_Some (to_single d))
  | boolean, CBool _ => true
  | string_, CStr s => short_string s
  | binary, CBytes _ => true
  | text, CStr s => forallb is_scalar s
  | list_int64, CInts l => (N.of_nat (length l) <? 2 ^ 16) && forallb (fits_signed 64) l
  | list_float32, CFloats l => (N.of_nat (length l) <? 2 ^ 16) && forallb (fun d => bool_decide (is_Some (to_single d))) l
  | list_string, CStrs l => (N.of_nat (length l) <? 2 ^ 16) && forallb short_string l
  | _, _ => false
  end.

(** Bytes a value takes in the variable region. *)
Definition var_size (t : FieldType) (v : cell) : N :=
  match t, v with
  | string_, CStr s => 2 + utf8_len s
  | binary, CBytes b => 4 + blen b
  | text, CStr s => 4 + utf8_len s
  | list_int64, CInts l => 2 + N.of_nat (length l) * 8
  | list_float32, CFloats l => 2 + N.of_nat (length l) * 4
  | list_string, CStrs l => 2 + foldr (fun s n => 2 + utf8_len s + n) 0 l
  | _, _ => 0
  end.

Lemma utf8_encode_ok s : forallb is_scalar s = true -> exists b, utf8_encode s = Ok b /\ utf8_len s = blen b.
Proof.
  intros H. assert (exists b, utf8_encode s = Ok b) as [b Hb].
  { induction s as [|c s IH]; [by eexists|]. cbn [forallb] in H. apply andb_true_iff in H as [Hc Hs].
    destruct (IH Hs) as [b Hb]. cbn [utf8_encode]. rewrite Hc, Hb. by eexists. }
  exists b. unfold utf8_len. by rewrite Hb.
Qed.

Lemma short_string_ok s : short_string s = true ->
  exists b, utf8_encode s = Ok b /\ utf8_len s = blen b /\ blen b <= STRING_MAX_UINT16_LENGTH.
Proof.
  intros [Hs Hl%N.leb_le]%andb_true_iff. destruct (utf8_encode_ok s Hs) as (b & Hb & Hlen). exists b. rewrite Hlen in Hl. auto.
Qed.

Definition packable (ps : list packed) : Prop := exists b, pack ps = Ok b.

Lemma packable_cons p ps : (exists b, pack1 p = Ok b) -> packable ps -> packable (p :: ps).
Proof. intros [b Hb] [c Hc]. exists (b ++ c). cbn [pack]. by rewrite Hb, Hc. Qed.

Lemma packable_app a b : packable a -> packable b -> packable (a ++ b).
Proof. intros [x Hx] [y Hy]. exists (x ++ y). by rewrite pack_app, Hx, Hy. Qed.

Lemma packable_nil : packable [].
Proof. by exists []. Qed.

Lemma PI_ok n : n < 2 ^ 32 -> exists b, pack1 (PI n) = Ok b.
Proof. intros H%N.ltb_lt. cbn [pack1]. rewrite H. by eexists. Qed.
Lemma PH_ok n : n < 2 ^ 16 -> exists b, pack1 (PH n) = Ok b.
Proof. intros H%N.ltb_lt. cbn [pack1]. rewrite H. by eexists. Qed.
Lemma Ps_ok b : exists x, pack1 (Ps b) = Ok x.
Proof. by eexists. Qed.

#[local] Hint Resolve packable_cons packable_nil PI_ok PH_ok Ps_ok : dock.

Lemma packable_fmap {A} (f : A -> packed) (ok : A -> bool) l :
  (forall x, ok x = true -> exists b, pack1 (f x) = Ok b) -> forallb ok l = true -> packable (f <$> l).
Proof.
  intros Hf. induction l as [|x l IH]; intros H; [apply packable_nil|]. cbn [forallb] in H. apply andb_true_iff in H as [Hx Hl].
  rewrite fmap_cons. apply packable_cons; auto.
Qed.

Lemma string_items_ok l off : forallb short_string l = true ->
  exists ps, string_items l off = Ok (ps, off + foldr (fun s n => 2 + utf8_len s + n) 0 l) /\ packable ps.
Proof.
  revert off. induction l as [|s l IH]; intros off H; cbn [string_items foldr].
  - exists []. rewrite N.add_0_r. split; [done|apply packable_nil].
  - cbn [forallb] in H. apply andb_true_iff in H as [Hs Hl]. destruct (short_string_ok s Hs) as (b & -> & -> & Hb).
    cbn [mbind result_bind]. rewrite (proj2 (N.ltb_ge _ _)) by done.
    destruct (IH (off + (UINT16_SIZE + blen b)) Hl) as (ps & -> & Hp). cbn [mbind result_bind].
    eexists. split; [do 2 f_equal; unfold UINT16_SIZE; lia|]. unfold STRING_MAX_UINT16_LENGTH in Hb. auto with dock lia.
Qed.

Lemma Pf_ok d : bool_decide (is_Some (to_single d)) = true -> exists b, pack1 (Pf d) = Ok b.
Proof. intros [n E]%bool_decide_eq_true. cbn [pack1]. rewrite E. by eexists. Qed.

(** A value within the limits is written, as long as the row stays below 4 GiB. *)
Lemma serialize_field_fits t v voff : cell_fits t v = true -> voff + var_size t v < 2 ^ 32 ->
  exists f vs, serialize_field t v voff = Ok (f, vs, voff + var_size t v) /\ (exists b, pack1 f = Ok b) /\ packable vs.
Proof.
  destruct t, v as [z|bits|s|b|b|l|l|l]; cbn [cell_fits var_size serialize_field]; try done; intros H Hsz.
  - rewrite N.add_0_r. do 2 eexists. split_and!; [done|cbn [pack1]; rewrite H; by eexists|apply packable_nil].
  - rewrite N.add_0_r. do 2 eexists. split_and!; [done|cbn [pack1]; rewrite H; by eexists|apply packable_nil].
  - rewrite N.add_0_r. do 2 eexists. split_and!; [done|by apply Pf_ok|apply packable_nil].
  - destruct (short_string_ok s H) as (b & -> & Hl & Hb). rewrite Hl in *. cbn [mbind result_bind].
    rewrite (proj2 (N.ltb_ge _ _)) by done. unfold UINT16_SIZE, STRING_MAX_UINT16_LENGTH in *. rewrite <- N.add_assoc.
    do 2 eexists. split_and!; [done|apply PI_ok; lia|auto with dock lia].
  - unfold UINT32_SIZE. rewrite <- N.add_assoc. do 2 eexists. split_and!; [done|apply PI_ok; lia|].
    apply packable_cons; [apply PI_ok; lia|auto with dock].
  - rewrite N.add_0_r. do 2 eexists. split_and!; [done|destruct b; by eexists|apply packable_nil].
  - apply andb_true_iff in H as [Hl%N.ltb_lt Hf]. do 2 eexists. split_and!; [done|apply PI_ok; lia|].
    apply packable_cons; [by apply PH_ok|]. apply (packable_fmap _ (fits_signed 64)); [|done].
    intros x Hx. cbn [pack1]. rewrite Hx. by eexists.
  - apply andb_true_iff in H as [Hl%N.ltb_lt Hf]. destruct (string_items_ok l (voff + UINT16_SIZE) Hf) as (ps & -> & Hp).
    cbn [mbind result_bind]. unfold UINT16_SIZE in *. rewrite N.add_assoc. do 2 eexists. split_and!; [done|apply PI_ok; lia|].
    apply packable_cons; [by apply PH_ok|done].
  - apply andb_true_iff in H as [Hl%N.ltb_lt Hf]. do 2 eexists. split_and!; [done|apply PI_ok; lia|].
    apply packable_cons; [by apply PH_ok|]. apply (packable_fmap _ (fun d => bool_decide (is_Some (to_single d)))); [|done].
    intros x Hx. by apply Pf_ok.
  - destruct (utf8_encode_ok s H) as (b & -> & Hl). rewrite Hl in *. cbn [mbind result_bind].
    unfold UINT32_SIZE in *. rewrite <- N.add_assoc. do 2 eexists. split_and!; [done|apply PI_ok; lia|].
    apply packable_cons; [apply PI_ok; lia|auto with dock].
Qed.

Definition row_var_size (r : row) (fs : list field) : N :=
  foldr (fun f n => var_size (f_type f) (field_value r f) + n) 0 fs.

Lemma serialize_loop_fits r fs off F V voff :
  (forall f, f ∈ fs -> cell_fits (f_type f) (field_value r f) = true) -> voff + row_var_size r fs < 2 ^ 32 ->
  packable F -> packable V ->
  exists F' V', serialize_loop (Some <$> metas_from off fs) r F V voff = Ok (F', V') /\ packable F' /\ packable V'
    /\ psizes V' = psizes V + row_var_size r fs.
Proof.
  revert off F V voff. induction fs as [|f fs IH]; intros off F V voff Hfit Hsz HF HV; cbn [metas_from fmap list_fmap serialize_loop].
  - exists F, V. split_and!; [done|done|done|]. cbn. lia.
  - change (row_var_size r (f :: fs)) with (var_size (f_type f) (field_value r f) + row_var_size r fs) in *.
    change (row_value r (meta_of off f)) with (field_value r f). cbn [meta_of data_type].
    destruct (serialize_field_fits (f_type f) (field_value r f) voff) as (pf & vs & E & [b Hb] & Hvs); [apply Hfit; by left|lia|].
    rewrite E. cbn [mbind result_bind]. pose proof (serialize_field_size _ _ _ _ _ _ E) as [_ Hs].
    destruct (IH (off + slot_size (f_type f)) (F ++ [pf]) (V ++ vs) (voff + var_size (f_type f) (field_value r f)))
      as (F' & V' & HE & HF' & HV' & Hps).
    + intros g Hg. apply Hfit. by right.
    + lia.
    + apply packable_app; [done|]. apply packable_cons; [by exists b|apply packable_nil].
    + by apply packable_app.
    + exists F', V'. split_and!; [done|done|done|]. rewrite Hps, psizes_app. lia.
Qed.

(** Every row within the limits can be written: values of the fields' types in their
    machine ranges, strings of at most 65535 bytes, lists of at most 65535 elements, at
    most 255 fields and less than 4 GiB in all; and it takes exactly the bytes of the
    two regions. *)
Theorem row_fits_serializes (fs : list field) (s : Schema) (r : row)
    (Hn : NoDup (f_name <$> fs)) (Hc : counted 0 fs) (Hs : new_schema fs = Ok s)
    (Hlen : (length fs <= 255)%nat)
    (Hfit : forall f, f ∈ fs -> cell_fits (f_type f) (field_value r f) = true)
    (Hsz : end_off 1 fs + row_var_size r fs < 2 ^ 32) :
  exists data, serialize s r = Ok data /\ blen data = end_off 1 fs + row_var_size r fs.
Proof.
  rewrite new_schema_counted in Hs by done. injection Hs as <-. unfold serialize. cbn [schema_of field_orders total_byte_length].
  destruct (serialize_loop_fits r fs 1 [] [] (end_off 1 fs)) as (F & V & E & [bF HF] & [bV HV] & Hps);
    [done|done|apply packable_nil|apply packable_nil|].
  rewrite E. cbn [mbind result_bind]. rewrite length_fmap, length_metas.
  rewrite (proj2 (Nat.ltb_ge _ _)) by done. rewrite pack_app, HF, HV. cbn [mbind result_bind]. eexists. split; [done|].
  destruct (serialize_loop_spec _ _ _ _ _ _ _ E) as (parts & Hl & EF & EV & Hp). cbn [app] in EF. rewrite length_metas in Hl.
  pose proof (fixed_size 1 fs parts r _ Hl Hp) as Hfix. rewrite <- EF in Hfix.
  rewrite <- (pack_size _ _ HF) in Hfix. rewrite <- (pack_size _ _ HV) in Hps. cbn [psizes] in Hps.
  unfold blen in *. cbn [length]. rewrite length_app. lia.
Qed.

(** ** A sample row *)

Module Rows.
Definition fs : list field :=
  [MkField (u "id") int64 0 None; MkField (u "tags") list_string 1 None; MkField (u "name") string_ 2 None;
   MkField (u "vec") list_float32 3 None; MkField (u "ok") boolean 4 None].
Definition gs : list field := [MkField (u "note") text 5 (Some (CStr (u "none")))].
Definition sample : row := [(u "id", CInt (-7)%Z); (u "tags", CStrs [u "a"; [0x4E2D]]); (u "vec", CFloats [0x3FF0000000000000; 0x3FB999999999999A])].
End Rows.

Lemma row_roundtrip_witness :
  exists data s', serialize (schema_of Rows.fs) Rows.sample = Ok data /\ new_schema (Rows.fs ++ Rows.gs) = Ok s'
    /\ deserialize s' data
       = Ok [(u "id", CInt (-7)%Z); (u "tags", CStrs [u "a"; [0x4E2D]]); (u "name", CStr (u "default"));
             (u "vec", CFloats [0x3FF0000000000000; 0x3FB99999A0000000]); (u "ok", CBool false); (u "note", CStr (u "none"))].
Proof.
  destruct (serialize (schema_of Rows.fs) Rows.sample) as [data|e] eqn:E; [|by vm_compute in E].
  exists data, (schema_of (Rows.fs ++ Rows.gs)). split_and!; [done|by vm_compute|].
  rewrite (proj1 (row_roundtrip Rows.fs Rows.gs (schema_of Rows.fs) (schema_of (Rows.fs ++ Rows.gs)) Rows.sample data
    ltac:(decided) ltac:(by vm_compute) ltac:(by vm_compute) ltac:(by vm_compute) E)). by vm_compute.
Defined.

Lemma row_fits_serializes_witness :
  exists data, serialize (schema_of Rows.fs) Rows.sample = Ok data /\ blen data = 51.
Proof.
  destruct (row_fits_serializes Rows.fs (schema_of Rows.fs) Rows.sample) as (data & H & Hl);
    [decided|by vm_compute|by vm_compute|cbn; lia| |by vm_compute|exists data; split; [done|rewrite Hl; by vm_compute]].
  intros f Hf. apply (proj1 (Forall_forall (fun f => cell_fits (f_type f) (field_value Rows.sample f) = true) Rows.fs)); [|done].
  repeat constructor; by vm_compute.
Defined.

(** 0.1 is rounded, the least subnormal is kept, halves go to even and 1e39 is too large. *)
Example narrowing :
  to_single 0x3FB999999999999A = Some 0x3DCCCCCD /\ to_single 0x36A0000000000000 = Some 1 /\ to_single 0x3690000000000000 = Some 0 /\
  to_single 0x36A8000000000000 = Some 2 /\ to_single 0x47EFFFFFF0000000 = None /\ to_single 0x47EFFFFFEFFFFFFF = Some 0x7F7FFFFF /\
  to_single 0xFFF0000000000000 = Some 0xFF800000 /\ to_single 0x48078287F49C4A1D = None.
Proof. by vm_compute. Qed.

(** Offsets follow the order in which fields are listed, slots the order of ids: with
    ids that do not count the fields, a row is not read back. *)
Example unordered_ids_misread :
  (s ← new_schema [MkField (u "a") int64 1 None; MkField (u "b") boolean 0 None];
   data ← serialize s [(u "a", CInt 5%Z); (u "b", CBool true)];
   deserialize_field s data (u "a")) = Ok (CInt 1281%Z).
Proof. by vm_compute. Qed.
