(* ===== verification/NamedQueue.v ===== *)
(** Named queues: [NamedQueue] of [openviking/storage/queuefs/named_queue.py], and the
    consumer step [process_one] of [queue_manager.py].

    A queue keeps counters in memory and its messages in the queue file system, and
    reports task-owned work to the index of [WorkIndex] before and after it touches the
    durable messages. *)
From Stdlib Require Import NArith ZArith.
From S2P Require Import Prelude PyStr PyVal PyBytes WorkIndex.

Open Scope N_scope.

(** ** The queue file system *)

(** What a read returns: nothing, bytes, or text. *)
Inductive content := CNone | CBytes (b : bytes) | CText (s : pystr).

(** The AGFS client, as far as queues use it. *)
Class QueueFS (F : Type) := {
  qf_mkdir : F -> pystr -> result unit * F;
  qf_write : F -> pystr -> bytes -> result pystr * F;
  qf_read : F -> pystr -> result content * F }.

(** ** State *)

Record QueueError := MkQError { qe_message : pystr; qe_data : option pyval }.

Record QueueStatus := MkStatus {
  st_pending : Z; st_in_progress : Z; st_processed : Z; st_requeue_count : Z; st_error_count : Z;
  st_errors : list QueueError }.

Definition has_errors (s : QueueStatus) : bool := (0 <? st_error_count s)%Z.
Definition is_complete (s : QueueStatus) : bool := (st_pending s =? 0)%Z && (st_in_progress s =? 0)%Z.

(** A queue object with the world it acts on: the state the work index lives in, and
    the file system. *)
Record queue (S F : Type) := MkQueue {
  q_owner : S;
  q_fs : F;
  q_initialized : bool;
  q_in_progress : Z;
  q_processed : Z;
  q_requeue_count : Z;
  q_error_count : Z;
  q_errors : list QueueError }.
Arguments MkQueue {S F}. Arguments q_owner {S F}. Arguments q_fs {S F}. Arguments q_initialized {S F}.
Arguments q_in_progress {S F}. Arguments q_processed {S F}. Arguments q_requeue_count {S F}.
Arguments q_error_count {S F}. Arguments q_errors {S F}.

Definition MAX_ERRORS : nat := 100.

(** [l[-n:]]. *)
Definition last_n {A} (n : nat) (l : list A) : list A := drop (length l - n) l.

Section named_queue.
Context {S F : Type} `{!QueueFS F}.
(** The index within the owner's state, and the tracker's two hooks. *)
Context (get_index : S -> TaskWorkIndex) (set_index : TaskWorkIndex -> S -> S).
Context (is_cancellation_requested : S -> option (pystr -> bool)).
Context (finalize_before_ack : option (QueueTaskMetadata -> ST S unit)).
(** [json.loads], [json.dumps], and [str] of a value that is not a string. *)
Context (json_loads : pystr -> option pyval) (json_dumps : pydict -> pystr) (render : pyval -> pystr).
(** The queue's name and directory, and whether it was given a work index. *)
Context (name path : pystr) (indexed : bool).

Abbreviation Q := (queue S F).

Definition set_owner (o : S) (q : Q) : Q :=
  MkQueue o (q_fs q) (q_initialized q) (q_in_progress q) (q_processed q) (q_requeue_count q) (q_error_count q) (q_errors q).
Definition set_fs (f : F) (q : Q) : Q :=
  MkQueue (q_owner q) f (q_initialized q) (q_in_progress q) (q_processed q) (q_requeue_count q) (q_error_count q) (q_errors q).
Definition set_initialized (q : Q) : Q :=
  MkQueue (q_owner q) (q_fs q) true (q_in_progress q) (q_processed q) (q_requeue_count q) (q_error_count q) (q_errors q).

Definition on_owner {A} (m : ST S A) : ST Q A := fun q => let '(r, o) := m (q_owner q) in (r, set_owner o q).
Definition on_fs {A} (m : ST F A) : ST Q A := fun q => let '(r, f) := m (q_fs q) in (r, set_fs f q).
Definition set_q_index (idx : TaskWorkIndex) : ST Q unit := st_modify (fun q => set_owner (set_index idx (q_owner q)) q).

(** ** Counters *)

Definition on_dequeue_start : ST Q unit := st_modify (fun q =>
  MkQueue (q_owner q) (q_fs q) (q_initialized q) (q_in_progress q + 1) (q_processed q) (q_requeue_count q) (q_error_count q) (q_errors q)).

Definition on_process_success : ST Q unit := st_modify (fun q =>
  MkQueue (q_owner q) (q_fs q) (q_initialized q) (q_in_progress q - 1) (q_processed q + 1) (q_requeue_count q) (q_error_count q) (q_errors q)).

Definition on_process_requeue : ST Q unit := st_modify (fun q =>
  MkQueue (q_owner q) (q_fs q) (q_initialized q) (q_in_progress q) (q_processed q) (q_requeue_count q + 1) (q_error_count q) (q_errors q)).

(** The time stamp of an error is not part of the model. *)
Definition count_error (error_msg : pystr) (data : option pyval) : ST Q unit := st_modify (fun q =>
  let errors := q_errors q ++ [MkQError error_msg data] in
  MkQueue (q_owner q) (q_fs q) (q_initialized q) (q_in_progress q - 1) (q_processed q) (q_requeue_count q) (q_error_count q + 1)
    (if (MAX_ERRORS <? length errors)%nat then last_n MAX_ERRORS errors else errors)).

Definition on_process_error (error_msg : pystr) (data : option pyval) : ST Q unit :=
  idx ← st_gets (fun q : Q => get_index (q_owner q));
  _ ← match data with
      | Some d =>
          if indexed then
            match extract_task_metadata json_loads render d with
            | Some md => set_q_index (record_failure idx (md_task_id md) error_msg)
            | None => mret tt
            end
          else mret tt
      | None => mret tt
      end;
  count_error error_msg data.

Definition reset_status : ST Q unit := st_modify (fun q => MkQueue (q_owner q) (q_fs q) (q_initialized q) 0 0 0 0 []).

(** ** File operations *)

Definition sub (leaf : string) : pystr := path ++ u "/" ++ u leaf.

Definition ensure_initialized : ST Q unit :=
  ready ← st_gets (fun q : Q => q_initialized q);
  if ready : bool then mret tt
  else st_of (fun q : Q =>
    match qf_mkdir (q_fs q) path with
    | (Ok _, f) | (Err AlreadyExistsError, f) => (Ok tt, set_initialized (set_fs f q))
    | (Err e, f) => (Err e, set_fs f q)
    end).

Definition fs_write (leaf : string) (data : bytes) : ST Q pystr := on_fs (fun f => qf_write f (sub leaf) data).
Definition fs_read (leaf : string) : ST Q content := on_fs (fun f => qf_read f (sub leaf)).

(** [json.loads] that raises. *)
Definition loads (s : pystr) : result pyval := match json_loads s with Some v => Ok v | None => Err ValueError end.

Definition content_empty (c : content) : bool :=
  match c with CNone => true | CBytes b => bool_decide (b = []) | CText s => negb (nonempty s) end.

Definition content_bytes (c : content) : result bytes :=
  match c with CNone => Ok [] | CBytes b => Ok b | CText s => utf8_encode s end.

(** [content == b"{}"]. *)
Definition is_braces (c : content) : bool := match c with CBytes b => bool_decide (b = [123; 125]) | _ => false end.

Definition read_queue_message : ST Q (option pyval) :=
  c ← fs_read "dequeue";
  if content_empty c || is_braces c then mret None
  else st_lift (raw ← content_bytes c; text ← utf8_decode raw; Some <$> loads text).

Definition size : ST Q Z :=
  _ ← ensure_initialized;
  st_of (fun q : Q =>
    match fs_read "size" q with
    | (Ok c, q') =>
        match c with
        | CNone => (Ok 0%Z, q')
        | CBytes _ | CText _ =>
            (text ← match c with CBytes b => utf8_decode b | CText s => Ok s | CNone => Ok [] end;
             let text := strip is_space text in
             if nonempty text then match py_int text with Some z => Ok z | None => Err ValueError end else Ok 0%Z, q')
        end
    | (Err NotFoundError, q') => (Ok 0%Z, q')
    | (Err e, q') => (Err e, q')
    end).

Definition get_status : ST Q QueueStatus :=
  pending ← size;
  st_gets (fun q : Q => MkStatus pending (q_in_progress q) (q_processed q) (q_requeue_count q) (q_error_count q) (q_errors q)).

Definition snapshot : ST Q (list pyval) :=
  _ ← ensure_initialized;
  st_of (fun q : Q =>
    match fs_read "messages" q with
    | (Ok c, q') =>
        if content_empty c then (Ok [], q')
        else (text ← match c with CBytes b => utf8_decode b | CText s => Ok s | CNone => Ok [] end;
              parsed ← loads text;
              Ok (match parsed with VList l => l | _ => [] end), q')
    | (Err NotFoundError, q') => (Ok [], q')
    | (Err e, q') => (Err e, q')
    end).

(** ** Enqueue *)

(** A message: text sent as it is, or a dict. *)
Inductive enqueue_data := DText (s : pystr) | DDict (d : pydict).

Definition discard_work (md : QueueTaskMetadata) : ST Q unit :=
  on_owner (discard json_loads render get_index set_index finalize_before_ack name (Meta md)).

(** [enqueue] with the hook, the current task context and the next uuid. *)
Definition enqueue (hook : enqueue_data -> ST Q enqueue_data) (current : option TaskExecutionContext) (uuid4 : pystr)
    (data : enqueue_data) : ST Q pystr :=
  _ ← ensure_initialized;
  data ← hook data;
  let '(data, metadata) :=
    match data with
    | DDict d => let '(d, md) := prepare_task_payload render current uuid4 d in (DDict d, md)
    | DText s => (DText s, None)
    end in
  accepted ← (if indexed then st_of (fun q : Q =>
                let '(ok, idx) := register (is_cancellation_requested (q_owner q)) (get_index (q_owner q)) name metadata in
                (Ok ok, set_owner (set_index idx (q_owner q)) q))
              else mret true);
  if negb accepted then st_raise OtherError
  else st_of (fun q : Q =>
    let body : ST Q pystr :=
      raw ← st_lift (utf8_encode (match data with DText s => s | DDict d => json_dumps d end));
      fs_write "enqueue" raw in
    match body q with
    | (Ok msg_id, q') => (Ok msg_id, q')
    | (Err e, q') =>
        match metadata with
        | Some md => if indexed then (_ ← discard_work md; st_raise e) q' else (Err e, q')
        | None => (Err e, q')
        end
    end).

(** ** Acknowledgement *)

Definition prepare (message : pyval) : ST Q (option QueueTaskMetadata) :=
  on_owner (prepare_ack json_loads render get_index set_index finalize_before_ack name (Raw message)).

Definition rollback (md : QueueTaskMetadata) : ST Q unit :=
  idx ← st_gets (fun q : Q => get_index (q_owner q));
  set_q_index (rollback_ack idx name md).

(** [msg_id.encode("utf-8")]; only strings have it. *)
Definition id_bytes (msg_id : pyval) : result bytes :=
  match msg_id with VStr s => utf8_encode s | _ => Err OtherError end.

Definition ack (msg_id : pyval) (message : option pyval) : ST Q unit := fun q =>
  if negb (py_truthy msg_id) then (Ok tt, q)
  else
    let prep : ST Q (option QueueTaskMetadata) :=
      match message with Some m => if indexed then prepare m else mret None | None => mret None end in
    match prep q with
    | (Err e, q') => (if is_exception e then Ok tt else Err e, q')
    | (Ok prepared, q') =>
        match (raw ← st_lift (id_bytes msg_id); fs_write "ack" raw) q' with
        | (Ok _, q'') => (Ok tt, q'')
        | (Err e, q'') =>
            let q'' := match prepared with Some md => snd (rollback md q'') | None => q'' end in
            (if is_exception e then Ok tt else Err e, q'')
        end
    end.

(** ** Dequeue *)

(** A handler acts on the queue through its callbacks, and on the world. *)
Record handler := MkHandler {
  on_dequeue : option TaskExecutionContext -> pyval -> ST Q (option pyval);
  on_cancelled : option TaskExecutionContext -> pyval -> ST Q (option pyval) }.

(** [DequeueHandlerBase.on_cancelled]. *)
Definition default_on_cancelled (ctx : option TaskExecutionContext) (data : pyval) : ST Q (option pyval) :=
  _ ← on_process_success; mret None.

Definition message_id (data : pyval) : pyval :=
  match data with VDict d => default (VStr []) (dict_get d (u "id")) | _ => VStr [] end.

Definition is_cancelled (task_id : pystr) (q : Q) : bool :=
  cancellation_requested (is_cancellation_requested (q_owner q)) task_id.

(** The [try] around a task-owned handler run. *)
Definition run_handler (h : handler) (md : QueueTaskMetadata) (active : option N) (data : pyval) : ST Q (option pyval) := fun q =>
  let ctx := Some (MkExecCtx (md_task_id md) (md_account_id md) (md_user_id md)) in
  let '(r, q') :=
    match on_dequeue h ctx data q with
    | (Err CancelledError, q') =>
        if is_cancelled (md_task_id md) q' then (_ ← on_process_success; mret None) q' else (Err CancelledError, q')
    | (r, q') => (r, q')
    end in
  match active with
  | Some a => (r, snd (set_q_index (unregister_active (get_index (q_owner q')) (md_task_id md) a) q'))
  | None => (r, q')
  end.

(** [process_dequeued] with the bound context and the running asyncio task. *)
Definition process_dequeued (h : option handler) (current : option TaskExecutionContext) (active : option N) (data : pyval)
    : ST Q (option pyval) :=
  match h with
  | None => mret (Some data)
  | Some h =>
      match extract_task_metadata json_loads render data with
      | None => on_dequeue h current data
      | Some md =>
          if negb indexed then on_dequeue h current data
          else st_of (fun q : Q =>
            let ctx := Some (MkExecCtx (md_task_id md) (md_account_id md) (md_user_id md)) in
            if is_cancelled (md_task_id md) q then on_cancelled h ctx data q
            else
              let q := match active with
                       | Some a =>
                           let '(_, idx) := register_active (is_cancellation_requested (q_owner q)) (get_index (q_owner q)) (md_task_id md) a in
                           set_owner (set_index idx (q_owner q)) q
                       | None => q
                       end in
              run_handler h md active data q)
      end
  end.

Definition dequeue (h : option handler) (current : option TaskExecutionContext) (active : option N) : ST Q (option pyval) :=
  _ ← ensure_initialized;
  st_of (fun q : Q =>
    let body : ST Q (option pyval) :=
      data ← read_queue_message;
      match data with
      | None => mret None
      | Some data =>
          result ← match h with
                   | Some _ => _ ← on_dequeue_start; process_dequeued h current active data
                   | None => mret (Some data)
                   end;
          _ ← ack (message_id data) (Some data);
          mret result
      end in
    match body q with
    | (Err e, q') => (if is_exception e then Ok None else Err e, q')
    | r => r
    end).

Definition dequeue_raw : ST Q (option pyval) :=
  _ ← ensure_initialized;
  st_of (fun q : Q =>
    match read_queue_message q with
    | (Err e, q') => (if is_exception e then Ok None else Err e, q')
    | r => r
    end).

(** [process_one] of the concurrent worker: a message already counted as in progress. *)
Definition process_one (h : option handler) (current : option TaskExecutionContext) (active : option N)
    (error_text : exn -> pystr) (data : pyval) : ST Q unit := fun q =>
  match (_ ← process_dequeued h current active data; ack (message_id data) (Some data)) q with
  | (Err e, q') => if is_exception e then on_process_error (error_text e) (Some data) q' else (Err e, q')
  | r => r
  end.

(** ** Clearing *)

(** The loop over the snapshot: what was prepared, also when it raises. *)
Fixpoint prepare_all (messages : list pyval) (prepared : list QueueTaskMetadata) (q : Q)
    : list QueueTaskMetadata * (result unit * Q) :=
  match messages with
  | [] => (prepared, (Ok tt, q))
  | m :: messages =>
      match prepare m q with
      | (Ok (Some md), q') => prepare_all messages (prepared ++ [md]) q'
      | (Ok None, q') => prepare_all messages prepared q'
      | (Err e, q') => (prepared, (Err e, q'))
      end
  end.

Definition rollback_all (prepared : list QueueTaskMetadata) (q : Q) : Q :=
  foldl (fun q md => snd (rollback md q)) q prepared.

Definition clear : ST Q bool :=
  _ ← ensure_initialized;
  messages ← (if indexed then snapshot else mret []);
  st_of (fun q : Q =>
    let '(prepared, r) := if indexed then prepare_all messages [] q else ([], (Ok tt, q)) in
    let r := match r with
             | (Ok _, q') => let '(w, q'') := fs_write "clear" [] q' in (w ≫= (fun _ => Ok tt), q'')
             | r => r
             end in
    match r with
    | (Ok _, q') => (Ok true, q')
    | (Err e, q') => (if is_exception e then Ok false else Err e, rollback_all prepared q')
    end).
End named_queue.
