(* ===== verification/NamedQueueTheory.v ===== *)
(** Correctness of named queues ([NamedQueue]): among producers, consumers and clears that
    interleave at every wait, no durable message of a task escapes the work index
    unnoticed, and workers count every failure once. *)
From Stdlib Require Import NArith ZArith.
From S2P Require Import Prelude PyStr PyVal PyBytes WorkIndex NamedQueue.

Open Scope N_scope.

(** ** What the queue file system promises *)

Definition leaf_path (path : pystr) (leaf : string) : pystr := path ++ u "/" ++ u leaf.

(** The unacknowledged messages of the queue at [path], with their ids.  Reading never
    removes a message, the listing shows messages of the queue, a failed write to
    [enqueue] may or may not have added its message, and only [ack] and [clear] remove
    messages, also when they report failure. *)
Class QueueFSOk (F : Type) `{!QueueFS F} (path : pystr) (json_loads : pystr -> option pyval) := {
  qf_view : F -> list (pystr * pyval);
  qf_mkdir_view f p r f' : qf_mkdir f p = (r, f') -> qf_view f' = qf_view f;
  qf_read_view f p r f' : qf_read f p = (r, f') -> qf_view f' = qf_view f;
  qf_enqueue_ok f text raw i f' :
    utf8_encode text = Ok raw -> qf_write f (leaf_path path "enqueue") raw = (Ok i, f') ->
    i ∉ (fst <$> qf_view f) /\ exists m, qf_view f' = qf_view f ++ [(i, VDict m)]
      /\ dict_get m (u "id") = Some (VStr i) /\ dict_get m (u "data") = Some (VStr text);
  qf_enqueue_err f text raw e f' :
    utf8_encode text = Ok raw -> qf_write f (leaf_path path "enqueue") raw = (Err e, f') ->
    qf_view f' = qf_view f \/ exists i m, qf_view f' = qf_view f ++ [(i, VDict m)] /\ i ∉ (fst <$> qf_view f)
      /\ dict_get m (u "data") = Some (VStr text);
  qf_ack_ok f i raw x f' :
    utf8_encode i = Ok raw -> qf_write f (leaf_path path "ack") raw = (Ok x, f') ->
    qf_view f' = filter (fun im => fst im <> i) (qf_view f);
  qf_ack_err f raw e f' : qf_write f (leaf_path path "ack") raw = (Err e, f') -> qf_view f' `sublist_of` qf_view f;
  qf_clear_ok f x f' : qf_write f (leaf_path path "clear") [] = (Ok x, f') -> qf_view f' = [];
  qf_clear_err f e f' : qf_write f (leaf_path path "clear") [] = (Err e, f') -> qf_view f' `sublist_of` qf_view f;
  qf_dequeue_msg f c f' raw text m :
    qf_read f (leaf_path path "dequeue") = (Ok c, f') -> content_empty c = false -> is_braces c = false ->
    content_bytes c = Ok raw -> utf8_decode raw = Ok text -> json_loads text = Some m ->
    exists i, (i, m) ∈ qf_view f /\ message_id m = VStr i;
  qf_messages_msg f c f' text l m :
    qf_read f (leaf_path path "messages") = (Ok c, f') -> content_empty c = false ->
    match c with CBytes b => utf8_decode b | CText s => Ok s | CNone => Ok [] end = Ok text -> json_loads text = Some (VList l) ->
    m ∈ l -> exists i, (i, m) ∈ qf_view f }.

(** ** Metadata of enqueued payloads *)

Section metadata.
Context (json_loads : pystr -> option pyval) (render : pyval -> pystr).
Context (Hstr : forall v, py_truthy v = true -> py_str render v <> []).

(** A queue message carries the task and work id its payload was given. *)
Lemma enqueued_metadata current uuid4 data payload md m body :
  uuid4 <> [] -> prepare_task_payload render current uuid4 data = (payload, md) ->
  dict_get m (u "data") = Some (VStr body) -> json_loads body = Some (VDict payload) ->
  match md with
  | None => extract_task_metadata json_loads render (VDict m) = None
  | Some md => exists md', extract_task_metadata json_loads render (VDict m) = Some md'
                 /\ md_task_id md' = md_task_id md /\ md_work_id md' = md_work_id md
  end.
Proof.
  intros Hu Hprep Hm Hj. unfold extract_task_metadata, payload_dict. rewrite Hm. cbn [from_option id]. rewrite Hj.
  unfold prepare_task_payload in Hprep. destruct (negb (py_truthy _)) eqn:Etid.
  { injection Hprep as <- <-. apply negb_true_iff in Etid. unfold py_or in Etid.
    destruct (py_truthy (get_or_none data (u "task_id"))) eqn:E; [congruence|]. by cbn [negb orb]. }
  apply negb_false_iff in Etid. apply Hstr in Etid as Htask.
  assert (py_str render (py_or (get_or_none data TASK_WORK_ID_FIELD) (VStr uuid4)) <> []) as Hwork.
  { apply Hstr. unfold py_or. destruct (py_truthy (get_or_none data TASK_WORK_ID_FIELD)) eqn:E; [done|]. cbn. by apply nonempty_true. }
  set (tid := py_str render (py_or (get_or_none data (u "task_id")) _)) in *.
  set (wid := py_str render (py_or (get_or_none data TASK_WORK_ID_FIELD) _)) in *.
  destruct (owner_from_payload render data) as [acc0 usr0].
  destruct (match current with
            | Some c => if seqb (ec_task_id c) tid
                        then (if nonempty acc0 then acc0 else ec_account_id c, if nonempty usr0 then usr0 else ec_user_id c)
                        else (acc0, usr0)
            | None => (acc0, usr0)
            end) as [acc usr]. injection Hprep as <- <-.
  set (base := dict_set (dict_set data (u "task_id") (VStr tid)) TASK_WORK_ID_FIELD (VStr wid)).
  set (full := if nonempty acc && nonempty usr then _ else base).
  assert (forall k, k = u "task_id" \/ k = TASK_WORK_ID_FIELD -> get_or_none full k = get_or_none base k) as Hfull.
  { intros k Hk. unfold full. destruct (nonempty acc && nonempty usr); [|done].
    unfold get_or_none, base. rewrite !dict_setdefault_get, !dict_set_get. destruct Hk as [->| ->]; by eval_seqb. }
  assert (get_or_none full (u "task_id") = VStr tid) as ->.
  { rewrite Hfull by by left. unfold get_or_none, base. rewrite !dict_set_get. by eval_seqb. }
  assert (get_or_none full TASK_WORK_ID_FIELD = VStr wid) as ->.
  { rewrite Hfull by by right. unfold get_or_none, base. rewrite !dict_set_get. by eval_seqb. }
  apply nonempty_true in Htask, Hwork. cbn [py_truthy]. rewrite Hwork. cbn [negb andb py_truthy]. rewrite Htask, Hwork. cbn [negb orb].
  destruct (owner_from_payload render full) as [a' u'] eqn:Eo. eexists. split; [done|]. done.
Qed.
End metadata.

(** ** Messages and work entries *)

Section queues.
Context {S F : Type} `{!QueueFS F} (get_index : S -> TaskWorkIndex) (set_index : TaskWorkIndex -> S -> S).
Context (is_cancellation_requested : S -> option (pystr -> bool)).
Context (callback : QueueTaskMetadata -> ST S unit).
Context (json_loads : pystr -> option pyval) (json_dumps : pydict -> pystr) (render : pyval -> pystr).
Context (name path : pystr) `{!QueueFSOk F path json_loads}.

(** The index is a field of the owner's state, and finalising a task leaves the entries
    of the index alone. *)
Context (Hlens : forall i s, get_index (set_index i s) = i).
Context (Hcallback : forall md s, wi_work (get_index (snd (callback md s))) = wi_work (get_index s)).

Abbreviation Q := (queue S F).
Abbreviation extract := (extract_task_metadata json_loads render).
Implicit Types q : Q.

Definition messages (q : Q) : list (pystr * pyval) := qf_view (q_fs q).
Definition work (q : Q) (t : pystr) : gset (pystr * pystr) := entries (wi_work (get_index (q_owner q))) t.

(** The work item metadata stand for. *)
Definition key (md : QueueTaskMetadata) : pystr * pystr := (md_task_id md, md_work_id md).

(** Steps that touch neither messages nor work entries. *)
Definition quiet (q q' : Q) : Prop := messages q' = messages q /\ forall t, work q' t = work q t.

Lemma quiet_refl q : quiet q q.
Proof. by split. Qed.

Lemma quiet_trans q1 q2 q3 : quiet q1 q2 -> quiet q2 q3 -> quiet q1 q3.
Proof. intros [H1 H2] [H3 H4]. split; [congruence|]. intros t. by rewrite H4. Qed.

Lemma ensure_initialized_quiet q : quiet q (snd (ensure_initialized path q)).
Proof.
  unfold ensure_initialized. rewrite st_bind_unfold. cbn [st_gets]. destruct (q_initialized q); [apply quiet_refl|].
  unfold st_of. destruct (qf_mkdir (q_fs q) path) as [r f] eqn:E. apply qf_mkdir_view in E.
  destruct r as [|[]]; by split.
Qed.

Lemma fs_read_quiet leaf q : quiet q (snd (fs_read path leaf q)).
Proof.
  unfold fs_read, on_fs. destruct (qf_read (q_fs q) _) as [r f] eqn:E. apply qf_read_view in E. by split.
Qed.

Lemma read_message_quiet q : quiet q (snd (read_queue_message json_loads path q)).
Proof.
  unfold read_queue_message. rewrite st_bind_unfold. pose proof (fs_read_quiet "dequeue" q) as H.
  destruct (fs_read path "dequeue" q) as [[c|e] q']; [|done]. cbn [snd] in *. by destruct (content_empty c || is_braces c).
Qed.

(** A dequeued message is one of the queue's, under its own id. *)
Lemma read_message_in q m q' : read_queue_message json_loads path q = (Ok (Some m), q') ->
  exists i, (i, m) ∈ messages q /\ message_id m = VStr i.
Proof.
  unfold read_queue_message. rewrite st_bind_unfold. unfold fs_read at 1, on_fs.
  destruct (qf_read (q_fs q) (sub path "dequeue")) as [[c|e] f] eqn:E; [|done].
  destruct (content_empty c || is_braces c) eqn:Ec; [done|]. apply orb_false_iff in Ec as [Ec Eb].
  unfold st_lift. destruct (content_bytes c) as [raw|] eqn:Er; [|done]. cbn [mbind result_bind].
  destruct (utf8_decode raw) as [text|] eqn:Et; [|done]. cbn [mbind result_bind]. unfold loads.
  destruct (json_loads text) as [v|] eqn:Ej; [|done]. intros H. injection H as -> <-.
  by eapply qf_dequeue_msg.
Qed.

(** ** Acknowledgement *)

(** Preparing removes the work of one message, or nothing. *)
Lemma prepare_spec m q :
  let '(r, q') := prepare get_index set_index (Some callback) json_loads render name m q in
  messages q' = messages q
  /\ match r with
     | Ok (Some md) => extract m = Some md
         /\ forall t, work q' t = if decide (md_task_id md = t) then work q t ∖ {[(name, md_work_id md)]} else work q t
     | Ok None => forall t, work q' t = work q t
     | Err _ => forall t e, e ∈ work q t -> e ∈ work q' t
     end.
Proof.
  unfold prepare, on_owner, prepare_ack. cbn [metadata_of]. destruct (extract m) as [md|] eqn:Ex; [|done].
  destruct (remove_work (get_index (q_owner q)) name md) as [[removed idle] idx] eqn:E.
  assert (forall t, entries (wi_work idx) t = if decide (md_task_id md = t)
            then work q t ∖ {[(name, md_work_id md)]} else work q t) as Hidx.
  { intros t. unfold remove_work in E. injection E as _ _ <-. cbn [wi_work]. rewrite entries_discard. unfold work. by case_decide; subst. }
  pose proof (remove_work_spec _ _ _ _ _ _ E) as (Hr & _).
  assert (forall s t, get_index s = idx -> entries (wi_work (get_index s)) t =
            if decide (md_task_id md = t) then work q t ∖ {[(name, md_work_id md)]} else work q t) as Hw by (intros s t ->; apply Hidx).
  destruct removed; cbn [negb].
  - destruct idle; cbn [negb].
    + pose proof (Hcallback md (set_index idx (q_owner q))) as Hcb.
      destruct (callback md (set_index idx (q_owner q))) as [[[]|e] s']; cbn [snd] in Hcb; (split; [done|]).
      * split; [done|]. intros t. unfold work. cbn [set_owner q_owner]. rewrite Hcb. by apply Hw.
      * intros t e' He'. unfold work. cbn [set_owner q_owner]. rewrite Hlens. unfold rollback_ack. cbn [wi_work].
        rewrite entries_add, Hcb. case_decide; rewrite Hw by (apply Hlens); case_decide; subst; try done.
        destruct (decide (e' = (name, md_work_id md))); set_solver.
    + split; [done|]. split; [done|]. intros t. unfold work. cbn [set_owner q_owner]. by apply Hw.
  - split; [done|]. intros t. unfold work. cbn [set_owner q_owner]. rewrite Hw by apply Hlens. case_decide; [|done]. subst.
    apply leibniz_equiv. intros e. rewrite elem_of_difference, elem_of_singleton. split; [tauto|]. intros He. split; [done|].
    intros ->. by apply Hr in He.
Qed.

Lemma rollback_work md q t :
  messages (snd (rollback get_index set_index name md q)) = messages q
  /\ work (snd (rollback get_index set_index name md q)) t =
     if decide (md_task_id md = t) then {[(name, md_work_id md)]} ∪ work q t else work q t.
Proof.
  split; [done|]. unfold rollback, work. rewrite st_bind_unfold. cbn [st_gets set_q_index st_modify snd set_owner q_owner].
  rewrite Hlens. unfold rollback_ack. cbn [wi_work]. rewrite entries_add. by case_decide; subst.
Qed.

(** What deleting the durable message does. *)
Definition ack_write (i : pystr) : ST Q pystr := raw ← st_lift (id_bytes (VStr i)); fs_write path "ack" raw.

Lemma ack_write_spec i q :
  match ack_write i q with
  | (Ok _, q') => messages q' = filter (fun im => fst im <> i) (messages q)
  | (Err _, q') => messages q' `sublist_of` messages q
  end /\ forall t, work (snd (ack_write i q)) t = work q t.
Proof.
  unfold ack_write. rewrite st_bind_unfold. cbn [st_lift id_bytes]. destruct (utf8_encode i) as [raw|] eqn:Eraw; [|done].
  unfold fs_write, on_fs. destruct (qf_write (q_fs q) (sub path "ack") raw) as [[x|e] f] eqn:E; split; try done.
  - by apply (qf_ack_ok _ _ _ _ _ Eraw) in E.
  - by apply qf_ack_err in E.
Qed.

Abbreviation ack_op := (ack get_index set_index (Some callback) json_loads render name path true).

(** ** Enqueue *)

Context (Hstr : forall v, py_truthy v = true -> py_str render v <> []).

Definition plain_hook (d : enqueue_data) : ST Q enqueue_data := mret d.
Abbreviation enqueue_op := (enqueue get_index set_index is_cancellation_requested (Some callback) json_loads json_dumps render name path true plain_hook).

Lemma discard_spec md q :
  let q' := snd (discard_work get_index set_index (Some callback) json_loads render name md q) in
  messages q' = messages q
  /\ forall t, work q' t = if decide (md_task_id md = t) then work q t ∖ {[(name, md_work_id md)]} else work q t.
Proof.
  cbn zeta. unfold discard_work, on_owner, discard. cbn [metadata_of].
  destruct (remove_work (get_index (q_owner q)) name md) as [[removed idle] idx] eqn:E.
  assert (forall t, entries (wi_work idx) t = if decide (md_task_id md = t)
            then work q t ∖ {[(name, md_work_id md)]} else work q t) as Hidx.
  { intros t. unfold remove_work in E. injection E as _ _ <-. cbn [wi_work]. rewrite entries_discard. unfold work. by case_decide; subst. }
  destruct idle.
  - pose proof (Hcallback md (set_index idx (q_owner q))) as Hcb. destruct (callback md _) as [r s']. cbn [snd] in *.
    split; [done|]. intros t. unfold work. cbn [set_owner q_owner]. by rewrite Hcb, Hlens.
  - split; [done|]. intros t. unfold work. cbn [snd set_owner q_owner]. by rewrite Hlens.
Qed.

(** What sending the encoded payload does. *)
Definition send (text : pystr) : ST Q pystr := raw ← st_lift (utf8_encode text); fs_write path "enqueue" raw.

(** One new message, made of the text. *)
Definition appended (text : pystr) (q q' : Q) : Prop :=
  exists i m, messages q' = messages q ++ [(i, VDict m)] /\ i ∉ (fst <$> messages q) /\ dict_get m (u "data") = Some (VStr text).

Lemma send_spec text q :
  let '(r, q') := send text q in
  (forall t, work q' t = work q t)
  /\ match r with
     | Ok i => i ∉ (fst <$> messages q) /\ exists m, messages q' = messages q ++ [(i, VDict m)]
                 /\ dict_get m (u "id") = Some (VStr i) /\ dict_get m (u "data") = Some (VStr text)
     | Err _ => messages q' = messages q \/ appended text q q'
     end.
Proof.
  unfold send. rewrite st_bind_unfold. cbn [st_lift]. destruct (utf8_encode text) as [raw|] eqn:E; [|split; [done|by left]].
  unfold fs_write, on_fs. destruct (qf_write (q_fs q) (sub path "enqueue") raw) as [[i|e] f] eqn:Ew; (split; [done|]).
  - by apply (qf_enqueue_ok _ _ _ _ _ E) in Ew.
  - by apply (qf_enqueue_err _ _ _ _ _ E) in Ew.
Qed.

Lemma send_messages text q : messages (send text q).2 = messages q \/ appended text q (send text q).2.
Proof.
  pose proof (send_spec text q) as H. destruct (send text q) as [[i|e] q']; cbn [snd]; [|apply H].
  destruct H as (_ & Hi & m & Hm & _ & Hd). right. by exists i, m.
Qed.

(** The work entries after registering the metadata of a message. *)
Definition registered (omd : option QueueTaskMetadata) (q q' : Q) : Prop :=
  forall t, work q' t = match omd with
                        | Some md => if decide (md_task_id md = t) then {[(name, md_work_id md)]} ∪ work q t else work q t
                        | None => work q t
                        end.

(** The effect of [enqueue] on messages and work entries. *)
Lemma enqueue_spec current uuid4 d payload omd q :
  prepare_task_payload render current uuid4 d = (payload, omd) ->
  let '(r, q') := enqueue_op current uuid4 (DDict d) q in
  match r with
  | Ok i => registered omd q q' /\ i ∉ (fst <$> messages q)
      /\ exists m, messages q' = messages q ++ [(i, VDict m)] /\ dict_get m (u "data") = Some (VStr (json_dumps payload))
  | Err _ => (messages q' = messages q \/ appended (json_dumps payload) q q')
      /\ forall t e, (e ∈ work q' t -> e ∈ work q t)
                    /\ (e ∈ work q t -> (forall md, omd = Some md -> ~ (md_task_id md = t /\ e = (name, md_work_id md))) -> e ∈ work q' t)
  end.
Proof.
  intros Hprep. unfold enqueue. rewrite st_bind_unfold. pose proof (ensure_initialized_quiet q) as [Hm0 Hw0].
  destruct (ensure_initialized path q) as [[[]|e] q0]; cbn [snd] in Hm0, Hw0.
  2: { split; [by left|]. intros t e'. by rewrite Hw0. }
  rewrite st_bind_unfold. cbn [plain_hook mret ST_ret]. rewrite Hprep. rewrite st_bind_unfold. unfold st_of at 1.
  destruct (register (is_cancellation_requested (q_owner q0)) (get_index (q_owner q0)) name omd) as [ok idx] eqn:Er.
  set (q1 := set_owner (set_index idx (q_owner q0)) q0).
  assert (messages q1 = messages q) as Hm1 by done.
  assert (if ok then registered omd q q1 else forall t, work q1 t = work q t) as Hw1.
  { unfold registered, q1, work. cbn [set_owner q_owner]. rewrite Hlens. unfold register in Er.
    destruct omd as [md|]; [|injection Er as <- <-; intros t; apply Hw0].
    destruct (cancellation_requested _ _); injection Er as <- <-; intros t; [apply Hw0|].
    cbn [wi_work]. rewrite entries_add. pose proof (Hw0 t) as Hw0t. unfold work in Hw0t. by case_decide; subst; rewrite Hw0t. }
  destruct ok; cbn [negb].
  2: { cbn [st_raise]. split; [by left|]. intros t e'. by rewrite Hw1. }
  unfold st_of. pose proof (send_spec (json_dumps payload) q1) as Hs. fold (send (json_dumps payload)).
  destruct (send (json_dumps payload) q1) as [[i|e] q2]; destruct Hs as [Hw2 Hs].
  - destruct Hs as (Hfresh & m & Hm & _ & Hd). rewrite Hm1 in *. split_and!; [|done|by exists m].
    intros t. by rewrite Hw2, Hw1.
  - assert (forall q3, messages q3 = messages q2 -> messages q3 = messages q \/ appended (json_dumps payload) q q3) as Hs3.
    { intros q3 E3. unfold appended in *. rewrite E3, <- Hm1. exact Hs. }
    destruct omd as [md|]; [|split; [by apply Hs3|]; intros t e'; by rewrite Hw2, Hw1].
    rewrite st_bind_unfold. pose proof (discard_spec md q2) as [Hm3 Hw3].
    destruct (discard_work _ _ _ _ _ _ md q2) as [r3 q3]. cbn [snd] in Hm3, Hw3.
    assert (forall t e', (e' ∈ work q3 t -> e' ∈ work q t)
              /\ (e' ∈ work q t -> ~ (md_task_id md = t /\ e' = (name, md_work_id md)) -> e' ∈ work q3 t)) as Hw4.
    { intros t e'. rewrite Hw3, Hw2, Hw1. case_decide; [|tauto]. set_solver. }
    destruct r3 as [[]|e3]; cbn [st_raise]; (split; [by apply Hs3|]); intros t e'; destruct (Hw4 t e'); split; auto.
Qed.

(** ** Clearing *)

(** Work a list of metadata stands for. *)
Definition listed (mds : list QueueTaskMetadata) (t : pystr) (e : pystr * pystr) : Prop :=
  exists md, md ∈ mds /\ md_task_id md = t /\ e = (name, md_work_id md).

Lemma prepare_all_spec ms acc q :
  let '(mds, (_, q')) := prepare_all get_index set_index (Some callback) json_loads render name ms acc q in
  messages q' = messages q /\ (forall md, md ∈ acc -> md ∈ mds)
  /\ forall t e, e ∈ work q t -> e ∈ work q' t \/ listed mds t e.
Proof.
  revert acc q. induction ms as [|m ms IH]; intros acc q; cbn [prepare_all]; [naive_solver|].
  pose proof (prepare_spec m q) as Hp. destruct (prepare _ _ _ _ _ _ m q) as [[[md|]|e] q1]; destruct Hp as [Hm Hp]; [| |naive_solver].
  - specialize (IH (acc ++ [md]) q1). destruct (prepare_all _ _ _ _ _ _ ms _ q1) as [mds [r q2]]. destruct IH as (Hm2 & Hacc & Hw).
    destruct Hp as [_ Hp]. split_and!; [congruence|set_solver|]. intros t e He.
    destruct (decide (md_task_id md = t /\ e = (name, md_work_id md))) as [[Ht ->]|Hne].
    + right. exists md. split; [apply Hacc; set_solver|done].
    + apply Hw. rewrite Hp. case_decide; [|done]. set_solver.
  - specialize (IH acc q1). destruct (prepare_all _ _ _ _ _ _ ms acc q1) as [mds [r q2]]. destruct IH as (Hm2 & Hacc & Hw).
    split_and!; [congruence|done|]. intros t e He. apply Hw. by rewrite Hp.
Qed.

Lemma rollback_all_spec mds q :
  let q' := rollback_all get_index set_index name mds q in
  messages q' = messages q /\ forall t e, e ∈ work q t \/ listed mds t e -> e ∈ work q' t.
Proof.
  cbn zeta. unfold rollback_all. revert q. induction mds as [|md mds IH]; intros q; cbn [foldl].
  { split; [done|]. intros t e [H|(md & H & _)]; [done|by apply elem_of_nil in H]. }
  destruct (IH (snd (rollback get_index set_index name md q))) as [Hm Hw]. split.
  - by rewrite Hm, (proj1 (rollback_work md q [])).
  - intros t e He. apply Hw. rewrite (proj2 (rollback_work md q t)).
    destruct He as [He|(md' & Hin & Ht & ->)]; [left; case_decide; set_solver|].
    apply elem_of_cons in Hin as [->|Hin]; [left; rewrite decide_True by done; set_solver|]. right. by exists md'.
Qed.

Lemma snapshot_quiet q : quiet q (snd (snapshot json_loads path q)).
Proof.
  unfold snapshot. rewrite st_bind_unfold. pose proof (ensure_initialized_quiet q) as H0.
  destruct (ensure_initialized path q) as [[[]|e] q0]; cbn [snd] in H0; [|done].
  unfold st_of. pose proof (fs_read_quiet "messages" q0) as H1. destruct (fs_read path "messages" q0) as [r q1]. cbn [snd] in H1.
  pose proof (quiet_trans _ _ _ H0 H1). destruct r as [c|[]]; try done. by destruct (content_empty c).
Qed.

Abbreviation clear_op := (clear get_index set_index (Some callback) json_loads render name path true).

(** ** Interleavings *)

(** What a coroutine, or a thread it left behind, still has to do.  [Sending]: an
    [enqueue] that registered its work and waits for its write.  [Stray]: the write of an
    [enqueue] that was cancelled, which goes on in its thread.  [Acking]: [prepare_ack]
    has taken the entry, its finaliser or the [ack] write is under way.  [Clearing]: a
    [clear] with what it has prepared. *)
Inductive activity :=
| Sending (text : pystr) (omd : option QueueTaskMetadata)
| Stray (text : pystr) (omd : option QueueTaskMetadata)
| Acking (i : pystr) (md : QueueTaskMetadata)
| Clearing (mds : list QueueTaskMetadata).

(** The queue, the activities, the messages read by consumers and clears, the metadata
    registered so far, and those whose [enqueue] raised. *)
Record conf := MkConf {
  c_queue : Q; c_acts : list activity; c_seen : list (pystr * pyval);
  c_used : list QueueTaskMetadata; c_raised : list QueueTaskMetadata }.

(** A message made of [text] carries the work item of [omd]. *)
Definition carries (text : pystr) (omd : option QueueTaskMetadata) : Prop :=
  forall m, dict_get m (u "data") = Some (VStr text) ->
    match omd with
    | None => extract (VDict m) = None
    | Some md => exists md', extract (VDict m) = Some md' /\ key md' = key md
    end.

Definition put_index (idx : TaskWorkIndex) (q : Q) : Q := set_owner (set_index idx (q_owner q)) q.

(** [discard], up to its finaliser. *)
Definition dropped (omd : option QueueTaskMetadata) (q : Q) : Q :=
  match omd with Some md => put_index (remove_work (get_index (q_owner q)) name md).2 q | None => q end.

Abbreviation rollback_op := (rollback get_index set_index name).
Abbreviation rollback_all_op := (rollback_all get_index set_index name).

(** The sections of [enqueue], [ack] and [clear] between their waits.  Work ids are fresh;
    what is neither such a section nor the loss of messages leaves messages and entries
    alone ([CGone]: reading, counting, finalising, handlers, and the writes of an [ack] or
    a [clear] that hold no entry or were cancelled). *)
Inductive queue_step : conf -> conf -> Prop :=
| CRegister q acts seen used raised text omd idx :
    carries text omd -> (forall md, omd = Some md -> key md ∉ key <$> used) ->
    register (is_cancellation_requested (q_owner q)) (get_index (q_owner q)) name omd = (true, idx) ->
    queue_step (MkConf q acts seen used raised) (MkConf (put_index idx q) (Sending text omd :: acts) seen (option_list omd ++ used) raised)
| CSent q q' i acts rest seen used raised text omd :
    acts ≡ₚ Sending text omd :: rest -> send text q = (Ok i, q') ->
    queue_step (MkConf q acts seen used raised) (MkConf q' rest seen used raised)
| CSendFailed q q' e acts rest seen used raised text omd :
    acts ≡ₚ Sending text omd :: rest -> send text q = (Err e, q') ->
    queue_step (MkConf q acts seen used raised) (MkConf (dropped omd q') rest seen used (option_list omd ++ raised))
| CSendCancelled q acts rest seen used raised text omd :
    acts ≡ₚ Sending text omd :: rest ->
    queue_step (MkConf q acts seen used raised) (MkConf (dropped omd q) (Stray text omd :: rest) seen used (option_list omd ++ raised))
| CStray q acts rest seen used raised text omd :
    acts ≡ₚ Stray text omd :: rest -> queue_step (MkConf q acts seen used raised) (MkConf (send text q).2 rest seen used raised)
| CSeen q acts seen used raised i m :
    (i, m) ∈ messages q -> queue_step (MkConf q acts seen used raised) (MkConf q acts ((i, m) :: seen) used raised)
| CRemove q acts seen used raised i m md idle idx :
    (i, m) ∈ seen -> extract m = Some md -> remove_work (get_index (q_owner q)) name md = (true, idle, idx) ->
    queue_step (MkConf q acts seen used raised) (MkConf (put_index idx q) (Acking i md :: acts) seen used raised)
| CAcked q q' x acts rest seen used raised i md :
    acts ≡ₚ Acking i md :: rest -> ack_write i q = (Ok x, q') ->
    queue_step (MkConf q acts seen used raised) (MkConf q' rest seen used raised)
| CAckFailed q q' acts rest seen used raised i md :
    acts ≡ₚ Acking i md :: rest -> q' = q \/ (exists e, ack_write i q = (Err e, q')) ->
    queue_step (MkConf q acts seen used raised) (MkConf (rollback_op md q').2 rest seen used raised)
| CClearStart q acts seen used raised : queue_step (MkConf q acts seen used raised) (MkConf q (Clearing [] :: acts) seen used raised)
| CClearHold q acts rest seen used raised i md mds :
    acts ≡ₚ Acking i md :: Clearing mds :: rest ->
    queue_step (MkConf q acts seen used raised) (MkConf q (Clearing (mds ++ [md]) :: rest) seen used raised)
| CCleared q q' x acts rest seen used raised mds :
    acts ≡ₚ Clearing mds :: rest -> fs_write path "clear" [] q = (Ok x, q') ->
    queue_step (MkConf q acts seen used raised) (MkConf q' rest seen used raised)
| CClearFailed q q' acts rest seen used raised mds :
    acts ≡ₚ Clearing mds :: rest -> q' = q \/ (exists e, fs_write path "clear" [] q = (Err e, q')) ->
    queue_step (MkConf q acts seen used raised) (MkConf (rollback_all_op mds q') rest seen used raised)
| CGone q q' acts seen used raised :
    messages q' `sublist_of` messages q -> (forall t, work q' t = work q t) ->
    queue_step (MkConf q acts seen used raised) (MkConf q' acts seen used raised).

(** *** The invariant *)

Definition has (q : Q) (md : QueueTaskMetadata) : Prop := (name, md_work_id md) ∈ work q (md_task_id md).

(** An [ack] or a [clear] has taken the entry and not yet settled its message. *)
Definition held (acts : list activity) (md : QueueTaskMetadata) : Prop :=
  exists a, a ∈ acts /\ match a with Acking _ md' => key md' = key md | Clearing mds => key md ∈ key <$> mds | _ => False end.

Definition covered (c : conf) (md : QueueTaskMetadata) : Prop :=
  has (c_queue c) md \/ held (c_acts c) md \/ key md ∈ key <$> c_raised c.

(** Messages still to be written. *)
Definition pend (a : activity) : option (pystr * option QueueTaskMetadata) :=
  match a with Sending t o | Stray t o => Some (t, o) | _ => None end.
Definition pending (acts : list activity) : list (pystr * option QueueTaskMetadata) := omap pend acts.

Record conf_inv (c : conf) : Prop := MkInv {
  v_message : forall i m md, (i, m) ∈ messages (c_queue c) -> extract m = Some md -> key md ∈ key <$> c_used c;
  v_distinct : forall i1 m1 i2 m2 a b, (i1, m1) ∈ messages (c_queue c) -> (i2, m2) ∈ messages (c_queue c) ->
    extract m1 = Some a -> extract m2 = Some b -> key a = key b -> i1 = i2;
  v_pending : NoDup (key <$> omap snd (pending (c_acts c)));
  v_fresh : forall text md, (text, Some md) ∈ pending (c_acts c) -> key md ∈ key <$> c_used c
    /\ (forall i m b, (i, m) ∈ messages (c_queue c) -> extract m = Some b -> key b <> key md)
    /\ (forall i m b, (i, m) ∈ c_seen c -> extract m = Some b -> key b <> key md);
  v_carries : forall text omd, (text, omd) ∈ pending (c_acts c) -> carries text omd;
  v_entry : forall text md, Sending text (Some md) ∈ c_acts c -> has (c_queue c) md;
  v_stray : forall text md, Stray text (Some md) ∈ c_acts c -> key md ∈ key <$> c_raised c;
  v_seen : forall i m a, (i, m) ∈ c_seen c -> extract m = Some a -> key a ∈ key <$> c_used c
    /\ forall i' m' b, (i', m') ∈ messages (c_queue c) -> extract m' = Some b -> key b = key a -> i' = i;
  v_acking : forall i md, Acking i md ∈ c_acts c -> exists m, (i, m) ∈ c_seen c /\ extract m = Some md;
  v_cover : forall i m md, (i, m) ∈ messages (c_queue c) -> extract m = Some md -> covered c md }.

Lemma removed_work md removed idle idx q t : remove_work (get_index (q_owner q)) name md = (removed, idle, idx) ->
  work (put_index idx q) t = if decide (md_task_id md = t) then work q t ∖ {[(name, md_work_id md)]} else work q t.
Proof.
  intros E. unfold work, put_index. cbn [set_owner q_owner]. rewrite Hlens. unfold remove_work in E. injection E as _ _ <-. cbn [wi_work].
  rewrite entries_discard. by case_decide; subst.
Qed.

Lemma removed_has md removed idle idx q b : remove_work (get_index (q_owner q)) name md = (removed, idle, idx) ->
  has q b -> key b <> key md -> has (put_index idx q) b.
Proof.
  intros E Hb Hk. unfold has. rewrite (removed_work _ _ _ _ _ _ E). case_decide as Ht; [|done].
  apply elem_of_difference. split; [done|]. rewrite elem_of_singleton. intros [= Hw]. apply Hk. unfold key. congruence.
Qed.

Lemma dropped_messages omd q : messages (dropped omd q) = messages q.
Proof. by destruct omd. Qed.

Lemma dropped_work omd q q' : (forall t, work q' t = work q t) -> forall t, work (dropped omd q') t = work (dropped omd q) t.
Proof.
  intros Hw t. destruct omd as [md|]; [|by apply Hw]. unfold dropped. destruct (remove_work (get_index (q_owner q)) name md) as [[r0 b0] x0] eqn:E0.
  destruct (remove_work (get_index (q_owner q')) name md) as [[r1 b1] x1] eqn:E1. by rewrite (removed_work _ _ _ _ _ _ E0), (removed_work _ _ _ _ _ _ E1), Hw.
Qed.

Lemma dropped_has md q b : has q b -> key b <> key md -> has (dropped (Some md) q) b.
Proof. intros Hb Hk. unfold dropped. destruct (remove_work _ _ _) as [[removed idle] idx] eqn:E. by eapply removed_has. Qed.

Lemma rollback_has md q b : has q b \/ key b = key md -> has (rollback_op md q).2 b.
Proof.
  intros H. unfold has. rewrite (proj2 (rollback_work md q (md_task_id b))). case_decide as Ht; [|destruct H as [H|H]; [done|by injection H]].
  apply elem_of_union. destruct H as [H|[= _ ->]]; [by right|left; by apply elem_of_singleton].
Qed.

Lemma rollback_all_has mds q b : has q b \/ key b ∈ key <$> mds -> has (rollback_all_op mds q) b.
Proof.
  intros H. unfold has. apply (rollback_all_spec mds q). destruct H as [H|(md & [= E1 E2] & Hin)%list_elem_of_fmap]; [by left|right].
  exists md. by rewrite E1, E2.
Qed.

Lemma pending_perm acts acts' : acts ≡ₚ acts' -> pending acts ≡ₚ pending acts'.
Proof. apply omap_Permutation. Qed.

(** Fewer messages, fewer activities. *)
Lemma inv_shrink c q' acts' raised' extra :
  conf_inv c -> messages q' `sublist_of` messages (c_queue c) -> pending (c_acts c) ≡ₚ extra ++ pending acts' ->
  (forall text md, Sending text (Some md) ∈ acts' -> Sending text (Some md) ∈ c_acts c /\ (has (c_queue c) md -> has q' md)) ->
  (forall text md, Stray text (Some md) ∈ acts' -> key md ∈ key <$> raised') ->
  (forall i md, Acking i md ∈ acts' -> exists m, (i, m) ∈ c_seen c /\ extract m = Some md) ->
  (forall i m md, (i, m) ∈ messages q' -> extract m = Some md -> covered c md -> covered (MkConf q' acts' (c_seen c) (c_used c) raised') md) ->
  conf_inv (MkConf q' acts' (c_seen c) (c_used c) raised').
Proof.
  intros Hi Hsub Hp Hs Hst Ha Hc. assert (forall x, x ∈ messages q' -> x ∈ messages (c_queue c)) as Hin by (intros x Hx; by eapply elem_of_sublist).
  assert (forall x, x ∈ pending acts' -> x ∈ pending (c_acts c)) as Hpin by (intros x Hx; rewrite Hp; apply elem_of_app; by right).
  split; cbn [c_queue c_acts c_seen c_used c_raised].
  - intros i m md Hm. apply (v_message _ Hi i m); auto.
  - intros i1 m1 i2 m2 a b H1 H2. apply (v_distinct _ Hi i1 m1 i2 m2); auto.
  - pose proof (v_pending _ Hi) as Hn. rewrite Hp, omap_app, fmap_app in Hn. by apply NoDup_app in Hn as (_ & _ & Hn).
  - intros text md Hm. destruct (v_fresh _ Hi text md (Hpin _ Hm)) as (H1 & H2 & H3). split_and!; [done|eauto|done].
  - intros text omd Hm. by apply (v_carries _ Hi), Hpin.
  - intros text md Hm. destruct (Hs _ _ Hm) as [H1 H2]. apply H2. by apply (v_entry _ Hi text).
  - done.
  - intros i m a Hm Hx. destruct (v_seen _ Hi i m a Hm Hx) as [H1 H2]. split; [done|eauto].
  - done.
  - intros i m md Hm Hx. eapply Hc; [done|done|]. eapply (v_cover _ Hi); eauto.
Qed.

(** A pending message is written. *)
Lemma inv_append c q' a rest raised' text omd :
  conf_inv c -> c_acts c ≡ₚ a :: rest -> pend a = Some (text, omd) ->
  appended text (c_queue c) q' -> (forall t, work q' t = work (c_queue c) t) ->
  (forall md, md ∈ c_raised c -> md ∈ raised') -> (forall md, omd = Some md -> has (c_queue c) md \/ key md ∈ key <$> raised') ->
  conf_inv (MkConf q' rest (c_seen c) (c_used c) raised').
Proof.
  intros Hi Hacts Hpend (i & m & Hm & Hid & Hd) Hw Hr Hnew.
  assert (pending (c_acts c) ≡ₚ (text, omd) :: pending rest) as Hp by (rewrite (pending_perm _ _ Hacts); unfold pending; cbn [omap list_omap]; by rewrite Hpend).
  assert ((text, omd) ∈ pending (c_acts c)) as Hpin by (rewrite Hp; by left).
  pose proof (v_carries _ Hi _ _ Hpin m Hd) as Hcar.
  assert (forall b, extract (VDict m) = Some b -> exists md, omd = Some md /\ key b = key md) as Hx.
  { intros b Hb. destruct omd as [md|]; [|congruence]. destruct Hcar as (md' & E & Hk). exists md. split; [done|congruence]. }
  assert (forall b, has (c_queue c) b -> has q' b) as Hhas by (intros b; unfold has; by rewrite Hw).
  assert (forall i' m' b, (i', m') ∈ messages q' -> extract m' = Some b ->
            (i', m') ∈ messages (c_queue c) \/ i' = i /\ exists md, omd = Some md /\ key b = key md) as Hcase.
  { intros i' m' b Hin Hb. rewrite Hm, elem_of_app, list_elem_of_singleton in Hin. destruct Hin as [?|[= -> ->]]; [by left|right; auto]. }
  split; cbn [c_queue c_acts c_seen c_used c_raised].
  - intros i' m' b Hin Hb. destruct (Hcase _ _ _ Hin Hb) as [Hold|(-> & md & -> & ->)]; [by apply (v_message _ Hi i' m')|by apply (v_fresh _ Hi text)].
  - intros i1 m1 i2 m2 b1 b2 H1 H2 Hb1 Hb2 Hk. destruct (Hcase _ _ _ H1 Hb1) as [O1|(-> & md & -> & K1)], (Hcase _ _ _ H2 Hb2) as [O2|(-> & md' & E & K2)];
      [by eapply (v_distinct _ Hi i1 m1 i2 m2)| | |done].
    + subst omd. destruct (v_fresh _ Hi text md' Hpin) as (_ & Hf & _). destruct (Hf _ _ _ O1 Hb1). congruence.
    + destruct (v_fresh _ Hi text md Hpin) as (_ & Hf & _). destruct (Hf _ _ _ O2 Hb2). congruence.
  - pose proof (v_pending _ Hi) as Hn. rewrite Hp in Hn. cbn [omap list_omap snd] in Hn. destruct omd; [|done]. by apply NoDup_cons in Hn as [_ Hn].
  - intros text' md' Hin. destruct (v_fresh _ Hi text' md') as (H1 & H2 & H3); [rewrite Hp; by right|]. split_and!; [done| |done].
    intros i' m' b Hin' Hb. destruct (Hcase _ _ _ Hin' Hb) as [Hold|(-> & md & E & Hk)]; [by eapply H2|]. rewrite Hk. intros Hkk.
    pose proof (v_pending _ Hi) as Hn. rewrite Hp, E in Hn. cbn [omap list_omap snd] in Hn. rewrite fmap_cons in Hn. apply NoDup_cons in Hn as [Hn _].
    apply Hn. rewrite Hkk. apply list_elem_of_fmap. exists md'. split; [done|]. apply list_elem_of_omap. by exists (text', Some md').
  - intros text' omd' Hin. apply (v_carries _ Hi). rewrite Hp. by right.
  - intros text' md' Hin. apply Hhas, (v_entry _ Hi text'). rewrite Hacts. by right.
  - intros text' md' Hin. assert (key md' ∈ key <$> c_raised c) as (x & -> & Hxin)%list_elem_of_fmap by (apply (v_stray _ Hi text'); rewrite Hacts; by right).
    apply list_elem_of_fmap. eauto.
  - intros i' m' b Hin Hb. destruct (v_seen _ Hi _ _ _ Hin Hb) as [H1 H2]. split; [done|]. intros i2 m2 b2 Hin2 Hb2 Hk.
    destruct (Hcase _ _ _ Hin2 Hb2) as [Hold|(-> & md & -> & Hk2)]; [by eapply H2|]. destruct (v_fresh _ Hi text md Hpin) as (_ & _ & Hf).
    destruct (Hf _ _ _ Hin Hb). congruence.
  - intros i' md' Hin. apply (v_acking _ Hi). rewrite Hacts. by right.
  - intros i' m' b Hin Hb. unfold covered. cbn [c_queue c_acts c_raised]. destruct (Hcase _ _ _ Hin Hb) as [Hold|(-> & md & E & Hk)].
    + destruct (v_cover _ Hi _ _ _ Hold Hb) as [H|[(a' & Ha' & H)|H]]; [left; auto| |right; right].
      * right; left. exists a'. split; [|done]. rewrite Hacts in Ha'. apply elem_of_cons in Ha' as [->|?]; [|done]. by destruct a.
      * apply list_elem_of_fmap in H as (x & -> & Hxin). apply list_elem_of_fmap. eauto.
    + destruct (Hnew md E) as [H|H]; [left|right; right; by rewrite Hk]. apply Hhas. unfold has in *. injection Hk as -> ->. done.
Qed.

(** A step that changes entries or messages and ends one activity. *)
Lemma pending_end c a rest : c_acts c ≡ₚ a :: rest -> pend a = None -> pending (c_acts c) ≡ₚ [] ++ pending rest.
Proof. intros Hp Ha. rewrite (pending_perm _ _ Hp). unfold pending. cbn [omap list_omap app]. by rewrite Ha. Qed.

Lemma inv_end c q' a rest :
  conf_inv c -> c_acts c ≡ₚ a :: rest -> pend a = None -> messages q' `sublist_of` messages (c_queue c) ->
  (forall md, has (c_queue c) md -> has q' md) ->
  (forall i m md, (i, m) ∈ messages q' -> extract m = Some md -> held [a] md -> has q' md) ->
  conf_inv (MkConf q' rest (c_seen c) (c_used c) (c_raised c)).
Proof.
  intros Hi Hacts Hpend Hsub Hhas Hheld. assert (forall x, x ∈ rest -> x ∈ c_acts c) as Hin by (intros x Hx; rewrite Hacts; by right).
  apply (inv_shrink c q' rest (c_raised c) []); [done|done|by eapply pending_end| | | |].
  - intros text md H. split; [by apply Hin|auto].
  - intros text md H. by apply (v_stray _ Hi text), Hin.
  - intros i md H. by apply (v_acking _ Hi), Hin.
  - intros i m md Hm Hx [H|[(b & Hb & H)|H]]; [left; cbn; auto| |by right; right]. rewrite Hacts in Hb. apply elem_of_cons in Hb as [->|Hb].
    + left. apply (Hheld i m); [done|done|]. exists a. split; [by left|done].
    + right; left. by exists b.
Qed.

(** An [enqueue] gives up its entry. *)
Lemma inv_drop c text omd rest acts' :
  conf_inv c -> c_acts c ≡ₚ Sending text omd :: rest -> acts' = rest \/ acts' = Stray text omd :: rest ->
  conf_inv (MkConf (dropped omd (c_queue c)) acts' (c_seen c) (c_used c) (option_list omd ++ c_raised c)).
Proof.
  intros Hi Hacts Hor.
  assert (pending (c_acts c) ≡ₚ (text, omd) :: pending rest) as Hp by (by rewrite (pending_perm _ _ Hacts)).
  assert (exists extra, pending (c_acts c) ≡ₚ extra ++ pending acts') as [extra Hextra] by (destruct Hor as [->| ->]; [by exists [(text, omd)]|by exists []]).
  assert (forall x, x ∈ acts' -> x ∈ rest \/ x = Stray text omd) as Hin.
  { intros x Hx. destruct Hor as [->| ->]; [by left|]. apply elem_of_cons in Hx as [->|Hx]; [by right|by left]. }
  assert (forall md, omd = Some md -> key md ∈ key <$> option_list omd ++ c_raised c) as Hraised by (intros md ->; apply list_elem_of_fmap; exists md; split; [done|by left]).
  apply (inv_shrink c _ acts' _ extra); [done|by rewrite dropped_messages|done| | | |].
  - intros text' md Hs. destruct (Hin _ Hs) as [Hs'|[=]]. split; [rewrite Hacts; by right|]. intros Hh. destruct omd as [md0|]; [|done].
    apply dropped_has; [done|]. intros Hk. pose proof (v_pending _ Hi) as Hn. rewrite Hp in Hn. cbn [omap list_omap snd] in Hn. rewrite fmap_cons in Hn.
    apply NoDup_cons in Hn as [Hn _]. apply Hn. rewrite <- Hk. apply list_elem_of_fmap. exists md. split; [done|]. apply list_elem_of_omap.
    exists (text', Some md). split; [|done]. apply list_elem_of_omap. by exists (Sending text' (Some md)).
  - intros text' md Hs. destruct (Hin _ Hs) as [Hs'|[= -> <-]]; [|by apply Hraised].
    assert (key md ∈ key <$> c_raised c) as H by (apply (v_stray _ Hi text'); rewrite Hacts; by right). rewrite fmap_app, elem_of_app. by right.
  - intros i md Hs. destruct (Hin _ Hs) as [Hs'|[=]]. apply (v_acking _ Hi). rewrite Hacts. by right.
  - intros i m md Hm Hx Hc. unfold covered in *. cbn [c_queue c_acts c_raised]. destruct (decide (key md ∈ key <$> option_list omd)) as [Hk|Hk].
    { right; right. rewrite fmap_app, elem_of_app. by left. }
    destruct Hc as [H|[(b & Hb & H)|H]].
    + left. destruct omd as [md0|]; [|done]. apply dropped_has; [done|]. intros E. apply Hk. rewrite E. by left.
    + right; left. rewrite Hacts in Hb. exists b. apply elem_of_cons in Hb as [->|Hb]; [done|]. split; [|done]. destruct Hor as [->| ->]; [done|by right].
    + right; right. rewrite fmap_app, elem_of_app. by right.
Qed.

(** An entry is taken for a message that was read. *)
Lemma inv_remove c i m md removed idle idx :
  conf_inv c -> (i, m) ∈ c_seen c -> extract m = Some md -> remove_work (get_index (q_owner (c_queue c))) name md = (removed, idle, idx) ->
  conf_inv (MkConf (put_index idx (c_queue c)) (Acking i md :: c_acts c) (c_seen c) (c_used c) (c_raised c)).
Proof.
  intros Hi Hseen Hx E. apply (inv_shrink c _ _ _ []); [done|done|done| | | |].
  - intros text b [[=]|Hs]%elem_of_cons. split; [done|]. intros Hh. eapply removed_has; [done|done|]. intros Hk.
    destruct (v_fresh _ Hi text b) as (_ & _ & Hf); [apply list_elem_of_omap; by exists (Sending text (Some b))|]. by apply (Hf i m md).
  - intros text b [[=]|Hs]%elem_of_cons. by apply (v_stray _ Hi text).
  - intros j b [[= -> ->]|Hs]%elem_of_cons; [by exists m|by apply (v_acking _ Hi)].
  - intros j m' b Hm' Hb Hc. unfold covered in *. cbn [c_queue c_acts c_raised].
    destruct (decide (key b = key md)) as [Hk|Hk]; [right; left; exists (Acking i md); split; [by left|done]|].
    destruct Hc as [H|[(a & Ha & H)|H]]; [left; by eapply removed_has|right; left; exists a; split; [by right|done]|by right; right].
Qed.

Lemma register_work omd idx q : register (is_cancellation_requested (q_owner q)) (get_index (q_owner q)) name omd = (true, idx) -> registered omd q (put_index idx q).
Proof.
  intros E t. unfold registered, work, put_index. cbn [set_owner q_owner]. rewrite Hlens. unfold register in E. destruct omd as [md|]; [|by injection E as <-].
  destruct (cancellation_requested _ _); [done|]. injection E as <-. cbn [wi_work]. rewrite entries_add. by case_decide; subst.
Qed.

Lemma inv_register c text omd idx :
  conf_inv c -> carries text omd -> (forall md, omd = Some md -> key md ∉ key <$> c_used c) ->
  register (is_cancellation_requested (q_owner (c_queue c))) (get_index (q_owner (c_queue c))) name omd = (true, idx) ->
  conf_inv (MkConf (put_index idx (c_queue c)) (Sending text omd :: c_acts c) (c_seen c) (option_list omd ++ c_used c) (c_raised c)).
Proof.
  intros Hi Hcar Hfresh Hreg%register_work. set (q' := put_index idx (c_queue c)) in *.
  assert (forall b, has (c_queue c) b -> has q' b) as Hhas.
  { intros b Hb. unfold has. rewrite Hreg. destruct omd as [md|]; [|done]. case_decide; [apply elem_of_union; by right|done]. }
  assert (forall b, key b ∈ key <$> c_used c -> key b ∈ key <$> option_list omd ++ c_used c) as Hused by (intros b Hb; rewrite fmap_app, elem_of_app; by right).
  split; cbn [c_queue c_acts c_seen c_used c_raised]; change (messages q') with (messages (c_queue c)).
  - intros i m md Hm Hx. apply Hused. by apply (v_message _ Hi i m).
  - apply (v_distinct _ Hi).
  - unfold pending. cbn [omap list_omap pend snd]. pose proof (v_pending _ Hi) as Hn. destruct omd as [md|]; [|done]. rewrite fmap_cons. apply NoDup_cons. split; [|done].
    intros (b & Hk & ([text' ob] & Hin & Eb)%list_elem_of_omap)%list_elem_of_fmap. cbn in Eb. subst ob. apply (Hfresh md eq_refl). rewrite Hk. by apply (v_fresh _ Hi text').
  - intros text' md Hin. unfold pending in Hin. cbn [omap list_omap pend] in Hin. apply elem_of_cons in Hin as [[= -> <-]|Hin].
    + split_and!; [rewrite fmap_app, elem_of_app; left; by left| |]; intros i m b Hm Hb Hk; apply (Hfresh md eq_refl); rewrite <- Hk.
      * by apply (v_message _ Hi i m).
      * by apply (v_seen _ Hi i m).
    + destruct (v_fresh _ Hi text' md Hin) as (H1 & H2). split; [by apply Hused|done].
  - intros text' omd' Hin. unfold pending in Hin. cbn [omap list_omap pend] in Hin. apply elem_of_cons in Hin as [[= -> ->]|Hin]; [done|by apply (v_carries _ Hi)].
  - intros text' md [[= -> <-]|Hin]%elem_of_cons; [|by apply Hhas, (v_entry _ Hi text')]. unfold has. rewrite Hreg, decide_True by done. set_solver.
  - intros text' md [[=]|Hin]%elem_of_cons. by apply (v_stray _ Hi text').
  - intros i m a Hm Hx. destruct (v_seen _ Hi i m a Hm Hx) as [H1 H2]. split; [by apply Hused|done].
  - intros i md [[=]|Hin]%elem_of_cons. by apply (v_acking _ Hi).
  - intros i m md Hm Hx. unfold covered. cbn [c_queue c_acts c_raised]. destruct (v_cover _ Hi i m md Hm Hx) as [H|[(a & Ha & H)|H]];
      [left; auto|right; left; exists a; split; [by right|done]|by right; right].
Qed.

Lemma inv_seen c i m : conf_inv c -> (i, m) ∈ messages (c_queue c) ->
  conf_inv (MkConf (c_queue c) (c_acts c) ((i, m) :: c_seen c) (c_used c) (c_raised c)).
Proof.
  intros Hi Hin. split; cbn [c_queue c_acts c_seen c_used c_raised]; try apply Hi.
  - intros text md Hp. destruct (v_fresh _ Hi text md Hp) as (H1 & H2 & H3). split_and!; [done|done|]. intros j m' b [[= -> ->]|Hs]%elem_of_cons; [by apply (H2 i m)|by apply (H3 j m')].
  - intros j m' a [[= -> ->]|Hs]%elem_of_cons Hx; [|by apply (v_seen _ Hi j m')]. split; [by apply (v_message _ Hi i m)|].
    intros i' m2 b Hm2 Hb Hk. by apply (v_distinct _ Hi i' m2 i m b a).
  - intros j md Ha. destruct (v_acking _ Hi j md Ha) as (m' & H1 & H2). exists m'. split; [by right|done].
Qed.

Lemma clear_write_spec q :
  match fs_write path "clear" [] q with
  | (Ok _, q') => messages q' = []
  | (Err _, q') => messages q' `sublist_of` messages q
  end /\ forall t, work (fs_write path "clear" [] q).2 t = work q t.
Proof.
  unfold fs_write, on_fs. destruct (qf_write (q_fs q) (sub path "clear") []) as [[x|e] f] eqn:E; (split; [|done]).
  - by apply qf_clear_ok in E.
  - by apply qf_clear_err in E.
Qed.

Lemma work_has q q' : (forall t, work q' t = work q t) -> forall md, has q md -> has q' md.
Proof. intros H md. unfold has. by rewrite H. Qed.

Lemma queue_step_inv c c' : queue_step c c' -> conf_inv c -> conf_inv c'.
Proof.
  intros Hst Hi. destruct Hst as [q acts seen used raised text omd idx Hcar Hf Hreg|q q' i acts rest seen used raised text omd Ha Hs
    |q q' e acts rest seen used raised text omd Ha Hs|q acts rest seen used raised text omd Ha|q acts rest seen used raised text omd Ha
    |q acts seen used raised i m Hm|q acts seen used raised i m md idle idx Hm Hx Hr|q q' x acts rest seen used raised i md Ha Hw
    |q q' acts rest seen used raised i md Ha Hw|q acts seen used raised|q acts rest seen used raised i md mds Ha
    |q q' x acts rest seen used raised mds Ha Hw|q q' acts rest seen used raised mds Ha Hw|q q' acts seen used raised Hsub Hw];
    [by apply (inv_register _ text omd idx Hi)| | | | |by apply (inv_seen _ i m Hi)|by apply (inv_remove _ i m md true idle idx Hi)| | | | | | |].
  - pose proof (send_spec text q) as Hspec. rewrite Hs in Hspec. destruct Hspec as (Hw & Hni & m & Hmm & _ & Hd).
    apply (inv_append _ q' (Sending text omd) rest raised text omd Hi); [done|done|by exists i, m|done|done|]. intros md ->. left.
    apply (v_entry _ Hi text). cbn [c_acts]. rewrite Ha. by left.
  - pose proof (send_spec text q) as Hspec. rewrite Hs in Hspec. destruct Hspec as (Hw & Hor). pose proof (inv_drop _ text omd rest rest Hi Ha ltac:(by left)) as Hd.
    pose proof (dropped_work omd q q' Hw) as Hdw. pose proof (work_has _ _ Hdw) as Hhas.
    destruct Hor as [Hm|Happ].
    + apply (inv_shrink _ (dropped omd q') rest _ [] Hd); [cbn; by rewrite !dropped_messages, Hm|done| | | |]; cbn [c_acts c_seen].
      * intros text' md Hin. split; [done|]. apply Hhas.
      * apply (v_stray _ Hd).
      * apply (v_acking _ Hd).
      * intros j m md _ _ [H|H]; [left; by apply Hhas|by right].
    + assert (conf_inv (MkConf (dropped omd q) (Stray text omd :: rest) seen used (option_list omd ++ raised))) as Hd2
        by exact (inv_drop _ text omd rest _ Hi Ha ltac:(by right)).
      apply (inv_append _ (dropped omd q') (Stray text omd) rest _ text omd Hd2); [done|done| | |done|].
      * destruct Happ as (j & m & H1 & H2 & H3). exists j, m. cbn [c_queue]. by rewrite !dropped_messages.
      * exact Hdw.
      * intros md ->. right. apply list_elem_of_fmap. exists md. split; [done|by left].
  - exact (inv_drop _ text omd rest _ Hi Ha ltac:(by right)).
  - assert (forall t, work (send text q).2 t = work q t) as Hw by (pose proof (send_spec text q) as H; destruct (send text q) as [r q']; apply H).
    destruct (send_messages text q) as [Hm|Happ].
    + apply (inv_shrink _ _ rest raised [(text, omd)] Hi); [cbn; by rewrite Hm|cbn [c_acts]; by rewrite (pending_perm _ _ Ha)| | | |]; cbn [c_acts c_seen].
      * intros text' md Hin. split; [rewrite Ha; by right|by apply work_has].
      * intros text' md Hin. apply (v_stray _ Hi text'). cbn [c_acts]. rewrite Ha. by right.
      * intros j md Hin. apply (v_acking _ Hi). cbn [c_acts]. rewrite Ha. by right.
      * intros j m md _ _ [H|[(a & Hin & H)|H]]; [left; by apply (work_has _ _ Hw)| |by right; right]. right; left. exists a. split; [|done].
        cbn [c_acts] in Hin. rewrite Ha in Hin. by apply elem_of_cons in Hin as [->|?].
    + apply (inv_append _ _ (Stray text omd) rest raised text omd Hi); [done|done|done|done|done|]. intros md ->. right.
      apply (v_stray _ Hi text). cbn [c_acts]. rewrite Ha. by left.
  - pose proof (ack_write_spec i q) as [Hm Hwk]. rewrite Hw in Hm, Hwk. cbn [snd] in Hwk.
    apply (inv_end _ q' _ rest Hi Ha); [done|cbn; rewrite Hm; apply sublist_filter|by apply work_has|].
    intros j m b Hin Hb (a & ->%list_elem_of_singleton & Hk). rewrite Hm in Hin. apply list_elem_of_filter in Hin as [Hne Hin].
    destruct (v_acking _ Hi i md) as (m0 & Hm0 & Hx0); [cbn [c_acts]; rewrite Ha; by left|].
    destruct (v_seen _ Hi i m0 md Hm0 Hx0) as [_ Hown]. destruct Hne. cbn. by apply (Hown j m b).
  - assert (messages q' `sublist_of` messages q /\ forall t, work q' t = work q t) as [Hsub Hwk].
    { destruct Hw as [->|[e Hw]]; [done|]. pose proof (ack_write_spec i q) as [Hm Hwk]. by rewrite Hw in Hm, Hwk. }
    apply (inv_end _ _ _ rest Hi Ha); [done|cbn; by rewrite (proj1 (rollback_work md q' []))| |].
    + intros b Hb. apply rollback_has. left. by apply (work_has _ _ Hwk).
    + intros j m b _ _ (a & ->%list_elem_of_singleton & Hk). apply rollback_has. by right.
  - apply (inv_shrink _ q _ raised [] Hi); [done|done| | | |]; cbn [c_acts c_seen].
    + intros text md [[=]|H]%elem_of_cons. by split.
    + intros text md [[=]|H]%elem_of_cons. by apply (v_stray _ Hi text).
    + intros j md [[=]|H]%elem_of_cons. by apply (v_acking _ Hi).
    + intros j m md _ _ [H|[(a & Hin & H)|H]]; [by left|right; left; exists a; split; [by right|done]|by right; right].
  - assert (forall x, x ∈ rest -> x ∈ acts) as Hin by (intros x Hx; rewrite Ha; by do 2 right).
    apply (inv_shrink _ q _ raised [] Hi); [done|cbn [c_acts]; by rewrite (pending_perm _ _ Ha)| | | |]; cbn [c_acts c_seen].
    + intros text b [[=]|H]%elem_of_cons. split; [by apply Hin|done].
    + intros text b [[=]|H]%elem_of_cons. by apply (v_stray _ Hi text), Hin.
    + intros j b [[=]|H]%elem_of_cons. by apply (v_acking _ Hi), Hin.
    + intros j m b _ _ [H|[(a & Hb & H)|H]]; [by left| |by right; right]. right; left. cbn [c_acts] in Hb. rewrite Ha in Hb.
      apply elem_of_cons in Hb as [->|[->|Hb]%elem_of_cons].
      * exists (Clearing (mds ++ [md])). split; [by left|]. rewrite fmap_app, elem_of_app. right. rewrite <- H. by left.
      * exists (Clearing (mds ++ [md])). split; [by left|]. rewrite fmap_app, elem_of_app. by left.
      * exists a. split; [by right|done].
  - pose proof (clear_write_spec q) as [Hm Hwk]. rewrite Hw in Hm, Hwk. apply (inv_end _ q' _ rest Hi Ha); [done|cbn; rewrite Hm; apply sublist_nil_l|by apply work_has|].
    intros j m b Hin. rewrite Hm in Hin. by apply elem_of_nil in Hin.
  - assert (messages q' `sublist_of` messages q /\ forall t, work q' t = work q t) as [Hsub Hwk].
    { destruct Hw as [->|[e Hw]]; [done|]. pose proof (clear_write_spec q) as [Hm Hwk]. by rewrite Hw in Hm, Hwk. }
    apply (inv_end _ _ _ rest Hi Ha); [done|cbn; by rewrite (proj1 (rollback_all_spec mds q'))| |].
    + intros b Hb. apply rollback_all_has. left. by apply (work_has _ _ Hwk).
    + intros j m b _ _ (a & ->%list_elem_of_singleton & Hk). apply rollback_all_has. by right.
  - apply (inv_shrink _ q' acts raised [] Hi); [done|done| | | |]; cbn [c_acts c_seen].
    + intros text md H. split; [done|by apply work_has].
    + apply (v_stray _ Hi).
    + apply (v_acking _ Hi).
    + intros j m md _ _ [H|H]; [left; by apply (work_has _ _ Hw)|by right].
Qed.

Lemma queue_run_inv c c' : rtc queue_step c c' -> conf_inv c -> conf_inv c'.
Proof. induction 1 as [|c c1 c2 Hs _ IH]; [done|]. intros Hi. by apply IH, (queue_step_inv c). Qed.

(** *** The operations are such runs *)

Lemma quiet_gone q q' acts seen used raised : quiet q q' -> queue_step (MkConf q acts seen used raised) (MkConf q' acts seen used raised).
Proof. intros [Hm Hw]. apply CGone; [by rewrite Hm|done]. Qed.

Lemma put_index_quiet idx q : wi_work idx = wi_work (get_index (q_owner q)) -> quiet q (put_index idx q).
Proof. intros H. split; [done|]. intros t. unfold work, put_index. cbn [set_owner q_owner]. by rewrite Hlens, H. Qed.

Lemma finalized_quiet md q : quiet q (set_owner (callback md (q_owner q)).2 q).
Proof. split; [done|]. intros t. unfold work. cbn [set_owner q_owner]. by rewrite Hcallback. Qed.

Lemma not_removed_quiet md idle idx q : remove_work (get_index (q_owner q)) name md = (false, idle, idx) -> quiet q (put_index idx q).
Proof.
  intros E. split; [done|]. intros t. rewrite (removed_work _ _ _ _ _ _ E). pose proof (remove_work_spec _ _ _ _ _ _ E) as (Hr & _).
  case_decide; [|done]. subst. apply leibniz_equiv. intros e. rewrite elem_of_difference, elem_of_singleton. split; [tauto|]. intros He. split; [done|].
  intros ->. by apply Hr in He.
Qed.

(** [prepare_ack]: the entry is taken and the task finalised, or nothing is. *)
Lemma prepare_run i m q acts seen used raised : (i, m) ∈ seen ->
  let '(r, q') := prepare get_index set_index (Some callback) json_loads render name m q in
  rtc queue_step (MkConf q acts seen used raised) (MkConf q' (match r with Ok (Some md) => [Acking i md] | _ => [] end ++ acts) seen used raised).
Proof.
  intros Hm. unfold prepare, on_owner, prepare_ack. cbn [metadata_of].
  destruct (extract m) as [md|] eqn:Hx; [|apply rtc_once, quiet_gone; by split].
  destruct (remove_work (get_index (q_owner q)) name md) as [[removed idle] idx] eqn:E. destruct removed; cbn [negb].
  2: { apply rtc_once, quiet_gone. by apply (not_removed_quiet md idle). }
  pose proof (CRemove q acts seen used raised i m md idle idx Hm Hx E) as Hr. destruct idle; cbn [negb]; [|by apply rtc_once].
  pose proof (finalized_quiet md (put_index idx q)) as Hq. change (q_owner (put_index idx q)) with (set_index idx (q_owner q)) in Hq.
  destruct (callback md (set_index idx (q_owner q))) as [[[]|e] s']; cbn [snd] in Hq; (eapply rtc_l; [exact Hr|]).
  - apply rtc_once. cbn [app]. exact (quiet_gone _ _ _ _ _ _ Hq).
  - eapply rtc_l; [exact (quiet_gone _ _ _ _ _ _ Hq)|]. apply rtc_once. cbn [app].
    exact (CAckFailed (set_owner s' (put_index idx q)) (set_owner s' (put_index idx q)) (Acking i md :: acts) acts seen used raised i md ltac:(done) ltac:(by left)).
Qed.

(** [ack] of a message that was read. *)
Lemma ack_run i m q acts seen used raised : (i, m) ∈ seen ->
  rtc queue_step (MkConf q acts seen used raised) (MkConf (ack_op (VStr i) (Some m) q).2 acts seen used raised).
Proof.
  intros Hm. unfold ack. destruct (negb (py_truthy (VStr i))); [apply rtc_refl|]. pose proof (prepare_run i m q acts seen used raised Hm) as Hp.
  destruct (prepare _ _ _ _ _ _ m q) as [[o|e] q1]; cbn [snd]; [|exact Hp]. fold (ack_write i).
  pose proof (ack_write_spec i q1) as [Hw Hwork]. destruct o as [md|]; cbn [app] in Hp.
  - etrans; [exact Hp|]. destruct (ack_write i q1) as [[x|e] q2] eqn:E; cbn [snd]; apply rtc_once.
    + by eapply CAcked.
    + eapply CAckFailed; [done|right; eauto].
  - etrans; [exact Hp|]. apply rtc_once. destruct (ack_write i q1) as [[x|e] q2]; cbn [snd] in *; apply CGone; try done. rewrite Hw. apply sublist_filter.
Qed.

(** [clear]. *)
Lemma prepare_all_run ms acc q acts seen used raised : (forall m, m ∈ ms -> exists i, (i, m) ∈ seen) ->
  let '(mds, (_, q')) := prepare_all get_index set_index (Some callback) json_loads render name ms acc q in
  rtc queue_step (MkConf q (Clearing acc :: acts) seen used raised) (MkConf q' (Clearing mds :: acts) seen used raised).
Proof.
  revert acc q. induction ms as [|m ms IH]; intros acc q Hms; cbn [prepare_all]; [apply rtc_refl|].
  destruct (Hms m) as [i Hm]; [by left|]. assert (forall m', m' ∈ ms -> exists i, (i, m') ∈ seen) as Hms' by (intros m' H; apply Hms; by right).
  pose proof (prepare_run i m q (Clearing acc :: acts) seen used raised Hm) as Hp.
  destruct (prepare _ _ _ _ _ _ m q) as [[[md|]|e] q1]; cbn [app] in Hp; [| |exact Hp].
  - specialize (IH (acc ++ [md]) q1 Hms'). destruct (prepare_all _ _ _ _ _ _ ms _ q1) as [mds [r q2]]. etrans; [exact Hp|].
    eapply rtc_l; [|exact IH]. by apply (CClearHold _ _ _ _ _ _ i).
  - specialize (IH acc q1 Hms'). destruct (prepare_all _ _ _ _ _ _ ms acc q1) as [mds [r q2]]. by etrans.
Qed.

Lemma snapshot_messages q ms q' : snapshot json_loads path q = (Ok ms, q') -> forall m, m ∈ ms -> exists i, (i, m) ∈ messages q.
Proof.
  unfold snapshot. rewrite st_bind_unfold. pose proof (ensure_initialized_quiet q) as [Hm0 _].
  destruct (ensure_initialized path q) as [[[]|e] q0]; cbn [snd] in Hm0; [|done]. unfold st_of, fs_read, on_fs.
  destruct (qf_read (q_fs q0) (sub path "messages")) as [[c|e] f] eqn:E.
  - destruct (content_empty c) eqn:Ec; [intros [= <- _] m H; by apply elem_of_nil in H|].
    destruct (match c with CBytes b => utf8_decode b | CText s => Ok s | CNone => Ok [] end) as [text|] eqn:Et; [|done]. cbn [mbind result_bind].
    unfold loads. destruct (json_loads text) as [v|] eqn:Ej; [|done]. cbn [mbind result_bind]. intros [= <- _] m Hin.
    destruct v as [| | | | |l|]; try by apply elem_of_nil in Hin. destruct (qf_messages_msg _ _ _ _ _ _ E Ec Et Ej Hin) as [i Hi]. exists i. by rewrite <- Hm0.
  - destruct e; try done. intros [= <- _] m H. by apply elem_of_nil in H.
Qed.

Lemma seen_run q acts seen used raised (ms : list pyval) : (forall m, m ∈ ms -> exists i, (i, m) ∈ messages q) ->
  exists seen', rtc queue_step (MkConf q acts seen used raised) (MkConf q acts seen' used raised) /\ forall m, m ∈ ms -> exists i, (i, m) ∈ seen'.
Proof.
  revert seen. induction ms as [|m ms IH]; intros seen H; [exists seen; split; [apply rtc_refl|by intros m ?%elem_of_nil]|].
  destruct (H m) as [i Hi]; [by left|]. destruct (IH seen) as (seen' & Hrun & Hs); [intros m' Hm'; apply H; by right|].
  exists ((i, m) :: seen'). split; [eapply rtc_r; [exact Hrun|by apply CSeen]|].
  intros m' [->|Hm']%elem_of_cons; [exists i; by left|]. destruct (Hs m' Hm') as [j Hj]. exists j. by right.
Qed.

Lemma clear_run q acts seen used raised :
  exists seen', rtc queue_step (MkConf q acts seen used raised) (MkConf (clear_op q).2 acts seen' used raised).
Proof.
  unfold clear. rewrite st_bind_unfold. pose proof (ensure_initialized_quiet q) as Hq0.
  destruct (ensure_initialized path q) as [[[]|e] q0]; cbn [snd] in *; [|exists seen; by apply rtc_once, quiet_gone].
  rewrite st_bind_unfold. pose proof (snapshot_quiet q0) as Hq1. pose proof (snapshot_messages q0) as Hsn.
  destruct (snapshot json_loads path q0) as [[ms|e] q1]; cbn [snd] in *; [|exists seen; eapply rtc_l; [by apply quiet_gone|]; by apply rtc_once, quiet_gone].
  destruct (seen_run q1 acts seen used raised ms) as (seen' & Hseen & Hms).
  { intros m Hm. destruct (Hsn _ _ eq_refl m Hm) as [i Hi]. exists i. by rewrite (proj1 Hq1). }
  exists seen'. eapply rtc_l; [by apply quiet_gone|]. eapply rtc_l; [by apply quiet_gone|]. etrans; [exact Hseen|].
  eapply rtc_l; [apply CClearStart|]. unfold st_of. pose proof (prepare_all_run ms [] q1 acts seen' used raised Hms) as Hp.
  destruct (prepare_all _ _ _ _ _ _ ms [] q1) as [mds [r q2]]. etrans; [exact Hp|]. destruct r as [[]|e]; cbn [snd].
  - destruct (fs_write path "clear" [] q2) as [[x|e] q3] eqn:E; cbn [mbind result_bind]; apply rtc_once.
    + by eapply CCleared.
    + eapply CClearFailed; [done|right; eauto].
  - apply rtc_once. eapply CClearFailed; [done|by left].
Qed.

(** [enqueue] of a dict with a fresh work id. *)
Lemma enqueue_op_run current uuid4 d payload omd q acts seen used raised :
  uuid4 <> [] -> prepare_task_payload render current uuid4 d = (payload, omd) -> json_loads (json_dumps payload) = Some (VDict payload) ->
  (forall md, omd = Some md -> key md ∉ key <$> used) ->
  exists used' raised', rtc queue_step (MkConf q acts seen used raised) (MkConf (enqueue_op current uuid4 (DDict d) q).2 acts seen used' raised').
Proof.
  intros Hu Hprep Hj Hf.
  assert (carries (json_dumps payload) omd) as Hcar.
  { intros m Hm. pose proof (enqueued_metadata json_loads render Hstr current uuid4 d payload omd m _ Hu Hprep Hm Hj) as H.
    destruct omd as [md|]; [|done]. destruct H as (md' & H & H1 & H2). exists md'. split; [done|]. unfold key. by rewrite H1, H2. }
  unfold enqueue. rewrite st_bind_unfold. pose proof (ensure_initialized_quiet q) as Hq0.
  destruct (ensure_initialized path q) as [[[]|e] q0]; cbn [snd] in *; [|exists used, raised; by apply rtc_once, quiet_gone].
  rewrite st_bind_unfold. cbn [plain_hook mret ST_ret]. rewrite Hprep. rewrite st_bind_unfold. unfold st_of at 1.
  destruct (register (is_cancellation_requested (q_owner q0)) (get_index (q_owner q0)) name omd) as [ok idx] eqn:Er. fold (put_index idx q0).
  destruct ok; cbn [negb].
  2: { exists used, raised. eapply rtc_l; [by apply quiet_gone|]. apply rtc_once, quiet_gone. cbn [st_raise snd]. apply put_index_quiet.
       unfold register in Er. destruct omd as [md|]; [|done]. destruct (cancellation_requested _ _); [by injection Er as <-|done]. }
  unfold st_of. fold (send (json_dumps payload)). set (q1 := put_index idx q0).
  assert (rtc queue_step (MkConf q acts seen used raised) (MkConf q1 (Sending (json_dumps payload) omd :: acts) seen (option_list omd ++ used) raised)) as Hreg.
  { eapply rtc_l; [by apply quiet_gone|]. apply rtc_once. by apply CRegister. }
  destruct (send (json_dumps payload) q1) as [[i|e] q2] eqn:Es; cbn [snd].
  - exists (option_list omd ++ used), raised. eapply rtc_r; [exact Hreg|]. by eapply CSent.
  - exists (option_list omd ++ used), (option_list omd ++ raised). etrans; [exact Hreg|]. eapply rtc_l; [by eapply CSendFailed|].
    destruct omd as [md|]; [|apply rtc_refl]. rewrite st_bind_unfold. unfold dropped, discard_work, on_owner, discard. cbn [metadata_of].
    destruct (remove_work (get_index (q_owner q2)) name md) as [[removed idle] ix]. cbn [snd]. destruct idle; [|apply rtc_refl].
    pose proof (finalized_quiet md (put_index ix q2)) as Hfin. change (q_owner (put_index ix q2)) with (set_index ix (q_owner q2)) in Hfin.
    destruct (callback md (set_index ix (q_owner q2))) as [[[]|e'] s']; by apply rtc_once, quiet_gone.
Qed.

(** C12: However producers, consumers, clears and failures interleave at their waits, the
    durable message of a task keeps the task's work entry, so that the task is seen to
    have work, except while an [ack] or a [clear] that has taken the entry is settling
    the message (it gives the entry back if it fails), and except for a message whose
    [enqueue] raised: the write may still have happened, or may happen later in the
    thread a cancelled [enqueue] leaves behind, after the entry was discarded.  The
    interleaved sections make up [enqueue] (of a payload that survives JSON, with a work
    id that was not used before), [ack] (of a message that was read) and [clear]. *)
Theorem queue_never_forgets :
  (forall (c c' : conf) (i : pystr) (m : pyval) (md : QueueTaskMetadata),
     conf_inv c -> rtc queue_step c c' -> (i, m) ∈ messages (c_queue c') -> extract m = Some md ->
     has_work (get_index (q_owner (c_queue c'))) (md_task_id md) None = true \/ held (c_acts c') md \/ key md ∈ key <$> c_raised c') /\
  (forall q acts seen used raised current uuid4 d,
     let '(payload, omd) := prepare_task_payload render current uuid4 d in
     uuid4 <> [] -> json_loads (json_dumps payload) = Some (VDict payload) -> (forall md, omd = Some md -> key md ∉ key <$> used) ->
     exists used' raised', rtc queue_step (MkConf q acts seen used raised) (MkConf (enqueue_op current uuid4 (DDict d) q).2 acts seen used' raised')) /\
  (forall q acts seen used raised i m, (i, m) ∈ seen ->
     rtc queue_step (MkConf q acts seen used raised) (MkConf (ack_op (VStr i) (Some m) q).2 acts seen used raised)) /\
  (forall q acts seen used raised, exists seen',
     rtc queue_step (MkConf q acts seen used raised) (MkConf (clear_op q).2 acts seen' used raised)).
Proof.
  split_and!.
  - intros c c' i m md Hi Hrun Hin Hx. pose proof (queue_run_inv _ _ Hrun Hi) as Hi'.
    destruct (v_cover _ Hi' i m md Hin Hx) as [H|H]; [left|by right]. apply has_work_spec. left. unfold has, work in H. set_solver.
  - intros q acts seen used raised current uuid4 d. destruct (prepare_task_payload render current uuid4 d) as [payload omd] eqn:E.
    intros Hu Hj Hf. by eapply enqueue_op_run.
  - intros. by apply ack_run.
  - intros. apply clear_run.
Qed.

(** Enqueueing either stores one new message that carries the payload and registers
    its work item, or raises and leaves no work item behind; a message that was written
    all the same then carries the payload. *)
Theorem enqueue_outcome (current : option TaskExecutionContext) (uuid4 : pystr) (d payload : pydict)
    (omd : option QueueTaskMetadata) (q : Q) :
  prepare_task_payload render current uuid4 d = (payload, omd) ->
  (forall md, omd = Some md -> (name, md_work_id md) ∉ work q (md_task_id md)) ->
  let '(r, q') := enqueue_op current uuid4 (DDict d) q in
  match r with
  | Ok i => i ∉ (fst <$> messages q)
      /\ (exists m, messages q' = messages q ++ [(i, VDict m)] /\ dict_get m (u "data") = Some (VStr (json_dumps payload)))
      /\ registered omd q q'
  | Err _ => (messages q' = messages q \/ appended (json_dumps payload) q q') /\ forall t, work q' t = work q t
  end.
Proof.
  intros Hp Hnew. pose proof (enqueue_spec current uuid4 d payload omd q Hp) as Hs.
  destruct (enqueue_op current uuid4 (DDict d) q) as [[i|e] q']; [naive_solver|]. destruct Hs as [Hm Hw]. split; [done|].
  intros t. apply leibniz_equiv. intros x. destruct (Hw t x) as [H1 H2]. split; [done|]. intros Hx. apply H2; [done|].
  intros md E [Ht ->]. subst t. by apply (Hnew md).
Qed.

(** ** Workers *)

Definition same_counts (q q' : Q) : Prop :=
  q_in_progress q' = q_in_progress q /\ q_processed q' = q_processed q /\ q_error_count q' = q_error_count q.

Lemma ack_counts i m q : let '(r, q') := ack_op i (Some m) q in same_counts q q' /\ forall e, r = Err e -> is_exception e = false.
Proof.
  unfold ack. destruct (negb (py_truthy i)); [done|].
  assert (same_counts q (snd (prepare get_index set_index (Some callback) json_loads render name m q))) as Hp.
  { unfold prepare, on_owner. by destruct (prepare_ack _ _ _ _ _ _ _ (q_owner q)). }
  destruct (prepare _ _ _ _ _ _ m q) as [[o|e] q1]; cbn [snd] in Hp.
  2: { split; [done|]. intros e'. destruct (is_exception e) eqn:E; [done|]. by intros [= <-]. }
  rewrite st_bind_unfold. cbn [st_lift]. destruct (id_bytes i) as [raw|e].
  - unfold fs_write, on_fs. destruct (qf_write (q_fs q1) (sub path "ack") raw) as [[x|e] f].
    + by split.
    + split; [by destruct o|]. intros e'. destruct (is_exception e) eqn:E; [done|]. by intros [= <-].
  - split; [by destruct o|]. intros e'. destruct (is_exception e) eqn:E; [done|]. by intros [= <-].
Qed.

Abbreviation process_op h := (process_dequeued get_index set_index is_cancellation_requested json_loads render true (Some h)).
Abbreviation process_one_op h := (process_one get_index set_index is_cancellation_requested (Some callback) json_loads render name path true (Some h)).

(** One more error, one less in progress; messages and entries as they were. *)
Definition error_counted (q q' : Q) : Prop :=
  q_in_progress q' = (q_in_progress q - 1)%Z /\ q_processed q' = q_processed q /\ q_error_count q' = (q_error_count q + 1)%Z /\ quiet q q'.

(** C13: A concurrent worker settles each message it was given, whatever the handler does.
    When the handler's run returns, the worker acknowledges the message and counts
    nothing of its own: the handler's own reports stand (a handler that returns without
    one leaves the message counted as in progress).  When the run raises, the worker
    counts exactly one error and one message less in progress, records the failure, and
    does not acknowledge: the message and its work entry stay.  Only the cancellation of
    the worker escapes, and then nothing is counted. *)
Theorem process_one_settles (h : handler) (current : option TaskExecutionContext) (active : option N) (text : exn -> pystr) (m : pyval) (q : Q) :
  let '(ran, q1) := process_op h current active m q in
  let '(r, q2) := process_one_op h current active text m q in
  match ran with
  | Ok _ => q2 = (ack_op (message_id m) (Some m) q1).2 /\ same_counts q1 q2 /\ match r with Ok _ => True | Err e => is_exception e = false end
  | Err e => if is_exception e
             then r = Ok tt /\ error_counted q1 q2 /\
                  forall md, extract m = Some md -> failure (get_index (q_owner q2)) (md_task_id md) = Some (default (text e) (failure (get_index (q_owner q1)) (md_task_id md)))
             else r = Err e /\ q2 = q1
  end.
Proof.
  unfold process_one. rewrite st_bind_unfold. destruct (process_op h current active m q) as [[x|e] q1].
  - pose proof (ack_counts (message_id m) m q1) as Ha. destruct (ack_op (message_id m) (Some m) q1) as [[y|e] q2]; [by destruct Ha|].
    destruct Ha as [Hc Ha]. pose proof (Ha e eq_refl) as E. rewrite E. done.
  - destruct (is_exception e) eqn:E; [|done]. unfold on_process_error. rewrite st_bind_unfold. cbn [st_gets]. rewrite st_bind_unfold.
    destruct (extract m) as [md|] eqn:Hx; cbn [set_q_index st_modify mret ST_ret count_error set_owner].
    + split; [done|]. split; [split_and!; try done; split; [done|]; intros t; unfold work; cbn [set_owner q_owner]; by rewrite Hlens|].
      intros md' [= <-]. cbn [set_owner q_owner]. rewrite Hlens. unfold failure, record_failure. cbn [wi_failures].
      destruct (wi_failures (get_index (q_owner q1)) !! md_task_id md) as [old|] eqn:Ef; [by rewrite Ef|]. by rewrite lookup_insert_eq.
    + split; [done|]. split; [split_and!; try done; by split|done].
Qed.
End queues.

(** ** A one-slot queue *)

Module OneSlot.
Definition path : pystr := u "/q".
Definition name : pystr := u "Semantic".
Definition d : pydict := [(u "task_id", VStr (u "t"))].
Definition render (_ : pyval) : pystr := u "x".
Definition payload : pydict := fst (prepare_task_payload render None (u "w") d).
Definition envelope : pyval := VDict [(u "id", VStr (u "1")); (u "data", VStr (u "p"))].

Definition json_dumps (_ : pydict) : pystr := u "p".
Definition json_loads (s : pystr) : option pyval :=
  if seqb s (u "p") then Some (VDict payload) else if seqb s (u "m") then Some envelope else None.

(** The slot holds the message or not; it accepts the payload once, and its own id. *)
#[global] Instance slot : QueueFS bool := {|
  qf_mkdir f _ := (Ok tt, f);
  qf_write f p raw :=
    if seqb p (leaf_path path "enqueue") then
      (if negb f && seqb raw (u "p") then (Ok (u "1"), true) else (Err OtherError, f))
    else if seqb p (leaf_path path "ack") then
      (if seqb raw (u "1") then (Ok [], false) else (Err OtherError, f))
    else if seqb p (leaf_path path "clear") then (Ok [], false)
    else (Err NotFoundError, f);
  qf_read f p := (Ok (if f && seqb p (leaf_path path "dequeue") then CText (u "m") else CNone), f) |}.

Definition view (f : bool) : list (pystr * pyval) := if f then [(u "1", envelope)] else [].

Lemma encode_inj a b x : utf8_encode a = Ok x -> utf8_encode b = Ok x -> a = b.
Proof. intros Ha%utf8_roundtrip Hb%utf8_roundtrip. congruence. Qed.

#[global] Instance slot_ok : QueueFSOk bool path json_loads.
Proof.
  refine {| qf_view := view |}.
  - by intros f p r f' [= _ <-].
  - by intros f p r f' [= _ <-].
  - intros f text raw i f' Ht. cbn [qf_write slot]. eval_seqb.
    destruct f; cbn [negb andb]; [done|]. destruct (seqb raw (u "p")) eqn:E; [|done]. apply seqb_true in E. intros [= <- <-].
    split; [by intros ?%elem_of_nil|]. exists [(u "id", VStr (u "1")); (u "data", VStr (u "p"))]. split; [done|].
    assert (text = u "p") as -> by (apply (encode_inj _ _ raw); [done|by subst]). by vm_compute.
  - intros f text raw e f' _. cbn [qf_write slot]. eval_seqb. destruct (negb f && _); intros [= _ <-]; by left.
  - intros f i raw x f' Hi. cbn [qf_write slot]. eval_seqb. destruct (seqb raw (u "1")) eqn:E; [|done].
    apply seqb_true in E. intros [= _ <-]. assert (i = u "1") as -> by (apply (encode_inj _ _ raw); [done|by subst]).
    by destruct f; vm_compute.
  - intros f raw e f'. cbn [qf_write slot]. eval_seqb. by destruct (seqb raw (u "1")); intros [= _ <-].
  - intros f x f'. cbn [qf_write slot]. eval_seqb. by intros [= _ <-].
  - intros f e f'. cbn [qf_write slot]. by eval_seqb.
  - intros f c f' raw text m. cbn [qf_read slot]. eval_seqb. rewrite andb_true_r. intros [= <- <-] Hc _ Hb Ht Hj. destruct f; [|done].
    cbn [content_bytes] in Hb. rewrite (utf8_roundtrip _ _ Hb) in Ht. injection Ht as <-.
    assert (m = envelope) as -> by (vm_compute in Hj; by injection Hj as <-). exists (u "1"). split; [by left|by vm_compute].
  - intros f c f' text l m. cbn [qf_read slot]. eval_seqb. rewrite andb_false_r. by intros [= <- <-].
Defined.

Definition empty : queue TaskWorkIndex bool := MkQueue (MkIndex ∅ ∅ ∅) false false 0 0 0 0 [].
Definition callback (_ : QueueTaskMetadata) : ST TaskWorkIndex unit := mret tt.
Definition set_index (i : TaskWorkIndex) (_ : TaskWorkIndex) : TaskWorkIndex := i.

Lemma Hstr v : py_truthy v = true -> py_str render v <> [].
Proof. destruct v; cbn; try done. intros H%nonempty_true. done. Qed.

Definition enqueue_d := enqueue (fun i => i) set_index (fun _ => None) (Some callback) json_loads json_dumps render name path true plain_hook
  None (u "w") (DDict d).
Definition sent : queue TaskWorkIndex bool := snd (enqueue_d empty).
Definition conf0 : @conf TaskWorkIndex bool := MkConf empty [] [] [] [].

Lemma conf0_inv : conf_inv (fun i => i) json_loads render name path conf0.
Proof.
  split; cbn [conf0 c_queue c_acts c_seen c_used c_raised pending omap list_omap].
  - intros i m md H. by apply elem_of_nil in H.
  - intros i1 m1 i2 m2 a b H. by apply elem_of_nil in H.
  - apply NoDup_nil_2.
  - intros text md H. by apply elem_of_nil in H.
  - intros text omd H. by apply elem_of_nil in H.
  - intros text md H. by apply elem_of_nil in H.
  - intros text md H. by apply elem_of_nil in H.
  - intros i m a H. by apply elem_of_nil in H.
  - intros i md H. by apply elem_of_nil in H.
  - intros i m md H. by apply elem_of_nil in H.
Qed.

(** The queue after one payload was sent: its task has work, or its sender raised. *)
Lemma queue_never_forgets_witness : exists c md, c_queue c = sent /\ md_task_id md = u "t" /\
  (has_work (q_owner sent) (u "t") None = true \/ held (c_acts c) md \/ key md ∈ key <$> c_raised c).
Proof.
  destruct (extract_task_metadata json_loads render envelope) as [md|] eqn:Ex; [|by vm_compute in Ex].
  assert (md_task_id md = u "t") as Et by (vm_compute in Ex; by injection Ex as <-).
  destruct (queue_never_forgets (fun i => i) set_index (fun _ => None) callback json_loads json_dumps render name path
    (fun _ _ => eq_refl) (fun _ _ => eq_refl) Hstr) as (Hinv & Hsend & _).
  destruct (Hsend empty [] [] [] [] None (u "w") d) as (used & raised & Hrun); [done|by vm_compute|intros md' _ H; by apply elem_of_nil in H|].
  exists (MkConf sent [] [] used raised), md. split; [done|]. split; [done|]. rewrite <- Et.
  assert ((u "1", envelope) ∈ messages json_loads path sent) as Hin by (change (messages json_loads path sent) with (view (q_fs sent)); vm_compute; left).
  exact (Hinv conf0 (MkConf sent [] [] used raised) (u "1") envelope md conf0_inv Hrun Hin Ex).
Defined.

(** A cancelled sender: its entry is discarded, its thread writes the message, and the
    task has no work in the index. *)
Example cancelled_enqueue_forgets :
  exists c md, rtc (queue_step (fun i => i) set_index (fun _ => None) json_loads render name path) conf0 c
    /\ (u "1", envelope) ∈ messages json_loads path (c_queue c) /\ extract_task_metadata json_loads render envelope = Some md
    /\ has_work (q_owner (c_queue c)) (md_task_id md) None = false.
Proof.
  destruct (prepare_task_payload render None (u "w") d) as [p omd] eqn:Ep.
  assert (p = payload) as -> by (unfold payload; by rewrite Ep).
  assert (carries json_loads render (u "p") omd) as Hcar.
  { intros m Hm. pose proof (enqueued_metadata json_loads render Hstr None (u "w") d payload omd m (u "p") ltac:(done) Ep Hm ltac:(by vm_compute)) as H.
    destruct omd as [md|]; [|done]. destruct H as (md' & H & H1 & H2). exists md'. split; [done|]. unfold key. by rewrite H1, H2. }
  destruct (register None (q_owner empty) name omd) as [ok idx] eqn:Er.
  vm_compute in Ep. injection Ep as <-. vm_compute in Er. injection Er as <- <-.
  eexists _, _. split; [|split_and!].
  - eapply rtc_l; [eapply (CRegister _ _ _ _ _ _ _ empty [] [] [] [] (u "p")); [exact Hcar|intros md _ H; by apply elem_of_nil in H|by vm_compute]|].
    eapply rtc_l; [by eapply CSendCancelled|]. apply rtc_once. by eapply CStray.
  - cbn [c_queue]. change (messages json_loads path ?q) with (view (q_fs q)). vm_compute. left.
  - by vm_compute.
  - by vm_compute.
Qed.

Lemma enqueue_outcome_witness : exists i, fst (enqueue_d empty) = Ok i /\ i ∉ (fst <$> view false).
Proof.
  pose proof (enqueue_outcome (fun i => i) set_index (fun _ => None) callback json_loads json_dumps render name path
    (fun _ _ => eq_refl) (fun _ _ => eq_refl) Hstr None (u "w") d payload
    (snd (prepare_task_payload render None (u "w") d)) empty eq_refl) as H.
  assert (forall md, snd (prepare_task_payload render None (u "w") d) = Some md ->
            (name, md_work_id md) ∉ work (F := bool) (fun i : TaskWorkIndex => i) empty (md_task_id md)) as H0.
  { intros md _. unfold work, entries. cbn [q_owner empty wi_work]. rewrite lookup_empty. set_solver. }
  specialize (H H0). fold enqueue_d in H. destruct (enqueue_d empty) as [[i|e] q'] eqn:E.
  - exists i. by destruct H as [H _].
  - exfalso. assert (is_ok (fst (enqueue_d empty)) = true) as Hok by by vm_compute. by rewrite E in Hok.
Defined.

(** A handler that raises without reporting. *)
Definition raises : @handler TaskWorkIndex bool := MkHandler (fun _ _ => st_raise OtherError) default_on_cancelled.

Definition worked := process_one (fun i => i) set_index (fun _ => None) (Some callback) json_loads render name path true (Some raises) None None
  (fun _ => u "error") envelope sent.

Lemma process_one_settles_witness : worked.1 = Ok tt /\ error_counted (fun i => i) json_loads path sent worked.2.
Proof.
  pose proof (process_one_settles (fun i => i) set_index (fun _ => None) callback json_loads render name path (fun _ _ => eq_refl)
    raises None None (fun _ => u "error") envelope sent) as H. fold worked in H.
  destruct (process_dequeued (fun i => i) set_index (fun _ => None) json_loads render true (Some raises) None None envelope sent) as [ran q1] eqn:E.
  assert (ran = Err OtherError /\ q1 = sent) as [-> ->] by (vm_compute in E |- *; by injection E as <- <-).
  destruct worked as [r q2]. by destruct H as (-> & H & _).
Defined.

(** The sequential consumer swallows the exception of a handler that did not report, and
    leaves the message counted as in progress. *)
Example failed_dequeue_stays_in_progress :
  let '(r, q') := dequeue (fun i => i) set_index (fun _ => None) (Some callback) json_loads render name path true (Some raises) None None sent in
  r = Ok None /\ q_in_progress sent = 0%Z /\ q_in_progress q' = 1%Z /\ q_error_count q' = 0%Z.
Proof. by vm_compute. Qed.
End OneSlot.
