(* ===== verification/Assembler.v ===== *)
(** Context assembly: detail tiers, the token budget and the rendering of retrieved
    context, [retrieve/context_assembler/{params,models,tiers,budget,render}.py].

    The overview of a body is computed by text extraction over source code, memory files
    and documents; it is an argument here. *)
From Stdlib Require Import NArith ZArith.
From S2P Require Import Prelude PyStr PyVal Identifiers Tokens.

Open Scope N_scope.

(** ** Parameters *)

Inductive Tier := TUri | TAbstract | TOverview | TFull.

#[export] Instance tier_eq_dec : EqDecision Tier.
Proof. solve_decision. Defined.

Definition tier_name (t : Tier) : pystr :=
  match t with TUri => u "uri" | TAbstract => u "abstract" | TOverview => u "overview" | TFull => u "full" end.

Definition TIER_ORDER : list Tier := [TUri; TAbstract; TOverview; TFull].

Definition TIER_RANK (t : Tier) : nat := match t with TUri => 0 | TAbstract => 1 | TOverview => 2 | TFull => 3 end%nat.

Definition MEMORY_CATEGORIES : list pystr := [u "events"; u "entities"; u "preferences"; u "experiences"].
Definition OTHER_MEMORY_CATEGORY : pystr := u "memories".
Definition CATEGORY_KEYS : list pystr := MEMORY_CATEGORIES ++ [u "resources"; u "skills"].
Definition REPORTED_CATEGORY_KEYS : list pystr := CATEGORY_KEYS ++ [OTHER_MEMORY_CATEGORY].

(** [tier in PINNABLE_TIERS], with the tier it names. *)
Definition pinnable (v : pyval) : option Tier :=
  match v with
  | VStr s => if seqb s (u "abstract") then Some TAbstract
              else if seqb s (u "overview") then Some TOverview
              else if seqb s (u "full") then Some TFull else None
  | _ => None
  end.

Definition DEFAULT_TIER_BY_CATEGORY : list (pystr * Tier) :=
  [(u "events", TOverview); (u "entities", TAbstract); (u "preferences", TAbstract); (u "experiences", TAbstract);
   (u "resources", TAbstract); (u "skills", TAbstract); (OTHER_MEMORY_CATEGORY, TAbstract)].
Definition DEFAULT_TIER : Tier := TAbstract.
Definition FULL_BODY_ABSTRACT_CATEGORIES : list pystr := MEMORY_CATEGORIES ++ [OTHER_MEMORY_CATEGORY].
Definition DEPTH_CEILING_BY_CATEGORY : list (pystr * Tier) := [(u "events", TFull)].

(** [DetailPins]: a tier for every category, or for some. *)
Record DetailPins := MkPins { scalar : option Tier; by_category : list (pystr * Tier) }.

Definition for_category (p : DetailPins) (category : pystr) : option Tier :=
  match dict_get (by_category p) category with Some t => Some t | None => scalar p end.

Definition as_stats (p : DetailPins) : list (pystr * Tier) + option Tier :=
  match by_category p with [] => inr (scalar p) | d => inl d end.

Definition normalize_detail (value : pyval) : DetailPins :=
  match value with
  | VDict d => MkPins None (omap (fun '(key, tier) => if mem key REPORTED_CATEGORY_KEYS then pair key <$> pinnable tier else None) d)
  | _ => MkPins (pinnable value) []
  end.

(** ** Entries and rendering *)

Record AssembledEntry := MkEntry {
  en_uri : pystr; en_category : pystr; en_score : Z; en_detail : Tier; en_text : pystr; en_origin : pystr; en_tokens : N }.

(** [f"{x:.2f}"]: the hundredths nearest to the double, ties to even. *)
Definition hundredths (z : Z) : N :=
  let num := 100 * Z.to_N (Z.abs z) in
  let den := 2 ^ 1074 in
  let q := num / den in
  let r := num mod den in
  if (den <? 2 * r) || ((den =? 2 * r) && N.odd q) then q + 1 else q.

Definition format_2f (z : Z) : pystr :=
  let n := hundredths z in
  (if (z <? 0)%Z then [c_minus] else []) ++ decimal (n / 100) ++ [c_dot; 48 + n mod 100 / 10; 48 + n mod 10].

(** [s.replace(c, r)] for a single character. *)
Definition replace_char (c : N) (r s : pystr) : pystr := concat ((fun x => if x =? c then r else [x]) <$> s).

Definition attr (value : pystr) : pystr :=
  replace_char 60 (u "&lt;") (replace_char 34 (u "&quot;") (replace_char 38 (u "&amp;") value)).

Definition optional_slash (s : pystr) : bool * pystr :=
  match s with c :: r => if c =? c_slash then (true, r) else (false, s) | [] => (false, []) end.

(** A match of [<(/?)memory(?=[\s/>])] at the head of [s]: whether the slash is there. *)
Definition tag_at (s : pystr) : option bool :=
  match s with
  | c :: r =>
      if c =? 60 then
        let '(slash, r) := optional_slash r in
        match after_literal (u "memory") r with
        | Some (x :: _) => if is_space x || (x =? 47) || (x =? 62) then Some slash else None
        | _ => None
        end
      else None
  | [] => None
  end.

(** The substitution of [_body], leaving out the [skip] characters of a match. *)
Fixpoint guard (skip : nat) (s : pystr) : pystr :=
  match s with
  | [] => []
  | c :: r =>
      match skip with
      | S skip => guard skip r
      | O => match tag_at (c :: r) with
             | Some true => u "<\/memory" ++ guard 7 r
             | Some false => u "<\memory" ++ guard 6 r
             | None => c :: guard 0 r
             end
      end
  end.

Definition body (text : pystr) : pystr := guard 0 text.

(** A double quote. *)
Definition dq : pystr := [34].

Definition render_entry (e : AssembledEntry) : pystr :=
  let head := u "<memory uri=" ++ dq ++ attr (en_uri e) ++ dq ++ u " type=" ++ dq ++ attr (en_category e) ++ dq
              ++ u " score=" ++ dq ++ format_2f (en_score e) ++ dq ++ u " detail=" ++ dq ++ tier_name (en_detail e) ++ dq in
  if negb (nonempty (en_text e)) then head ++ u " />"
  else head ++ u ">" ++ [c_nl] ++ body (en_text e) ++ [c_nl] ++ u "</memory>".

Definition FRAGMENT_SEPARATOR : pystr := [c_nl].

Definition render_context (entries : list AssembledEntry) : pystr := join FRAGMENT_SEPARATOR (render_entry <$> entries).

Definition fragment_tokens (e : AssembledEntry) : N := estimate_text_tokens (render_entry e).

(** ** Tiers *)

Record Candidate := MkCand {
  cd_uri : pystr; base_uri : pystr; category : pystr; score : Z; ranked_score : Z; level : Z;
  abstract_text : pystr; origin : pystr; is_directory : bool; read_ctx : RequestContext }.

Definition abstract_substitute (c : Candidate) : Tier :=
  if mem (category c) FULL_BODY_ABSTRACT_CATEGORIES then TOverview else TUri.

Definition start_tier (c : Candidate) (pin : option Tier) : Tier :=
  if is_directory c then TOverview
  else
    let tier := match pin with
                | Some t => t
                | None => default DEFAULT_TIER (dict_get DEFAULT_TIER_BY_CATEGORY (category c))
                end in
    if bool_decide (tier = TAbstract) && negb (nonempty (strip is_space (abstract_text c))) then abstract_substitute c else tier.

Definition tier_window (c : Candidate) (pin : option Tier) : Tier * Tier :=
  let start := start_tier c pin in
  if bool_decide (is_Some pin) || is_directory c then (start, start)
  else
    let ceiling := default start (dict_get DEPTH_CEILING_BY_CATEGORY (category c)) in
    (start, if (TIER_RANK start <? TIER_RANK ceiling)%nat then ceiling else start).

Definition needs_content (c : Candidate) (pin : option Tier) : bool :=
  (TIER_RANK TOverview <=? TIER_RANK (snd (tier_window c pin)))%nat.

Definition content_uri_for (c : Candidate) : pystr :=
  if is_directory c then base_uri c ++ u "/.overview.md" else base_uri c.

(** [s or None]. *)
Definition or_none (s : pystr) : option pystr := if nonempty s then Some s else None.

Section planning.
(** [overview_from_content] on a body, and [hash] of a string. *)
Context (overview : Candidate -> pystr -> pystr) (hash : pystr -> Z).
Context (contents : list (pystr * pystr)).

Definition tier_text (c : Candidate) (tier : Tier) : option pystr :=
  let content := default [] (dict_get contents (content_uri_for c)) in
  match tier with
  | TUri => Some []
  | TAbstract => or_none (strip is_space (abstract_text c))
  | TOverview => if nonempty content then or_none (overview c content) else None
  | TFull => if is_directory c then None else or_none (strip is_space content)
  end.

(** ** The budget *)

Definition SEPARATOR_TOKENS : Z := 1.

Definition per_entry_cap (max_tokens : Z) (candidate_count : nat) : Z :=
  Z.max 1 (max_tokens / Z.max 1 (Z.of_nat candidate_count) * 2).

Definition tiers_down_from (c : Candidate) (tier : Tier) : list Tier :=
  let order := reverse (take (TIER_RANK tier + 1) TIER_ORDER) in
  if bool_decide (tier = TAbstract) && bool_decide (abstract_substitute c = TOverview)
  then take 1 order ++ [TOverview] ++ drop 1 order else order.

Definition make_entry (c : Candidate) (tier : Tier) (text : pystr) : AssembledEntry :=
  let entry := MkEntry (base_uri c) (category c) (score c) tier text (origin c) 0 in
  MkEntry (base_uri c) (category c) (score c) tier text (origin c) (fragment_tokens entry).

Definition oversized_abstract_needs_body (c : Candidate) (cap : Z) : bool :=
  bool_decide (abstract_substitute c = TOverview)
  && (let text := strip is_space (abstract_text c) in
      nonempty text && (cap <? Z.of_N (fragment_tokens (make_entry c TAbstract text)))%Z).

Record Slot := MkSlot { sl_candidate : Candidate; sl_entry : AssembledEntry; sl_ceiling : Tier; sl_cost : Z }.

Definition tokens_of (e : AssembledEntry) : Z := Z.of_N (en_tokens e).

Section fill.
Context (max_tokens cap : Z) (pins : DetailPins).

Definition fits_cap (tier : Tier) (tokens : Z) : bool := bool_decide (tier = TUri) || (tokens <=? cap)%Z.

(** The first tier that has a text, fits the cap and fits the budget. *)
Fixpoint place (c : Candidate) (ceiling : Tier) (first : bool) (used : Z) (tiers : list Tier) : option Slot :=
  match tiers with
  | [] => None
  | tier :: tiers =>
      match tier_text c tier with
      | None => place c ceiling first used tiers
      | Some text =>
          let entry := make_entry c tier text in
          let cost := (tokens_of entry + (if first then 0 else SEPARATOR_TOKENS))%Z in
          if negb (fits_cap tier (tokens_of entry)) then place c ceiling first used tiers
          else if (max_tokens <? used + cost)%Z then place c ceiling first used tiers
          else Some (MkSlot c entry ceiling cost)
      end
  end.

Record floor_state := MkFloor {
  fl_slots : list Slot; fl_used : Z; fl_dropped : nat; fl_deduped : nat; fl_seen : list Z }.

(** One round of the placement loop. *)
Definition place_candidate (s : floor_state) (c : Candidate) : floor_state :=
  let '(start, ceiling) := tier_window c (for_category pins (category c)) in
  match place c ceiling (bool_decide (fl_slots s = [])) (fl_used s) (tiers_down_from c start) with
  | None => MkFloor (fl_slots s) (fl_used s) (fl_dropped s + 1) (fl_deduped s) (fl_seen s)
  | Some slot =>
      let text := en_text (sl_entry slot) in
      let body_key := hash (if nonempty text then text else base_uri c) in
      if bool_decide (body_key ∈ fl_seen s)
      then MkFloor (fl_slots s) (fl_used s) (fl_dropped s) (fl_deduped s + 1) (fl_seen s)
      else MkFloor (fl_slots s ++ [slot]) (fl_used s + sl_cost slot)%Z (fl_dropped s) (fl_deduped s) (body_key :: fl_seen s)
  end.

(** One round of [upgrade_pass]: the slot, the tokens used and the upgrades so far. *)
Definition upgrade_slot (target : Tier) (respect_cap : bool) (slot : Slot) (used : Z) : Slot * Z * nat :=
  if (TIER_RANK target <=? TIER_RANK (en_detail (sl_entry slot)))%nat then (slot, used, 0%nat)
  else if (TIER_RANK (sl_ceiling slot) <? TIER_RANK target)%nat then (slot, used, 0%nat)
  else
    match tier_text (sl_candidate slot) target with
    | None => (slot, used, 0%nat)
    | Some text =>
        let entry := make_entry (sl_candidate slot) target text in
        if respect_cap && negb (fits_cap target (tokens_of entry)) then (slot, used, 0%nat)
        else
          let delta := (tokens_of entry - tokens_of (sl_entry slot))%Z in
          if (max_tokens <? used + delta)%Z then (slot, used, 0%nat)
          else (MkSlot (sl_candidate slot) entry (sl_ceiling slot) (sl_cost slot + delta), (used + delta)%Z, 1%nat)
    end.

Fixpoint upgrade_pass (target : Tier) (respect_cap : bool) (slots : list Slot) (used : Z) : list Slot * Z * nat :=
  match slots with
  | [] => ([], used, 0%nat)
  | slot :: slots =>
      let '(slot, used, n) := upgrade_slot target respect_cap slot used in
      let '(slots, used, m) := upgrade_pass target respect_cap slots used in
      (slot :: slots, used, (n + m)%nat)
  end.
End fill.

(** The counts among [stats]; [tier_counts] lists tiers in order of appearance. *)
Record Stats := MkStats {
  s_max_tokens : Z; s_used_tokens : Z; s_per_entry_cap : Z; s_returned : nat; s_dropped : nat; s_deduped : nat; s_detail : list (pystr * Tier) + option Tier;
  s_tier_counts : list (Tier * nat); s_floor_tokens : Z; s_overview_upgrades : nat; s_full_upgrades : nat; s_spare_upgrades : nat }.

Record BudgetPlan := MkPlan { pl_entries : list AssembledEntry; pl_stats : Stats }.

Fixpoint count_tier (counts : list (Tier * nat)) (t : Tier) : list (Tier * nat) :=
  match counts with
  | [] => [(t, 1%nat)]
  | (t', n) :: counts => if decide (t' = t) then (t, n + 1)%nat :: counts else (t', n) :: count_tier counts t
  end.

Definition plan_entries (candidates : list Candidate) (max_tokens : Z) (detail : pyval) : BudgetPlan :=
  let max_tokens := Z.max 1 max_tokens in
  let pins := normalize_detail detail in
  let cap := per_entry_cap max_tokens (length candidates) in
  let floor := foldl (place_candidate max_tokens cap pins) (MkFloor [] 0 0 0 []) candidates in
  let '(slots, used, overview_upgrades) := upgrade_pass max_tokens cap TOverview true (fl_slots floor) (fl_used floor) in
  let '(slots, used, full_upgrades) := upgrade_pass max_tokens cap TFull true slots used in
  let '(slots, used, spare_upgrades) := upgrade_pass max_tokens cap TFull false slots used in
  let entries := sl_entry <$> slots in
  MkPlan entries
    (MkStats max_tokens used cap (length entries) (fl_dropped floor) (fl_deduped floor) (as_stats pins)
       (foldl count_tier [] (en_detail <$> entries)) (fl_used floor) overview_upgrades full_upgrades spare_upgrades).
End planning.
