(* ===== verification/Ledger.v ===== *)
(** The recall ledger: [retrieve/context_assembler/ledger.py].

    Reading and writing the ledger file, and JSON, are arguments.  [json.loads] can also
    produce infinities, which [pyval] does not have. *)
From Stdlib Require Import NArith ZArith.
From S2P Require Import Prelude PyStr PyVal Assembler.

Open Scope Z_scope.

Definition LEDGER_FILENAME : pystr := u ".recall_log.json".
Definition LEDGER_VERSION : Z := 1.
Definition MAX_LEDGER_URIS : nat := 500.

(** [int(v)], or nothing where it raises [TypeError] or [ValueError]. *)
Definition int_of (v : pyval) : option Z :=
  match v with
  | VInt z => Some z
  | VBool b => Some (if b then 1 else 0)
  | VFloat z => Some (Z.quot z (2 ^ 1074))
  | VStr s => py_int s
  | _ => None
  end.

Definition record_turn (record : pyval) : option Z :=
  match record with VDict d => int_of (default (VInt 0) (dict_get d (u "turn"))) | _ => None end.

(** [_resolve_turn] on [session.meta.total_message_count] and the live messages. *)
Definition resolve_turn (total : option pyval) (live : nat) : Z :=
  let total_int := match total with Some v => default 0 (int_of v) | None => 0 end in
  Z.max total_int (Z.of_nat live).

Inductive ledger_status := StatusOk | StatusNew | StatusWriteFailed.

Record RecallLedger := MkLedger { lg_uri : pystr; turn : Z; dedup_turns : Z; data : pydict; status : ledger_status }.

Definition new_ledger (session_uri : pystr) (turn dedup_turns : Z) : RecallLedger :=
  MkLedger (rstrip is_slash session_uri ++ [c_slash] ++ LEDGER_FILENAME) turn (Z.max 0 dedup_turns) [] StatusOk.

Section ledger.
(** [json.loads] and [json.dumps], and the files of the session. *)
Context (json_loads : pystr -> option pyval) (json_dumps : pydict -> pystr).
Context (read_file : pystr -> result pystr) (write_file : pystr -> pystr -> result unit).

(** [load] for a session with a URI, on a service with a file system. *)
Definition load (session_uri : pystr) (total : option pyval) (live : nat) (dedup : Z) : result (option RecallLedger) :=
  if (dedup <=? 0) || negb (nonempty session_uri) then Ok None
  else
    let ledger := new_ledger session_uri (resolve_turn total live) dedup in
    let with_data d st := Ok (Some (MkLedger (lg_uri ledger) (turn ledger) (dedup_turns ledger) d st)) in
    match read_file (lg_uri ledger) with
    | Err e => if is_exception e then with_data [] StatusNew else Err e
    | Ok raw =>
        if nonempty raw then
          match json_loads raw with
          | None => with_data [] StatusNew
          | Some (VDict d) => with_data d StatusOk
          | Some _ => with_data [] StatusOk
          end
        else with_data [] StatusOk
    end.

Definition entries (l : RecallLedger) : pydict :=
  match dict_get (data l) (u "entries") with Some (VDict d) => d | _ => [] end.

(** [record.get("detail") == "uri"]. *)
Definition bare (record : pyval) : bool :=
  match record with
  | VDict d => match dict_get d (u "detail") with Some (VStr s) => seqb s (u "uri") | _ => false end
  | _ => false
  end.

Definition is_cooled (now dedup : Z) (record : pyval) : bool :=
  match record_turn record with
  | None => false
  | Some served => negb (now <? served) && negb (bare record) && (now - served <? dedup)
  end.

Definition cooled_uris (l : RecallLedger) : list pystr :=
  fst <$> filter (fun '(_, record) => is_cooled (turn l) (dedup_turns l) record = true) (entries l).

(** ** Recording *)

Definition new_record (l : RecallLedger) (e : AssembledEntry) : pyval :=
  VDict [(u "turn", VInt (turn l)); (u "detail", VStr (tier_name (en_detail e)))].

Definition upsert (l : RecallLedger) (stored : pydict) (e : AssembledEntry) : pydict :=
  if nonempty (en_uri e) then dict_set stored (en_uri e) (new_record l e) else stored.

Definition kept (l : RecallLedger) (record : pyval) : bool :=
  match record_turn record with
  | Some t => (turn l - dedup_turns l * 4 <=? t) && (t <=? turn l)
  | None => false
  end.

(** [sorted(items, key=..., reverse=True)]: descending, equal keys in their order. *)
Definition turn_key (item : pystr * pyval) : Z := default 0 (record_turn (snd item)).

Fixpoint insert_desc (x : pystr * pyval) (l : pydict) : pydict :=
  match l with
  | [] => [x]
  | y :: l' => if turn_key x <? turn_key y then y :: insert_desc x l' else x :: l
  end.

Definition sort_desc (l : pydict) : pydict := foldr insert_desc [] l.

Definition prune (l : RecallLedger) (stored : pydict) : pydict :=
  let pruned := filter (fun '(_, record) => kept l record = true) stored in
  if (MAX_LEDGER_URIS <? length pruned)%nat then take MAX_LEDGER_URIS (sort_desc pruned) else pruned.

Definition payload (l : RecallLedger) (served : list AssembledEntry) : pydict :=
  [(u "version", VInt LEDGER_VERSION); (u "updated_turn", VInt (turn l));
   (u "entries", VDict (prune l (foldl (upsert l) (entries l) served)))].

(** [record]: a failed write only shows in the status. *)
Definition record (l : RecallLedger) (served : list AssembledEntry) : result unit * RecallLedger :=
  match write_file (lg_uri l) (json_dumps (payload l served)) with
  | Ok _ => (Ok tt, l)
  | Err e =>
      if is_exception e then (Ok tt, MkLedger (lg_uri l) (turn l) (dedup_turns l) (data l) StatusWriteFailed)
      else (Err e, l)
  end.
End ledger.

(** ** Sorting *)

Lemma insert_desc_perm x l : insert_desc x l ≡ₚ x :: l.
Proof.
  induction l as [|y l IH]; cbn [insert_desc]; [done|]. destruct (_ <? _); [|done]. rewrite IH. constructor.
Qed.

Lemma sort_desc_perm l : sort_desc l ≡ₚ l.
Proof. induction l as [|x l IH]; cbn [sort_desc foldr]; [done|]. fold (sort_desc l). by rewrite insert_desc_perm, IH. Qed.

Definition desc (x y : pystr * pyval) : Prop := turn_key y <= turn_key x.

Lemma insert_desc_sorted x l : StronglySorted desc l -> StronglySorted desc (insert_desc x l).
Proof.
  induction 1 as [|y l Hl IH Hy]; cbn [insert_desc]; [by repeat constructor|].
  destruct (Z.ltb_spec (turn_key x) (turn_key y)) as [Hlt|Hge].
  - constructor; [done|]. rewrite insert_desc_perm. constructor; [unfold desc; lia|done].
  - constructor; [by constructor|]. constructor; [unfold desc; lia|]. eapply Forall_impl; [exact Hy|]. unfold desc. intros z Hz. lia.
Qed.

Lemma sort_desc_sorted l : StronglySorted desc (sort_desc l).
Proof. induction l as [|x l IH]; [constructor|]. by apply insert_desc_sorted. Qed.

Lemma filter_length_mono {A} (P Q : A -> Prop) `{!forall x, Decision (P x), !forall x, Decision (Q x)} (l : list A) :
  Forall (fun x => P x -> Q x) l -> (length (filter P l) <= length (filter Q l))%nat.
Proof.
  induction 1 as [|x l Hx _ IH]; [done|]. destruct (decide (P x)) as [Hp|Hp].
  - rewrite !filter_cons_True by auto. cbn [length]. lia.
  - rewrite (filter_cons_False P) by done. rewrite filter_cons. case_decide; cbn [length]; lia.
Qed.

Lemma filter_filter_length {A} (P Q : A -> Prop) `{!forall x, Decision (P x), !forall x, Decision (Q x)} (l : list A) :
  (length (filter Q (filter P l)) <= length (filter Q l))%nat.
Proof.
  induction l as [|x l IH]; [done|]. rewrite (filter_cons P). case_decide.
  - rewrite !(filter_cons Q). case_decide; cbn [length]; lia.
  - rewrite (filter_cons Q). case_decide; cbn [length]; lia.
Qed.

(** Cutting a descending list keeps every item of the highest key, if there are few. *)
Lemma take_keeps_top (l : pydict) (k : nat) x : StronglySorted desc l -> x ∈ l -> Forall (fun y => turn_key y <= turn_key x) l ->
  (length (filter (fun y => turn_key y = turn_key x) l) <= k)%nat -> x ∈ take k l.
Proof.
  intros Hs Hin Hmax Hk. rewrite <- (take_drop k l) in Hin. apply elem_of_app in Hin as [Hin|Hin]; [done|]. exfalso.
  assert (Forall (fun y => turn_key y = turn_key x) (take k l)) as Hall.
  { apply Forall_forall. intros y Hy. rewrite Forall_forall in Hmax.
    assert (turn_key y <= turn_key x) by (apply Hmax; rewrite <- (take_drop k l); set_solver).
    rewrite <- (take_drop k l) in Hs. pose proof (StronglySorted_app_1_elem_of _ _ _ y x Hs Hy Hin) as Hd. unfold desc in Hd. lia. }
  rewrite <- (take_drop k l), filter_app, length_app in Hk.
  assert (filter (fun y => turn_key y = turn_key x) (take k l) = take k l) as E by by apply filter_all.
  rewrite E in Hk. assert (length (take k l) = k) as Hlk.
  { rewrite length_take. destruct (drop k l) as [|z r] eqn:Ed; [by apply elem_of_nil in Hin|].
    assert (length (drop k l) = S (length r)) as Hlen by by rewrite Ed. rewrite length_drop in Hlen. lia. }
  assert (x ∈ filter (fun y => turn_key y = turn_key x) (drop k l)) as Hx by by apply list_elem_of_filter.
  destruct (filter _ (drop k l)); [by apply elem_of_nil in Hx|]. cbn in Hk. lia.
Qed.

(** ** Cooldown *)

(** The ledger a later turn loads after [l] recorded [served]. *)
Definition reloaded (l : RecallLedger) (served : list AssembledEntry) (now : Z) : RecallLedger :=
  MkLedger (lg_uri l) now (dedup_turns l) (payload l served) StatusOk.

(** All records, before pruning. *)
Definition stored (l : RecallLedger) (served : list AssembledEntry) : pydict := foldl (upsert l) (entries l) served.

Lemma entries_reloaded l served now : entries (reloaded l served now) = prune l (stored l served).
Proof. unfold entries, reloaded, payload. cbn [data]. cbn [dict_get]. by eval_seqb. Qed.

Lemma cooled_elem l uri : uri ∈ cooled_uris l <-> exists r, (uri, r) ∈ entries l /\ is_cooled (turn l) (dedup_turns l) r = true.
Proof.
  unfold cooled_uris. rewrite list_elem_of_fmap. split.
  - intros ([k r] & -> & [H1 H2]%list_elem_of_filter). by exists r.
  - intros (r & H1 & H2). exists (uri, r). split; [done|]. by apply list_elem_of_filter.
Qed.

Lemma upsert_other l served d uri : uri ∉ (en_uri <$> served) -> dict_get (foldl (upsert l) d served) uri = dict_get d uri.
Proof.
  revert d. induction served as [|e served IH]; intros d H; [done|]. cbn [foldl fmap list_fmap] in *. apply not_elem_of_cons in H as [H1 H2].
  rewrite IH by done. unfold upsert. destruct (nonempty (en_uri e)); [|done]. rewrite dict_set_get.
  by rewrite (proj2 (seqb_false (en_uri e) uri)) by congruence.
Qed.

Lemma stored_last l before e after : en_uri e <> [] -> en_uri e ∉ (en_uri <$> after) ->
  dict_get (stored l (before ++ e :: after)) (en_uri e) = Some (new_record l e).
Proof.
  intros Hne Hlast. unfold stored. rewrite foldl_app. cbn [foldl]. rewrite upsert_other by done. unfold upsert.
  rewrite (proj2 (nonempty_true _)) by done. rewrite dict_set_get. by rewrite (proj2 (seqb_true _ _)).
Qed.

Lemma record_turn_new l e : record_turn (new_record l e) = Some (turn l).
Proof. unfold record_turn, new_record. cbn [dict_get]. by eval_seqb. Qed.

Lemma bare_new l e : bare (new_record l e) = bool_decide (en_detail e = TUri).
Proof. unfold bare, new_record. cbn [dict_get]. eval_seqb. destruct (en_detail e); by vm_compute. Qed.

Lemma kept_turn l r : kept l r = true -> exists t, record_turn r = Some t /\ turn l - dedup_turns l * 4 <= t <= turn l.
Proof. unfold kept. destruct (record_turn r) as [t|]; [|done]. intros [H1%Z.leb_le H2%Z.leb_le]%andb_true_iff. by exists t. Qed.

(** Pruning keeps the records of the current turn, if there are few enough. *)
Lemma prune_keeps l d x : 0 <= dedup_turns l -> x ∈ d -> record_turn (snd x) = Some (turn l) ->
  (length (filter (fun y => record_turn (snd y) = Some (turn l)) d) <= MAX_LEDGER_URIS)%nat -> x ∈ prune l d.
Proof.
  intros Hd Hin Ht Hfew. unfold prune. set (pruned := filter _ d).
  assert (x ∈ pruned) as Hp.
  { apply list_elem_of_filter. split; [|done]. destruct x as [k r]. cbn [snd] in Ht. unfold kept. rewrite Ht.
    apply andb_true_iff. split; apply Z.leb_le; lia. }
  destruct (_ <? _)%nat; [|done]. assert (Hkey : forall y, y ∈ pruned -> record_turn (snd y) = Some (turn_key y) /\ turn_key y <= turn l).
  { intros [k r] [Hk _]%list_elem_of_filter. destruct (kept_turn _ _ Hk) as (t & E & Hb). unfold turn_key. cbn [snd]. rewrite E. cbn. split; [done|lia]. }
  destruct (Hkey x Hp) as [Hx _]. assert (turn_key x = turn l) as Hxt by congruence.
  apply take_keeps_top; [apply sort_desc_sorted|by rewrite sort_desc_perm| |].
  - rewrite sort_desc_perm. apply Forall_forall. intros y Hy. rewrite Hxt. by apply Hkey.
  - rewrite sort_desc_perm. etrans; [|exact Hfew]. rewrite Hxt. etrans;
      [|apply (filter_filter_length (fun '(_, record) => kept l record = true))]. fold pruned.
    apply filter_length_mono. apply Forall_forall. intros y Hy E. destruct (Hkey y Hy) as [Hy' _]. congruence.
Qed.

(** Whatever was served with content is not served again within the cooldown: after
    recording it, every ledger loaded less than [dedup_turns] turns later cools its URI,
    unless more than the ledger's capacity was recorded at that very turn. *)
Theorem served_stays_cooled (l : RecallLedger) (before after : list AssembledEntry) (e : AssembledEntry) (now : Z) :
  en_uri e <> [] -> en_detail e <> TUri -> en_uri e ∉ (en_uri <$> after) -> turn l <= now < turn l + dedup_turns l ->
  (length (filter (fun y => record_turn (snd y) = Some (turn l)) (stored l (before ++ e :: after))) <= MAX_LEDGER_URIS)%nat ->
  en_uri e ∈ cooled_uris (reloaded l (before ++ e :: after) now).
Proof.
  intros Hne Hdet Hlast Hnow Hfew. apply cooled_elem. exists (new_record l e). rewrite entries_reloaded. split.
  - apply prune_keeps; [lia| |apply record_turn_new|done]. by apply dict_get_elem, stored_last.
  - unfold is_cooled. rewrite record_turn_new, bare_new, bool_decide_eq_false_2 by done. cbn [reloaded turn dedup_turns negb andb].
    rewrite (proj2 (Z.ltb_ge _ _)) by lia. cbn [negb andb]. apply Z.ltb_lt. lia.
Qed.

(** The ledger never holds more records than its capacity, and below it pruning is
    invisible: at every later turn exactly the records not ahead of the clock that are
    within the cooldown are cooled. *)
Theorem pruning_invisible (l : RecallLedger) (served : list AssembledEntry) (now : Z) (uri : pystr) :
  turn l <= now -> 0 <= dedup_turns l ->
  (length (entries (reloaded l served now)) <= MAX_LEDGER_URIS)%nat
  /\ ((length (stored l served) <= MAX_LEDGER_URIS)%nat ->
      uri ∈ cooled_uris (reloaded l served now) <->
      exists r t, (uri, r) ∈ stored l served /\ record_turn r = Some t /\ t <= turn l /\ is_cooled now (dedup_turns l) r = true).
Proof.
  intros Hnow Hd. rewrite entries_reloaded. unfold prune. set (pruned := filter _ (stored l served)). split.
  { destruct (Nat.ltb_spec MAX_LEDGER_URIS (length pruned)); [rewrite length_take; lia|lia]. }
  intros Hlen. rewrite cooled_elem, entries_reloaded. unfold prune. fold pruned.
  assert (length pruned <= length (stored l served))%nat by apply length_filter.
  rewrite (proj2 (Nat.ltb_ge _ _)) by lia. cbn [reloaded turn dedup_turns]. split.
  - intros (r & [Hk Hin]%list_elem_of_filter & Hc). destruct (kept_turn _ _ Hk) as (t & Ht & Hb). exists r, t. split_and!; [done|done|lia|done].
  - intros (r & t & Hin & Ht & Hle & Hc). exists r. split; [|done]. apply list_elem_of_filter. split; [|done].
    unfold kept, is_cooled in *. rewrite Ht in *. rewrite !andb_true_iff, negb_true_iff in Hc. destruct Hc as [_ Hc%Z.ltb_lt].
    apply andb_true_iff. split; apply Z.leb_le; lia.
Qed.

(** ** Examples *)

Definition sample_ledger : RecallLedger := MkLedger (u "viking://s/.recall_log.json") 10 3 [] StatusOk.
Definition served_entry : AssembledEntry := MkEntry (u "viking://e") (u "events") 0 TOverview (u "text") [] 0.

Lemma served_stays_cooled_witness : u "viking://e" ∈ cooled_uris (reloaded sample_ledger ([] ++ served_entry :: []) 12).
Proof.
  apply (served_stays_cooled sample_ledger [] [] served_entry 12); [by vm_compute|done|apply not_elem_of_nil|cbn; lia|].
  etrans; [apply length_filter|]. apply Nat.leb_le. by vm_compute.
Defined.

Lemma pruning_invisible_witness : u "viking://e" ∈ cooled_uris (reloaded sample_ledger [served_entry] 12)
  /\ u "viking://e" ∉ cooled_uris (reloaded sample_ledger [served_entry] 13).
Proof.
  destruct (pruning_invisible sample_ledger [served_entry] 12 (u "viking://e") ltac:(cbn; lia) ltac:(cbn; lia)) as [_ H1].
  destruct (pruning_invisible sample_ledger [served_entry] 13 (u "viking://e") ltac:(cbn; lia) ltac:(cbn; lia)) as [_ H2].
  assert (length (stored sample_ledger [served_entry]) <= MAX_LEDGER_URIS)%nat as Hl by (apply Nat.leb_le; by vm_compute).
  split.
  - apply (H1 Hl). exists (new_record sample_ledger served_entry), 10. split_and!; [by left|by vm_compute|done|by vm_compute].
  - rewrite (H2 Hl). intros (r & t & Hin & _ & _ & Hc). apply list_elem_of_singleton in Hin. injection Hin as ->. by vm_compute in Hc.
Defined.
