(* ===== verification/CircuitBreaker.v ===== *)
(** The circuit breaker: [openviking/utils/circuit_breaker.py].

    The class of an error, which [classify_api_error] computes from provider messages,
    and the reading of the clock are arguments of the operations.  Times are integers in
    some unit. *)
From Stdlib Require Import ZArith.
From S2P Require Import Prelude.

Open Scope Z_scope.

(** ** State and operations *)

Inductive error_class := PERMANENT | AUTH | CONTENT_SAFETY | INPUT_TOO_LARGE | QUOTA_EXCEEDED | TRANSIENT | UNKNOWN.

#[export] Instance error_class_eq_dec : EqDecision error_class.
Proof. solve_decision. Defined.

Inductive breaker_state := CLOSED | OPEN | HALF_OPEN.

#[export] Instance breaker_state_eq_dec : EqDecision breaker_state.
Proof. solve_decision. Defined.

(** The settings of a breaker. *)
Record config := MkConfig { failure_threshold : Z; reset_timeout : Z; max_reset_timeout : option Z }.

Definition max_timeout (c : config) : Z := default (reset_timeout c) (max_reset_timeout c).

Record breaker := MkBreaker { state : breaker_state; failure_count : Z; last_failure_time : Z; current_reset_timeout : Z }.

Definition new_breaker (c : config) : breaker := MkBreaker CLOSED 0 0 (reset_timeout c).

(** [check]: whether the request may pass, and the breaker after it. *)
Definition check (now : Z) (b : breaker) : bool * breaker :=
  match state b with
  | CLOSED | HALF_OPEN => (true, b)
  | OPEN =>
      let elapsed := now - last_failure_time b in
      if current_reset_timeout b <=? elapsed
      then (true, MkBreaker HALF_OPEN (failure_count b) (last_failure_time b) (current_reset_timeout b))
      else (false, b)
  end.

(** [retry_after], with the 30 second cap in the unit of the clock. *)
Definition retry_after (cap now : Z) (b : breaker) : Z :=
  match state b with
  | OPEN => Z.min (Z.max (current_reset_timeout b - (now - last_failure_time b)) 0) cap
  | _ => 0
  end.

Section operations.
Context (c : config).

Definition record_success (b : breaker) : breaker := MkBreaker CLOSED 0 (last_failure_time b) (reset_timeout c).

(** The classes that trip the breaker at once. *)
Definition trips (e : error_class) : bool := match e with PERMANENT | AUTH | QUOTA_EXCEEDED => true | _ => false end.

Definition record_failure (e : error_class) (now : Z) (b : breaker) : breaker :=
  match e with
  | INPUT_TOO_LARGE => b
  | _ =>
      let count := failure_count b + 1 in
      if decide (state b = HALF_OPEN)
      then MkBreaker OPEN count now (Z.min (current_reset_timeout b * 2) (max_timeout c))
      else if trips e then MkBreaker OPEN count now (reset_timeout c)
      else if failure_threshold c <=? count then MkBreaker OPEN count now (reset_timeout c)
      else MkBreaker (state b) count now (current_reset_timeout b)
  end.

(** ** Runs *)

(** What happens to a breaker. *)
Inductive event := Check (now : Z) | Success | Failure (e : error_class) (now : Z).

Definition step (b : breaker) (ev : event) : breaker :=
  match ev with
  | Check now => snd (check now b)
  | Success => record_success b
  | Failure e now => record_failure e now b
  end.

Definition run (evs : list event) : breaker := foldl step (new_breaker c) evs.

(** Failures that count, from the last success on. *)
Definition counted (ev : event) : bool :=
  match ev with Failure INPUT_TOO_LARGE _ => false | Failure _ _ => true | _ => false end.

Definition is_success (ev : event) : bool := match ev with Success => true | _ => false end.

(** The events after the last success. *)
Fixpoint since_success (evs : list event) : list event :=
  match evs with
  | [] => []
  | ev :: evs' => if existsb is_success evs' then since_success evs' else if is_success ev then evs' else evs
  end.

(** Few enough counted failures, none of a tripping class. *)
Definition tolerable (recent : list event) : bool :=
  forallb (fun ev => match ev with Failure e _ => negb (trips e) | _ => true end) recent
  && (bool_decide (recent = []) || (Z.of_nat (length recent) <? failure_threshold c)).

Definition recent (evs : list event) : list event := filter (fun ev => counted ev = true) (since_success evs).

Lemma run_snoc evs ev : run (evs ++ [ev]) = step (run evs) ev.
Proof. unfold run. by rewrite foldl_snoc. Qed.

Lemma since_success_snoc evs ev : since_success (evs ++ [ev]) = if is_success ev then [] else since_success evs ++ [ev].
Proof.
  induction evs as [|e evs IH]; cbn [since_success app existsb]; [by destruct (is_success ev)|].
  rewrite existsb_app. cbn [existsb]. rewrite orb_false_r, IH. destruct (is_success ev); [by rewrite orb_true_r|].
  rewrite orb_false_r. destruct (existsb is_success evs); [done|]. by destruct (is_success e).
Qed.

Lemma recent_snoc evs ev : recent (evs ++ [ev]) = if is_success ev then [] else recent evs ++ (if counted ev then [ev] else []).
Proof.
  unfold recent. rewrite since_success_snoc. destruct (is_success ev) eqn:E; [done|]. rewrite filter_app. f_equal.
  destruct (counted ev) eqn:Ec; [by rewrite filter_cons_True|by rewrite filter_cons_False, filter_nil by congruence].
Qed.

Lemma tolerable_snoc l e now : tolerable (l ++ [Failure e now]) =
  tolerable l && negb (trips e) && (Z.of_nat (length l) + 1 <? failure_threshold c).
Proof.
  unfold tolerable. rewrite forallb_app, bool_decide_eq_false_2, length_app by by destruct l. cbn [forallb length orb].
  rewrite andb_true_r. replace (Z.of_nat (length l + 1)) with (Z.of_nat (length l) + 1) by lia.
  destruct (forallb _ l), (negb (trips e)); cbn [andb]; rewrite ?andb_false_r, ?andb_true_r; try done.
  case_bool_decide as Hl; [done|]. cbn [orb]. destruct (Z.ltb_spec (Z.of_nat (length l) + 1) (failure_threshold c)); [|by rewrite andb_false_r].
  rewrite (proj2 (Z.ltb_lt _ _)) by lia. done.
Qed.

Lemma run_inv evs :
  bool_decide (state (run evs) = CLOSED) = tolerable (recent evs) /\ failure_count (run evs) = Z.of_nat (length (recent evs)).
Proof.
  induction evs as [|ev evs [IH1 IH2]] using rev_ind; [done|]. rewrite run_snoc, recent_snoc.
  destruct ev as [now| |e now]; [| |destruct (decide (e = INPUT_TOO_LARGE)) as [->|He]]; cbn [step is_success counted].
  - rewrite app_nil_r, <- IH1. unfold check. destruct (state (run evs)) eqn:Es; cbn [snd]; rewrite ?Es; try done.
    destruct (_ <=? _); cbn [snd state failure_count]; rewrite ?Es; done.
  - done.
  - cbn [record_failure]. by rewrite app_nil_r.
  - assert (counted (Failure e now) = true) as Hc by by destruct e.
    assert ((match e with INPUT_TOO_LARGE => false | _ => true end) = true) as -> by by destruct e.
    rewrite tolerable_snoc, <- IH1, <- IH2, length_app, Nat2Z.inj_add, <- IH2. cbn [length]. unfold record_failure.
    replace (match e with INPUT_TOO_LARGE => run evs | _ => _ end) with
      (if decide (state (run evs) = HALF_OPEN) then MkBreaker OPEN (failure_count (run evs) + 1) now (Z.min (current_reset_timeout (run evs) * 2) (max_timeout c))
       else if trips e then MkBreaker OPEN (failure_count (run evs) + 1) now (reset_timeout c)
       else if failure_threshold c <=? failure_count (run evs) + 1 then MkBreaker OPEN (failure_count (run evs) + 1) now (reset_timeout c)
       else MkBreaker (state (run evs)) (failure_count (run evs) + 1) now (current_reset_timeout (run evs))) by by destruct e.
    destruct (decide (state (run evs) = HALF_OPEN)) as [Hh|Hh]; [rewrite Hh; cbn [state failure_count]; by split|]. destruct (trips e); cbn [negb state failure_count]; [by rewrite andb_false_r|].
    rewrite andb_true_r. destruct (Z.leb_spec (failure_threshold c) (failure_count (run evs) + 1)); cbn [state failure_count].
    + rewrite (proj2 (Z.ltb_ge _ _)) by lia. by rewrite andb_false_r.
    + rewrite (proj2 (Z.ltb_lt _ _)) by lia. by rewrite andb_true_r.
Qed.

(** The breaker is closed exactly when, since the last success, no failure was of a
    permanent, authentication or quota class and fewer failures than the threshold were
    counted; failures caused by oversized inputs never count. *)
Theorem breaker_closed_iff (evs : list event) :
  (state (run evs) = CLOSED <-> tolerable (recent evs) = true) /\ failure_count (run evs) = Z.of_nat (length (recent evs)).
Proof.
  destruct (run_inv evs) as [H1 H2]. split; [|done]. rewrite <- H1. symmetry. apply bool_decide_eq_true.
Qed.

Lemma timeout_bounds evs : 0 <= reset_timeout c <= max_timeout c ->
  reset_timeout c <= current_reset_timeout (run evs) <= max_timeout c.
Proof.
  intros Hb. induction evs as [|ev evs IH] using rev_ind; [cbn; lia|]. rewrite run_snoc.
  destruct ev as [now| |e now]; cbn [step record_success current_reset_timeout]; [|lia|].
  - unfold check. destruct (state (run evs)); try done. by destruct (_ <=? _).
  - destruct e; try done; cbn [record_failure trips]; (case_decide; cbn [current_reset_timeout]; [lia|]); try lia;
      destruct (_ <=? _); cbn [current_reset_timeout]; lia.
Qed.

(** A check is refused only while the breaker is open and its timeout runs: the
    wait is never longer than the maximal timeout after the last recorded failure, and
    the announced delay is the remaining time up to the cap. *)
Theorem breaker_refuses_only_in_timeout (evs : list event) (now cap : Z) :
  0 <= reset_timeout c <= max_timeout c -> 0 <= cap ->
  let b := run evs in
  (fst (check now b) = false <-> state b = OPEN /\ now < last_failure_time b + current_reset_timeout b)
  /\ (last_failure_time b + max_timeout c <= now -> fst (check now b) = true)
  /\ (fst (check now b) = false -> retry_after cap now b = Z.min (last_failure_time b + current_reset_timeout b - now) cap)
  /\ (fst (check now b) = true -> retry_after cap now b = 0).
Proof.
  intros Hb Hcap. cbn zeta. pose proof (timeout_bounds evs Hb) as Ht. set (b := run evs) in *. unfold check, retry_after.
  destruct (state b); cbn [fst]; [by split_and!; try naive_solver| |by split_and!; try naive_solver].
  destruct (Z.leb_spec (current_reset_timeout b) (now - last_failure_time b)); cbn [fst].
  - split_and!; [split; [done|intros [_ ?]; lia]|done|done|intros; lia].
  - split_and!; [split; [intros _; split; [done|lia]|done]|intros; lia|intros; lia|done].
Qed.

(** [n] rounds in which the timeout elapses and the probe fails. *)
Inductive failed_probes : nat -> breaker -> breaker -> Prop :=
| ProbesO b : failed_probes 0 b b
| ProbesS n b b1 t t' e : failed_probes n b b1 -> fst (check t b1) = true -> e <> INPUT_TOO_LARGE ->
    failed_probes (S n) b (record_failure e t' (snd (check t b1))).

Lemma failed_probes_timeout n b b' : 0 <= reset_timeout c <= max_timeout c -> state b = OPEN -> current_reset_timeout b = reset_timeout c ->
  failed_probes n b b' -> state b' = OPEN /\ current_reset_timeout b' = Z.min (reset_timeout c * 2 ^ Z.of_nat n) (max_timeout c).
Proof.
  intros Hb Ho Hc Hp. induction Hp as [b|n b b1 t t' e _ IH Ht He]; [split; [done|]; cbn [Z.of_nat Z.pow]; lia|].
  destruct (IH Ho Hc) as [Hs Hcur]. unfold check in *. rewrite Hs in *. destruct (_ <=? _); [|done]. cbn [snd].
  assert (record_failure e t' (MkBreaker HALF_OPEN (failure_count b1) (last_failure_time b1) (current_reset_timeout b1))
    = MkBreaker OPEN (failure_count b1 + 1) t' (Z.min (current_reset_timeout b1 * 2) (max_timeout c))) as -> by by destruct e.
  split; [done|]. cbn [current_reset_timeout]. rewrite Hcur, Nat2Z.inj_succ, Z.pow_succ_r by lia. lia.
Qed.

(** Failed probes back off exponentially: after [n] of them the timeout is the base
    timeout doubled [n] times, up to the maximum, and the breaker is open again. *)
Theorem probes_back_off (evs : list event) (n : nat) (b' : breaker) :
  0 <= reset_timeout c <= max_timeout c -> state (run evs) = OPEN -> current_reset_timeout (run evs) = reset_timeout c ->
  failed_probes n (run evs) b' -> state b' = OPEN /\ current_reset_timeout b' = Z.min (reset_timeout c * 2 ^ Z.of_nat n) (max_timeout c).
Proof. intros Hb Ho Hc Hp. by eapply failed_probes_timeout. Qed.
End operations.

(** ** Examples *)

Definition sample_config : config := MkConfig 2 300 (Some 1000).
Definition tripped : list event := [Failure TRANSIENT 10; Check 11; Failure TRANSIENT 12].

Lemma breaker_refuses_only_in_timeout_witness :
  fst (check 311 (run sample_config tripped)) = false /\ fst (check 1012 (run sample_config tripped)) = true.
Proof.
  destruct (breaker_refuses_only_in_timeout sample_config tripped 311 30 ltac:(cbn; lia) ltac:(lia)) as ([_ H1] & _).
  destruct (breaker_refuses_only_in_timeout sample_config tripped 1012 30 ltac:(cbn; lia) ltac:(lia)) as (_ & H2 & _).
  split; [apply H1; by vm_compute|apply H2; by vm_compute].
Defined.

Definition probed : breaker := record_failure sample_config AUTH 313 (snd (check 312 (run sample_config tripped))).
Definition probed_twice : breaker := record_failure sample_config UNKNOWN 1001 (snd (check 1000 probed)).

Lemma probes_back_off_witness : state probed_twice = OPEN /\ current_reset_timeout probed_twice = 1000.
Proof.
  apply (probes_back_off sample_config tripped 2 probed_twice); [cbn; lia|by vm_compute|by vm_compute|].
  apply (ProbesS _ 1 _ probed 1000 1001 UNKNOWN); [|by vm_compute|done].
  apply (ProbesS _ 0 _ _ 312 313 AUTH); [constructor|by vm_compute|done].
Defined.

(** Once half open, every request passes, not only one probe. *)
Example half_open_admits_all :
  let b := run sample_config tripped in
  let '(first, b) := check 312 b in let '(second, b) := check 312 b in first = true /\ second = true /\ state b = HALF_OPEN.
Proof. by vm_compute. Qed.
