(* ===== verification/Encryptor.v ===== *)
(** Envelope encryption of files: [openviking/crypto/encryptor.py].

    The key provider and AES-GCM are arguments; random bytes are arguments of [encrypt].
    Metrics are not modelled. *)
From Stdlib Require Import NArith ZArith.
From S2P Require Import Prelude PyStr PyBytes.

Open Scope N_scope.

(** [b"OVE1"]. *)
Definition MAGIC : bytes := [79; 86; 69; 49].
Definition MAGIC_LENGTH : nat := length MAGIC.
Definition VERSION : N := 1.

(** ** The envelope *)

(** The [H] and [B] formats of [struct], big-endian. *)
Definition pack_H (n : N) : result bytes := if n <? 65536 then Ok [n / 256; n mod 256] else Err OtherError.
Definition pack_B (n : N) : result bytes := if n <? 256 then Ok [n] else Err OtherError.

Definition blen (b : bytes) : N := N.of_nat (length b).

Definition build_envelope (provider_type : N) (encrypted_file_key key_iv data_iv encrypted_content : bytes) : result bytes :=
  v ← pack_B VERSION;
  p ← pack_B provider_type;
  e ← pack_H (blen encrypted_file_key);
  k ← pack_H (blen key_iv);
  d ← pack_H (blen data_iv);
  Ok ((MAGIC ++ v ++ p ++ e ++ k ++ d) ++ encrypted_file_key ++ key_iv ++ data_iv ++ encrypted_content).

Definition HEADER_SIZE : nat := 12.

(** [b[i:j]]. *)
Definition slice (b : bytes) (i j : nat) : bytes := take (j - i) (drop i b).

Record envelope := MkEnvelope { env_provider : N; env_file_key : bytes; env_key_iv : bytes; env_data_iv : bytes; env_content : bytes }.

Definition parse_envelope (ciphertext : bytes) : result envelope :=
  if (length ciphertext <? HEADER_SIZE)%nat then Err CorruptedCiphertextError
  else
    match ciphertext with
    | m0 :: m1 :: m2 :: m3 :: version :: provider_type :: e1 :: e0 :: k1 :: k0 :: d1 :: d0 :: _ =>
        if negb (bool_decide ([m0; m1; m2; m3] = MAGIC)) then Err InvalidMagicError
        else if negb (version =? VERSION) then Err CorruptedCiphertextError
        else
          let offset := HEADER_SIZE in
          let efk_end := (offset + N.to_nat (256 * e1 + e0))%nat in
          let kiv_end := (efk_end + N.to_nat (256 * k1 + k0))%nat in
          let div_end := (kiv_end + N.to_nat (256 * d1 + d0))%nat in
          if (length ciphertext <? div_end)%nat then Err CorruptedCiphertextError
          else Ok (MkEnvelope provider_type (slice ciphertext offset efk_end) (slice ciphertext efk_end kiv_end)
                     (slice ciphertext kiv_end div_end) (drop div_end ciphertext))
    | _ => Err CorruptedCiphertextError
    end.

(** ** Encryption *)

Section encryptor.
(** [encrypt_file_key] and [decrypt_file_key] of the provider, with its marker byte. *)
Context (encrypt_file_key : bytes -> pystr -> result (bytes * bytes)) (decrypt_file_key : bytes -> bytes -> pystr -> result bytes).
Context (provider_type : N).
(** [AESGCM(key).encrypt(iv, data, None)] and [decrypt]. *)
Context (gcm_encrypt gcm_decrypt : bytes -> bytes -> bytes -> result bytes).

(** [except Exception as e: raise E(...)]. *)
Definition as_error {A} (e' : exn) (r : result A) : result A :=
  match r with Ok a => Ok a | Err e => if is_exception e then Err e' else Err e end.

Definition aes_gcm_decrypt (key iv ciphertext : bytes) : result bytes := as_error AuthenticationFailedError (gcm_decrypt key iv ciphertext).

Definition encrypt (file_key data_iv : bytes) (account_id : pystr) (plaintext : bytes) : result bytes :=
  encrypted_content ← gcm_encrypt file_key data_iv plaintext;
  kk ← encrypt_file_key file_key account_id;
  build_envelope provider_type (fst kk) (snd kk) data_iv encrypted_content.

Definition decrypt (account_id : pystr) (ciphertext : bytes) : result bytes :=
  if negb (startswith MAGIC ciphertext) then Ok ciphertext
  else if (length ciphertext <? MAGIC_LENGTH)%nat then Err InvalidMagicError
  else
    env ← as_error CorruptedCiphertextError (parse_envelope ciphertext);
    file_key ← as_error KeyMismatchError (decrypt_file_key (env_file_key env) (env_key_iv env) account_id);
    as_error AuthenticationFailedError (aes_gcm_decrypt file_key (env_data_iv env) (env_content env)).
End encryptor.

(** ** Correctness *)

Lemma pack_H_ok n b : pack_H n = Ok b -> n < 65536 /\ b = [n / 256; n mod 256] /\ 256 * (n / 256) + n mod 256 = n.
Proof.
  unfold pack_H. destruct (N.ltb_spec n 65536); [|done]. intros [= <-]. split_and!; [done|done|].
  symmetry. by apply N.div_mod.
Qed.

Lemma pack_H_bytes h l : h < 256 -> l < 256 -> pack_H (256 * h + l) = Ok [h; l].
Proof.
  intros Hh Hl. unfold pack_H. rewrite (proj2 (N.ltb_lt _ _)) by lia. do 2 f_equal.
  - symmetry. apply (N.div_unique _ _ _ l); lia.
  - f_equal. symmetry. apply (N.mod_unique _ _ h); lia.
Qed.

Lemma slice_app a b c i j : i = length a -> j = (length a + length b)%nat -> slice (a ++ b ++ c) i j = b.
Proof. intros -> ->. unfold slice. rewrite drop_app_length. replace (_ - _)%nat with (length b) by lia. by rewrite take_app_length. Qed.

(** A built envelope parses to its parts. *)
Lemma parse_build p efk kiv div content ct :
  build_envelope p efk kiv div content = Ok ct -> parse_envelope ct = Ok (MkEnvelope p efk kiv div content).
Proof.
  unfold build_envelope. change (pack_B VERSION) with (Ok [VERSION]). cbn [mbind result_bind].
  destruct (pack_B p) as [pb|] eqn:Ep; [|done]. cbn [mbind result_bind].
  destruct (pack_H (blen efk)) as [eb|] eqn:Ee; [|done]. cbn [mbind result_bind].
  destruct (pack_H (blen kiv)) as [kb|] eqn:Ek; [|done]. cbn [mbind result_bind].
  destruct (pack_H (blen div)) as [db|] eqn:Ed; [|done]. cbn [mbind result_bind]. intros [= <-].
  apply pack_H_ok in Ee as (_ & -> & He), Ek as (_ & -> & Hk), Ed as (_ & -> & Hd).
  unfold pack_B in Ep. destruct (p <? 256); [|done]. injection Ep as <-.
  set (rest := efk ++ kiv ++ div ++ content). cbn [MAGIC app]. unfold parse_envelope.
  set (hdr := [79; 86; 69; 49; VERSION; p; blen efk / 256; blen efk mod 256; blen kiv / 256; blen kiv mod 256; blen div / 256; blen div mod 256]).
  change (79 :: 86 :: 69 :: 49 :: VERSION :: p :: _) with (hdr ++ rest).
  rewrite (proj2 (Nat.ltb_ge _ _)) by (rewrite length_app; cbn; unfold HEADER_SIZE; lia).
  cbn [hdr app]. change (79 :: 86 :: 69 :: 49 :: VERSION :: p :: _) with (hdr ++ rest).
  rewrite bool_decide_eq_true_2 by done. cbn [negb]. rewrite N.eqb_refl. cbn [negb]. rewrite He, Hk, Hd. unfold blen. rewrite !Nat2N.id.
  assert (length hdr = HEADER_SIZE) as Hh by done.
  rewrite (proj2 (Nat.ltb_ge _ _)) by (subst rest; rewrite !length_app, Hh; lia).
  f_equal. subst rest. f_equal.
  - apply slice_app; lia.
  - rewrite (app_assoc hdr). apply slice_app; rewrite length_app; lia.
  - rewrite (app_assoc hdr), (app_assoc (hdr ++ efk)). apply slice_app; rewrite !length_app; lia.
  - rewrite !app_assoc. apply drop_app_length'. rewrite !length_app. lia.
Qed.

Lemma slice_split (b : bytes) i j : (i <= j)%nat -> drop i b = slice b i j ++ drop j b.
Proof. intros H. unfold slice. replace (drop j b) with (drop (j - i) (drop i b)) by (rewrite drop_drop; f_equal; lia). by rewrite take_drop. Qed.

Lemma length_slice (b : bytes) i j : (i <= j <= length b)%nat -> length (slice b i j) = (j - i)%nat.
Proof. intros H. unfold slice. rewrite length_take, length_drop. lia. Qed.

(** Whatever parses was built from its parts. *)
Lemma build_parse ct env : Forall (fun b => b < 256) ct -> parse_envelope ct = Ok env ->
  build_envelope (env_provider env) (env_file_key env) (env_key_iv env) (env_data_iv env) (env_content env) = Ok ct.
Proof.
  intros Hb. unfold parse_envelope. destruct (_ <? HEADER_SIZE)%nat eqn:El; [done|].
  do 12 (destruct ct as [|? ct]; [done|]). rename n into m0, n0 into m1, n1 into m2, n2 into m3, n3 into v, n4 into p, n5 into e1, n6 into e0, n7 into k1, n8 into k0, n9 into d1, n10 into d0.
  rewrite !Forall_cons in Hb. destruct Hb as (_ & _ & _ & _ & _ & Hp & He1 & He0 & Hk1 & Hk0 & Hd1 & Hd0 & _).
  set (whole := m0 :: _) in *. case_bool_decide as Hm; [|done]. cbn [negb]. destruct (N.eqb_spec v VERSION) as [->|]; [|done]. cbn [negb].
  set (efk_end := (HEADER_SIZE + _)%nat). set (kiv_end := (efk_end + _)%nat). set (div_end := (kiv_end + _)%nat).
  destruct (Nat.ltb_spec (length whole) div_end) as [|Hlen]; [done|]. intros [= <-]. cbn [env_provider env_file_key env_key_iv env_data_iv env_content].
  unfold build_envelope. change (pack_B VERSION) with (Ok [VERSION]). cbn [mbind result_bind].
  assert (pack_B p = Ok [p]) as -> by (unfold pack_B; by rewrite (proj2 (N.ltb_lt _ _))). cbn [mbind result_bind].
  assert (forall h l i j, h < 256 -> l < 256 -> (i <= j <= length whole)%nat -> (j - i)%nat = N.to_nat (256 * h + l) -> pack_H (blen (slice whole i j)) = Ok [h; l]) as Hs.
  { intros h l i j Hh Hl Hij E. unfold blen. rewrite length_slice, E, N2Nat.id by done. by apply pack_H_bytes. }
  assert (HEADER_SIZE <= efk_end /\ efk_end <= kiv_end /\ kiv_end <= div_end)%nat as (? & ? & ?) by (unfold efk_end, kiv_end, div_end; lia).
  rewrite (Hs e1 e0 HEADER_SIZE efk_end); [cbn [mbind result_bind]|done|done|lia|unfold efk_end; lia].
  rewrite (Hs k1 k0 efk_end kiv_end); [cbn [mbind result_bind]|done|done|lia|unfold kiv_end; lia].
  rewrite (Hs d1 d0 kiv_end div_end); [cbn [mbind result_bind]|done|done|lia|unfold div_end; lia].
  change (drop (N.to_nat (256 * e1 + e0) + N.to_nat (256 * k1 + k0) + N.to_nat (256 * d1 + d0)) ct) with (drop div_end whole).
  rewrite <- (slice_split whole kiv_end div_end), <- (slice_split whole efk_end kiv_end), <- (slice_split whole HEADER_SIZE efk_end)
    by lia.
  injection Hm as -> -> -> ->. done.
Qed.

(** The envelope format is exact: a byte string parses to some parts if and only if
    building those parts gives that byte string. *)
Theorem envelope_exact (ct : bytes) (p : N) (efk kiv div content : bytes) :
  Forall (fun b => b < 256) ct ->
  parse_envelope ct = Ok (MkEnvelope p efk kiv div content) <-> build_envelope p efk kiv div content = Ok ct.
Proof. intros Hb. split; [apply (build_parse ct (MkEnvelope p efk kiv div content) Hb)|apply parse_build]. Qed.

Lemma build_magic p efk kiv div content ct : build_envelope p efk kiv div content = Ok ct -> startswith MAGIC ct = true.
Proof.
  unfold build_envelope. change (pack_B VERSION) with (Ok [VERSION]). cbn [mbind result_bind].
  destruct (pack_B p); [|done]. cbn [mbind result_bind]. destruct (pack_H (blen efk)); [|done]. destruct (pack_H (blen kiv)); [|done]. destruct (pack_H (blen div)); [|done]. cbn [mbind result_bind].
  intros [= <-]. done.
Qed.

(** What the code relies on: decryption undoes encryption under the same key, iv and
    account. *)
Class CryptoOk (encrypt_file_key : bytes -> pystr -> result (bytes * bytes)) (decrypt_file_key : bytes -> bytes -> pystr -> result bytes)
    (gcm_encrypt gcm_decrypt : bytes -> bytes -> bytes -> result bytes) : Prop := {
  file_key_law key account efk kiv : encrypt_file_key key account = Ok (efk, kiv) -> decrypt_file_key efk kiv account = Ok key;
  gcm_law key iv plaintext ct : gcm_encrypt key iv plaintext = Ok ct -> gcm_decrypt key iv ct = Ok plaintext }.

Section correctness.
Context (encrypt_file_key : bytes -> pystr -> result (bytes * bytes)) (decrypt_file_key : bytes -> bytes -> pystr -> result bytes).
Context (gcm_encrypt gcm_decrypt : bytes -> bytes -> bytes -> result bytes) (provider_type : N).
Abbreviation encrypt_op := (encrypt encrypt_file_key provider_type gcm_encrypt).
Abbreviation decrypt_op := (decrypt decrypt_file_key gcm_decrypt).

(** What was encrypted for an account decrypts to the plaintext for that account. *)
Theorem decrypt_encrypt (account : pystr) (file_key data_iv plaintext ct : bytes) :
  CryptoOk encrypt_file_key decrypt_file_key gcm_encrypt gcm_decrypt ->
  encrypt_op file_key data_iv account plaintext = Ok ct -> decrypt_op account ct = Ok plaintext.
Proof.
  intros Hok. unfold encrypt. destruct (gcm_encrypt file_key data_iv plaintext) as [content|] eqn:Ec; [|done]. cbn [mbind result_bind].
  destruct (encrypt_file_key file_key account) as [[efk kiv]|] eqn:Ek; [|done]. cbn [mbind result_bind fst snd]. intros Hb.
  unfold decrypt. rewrite (build_magic _ _ _ _ _ _ Hb). cbn [negb].
  pose proof (startswith_inv _ _ (build_magic _ _ _ _ _ _ Hb)) as Hm. rewrite (proj2 (Nat.ltb_ge _ _)).
  2: { rewrite Hm, length_app. unfold MAGIC_LENGTH. lia. }
  rewrite (parse_build _ _ _ _ _ _ Hb). cbn [as_error mbind result_bind env_file_key env_key_iv env_data_iv env_content].
  rewrite (file_key_law _ _ _ _ Ek). cbn [as_error mbind result_bind]. unfold aes_gcm_decrypt. by rewrite (gcm_law _ _ _ _ Ec).
Qed.

End correctness.

Section outcomes.
Context (decrypt_file_key : bytes -> bytes -> pystr -> result bytes) (gcm_decrypt : bytes -> bytes -> bytes -> result bytes).
Abbreviation decrypt_op := (decrypt decrypt_file_key gcm_decrypt).

(** Decryption returns data without the magic prefix as it is; for anything else it
    returns the authenticated content of a well-formed envelope whose key opens for the
    account, or one of the three errors that say which of these failed. *)
Theorem decrypt_outcome (account : pystr) (ct : bytes) :
  (forall efk kiv e, decrypt_file_key efk kiv account = Err e -> is_exception e = true) ->
  (forall key iv c e, gcm_decrypt key iv c = Err e -> is_exception e = true) ->
  if startswith MAGIC ct then
    match parse_envelope ct with
    | Err _ => decrypt_op account ct = Err CorruptedCiphertextError
    | Ok env =>
        match decrypt_file_key (env_file_key env) (env_key_iv env) account with
        | Err _ => decrypt_op account ct = Err KeyMismatchError
        | Ok key =>
            match gcm_decrypt key (env_data_iv env) (env_content env) with
            | Err _ => decrypt_op account ct = Err AuthenticationFailedError
            | Ok plaintext => decrypt_op account ct = Ok plaintext
            end
        end
    end
  else decrypt_op account ct = Ok ct.
Proof.
  intros Hk Hg. unfold decrypt. destruct (startswith MAGIC ct) eqn:E; cbn [negb]; [|done].
  apply startswith_inv in E as Hm. rewrite (proj2 (Nat.ltb_ge _ _)) by (rewrite Hm, length_app; unfold MAGIC_LENGTH; lia).
  assert (forall e, parse_envelope ct = Err e -> is_exception e = true) as Hp.
  { intros e. unfold parse_envelope. repeat case_match; try done; by intros [= <-]. }
  destruct (parse_envelope ct) as [env|e]; cbn [as_error]; [|by rewrite Hp]. cbn [mbind result_bind].
  destruct (decrypt_file_key _ _ _) as [key|e] eqn:Ek; cbn [as_error]; [|by rewrite (Hk _ _ _ Ek)]. cbn [mbind result_bind]. unfold aes_gcm_decrypt.
  destruct (gcm_decrypt _ _ _) as [pt|e] eqn:Eg; cbn [as_error]; [done|]. by rewrite (Hg _ _ _ _ Eg).
Qed.
End outcomes.

(** ** A toy instance *)

Module Toy.
(** Keys are wrapped with the account name; contents are tagged with key and iv. *)
Definition wrap (key : bytes) (account : pystr) : result (bytes * bytes) := Ok (key ++ account, account).
Definition unwrap (efk kiv : bytes) (account : pystr) : result bytes :=
  if seqb kiv account then Ok (take (length efk - length account) efk) else Err OtherError.
Definition seal (key iv plaintext : bytes) : result bytes := Ok (key ++ iv ++ plaintext).
Definition open (key iv ct : bytes) : result bytes :=
  if startswith (key ++ iv) ct then Ok (drop (length (key ++ iv)) ct) else Err OtherError.

Lemma toy_ok : CryptoOk wrap unwrap seal open.
Proof.
  split.
  - intros key account efk kiv [= <- <-]. unfold unwrap. rewrite (proj2 (seqb_true _ _)) by done.
    rewrite length_app, Nat.add_sub. by rewrite take_app_length.
  - intros key iv pt ct [= <-]. unfold open. rewrite app_assoc, startswith_app. by rewrite drop_app_length.
Qed.

Definition file : bytes := match encrypt wrap 1 seal [7; 7] [9] (u "acme") [1; 2; 3] with Ok ct => ct | Err _ => [] end.

Lemma decrypt_encrypt_witness : decrypt unwrap open (u "acme") file = Ok [1; 2; 3].
Proof. apply (decrypt_encrypt wrap unwrap seal open 1 (u "acme") [7; 7] [9] [1; 2; 3] file toy_ok). by vm_compute. Defined.

Lemma decrypt_outcome_witness : decrypt unwrap open (u "other") file = Err KeyMismatchError.
Proof.
  assert (forall efk kiv e, unwrap efk kiv (u "other") = Err e -> is_exception e = true) as H1
    by (intros efk kiv e; unfold unwrap; case_match; intros Hx; [discriminate Hx|by injection Hx as <-]).
  assert (forall key iv c e, open key iv c = Err e -> is_exception e = true) as H2
    by (intros key iv c e; unfold open; case_match; intros Hx; [discriminate Hx|by injection Hx as <-]).
  pose proof (decrypt_outcome unwrap open (u "other") file H1 H2) as H. assert (startswith MAGIC file = true) as E by by vm_compute. rewrite E in H.
  destruct (parse_envelope file) as [env|e] eqn:Ep; [|by vm_compute in Ep].
  assert (is_ok (unwrap (env_file_key env) (env_key_iv env) (u "other")) = false) as Eu
    by (vm_compute in Ep; injection Ep as <-; by vm_compute).
  by destruct (unwrap _ _ _).
Defined.

Lemma envelope_exact_witness :
  parse_envelope file = Ok (MkEnvelope 1 ([7; 7] ++ u "acme") (u "acme") [9] [7; 7; 9; 1; 2; 3]).
Proof. apply envelope_exact; [by vm_compute; repeat constructor|by vm_compute]. Defined.
End Toy.
