(* ===== verification/UserDeletion.v ===== *)
(** User deletion: [UserDeletionService] and its queue consumer, of
    [openviking/service/user_deletion.py].

    The service composes the API key registry ([ApiKeys]), the task tracker
    ([TaskTracker]), the watch manager ([Watch]) and a durable queue ([NamedQueue]); the
    files, the vector store, the OAuth store and the usage audit are arguments.  The
    deletion queue has one worker, and a run is modelled without other coroutines acting
    between its steps, except while it waits for the user's tasks to stop. *)
From Stdlib Require Import NArith ZArith.
From S2P Require Import Prelude PyStr PyVal PyBytes Identifiers Namespace TaskStore TaskRecord WorkIndex TaskTracker NamedQueue ApiKeys Watch.

Open Scope N_scope.

Definition TASK_TYPE : pystr := u "user_delete".
Definition CANCEL_WAIT : stamp := (600 * second)%Z.
Definition SHARED_UPLOAD_ROOT : pystr := u "viking://upload".
Definition SYSTEM_TASK_USER_ID : pystr := u "root".
Definition QUEUE_NAME : pystr := u "UserDeletion".

(** ** Messages *)

(** [_deletion_message]. *)
Definition deletion_message (task_id owner_account_id owner_user_id target_account_id target_user_id : pystr) : pydict :=
  [(u "task_id", VStr task_id); (u "account_id", VStr owner_account_id); (u "user_id", VStr owner_user_id);
   (u "target", VDict [(u "account_id", VStr target_account_id); (u "user_id", VStr target_user_id)])].

(** The dict [_parse_message] returns. *)
Record DeletionMessage := MkDelMessage {
  dm_task_id : pystr; dm_account_id : pystr; dm_user_id : pystr; dm_target_account_id : pystr; dm_target_user_id : pystr }.

Section parsing.
Context (json_loads : pystr -> option pyval) (json_error : pystr -> pystr) (render : pyval -> pystr).

Definition invalid (what : string) : pystr + DeletionMessage := inl (u "Invalid user deletion " ++ u what).

(** [_parse_message]: the message, or the text of the [ValueError]. *)
Definition parse_message (data : pydict) : pystr + DeletionMessage :=
  let payload := default (VDict data) (dict_get data (u "data")) in
  let decoded := match payload with
                 | VStr s => match json_loads s with Some v => inr v | None => inl (json_error s) end
                 | v => inr v
                 end in
  match decoded with
  | inl e => inl e
  | inr (VDict payload) =>
      match get_or_none payload (u "target") with
      | VDict target =>
          if existsb (fun k => negb (py_truthy (get_or_none payload (u k)))) ["task_id"; "account_id"; "user_id"]%string then invalid "owner"
          else if negb (py_truthy (get_or_none target (u "account_id"))) || negb (py_truthy (get_or_none target (u "user_id"))) then invalid "target"
          else
            let text d k := py_str render (get_or_none d (u k)) in
            inr (MkDelMessage (text payload "task_id") (text payload "account_id") (text payload "user_id")
                   (text target "account_id") (text target "user_id"))
      | _ => invalid "target"
      end
  | inr _ => invalid "message"
  end.
End parsing.

(** ** What the service is given *)

(** The file system, the vector store, the OAuth store and the usage audit; the last
    three may be absent. *)
Class Backends (X : Type) := {
  bk_rm : pystr -> RequestContext -> ST X unit;
  bk_ls : pystr -> RequestContext -> ST X (list pydict);
  bk_read_file : pystr -> RequestContext -> ST X pystr;
  bk_delete_vectors : option (pystr -> pystr -> RequestContext -> ST X unit);
  bk_revoke_tokens : option (pystr -> pystr -> ST X unit);
  bk_delete_usage : option (pystr -> pystr -> ST X unit) }.

(** Everything the service touches besides its queue.  The scheduler and its watch
    manager may be absent; the last two fields say whether [initialize] has given the
    file system the deletion guard and the queue its consumer. *)
Record site (Ts Ks Ws X : Type) := MkSite {
  s_tracker : tracker Ts;
  s_keys : ApiKeys.manager Ks;
  s_watch : option (Watch.manager Ws);
  s_rest : X;
  s_guarded : bool;
  s_consumer : bool }.
Arguments MkSite {Ts Ks Ws X}. Arguments s_tracker {Ts Ks Ws X}. Arguments s_keys {Ts Ks Ws X}. Arguments s_watch {Ts Ks Ws X}.
Arguments s_rest {Ts Ks Ws X}. Arguments s_guarded {Ts Ks Ws X}. Arguments s_consumer {Ts Ks Ws X}.

Section service.
Context {Ts Ks Ws X F : Type}.
Context {TS : TaskStore Ts} {KF : KeyFiles Ks} {env : WatchEnv} {WF : WatchFS Ws} {BK : Backends X} {QF : QueueFS F}.
Context (json_loads : pystr -> option pyval) (json_dumps : pydict -> pystr) (json_error : pystr -> pystr) (render : pyval -> pystr).
(** The directory of the queue. *)
Context (path : pystr).
(** The [n]th reading of the clocks in a run, and how many polls fit in a time. *)
Context (clock monotonic : nat -> stamp) (polls : stamp -> nat).
(** What other coroutines do to the tracker between the [j]th and the next poll for the
    [i]th task waited for. *)
Context (others : nat -> nat -> tracker Ts -> tracker Ts).

Abbreviation S := (site Ts Ks Ws X).
Abbreviation W := (queue S F).

Definition set_tracker (t : tracker Ts) (s : S) : S := MkSite t (s_keys s) (s_watch s) (s_rest s) (s_guarded s) (s_consumer s).
Definition set_keys (k : ApiKeys.manager Ks) (s : S) : S := MkSite (s_tracker s) k (s_watch s) (s_rest s) (s_guarded s) (s_consumer s).
Definition set_watch (m : option (Watch.manager Ws)) (s : S) : S := MkSite (s_tracker s) (s_keys s) m (s_rest s) (s_guarded s) (s_consumer s).
Definition set_rest (x : X) (s : S) : S := MkSite (s_tracker s) (s_keys s) (s_watch s) x (s_guarded s) (s_consumer s).

(** An operation of one part, run on the whole. *)
Definition part {P A} (get : S -> P) (set : P -> S -> S) (op : ST P A) : ST W A :=
  NamedQueue.on_owner (fun s => let '(r, p) := op (get s) in (r, set p s)).
Definition on_tracker {A} (op : ST (tracker Ts) A) : ST W A := part s_tracker set_tracker op.
Definition on_keys {A} (op : ST (ApiKeys.manager Ks) A) : ST W A := part s_keys set_keys op.
Definition on_rest {A} (op : ST X A) : ST W A := part s_rest set_rest op.

Definition registry (w : W) : ring := ApiKeys.mg_ring (s_keys (q_owner w)).

(** [try: body except Exception: handler], then [next]. *)
Definition attempt {A} (body : ST W unit) (handler next : ST W A) : ST W A := fun w =>
  match body w with
  | (Ok _, w) => next w
  | (Err e, w) => if is_exception e then handler w else (Err e, w)
  end.

(** ** Cleanup *)

(** [_stop_watches]; the manager's own loop ends in its first round when nobody moves
    the task's target. *)
Fixpoint delete_watches (n : nat) (account user : pystr) (tasks : list WatchTask) : ST (Watch.manager Ws) unit :=
  match tasks with
  | [] => mret tt
  | t :: tasks =>
      _ ← delete_task 1 (fun _ m => m) (fun _ m => m) (clock n) (Watch.task_id t) account user USER;
      delete_watches (1 + n) account user tasks
  end.

Definition stop_watches (account user : pystr) : ST W unit := NamedQueue.on_owner (fun s =>
  match s_watch s with
  | None => (Ok tt, s)
  | Some m =>
      let '(r, m) := delete_watches 0 account user (get_all_tasks account user USER false (mg_watch m)) m in
      (r, set_watch (Some m) s)
  end).

(** The cancellation loop of [_cancel_user_tasks]: the tasks that cannot be cancelled,
    and the tasks to wait for. *)
Fixpoint cancel_each (n : nat) (account user : pystr) (active : list TaskRecord) (blockers waiting : list pystr)
    : ST (tracker Ts) (list pystr * list pystr) :=
  match active with
  | [] => mret (blockers, waiting)
  | t :: active => fun s =>
      match cancel (clock n) (clock (1 + n)) (TaskRecord.task_id t) (Some account) (Some user) s with
      | (Ok _, s) => cancel_each (3 + n) account user active blockers (waiting ++ [TaskRecord.task_id t]) s
      | (Err e, s) =>
          if is_value_error e then
            (current ← TaskTracker.get (clock (2 + n)) (TaskRecord.task_id t) (Some account) (Some user);
             cancel_each (3 + n) account user active
               (match current with
                | Some c => if TaskRecord.is_active (status c)
                            then blockers ++ [TaskRecord.task_id c ++ u "(" ++ task_type c ++ u ")"] else blockers
                | None => blockers
                end) waiting) s
          else (Err e, s)
      end
  end.

(** [TaskTracker.wait] with a timeout that allows [fuel] polls. *)
Fixpoint wait_poll (fuel i j : nat) (account user task_id : pystr) : ST (tracker Ts) TaskRecord :=
  match fuel with
  | O => st_raise TimeoutError
  | Datatypes.S fuel =>
      task ← TaskTracker.get (clock j) task_id (Some account) (Some user);
      match task with
      | None => st_raise KeyError
      | Some t => if is_terminal (status t) then mret t else _ ← st_modify (others i j); wait_poll fuel i (1 + j) account user task_id
      end
  end.

Fixpoint wait_each (i : nat) (deadline : stamp) (account user : pystr) (waiting : list pystr) : ST (tracker Ts) unit :=
  match waiting with
  | [] => mret tt
  | task_id :: waiting =>
      let remaining := (deadline - monotonic i)%Z in
      if (remaining <=? 0)%Z then st_raise TimeoutError
      else _ ← wait_poll (polls remaining) i 0 account user task_id; wait_each (1 + i) deadline account user waiting
  end.

Definition cancel_user_tasks (account user : pystr) : ST (tracker Ts) unit :=
  tasks ← list_tasks (clock 0) None None None 10000 (Some account) (Some user) false;
  '(blockers, waiting) ← cancel_each 1 account user (filter (fun t => TaskRecord.is_active (status t) = true) tasks) [] [];
  match blockers with
  | _ :: _ => st_raise RuntimeError
  | [] => wait_each 1 (monotonic 0 + CANCEL_WAIT) account user waiting
  end.

(** The id of an upload directory, or [None] for an entry that is skipped. *)
Definition upload_uri (upload : pydict) : option pystr :=
  let uri := rstrip is_slash (py_str render (py_or (get_or_none upload (u "uri")) (VStr []))) in
  let prefix := SHARED_UPLOAD_ROOT ++ u "/" in
  if negb (nonempty uri) || seqb uri SHARED_UPLOAD_ROOT then None
  else
    let upload_id := if startswith prefix uri then drop (length prefix) uri else uri in
    if negb (py_truthy (get_or_none upload (u "isDir"))) || negb (startswith prefix uri) || negb (nonempty upload_id)
       || bool_decide (c_slash ∈ upload_id)
    then None else Some uri.

(** One round of the loop of [_delete_uploads]; metadata that is JSON but no object has
    no [get]. *)
Definition delete_upload (ctx : RequestContext) (uri : pystr) : ST X unit := fun x =>
  match bk_read_file (uri ++ u "/meta") ctx x with
  | (Ok text, x) =>
      match json_loads text with
      | None => (Ok tt, x)
      | Some (VDict meta) =>
          if is_text (ctx_account_id ctx) (get_or_none meta (u "account")) && is_text (ctx_user_id ctx) (get_or_none meta (u "user"))
          then bk_rm uri ctx x else (Ok tt, x)
      | Some _ => (Err OtherError, x)
      end
  | (Err e, x) => if is_exception e then (Ok tt, x) else (Err e, x)
  end.

Fixpoint delete_each_upload (ctx : RequestContext) (uploads : list pydict) : ST X unit :=
  match uploads with
  | [] => mret tt
  | upload :: uploads =>
      _ ← match upload_uri upload with Some uri => delete_upload ctx uri | None => mret tt end;
      delete_each_upload ctx uploads
  end.

Definition delete_uploads (ctx : RequestContext) : ST X unit := fun x =>
  match bk_ls SHARED_UPLOAD_ROOT ctx x with
  | (Err NotFoundError, x) => (Ok tt, x)
  | (Err e, x) => (Err e, x)
  | (Ok uploads, x) => delete_each_upload ctx uploads x
  end.

(** ** The consumer's work *)

Definition owner_of (m : DeletionMessage) : option pystr * option pystr := (Some (dm_account_id m), Some (dm_user_id m)).

Definition track_stage (n : nat) (m : DeletionMessage) (stage : pystr) : ST W unit :=
  on_tracker (update_stage (clock n) (dm_task_id m) stage (Some (dm_account_id m)) (Some (dm_user_id m))).
Definition track_complete (n : nat) (m : DeletionMessage) (deleted stale : bool) : ST W (option pystr) :=
  _ ← on_tracker (complete (clock n) (clock (1 + n)) (dm_task_id m) [(u "deleted", VBool deleted); (u "stale", VBool stale)]
        (Some (dm_account_id m)) (Some (dm_user_id m)) None);
  mret None.

(** [error = "User cleanup failed at stages: ..."; await tracker.fail(...); return error]. *)
Definition track_failure (n : nat) (m : DeletionMessage) (stages : list pystr) : ST W (option pystr) :=
  let error := u "User cleanup failed at stages: " ++ join (u ", ") stages in
  _ ← on_tracker (fail (clock n) (clock (1 + n)) (dm_task_id m) error (Some (dm_account_id m)) (Some (dm_user_id m)));
  mret (Some error).

Definition opt_step {A} (name : string) (op : option A) (run : A -> ST W unit) : list (pystr * ST W unit) :=
  match op with Some f => [(u name, run f)] | None => [] end.

Definition cleanup_steps (m : DeletionMessage) (ctx : RequestContext) : list (pystr * ST W unit) :=
  let account := dm_target_account_id m in
  let user := dm_target_user_id m in
  [(u "task_records", _ ← on_tracker (delete_user_tasks (clock 20) account user); mret tt)]
  ++ opt_step "vectordb" bk_delete_vectors (fun f => on_rest (f account user ctx))
  ++ [(u "agfs", on_rest (bk_rm (canonical_user_root ctx) ctx)); (u "uploads", on_rest (delete_uploads ctx))]
  ++ opt_step "oauth" bk_revoke_tokens (fun f => on_rest (f account user))
  ++ opt_step "usage_audit" bk_delete_usage (fun f => on_rest (f account user)).

Fixpoint run_steps (n : nat) (m : DeletionMessage) (steps : list (pystr * ST W unit)) (failed_stages : list pystr) : ST W (list pystr) :=
  match steps with
  | [] => mret failed_stages
  | (stage, cleanup) :: steps =>
      _ ← track_stage n m (u "cleaning_" ++ stage);
      attempt cleanup (run_steps (1 + n) m steps (failed_stages ++ [stage])) (run_steps (1 + n) m steps failed_stages)
  end.

(** From the end of the cleanup on. *)
Definition remove_user (m : DeletionMessage) : ST W (option pystr) :=
  _ ← track_stage 30 m (u "removing_user");
  st_of (fun w =>
    match on_keys (finish_user_deletion (dm_target_account_id m) (dm_target_user_id m) (dm_task_id m)) w with
    | (Ok removed, w) => track_complete 31 m removed (negb removed) w
    | (Err e, w) => if is_exception e then track_failure 31 m [u "registry"] w else (Err e, w)
    end).

Definition cleanup (m : DeletionMessage) : ST W (option pystr) :=
  user ← st_lift (new_user (dm_target_account_id m) (dm_target_user_id m));
  failed_stages ← run_steps 10 m (cleanup_steps m (MkCtx user ROOT [] None false None false)) [];
  match failed_stages with
  | _ :: _ => track_failure 31 m failed_stages
  | [] => remove_user m
  end.

(** [_process], with the uuid [create] would draw for a task without an id. *)
Definition process (uuid4 : pystr) (m : DeletionMessage) : ST W (option pystr) :=
  let account := dm_target_account_id m in
  let user := dm_target_user_id m in
  task ← on_tracker (create uuid4 (clock 0) (clock 1) TASK_TYPE (Some (account ++ u "/" ++ user)) (dm_account_id m) (dm_user_id m)
           (Some (dm_task_id m)) None None);
  if is_terminal (status task) then mret None
  else
    r ← st_gets registry;
    if negb (bool_decide (del_task_id <$> get_user_deletion r account user = Some (dm_task_id m)))
    then track_complete 2 m (negb (has_user r account user)) true
    else
      attempt (_ ← on_tracker (start (clock 2) (dm_task_id m) (Some (dm_account_id m)) (Some (dm_user_id m)) (Some (u "stopping_watches")));
               stop_watches account user)
        (track_failure 3 m [u "watches"])
        (attempt (_ ← track_stage 3 m (u "cancelling_tasks"); on_tracker (cancel_user_tasks account user))
          (track_failure 4 m [u "tasks"])
          (cleanup m)).

(** ** Queueing *)

Definition queue_index (s : S) : TaskWorkIndex := tk_work (s_tracker s).
Definition set_queue_index (i : TaskWorkIndex) (s : S) : S := set_tracker (set_work i (s_tracker s)) s.
Definition queue_cancelled (s : S) : option (pystr -> bool) := Some (is_cancellation_requested (s_tracker s)).
Definition queue_finalize (md : QueueTaskMetadata) : ST S unit := fun s =>
  let '(r, t) := finalize_before_ack (clock 40) md (s_tracker s) in (r, set_tracker t s).

Definition queue_snapshot : ST W (list pyval) := NamedQueue.snapshot json_loads path.
Definition queue_enqueue (uuid4 : pystr) (message : pydict) : ST W pystr :=
  NamedQueue.enqueue queue_index set_queue_index queue_cancelled (Some queue_finalize) json_loads json_dumps render QUEUE_NAME path true
    (fun d => mret d) None uuid4 (DDict message).

(** The task ids of messages. *)
Definition queued_ids (messages : list pyval) : list pystr :=
  omap (fun message => md_task_id <$> extract_task_metadata json_loads render message) messages.

Definition enqueue_if_missing (uuid4 task_id owner_account_id owner_user_id target_account_id target_user_id : pystr) : ST W unit :=
  messages ← queue_snapshot;
  if mem task_id (queued_ids messages) then mret tt
  else _ ← queue_enqueue uuid4 (deletion_message task_id owner_account_id owner_user_id target_account_id target_user_id); mret tt.

(** The loop of [initialize] over the fences; [uuid4 n] are the ids drawn. *)
Fixpoint reconcile (n : nat) (uuid4 : nat -> pystr) (fences : list (pystr * pystr * deletion)) (queued_task_ids : list pystr) : ST W unit :=
  match fences with
  | [] => mret tt
  | ((account_id, user_id), MkDeletion task_id owner_account_id owner_user_id) :: fences =>
      if negb (nonempty task_id) || negb (nonempty owner_account_id) || negb (nonempty owner_user_id)
      then reconcile n uuid4 fences queued_task_ids
      else
        task ← on_tracker (TaskTracker.get (clock n) task_id (Some owner_account_id) (Some owner_user_id));
        task ← match task : option TaskRecord with
               | Some t => mret t
               | None => on_tracker (create (uuid4 n) (clock (1 + n)) (clock (2 + n)) TASK_TYPE (Some (account_id ++ u "/" ++ user_id))
                           owner_account_id owner_user_id (Some task_id) None None)
               end;
        if bool_decide (status task ∈ [PENDING; RUNNING]) && negb (mem task_id queued_task_ids) then
          _ ← queue_enqueue (uuid4 (1 + n)%nat) (deletion_message task_id owner_account_id owner_user_id account_id user_id);
          reconcile (3 + n) uuid4 fences (task_id :: queued_task_ids)
        else reconcile (3 + n) uuid4 fences queued_task_ids
  end.

(** [set_user_deletion_guard], and [get_queue] with the consumer. *)
Definition bind_guard : ST W unit := NamedQueue.on_owner (st_modify (fun s =>
  MkSite (s_tracker s) (s_keys s) (s_watch s) (s_rest s) true (s_consumer s))).
Definition bind_consumer : ST W unit := NamedQueue.on_owner (st_modify (fun s =>
  MkSite (s_tracker s) (s_keys s) (s_watch s) (s_rest s) (s_guarded s) true)).

Definition initialize (uuid4 : nat -> pystr) : ST W unit :=
  _ ← bind_guard;
  messages ← queue_snapshot;
  _ ← bind_consumer;
  r ← st_gets registry;
  reconcile 0 uuid4 (iter_user_deletions r) (queued_ids messages).

(** Who owns the task of a request. *)
Definition request_owner (account_id user_id : pystr) (actor : RequestContext) : pystr * pystr :=
  if seqb (ctx_role actor) ROOT || (seqb (ctx_account_id actor) account_id && seqb (ctx_user_id actor) user_id)
  then (SYSTEM_TASK_ACCOUNT_ID, SYSTEM_TASK_USER_ID) else (ctx_account_id actor, ctx_user_id actor).

(** The fence a request ends up with: a new one, the existing one, or a replacement for
    one whose task has ended. *)
Definition fence_user (uuid_a uuid_b account_id user_id : pystr) (owner : pystr * pystr) : ST W deletion :=
  '(existing, created) ← on_keys (begin_user_deletion account_id user_id (MkDeletion uuid_a owner.1 owner.2));
  if created : bool then mret existing
  else
    task ← on_tracker (TaskTracker.get (clock 0) (del_task_id existing) (Some (del_owner_account_id existing)) (Some (del_owner_user_id existing)));
    if match task with Some t => is_terminal (status t) | None => false end then
      replaced ← on_keys (replace_user_deletion_task account_id user_id (del_task_id existing) (MkDeletion uuid_b owner.1 owner.2));
      match replaced with Some d => mret d | None => st_raise NotFoundError end
    else mret existing.

(** [delete_user]; the four uuids a request may draw.  The result is the task id. *)
Definition delete_user (uuid_a uuid_b uuid_c uuid_d account_id user_id : pystr) (actor : RequestContext) : ST W pystr :=
  d ← fence_user uuid_a uuid_b account_id user_id (request_owner account_id user_id actor);
  _ ← on_tracker (create uuid_c (clock 1) (clock 2) TASK_TYPE (Some (account_id ++ u "/" ++ user_id))
        (del_owner_account_id d) (del_owner_user_id d) (Some (del_task_id d)) None None);
  _ ← enqueue_if_missing uuid_d (del_task_id d) (del_owner_account_id d) (del_owner_user_id d) account_id user_id;
  mret (del_task_id d).

(** ** The consumer *)

Definition on_dequeue (uuid4 : pystr) (ctx : option TaskExecutionContext) (data : pyval) : ST W (option pyval) :=
  let report_error e := NamedQueue.on_process_error queue_index set_queue_index json_loads render true e (Some data) in
  match data with
  | VDict d =>
      if negb (py_truthy data) then mret None
      else
        match parse_message json_loads json_error render d with
        | inl e => _ ← report_error e; mret None
        | inr message =>
            error ← process uuid4 message;
            _ ← match error with None => NamedQueue.on_process_success | Some e => report_error e end;
            mret None
        end
  | _ => if py_truthy data then st_raise OtherError else mret None
  end.

Definition deletion_handler (uuid4 : pystr) : handler (S := S) (F := F) :=
  MkHandler (on_dequeue uuid4) NamedQueue.default_on_cancelled.

(** One message through the worker: taken from the queue, processed, acknowledged. *)
Definition consume (uuid4 : pystr) (active : option N) : ST W (option pyval) :=
  NamedQueue.dequeue queue_index set_queue_index queue_cancelled (Some queue_finalize) json_loads render QUEUE_NAME path true
    (Some (deletion_handler uuid4)) None active.
End service.
