(* ===== verification/UserDeletionTheory.v ===== *)
(** Theorems about user deletion ([UserDeletion]): the registry entry goes only after
    everything else of the user is gone, a failed cleanup keeps the fence, a request is
    durable and idempotent, and a restart resumes the deletions it finds. *)
From Stdlib Require Import NArith ZArith.
From S2P Require Import Prelude PyStr PyVal PyBytes Identifiers Namespace TaskRecord WorkIndex TaskTracker TaskTrackerTheory TaskOutcome TaskErasure NamedQueue NamedQueueTheory ApiKeys ApiKeysTheory Watch WatchTheory UserDeletion.

Open Scope N_scope.

(** ** What the back ends promise *)

Inductive store_kind := Files | Vectors | Tokens | Usage.

(** Steps of the back ends that remove no upload. *)
Inductive other_step {X} `{!Backends X} (x : X) : X -> Prop :=
| os_ls uri ctx : other_step x (bk_ls uri ctx x).2
| os_read uri ctx : other_step x (bk_read_file uri ctx x).2
| os_root ctx : other_step x (bk_rm (canonical_user_root ctx) ctx x).2
| os_vectors f a us ctx : bk_delete_vectors = Some f -> other_step x (f a us ctx x).2
| os_tokens f a us : bk_revoke_tokens = Some f -> other_step x (f a us x).2
| os_usage f a us : bk_delete_usage = Some f -> other_step x (f a us x).2.

(** Any step. *)
Definition bk_step {X} `{!Backends X} (x x' : X) : Prop := other_step x x' \/ exists uri ctx, x' = (bk_rm uri ctx x).2.

(** Reading the metadata of an upload raised, in [x]. *)
Definition unread {X} `{!Backends X} (ctx : RequestContext) (uri : pystr) (x : X) : Prop :=
  exists e, (bk_read_file (uri ++ u "/meta") ctx x).1 = Err e /\ is_exception e = true.

(** It did somewhere between [x] and [x']. *)
Definition skipped {X} `{!Backends X} (ctx : RequestContext) (uri : pystr) (x x' : X) : Prop :=
  exists x1, rtc bk_step x x1 /\ unread ctx uri x1 /\ rtc bk_step x1 x'.

(** [bk_clean k a us x]: nothing of the user is left in the store; [bk_upload x uri a us]:
    the metadata stored for the shared upload at [uri] names the user, which says nothing
    of whether it can be read at the moment.  A deletion that returns has deleted, and no
    step brings anything back. *)
Class BackendsOk (X : Type) `{!Backends X} (json_loads : pystr -> option pyval) := {
  bk_clean : store_kind -> pystr -> pystr -> X -> Prop;
  bk_upload : X -> pystr -> pystr -> pystr -> Prop;
  bk_rm_root ctx x x' : bk_rm (canonical_user_root ctx) ctx x = (Ok tt, x') -> bk_clean Files (ctx_account_id ctx) (ctx_user_id ctx) x';
  bk_vectors f a us ctx x x' : bk_delete_vectors = Some f -> f a us ctx x = (Ok tt, x') -> bk_clean Vectors a us x';
  bk_tokens f a us x x' : bk_revoke_tokens = Some f -> f a us x = (Ok tt, x') -> bk_clean Tokens a us x';
  bk_usage f a us x x' : bk_delete_usage = Some f -> f a us x = (Ok tt, x') -> bk_clean Usage a us x';
  bk_stays_clean k a us x x' : other_step x x' -> bk_clean k a us x -> bk_clean k a us x';
  bk_rm_clean k a us uri ctx x : bk_clean k a us x -> bk_clean k a us (bk_rm uri ctx x).2;
  (* uploads *)
  bk_upload_frame x x' uri a us : other_step x x' -> bk_upload x' uri a us <-> bk_upload x uri a us;
  bk_rm_no_new uri ctx x uri' a us : bk_upload (bk_rm uri ctx x).2 uri' a us -> bk_upload x uri' a us;
  bk_rm_upload uri ctx x x' uri' a us : bk_rm uri ctx x = (Ok tt, x') -> bk_upload x' uri' a us <-> bk_upload x uri' a us /\ uri' <> uri;
  bk_listed ctx x l x' uri us : bk_ls SHARED_UPLOAD_ROOT ctx x = (Ok l, x') -> bk_upload x uri (ctx_account_id ctx) us ->
    exists e id, e ∈ l /\ get_or_none e (u "uri") = VStr uri /\ py_truthy (get_or_none e (u "isDir")) = true
      /\ uri = SHARED_UPLOAD_ROOT ++ u "/" ++ id /\ id <> [] /\ c_slash ∉ id;
  bk_no_uploads ctx x x' uri us : bk_ls SHARED_UPLOAD_ROOT ctx x = (Err NotFoundError, x') -> ~ bk_upload x uri (ctx_account_id ctx) us;
  bk_metadata ctx x uri a us text : bk_upload x uri a us -> (bk_read_file (uri ++ u "/meta") ctx x).1 = Ok text ->
    exists meta, json_loads text = Some (VDict meta) /\ get_or_none meta (u "account") = VStr a /\ get_or_none meta (u "user") = VStr us }.

Section theory.
Context {Ts Ks Ws X F : Type}.
Context {TS : TaskStore Ts} {TSO : TaskStoreOk Ts} {KF : KeyFiles Ks} {KFO : KeyFilesOk Ks} {env : WatchEnv} {WF : WatchFS Ws} {QF : QueueFS F}.
Context {BK : Backends X} (json_loads : pystr -> option pyval) {BKO : BackendsOk X json_loads}.
Context (render : pyval -> pystr).
Context (clock monotonic : nat -> stamp) (polls : stamp -> nat) (others : nat -> nat -> tracker Ts -> tracker Ts).

Abbreviation W := (queue (site Ts Ks Ws X) F).
Implicit Types w : W.
Abbreviation tk w := (s_tracker (q_owner w)).
Abbreviation keys w := (s_keys (q_owner w)).
Abbreviation watches w := (s_watch (q_owner w)).
Abbreviation rest w := (s_rest (q_owner w)).

(** ** Steps that only keep the books *)

(** Only the tracker changed, and no task record came or went. *)
Record books (w w' : W) : Prop := {
  bo_keys : keys w' = keys w;
  bo_watch : watches w' = watches w;
  bo_rest : rest w' = rest w;
  bo_fs : q_fs w' = q_fs w;
  bo_tracker : coherent (tk w) -> coherent (tk w') /\ same_keys (tk w) (tk w') }.

#[export] Instance books_preorder : PreOrder books.
Proof.
  split.
  - intros w. split; try done.
  - intros w1 w2 w3 [K1 V1 R1 F1 T1] [K2 V2 R2 F2 T2]. split; [congruence..|].
    intros Hc. destruct (T1 Hc) as [Hc1 ?]. destruct (T2 Hc1). split; [done|]. by transitivity (tk w2).
Qed.

(** The whole of an operation keeps the books. *)
Definition bookish {A} (op : ST W A) : Prop := forall w, books w (op w).2.

Lemma bookish_tracker {A} (op : ST (tracker Ts) A) : triple same_keys (fun _ => True) op (fun _ _ => True) -> bookish (on_tracker op).
Proof.
  intros H w. unfold on_tracker, part, NamedQueue.on_owner. destruct (op (s_tracker (q_owner w))) as [r t] eqn:E. cbn.
  split; try done. intros Hc. destruct (H _ Hc I) as (? & ? & _). by rewrite E in *.
Qed.

Lemma bookish_bind {A B} (op : ST W A) (f : A -> ST W B) : bookish op -> (forall a, bookish (f a)) -> bookish (op ≫= f).
Proof.
  intros H Hf w. rewrite st_bind_unfold. pose proof (H w) as Hw. destruct (op w) as [[a|e] w1]; cbn in *; [|done].
  transitivity w1; [done|apply Hf].
Qed.

Lemma bookish_ret {A} (a : A) : bookish (mret a).
Proof. intros w. reflexivity. Qed.

Lemma track_stage_bookish n m stage : bookish (track_stage clock n m stage).
Proof. apply bookish_tracker, update_stage_triple. Qed.

Lemma track_complete_bookish n m d st : bookish (track_complete clock n m d st).
Proof. apply bookish_bind; [apply bookish_tracker, record_outcome_triple|intros; apply bookish_ret]. Qed.

Lemma track_failure_bookish n m stages : bookish (track_failure clock n m stages).
Proof. apply bookish_bind; [apply bookish_tracker, record_outcome_triple|intros; apply bookish_ret]. Qed.

Lemma track_failure_result n m stages w e : (track_failure clock n m stages w).1 = Ok e ->
  e = Some (u "User cleanup failed at stages: " ++ join (u ", ") stages).
Proof. unfold track_failure. rewrite st_bind_unfold. destruct (on_tracker _ w) as [[[]|] w1]; cbn; [by intros [= <-]|done]. Qed.

Lemma track_complete_result n m d st w e : (track_complete clock n m d st w).1 = Ok e -> e = None.
Proof. unfold track_complete. rewrite st_bind_unfold. destruct (on_tracker _ w) as [[[]|] w1]; cbn; [by intros [= <-]|done]. Qed.

(** ** The cleanup loop *)

Lemma run_steps_prefix n m steps failed w l w' : run_steps clock n m steps failed w = (Ok l, w') -> exists l', l = failed ++ l'.
Proof.
  revert n failed w. induction steps as [|[stage c] steps IH]; intros n failed w; cbn [run_steps].
  { intros [= <- _]. exists []. by rewrite app_nil_r. }
  rewrite st_bind_unfold. destruct (track_stage _ _ _ _ w) as [[[]|] w1]; [|done]. unfold attempt.
  destruct (c w1) as [[[]|e] w2]; [apply IH|]. destruct (is_exception e); [|done].
  intros (l' & ->)%IH. exists ([stage] ++ l'). by rewrite app_assoc.
Qed.

(** An invariant of the books and of every step holds at the end. *)
Lemma run_steps_keeps (I : W -> Prop) n m steps failed w : (forall w w', books w w' -> I w -> I w') ->
  Forall (fun sc => forall w, I w -> I (sc.2 w).2) steps -> I w -> I (run_steps clock n m steps failed w).2.
Proof.
  intros Hb. revert n failed w. induction steps as [|[stage c] steps IH]; intros n failed w Hs Hw; cbn [run_steps]; [done|].
  apply Forall_cons in Hs as [Hc Hs]. rewrite st_bind_unfold. pose proof (track_stage_bookish n m (u "cleaning_" ++ stage) w) as Hq.
  destruct (track_stage _ _ _ _ w) as [[[]|] w1]; cbn [snd] in *; [|by eapply Hb]. unfold attempt.
  pose proof (Hc w1 (Hb _ _ Hq Hw)) as Hc1. cbn [snd] in Hc1. destruct (c w1) as [[[]|e] w2]; cbn [snd] in *; [by apply IH|].
  destruct (is_exception e); [by apply IH|done].
Qed.

(** When no stage failed, what one of them established and the later ones keep holds at
    the end. *)
Lemma run_steps_establish (I G : W -> Prop) n m pre stage c post w w' :
  (forall w w', books w w' -> I w -> I w') -> Forall (fun sc => forall w, I w -> I (sc.2 w).2) (pre ++ (stage, c) :: post) ->
  (forall w w', I w -> c w = (Ok tt, w') -> G w') ->
  (forall w w', books w w' -> I w -> G w -> G w') -> Forall (fun sc => forall w, I w -> G w -> G (sc.2 w).2) post ->
  I w -> run_steps clock n m (pre ++ (stage, c) :: post) [] w = (Ok [], w') -> G w'.
Proof.
  intros HbI HI Hest HbG HG. revert n w. induction pre as [|[stage' c'] pre IH]; intros n w HIw; cbn [app run_steps].
  - cbn [app] in HI. apply Forall_cons in HI as [HIc HI]. rewrite st_bind_unfold. pose proof (track_stage_bookish n m (u "cleaning_" ++ stage) w) as Hq.
    destruct (track_stage _ _ _ _ w) as [[[]|] w1]; [|done]. cbn [snd] in Hq. unfold attempt. pose proof (HbI _ _ Hq HIw) as HI1. pose proof (HIc w1 HI1) as HI2. cbn [snd] in HI2.
    destruct (c w1) as [[[]|e] w2] eqn:Ec; cbn [snd] in HI2.
    + intros Hrun. pose proof (run_steps_keeps (fun w => I w /\ G w) (1 + n) m post [] w2) as Hk. rewrite Hrun in Hk. cbn [snd] in Hk.
      apply Hk; [|clear -HI HG|].
      * intros v v' Hv [Hi Hg]. split; [by eapply HbI|by eapply HbG].
      * rewrite Forall_forall in *. intros sc Hin v [Hi Hg]. split; [by apply HI|by apply HG].
      * split; [done|exact (Hest _ _ HI1 Ec)].
    + destruct (is_exception e); [|done]. intros (l' & [=])%run_steps_prefix.
  - cbn [app] in HI. apply Forall_cons in HI as [HIc HI]. rewrite st_bind_unfold. pose proof (track_stage_bookish n m (u "cleaning_" ++ stage') w) as Hq.
    destruct (track_stage _ _ _ _ w) as [[[]|] w1]; [|done]. cbn [snd] in Hq. unfold attempt. pose proof (HbI _ _ Hq HIw) as HI1. pose proof (HIc w1 HI1) as HI2.
    cbn [snd] in HI2. destruct (c' w1) as [[[]|e] w2] eqn:Ec; cbn [snd] in HI2; [by apply IH|].
    destruct (is_exception e); [|done]. intros (l' & [=])%run_steps_prefix.
Qed.

(** ** Watches *)

(** No watch of the user is left. *)
Definition unwatched (a us : pystr) (m : Watch.manager Ws) : Prop := get_all_tasks a us USER false (mg_watch m) = [].

Lemma delete_watch_tasks n id a us (m : Watch.manager Ws) m' b : delete_task 1 (fun _ m => m) (fun _ m => m) n id a us USER m = (Ok b, m') ->
  tasks (mg_watch m') = if b then dict_pop (tasks (mg_watch m)) id else tasks (mg_watch m).
Proof.
  unfold delete_task. cbn [with_stable_target]. destruct (dict_get (tasks (mg_watch m)) id) as [t|] eqn:E; [|by intros [= <- <-]].
  rewrite (proj2 (seqb_true _ _) eq_refl), bool_decide_eq_true_2 by done. cbn [andb]. unfold delete_stable. destruct (check_permission _ _ _ _); [|done].
  rewrite st_bind_unfold. cbn [Watch.on_watch st_modify]. rewrite st_bind_unfold. set (m1 := Watch.MkManager _ _).
  unfold save_tasks. destruct attached; [|intros [= <- <-]; cbn; by rewrite unindex_target_tasks].
  unfold Watch.on_store. destruct (write_storage _ _) as [[[]|] st]; [|done]. intros [= <- <-]. cbn. by rewrite unindex_target_tasks.
Qed.

Lemma delete_watch_done n id a us (m : Watch.manager Ws) m' b : delete_task 1 (fun _ m => m) (fun _ m => m) n id a us USER m = (Ok b, m') ->
  b = false -> dict_get (tasks (mg_watch m)) id = None.
Proof.
  unfold delete_task. cbn [with_stable_target]. destruct (dict_get (tasks (mg_watch m)) id) as [t|] eqn:E; [|done].
  rewrite (proj2 (seqb_true _ _) eq_refl), bool_decide_eq_true_2 by done. cbn [andb]. unfold delete_stable. destruct (check_permission _ _ _ _); [|done].
  rewrite st_bind_unfold. cbn [Watch.on_watch st_modify]. rewrite st_bind_unfold. destruct (save_tasks _ _) as [[[]|] m2]; [|done]. intros [= <- _]. done.
Qed.

(** What the loop leaves: of the tasks it was given, none. *)
Lemma delete_watches_leaves n a us ts (m : Watch.manager Ws) m' : NoDup (fst <$> tasks (mg_watch m)) -> delete_watches clock n a us ts m = (Ok tt, m') ->
  forall id t, dict_get (tasks (mg_watch m')) id = Some t -> dict_get (tasks (mg_watch m)) id = Some t /\ id ∉ (Watch.task_id <$> ts).
Proof.
  revert n m. induction ts as [|t0 ts IH]; intros n m Hnd; cbn [delete_watches].
  { intros [= <-] id t Hg. split; [done|]. apply not_elem_of_nil. }
  rewrite st_bind_unfold. destruct (delete_task _ _ _ _ _ _ _ _ m) as [[b|] m1] eqn:E; [|done]. intros Hrun id t Hg.
  pose proof (delete_watch_tasks _ _ _ _ _ _ _ E) as Ht. assert (NoDup (fst <$> tasks (mg_watch m1))) as Hnd1.
  { rewrite Ht. destruct b; [by apply dict_pop_nodup|done]. }
  destruct (IH _ _ Hnd1 Hrun id t Hg) as [Hg1 Hni]. rewrite Ht in Hg1. destruct b.
  - rewrite dict_pop_get in Hg1 by done. destruct (seqb (Watch.task_id t0) id) eqn:Ei; [done|]. apply seqb_false in Ei.
    split; [done|]. cbn [fmap list_fmap]. apply not_elem_of_cons. split; [congruence|done].
  - split; [done|]. cbn [fmap list_fmap]. apply not_elem_of_cons. split; [|done]. intros ->. by rewrite (delete_watch_done _ _ _ _ _ _ _ E eq_refl) in Hg1.
Qed.

Definition no_watches (a us : pystr) (o : option (Watch.manager Ws)) : Prop := forall m, o = Some m -> unwatched a us m.
Definition watches_ok (o : option (Watch.manager Ws)) : Prop := forall m, o = Some m -> wf (mg_watch m).

Lemma stop_watches_unwatched a us w w' : watches_ok (watches w) -> stop_watches clock a us w = (Ok tt, w') -> no_watches a us (watches w').
Proof.
  intros Hw. unfold stop_watches, NamedQueue.on_owner. destruct (s_watch (q_owner w)) as [m|] eqn:Em.
  2: { intros [= <-]. cbn. rewrite Em. by intros ? [=]. }
  specialize (Hw m eq_refl). destruct (delete_watches _ _ _ _ _ m) as [r m'] eqn:E. intros [= -> <-]. intros m0 [= <-].
  assert (forall t, t ∈ get_all_tasks a us USER false (mg_watch m') -> False) as Hno.
  2: { unfold unwatched. destruct (get_all_tasks a us USER false (mg_watch m')) as [|t l]; [done|]. exfalso. apply (Hno t). left. }
  intros t [Hp (kv & -> & Hin)%list_elem_of_fmap]%list_elem_of_filter. destruct kv as [id t]. cbn [snd] in Hp.
  assert (NoDup (fst <$> tasks (mg_watch m'))) as Hnd'.
  { clear -E Hw. pose proof (wf_nodup _ Hw) as Hnd. revert Hnd E. generalize 0%nat. generalize (get_all_tasks a us USER false (mg_watch m)). clear Hw.
    intros ts. revert m. induction ts as [|t0 ts IH]; intros m n Hnd; cbn [delete_watches]; [by intros [= <-]|].
    rewrite st_bind_unfold. destruct (delete_task _ _ _ _ _ _ _ _ m) as [[b|] m1] eqn:E; [|done]. apply IH.
    rewrite (delete_watch_tasks _ _ _ _ _ _ _ E). destruct b; [by apply dict_pop_nodup|done]. }
  apply dict_get_in in Hin; [|done]. destruct (delete_watches_leaves _ _ _ _ _ _ (wf_nodup _ Hw) E id t Hin) as [Hg Hni]. apply Hni.
  apply list_elem_of_fmap. exists t. split; [symmetry; by apply (wf_keys _ Hw)|]. apply list_elem_of_filter. split; [done|].
  apply list_elem_of_fmap. exists (id, t). split; [done|]. by apply dict_get_elem.
Qed.

Lemma stop_watches_frame a us w : let w' := (stop_watches clock a us w).2 in keys w' = keys w /\ rest w' = rest w /\ tk w' = tk w /\ q_fs w' = q_fs w.
Proof.
  unfold stop_watches, NamedQueue.on_owner. cbn zeta. destruct (s_watch (q_owner w)) as [m|]; [|done]. by destruct (delete_watches _ _ _ _ _ m) as [r m'].
Qed.

(** ** The user's tasks *)

Definition keeps_unique (s s' : tracker Ts) : Prop := unique_keys s -> unique_keys s'.

#[export] Instance keeps_unique_write : WriteRel keeps_unique.
Proof.
  split; [split| |].
  - intros s H. exact H.
  - intros s1 s2 s3 H1 H2 H. exact (H2 (H1 H)).
  - intros s s' H. unfold keeps_unique. apply same_keys_unique. by apply wr_same.
  - intros s s' a x t t' Ha Hv Hview. unfold keeps_unique. apply same_keys_unique. by eapply wr_write.
Qed.

(** Other coroutines keep cache and store in agreement, and draw new ids for new tasks. *)
Context (Hothers : forall i j s, coherent s -> coherent (others i j s) /\ keeps_unique s (others i j s)).

Abbreviation steady op := (triple keeps_unique (fun _ => True) op (fun _ _ => True)).

Lemma cancel_each_steady n a us ts b wt : steady (cancel_each clock n a us ts b wt).
Proof.
  revert n b wt. induction ts as [|t ts IH]; intros n b wt; cbn [cancel_each]; [by apply (triple_ret keeps_unique)|].
  intros s Hc _. destruct (cancel_triple (R := keeps_unique) (clock n) (clock (1 + n)) (TaskRecord.task_id t) (Some a) (Some us) s Hc I) as (Hc1 & Hr1 & _).
  destruct (cancel _ _ _ _ _ s) as [[o|e] s1]; cbn [snd fst] in *.
  - destruct (IH (3 + n)%nat b (wt ++ [TaskRecord.task_id t]) s1 Hc1 I) as (? & ? & ?). split_and!; [done| |done]. by transitivity s1.
  - destruct (is_value_error e); [|by split_and!].
    match goal with |- coherent (snd (?op s1)) /\ _ => assert (steady op) as Hop end.
    { eapply triple_bind; [apply _|apply get_triple|]. intros o. apply IH. }
    destruct (Hop s1 Hc1 I) as (? & ? & ?). split_and!; [done| |done]. by transitivity s1.
Qed.

Lemma wait_poll_steady fuel i j a us tid : steady (wait_poll clock others fuel i j a us tid).
Proof.
  revert j. induction fuel as [|fuel IH]; intros j; cbn [wait_poll]; [by apply (triple_raise keeps_unique)|].
  eapply triple_bind; [apply _|apply get_triple|]. intros [t|]; [|by apply (triple_raise keeps_unique)].
  destruct (is_terminal _); [by apply (triple_ret keeps_unique)|]. eapply (triple_bind _ _ _ (fun _ _ => True)); [|intros; apply IH].
  intros s Hc _. destruct (Hothers i j s Hc). by split_and!.
Qed.

Lemma wait_each_steady i deadline a us ws : steady (wait_each clock monotonic polls others i deadline a us ws).
Proof.
  revert i. induction ws as [|tid ws IH]; intros i; cbn [wait_each]; [by apply (triple_ret keeps_unique)|].
  destruct (_ <=? 0)%Z; [by apply (triple_raise keeps_unique)|]. eapply triple_bind; [apply _|apply wait_poll_steady|]. intros ?. apply IH.
Qed.

Lemma cancel_user_tasks_steady a us : steady (cancel_user_tasks clock monotonic polls others a us).
Proof.
  unfold cancel_user_tasks. eapply triple_bind; [apply _|apply list_tasks_triple|]. intros ts.
  eapply triple_bind; [apply _|apply cancel_each_steady|]. intros [[|] wt]; [apply wait_each_steady|by apply (triple_raise keeps_unique)].
Qed.

(** ** Uploads *)

(** A listed upload directory is recognised. *)
Lemma upload_uri_listed e id : get_or_none e (u "uri") = VStr (SHARED_UPLOAD_ROOT ++ u "/" ++ id) -> py_truthy (get_or_none e (u "isDir")) = true ->
  id <> [] -> c_slash ∉ id -> upload_uri render e = Some (SHARED_UPLOAD_ROOT ++ u "/" ++ id).
Proof.
  intros Hu Hd Hne Hs. unfold upload_uri. rewrite Hu, Hd. cbn [py_or py_truthy negb]. set (uri := SHARED_UPLOAD_ROOT ++ u "/" ++ id).
  change (py_or (VStr uri) (VStr [])) with (VStr uri). cbn [py_str]. assert (rstrip is_slash uri = uri) as ->.
  { destruct (last_is_Some id) as [_ [c Hc]]; [done|]. apply (rstrip_id _ _ c).
    - unfold uri. by rewrite app_assoc, last_app, Hc.
    - unfold is_slash. apply N.eqb_neq. intros ->. by apply Hs, last_Some_elem_of. }
  assert (nonempty uri = true) as -> by done. assert (seqb uri SHARED_UPLOAD_ROOT = false) as ->.
  { apply seqb_false. intros E. apply (f_equal length) in E. unfold uri in E. rewrite !length_app in E. change (length (u "/")) with 1%nat in E. lia. }
  assert (startswith (SHARED_UPLOAD_ROOT ++ u "/") uri = true) as -> by (unfold uri; rewrite app_assoc; apply startswith_app).
  assert (drop (length (SHARED_UPLOAD_ROOT ++ u "/")) uri = id) as -> by (unfold uri; rewrite app_assoc; apply drop_app_length).
  rewrite bool_decide_eq_false_2 by done. apply nonempty_true in Hne. by rewrite Hne.
Qed.

Definition mine (ctx : RequestContext) (a us : pystr) : Prop := (a, us) = (ctx_account_id ctx, ctx_user_id ctx).

Lemma delete_upload_path ctx uri x : rtc bk_step x (delete_upload json_loads ctx uri x).2.
Proof.
  unfold delete_upload. pose proof (rtc_once (R := bk_step) _ _ (or_introl (os_read x (uri ++ u "/meta") ctx))) as H.
  destruct (bk_read_file _ _ x) as [[text|e] x1]; cbn [snd] in *; [|by destruct (is_exception e)].
  destruct (json_loads text) as [[| | | | | |meta]|]; try done. destruct (_ && _); [|done]. eapply rtc_r; [done|]. right. by do 2 eexists.
Qed.

(** An upload of the context's user survives its turn only if its metadata was not read;
    one of somebody else always does. *)
Lemma delete_upload_spec ctx uri x x' uri' a us : delete_upload json_loads ctx uri x = (Ok tt, x') ->
  (bk_upload x' uri' a us -> bk_upload x uri' a us /\ (uri' = uri -> mine ctx a us -> unread ctx uri x))
  /\ (bk_upload x uri' a us -> ~ mine ctx a us -> bk_upload x' uri' a us).
Proof.
  unfold delete_upload. pose proof (os_read x (uri ++ u "/meta") ctx) as Hstep. pose proof (bk_upload_frame x _ uri' a us Hstep) as Hfr.
  pose proof (fun text => bk_metadata ctx x uri a us text) as Hmeta. unfold unread.
  destruct (bk_read_file (uri ++ u "/meta") ctx x) as [[text|e] x1]; cbn [fst snd] in *.
  - specialize (Hmeta text). destruct (json_loads text) as [v|] eqn:Ej.
    2: { intros [= <-]. rewrite Hfr. split; [|tauto]. intros Hup. split; [done|]. intros -> _. by destruct (Hmeta Hup eq_refl) as (meta & [=] & _). }
    destruct v as [| | | | | |meta]; try done. destruct (is_text _ _ && is_text _ _) eqn:Et.
    + intros Hrm. rewrite (bk_rm_upload _ _ _ _ _ _ _ Hrm), Hfr. split; [intros [Hup Hne]; by split|].
      intros Hup Hno. split; [done|]. intros ->. apply Hno. destruct (Hmeta Hup eq_refl) as (meta' & [= <-] & Ha & Hu).
      apply andb_true_iff in Et as [E1 E2]. rewrite Ha in E1. rewrite Hu in E2. cbn in E1, E2. apply seqb_true in E1, E2. unfold mine. congruence.
    + intros [= <-]. rewrite Hfr. split; [|tauto]. intros Hup. split; [done|]. intros -> [= -> ->]. destruct (Hmeta Hup eq_refl) as (meta' & [= <-] & Ha & Hu).
      rewrite Ha, Hu in Et. cbn in Et. by rewrite !(proj2 (seqb_true _ _) eq_refl) in Et.
  - destruct (is_exception e) eqn:Ee; [|done]. intros [= <-]. rewrite Hfr. split; [|tauto]. intros Hup. split; [done|]. by exists e.
Qed.

Lemma delete_each_upload_path ctx l x : rtc bk_step x (delete_each_upload json_loads render ctx l x).2.
Proof.
  revert x. induction l as [|e l IH]; intros x; cbn [delete_each_upload]; [done|]. rewrite st_bind_unfold. destruct (upload_uri render e) as [ur|]; [|apply IH].
  pose proof (delete_upload_path ctx ur x) as H. destruct (delete_upload _ _ _ x) as [[[]|] x1]; cbn [snd] in *; [by etrans; [|apply IH]|done].
Qed.

Lemma delete_each_upload_spec ctx l x x' uri a us : delete_each_upload json_loads render ctx l x = (Ok tt, x') ->
  (bk_upload x' uri a us -> bk_upload x uri a us /\ (mine ctx a us -> (exists e, e ∈ l /\ upload_uri render e = Some uri) -> skipped ctx uri x x'))
  /\ (bk_upload x uri a us -> ~ mine ctx a us -> bk_upload x' uri a us).
Proof.
  revert x. induction l as [|e l IH]; intros x; cbn [delete_each_upload].
  { intros [= <-]. split; [|done]. intros H. split; [done|]. intros _ (e & He & _). by apply elem_of_nil in He. }
  rewrite st_bind_unfold. destruct (upload_uri render e) as [ur|] eqn:Eu.
  - pose proof (delete_upload_path ctx ur x) as Hp. destruct (delete_upload json_loads ctx ur x) as [[[]|] x1] eqn:E; [|done]. cbn [snd] in Hp. intros Hrun.
    destruct (IH _ Hrun) as [I1 I2]. destruct (delete_upload_spec _ _ _ _ uri a us E) as [D1 D2]. split; [|tauto].
    intros H%I1. destruct H as [H1 H2]. destruct (D1 H1) as [H3 H4]. split; [done|]. intros Hm (e' & He & Hu).
    apply elem_of_cons in He as [->|He].
    + rewrite Eu in Hu. injection Hu as ->. exists x. split_and!; [done|by apply H4|]. etrans; [exact Hp|].
      pose proof (delete_each_upload_path ctx l x1) as Hl. by rewrite Hrun in Hl.
    + destruct H2 as (x2 & Hx & Hur & Hx'); [done|by exists e'|]. exists x2. split_and!; [by etrans|done|done].
  - cbn [mret ST_ret]. intros Hrun. destruct (IH _ Hrun) as [I1 I2]. split; [|done]. intros H%I1. destruct H as [H1 H2]. split; [done|].
    intros Hm (e' & He & Hu). apply H2; [done|]. apply elem_of_cons in He as [->|He]; [congruence|by exists e'].
Qed.

Lemma delete_uploads_path ctx x : rtc bk_step x (delete_uploads json_loads render ctx x).2.
Proof.
  unfold delete_uploads. pose proof (rtc_once (R := bk_step) _ _ (or_introl (os_ls x SHARED_UPLOAD_ROOT ctx))) as H.
  destruct (bk_ls _ _ x) as [[l|[]] x1]; cbn [snd] in *; try done. etrans; [done|apply delete_each_upload_path].
Qed.

(** The uploads of the context's user go, except those whose metadata was not read;
    everybody else's stay. *)
Lemma delete_uploads_spec ctx x x' : delete_uploads json_loads render ctx x = (Ok tt, x') -> forall uri a us,
  (bk_upload x' uri a us -> bk_upload x uri a us /\ (mine ctx a us -> skipped ctx uri x x')) /\ (bk_upload x uri a us -> ~ mine ctx a us -> bk_upload x' uri a us).
Proof.
  unfold delete_uploads. pose proof (os_ls x SHARED_UPLOAD_ROOT ctx) as Hstep. intros Hrun uri a us.
  pose proof (bk_upload_frame x _ uri a us Hstep) as Hfr.
  destruct (bk_ls SHARED_UPLOAD_ROOT ctx x) as [[l|e] x1] eqn:El; cbn [snd] in *.
  - destruct (delete_each_upload_spec _ _ _ _ uri a us Hrun) as [D1 D2]. rewrite <- Hfr. split; [|done]. intros H%D1. destruct H as [H1 H2]. split; [done|].
    intros Hm. pose proof Hm as Hm'. unfold mine in Hm'. injection Hm' as -> ->.
    destruct (bk_listed ctx x l x1 uri (ctx_user_id ctx) El) as (e & id & He & Hu & Hd & -> & Hne & Hs); [by apply Hfr|].
    destruct H2 as (x2 & Hx & Hur & Hx'); [done|exists e; split; [done|by apply upload_uri_listed]|]. exists x2. split_and!; [|done|done]. eapply rtc_l; [by left|done].
  - destruct e; try done. injection Hrun as <-. rewrite Hfr. split; [|done]. intros H1. split; [done|]. intros [= -> ->].
    by destruct (bk_no_uploads ctx x x1 uri (ctx_user_id ctx) El).
Qed.

Lemma delete_upload_clean k a us ctx uri x : bk_clean k a us x -> bk_clean k a us (delete_upload json_loads ctx uri x).2.
Proof.
  intros H. unfold delete_upload. pose proof (bk_stays_clean k a us _ _ (os_read x (uri ++ u "/meta") ctx) H) as H1.
  destruct (bk_read_file _ _ x) as [[text|e] x1]; cbn [snd] in *; [|by destruct (is_exception e)].
  destruct (json_loads text) as [[| | | | | |meta]|]; try done. destruct (_ && _); [by apply bk_rm_clean|done].
Qed.

Lemma delete_uploads_clean k a us ctx x : bk_clean k a us x -> bk_clean k a us (delete_uploads json_loads render ctx x).2.
Proof.
  intros H. unfold delete_uploads. pose proof (bk_stays_clean k a us _ _ (os_ls x SHARED_UPLOAD_ROOT ctx) H) as H1.
  destruct (bk_ls _ _ x) as [[l|[]] x1]; cbn [snd] in *; try done. clear H. revert x1 H1. induction l as [|e l IH]; intros x1 H1; cbn [delete_each_upload]; [done|].
  rewrite st_bind_unfold. destruct (upload_uri render e) as [ur|]; [|by apply IH]. pose proof (delete_upload_clean k a us ctx ur x1 H1) as H2.
  destruct (delete_upload _ _ _ x1) as [[[]|] x2]; cbn [snd] in *; [by apply IH|done].
Qed.

Lemma path_no_new x x' uri a us : rtc bk_step x x' -> bk_upload x' uri a us -> bk_upload x uri a us.
Proof.
  induction 1 as [|x x1 x' Hs _ IH]; [done|]. intros H%IH. destruct Hs as [Hs|(ur & ctx & ->)]; [by apply (bk_upload_frame _ _ uri a us Hs)|by eapply bk_rm_no_new].
Qed.

Lemma delete_uploads_no_new ctx x uri a us : bk_upload (delete_uploads json_loads render ctx x).2 uri a us -> bk_upload x uri a us.
Proof. apply path_no_new, delete_uploads_path. Qed.

(** ** The registry *)

Definition same_users (r r' : ring) : Prop := forall a us, get_user r' a us = get_user r a us.

(** The users of an account are the keys of a dict. *)
Definition dicts (r : ring) : Prop := forall a account, dict_get (accounts r) a = Some account -> NoDup (fst <$> ac_users account).

(** The fence belonged to the task and the user is gone, the only one. *)
Definition taken_out (a us task : pystr) (r r' : ring) : Prop :=
  del_task_id <$> get_user_deletion r a us = Some task /\ forall a' us', get_user r' a' us' = ApiKeysTheory.upd (get_user r) a us None a' us'.

(** [finish_user_deletion] removes the user whose fence belongs to the task, or nobody;
    when it is cancelled during its save the user is already out of the registry. *)
Lemma finish_spec a us task (k : ApiKeys.manager Ks) : dicts (ApiKeys.mg_ring k) ->
  let '(r, k') := finish_user_deletion a us task k in
  match r with
  | Ok true => taken_out a us task (ApiKeys.mg_ring k) (ApiKeys.mg_ring k')
  | Ok false => k' = k
  | Err e => same_users (ApiKeys.mg_ring k) (ApiKeys.mg_ring k') \/ is_exception e = false /\ taken_out a us task (ApiKeys.mg_ring k) (ApiKeys.mg_ring k')
  end.
Proof.
  intros Hr. unfold finish_user_deletion. destruct (dict_get (accounts (ApiKeys.mg_ring k)) a) as [account|] eqn:Ea; [|done].
  destruct (dict_get (ac_users account) us) as [info|] eqn:Eu; [|done]. case_bool_decide as Htask; cbn [negb]; [|done].
  set (gs := leave_groups us (ac_groups account)). set (removed := with_users (dict_pop (ac_users account) us) account).
  pose proof (Hr _ _ Ea) as Hnd. pose proof (proj2 (get_user_some _ a us info) (ex_intro _ _ (conj Ea Eu))) as Hget.
  set (r0 := ApiKeys.mg_ring k) in *.
  assert (forall a' us', get_user (set_account a removed r0) a' us' = ApiKeysTheory.upd (get_user r0) a us None a' us') as Hpop by (intros; by apply get_user_pop).
  assert (dict_get (accounts (set_account a removed r0)) a = Some removed) as Hacc by (cbn; rewrite dict_set_get; by rewrite (proj2 (seqb_true a a) eq_refl)).
  match goal with |- context [?op k] => set (body := op) end.
  assert (hoare (fun r => r = r0) body (fun res r => match res with
      | Ok true => forall a' us', get_user r a' us' = ApiKeysTheory.upd (get_user r0) a us None a' us'
      | Ok false => False
      | Err e => same_users r0 r \/ is_exception e = false /\ forall a' us', get_user r a' us' = ApiKeysTheory.upd (get_user r0) a us None a' us' end)) as Hb.
  2: { assert (del_task_id <$> get_user_deletion r0 a us = Some task) as Hd by (unfold get_user_deletion; by rewrite Hget).
       specialize (Hb k eq_refl). destruct (body k) as [[[]|e] k']; cbn [fst snd] in Hb; [by split|done|]. destruct Hb as [Hb|[He Hb]]; [by left|by right]. }
  unfold body. apply (hoare_ring (set_account a removed) _ _ (fun r => r = set_account a removed r0)); [by intros r ->|].
  apply (hoare_bind _ (fun _ r => r = set_account a removed r0)).
  - apply (hoare_except _ _ _ _ (fun _ => same_users r0)); [| | |by left|by left|intros e r He ->; by right].
    + apply silent_bind; [apply save_users_silent|intros _]. case_bool_decide; [by intros m0|apply write_groups_silent].
    + by intros ? r ->.
    + apply hoare_set. intros r -> a' us'.
      change (get_user (set_account a (with_users (dict_set (ac_users removed) us info) removed) (set_account a removed r0)) a' us' = get_user r0 a' us').
      rewrite (get_user_write a removed us info _ a' us' Hacc). unfold ApiKeysTheory.upd at 1. rewrite Hpop. unfold ApiKeysTheory.upd.
      case_decide as E; [by injection E as -> ->|done].
  - intros _. apply (hoare_bind _ (fun _ r => forall a' us', get_user r a' us' = ApiKeysTheory.upd (get_user r0) a us None a' us')).
    + case_bool_decide; [intros m0 Hm0; cbn; rewrite Hm0; apply Hpop|]. apply hoare_set. intros r -> a' us'.
      change (get_user (set_account a (with_groups gs removed) (set_account a removed r0)) a' us' = ApiKeysTheory.upd (get_user r0) a us None a' us').
      rewrite get_user_set, <- Hpop, get_user_set. by case_decide.
    + by intros ? m0 Hm0.
Qed.

(** ** The whole cleanup *)

Definition cleanup_ctx (a us : pystr) : RequestContext := MkCtx (MkUser a us) ROOT [] None false None false.

(** What is left of a user outside the registry, in [w], after a cleanup that found the
    back ends as [x0]: nothing but uploads whose metadata could not be read. *)
Record nothing_left (x0 : X) (a us : pystr) (w : W) : Prop := {
  nl_watches : no_watches a us (watches w);
  nl_tasks : erased (tk w) a us;
  nl_files : bk_clean Files a us (rest w);
  nl_vectors : is_Some bk_delete_vectors -> bk_clean Vectors a us (rest w);
  nl_tokens : is_Some bk_revoke_tokens -> bk_clean Tokens a us (rest w);
  nl_usage : is_Some bk_delete_usage -> bk_clean Usage a us (rest w);
  nl_uploads : forall uri, bk_upload (rest w) uri a us -> skipped (cleanup_ctx a us) uri x0 (rest w) }.

Lemma on_rest_run {A} (op : ST X A) w r w' : on_rest op w = (r, w') ->
  keys w' = keys w /\ watches w' = watches w /\ tk w' = tk w /\ op (rest w) = (r, rest w').
Proof. unfold on_rest, part, NamedQueue.on_owner. destruct (op (s_rest (q_owner w))) as [r0 x] eqn:E. intros [= <- <-]. done. Qed.

Lemma on_tracker_run {A} (op : ST (tracker Ts) A) w r w' : on_tracker op w = (r, w') ->
  keys w' = keys w /\ watches w' = watches w /\ rest w' = rest w /\ op (tk w) = (r, tk w').
Proof. unfold on_tracker, part, NamedQueue.on_owner. destruct (op (s_tracker (q_owner w))) as [r0 x] eqn:E. intros [= <- <-]. done. Qed.

(** What holds during the cleanup that starts in [w0]. *)
Record cleaning (w0 w : W) : Prop := {
  cl_keys : keys w = keys w0;
  cl_watches : watches w = watches w0;
  cl_coherent : coherent (tk w);
  cl_unique : unique_keys (tk w);
  cl_rest : rtc bk_step (rest w0) (rest w) }.

Lemma cleaning_books w0 w w' : books w w' -> cleaning w0 w -> cleaning w0 w'.
Proof.
  intros Hb [K V C U R]. destruct (bo_tracker _ _ Hb C) as [C' S]. split; [by rewrite (bo_keys _ _ Hb)|by rewrite (bo_watch _ _ Hb)|done| |by rewrite (bo_rest _ _ Hb)].
  by eapply same_keys_unique.
Qed.

Lemma cleaning_rest {A} w0 (op : ST X A) w : (forall x, rtc bk_step x (op x).2) -> cleaning w0 w -> cleaning w0 (on_rest op w).2.
Proof.
  intros Hp [K V C U R]. destruct (on_rest op w) as [r w'] eqn:E. apply on_rest_run in E as (K' & V' & T' & E). cbn.
  split; [congruence|congruence|by rewrite T'|by rewrite T'|]. etrans; [exact R|]. specialize (Hp (rest w)). by rewrite E in Hp.
Qed.

Lemma other_path {A} (op : ST X A) : (forall x, other_step x (op x).2) -> forall x, rtc bk_step x (op x).2.
Proof. intros H x. apply rtc_once. by left. Qed.

Lemma prunes_unique (s s' : tracker Ts) : prunes s s' -> unique_keys s -> unique_keys s'.
Proof.
  intros Hp Hu. assert (forall a x i, is_Some (ts_view (tk_store s') a x i) -> is_Some (ts_view (tk_store s) a x i)) as Hsub.
  { intros a x i. destruct (Hp a x i) as [->|[-> _]]; [done|by intros [? ?]]. }
  intros a x a' x' i H1%Hsub H2%Hsub. by eapply Hu.
Qed.

Lemma prunes_erased (s s' : tracker Ts) a us : prunes s s' -> erased s a us -> erased s' a us.
Proof. intros Hp He i. destruct (Hp a us i) as [->|[? _]]; [apply He|done]. Qed.

(** The step that deletes the task records. *)
Definition erase_tasks (a us : pystr) : ST W unit := _ ← on_tracker (delete_user_tasks (clock 20) a us); mret tt.

Lemma erase_tasks_run a us w r w' : erase_tasks a us w = (r, w') ->
  keys w' = keys w /\ watches w' = watches w /\ rest w' = rest w /\ exists r', delete_user_tasks (clock 20) a us (tk w) = (r', tk w') /\ (r = Ok tt -> exists n, r' = Ok n).
Proof.
  unfold erase_tasks. rewrite st_bind_unfold. destruct (on_tracker _ w) as [r0 w1] eqn:E. apply on_tracker_run in E as (K & V & R & E).
  destruct r0 as [n|e]; intros [= <- <-]; split_and!; try done; eexists; (split; [done|]); [by exists n|done].
Qed.

Lemma cleanup_steps_forall (P : ST W unit -> Prop) m ctx :
  P (erase_tasks (dm_target_account_id m) (dm_target_user_id m)) -> P (on_rest (delete_uploads json_loads render ctx)) ->
  P (on_rest (bk_rm (canonical_user_root ctx) ctx)) ->
  (forall f, bk_delete_vectors = Some f -> P (on_rest (f (dm_target_account_id m) (dm_target_user_id m) ctx))) ->
  (forall f, bk_revoke_tokens = Some f -> P (on_rest (f (dm_target_account_id m) (dm_target_user_id m)))) ->
  (forall f, bk_delete_usage = Some f -> P (on_rest (f (dm_target_account_id m) (dm_target_user_id m)))) ->
  Forall (fun sc => P sc.2) (cleanup_steps json_loads render clock m ctx).
Proof.
  intros H1 H2 H3 H4 H5 H6. unfold cleanup_steps, opt_step.
  destruct bk_delete_vectors as [f|]; destruct bk_revoke_tokens as [g|]; destruct bk_delete_usage as [h|]; cbn [app]; repeat constructor; cbn [snd]; auto.
Qed.

Lemma cleaning_steps w0 m ctx : Forall (fun sc : pystr * ST W unit => forall w, cleaning w0 w -> cleaning w0 (sc.2 w).2) (cleanup_steps json_loads render clock m ctx).
Proof.
  apply (cleanup_steps_forall (fun c => forall w, cleaning w0 w -> cleaning w0 (c w).2)); intros; try (apply cleaning_rest; [|done]).
  2: apply delete_uploads_path.
  2-5: apply other_path; intros; eauto using other_step.
  destruct (erase_tasks _ _ w) as [r w'] eqn:E. apply erase_tasks_run in E as (K & V & R & r' & E & _). cbn.
  destruct (delete_user_tasks_triple (clock 20) (dm_target_account_id m) (dm_target_user_id m) (tk w)) as (C & Hp & _); [by destruct H|done|].
  rewrite E in C, Hp. destruct H as [K0 V0 _ U R0]. split; [congruence..|done|by eapply prunes_unique|by rewrite R].
Qed.

(** A stage that must have succeeded, and a fact that every stage keeps. *)
Lemma stage_done w0 (G : W -> Prop) n m ctx stage c w w' : (stage, c) ∈ cleanup_steps json_loads render clock m ctx ->
  (forall w w', cleaning w0 w -> c w = (Ok tt, w') -> G w') -> (forall w w', books w w' -> cleaning w0 w -> G w -> G w') ->
  Forall (fun sc : pystr * ST W unit => forall w, cleaning w0 w -> G w -> G (sc.2 w).2) (cleanup_steps json_loads render clock m ctx) ->
  cleaning w0 w -> run_steps clock n m (cleanup_steps json_loads render clock m ctx) [] w = (Ok [], w') -> G w'.
Proof.
  intros (pre & post & E)%list_elem_of_split He Hb Hk Hw Hrun. pose proof (cleaning_steps w0 m ctx) as HI. rewrite E in *.
  apply Forall_app in Hk as [_ [_ Hk]%Forall_cons]. by eapply (run_steps_establish (cleaning w0) G); eauto using cleaning_books.
Qed.

(** Facts about the back ends stay. *)
Lemma rest_fact_kept w0 (G : X -> Prop) m ctx : (forall x x', other_step x x' -> G x -> G x') -> (forall x, G x -> G (delete_uploads json_loads render ctx x).2) ->
  Forall (fun sc : pystr * ST W unit => forall w, cleaning w0 w -> G (rest w) -> G (rest (sc.2 w).2)) (cleanup_steps json_loads render clock m ctx).
Proof.
  intros Hs Hu. assert (forall A (op : ST X A), (forall x, other_step x (op x).2) -> forall w, cleaning w0 w -> G (rest w) -> G (rest (on_rest op w).2)) as Hop.
  { intros A op Hst w _ Hg. destruct (on_rest op w) as [r w'] eqn:E. apply on_rest_run in E as (_ & _ & _ & E). cbn. eapply Hs; [|exact Hg]. specialize (Hst (rest w)). by rewrite E in Hst. }
  apply (cleanup_steps_forall (fun c => forall w, cleaning w0 w -> G (rest w) -> G (rest (c w).2))); try (intros; by apply Hop; eauto using other_step).
  - intros w _ Hg. destruct (erase_tasks _ _ w) as [r w'] eqn:E. apply erase_tasks_run in E as (_ & _ & R & _). cbn. by rewrite R.
  - intros w _ Hg. destruct (on_rest _ w) as [r w'] eqn:E. apply on_rest_run in E as (_ & _ & _ & E). cbn. specialize (Hu _ Hg). by rewrite E in Hu.
Qed.

Lemma books_rest (G : X -> Prop) w w' : books w w' -> G (rest w) -> G (rest w').
Proof. intros Hb. by rewrite (bo_rest _ _ Hb). Qed.

(** A run of the loop without a failed stage leaves nothing. *)
Lemma all_stages_done n m w w' : let a := dm_target_account_id m in let us := dm_target_user_id m in
  cleaning w w -> no_watches a us (watches w) ->
  run_steps clock n m (cleanup_steps json_loads render clock m (cleanup_ctx a us)) [] w = (Ok [], w') -> cleaning w w' /\ nothing_left (rest w) a us w'.
Proof.
  intros a us Hw Hnw Hrun. set (ctx := cleanup_ctx a us) in *. set (steps := cleanup_steps json_loads render clock m ctx) in *.
  assert (cleaning w w') as Hw'.
  { pose proof (run_steps_keeps (cleaning w) n m steps [] w (cleaning_books w) (cleaning_steps w m ctx) Hw) as H. by rewrite Hrun in H. }
  assert (forall k stage (op : ST X unit), (stage, on_rest op) ∈ steps -> (forall x x', op x = (Ok tt, x') -> bk_clean k a us x') -> bk_clean k a us (rest w')) as Hclean.
  { intros k stage op Hin Hop. apply (stage_done w (fun w => bk_clean k a us (rest w)) n m ctx stage (on_rest op) w w'); try done.
    - intros v v' _ E. apply on_rest_run in E as (_ & _ & _ & E). by eapply Hop.
    - intros v v' Hb _. by apply (books_rest (bk_clean k a us)).
    - apply (rest_fact_kept w (bk_clean k a us)); [intros x x'; apply bk_stays_clean|intros x; apply delete_uploads_clean]. }
  split; [done|]. unfold steps, cleanup_steps, opt_step in Hclean. split.
  - by rewrite (cl_watches _ _ Hw').
  - eapply (stage_done w (fun w => erased (tk w) a us) n m ctx (u "task_records") (erase_tasks a us) w w'); try done.
    + left.
    + intros v v' Hv E. apply erase_tasks_run in E as (_ & _ & _ & r' & E & Hr). destruct (Hr eq_refl) as [k ->].
      eapply delete_user_tasks_erases; [apply Hv|apply Hv|exact E].
    + intros v v' Hb Hv. eapply same_keys_erased. by apply (bo_tracker _ _ Hb), Hv.
    + apply (cleanup_steps_forall (fun c => forall w0, cleaning w w0 -> erased (tk w0) a us -> erased (tk (c w0).2) a us)).
      2-6: intros; match goal with |- erased (tk (on_rest ?op ?v).2) _ _ => destruct (on_rest op v) as [r0 v'] eqn:E end; apply on_rest_run in E as (_ & _ & T & _); cbn; by rewrite T.
      intros v Hv He. destruct (erase_tasks _ _ v) as [r v'] eqn:E. apply erase_tasks_run in E as (_ & _ & _ & r' & E & _). cbn.
      destruct (delete_user_tasks_triple (clock 20) (dm_target_account_id m) (dm_target_user_id m) (tk v)) as (_ & Hp & _); [by destruct Hv|done|].
      rewrite E in Hp. by eapply prunes_erased.
  - eapply (Hclean Files (u "agfs")); [|intros x x' E; exact (bk_rm_root ctx x x' E)]. destruct bk_delete_vectors; set_solver.
  - intros [f Hf]. eapply (Hclean Vectors (u "vectordb")); [|intros x x' E; exact (bk_vectors f a us ctx x x' Hf E)]. rewrite Hf. set_solver.
  - intros [f Hf]. eapply (Hclean Tokens (u "oauth")); [|intros x x' E; exact (bk_tokens f a us x x' Hf E)]. rewrite Hf. destruct bk_delete_vectors; set_solver.
  - intros [f Hf]. eapply (Hclean Usage (u "usage_audit")); [|intros x x' E; exact (bk_usage f a us x x' Hf E)]. rewrite Hf. destruct bk_delete_vectors, bk_revoke_tokens; set_solver.
  - intros uri. set (G := fun x => bk_upload x uri a us -> skipped ctx uri (rest w) x).
    assert (forall x x', rtc bk_step x x' -> (bk_upload x' uri a us -> bk_upload x uri a us) -> G x -> G x') as Hmono.
    { intros x x' Hp Hb HG (x1 & H1 & H2 & H3)%Hb%HG. exists x1. split_and!; [done|done|by etrans]. }
    eapply (stage_done w (fun w => G (rest w)) n m ctx (u "uploads") (on_rest (delete_uploads json_loads render ctx)) w w'); try done.
    + unfold cleanup_steps, opt_step. destruct bk_delete_vectors; set_solver.
    + intros v v' Hv E. apply on_rest_run in E as (_ & _ & _ & E). destruct (delete_uploads_spec _ _ _ E uri a us) as [D _]. intros H%D.
      destruct H as [_ H]. destruct (H eq_refl) as (x1 & H1 & H2 & H3). exists x1. split_and!; [|done|done]. etrans; [apply Hv|done].
    + intros v v' Hb _. apply (books_rest G _ _ Hb).
    + apply (rest_fact_kept w G).
      * intros x x' Hs. apply Hmono; [by apply rtc_once; left|]. by apply (bk_upload_frame _ _ uri a us Hs).
      * intros x. apply Hmono; [apply delete_uploads_path|apply delete_uploads_no_new].
Qed.

(** ** Outcomes *)

Definition failure_text (stages : list pystr) : pystr := u "User cleanup failed at stages: " ++ join (u ", ") stages.

(** Nobody was removed, and an error names failed stages. *)
Definition kept (w w' : W) (r : result (option pystr)) : Prop :=
  same_users (registry w) (registry w') /\ forall err, r = Ok (Some err) -> exists stages, stages <> [] /\ err = failure_text stages.

(** The user was removed, and with nothing left. *)
Definition removed (m : DeletionMessage) (w w' : W) (r : result (option pystr)) : Prop :=
  let a := dm_target_account_id m in let us := dm_target_user_id m in
  taken_out a us (dm_task_id m) (registry w) (registry w') /\ nothing_left (rest w) a us w' /\ forall err, r <> Ok (Some err).

Lemma registry_keys w w' : keys w' = keys w -> same_users (registry w) (registry w').
Proof. unfold registry. by intros ->. Qed.

Lemma kept_books w w1 w' r : keys w1 = keys w -> books w1 w' -> (forall err, r = Ok (Some err) -> exists stages, stages <> [] /\ err = failure_text stages) -> kept w w' r.
Proof. intros K Hb Hr. split; [apply registry_keys; by rewrite (bo_keys _ _ Hb)|done]. Qed.

Lemma kept_failure n m stages w w1 : keys w1 = keys w -> stages <> [] -> kept w (track_failure clock n m stages w1).2 (track_failure clock n m stages w1).1.
Proof.
  intros K Hs. eapply kept_books; [done|apply track_failure_bookish|]. intros err Hr. apply track_failure_result in Hr. injection Hr as ->. by exists stages.
Qed.

Lemma kept_complete n m d st w w1 : keys w1 = keys w -> kept w (track_complete clock n m d st w1).2 (track_complete clock n m d st w1).1.
Proof. intros K. eapply kept_books; [done|apply track_complete_bookish|]. intros err Hr. by apply track_complete_result in Hr. Qed.

Lemma nothing_left_books x0 a us w w' : books w w' -> coherent (tk w) -> nothing_left x0 a us w -> nothing_left x0 a us w'.
Proof.
  intros Hb Hc [H1 H2 H3 H4 H5 H6 H7]. destruct (bo_tracker _ _ Hb Hc) as [_ Hk].
  split; rewrite ?(bo_rest _ _ Hb), ?(bo_watch _ _ Hb); try done. by eapply same_keys_erased.
Qed.

Lemma remove_user_outcome m w w0 : cleaning w0 w -> dicts (registry w0) -> nothing_left (rest w0) (dm_target_account_id m) (dm_target_user_id m) w ->
  let '(r, w') := remove_user clock m w in kept w0 w' r \/ removed m w0 w' r.
Proof.
  intros Hw Hwf Hn. unfold remove_user. rewrite st_bind_unfold. pose proof (track_stage_bookish 30 m (u "removing_user") w) as Hb.
  destruct (track_stage _ _ _ _ w) as [[[]|e] w1]; cbn [snd] in Hb.
  2: { left. split; [|done]. apply registry_keys. by rewrite (bo_keys _ _ Hb), (cl_keys _ _ Hw). }
  pose proof (cleaning_books _ _ _ Hb Hw) as Hw1. pose proof (nothing_left_books _ _ _ _ _ Hb (cl_coherent _ _ Hw) Hn) as Hn1.
  unfold st_of, on_keys, part, NamedQueue.on_owner. pose proof (finish_spec (dm_target_account_id m) (dm_target_user_id m) (dm_task_id m) (keys w1)) as Hf.
  rewrite (cl_keys _ _ Hw1) in *. specialize (Hf Hwf). destruct (finish_user_deletion _ _ _ (keys w0)) as [[[]|e] k'].
  - set (w2 := NamedQueue.set_owner _ w1). pose proof (track_complete_bookish 31 m true (negb true) w2) as Hc. pose proof (track_complete_result 31 m true (negb true) w2) as Hr.
    destruct (track_complete _ _ _ _ _ w2) as [r w3]. cbn [fst snd] in *. right. split_and!.
    + unfold registry. by rewrite (bo_keys _ _ Hc).
    + apply (nothing_left_books _ _ _ w2 w3 Hc); [apply Hw1|]. by destruct Hn1; split.
    + intros err ->. by specialize (Hr _ eq_refl).
  - subst k'. set (w2 := NamedQueue.set_owner _ w1). pose proof (kept_complete 31 m false (negb false) w0 w2 eq_refl) as Hk.
    destruct (track_complete _ _ _ _ _ w2) as [r w3]. by left.
  - destruct (is_exception e) eqn:Ee.
    2: { destruct Hf as [Hf|[_ Hf]]; [by left; split|]. right. split_and!; [done| |done]. by destruct Hn1; split. }
    destruct Hf as [Hf|[? _]]; [|done].
    set (w2 := NamedQueue.set_owner _ w1). pose proof (track_failure_bookish 31 m [u "registry"] w2) as Hc. pose proof (track_failure_result 31 m [u "registry"] w2) as Hr.
    destruct (track_failure _ _ _ _ w2) as [r w3]. cbn [fst snd] in *. left. split.
    + intros a' us'. unfold registry. rewrite (bo_keys _ _ Hc). apply Hf.
    + intros err ->. specialize (Hr _ eq_refl). injection Hr as ->. by exists [u "registry"].
Qed.

Lemma cleanup_outcome m w : cleaning w w -> dicts (registry w) -> no_watches (dm_target_account_id m) (dm_target_user_id m) (watches w) ->
  let '(r, w') := cleanup json_loads render clock m w in kept w w' r \/ removed m w w' r.
Proof.
  intros Hw Hwf Hnw. unfold cleanup. rewrite st_bind_unfold. unfold st_lift, new_user. destruct (nonempty _); [by left|].
  rewrite st_bind_unfold. fold (cleanup_ctx (dm_target_account_id m) (dm_target_user_id m)). set (ctx := cleanup_ctx _ _).
  pose proof (run_steps_keeps (cleaning w) 10 m (cleanup_steps json_loads render clock m ctx) [] w (cleaning_books w) (cleaning_steps w m ctx) Hw) as Hk.
  destruct (run_steps _ _ _ _ _ w) as [[failed|e] w1] eqn:Hrun; cbn [snd] in Hk.
  2: { left. split; [|done]. apply registry_keys, Hk. }
  destruct failed as [|st failed].
  - destruct (all_stages_done _ _ _ _ Hw Hnw Hrun) as [Hw1 Hn]. by apply remove_user_outcome.
  - pose proof (kept_failure 31 m (st :: failed) w w1 (cl_keys _ _ Hk) ltac:(done)) as H. destruct (track_failure _ _ _ _ w1). by left.
Qed.

(** The state a message is processed in. *)
Record ready (m : DeletionMessage) (w : W) : Prop := {
  rd_id : dm_task_id m <> [];
  rd_coherent : coherent (tk w);
  rd_unique : unique_keys (tk w);
  rd_own : own_id (tk w) (dm_account_id m) (dm_user_id m) (dm_task_id m);
  rd_registry : dicts (registry w);
  rd_watches : watches_ok (watches w) }.

Abbreviation process_op := (process json_loads render clock monotonic polls others).

(** After the two guarded stages that come before the cleanup. *)
Lemma stopping_outcome m w w0 : keys w = keys w0 -> rest w = rest w0 -> coherent (tk w) -> unique_keys (tk w) -> dicts (registry w0) -> watches_ok (watches w) ->
  let a := dm_target_account_id m in let us := dm_target_user_id m in
  let '(r, w') :=
    attempt (_ ← on_tracker (start (clock 2) (dm_task_id m) (Some (dm_account_id m)) (Some (dm_user_id m)) (Some (u "stopping_watches"))); stop_watches clock a us)
      (track_failure clock 3 m [u "watches"])
      (attempt (_ ← track_stage clock 3 m (u "cancelling_tasks"); on_tracker (cancel_user_tasks clock monotonic polls others a us))
        (track_failure clock 4 m [u "tasks"]) (cleanup json_loads render clock m)) w in
  kept w0 w' r \/ removed m w0 w' r.
Proof.
  intros K R C U Hwf Hwat a us. unfold attempt at 1. rewrite st_bind_unfold.
  assert (bookish (on_tracker (start (clock 2) (dm_task_id m) (Some (dm_account_id m)) (Some (dm_user_id m)) (Some (u "stopping_watches"))))) as Hst by apply bookish_tracker, start_triple.
  specialize (Hst w). destruct (on_tracker _ w) as [[[]|e] w1]; cbn [snd] in Hst.
  2: { destruct (is_exception e); [|left; split; [apply registry_keys; by rewrite (bo_keys _ _ Hst)|done]].
       pose proof (kept_failure 3 m [u "watches"] w0 w1) as H. destruct (track_failure _ _ _ _ w1). left. apply H; [by rewrite (bo_keys _ _ Hst)|done]. }
  destruct (bo_tracker _ _ Hst C) as [C1 S1]. pose proof (same_keys_unique _ _ S1 U) as U1.
  pose proof (stop_watches_frame a us w1) as (K2 & R2 & T2 & _). pose proof (stop_watches_unwatched a us w1) as Hun.
  rewrite (bo_watch _ _ Hst) in Hun. destruct (stop_watches clock a us w1) as [[[]|e] w2]; cbn [snd] in *.
  2: { destruct (is_exception e); [|left; split; [apply registry_keys; by rewrite K2, (bo_keys _ _ Hst)|done]].
       pose proof (kept_failure 3 m [u "watches"] w0 w2) as H. destruct (track_failure _ _ _ _ w2). left. apply H; [|done]. by rewrite K2, (bo_keys _ _ Hst). }
  specialize (Hun _ Hwat eq_refl). assert (keys w2 = keys w0) as K2' by (by rewrite K2, (bo_keys _ _ Hst)). rewrite <- T2 in C1, U1.
  assert (rest w2 = rest w0) as R2' by (by rewrite R2, (bo_rest _ _ Hst)). clear K2 R2 T2 S1 Hst Hwat K R C U w w1.
  unfold attempt. rewrite st_bind_unfold. pose proof (track_stage_bookish 3 m (u "cancelling_tasks") w2) as Hb.
  destruct (track_stage _ _ _ _ w2) as [[[]|e] w3]; cbn [snd] in Hb.
  2: { destruct (is_exception e); [|left; split; [apply registry_keys; by rewrite (bo_keys _ _ Hb)|done]].
       pose proof (kept_failure 4 m [u "tasks"] w0 w3) as H. destruct (track_failure _ _ _ _ w3). left. apply H; [by rewrite (bo_keys _ _ Hb)|done]. }
  destruct (bo_tracker _ _ Hb C1) as [C3 S3]. pose proof (same_keys_unique _ _ S3 U1) as U3.
  destruct (on_tracker _ w3) as [rc w4] eqn:E. apply on_tracker_run in E as (K4 & V4 & R4 & E).
  destruct (cancel_user_tasks_steady a us (tk w3) C3 I) as (C4 & U4 & _). rewrite E in C4, U4. cbn [snd] in C4, U4. specialize (U4 U3).
  rewrite (bo_keys _ _ Hb), K2' in K4. destruct rc as [[]|e].
  2: { destruct (is_exception e); [|left; split; [by apply registry_keys|done]].
       pose proof (kept_failure 4 m [u "tasks"] w0 w4) as H. destruct (track_failure _ _ _ _ w4). left. by apply H. }
  assert (registry w4 = registry w0) as Hreg by (unfold registry; by rewrite K4).
  pose proof (cleanup_outcome m w4) as Ho. destruct (cleanup json_loads render clock m w4) as [r w'].
  assert (rest w4 = rest w0) as R4' by (by rewrite R4, (bo_rest _ _ Hb)).
  unfold kept, removed in *. rewrite Hreg, R4' in Ho. apply Ho; [by split|done|]. by rewrite V4, (bo_watch _ _ Hb).
Qed.

Lemma process_outcome uuid4 m w : ready m w -> let '(r, w') := process_op uuid4 m w in kept w w' r \/ removed m w w' r.
Proof.
  intros [Hid C U Ho Hwf Hwat]. unfold process. rewrite st_bind_unfold. destruct (on_tracker _ w) as [rc w1] eqn:E.
  apply on_tracker_run in E as (K & V & R & E).
  destruct (create_with_id uuid4 (clock 0) (clock 1) TASK_TYPE (Some (dm_target_account_id m ++ u "/" ++ dm_target_user_id m)) (dm_account_id m) (dm_user_id m)
              (dm_task_id m) None None (tk w) Hid C U Ho) as [C1 U1]. rewrite E in C1, U1. cbn [snd] in C1, U1.
  destruct rc as [task|e]; [|left; split; [by apply registry_keys|done]].
  destruct (is_terminal (status task)); [left; split; [by apply registry_keys|done]|]. rewrite st_bind_unfold. cbn [st_gets].
  destruct (negb _).
  { pose proof (kept_complete 2 m (negb (has_user (registry w1) (dm_target_account_id m) (dm_target_user_id m))) true w w1 K) as H. destruct (track_complete _ _ _ _ _ w1). by left. }
  apply stopping_outcome; try done. by rewrite V.
Qed.

(** C16: A user's registry entry is removed last.  If it disappears while a deletion
    message is processed, the message's task held the fence, no error was reported, and
    at that point nothing of the user is left elsewhere: no watch, no task record, no
    file, and nothing in the vector, token and usage stores that are configured; the
    entries of all other users are untouched.  Of the shared uploads that name the user,
    only those are left whose metadata could not be read when the cleanup came to them:
    these it skips.  The cleanup runs alone on the back ends, and a deletion they
    acknowledge has happened.  At the start the tracker's cache agrees with its store and
    task ids are unique, which whoever runs while the cleanup waits keeps, and the index
    of watches is exact. *)
Theorem removed_after_erasure (uuid4 : pystr) (m : DeletionMessage) (w w' : W) (r : result (option pystr)) :
  ready m w -> process_op uuid4 m w = (r, w') ->
  is_Some (get_user (registry w) (dm_target_account_id m) (dm_target_user_id m)) ->
  get_user (registry w') (dm_target_account_id m) (dm_target_user_id m) = None ->
  del_task_id <$> get_user_deletion (registry w) (dm_target_account_id m) (dm_target_user_id m) = Some (dm_task_id m)
  /\ nothing_left (rest w) (dm_target_account_id m) (dm_target_user_id m) w'
  /\ (forall a us, (a, us) <> (dm_target_account_id m, dm_target_user_id m) -> get_user (registry w') a us = get_user (registry w) a us)
  /\ forall err, r <> Ok (Some err).
Proof.
  intros Hr Hrun [info Hi] Hgone. pose proof (process_outcome uuid4 m w Hr) as H. rewrite Hrun in H. destruct H as [[H _]|((H1 & H2) & H3 & H4)].
  - rewrite H in Hgone. congruence.
  - split_and!; [done|done| |done]. intros a us Hne. rewrite H2. unfold ApiKeysTheory.upd. by rewrite decide_False.
Qed.

(** A deletion that fails can be retried.  When processing a message reports an
    error, every user of the registry, and so the fence, is as before, and the error
    names the failed stages. *)
Theorem failed_deletion_keeps_fence (uuid4 : pystr) (m : DeletionMessage) (w w' : W) (err : pystr) :
  ready m w -> process_op uuid4 m w = (Ok (Some err), w') ->
  (forall a us, get_user (registry w') a us = get_user (registry w) a us)
  /\ exists stages, stages <> [] /\ err = failure_text stages.
Proof.
  intros Hr Hrun. pose proof (process_outcome uuid4 m w Hr) as H. rewrite Hrun in H.
  destruct H as [[H1 H2]|(_ & _ & H)]; [|by destruct (H err)]. split; [exact H1|by apply H2].
Qed.
End theory.
