(* ===== verification/UserDeletionQueue.v ===== *)
(** Requests and restarts of user deletion ([UserDeletion]): the fence, the tracked task
    and the queued message that [delete_user] leaves, and what [initialize] restores. *)
From Stdlib Require Import NArith ZArith.
From S2P Require Import Prelude PyStr PyVal PyBytes Identifiers Namespace TaskRecord WorkIndex TaskTracker TaskTrackerTheory TaskOutcome TaskErasure NamedQueue NamedQueueTheory ApiKeys ApiKeysTheory Watch UserDeletion.

Open Scope N_scope.

(** The listing of a queue is its messages in order. *)
Class SnapshotOk (F : Type) `{!QueueFS F} (path : pystr) (json_loads : pystr -> option pyval) `{!QueueFSOk F path json_loads} : Prop := {
  qs_empty f c f' : qf_read f (leaf_path path "messages") = (Ok c, f') -> content_empty c = true -> qf_view f = [];
  qs_missing f f' : qf_read f (leaf_path path "messages") = (Err NotFoundError, f') -> qf_view f = [];
  qs_list f c f' text v : qf_read f (leaf_path path "messages") = (Ok c, f') -> content_empty c = false ->
    match c with CBytes b => utf8_decode b | CText s => Ok s | CNone => Ok [] end = Ok text -> json_loads text = Some v ->
    v = VList (snd <$> qf_view f) }.

Section queueing.
Context {Ts Ks Ws X F : Type}.
Context {TS : TaskStore Ts} {TSO : TaskStoreOk Ts} {KF : KeyFiles Ks} {KFO : KeyFilesOk Ks} {env : WatchEnv} {WF : WatchFS Ws} {BK : Backends X} {QF : QueueFS F}.
Context (json_loads : pystr -> option pyval) (json_dumps : pydict -> pystr) (json_error : pystr -> pystr) (render : pyval -> pystr) (path : pystr).
Context {QFO : QueueFSOk F path json_loads} {SNO : SnapshotOk F path json_loads}.
Context (clock : nat -> stamp).
(** [json.loads] inverts [json.dumps], and the text of a true value is not empty. *)
Context (Hjson : forall d, json_loads (json_dumps d) = Some (VDict d)) (Hstr : forall v, py_truthy v = true -> py_str render v <> []).

Abbreviation S := (site Ts Ks Ws X).
Abbreviation W := (queue S F).
Implicit Types w : W.
Abbreviation tk w := (s_tracker (q_owner w)).
Abbreviation keys w := (s_keys (q_owner w)).
Abbreviation msgs w := (snd <$> qf_view (q_fs w)).
Abbreviation ids w := (queued_ids json_loads render (msgs w)).

Lemma queue_lens i (s : S) : queue_index (set_queue_index i s) = i.
Proof. done. Qed.

(** Finalising a task leaves the work entries alone. *)
Lemma load_for_update_state now tid acc usr (s : tracker Ts) : (load_for_update now tid acc usr s).2 = s.
Proof.
  unfold load_for_update. rewrite st_bind_unfold. cbn [cached_task st_gets]. destruct (dict_get _ _); [done|].
  destruct acc; [|done]. by destruct usr.
Qed.

Lemma finalize_work now tid acc usr (s : tracker Ts) : wi_work (tk_work (finalize_task now tid acc usr s).2) = wi_work (tk_work s).
Proof.
  unfold finalize_task. rewrite st_bind_unfold. cbn [st_gets]. destruct (has_work _ _ _); [done|]. rewrite st_bind_unfold.
  pose proof (load_for_update_state now tid acc usr s) as H. destruct (load_for_update now tid acc usr s) as [[[t|]|] s1]; cbn [snd] in H; subst s1; try done.
  destruct (TaskRecord.is_active _); [|done]. rewrite !st_bind_unfold. cbn [st_gets]. destruct (has_work _ _ _); [done|]. rewrite st_bind_unfold. cbn [st_gets].
  destruct (finalized _ _ _) as [t'|]; [|done]. rewrite st_bind_unfold. unfold persist_update. rewrite st_bind_unfold. unfold store_update.
  by destruct (ts_update (tk_store s) t') as [[[]|] st].
Qed.

Lemma queue_finalize_work md (s : S) : wi_work (queue_index (queue_finalize clock md s).2) = wi_work (queue_index s).
Proof.
  unfold queue_finalize, queue_index, finalize_before_ack.
  pose proof (finalize_work (clock 40) (md_task_id md) (truthy_opt (Some (md_account_id md))) (truthy_opt (Some (md_user_id md))) (s_tracker s)) as H.
  by destruct (finalize_task _ _ _ _ (s_tracker s)).
Qed.

(** ** Listing *)

Lemma init_frame w : let w' := (ensure_initialized path w).2 in q_owner w' = q_owner w /\ qf_view (q_fs w') = qf_view (q_fs w).
Proof.
  cbn zeta. unfold ensure_initialized. rewrite st_bind_unfold. cbn [st_gets]. destruct (q_initialized w); [done|].
  unfold st_of. destruct (qf_mkdir (q_fs w) path) as [r f] eqn:E. apply qf_mkdir_view in E. destruct r as [|[]]; done.
Qed.

Lemma snapshot_run w r w' : queue_snapshot json_loads path w = (r, w') ->
  q_owner w' = q_owner w /\ qf_view (q_fs w') = qf_view (q_fs w) /\ forall l, r = Ok l -> l = msgs w.
Proof.
  unfold queue_snapshot, snapshot. rewrite st_bind_unfold. pose proof (init_frame w) as [Ho Hv].
  destruct (ensure_initialized path w) as [[[]|e] w0]; cbn [snd] in *; [|intros [= <- <-]; by split_and!].
  unfold st_of, NamedQueue.fs_read, on_fs. destruct (qf_read (q_fs w0) (sub path "messages")) as [[c|e] f] eqn:E.
  - pose proof (qf_read_view _ _ _ _ E) as Hf. destruct (content_empty c) eqn:Ec.
    + intros [= <- <-]. cbn. split_and!; [done|congruence|]. intros l [= <-]. by rewrite <- Hv, (qs_empty _ _ _ E Ec).
    + intros H. injection H as <- <-. cbn. split_and!; [done|congruence|]. intros l.
      destruct (match c with CBytes b => utf8_decode b | CText s => Ok s | CNone => Ok [] end) as [text|] eqn:Et; [|done]. cbn [mbind result_bind]. unfold loads.
      destruct (json_loads text) as [v|] eqn:Ej; [|done]. cbn [mbind result_bind]. rewrite (qs_list _ _ _ _ _ E Ec Et Ej). intros [= <-]. by rewrite Hv.
  - pose proof (qf_read_view _ _ _ _ E) as Hf. destruct e; intros [= <- <-]; cbn; (split_and!; [done|congruence|]); try done.
    intros l [= <-]. by rewrite <- Hv, (qs_missing _ _ E).
Qed.

Lemma elem_ids tid (l : list pyval) : tid ∈ queued_ids json_loads render l <-> exists m md, m ∈ l /\ extract_task_metadata json_loads render m = Some md /\ md_task_id md = tid.
Proof.
  unfold queued_ids. rewrite list_elem_of_omap. split.
  - intros (m & Hm & Hx). destruct (extract_task_metadata _ _ m) as [md|] eqn:E; [|done]. injection Hx as <-. by exists m, md.
  - intros (m & md & Hm & E & <-). exists m. by rewrite E.
Qed.

(** ** Messages *)

(** The payload of a deletion message, with its work id. *)
Definition deletion_payload (uuid4 t oa ou ta tu : pystr) : pydict := (prepare_task_payload render None uuid4 (deletion_message t oa ou ta tu)).1.

Lemma deletion_payload_fields uuid4 t oa ou ta tu : t <> [] -> oa <> [] -> ou <> [] -> uuid4 <> [] ->
  prepare_task_payload render None uuid4 (deletion_message t oa ou ta tu) = (deletion_payload uuid4 t oa ou ta tu, Some (MkMeta t uuid4 oa ou))
  /\ deletion_payload uuid4 t oa ou ta tu = deletion_message t oa ou ta tu ++ [(TASK_WORK_ID_FIELD, VStr uuid4)].
Proof.
  intros Ht%nonempty_true Ha%nonempty_true Hu%nonempty_true Hw%nonempty_true. unfold deletion_payload, prepare_task_payload.
  change (get_or_none (deletion_message t oa ou ta tu) (u "task_id")) with (VStr t).
  change (get_or_none (deletion_message t oa ou ta tu) TASK_WORK_ID_FIELD) with VNone.
  unfold py_or. cbn [py_truthy]. rewrite Ht. cbn [py_truthy negb]. rewrite Ht. cbn [negb py_str].
  assert (owner_from_payload render (deletion_message t oa ou ta tu) = (oa, ou)) as ->.
  { destruct oa; [done|]. by destruct ou. }
  rewrite Ha, Hu. cbn [andb]. split; [done|]. cbn [fst]. unfold deletion_message. by vm_compute.
Qed.

Lemma parse_deletion uuid4 t oa ou ta tu m : t <> [] -> oa <> [] -> ou <> [] -> uuid4 <> [] -> ta <> [] -> tu <> [] ->
  dict_get m (u "data") = Some (VStr (json_dumps (deletion_payload uuid4 t oa ou ta tu))) ->
  parse_message json_loads json_error render m = inr (MkDelMessage t oa ou ta tu).
Proof.
  intros Ht Ha Hu Hw Hta Htu Hm. unfold parse_message. rewrite Hm. cbn [from_option id]. rewrite Hjson.
  destruct (deletion_payload_fields uuid4 t oa ou ta tu Ht Ha Hu Hw) as [_ ->].
  destruct t; [done|]. destruct oa; [done|]. destruct ou; [done|]. destruct ta; [done|]. by destruct tu.
Qed.

Abbreviation extract := (extract_task_metadata json_loads render).

Lemma extract_deletion uuid4 t oa ou ta tu m : t <> [] -> oa <> [] -> ou <> [] -> uuid4 <> [] ->
  dict_get m (u "data") = Some (VStr (json_dumps (deletion_payload uuid4 t oa ou ta tu))) -> exists md, extract (VDict m) = Some md /\ md_task_id md = t.
Proof.
  intros Ht Ha Hu Hw Hm. unfold extract_task_metadata, payload_dict. rewrite Hm. cbn [from_option id]. rewrite Hjson.
  destruct (deletion_payload_fields uuid4 t oa ou ta tu Ht Ha Hu Hw) as [_ ->]. unfold get_or_none at 1. cbn [deletion_message app].
  change (dict_get _ (u "task_id")) with (Some (VStr t)). change (get_or_none _ TASK_WORK_ID_FIELD) with (VStr uuid4). cbn [from_option id].
  apply nonempty_true in Ht, Hw. cbn [py_truthy]. rewrite Hw. cbn [negb andb py_truthy]. rewrite Ht, Hw. cbn [negb orb py_str].
  destruct (owner_from_payload _ _). by eexists.
Qed.

(** ** Enqueueing *)

Lemma queue_finalize_keys md (s : S) : s_keys (queue_finalize clock md s).2 = s_keys s.
Proof. unfold queue_finalize. by destruct (finalize_before_ack _ _ _). Qed.

Lemma discard_keys md w : keys (discard_work queue_index set_queue_index (Some (queue_finalize clock)) json_loads render QUEUE_NAME md w).2 = keys w.
Proof.
  unfold discard_work, NamedQueue.on_owner, discard. cbn [metadata_of]. destruct (remove_work _ _ _) as [[removed idle] idx]. destruct idle; [|done].
  pose proof (queue_finalize_keys md (set_queue_index idx (q_owner w))) as H. by destruct (queue_finalize clock md _) as [r s'].
Qed.

(** The owner's state after an enqueue. *)
Lemma enqueue_owner uuid4 d w : let '(r, w') := queue_enqueue json_loads json_dumps render path clock uuid4 d w in
  keys w' = keys w /\ (is_ok r = true -> tk_store (tk w') = tk_store (tk w) /\ tk_tasks (tk w') = tk_tasks (tk w)).
Proof.
  unfold queue_enqueue, enqueue. rewrite st_bind_unfold. pose proof (init_frame w) as [Ho _]. destruct (ensure_initialized path w) as [[[]|e] w0]; cbn [snd] in Ho; [|by rewrite Ho].
  rewrite st_bind_unfold. cbn [mret ST_ret]. destruct (prepare_task_payload _ _ _ _) as [payload omd]. rewrite st_bind_unfold. unfold st_of at 1.
  destruct (register _ _ _ omd) as [ok idx]. set (w1 := NamedQueue.set_owner _ w0).
  assert (keys w1 = keys w /\ tk_store (tk w1) = tk_store (tk w) /\ tk_tasks (tk w1) = tk_tasks (tk w)) as (K1 & S1 & T1) by (unfold w1; cbn; by rewrite Ho).
  destruct (negb ok); [by cbn|]. unfold st_of. rewrite st_bind_unfold. unfold st_lift. destruct (utf8_encode _) as [raw|e].
  - unfold NamedQueue.fs_write, on_fs. destruct (qf_write (q_fs w1) _ raw) as [[i|e] f]; [done|]. destruct omd as [md|]; [|done].
    rewrite st_bind_unfold. pose proof (discard_keys md (NamedQueue.set_fs f w1)) as H. destruct (discard_work _ _ _ _ _ _ md _) as [[[]|] w2]; (split; [exact (eq_trans H K1)|done]).
  - destruct omd as [md|]; [|done]. rewrite st_bind_unfold. pose proof (discard_keys md w1) as H. destruct (discard_work _ _ _ _ _ _ md _) as [[[]|] w2]; (split; [exact (eq_trans H K1)|done]).
Qed.

Lemma enqueue_run uuid4 t oa ou ta tu w : t <> [] -> oa <> [] -> ou <> [] -> uuid4 <> [] ->
  match queue_enqueue json_loads json_dumps render path clock uuid4 (deletion_message t oa ou ta tu) w with
  | (Ok i, w') => exists m, qf_view (q_fs w') = qf_view (q_fs w) ++ [(i, VDict m)]
      /\ dict_get m (u "data") = Some (VStr (json_dumps (deletion_payload uuid4 t oa ou ta tu)))
  | (Err _, w') => True
  end.
Proof.
  intros Ht Ha Hu Hw. destruct (deletion_payload_fields uuid4 t oa ou ta tu Ht Ha Hu Hw) as [Hp _].
  pose proof (enqueue_spec queue_index set_queue_index queue_cancelled (queue_finalize clock) json_loads json_dumps render QUEUE_NAME path
    queue_lens queue_finalize_work Hstr None uuid4 _ _ _ w Hp) as H. unfold queue_enqueue.
  change (fun d : enqueue_data => mret d) with (plain_hook (S := S) (F := F)) in *.
  destruct (enqueue _ _ _ _ _ _ _ _ _ _ _ _ _ _ w) as [[i|e] w']; unfold messages in H; [|done]. destruct H as (_ & _ & m & Hm). by exists m.
Qed.

(** The queue after a deletion message was sent: one more message, of that task. *)
Lemma enqueue_ids uuid4 t oa ou ta tu w i w' : t <> [] -> oa <> [] -> ou <> [] -> uuid4 <> [] ->
  queue_enqueue json_loads json_dumps render path clock uuid4 (deletion_message t oa ou ta tu) w = (Ok i, w') -> ids w' = ids w ++ [t].
Proof.
  intros Ht Ha Hu Hw E. pose proof (enqueue_run uuid4 t oa ou ta tu w Ht Ha Hu Hw) as H. rewrite E in H. destruct H as (m & Hm & Hd).
  destruct (extract_deletion uuid4 t oa ou ta tu m Ht Ha Hu Hw Hd) as (md & Hx & <-).
  unfold queued_ids. rewrite Hm, fmap_app, omap_app. f_equal. cbn [fmap list_fmap omap list_omap snd]. by rewrite Hx.
Qed.

(** ** The fence *)

(** The user is fenced by [d], and nobody else changed. *)
Definition fences (r0 : ring) (a us : pystr) (d : deletion) (r : ring) : Prop :=
  get_user_deletion r a us = Some d /\ forall a' us', (a', us') <> (a, us) -> get_user r a' us' = get_user r0 a' us'.

Lemma put_fences r0 r a us account info d : found a us (account, info) r0 -> ui_deletion info = Some d ->
  (forall a' us', get_user r a' us' = get_user r0 a' us') -> fences r0 a us d r.
Proof. intros Hf Hd Hs. split; [|by intros]. unfold get_user_deletion. rewrite Hs, (found_user _ _ _ _ Hf). exact Hd. Qed.

Lemma write_fences r0 a us account info info' d : found a us (account, info) r0 -> ui_deletion info' = Some d ->
  fences r0 a us d (set_account a (with_users (dict_set (ac_users account) us info') account) r0).
Proof.
  intros [Ha Hu] Hd. cbn [fst snd] in *. split.
  - unfold get_user_deletion. rewrite (get_user_write a account us info' r0 a us Ha). unfold ApiKeysTheory.upd. by rewrite decide_True.
  - intros a' us' Hne. rewrite (get_user_write a account us info' r0 a' us' Ha). unfold ApiKeysTheory.upd. by rewrite decide_False.
Qed.

Abbreviation mgr := (ApiKeys.manager Ks).
Abbreviation ring_of k := (ApiKeys.mg_ring k).

Lemma except_save_ok account (handler : ST mgr unit) (k : mgr) x k' : except_reraise (save_users_json account) handler k = (Ok x, k') -> ring_of k' = ring_of k.
Proof.
  unfold except_reraise. pose proof (save_users_silent account k) as Hs. destruct (save_users_json account k) as [[[]|e] k1]; cbn [snd] in *; [by intros [= _ <-]|].
  destruct (is_exception e); [|done]. by destruct (handler k1) as [[[]|] k2].
Qed.

Lemma require_user_run a us (k : mgr) p k' : require_user a us k = (Ok p, k') -> k' = k /\ found a us p (ring_of k).
Proof.
  unfold require_user, require_account. destruct (dict_get (accounts (ring_of k)) a) as [account|] eqn:Ea; [|done].
  destruct (dict_get (ac_users account) us) as [info|] eqn:Eu; [|done]. intros [= <- <-]. split; [done|by split].
Qed.

Lemma begin_fences a us del (k k' : mgr) d created : del_task_id del <> [] -> begin_user_deletion a us del k = (Ok (d, created), k') ->
  fences (ring_of k) a us d (ring_of k') /\ del_task_id d <> [] /\ (created = false -> k' = k).
Proof.
  intros Hdel. unfold begin_user_deletion. rewrite st_bind_unfold. destruct (require_user a us k) as [[[account info]|] k0] eqn:Er; [|done].
  apply require_user_run in Er as [-> Hf]. destruct (fenced info) as [ex|] eqn:Ef.
  { intros [= <- <- <-]. unfold fenced in Ef. destruct (ui_deletion info) as [d0|] eqn:Ed; [|done]. destruct (nonempty (del_task_id d0)) eqn:En; [|done]. injection Ef as <-.
    split_and!; [by eapply put_fences|by apply nonempty_true|done]. }
  destruct (_ && _); [done|]. rewrite st_bind_unfold. unfold write_user at 1. cbn [ApiKeys.on_ring st_modify]. set (k1 := ApiKeys.MkManager _ _).
  rewrite st_bind_unfold. destruct (except_reraise _ _ k1) as [[[]|] k2] eqn:Es; [|done]. apply except_save_ok in Es. rewrite st_bind_unfold. cbn [ApiKeys.on_ring st_modify].
  intros [= <- <- <-]. split_and!; [|done|done]. cbn. rewrite Es.
  destruct (write_fences (ring_of k) a us account info (MkInfo (ui_role info) [] [] (Some del)) del Hf eq_refl) as [H1 H2]. by split.
Qed.

Lemma replace_fences a us expected del (k k' : mgr) d : replace_user_deletion_task a us expected del k = (Ok (Some d), k') ->
  fences (ring_of k) a us d (ring_of k') /\ (d = del \/ k' = k).
Proof.
  unfold replace_user_deletion_task. rewrite st_bind_unfold. destruct (require_user a us k) as [[[account info]|] k0] eqn:Er; [|done].
  apply require_user_run in Er as [-> Hf]. destruct (ui_deletion info) as [cur|] eqn:Ed; [|done].
  destruct (negb _); [intros [= <- <-]; split; [by eapply put_fences|by right]|].
  rewrite st_bind_unfold. unfold write_user at 1. cbn [ApiKeys.on_ring st_modify]. set (k1 := ApiKeys.MkManager _ _).
  rewrite st_bind_unfold. destruct (except_reraise _ _ k1) as [[[]|] k2] eqn:Es; [|done]. apply except_save_ok in Es.
  intros [= <- <-]. split; [|by left]. rewrite Es. by apply (write_fences _ _ _ _ _ _ _ Hf).
Qed.

(** ** The tracked task *)

(** Records are only added. *)
Definition grows (s s' : tracker Ts) : Prop := forall a x i p, ts_view (tk_store s) a x i = Some p -> ts_view (tk_store s') a x i = Some p.

Lemma queue_grows_refl s : grows s s.
Proof. by intros a x i p. Qed.

(** Creating a task under a given id: no record changes, and the result is stored. *)
Lemma create_stored uuid nc nu ty rid acc usr tid m a (s s' : tracker Ts) r : tid <> [] -> coherent s ->
  create uuid nc nu ty rid acc usr (Some tid) m a s = (r, s') ->
  grows s s' /\ forall t, r = Ok t -> coherent s' /\ exists t', t = copy_task t' /\ ts_view (tk_store s') acc usr tid = Some (task_to_payload t').
Proof.
  intros Ht Hc. unfold create. rewrite st_bind_unfold. unfold st_lift. destruct (validate_owner acc usr) as [[]|] eqn:Ev; [|intros [= <- <-]; split; [by intros ?|done]].
  apply validate_owner_ok in Ev as [Ha Hx]. apply nonempty_true in Ht. rewrite Ht, bool_decide_eq_true_2 by done. set (task := TaskRecord.MkTask _ _ _ _ _ _ _ _ _ _ _ _ _).
  intros E. destruct (create_on_owner_triple nc task acc usr true eq_refl eq_refl Ha Hx s Hc (or_introl eq_refl)) as (Hc' & _). rewrite E in Hc'. cbn [snd] in Hc'.
  revert E. unfold create_on_owner. cbn [negb]. rewrite st_bind_unfold. cbn [cached_task st_gets].
  destruct (dict_get (tk_tasks s) (TaskRecord.task_id task)) as [e|] eqn:Eg.
  { destruct (matches_owner _ _ _) eqn:Em; cbn [negb]; [|intros [= <- <-]; split; [by intros ?|done]]. intros [= <- <-]. split; [by intros ?|]. intros t [= <-]. split; [done|]. exists e. split; [done|].
    destruct (co_cache _ Hc _ _ Eg) as [Hi Hst]. apply matches_owner_some in Em as [Hea Hex].
    destruct (key_of_stored s e acc usr Hst Hea Hex) as (Hv & _). by rewrite Hi in Hv. }
  rewrite st_bind_unfold. destruct (load_from_store_reads nc (TaskRecord.task_id task) (default [] (TaskRecord.account_id task)) (TaskRecord.user_id task) s Hc) as [Hs Hq].
  destruct (load_from_store _ _ _ _ s) as [[[e|]|] s0]; cbn in Hs; subst s0; [| |intros [= <- <-]; split; [by intros ?|done]].
  - destruct (Hq (Some e) eq_refl) as (Hi & Hst & Hea & Hex). rewrite st_bind_unfold. cbn [publish_task st_modify]. intros [= <- <-]. split; [by intros ?|].
    intros t [= <-]. split; [done|]. exists e. split; [done|]. destruct (key_of_stored s e acc usr Hst Hea Hex) as (Hv & _). cbn in *. by rewrite Hi in Hv.
  - specialize (Hq None eq_refl usr eq_refl Ha Hx). rewrite st_bind_unfold. unfold persist_create. rewrite st_bind_unfold. unfold store_create.
    destruct (ts_create (tk_store s) task) as [[[]|e] st] eqn:Ec; cbn [st_modify publish_task]; intros [= <- <-].
    + destruct (ts_create_ok _ _ _ Ec) as (a' & x' & [= <-] & [= <-] & _ & _ & Hview). split.
      * intros a1 x1 i p Hp. cbn. rewrite Hview. case_decide as E; [|done]. injection E as -> -> ->. cbn in Hq. congruence.
      * intros t [= <-]. split; [done|]. exists task. split; [done|]. cbn. by rewrite Hview, decide_True.
    + split; [|done]. intros a1 x1 i p Hp. cbn. by rewrite (ts_create_err _ _ _ _ Ec).
Qed.

(** Looking a task up: the store is left alone, and what is found is stored. *)
Lemma get_run now tid acc usr (s s' : tracker Ts) r : coherent s -> TaskTracker.get now tid (Some acc) (Some usr) s = (r, s') ->
  coherent s' /\ tk_store s' = tk_store s
  /\ forall t, r = Ok (Some t) -> exists t', t = copy_task t' /\ ts_view (tk_store s) acc usr tid = Some (task_to_payload t').
Proof.
  intros Hc E. destruct (get_triple (R := same_keys) now tid (Some acc) (Some usr) s Hc I) as (Hc' & _). rewrite E in Hc'. split; [done|]. revert E.
  unfold TaskTracker.get. rewrite st_bind_unfold. cbn [cached_task st_gets].
  assert (forall t (s1 : tracker Ts), coherent s1 -> tk_store s1 = tk_store s -> dict_get (tk_tasks s1) tid = Some t -> matches_owner t (Some acc) (Some usr) = true ->
    ts_view (tk_store s) acc usr tid = Some (task_to_payload t)) as Hview.
  { intros t s1 Hc1 Hs Hg Hm. destruct (co_cache _ Hc1 _ _ Hg) as [Hi Hst]. apply matches_owner_some in Hm as [Ha Hx].
    destruct (key_of_stored s1 t acc usr Hst Ha Hx) as (Hv & _). by rewrite Hi, Hs in Hv. }
  destruct (dict_get (tk_tasks s) tid) as [t|] eqn:Eg.
  { intros [= <- <-]. split; [done|]. intros t0. destruct (matches_owner t _ _) eqn:Em; [|done]. intros [= <-]. exists t. split; [done|by eapply Hview]. }
  rewrite st_bind_unfold. destruct (load_from_store_reads now tid acc (Some usr) s Hc) as [Hs Hq].
  destruct (load_from_store _ _ _ _ s) as [[[t|]|] s0]; cbn in Hs; subst s0; [|by intros [= <- <-]..].
  destruct (Hq (Some t) eq_refl) as (Hi & Hst & Ha & Hx). rewrite st_bind_unfold. cbn [merge_loaded_tasks st_modify]. rewrite st_bind_unfold. cbn [cached_task st_gets].
  intros [= <- <-]. split; [done|]. intros t0. destruct (dict_get _ tid) as [c|] eqn:Ec; [|done]. destruct (matches_owner c _ _) eqn:Em; [|done].
  intros [= <-]. exists c. split; [done|]. eapply Hview; [exact Hc'|done|exact Ec|done].
Qed.

(** ** Requests *)

Lemma on_tracker_eq {A} (op : ST (tracker Ts) A) w r w' : on_tracker op w = (r, w') -> exists t, op (tk w) = (r, t) /\ w' = NamedQueue.set_owner (set_tracker t (q_owner w)) w.
Proof. unfold on_tracker, part, NamedQueue.on_owner. destruct (op (tk w)) as [r0 t]. intros [= <- <-]. eauto. Qed.

Lemma on_keys_eq {A} (op : ST mgr A) w r w' : on_keys op w = (r, w') -> exists k, op (keys w) = (r, k) /\ w' = NamedQueue.set_owner (set_keys k (q_owner w)) w.
Proof. unfold on_keys, part, NamedQueue.on_owner. destruct (op (keys w)) as [r0 k]. intros [= <- <-]. eauto. Qed.

(** The fence of a request: the queue is untouched, and an existing fence with a task
    that has not ended is kept. *)
Lemma fence_user_run uuid_a uuid_b a us owner w d w' : uuid_a <> [] -> uuid_b <> [] -> coherent (tk w) ->
  fence_user clock uuid_a uuid_b a us owner w = (Ok d, w') ->
  q_fs w' = q_fs w /\ coherent (tk w') /\ grows (tk w) (tk w') /\ fences (registry w) a us d (registry w') /\ del_task_id d <> []
  /\ (wf_ring (registry w) -> wf_ring (registry w'))
  /\ forall d0, get_user_deletion (registry w) a us = Some d0 -> del_task_id d0 <> [] ->
       (forall t, ts_view (tk_store (tk w)) (del_owner_account_id d0) (del_owner_user_id d0) (del_task_id d0) = Some (task_to_payload t) -> is_terminal (status t) = false) ->
       d = d0 /\ keys w' = keys w.
Proof.
  intros Ha Hb Hc. unfold fence_user. rewrite st_bind_unfold. destruct (on_keys _ w) as [[[ex created]|] w1] eqn:E1; [|done].
  apply on_keys_eq in E1 as (k1 & E1 & ->). pose proof (begin_user_deletion_keeps a us (MkDeletion uuid_a owner.1 owner.2) (keys w)) as Hkeep. rewrite E1 in Hkeep. cbn [fst snd] in Hkeep.
  assert (wf_ring (registry w) -> wf_ring (ring_of k1)) as Hkeep' by (intros Hr; apply (Hkeep Hr); by intros e [=]).
  destruct (begin_fences _ _ (MkDeletion uuid_a owner.1 owner.2) _ _ _ _ Ha E1) as (Hf & Hne & Hcr). destruct created.
  { intros [= <- <-]. split_and!; try done; [apply queue_grows_refl|]. intros d0 Hd0 Hn0 _. exfalso.
    unfold begin_user_deletion in E1. rewrite st_bind_unfold in E1. destruct (require_user a us (keys w)) as [[[account info]|] k0] eqn:Er; [|done].
    apply require_user_run in Er as [-> Hfo]. unfold get_user_deletion, registry in Hd0. rewrite (found_user _ _ _ _ Hfo) in Hd0. cbn in Hd0.
    unfold fenced in E1. rewrite Hd0 in E1. apply nonempty_true in Hn0. by rewrite Hn0 in E1. }
  specialize (Hcr eq_refl) as ->. rewrite st_bind_unfold. destruct (on_tracker _ _) as [[o|] w2] eqn:E2; [|done]. apply on_tracker_eq in E2 as (t2 & E2 & ->).
  cbn [NamedQueue.set_owner q_owner set_keys s_tracker] in E2. destruct (get_run _ _ _ _ _ _ _ Hc E2) as (Hc2 & Hs2 & Hg2).
  assert (grows (tk w) t2) as Hgr by (intros ?????; by rewrite Hs2). destruct Hf as [Hf1 Hf2].
  assert (forall d0, get_user_deletion (registry w) a us = Some d0 -> ex = d0) as Hex by (intros d0 Hd0; unfold registry in Hd0; congruence).
  destruct (match o with Some t => is_terminal (status t) | None => false end) eqn:Eterm.
  - rewrite st_bind_unfold. destruct (on_keys _ _) as [[rep|] w3] eqn:E3; [|done]. apply on_keys_eq in E3 as (k3 & E3 & ->). cbn [NamedQueue.set_owner q_owner set_keys set_tracker s_keys] in E3.
    destruct rep as [d3|]; [|done]. intros [= <- <-]. destruct (replace_fences _ _ _ _ _ _ _ E3) as [Hf3 Hd3].
    pose proof (replace_user_deletion_task_keeps a us (del_task_id ex) (MkDeletion uuid_b owner.1 owner.2) (keys w)) as Hkeep3. rewrite E3 in Hkeep3. cbn [snd] in Hkeep3.
    split_and!; try done.
    + destruct Hd3 as [-> | ->]; [done|]. destruct Hf3 as [Hf3 _]. rewrite Hf1 in Hf3. by injection Hf3 as <-.
    + intros d0 Hd0 Hn0 Hact. apply Hex in Hd0 as <-. destruct o as [t|]; [|done]. destruct (Hg2 t eq_refl) as (t' & -> & Hv). exfalso.
      specialize (Hact t' Hv). cbn in Eterm. congruence.
  - intros [= <- <-]. split_and!; try done. intros d0 Hd0 _ _. by apply Hex in Hd0 as <-.
Qed.

Lemma queue_grows_trans (s1 s2 s3 : tracker Ts) : grows s1 s2 -> grows s2 s3 -> grows s1 s3.
Proof. intros H1 H2 a x i p Hp. by apply H2, H1. Qed.

(** Sending a message unless the task has one. *)
Lemma enqueue_if_missing_run uuid4 t oa ou ta tu w w' : t <> [] -> oa <> [] -> ou <> [] -> uuid4 <> [] ->
  enqueue_if_missing json_loads json_dumps render path clock uuid4 t oa ou ta tu w = (Ok tt, w') ->
  keys w' = keys w /\ tk_store (tk w') = tk_store (tk w) /\ tk_tasks (tk w') = tk_tasks (tk w)
  /\ ((t ∈ ids w /\ msgs w' = msgs w) \/ (t ∉ ids w /\ ids w' = ids w ++ [t])).
Proof.
  intros Ht Ha Hu Hw. unfold enqueue_if_missing. rewrite st_bind_unfold. destruct (queue_snapshot json_loads path w) as [[l|] w1] eqn:Es; [|done].
  apply snapshot_run in Es as (Ho & Hv & Hl). specialize (Hl l eq_refl) as ->. unfold mem. case_bool_decide as Hin.
  - intros [= <-]. rewrite Ho, Hv. split_and!; try done. by left.
  - rewrite st_bind_unfold. pose proof (enqueue_owner uuid4 (deletion_message t oa ou ta tu) w1) as Hown.
    destruct (queue_enqueue _ _ _ _ _ _ _ w1) as [[i|] w2] eqn:E; [|done]. intros [= <-]. destruct Hown as [K Hst]. destruct (Hst eq_refl) as [S1 T1].
    rewrite K, S1, T1, Ho. split_and!; try done. right. split; [done|]. rewrite (enqueue_ids _ _ _ _ _ _ _ _ _ Ht Ha Hu Hw E). by rewrite Hv.
Qed.

Abbreviation delete_user_op := (delete_user json_loads json_dumps render path clock).

(** C17: A deletion request is durable, immediate and idempotent.  When [delete_user]
    returns, the user is fenced by the returned task, which is tracked and has a message
    in the queue, and no other user changed; a queue with at most one message per task
    stays so.  No key authenticates as the user any more, if the registry was reached
    without a [begin_user_deletion] being cancelled during its save (which leaves the
    key of its user working).  Asking again while the task has not ended returns the
    same task and leaves the registry alone, and the queue too if it still holds the
    task's message.  The tracker's cache agrees with its store at the start, and the
    listing of the queue shows its messages. *)
Theorem deletion_request_durable (E : ApiKeys.env) (uuid_a uuid_b uuid_c uuid_d a us tid : pystr) (actor : RequestContext) (w w' : W) :
  coherent (tk w) -> uuid_a <> [] -> uuid_b <> [] -> uuid_d <> [] ->
  delete_user_op uuid_a uuid_b uuid_c uuid_d a us actor w = (Ok tid, w') ->
  exists d, get_user_deletion (registry w') a us = Some d /\ del_task_id d = tid
    /\ is_Some (ts_view (tk_store (tk w')) (del_owner_account_id d) (del_owner_user_id d) tid)
    /\ tid ∈ ids w' /\ (NoDup (ids w) -> NoDup (ids w'))
    /\ (EnvOk E -> reachable E (keys w) -> forall key id, resolve E (registry w') key = Ok id -> id_account_id id = Some a -> id_user_id id <> Some us)
    /\ (forall a' us', (a', us') <> (a, us) -> get_user (registry w') a' us' = get_user (registry w) a' us')
    /\ forall d0, get_user_deletion (registry w) a us = Some d0 -> del_task_id d0 <> [] ->
         (forall t, ts_view (tk_store (tk w)) (del_owner_account_id d0) (del_owner_user_id d0) (del_task_id d0) = Some (task_to_payload t) -> is_terminal (status t) = false) ->
         tid = del_task_id d0 /\ keys w' = keys w /\ (tid ∈ ids w -> msgs w' = msgs w).
Proof.
  intros Hc Ha Hb Hd. unfold delete_user. rewrite st_bind_unfold. destruct (fence_user _ _ _ _ _ _ w) as [[d|] w1] eqn:E1; [|done].
  destruct (fence_user_run _ _ _ _ _ _ _ _ Ha Hb Hc E1) as (F1 & C1 & G1 & [D1 O1] & N1 & W1 & I1).
  rewrite st_bind_unfold. destruct (on_tracker _ w1) as [[t|] w2] eqn:E2; [|done]. apply on_tracker_eq in E2 as (t2 & E2 & ->).
  destruct (create_stored _ _ _ _ _ _ _ _ _ _ _ _ _ N1 C1 E2) as [_ Hst]. destruct (Hst t eq_refl) as (C2 & t' & -> & Hv).
  destruct (co_store _ C2 _ _ _ _ Hv) as (_ & _ & _ & _ & _ & Hoa & Hou). set (w2 := NamedQueue.set_owner _ w1).
  rewrite st_bind_unfold. destruct (enqueue_if_missing _ _ _ _ _ _ _ _ _ _ _ w2) as [[[]|] w3] eqn:E3; [|done].
  destruct (enqueue_if_missing_run _ _ _ _ _ _ _ _ N1 Hoa Hou Hd E3) as (K3 & S3 & T3 & Hq). intros [= <- <-].
  assert (registry w3 = registry w1) as Hreg by (unfold registry; by rewrite K3). assert (msgs w2 = msgs w) as Hm2 by (unfold w2; cbn; by rewrite F1).
  exists d. rewrite Hreg. split_and!; [done|done| | | | |done|].
  - rewrite S3. unfold w2. cbn. by rewrite Hv.
  - destruct Hq as [[Hin ->]|[_ ->]]; [done|]. apply elem_of_app. right. by apply list_elem_of_singleton.
  - rewrite <- Hm2. destruct Hq as [[_ ->]|[Hni ->]]; [done|]. intros Hnd. apply NoDup_app. split_and!; [done| |apply NoDup_singleton].
    intros x Hx ->%list_elem_of_singleton. done.
  - intros HE Hreach key id Hres Hida Hidu. destruct (resolve_holds E _ _ _ (W1 (reachable_wf E HE _ Hreach)) Hres) as [[-> _]|(a' & us' & info & Hget & Hdel & _ & ->)]; [done|].
    cbn in Hida, Hidu. injection Hida as ->. injection Hidu as ->. unfold get_user_deletion in D1. rewrite Hget in D1. cbn in D1. congruence.
  - intros d0 Hd0 Hn0 Hact. destruct (I1 d0 Hd0 Hn0 Hact) as [-> K1]. split_and!; [done|by rewrite K3|].
    intros Hin. rewrite <- Hm2 in Hin |- *. by destruct Hq as [[_ ->]|[Hni _]].
Qed.

(** A deletion message survives the queue.  What [delete_user] and [initialize]
    send is appended to the queue, and the consumer's [_parse_message] reads back the
    very task, owner and target. *)
Theorem deletion_message_roundtrip (uuid4 t oa ou ta tu i : pystr) (w w' : W) :
  t <> [] -> oa <> [] -> ou <> [] -> ta <> [] -> tu <> [] -> uuid4 <> [] ->
  queue_enqueue json_loads json_dumps render path clock uuid4 (deletion_message t oa ou ta tu) w = (Ok i, w') ->
  exists m, qf_view (q_fs w') = qf_view (q_fs w) ++ [(i, VDict m)]
    /\ parse_message json_loads json_error render m = inr (MkDelMessage t oa ou ta tu)
    /\ exists md, extract (VDict m) = Some md /\ md_task_id md = t.
Proof.
  intros Ht Ha Hu Hta Htu Hw E. pose proof (enqueue_run uuid4 t oa ou ta tu w Ht Ha Hu Hw) as H. rewrite E in H. destruct H as (m & Hm & Hd).
  exists m. split_and!; [done|exact (parse_deletion _ _ _ _ _ _ _ Ht Ha Hu Hw Hta Htu Hd)|exact (extract_deletion _ _ _ _ _ _ _ Ht Ha Hu Hw Hd)].
Qed.

(** ** Restart *)

(** A fence with an owner whose task has not ended. *)
Definition unfinished (s : tracker Ts) (d : deletion) : Prop :=
  exists t, ts_view (tk_store s) (del_owner_account_id d) (del_owner_user_id d) (del_task_id d) = Some (task_to_payload t) /\ status t ∈ [PENDING; RUNNING].

Definition owned_fence (d : deletion) : Prop := del_task_id d <> [] /\ del_owner_account_id d <> [] /\ del_owner_user_id d <> [].

(** What a run of the loop keeps: records are only added, the registry stays, messages
    are only added, and never two for a task. *)
Record resumes (w w' : W) : Prop := {
  re_keys : keys w' = keys w;
  re_coherent : coherent (tk w');
  re_grows : grows (tk w) (tk w');
  re_ids : exists l, ids w' = ids w ++ l;
  re_nodup : NoDup (ids w) -> NoDup (ids w') }.

Lemma resumes_trans w1 w2 w3 : resumes w1 w2 -> resumes w2 w3 -> resumes w1 w3.
Proof.
  intros [K1 C1 G1 [l1 I1] N1] [K2 C2 G2 [l2 I2] N2]. split; [congruence|done|by eapply queue_grows_trans| |auto]. exists (l1 ++ l2). by rewrite I2, I1, app_assoc.
Qed.

(** One fence of the loop. *)
Lemma reconcile_one n (uuid4 : nat -> pystr) (task : option TaskRecord) a us tid oa ou w w' : (forall i, uuid4 i <> []) -> tid <> [] -> oa <> [] -> ou <> [] -> coherent (tk w) ->
  (forall t, task = Some t -> exists t', t = copy_task t' /\ ts_view (tk_store (tk w)) oa ou tid = Some (task_to_payload t')) ->
  (t ← match task with
       | Some t => mret t
       | None => on_tracker (create (uuid4 n) (clock (1 + n)) (clock (2 + n)) TASK_TYPE (Some (a ++ u "/" ++ us)) oa ou (Some tid) None None)
       end;
   if bool_decide (status t ∈ [PENDING; RUNNING]) && negb (mem tid (ids w)) then
     _ ← queue_enqueue json_loads json_dumps render path clock (uuid4 (1 + n)%nat) (deletion_message tid oa ou a us); mret tt
   else mret tt) w = (Ok tt, w') ->
  resumes w w' /\ is_Some (ts_view (tk_store (tk w')) oa ou tid) /\ (unfinished (tk w') (MkDeletion tid oa ou) -> tid ∈ ids w').
Proof.
  intros Huu Ht Ha Hu Hc Htask. rewrite st_bind_unfold.
  match goal with |- match ?op w with _ => _ end = _ -> _ => destruct (op w) as [[t|] w1] eqn:E1; [|done] end.
  assert (keys w1 = keys w /\ q_fs w1 = q_fs w /\ coherent (tk w1) /\ grows (tk w) (tk w1)
          /\ exists t', t = copy_task t' /\ ts_view (tk_store (tk w1)) oa ou tid = Some (task_to_payload t')) as (K1 & F1 & C1 & G1 & t' & -> & Hv).
  { destruct task as [t0|].
    - injection E1 as <- <-. split_and!; try done; [apply queue_grows_refl|by apply Htask].
    - apply on_tracker_eq in E1 as (s1 & E1 & ->). destruct (create_stored _ _ _ _ _ _ _ _ _ _ _ _ _ Ht Hc E1) as [Hg Hst]. destruct (Hst t eq_refl) as (C1 & Hx). done. }
  clear E1 Htask. assert (msgs w1 = msgs w) as M1 by (by rewrite F1).
  assert (forall w2, keys w2 = keys w1 -> tk_store (tk w2) = tk_store (tk w1) -> tk_tasks (tk w2) = tk_tasks (tk w1) -> coherent (tk w2) /\ grows (tk w) (tk w2)) as Hsame.
  { intros w2 K2 S2 T2. split; [|intros ?????; rewrite S2; by apply G1].
    destruct C1 as [H1 H2 H3]. split; rewrite ?T2; [done| |]; unfold TaskTrackerTheory.stored; by rewrite S2. }
  destruct (bool_decide (status (copy_task t') ∈ [PENDING; RUNNING])) eqn:Est; cbn [andb].
  2: { intros [= <-]. destruct (Hsame w1 eq_refl eq_refl eq_refl). split_and!; [|by rewrite Hv|].
       - split; try done; [exists []; by rewrite M1, app_nil_r|by rewrite M1].
       - intros (t2 & Hv2 & Hst2). cbn in Hv2. rewrite Hv in Hv2. apply (inj Some), payload_inj in Hv2 as <-. by apply bool_decide_eq_false in Est. }
  clear Est. unfold mem. case_bool_decide as Hin; cbn [negb].
  { intros [= <-]. destruct (Hsame w1 eq_refl eq_refl eq_refl). split_and!; [|by rewrite Hv|by rewrite M1]. split; try done; [exists []; by rewrite M1, app_nil_r|by rewrite M1]. }
  rewrite st_bind_unfold. pose proof (enqueue_owner (uuid4 (1 + n)%nat) (deletion_message tid oa ou a us) w1) as Hown.
  destruct (queue_enqueue _ _ _ _ _ _ _ w1) as [[i|] w2] eqn:E; [|done]. intros [= <-]. destruct Hown as [K2 Hst]. destruct (Hst eq_refl) as [S2 T2].
  pose proof (enqueue_ids _ _ _ _ _ _ _ _ _ Ht Ha Hu (Huu _) E) as Hids. rewrite M1 in Hids. destruct (Hsame w2 K2 S2 T2). rewrite Hids. split_and!; [|by rewrite S2, Hv|].
  - split; [congruence|done|done|by exists [tid]|]. rewrite Hids. intros Hnd. apply NoDup_app. split_and!; [done| |apply NoDup_singleton]. by intros x Hx ->%list_elem_of_singleton.
  - intros _. apply elem_of_app. right. by apply list_elem_of_singleton.
Qed.

Abbreviation reconcile_op := (reconcile json_loads json_dumps render path clock).

Lemma resumes_get n tid oa ou w o w1 : coherent (tk w) -> on_tracker (TaskTracker.get (clock n) tid (Some oa) (Some ou)) w = (Ok o, w1) ->
  resumes w w1 /\ msgs w1 = msgs w /\ forall t, o = Some t -> exists t', t = copy_task t' /\ ts_view (tk_store (tk w1)) oa ou tid = Some (task_to_payload t').
Proof.
  intros Hc E. apply on_tracker_eq in E as (s1 & E & ->). destruct (get_run _ _ _ _ _ _ _ Hc E) as (C1 & S1 & Hg). split_and!.
  - split; try done; [intros ?????; cbn; by rewrite S1|]. exists []. by rewrite app_nil_r.
  - done.
  - intros t ->. cbn. rewrite S1. by apply Hg.
Qed.

Lemma unfinished_back w w' d : grows (tk w) (tk w') -> is_Some (ts_view (tk_store (tk w)) (del_owner_account_id d) (del_owner_user_id d) (del_task_id d)) ->
  unfinished (tk w') d -> unfinished (tk w) d.
Proof. intros Hg [p Hp] (t & Hv & Hst). rewrite (Hg _ _ _ _ Hp) in Hv. injection Hv as ->. by exists t. Qed.

Lemma reconcile_resumes fs n (uuid4 : nat -> pystr) queued w w' : (forall i, uuid4 i <> []) -> coherent (tk w) -> (forall x, x ∈ queued <-> x ∈ ids w) ->
  reconcile_op n uuid4 fs queued w = (Ok tt, w') ->
  resumes w w' /\ forall a us d, (a, us, d) ∈ fs -> owned_fence d -> unfinished (tk w') d -> del_task_id d ∈ ids w'.
Proof.
  intros Huu. revert n queued w. induction fs as [|[[a us] [tid oa ou]] fs IH]; intros n queued w Hc Hq; cbn [reconcile].
  { intros [= <-]. split; [|by intros ??? ?%elem_of_nil]. split; try done; [apply queue_grows_refl|exists []; by rewrite app_nil_r]. }
  destruct (negb (nonempty tid) || _ || _) eqn:Eo.
  { intros Hrun. destruct (IH _ _ _ Hc Hq Hrun) as [Hr Hin]. split; [done|]. intros a' us' d' Hd Ho. apply elem_of_cons in Hd as [[= -> -> ->]|Hd]; [|by eapply Hin].
    destruct Ho as (H1%nonempty_true & H2%nonempty_true & H3%nonempty_true). cbn in H1, H2, H3. by rewrite H1, H2, H3 in Eo. }
  apply orb_false_iff in Eo as [[E1 E2]%orb_false_iff E3]. apply negb_false_iff, nonempty_true in E1, E2, E3.
  rewrite st_bind_unfold. destruct (on_tracker _ w) as [[o|] w1] eqn:Eg; [|done]. destruct (resumes_get _ _ _ _ _ _ _ Hc Eg) as (R1 & M1 & Ho). clear Eg.
  rewrite st_bind_unfold. match goal with |- match ?op w1 with _ => _ end = _ -> _ => destruct (op w1) as [[t|] w2] eqn:Et; [|done] end.
  assert (forall x, mem x queued = mem x (ids w1)) as Hmem by (intros x; unfold mem; apply bool_decide_ext; rewrite M1; apply Hq).
  assert (forall w3 queued', resumes w1 w3 -> is_Some (ts_view (tk_store (tk w3)) oa ou tid) -> (unfinished (tk w3) (MkDeletion tid oa ou) -> tid ∈ ids w3) ->
    (forall x, x ∈ queued' <-> x ∈ ids w3) -> reconcile_op (3 + n) uuid4 fs queued' w3 = (Ok tt, w') ->
    resumes w w' /\ forall a0 us0 d, (a0, us0, d) ∈ (a, us, MkDeletion tid oa ou) :: fs -> owned_fence d -> unfinished (tk w') d -> del_task_id d ∈ ids w') as Hfin.
  { intros w3 queued' R3 V3 U3 Hq3 Hrun. destruct (IH _ _ _ (re_coherent _ _ R3) Hq3 Hrun) as [R4 Hin]. split; [eapply resumes_trans; [eapply resumes_trans; [exact R1|exact R3]|exact R4]|].
    intros a0 us0 d Hd Hod Hun. apply elem_of_cons in Hd as [[= -> -> ->]|Hd]; [|by eapply Hin].
    apply (unfinished_back w3 w' (MkDeletion tid oa ou) (re_grows _ _ R4) V3) in Hun. apply U3 in Hun. destruct (re_ids _ _ R4) as [l ->]. apply elem_of_app. by left. }
  pose proof (reconcile_one n uuid4 o a us tid oa ou w1) as Hone. setoid_rewrite st_bind_unfold in Hone. setoid_rewrite Et in Hone. rewrite Hmem.
  destruct (bool_decide (status t ∈ [PENDING; RUNNING]) && negb (mem tid (ids w1))) eqn:Ec.
  - rewrite st_bind_unfold. setoid_rewrite st_bind_unfold in Hone. destruct (queue_enqueue _ _ _ _ _ _ _ w2) as [[i|] w3] eqn:Eq; [|done]. intros Hrun.
    destruct (Hone w3 Huu E1 E2 E3 (re_coherent _ _ R1) Ho eq_refl) as (R3 & V3 & U3). apply (Hfin w3 _ R3 V3 U3) in Hrun; [done|].
    intros x. assert (ids w3 = ids w1 ++ [tid]) as ->.
    { rewrite (enqueue_ids _ _ _ _ _ _ _ _ _ E1 E2 E3 (Huu _) Eq). f_equal. f_equal. f_equal. f_equal.
      destruct o as [t0|]; [by injection Et as <- <-|]. by apply on_tracker_eq in Et as (s1 & _ & ->). }
    rewrite elem_of_cons, elem_of_app, list_elem_of_singleton, M1, <- Hq. tauto.
  - intros Hrun. destruct (Hone w2 Huu E1 E2 E3 (re_coherent _ _ R1) Ho eq_refl) as (R3 & V3 & U3). apply (Hfin w2 _ R3 V3 U3) in Hrun; [done|].
    intros x. rewrite Hq, <- M1. destruct o as [t0|]; [by injection Et as <- <-|]. by apply on_tracker_eq in Et as (s1 & _ & ->).
Qed.

(** C18: A restart resumes deletions.  When [initialize] returns, every fence of the
    registry that names its owner, and whose task is pending or running, has a message
    in the queue; the registry is unchanged, no stored task record changed, and no task
    got a second message. *)
Theorem restart_resumes_deletions (uuid4 : nat -> pystr) (w w' : W) :
  (forall i, uuid4 i <> []) -> coherent (tk w) -> initialize json_loads json_dumps render path clock uuid4 w = (Ok tt, w') ->
  (forall a us d, (a, us, d) ∈ iter_user_deletions (registry w) -> owned_fence d -> unfinished (tk w') d -> del_task_id d ∈ ids w')
  /\ keys w' = keys w /\ grows (tk w) (tk w') /\ (NoDup (ids w) -> NoDup (ids w')) /\ coherent (tk w').
Proof.
  intros Huu Hc. unfold initialize. rewrite st_bind_unfold. destruct (bind_guard w) as [[[]|] w0] eqn:E0; [|done]. injection E0 as <-. set (w0 := NamedQueue.set_owner _ w).
  rewrite st_bind_unfold. destruct (queue_snapshot json_loads path w0) as [[l|] w1] eqn:Es; [|done]. apply snapshot_run in Es as (Ho & Hv & Hl). specialize (Hl l eq_refl) as ->.
  rewrite st_bind_unfold. destruct (bind_consumer w1) as [[[]|] w2] eqn:E2; [|done]. injection E2 as <-. set (w2 := NamedQueue.set_owner _ w1).
  rewrite st_bind_unfold. cbn [st_gets]. intros Hrun.
  assert (tk w2 = tk w /\ keys w2 = keys w /\ msgs w2 = msgs w) as (T2 & K2 & M2) by (unfold w2; cbn; rewrite Ho, Hv; done).
  assert (msgs w0 = msgs w) as M0 by done. rewrite M0 in Hrun.
  destruct (reconcile_resumes _ _ _ _ _ _ Huu ltac:(by rewrite T2) ltac:(by rewrite M2) Hrun) as [[K C G _ N] Hin]. rewrite T2 in G. rewrite M2 in N. rewrite K2 in K.
  split_and!; try done. intros a us d Hd. apply (Hin a us d). unfold registry in *. by rewrite K2.
Qed.
End queueing.
