(* ===== verification/UserDeletionRuns.v ===== *)
(** Runs of user deletion in memory: stores and a queue that keep the promises its
    theorems assume, the theorems applied there, and uploads the cleanup trips over. *)
From Stdlib Require Import NArith ZArith.
From S2P Require Import Prelude PyStr PyVal PyBytes WireJson Identifiers Namespace TaskRecord WorkIndex TaskTracker TaskTrackerTheory TaskOutcome TaskErasure NamedQueue NamedQueueTheory ApiKeys ApiKeysTheory Watch WatchTheory WatchRuns UserDeletion UserDeletionTheory UserDeletionQueue.

Open Scope N_scope.

Definition json_loads (s : pystr) : option pyval := match wire_loads s with Ok v => Some v | Err _ => None end.
Definition json_dumps (d : pydict) : pystr := wire (VDict d).
Definition render (_ : pyval) : pystr := u "x".

Lemma json_roundtrip v : json_loads (wire v) = Some v.
Proof. unfold json_loads. by rewrite wire_roundtrip. Qed.

Lemma render_str v : py_truthy v = true -> py_str render v <> [].
Proof. destruct v; cbn; try done. by intros H%nonempty_true. Qed.

(** ** Stores in memory *)

(** Users with files, vectors, tokens and usage; uploads with the text of their
    metadata, and whether metadata can be read at the moment. *)
Record stores := MkStores {
  x_files : list (pystr * pystr); x_vectors : list (pystr * pystr); x_tokens : list (pystr * pystr); x_usage : list (pystr * pystr);
  x_uploads : list (pystr * pystr) }.

Definition without (a us : pystr) (l : list (pystr * pystr)) : list (pystr * pystr) := filter (fun p => p <> (a, us)) l.
Definition without_key (uri : pystr) (l : list (pystr * pystr)) : list (pystr * pystr) := filter (fun p => p.1 <> uri) l.

Definition rm (uri : pystr) (ctx : RequestContext) (x : stores) : stores :=
  MkStores (if seqb uri (canonical_user_root ctx) then without (ctx_account_id ctx) (ctx_user_id ctx) (x_files x) else x_files x)
    (x_vectors x) (x_tokens x) (x_usage x) (without_key uri (x_uploads x)).

(** The metadata of the upload whose file this is. *)
Fixpoint metadata (p : pystr) (l : list (pystr * pystr)) : result pystr :=
  match l with
  | [] => Err NotFoundError
  | (uri, text) :: l => if seqb (uri ++ u "/meta") p then Ok text else metadata p l
  end.

Definition stores_ops (readable : bool) : Backends stores := {|
  bk_rm uri ctx x := (Ok tt, rm uri ctx x);
  bk_ls _ _ x := (Ok ((fun p => [(u "uri", VStr p.1); (u "isDir", VBool true)]) <$> x_uploads x), x);
  bk_read_file p _ x := (if readable then metadata p (x_uploads x) else Err OtherError, x);
  bk_delete_vectors := Some (fun a us _ x => (Ok tt, MkStores (x_files x) (without a us (x_vectors x)) (x_tokens x) (x_usage x) (x_uploads x)));
  bk_revoke_tokens := Some (fun a us x => (Ok tt, MkStores (x_files x) (x_vectors x) (without a us (x_tokens x)) (x_usage x) (x_uploads x)));
  bk_delete_usage := Some (fun a us x => (Ok tt, MkStores (x_files x) (x_vectors x) (x_tokens x) (without a us (x_usage x)) (x_uploads x))) |}.
#[local] Instance sound_stores : Backends stores := stores_ops true.

Definition of_kind (k : store_kind) (x : stores) : list (pystr * pystr) :=
  match k with Files => x_files x | Vectors => x_vectors x | Tokens => x_tokens x | Usage => x_usage x end.

(** An upload directory with metadata that names its owner. *)
Definition uploaded (x : stores) (uri a us : pystr) : Prop :=
  (exists id, uri = SHARED_UPLOAD_ROOT ++ u "/" ++ id /\ id <> [] /\ c_slash ∉ id)
  /\ exists text meta, dict_get (x_uploads x) uri = Some text /\ json_loads text = Some (VDict meta)
       /\ get_or_none meta (u "account") = VStr a /\ get_or_none meta (u "user") = VStr us.

Lemma dict_get_without uri uri' l : dict_get (without_key uri l) uri' = if seqb uri uri' then None else dict_get l uri'.
Proof.
  induction l as [|[k v] l IH]; [by destruct (seqb uri uri')|]. unfold without_key in *. rewrite filter_cons. cbn [fst].
  destruct (decide (k <> uri)) as [Hne|He]; cbn [dict_get].
  - rewrite IH. destruct (seqb k uri') eqn:E; [|done]. apply seqb_true in E as ->. by rewrite (proj2 (seqb_false uri uri')) by congruence.
  - rewrite IH. apply dec_stable in He as ->. by destruct (seqb uri uri').
Qed.

Lemma metadata_get uri l : metadata (uri ++ u "/meta") l = match dict_get l uri with Some text => Ok text | None => Err NotFoundError end.
Proof.
  induction l as [|[k v] l IH]; cbn [metadata dict_get]; [done|]. destruct (seqb k uri) eqn:E.
  - apply seqb_true in E as ->. by rewrite (proj2 (seqb_true _ _) eq_refl).
  - rewrite (proj2 (seqb_false _ _)); [done|]. intros H%app_inv_tail. apply seqb_false in E. done.
Qed.

Lemma without_clean a us l : (a, us) ∉ without a us l.
Proof. intros [H _]%list_elem_of_filter. done. Qed.
Lemma without_kept a us a' us' l : (a, us) ∉ l -> (a, us) ∉ without a' us' l.
Proof. intros H [_ H']%list_elem_of_filter. done. Qed.

Lemma other_step_uploads (x x' : stores) uri a us : other_step x x' -> uploaded x' uri a us <-> uploaded x uri a us.
Proof.
  intros H. destruct H as [| |ctx|f a0 us0 ctx [= <-]|f a0 us0 [= <-]|f a0 us0 [= <-]]; try done. unfold uploaded. cbn.
  split; intros [(id & -> & Hne & Hs) H]; (split; [by exists id|]); rewrite dict_get_without in *;
    rewrite (proj2 (seqb_false _ _)) in * by (unfold canonical_user_root, SHARED_UPLOAD_ROOT; done); done.
Qed.

#[local] Instance sound_stores_ok : BackendsOk stores json_loads.
Proof.
  refine {| bk_clean := fun k a us x => (a, us) ∉ of_kind k x; bk_upload := uploaded |}.
  - intros ctx x x' [= <-]. cbn. rewrite (proj2 (seqb_true _ _) eq_refl). apply without_clean.
  - intros f a us ctx x x' [= <-] [= <-]. apply without_clean.
  - intros f a us x x' [= <-] [= <-]. apply without_clean.
  - intros f a us x x' [= <-] [= <-]. apply without_clean.
  - intros k a us x x' H Hc. destruct H as [| |ctx|f a0 us0 ctx [= <-]|f a0 us0 [= <-]|f a0 us0 [= <-]]; destruct k; cbn in *; try done; try by apply without_kept.
    rewrite (proj2 (seqb_true _ _) eq_refl). by apply without_kept.
  - intros k a us uri ctx x Hc. destruct k; cbn in *; try done. destruct (seqb _ _); [by apply without_kept|done].
  - intros x x' uri a us. apply other_step_uploads.
  - intros uri ctx x uri' a us [Hs H]. split; [done|]. cbn in H. rewrite dict_get_without in H. by destruct (seqb uri uri'); [destruct H as (? & ? & [=] & _)|].
  - intros uri ctx x x' uri' a us [= <-]. unfold uploaded. cbn. rewrite dict_get_without. destruct (seqb uri uri') eqn:E.
    + apply seqb_true in E as ->. split; [intros [_ (? & ? & [=] & _)]|by intros [_ ?]].
    + apply seqb_false in E. split; [intros H; split; [done|congruence]|by intros [H _]].
  - intros ctx x l x' uri us [= <- <-] [(id & -> & Hne & Hs) (text & meta & Hg & _)]. exists [(u "uri", VStr (SHARED_UPLOAD_ROOT ++ u "/" ++ id)); (u "isDir", VBool true)], id. split_and!; try done.
    apply list_elem_of_fmap. exists (SHARED_UPLOAD_ROOT ++ u "/" ++ id, text). split; [done|]. by apply dict_get_elem.
  - intros ctx x x' uri us [=].
  - intros ctx x uri a us text [_ (text' & meta & Hg & Hj & Ha & Hu)]. cbn. rewrite metadata_get, Hg. intros [= <-]. by exists meta.
Defined.

(** ** A queue in memory *)

Definition path : pystr := u "/q".
Definition envelope (p : pystr * pystr) : pyval := VDict [(u "id", VStr p.1); (u "data", VStr p.2)].

(** An id longer than every id in the queue. *)
Definition next_id (f : list (pystr * pystr)) : pystr := replicate (S (foldr Nat.max 0%nat (length ∘ fst <$> f))) 49.

Lemma next_id_fresh f : next_id f ∉ (fst <$> f).
Proof.
  intros (p & Hp & Hin)%list_elem_of_fmap. assert (forall l n, n ∈ l -> n <= foldr Nat.max 0 l)%nat as Hmax.
  { induction l as [|m l IH]; intros n Hn; [by apply elem_of_nil in Hn|]. cbn. apply elem_of_cons in Hn as [->|Hn]; [lia|]. specialize (IH n Hn). lia. }
  specialize (Hmax (length ∘ fst <$> f) (length p.1)). apply (f_equal length) in Hp. unfold next_id in Hp. rewrite length_replicate in Hp.
  assert (length p.1 ∈ (length ∘ fst <$> f)) as Hin' by (apply list_elem_of_fmap; by exists p). specialize (Hmax Hin'). lia.
Qed.

#[local] Instance mem_queue : QueueFS (list (pystr * pystr)) := {|
  qf_mkdir f _ := (Ok tt, f);
  qf_write f p raw :=
    match utf8_decode raw with
    | Err e => (Err e, f)
    | Ok text =>
        if seqb p (leaf_path path "enqueue") then (Ok (next_id f), f ++ [(next_id f, text)])
        else if seqb p (leaf_path path "ack") then (Ok [], without_key text f)
        else if seqb p (leaf_path path "clear") then (Ok [], [])
        else (Err NotFoundError, f)
    end;
  qf_read f p :=
    (Ok (if seqb p (leaf_path path "messages") then CText (wire (VList (envelope <$> f)))
         else if seqb p (leaf_path path "dequeue") then match f with m :: _ => CText (wire (envelope m)) | [] => CNone end
         else CNone), f) |}.

Definition messages_of (f : list (pystr * pystr)) : list (pystr * pyval) := (fun p => (p.1, envelope p)) <$> f.

Lemma messages_without i f : messages_of (without_key i f) = filter (fun im => fst im <> i) (messages_of f).
Proof.
  unfold messages_of, without_key. induction f as [|p f IH]; [done|]. rewrite filter_cons. cbn [fmap list_fmap]. rewrite filter_cons. cbn [fst].
  destruct (decide (p.1 <> i)); cbn [fmap list_fmap]; by rewrite IH.
Qed.

#[local] Instance mem_queue_ok : QueueFSOk (list (pystr * pystr)) path json_loads.
Proof.
  refine {| qf_view := messages_of |}.
  - by intros f p r f' [= _ <-].
  - by intros f p r f' [= _ <-].
  - intros f text raw i f' Ht. cbn [qf_write mem_queue]. rewrite (utf8_roundtrip _ _ Ht). eval_seqb. intros [= <- <-].
    split; [|exists [(u "id", VStr (next_id f)); (u "data", VStr text)]; by unfold messages_of; rewrite fmap_app].
    intros (p & Hp & Hin)%list_elem_of_fmap. apply list_elem_of_fmap in Hin as (q & -> & Hq). apply (next_id_fresh f). apply list_elem_of_fmap. by exists q.
  - intros f text raw e f' _. cbn [qf_write mem_queue]. destruct (utf8_decode raw); eval_seqb; intros [= _ <-]; by left.
  - intros f i raw x f' Hi. cbn [qf_write mem_queue]. rewrite (utf8_roundtrip _ _ Hi). eval_seqb. intros [= _ <-]. apply messages_without.
  - intros f raw e f'. cbn [qf_write mem_queue]. destruct (utf8_decode raw); eval_seqb; by intros [= _ <-].
  - intros f x f'. cbn [qf_write mem_queue]. destruct (utf8_decode []) eqn:E; [|by vm_compute in E]. eval_seqb. by intros [= _ <-].
  - intros f e f'. cbn [qf_write mem_queue]. destruct (utf8_decode []) eqn:E; [|by vm_compute in E]. by eval_seqb.
  - intros f c f' raw text m. cbn [qf_read mem_queue]. eval_seqb. destruct f as [|p f]; [by intros [= <- <-]|]. remember (wire (envelope p)) as s eqn:Es. intros [= <- <-] _ _ Hb Ht Hj.
    cbn [content_bytes] in Hb. rewrite (utf8_roundtrip _ _ Hb) in Ht. injection Ht as <-. rewrite Es, json_roundtrip in Hj. injection Hj as <-.
    exists p.1. split; [left|done].
  - intros f c f' text l m. cbn [qf_read mem_queue]. eval_seqb. remember (wire (VList (envelope <$> f))) as s eqn:Es. intros [= <- <-] _ Ht Hj Hm.
    cbn in Ht. injection Ht as <-. rewrite Es, json_roundtrip in Hj. injection Hj as <-.
    apply list_elem_of_fmap in Hm as (p & -> & Hp). exists p.1. unfold messages_of. apply list_elem_of_fmap. by exists p.
Defined.

#[local] Instance mem_snapshot_ok : SnapshotOk (list (pystr * pystr)) path json_loads.
Proof.
  split.
  - intros f c f'. cbn [qf_read mem_queue]. eval_seqb. by intros [= <- <-].
  - intros f f'. cbn [qf_read mem_queue]. done.
  - intros f c f' text v. cbn [qf_read mem_queue]. eval_seqb. remember (wire (VList (envelope <$> f))) as s eqn:Es. intros [= <- <-] _ [= <-] Hj. rewrite Es, json_roundtrip in Hj. injection Hj as <-.
    f_equal. cbn. unfold messages_of. rewrite <- list_fmap_compose. done.
Qed.

(** ** Bob's deletion *)

#[local] Existing Instance wire_env.
#[local] Existing Instance sound_fs.
#[local] Existing Instance KeyRuns.files.
#[local] Existing Instance KeyRuns.files_laws.

Definition bob : pystr := u "bob".
Definition alice : pystr := u "alice".

(** A finished task of bob is on record. *)
Definition old_task : TaskRecord :=
  TaskRecord.MkTask (u "t1") (u "session_commit") COMPLETED 5 6 None (Some acme) (Some bob) [] None (Some []) None [].
Definition tracked : tracker MapStore.store := MkTracker [(u "t1", old_task)] {[(acme, bob, u "t1") := task_to_payload old_task]} empty_index.

Lemma tracked_coherent : coherent tracked.
Proof.
  split.
  - apply NoDup_singleton.
  - intros i t. cbn [tk_tasks tracked dict_get]. destruct (seqb (u "t1") i) eqn:E; [|done]. apply seqb_true in E as <-. intros [= <-]. split; [done|].
    exists acme, bob. split_and!; try done.
  - intros a x i p. cbn [tk_store tracked ts_view MapStore.store_ok]. intros [[= <- <- <-] <-]%lookup_singleton_Some.
    exists old_task. split_and!; done.
Qed.

Lemma tracked_unique : unique_keys tracked.
Proof.
  intros a x a' x' i. cbn [tk_store tracked ts_view MapStore.store_ok]. intros [p [[= <- <- _] _]%lookup_singleton_Some] [p' [[= <- <- _] _]%lookup_singleton_Some]. done.
Qed.

(** A watch of bob. *)
Definition watched : Watch.manager mem := (create_task (u "w1") 1000 1001 (args docs_a bob) start).2.

Lemma watched_wf : wf (mg_watch watched).
Proof. apply (create_keeps (u "w1") 1000 1001 (args docs_a bob) start); [apply empty_watch_wf|done|done]. Qed.

Definition meta_of (user : pystr) : pystr := wire (VDict [(u "account", VStr acme); (u "user", VStr user)]).
Definition upload (id : string) : pystr := SHARED_UPLOAD_ROOT ++ u "/" ++ u id.
Definition filled : stores :=
  MkStores [(acme, alice); (acme, bob)] [(acme, bob)] [(acme, bob)] [(acme, bob)] [(upload "u1", meta_of bob); (upload "u2", meta_of alice)].

(** The service in front of registry [k]. *)
Definition service (k : ApiKeys.manager KeyRuns.mem) (x : stores) : queue (site MapStore.store KeyRuns.mem mem stores) (list (pystr * pystr)) :=
  MkQueue (MkSite tracked k (Some watched) x false false) [] false 0 0 0 0 [].

Definition fence : deletion := MkDeletion (u "t9") acme alice.
Definition fenced_keys : ApiKeys.manager KeyRuns.mem := (begin_user_deletion acme bob fence KeyRuns.with_bob).2.
Definition message : DeletionMessage := MkDelMessage (u "t9") acme alice acme bob.

Definition clock (n : nat) : stamp := (second * Z.of_nat (1000 + n))%Z.
Definition idle_others (_ _ : nat) (s : tracker MapStore.store) : tracker MapStore.store := s.
Abbreviation run := (process json_loads render clock clock (fun _ => 3%nat) idle_others (u "t0") message).

Definition site0 := service fenced_keys filled.
Definition outcome0 := run site0.

Example bob_removed : outcome0.1 = Ok None
  /\ has_user (registry outcome0.2) acme bob = false /\ has_user (registry outcome0.2) acme alice = true
  /\ x_files (s_rest (q_owner outcome0.2)) = [(acme, alice)] /\ x_uploads (s_rest (q_owner outcome0.2)) = [(upload "u2", meta_of alice)].
Proof. split_and!; vm_compute; reflexivity. Qed.

Lemma with_bob_reachable : reachable KeyRuns.hashed KeyRuns.with_bob.
Proof. apply (reach_op KeyRuns.hashed (KRegister KeyRuns.d2 (u "acme") (u "bob") USER None)); [apply KeyRuns.acme_reachable|done]. Qed.

Lemma fenced_dicts : dicts (ApiKeys.mg_ring fenced_keys).
Proof.
  intros a account. apply wr_users. apply (begin_user_deletion_keeps acme bob fence KeyRuns.with_bob); [|by intros e [=]].
  apply (reachable_wf KeyRuns.hashed (KeyRuns.env_ok true)), with_bob_reachable.
Qed.

Lemma watches_ok_some (m : Watch.manager mem) : wf (mg_watch m) -> watches_ok (Some m).
Proof. by intros H m' [= <-]. Qed.

Lemma service_ready k x : dicts (ApiKeys.mg_ring k) -> ready message (service k x).
Proof.
  intros Hk. split; [done|exact tracked_coherent|exact tracked_unique| |exact Hk|exact (watches_ok_some watched watched_wf)].
  intros a us. cbn [q_owner service s_tracker tk_store tracked ts_view MapStore.store_ok]. by intros [p [[= _ _ ?] _]%lookup_singleton_Some].
Qed.

Lemma site_ready x : ready message (service fenced_keys x).
Proof. exact (service_ready fenced_keys x fenced_dicts). Qed.

Lemma idle_others_ok (i j : nat) (s : tracker MapStore.store) : coherent s -> coherent (idle_others i j s) /\ keeps_unique s (idle_others i j s).
Proof. intros Hc. split; [done|]. intros H. exact H. Qed.

Lemma removed_after_erasure_witness : nothing_left json_loads filled acme bob outcome0.2 /\ (forall err, outcome0.1 <> Ok (Some err)).
Proof.
  destruct (removed_after_erasure json_loads render clock clock (fun _ => 3%nat) idle_others idle_others_ok (u "t0") message site0 outcome0.2 outcome0.1
    (site_ready filled)) as (_ & H1 & _ & H2); [exact (surjective_pairing outcome0)|by eexists; vm_compute; reflexivity|vm_compute; reflexivity|]. by split.
Defined.

(** Metadata that is JSON but no object: every deletion in the account fails. *)
Definition odd_uploads : stores := MkStores [(acme, bob)] [] [] [] [(upload "u3", wire (VList []))].
Definition site2 := service fenced_keys odd_uploads.
Definition outcome1 := run site2.

Example odd_metadata_blocks_deletion : outcome1.1 = Ok (Some (u "User cleanup failed at stages: uploads")) /\ is_user_deleting (registry outcome1.2) acme bob = true.
Proof. split; vm_compute; reflexivity. Qed.

Lemma failed_deletion_keeps_fence_witness : exists err, outcome1.1 = Ok (Some err) /\ get_user (registry outcome1.2) acme bob = get_user (registry site2) acme bob.
Proof.
  assert (outcome1.1 = Ok (Some (u "User cleanup failed at stages: uploads"))) as Hr by (vm_compute; reflexivity).
  exists (u "User cleanup failed at stages: uploads"). split; [exact Hr|]. revert Hr. generalize (u "User cleanup failed at stages: uploads"). intros err Hr.
  pose proof (failed_deletion_keeps_fence json_loads render clock clock (fun _ => 3%nat) idle_others idle_others_ok (u "t0") message site2) as H.
  unfold outcome1 in *. match type of H with forall w e, _ -> ?p = _ -> _ => set (q := p) in * end. clearbody q.
  exact (proj1 (H q.2 err (site_ready odd_uploads) (KeyRuns.pair_ok q (Some err) Hr)) acme bob).
Defined.

(** Metadata that cannot be read for the moment is skipped: the deletion completes, and
    bob's upload stays. *)
Definition blind := process (BK := stores_ops false) json_loads render clock clock (fun _ => 3%nat) idle_others (u "t0") message site0.

Example unreadable_upload_survives : blind.1 = Ok None /\ has_user (registry blind.2) acme bob = false
  /\ dict_get (x_uploads (s_rest (q_owner blind.2))) (upload "u1") = Some (meta_of bob).
Proof. split_and!; vm_compute; reflexivity. Qed.

(** ** Requests *)

Definition admin_ctx : RequestContext := MkCtx (MkUser acme alice) ADMIN [] None false None false.
Definition site1 := service KeyRuns.with_bob filled.
Definition requested := delete_user json_loads json_dumps render path clock (u "t9") (u "t8") (u "t7") (u "w9") acme bob admin_ctx site1.

Lemma deletion_request_durable_witness : is_user_deleting (registry requested.2) acme bob = true /\ requested.1 = Ok (u "t9")
  /\ queued_ids json_loads render (snd <$> qf_view (q_fs requested.2)) = [u "t9"]
  /\ forall key id, resolve KeyRuns.hashed (registry requested.2) key = Ok id -> id_account_id id = Some acme -> id_user_id id <> Some bob.
Proof.
  destruct (deletion_request_durable json_loads json_dumps render path clock (fun d => json_roundtrip (VDict d)) render_str KeyRuns.hashed
    (u "t9") (u "t8") (u "t7") (u "w9") acme bob (u "t9") admin_ctx site1 requested.2 tracked_coherent) as (d & Hd & _ & _ & _ & _ & Hk & _); [done..| |].
  { apply KeyRuns.pair_ok. vm_compute. reflexivity. }
  split_and!; [|vm_compute; reflexivity|vm_compute; reflexivity|exact (Hk (KeyRuns.env_ok true) with_bob_reachable)]. unfold is_user_deleting. by rewrite Hd.
Defined.

(** From the request to the end: the worker takes the message, and both are gone. *)
Example request_then_worker :
  let done := (consume json_loads (fun _ => []) render path clock clock (fun _ => 3%nat) idle_others (u "t0") (Some 1) requested.2) in
  done.1 = Ok None /\ has_user (registry done.2) acme bob = false /\ q_fs done.2 = [] /\ q_processed done.2 = 1%Z /\ q_error_count done.2 = 0%Z.
Proof. cbn zeta. split_and!; vm_compute; reflexivity. Qed.

Lemma deletion_message_roundtrip_witness : exists m, parse_message json_loads (fun _ => []) render m = inr message.
Proof.
  destruct (deletion_message_roundtrip json_loads json_dumps (fun _ => []) render path clock (fun d => json_roundtrip (VDict d)) render_str (u "w1") (u "t9") acme alice acme bob
    (u "1") site1 (queue_enqueue json_loads json_dumps render path clock (u "w1") (deletion_message (u "t9") acme alice acme bob) site1).2) as (m & _ & Hm & _); [done..| |by exists m].
  apply KeyRuns.pair_ok. vm_compute. reflexivity.
Defined.

(** ** Restart *)

Definition restart := initialize json_loads json_dumps render path clock (fun n => 97 :: replicate n 98) site0.

Lemma restart_resumes_deletions_witness : u "t9" ∈ queued_ids json_loads render (snd <$> qf_view (q_fs restart.2)).
Proof.
  destruct (restart_resumes_deletions json_loads json_dumps (fun _ => []) render path clock (fun d => json_roundtrip (VDict d)) render_str (fun n => 97 :: replicate n 98) site0 restart.2) as (H & _); [done|apply tracked_coherent| |].
  { apply KeyRuns.pair_ok. vm_compute. reflexivity. }
  apply (H acme bob fence); [|by split_and!|].
  - vm_compute. left.
  - exists (TaskRecord.MkTask (u "t9") TASK_TYPE PENDING (clock 1) (clock 2) (Some (u "acme/bob")) (Some acme) (Some alice) [] None None None []).
    split; [vm_compute; reflexivity|left].
Defined.
