(* ===== verification/Overview.v ===== *)
(** Generated overviews: the [.abstract.md] and [.overview.md] files beside a directory's
    contents, of [storage/abstract_overview.py], and the policy that decides when a
    directory is summarized again, of [storage/queuefs/semantic_ops/freshness_policy.py].

    Both files of a directory are read and written under one lock.  They hold a YAML header
    with the directory, the source, the generator and the counters of changes since the last
    summary, and a Markdown body. *)
From Stdlib Require Import NArith ZArith SpecFloat.
From S2P Require Import Prelude Effects PyStr PyVal Identifiers WorkIndex Message.

Open Scope N_scope.

(** ** Lines *)

(** Where [str.splitlines] ends a line. *)
Definition line_breaks : list N := [10; 11; 12; 13; 28; 29; 30; 133; 8232; 8233].
Definition is_break (c : N) : bool := bool_decide (c ∈ line_breaks).

(** [text.splitlines(keepends=True)]; a carriage return before a line feed stays with it. *)
Fixpoint splitlines (s : pystr) : list pystr :=
  match s with
  | [] => []
  | c :: r =>
      if is_break c && negb ((c =? 13) && match r with d :: _ => d =? c_nl | [] => false end)
      then [c] :: splitlines r
      else match splitlines r with [] => [[c]] | l :: ls => (c :: l) :: ls end
  end.

(** The characters of [rstrip("\r\n")], and a line that delimits the header. *)
Definition is_crlf (c : N) : bool := (c =? 13) || (c =? c_nl).
Definition FENCE : pystr := u "---".
Definition is_fence (line : pystr) : bool := seqb (rstrip is_crlf line) FENCE.

(** The lines before and after the first that closes the header. *)
Fixpoint closing (lines : list pystr) : option (list pystr * list pystr) :=
  match lines with
  | [] => None
  | l :: ls => if is_fence l then Some ([], ls) else '(front, rest) ← closing ls; Some (l :: front, rest)
  end.

(** [text.replace("\r\n", "\n").replace("\r", "\n")]. *)
Fixpoint unix_lines (s : pystr) : pystr :=
  match s with
  | c :: r => if c =? 13 then match r with d :: r' => c_nl :: (if d =? c_nl then unix_lines r' else unix_lines r) | [] => [c_nl] end
              else c :: unix_lines r
  | [] => []
  end.

(** [uri.rstrip("/").rsplit("/", 1)]: the last segment and what precedes it. *)
Definition uri_name (uri : pystr) : pystr := default [] (last (split c_slash (rstrip is_slash uri))).
Definition uri_dir (uri : pystr) : pystr :=
  match split c_slash (rstrip is_slash uri) with [only] => only | l => join [c_slash] (removelast l) end.

Definition ABSTRACT_NAME : pystr := u ".abstract.md".
Definition OVERVIEW_NAME : pystr := u ".overview.md".
Definition is_abstract_overview_uri (uri : pystr) : bool := mem (uri_name uri) [ABSTRACT_NAME; OVERVIEW_NAME].

(** ** The metadata *)

(** Counters over the direct children of a directory. *)
Record counters := MkCounters { total_entries : Z; sampled_entries : Z; unsampled_entries : Z; pending_child_changes : Z }.

(** What [_normalize_metadata] lets through: pairs of kind and URI, and of component and
    trigger. *)
Record metadata := MkMetadata {
  md_directory : option pystr;
  md_source : option (pystr * pystr);
  md_generated_by : option (pystr * pystr);
  md_freshness : option counters }.

#[export] Instance counters_eq_dec : EqDecision counters.
Proof. solve_decision. Defined.
#[export] Instance metadata_eq_dec : EqDecision metadata.
Proof. solve_decision. Defined.

Record document := MkDocument { doc_metadata : metadata; doc_body : pystr; doc_legacy : bool }.

Definition no_metadata : metadata := MkMetadata None None None None.

(** A pair under two keys, and the counters, as the dicts they are in a document. *)
Definition pair_dict (k k' : string) (p : pystr * pystr) : pyval := VDict [(u k, VStr p.1); (u k', VStr p.2)].
Definition counters_dict (c : counters) : pydict :=
  [(u "total_entries", VInt (total_entries c)); (u "sampled_entries", VInt (sampled_entries c));
   (u "unsampled_entries", VInt (unsampled_entries c)); (u "pending_child_changes", VInt (pending_child_changes c))].
Definition metadata_dict (m : metadata) : pydict :=
  present [(u "directory", VStr <$> md_directory m); (u "source", pair_dict "kind" "uri" <$> md_source m);
           (u "generated_by", pair_dict "component" "trigger" <$> md_generated_by m);
           (u "freshness", (fun c => VDict (counters_dict c)) <$> md_freshness m)].

Definition VIKING : pystr := u "viking://".

(** [_normalize_directory_uri]. *)
Definition normalize_directory_uri (dir_uri : pystr) : result pystr :=
  let value := strip is_space dir_uri in
  if negb (nonempty value) then Err ValueError
  else if negb (startswith VIKING value) then Err ValueError
  else Ok (rstrip is_slash value ++ [c_slash]).

(** [_bounded_string]. *)
Definition bounded_string (limit : nat) (v : pyval) : result pystr :=
  match v with
  | VStr s => if negb (nonempty (strip is_space s)) then Err ValueError
              else if (limit <? length (strip is_space s))%nat then Err ValueError
              else Ok (strip is_space s)
  | _ => Err ValueError
  end.

Definition MAX_SOURCE_URI_CHARS : nat := N.to_nat 4096.
Definition MAX_LABEL_CHARS : nat := 128.

(** A mapping with two required keys, each a bounded string. *)
Definition normalize_pair (k k' : string) (limit limit' : nat) (v : pyval) : result (option (pystr * pystr)) :=
  match v with
  | VNone => Ok None
  | VDict d =>
      match dict_get d (u k), dict_get d (u k') with
      | Some a, Some b => a ← bounded_string limit a; b ← bounded_string limit' b; Ok (Some (a, b))
      | _, _ => Err ValueError
      end
  | _ => Err ValueError
  end.

(** A counter: an integer that is no truth value and not negative. *)
Definition normalize_count (v : pyval) : result Z :=
  match v with VInt z => if (z <? 0)%Z then Err ValueError else Ok z | _ => Err ValueError end.

Definition normalize_freshness (v : pyval) : result (option counters) :=
  match v with
  | VNone => Ok None
  | VDict d =>
      match dict_get d (u "total_entries"), dict_get d (u "sampled_entries"), dict_get d (u "unsampled_entries"),
            dict_get d (u "pending_child_changes") with
      | Some t, Some s, Some n, Some p =>
          t ← normalize_count t; s ← normalize_count s; n ← normalize_count n; p ← normalize_count p;
          if (s + n =? t)%Z then Ok (Some (MkCounters t s n p)) else Err ValueError
      | _, _, _, _ => Err ValueError
      end
  | _ => Err ValueError
  end.

(** ** What documents are given *)

(** PyYAML's [safe_load] ([None] for a [YAMLError]) and [safe_dump] on the values a JSON
    document can hold, [str] of values that are not strings, and SHA-256 as hexadecimal
    text. *)
Class OverviewEnv := {
  yaml_load : pystr -> option pyval;
  yaml_dump : pydict -> pystr;
  value_text : pyval -> pystr;
  sha256_hex : pystr -> pystr }.

Section documents.
Context {env : OverviewEnv}.

(** [_normalize_metadata]. *)
Definition normalize_metadata (d : pydict) : result metadata :=
  dir ← match dict_get d (u "directory") with
        | Some v => dir ← normalize_directory_uri (match v with VStr s => s | v => value_text v end); Ok (Some dir)
        | None => Ok None
        end;
  source ← normalize_pair "kind" "uri" MAX_LABEL_CHARS MAX_SOURCE_URI_CHARS (get_or_none d (u "source"));
  generated ← normalize_pair "component" "trigger" MAX_LABEL_CHARS MAX_LABEL_CHARS (get_or_none d (u "generated_by"));
  fresh ← normalize_freshness (get_or_none d (u "freshness"));
  Ok (MkMetadata dir source generated fresh).

(** The body after the header: one line end is dropped. *)
Definition drop_line_end (body : pystr) : pystr :=
  match body with
  | c :: r => if c =? c_nl then r else if c =? 13 then match r with d :: r' => if d =? c_nl then r' else body | [] => body end else body
  | [] => []
  end.

(** [parse_abstract_overview] of a text. *)
Definition parse_abstract_overview (text : pystr) : result document :=
  match splitlines text with
  | first :: rest =>
      if is_fence first then
        match closing rest with
        | None => Err ValueError
        | Some (front, after) =>
            loaded ← match yaml_load (concat front) with
                     | Some (VDict d) => Ok d
                     | Some VNone => Ok []
                     | _ => Err ValueError
                     end;
            match dict_get loaded (u "directory") with
            | None => Err ValueError
            | Some _ => m ← normalize_metadata loaded; Ok (MkDocument m (drop_line_end (concat after)) false)
            end
        end
      else Ok (MkDocument no_metadata text true)
  | [] => Ok (MkDocument no_metadata text true)
  end.

Inductive ContextLevel := ABSTRACT | OVERVIEW | DETAIL.

(** A header and a body, as [render_abstract_overview] and [body_for_embedding] put them
    together. *)
Definition fenced (header : pydict) (body : pystr) : pystr :=
  FENCE ++ [c_nl] ++ rstrip is_space (yaml_dump header) ++ [c_nl] ++ FENCE ++ [c_nl; c_nl] ++ strip is_space body.

(** [render_abstract_overview]. *)
Definition render_abstract_overview (level : ContextLevel) (dir_uri body : pystr) (md : pydict) : result pystr :=
  match level with
  | DETAIL => Err ValueError
  | _ =>
      dir ← normalize_directory_uri dir_uri;
      m ← normalize_metadata (dict_set md (u "directory") (VStr dir));
      Ok (fenced (metadata_dict m) body ++ [c_nl])
  end.

(** [prepare_abstract_overview_write]. *)
Definition prepare_abstract_overview_write (uri current_raw requested_raw mode : pystr) : result pystr :=
  if negb (mem mode [u "replace"; u "append"]) then Err ValueError
  else if negb (is_abstract_overview_uri uri) then Err ValueError
  else
    current ← parse_abstract_overview current_raw;
    requested ← parse_abstract_overview requested_raw;
    if negb (doc_legacy requested) && negb (bool_decide (doc_metadata requested = doc_metadata current)) then Err ValueError
    else
      let body := if seqb mode (u "append") then doc_body current ++ doc_body requested else doc_body requested in
      let level := if seqb (uri_name uri) ABSTRACT_NAME then ABSTRACT else OVERVIEW in
      let dir_uri := match md_directory (doc_metadata current) with Some d => if nonempty d then d else uri_dir uri | None => uri_dir uri end in
      render_abstract_overview level dir_uri body (metadata_dict (doc_metadata current)).

(** [body_for_preview]. *)
Definition body_for_preview (raw : pystr) : result pystr :=
  d ← parse_abstract_overview raw;
  Ok (if doc_legacy d then doc_body d else rstrip is_crlf (doc_body d)).

(** [body_for_embedding]. *)
Definition body_for_embedding (raw : pystr) (whitelist : list pystr) : result pystr :=
  d ← parse_abstract_overview raw;
  let all := metadata_dict (doc_metadata d) in
  let selected := foldl (fun l k => match dict_get all k with Some v => dict_set l k v | None => l end) [] whitelist in
  Ok (match selected with [] => doc_body d | _ => fenced selected (doc_body d) end).

Definition embedding_text_for_body (level : ContextLevel) (dir_uri body : pystr) : result pystr :=
  raw ← render_abstract_overview level dir_uri body [];
  body_for_embedding raw [u "directory"].

(** [semantic_body_digest]. *)
Definition semantic_body_digest (body : pystr) : pystr := sha256_hex (strip is_space (unix_lines body)).

(** [freshness_metadata]. *)
Definition freshness_metadata (total sampled pending : Z) : result counters :=
  m ← normalize_metadata [(u "freshness", VDict (counters_dict (MkCounters total sampled (total - sampled) pending)))];
  match md_freshness m with Some c => Ok c | None => Err KeyError end.
End documents.

(** [deterministic_sample]: positions spread over the whole sequence. *)
Definition deterministic_sample {A} (items : list A) (limit : Z) : list A :=
  let n := Z.of_nat (length items) in
  if (limit <=? 0)%Z then []
  else if (n <=? limit)%Z then items
  else if (limit =? 1)%Z then take 1 items
  else omap (fun i => items !! Z.to_nat (Z.of_nat i * (n - 1) / (limit - 1))) (seq 0 (Z.to_nat limit)).

(** ** The refresh policy *)

Inductive FreshnessAction := NOOP | MARK_PENDING | REFRESH_NOW.
Record FreshnessDecision := MkDecision { fd_action : FreshnessAction; fd_pending_after : Z; fd_total_entries : Z }.

(** [a / b] for a positive [b]: the quotient rounded to a double, ties to even. *)
Definition true_division (a : Z) (b : positive) : result spec_float :=
  let rounded s p :=
    let '(m, e, l) := SFdiv_core_binary 53 1024 (Z.pos p) 0 (Z.pos b) 0 in
    match binary_round_aux 53 1024 s m e l with S754_infinity _ => Err OverflowError | x => Ok x end in
  match a with
  | Z0 => Ok (S754_zero false)
  | Zpos p => rounded false p
  | Zneg p => rounded true p
  end.

(** [decide_parent_refresh]. *)
Definition decide_parent_refresh (l0_body_changed has_freshness_baseline : bool) (total pending_before change_count sample_limit : Z)
    (refresh_ratio : spec_float) (force_refresh : bool) : result FreshnessDecision :=
  if negb l0_body_changed || (change_count <=? 0)%Z then Ok (MkDecision NOOP pending_before total)
  else
    let pending_after := (pending_before + change_count)%Z in
    if negb has_freshness_baseline then Ok (MkDecision REFRESH_NOW pending_after total)
    else if force_refresh || (total <=? sample_limit)%Z then Ok (MkDecision REFRESH_NOW pending_after total)
    else
      change_ratio ← true_division pending_after (Z.to_pos (Z.max total 1));
      Ok (MkDecision (if SFleb refresh_ratio change_ratio then REFRESH_NOW else MARK_PENDING) pending_after total).

(** ** The files *)

(** Reading and writing of files, and the lock on the paths of several URIs; a missing
    file is a [NotFoundError] or a [KeyError]. *)
Class SidecarFS (F : Type) := {
  sc_read : pystr -> ST F pystr;
  sc_write : pystr -> pystr -> ST F unit;
  sc_lock : list pystr -> ST F N;
  sc_unlock : N -> ST F unit }.

Section files.
Context {F : Type} {env : OverviewEnv} {FS : SidecarFS F}.

(** [_raw_if_exists] and [_read_existing_document]. *)
Definition is_missing (e : exn) : bool := match e with KeyError | NotFoundError => true | _ => false end.
Definition raw_if_exists (uri : pystr) : ST F (option pystr) :=
  st_catch is_missing (raw ← sc_read uri; mret (Some raw)) (fun _ => mret None).
Definition read_existing_document (uri : pystr) : ST F (option document) :=
  raw ← raw_if_exists uri;
  match raw with Some raw => d ← st_lift (parse_abstract_overview raw); mret (Some d) | None => mret None end.

(** The two files under a lock that the caller may hold already. *)
Definition with_sidecars {A} (uris : list pystr) (lock : option N) (body : ST F A) : ST F A :=
  match lock with
  | Some _ => body
  | None => lease ← sc_lock uris; st_finally body (sc_unlock lease)
  end.

(** *** Writing a new summary *)

Record write_result := MkWrite { wr_wrote : bool; wr_overview_changed : bool; wr_abstract_changed : bool }.

(** The source of the first existing document that has one, unless one is given. *)
Definition keep_source (md : pydict) (existing : list document) : pydict :=
  match dict_get md (u "source"), head (omap (fun d => md_source (doc_metadata d)) existing) with
  | None, Some s => dict_set md (u "source") (pair_dict "kind" "uri" s)
  | _, _ => md
  end.

(** The larger of the existing counters. *)
Definition pending_of (d : document) : option Z := pending_child_changes <$> md_freshness (doc_metadata d).
Definition current_pending (existing : list document) : Z := foldl Z.max 0%Z (omap pending_of existing).

(** A refresh consumes the changes that were pending when it started. *)
Definition consume (md : pydict) (existing : list document) (consume_pending : option Z) : pydict :=
  match get_or_none md (u "freshness") with
  | VDict f =>
      let current := current_pending existing in
      let consumed := match consume_pending with Some c => Z.max c 0 | None => current end in
      dict_set md (u "freshness") (VDict (dict_set f (u "pending_child_changes") (VInt (Z.max (current - consumed) 0))))
  | _ => md
  end.

Definition option_list {A} (o : option A) : list A := match o with Some a => [a] | None => [] end.

Definition body_changed (existing : option document) (body : pystr) : bool :=
  match existing with
  | Some d => negb (seqb (semantic_body_digest (doc_body d)) (semantic_body_digest body))
  | None => true
  end.

(** [write_file] unless the file holds the text already. *)
Definition write_changed (uri rendered : pystr) (current : option pystr) : ST F unit :=
  if bool_decide (current = Some rendered) then mret tt else sc_write uri rendered.

(** What [write_abstract_overview] does under the lock. *)
Definition write_locked (overview_uri abstract_uri dir_uri overview abstract : pystr) (md : pydict) (consume_pending : option Z)
    : ST F write_result :=
  existing_overview ← read_existing_document overview_uri;
  existing_abstract ← read_existing_document abstract_uri;
  let existing := option_list existing_overview ++ option_list existing_abstract in
  let merged := consume (keep_source md existing) existing consume_pending in
  rendered_overview ← st_lift (render_abstract_overview OVERVIEW dir_uri overview merged);
  rendered_abstract ← st_lift (render_abstract_overview ABSTRACT dir_uri abstract merged);
  current_overview ← raw_if_exists overview_uri;
  current_abstract ← raw_if_exists abstract_uri;
  _ ← write_changed overview_uri rendered_overview current_overview;
  _ ← write_changed abstract_uri rendered_abstract current_abstract;
  mret (MkWrite true (body_changed existing_overview overview) (body_changed existing_abstract abstract)).

(** [write_abstract_overview]; the two answers of [is_stale]. *)
Definition write_abstract_overview (dir_uri overview abstract : pystr) (stale_before stale_locked : bool) (md : pydict) (consume_pending : option Z)
    (lock : option N) : ST F write_result :=
  if stale_before then mret (MkWrite false false false)
  else
    let overview_uri := dir_uri ++ [c_slash] ++ OVERVIEW_NAME in
    let abstract_uri := dir_uri ++ [c_slash] ++ ABSTRACT_NAME in
    with_sidecars [overview_uri; abstract_uri] lock
      (if stale_locked then mret (MkWrite false false false)
       else write_locked overview_uri abstract_uri dir_uri overview abstract md consume_pending).

(** *** Recording changes *)

(** The counters of a document with a header, if it has them. *)
Definition baseline (d : option document) : option counters :=
  match d with Some d => if doc_legacy d then None else md_freshness (doc_metadata d) | None => None end.

(** The file of one level with the counter set. *)
Definition set_pending (level : ContextLevel) (dir_uri uri : pystr) (d : option document) (pending : Z) : ST F unit :=
  match d, baseline d with
  | Some d, Some c =>
      let fresh := dict_set (counters_dict c) (u "pending_child_changes") (VInt pending) in
      rendered ← st_lift (render_abstract_overview level dir_uri (doc_body d)
                            (dict_set (metadata_dict (doc_metadata d)) (u "freshness") (VDict fresh)));
      raw ← raw_if_exists uri;
      write_changed uri rendered raw
  | _, _ => mret tt
  end.

Section planning.
Context (sample_limit : Z) (refresh_ratio : spec_float) (force_refresh : bool).

Definition without_baseline (changed_entries : Z) : result FreshnessDecision :=
  decide_parent_refresh true false 0 0 changed_entries sample_limit refresh_ratio force_refresh.

Definition plan_locked (dir_uri overview_uri abstract_uri : pystr) (changed_entries : Z) : ST F FreshnessDecision :=
  overview ← read_existing_document overview_uri;
  abstract ← read_existing_document abstract_uri;
  match baseline overview, baseline abstract with
  | Some c, Some c' =>
      decision ← st_lift (decide_parent_refresh true true (total_entries c) (Z.max (pending_child_changes c) (pending_child_changes c'))
                            changed_entries sample_limit refresh_ratio force_refresh);
      _ ← set_pending OVERVIEW dir_uri overview_uri overview (fd_pending_after decision);
      _ ← set_pending ABSTRACT dir_uri abstract_uri abstract (fd_pending_after decision);
      mret decision
  | _, _ => st_lift (without_baseline changed_entries)
  end.

(** [plan_abstract_overview_refresh]. *)
Definition plan_abstract_overview_refresh (dir_uri : pystr) (changed_entries : Z) (l0_body_changed : bool) : ST F FreshnessDecision :=
  if (changed_entries <=? 0)%Z || negb l0_body_changed then mret (MkDecision NOOP 0 0)
  else
    let overview_uri := rstrip is_slash dir_uri ++ [c_slash] ++ OVERVIEW_NAME in
    let abstract_uri := rstrip is_slash dir_uri ++ [c_slash] ++ ABSTRACT_NAME in
    overview ← read_existing_document overview_uri;
    abstract ← read_existing_document abstract_uri;
    match baseline overview, baseline abstract with
    | Some _, Some _ => with_sidecars [overview_uri; abstract_uri] None (plan_locked dir_uri overview_uri abstract_uri changed_entries)
    | _, _ => st_lift (without_baseline changed_entries)
    end.
End planning.

(** [read_abstract_overview_pending_snapshot]. *)
Definition read_pending_snapshot (dir_uri : pystr) (lock : option N) : ST F Z :=
  let overview_uri := rstrip is_slash dir_uri ++ [c_slash] ++ OVERVIEW_NAME in
  let abstract_uri := rstrip is_slash dir_uri ++ [c_slash] ++ ABSTRACT_NAME in
  with_sidecars [overview_uri; abstract_uri] lock
    (overview ← read_existing_document overview_uri;
     abstract ← read_existing_document abstract_uri;
     match omap (fun d => pending_child_changes <$> baseline d) [overview; abstract] with
     | [] => mret 0%Z
     | p :: ps => mret (foldl Z.max p ps)
     end).

(** The default of [refresh_ratio], the double nearest to one tenth, and
    [mark_abstract_overview_pending]. *)
Definition ONE_TENTH : spec_float := S754_finite false 7205759403792794 (-56).
Definition mark_abstract_overview_pending (dir_uri : pystr) (changed_entries : Z) : ST F unit :=
  _ ← plan_abstract_overview_refresh 32 ONE_TENTH false dir_uri changed_entries true; mret tt.
End files.
