(* ===== verification/OverviewTheory.v ===== *)
(** Generated overviews: what is rendered reads back, a public write cannot change the
    metadata, samples span the directory. *)
From Stdlib Require Import NArith ZArith SpecFloat.
From S2P Require Import Prelude Effects PyStr PyVal Identifiers WorkIndex Message Overview.

Open Scope N_scope.

(** ** Laws *)

(** A text on one line. *)
Definition single_line (s : pystr) : Prop := Forall (fun c => is_break c = false) s.

(** Metadata whose texts are single lines. *)
Definition header_ok (m : metadata) : Prop :=
  from_option single_line True (md_directory m)
  /\ from_option (fun p => single_line p.1 /\ single_line p.2) True (md_source m)
  /\ from_option (fun p => single_line p.1 /\ single_line p.2) True (md_generated_by m).

(** PyYAML's block style: a mapping of single-line texts and numbers reads back from its
    dump without the trailing white space, and none of its lines is a document marker. *)
Class OverviewEnvOk {env : OverviewEnv} : Prop := {
  yaml_roundtrip : forall m, header_ok m ->
    yaml_load (rstrip is_space (yaml_dump (metadata_dict m)) ++ [c_nl]) = Some (VDict (metadata_dict m));
  yaml_no_fence : forall m, header_ok m ->
    Forall (fun l => is_fence l = false) (splitlines (rstrip is_space (yaml_dump (metadata_dict m)) ++ [c_nl])) }.

(** ** Lines *)

Lemma splitlines_concat s : concat (splitlines s) = s.
Proof.
  induction s as [|c s IH]; [done|]. cbn [splitlines]. destruct (_ && _); cbn [concat app]; [by rewrite IH|].
  destruct (splitlines s) as [|l ls]; cbn [concat app] in *; by rewrite <- IH.
Qed.

Lemma splitlines_nil s : splitlines s = [] -> s = [].
Proof. intros H. by rewrite <- (splitlines_concat s), H. Qed.

(** A line feed ends a line whatever follows. *)
Lemma splitlines_app s t : splitlines (s ++ c_nl :: t) = splitlines (s ++ [c_nl]) ++ splitlines t.
Proof.
  induction s as [|c s IH]; [done|]. cbn [app splitlines].
  assert (match s ++ c_nl :: t with d :: _ => d =? c_nl | [] => false end = match s ++ [c_nl] with d :: _ => d =? c_nl | [] => false end) as -> by by destruct s.
  destruct (_ && _); [by rewrite IH|]. rewrite IH. destruct (splitlines (s ++ [c_nl])) eqn:E; [|done].
  apply splitlines_nil in E. by destruct s.
Qed.

Lemma fence_line : splitlines (FENCE ++ [c_nl]) = [FENCE ++ [c_nl]].
Proof. by vm_compute. Qed.

Lemma closing_after front rest : Forall (fun l => is_fence l = false) front -> closing (front ++ (FENCE ++ [c_nl]) :: rest) = Some (front, rest).
Proof. induction 1 as [|l front Hl _ IH]; [by vm_compute|]. cbn [app closing]. by rewrite Hl, IH. Qed.

(** ** Metadata *)

Fixpoint get_present (l : list (pystr * option pyval)) (k : pystr) : option pyval :=
  match l with
  | [] => None
  | (k', Some v) :: l => if seqb k' k then Some v else get_present l k
  | (_, None) :: l => get_present l k
  end.

Lemma dict_get_present l k : dict_get (present l) k = get_present l k.
Proof.
  induction l as [|[k' o] l IH]; [done|]. cbn [present omap list_omap]. destruct o as [v|]; cbn [fmap option_fmap option_map dict_get].
  - cbn [get_present]. by rewrite <- IH.
  - exact IH.
Qed.

Section metadata.
Context {env : OverviewEnv}.

Lemma get_directory m : dict_get (metadata_dict m) (u "directory") = VStr <$> md_directory m.
Proof. unfold metadata_dict. rewrite dict_get_present. destruct m as [[] [] [] []]; by vm_compute. Qed.
Lemma get_source m : dict_get (metadata_dict m) (u "source") = pair_dict "kind" "uri" <$> md_source m.
Proof. unfold metadata_dict. rewrite dict_get_present. destruct m as [[] [] [] []]; by vm_compute. Qed.
Lemma get_generated m : dict_get (metadata_dict m) (u "generated_by") = pair_dict "component" "trigger" <$> md_generated_by m.
Proof. unfold metadata_dict. rewrite dict_get_present. destruct m as [[] [] [] []]; by vm_compute. Qed.
Lemma get_freshness m : dict_get (metadata_dict m) (u "freshness") = (fun c => VDict (counters_dict c)) <$> md_freshness m.
Proof. unfold metadata_dict. rewrite dict_get_present. destruct m as [[] [] [] []]; by vm_compute. Qed.

(** What a directory is normalized to: it ends in a slash, with no white space around. *)
Lemma directory_shape v r : normalize_directory_uri v = Ok r -> (exists z, r = 118 :: z ++ [c_slash]) /\ r = rstrip is_slash (strip is_space v) ++ [c_slash].
Proof.
  unfold normalize_directory_uri. destruct (nonempty _); [|done]. cbn [negb]. destruct (startswith VIKING _) eqn:Hs; [|done]. cbn [negb].
  intros [= <-]. split; [|done]. set (y := strip is_space v) in *. destruct (rstrip_decomp is_slash y) as (k & Hk & Hall).
  assert (exists t, y = 118 :: t) as (t & Ht).
  { destruct y as [|c y]; [done|]. exists y. f_equal. change ((118 =? c) && startswith (u "iking://") y = true) in Hs.
    apply andb_true_iff in Hs as [Hs _]. lia. }
  rewrite Hk in Ht. destruct (rstrip is_slash y) as [|c z]; cbn [app] in Ht.
  - subst k. inversion Hall as [|? ? Hc _]. by vm_compute in Hc.
  - injection Ht as -> _. by exists z.
Qed.

Lemma directory_strip v r : normalize_directory_uri v = Ok r -> strip is_space r = r /\ rstrip is_slash r ++ [c_slash] = r.
Proof.
  intros [(z & E) H]%directory_shape. split; [rewrite E; by apply strip_ends|]. rewrite H at 1. rewrite rstrip_snoc by done. by rewrite rstrip_idemp.
Qed.

(** A first normalization is final, unless it is of the root. *)
Lemma directory_idemp v r : normalize_directory_uri v = Ok r -> startswith VIKING r = true -> normalize_directory_uri r = Ok r.
Proof.
  intros H Hs. destruct (directory_strip _ _ H) as [H1 H2]. unfold normalize_directory_uri. rewrite H1, Hs, H2.
  apply directory_shape in H as [(z & ->) _]. done.
Qed.

Lemma directory_twice v r r' : normalize_directory_uri v = Ok r -> normalize_directory_uri r = Ok r' -> r' = r /\ startswith VIKING r = true.
Proof.
  intros H. destruct (directory_strip _ _ H) as [H1 H2]. unfold normalize_directory_uri. rewrite H1, H2. destruct (negb (nonempty r)); [done|].
  destruct (startswith VIKING r); [|done]. by intros [= <-].
Qed.

Lemma directory_single v r : normalize_directory_uri v = Ok r -> single_line v -> single_line r.
Proof.
  intros [_ ->]%directory_shape H. apply Forall_app. split; [|by repeat constructor]. unfold single_line in *. rewrite Forall_forall in *. intros c Hc. apply H.
  destruct (rstrip_decomp is_slash (strip is_space v)) as (k & Hk & _). apply (strip_sub is_space). rewrite Hk. apply elem_of_app. by left.
Qed.

Lemma bounded_idemp l v s : bounded_string l v = Ok s -> bounded_string l (VStr s) = Ok s.
Proof.
  unfold bounded_string at 1. destruct v; try done. destruct (nonempty _) eqn:E; [|done]. cbn [negb]. destruct (_ <? _)%nat eqn:L; [done|].
  intros [= <-]. unfold bounded_string. by rewrite strip_idemp, E, L.
Qed.

Lemma pair_idemp k k' l l' v o : normalize_pair k k' l l' v = Ok o -> seqb (u k) (u k') = false ->
  normalize_pair k k' l l' (default VNone (pair_dict k k' <$> o)) = Ok o.
Proof.
  unfold normalize_pair at 1. destruct v; try done; [by intros [= <-]|]. destruct (dict_get _ _); [|done]. destruct (dict_get _ _); [|done].
  intros (a & Ha%bounded_idemp & H)%result_bind_ok Hk. apply result_bind_ok in H as (b & Hb%bounded_idemp & H). injection H as <-.
  unfold pair_dict. cbn. rewrite !(proj2 (seqb_true _ _) eq_refl), Hk, Ha. cbn [mbind result_bind]. by rewrite Hb.
Qed.

Definition counters_ok (c : counters) : Prop :=
  (0 <= sampled_entries c /\ 0 <= unsampled_entries c /\ 0 <= pending_child_changes c
   /\ sampled_entries c + unsampled_entries c = total_entries c)%Z.

Lemma count_ok v z : normalize_count v = Ok z -> (0 <= z)%Z.
Proof. unfold normalize_count. destruct v; try done. destruct (Z.ltb_spec z0 0); [done|]. intros [= <-]. lia. Qed.

Lemma freshness_ok v c : normalize_freshness v = Ok (Some c) -> counters_ok c.
Proof.
  unfold normalize_freshness. destruct v; try done. destruct (dict_get _ _); [|done]. destruct (dict_get _ _); [|done].
  destruct (dict_get _ _); [|done]. destruct (dict_get _ _); [|done].
  intros (t & Ht%count_ok & H)%result_bind_ok. apply result_bind_ok in H as (s & Hs%count_ok & H). apply result_bind_ok in H as (n & Hn%count_ok & H).
  apply result_bind_ok in H as (q & Hq%count_ok & H). destruct (Z.eqb_spec (s + n) t); [|done]. injection H as <-. by split_and!.
Qed.

Lemma freshness_exact c d : counters_ok c ->
  dict_get d (u "total_entries") = Some (VInt (total_entries c)) -> dict_get d (u "sampled_entries") = Some (VInt (sampled_entries c)) ->
  dict_get d (u "unsampled_entries") = Some (VInt (unsampled_entries c)) -> dict_get d (u "pending_child_changes") = Some (VInt (pending_child_changes c)) ->
  normalize_freshness (VDict d) = Ok (Some c).
Proof.
  intros (H1 & H2 & H3 & H4) E1 E2 E3 E4. unfold normalize_freshness. rewrite E1, E2, E3, E4. unfold normalize_count.
  rewrite (proj2 (Z.ltb_ge (total_entries c) 0)), (proj2 (Z.ltb_ge (sampled_entries c) 0)), (proj2 (Z.ltb_ge (unsampled_entries c) 0)),
    (proj2 (Z.ltb_ge (pending_child_changes c) 0)) by lia. cbn [mbind result_bind].
  rewrite (proj2 (Z.eqb_eq _ _)) by done. by destruct c.
Qed.

Lemma counters_exact c : counters_ok c -> normalize_freshness (VDict (counters_dict c)) = Ok (Some c).
Proof. intros H. apply freshness_exact; [done|by vm_compute..]. Qed.

(** Metadata that normalization leaves as they are. *)
Definition normal (m : metadata) : Prop := normalize_metadata (metadata_dict m) = Ok m.

Lemma normalize_parts d m : normalize_metadata d = Ok m ->
  match dict_get d (u "directory") with
  | Some v => exists r, md_directory m = Some r /\ normalize_directory_uri (match v with VStr s => s | v => value_text v end) = Ok r
  | None => md_directory m = None
  end
  /\ normalize_pair "kind" "uri" MAX_LABEL_CHARS MAX_SOURCE_URI_CHARS (get_or_none d (u "source")) = Ok (md_source m)
  /\ normalize_pair "component" "trigger" MAX_LABEL_CHARS MAX_LABEL_CHARS (get_or_none d (u "generated_by")) = Ok (md_generated_by m)
  /\ normalize_freshness (get_or_none d (u "freshness")) = Ok (md_freshness m).
Proof.
  unfold normalize_metadata. intros (dir & Hd & H)%result_bind_ok. apply result_bind_ok in H as (so & Hs & H).
  apply result_bind_ok in H as (g & Hg & H). apply result_bind_ok in H as (f & Hf & H). injection H as <-. cbn. split_and!; [|done..].
  destruct (dict_get d (u "directory")) as [v|]; [|by injection Hd as <-]. apply result_bind_ok in Hd as (r & Hr & Hd). injection Hd as <-. by exists r.
Qed.

Lemma freshness_idemp v o : normalize_freshness v = Ok o -> normalize_freshness (default VNone ((fun c => VDict (counters_dict c)) <$> o)) = Ok o.
Proof. destruct o as [c|]; [|done]. intros H%freshness_ok. by apply counters_exact. Qed.

(** What normalization returns is normal, with a directory below the root. *)
Lemma normalize_normal d m : normalize_metadata d = Ok m -> from_option (fun r => startswith VIKING r = true) True (md_directory m) -> normal m.
Proof.
  intros (Hd & Hs & Hg & Hf)%normalize_parts Hr. unfold normal, normalize_metadata, get_or_none.
  rewrite get_directory, get_source, get_generated, get_freshness.
  rewrite (pair_idemp _ _ _ _ _ _ Hs), (pair_idemp _ _ _ _ _ _ Hg), (freshness_idemp _ _ Hf) by by vm_compute.
  destruct (dict_get d (u "directory")) as [v|]; [|by rewrite Hd; destruct m; cbn in *; subst].
  destruct Hd as (r & E & Hd). rewrite E in *. cbn [fmap option_fmap option_map]. rewrite (directory_idemp _ _ Hd Hr). by destruct m; cbn in *; subst.
Qed.

Lemma normal_directory m r : normal m -> md_directory m = Some r -> normalize_directory_uri r = Ok r /\ startswith VIKING r = true.
Proof.
  intros (Hd & _)%normalize_parts E. rewrite get_directory, E in Hd. cbn in Hd. destruct Hd as (r' & E' & Hd). assert (r' = r) as -> by congruence.
  split; [done|]. by eapply directory_twice.
Qed.
End metadata.

(** ** Reading back what is rendered *)

Section documents.
Context {env : OverviewEnv} {env_ok : OverviewEnvOk}.

Lemma parse_fenced m body : normal m -> header_ok m -> is_Some (md_directory m) ->
  parse_abstract_overview (fenced (metadata_dict m) body ++ [c_nl]) = Ok (MkDocument m (strip is_space body ++ [c_nl]) false).
Proof.
  intros Hn Hh (r & Hr). unfold fenced. set (h := rstrip is_space (yaml_dump (metadata_dict m))).
  replace ((FENCE ++ [c_nl] ++ h ++ [c_nl] ++ FENCE ++ [c_nl; c_nl] ++ strip is_space body) ++ [c_nl])
    with (FENCE ++ c_nl :: h ++ c_nl :: FENCE ++ c_nl :: c_nl :: strip is_space body ++ [c_nl]).
  2: { cbn [app]. by rewrite <- !app_assoc, <- !app_comm_cons, <- !app_assoc. }
  unfold parse_abstract_overview. rewrite (splitlines_app FENCE), fence_line. cbn [app]. change (is_fence (FENCE ++ [c_nl])) with true. cbn iota.
  rewrite (splitlines_app h), (splitlines_app FENCE), fence_line. cbn [app].
  rewrite closing_after by by apply yaml_no_fence.
  rewrite !splitlines_concat. unfold h. rewrite yaml_roundtrip by done. cbn [mbind result_bind].
  rewrite get_directory, Hr. cbn [fmap option_fmap option_map]. rewrite Hn. cbn [mbind result_bind]. done.
Qed.

(** The metadata a rendered document is given, normal and with its directory. *)
Lemma render_metadata level dir body md text : render_abstract_overview level dir body md = Ok text ->
  exists r m, normalize_directory_uri dir = Ok r /\ normalize_metadata (dict_set md (u "directory") (VStr r)) = Ok m
    /\ md_directory m = Some r /\ normal m /\ text = fenced (metadata_dict m) body ++ [c_nl].
Proof.
  unfold render_abstract_overview. destruct level; [..|done]; intros (r & Hr & H)%result_bind_ok; apply result_bind_ok in H as (m & Hm & H); injection H as <-;
    (exists r, m; destruct (normalize_parts _ _ Hm) as (Hd & _); rewrite dict_set_get in Hd; cbn in Hd; destruct Hd as (r' & Hd & H');
     destruct (directory_twice _ _ _ Hr H') as [-> Hs]; split_and!; [done..| |done]; eapply normalize_normal; [done|by rewrite Hd]).
Qed.

Lemma rstrip_body body : rstrip is_crlf (strip is_space body ++ [c_nl]) = strip is_space body.
Proof.
  rewrite rstrip_snoc by done. destruct (last (strip is_space body)) as [x|] eqn:E.
  - apply (rstrip_id _ _ x); [done|]. unfold strip in E. apply rstrip_last in E. unfold is_crlf.
    destruct (N.eqb_spec x 13) as [->|]; [by vm_compute in E|]. destruct (N.eqb_spec x c_nl) as [->|]; [by vm_compute in E|]. done.
  - apply last_None in E. by rewrite E.
Qed.

(** What [body_for_preview] shows of a document. *)
Definition preview (d : document) : pystr := if doc_legacy d then doc_body d else rstrip is_crlf (doc_body d).

Lemma render_parse level dir body md text : render_abstract_overview level dir body md = Ok text ->
  exists r m, normalize_directory_uri dir = Ok r /\ normalize_metadata (dict_set md (u "directory") (VStr r)) = Ok m
    /\ md_directory m = Some r /\ normal m
    /\ (header_ok m -> parse_abstract_overview text = Ok (MkDocument m (strip is_space body ++ [c_nl]) false)).
Proof.
  intros (r & m & H1 & H2 & H3 & H4 & ->)%render_metadata. exists r, m. split_and!; [done..|]. intros Hh. by apply parse_fenced; [..|rewrite H3].
Qed.

Lemma written_preview text m body :
  parse_abstract_overview text = Ok (MkDocument m (strip is_space body ++ [c_nl]) false) -> body_for_preview text = Ok (strip is_space body).
Proof. intros H. unfold body_for_preview. rewrite H. cbn [mbind result_bind doc_legacy doc_body]. by rewrite rstrip_body. Qed.

(** C29: a rendered document reads back: its metadata are the normalized ones with the
    directory it was rendered for, and its visible body is the body given without the
    white space around it. *)
Theorem rendered_reread (level : ContextLevel) (dir body : pystr) (md : pydict) (text : pystr) (m : metadata) :
  render_abstract_overview level dir body md = Ok text ->
  (exists r, normalize_directory_uri dir = Ok r /\ normalize_metadata (dict_set md (u "directory") (VStr r)) = Ok m) -> header_ok m ->
  parse_abstract_overview text = Ok (MkDocument m (strip is_space body ++ [c_nl]) false)
  /\ body_for_preview text = Ok (strip is_space body)
  /\ normalize_metadata (metadata_dict m) = Ok m.
Proof.
  intros (r & m' & H1 & H2 & H3 & H4 & H5)%render_parse (r' & E & E') Hh. assert (r' = r) as -> by congruence. assert (m' = m) as -> by congruence.
  specialize (H5 Hh). split_and!; [done|by eapply written_preview|done].
Qed.

(** A parsed header has a directory, and is normal below the root. *)
Lemma parsed_metadata raw d : parse_abstract_overview raw = Ok d ->
  if doc_legacy d then doc_metadata d = no_metadata
  else exists r v, md_directory (doc_metadata d) = Some r /\ normalize_directory_uri v = Ok r /\ (startswith VIKING r = true -> normal (doc_metadata d)).
Proof.
  unfold parse_abstract_overview. destruct (splitlines raw) as [|first rest]; [by intros [= <-]|]. destruct (is_fence first); [|by intros [= <-]].
  destruct (closing rest) as [[front after]|]; [|done]. intros (l & _ & H)%result_bind_ok. destruct (dict_get l (u "directory")) eqn:E; [|done].
  apply result_bind_ok in H as (m & Hm & H). injection H as <-. cbn. destruct (normalize_parts _ _ Hm) as (Hd & _). rewrite E in Hd.
  destruct Hd as (r & Hr & Hv). eexists r, _. split; [done|]. split; [exact Hv|]. intros Hs. eapply normalize_normal; [done|]. by rewrite Hr.
Qed.

Lemma normalize_same m r : normal m -> md_directory m = Some r -> normalize_metadata (dict_set (metadata_dict m) (u "directory") (VStr r)) = Ok m.
Proof.
  intros Hn Hr. unfold normal in Hn. rewrite <- Hn. unfold normalize_metadata, get_or_none. rewrite !dict_set_get, get_directory, Hr. done.
Qed.

(** C28: a public write keeps the metadata: whatever text is sent, a write that is accepted
    leaves the stored metadata as they were (a file without a header gets the directory
    only), a text with other metadata is refused, and the visible body is the one sent, or
    the stored one followed by it. *)
Theorem metadata_protected (uri current_raw requested_raw mode text : pystr) (current : document) :
  parse_abstract_overview current_raw = Ok current -> header_ok (doc_metadata current) -> single_line (uri_dir uri) ->
  prepare_abstract_overview_write uri current_raw requested_raw mode = Ok text ->
  exists requested written,
    parse_abstract_overview requested_raw = Ok requested /\ parse_abstract_overview text = Ok written
    /\ (doc_legacy requested = false -> doc_metadata requested = doc_metadata current)
    /\ doc_legacy written = false
    /\ (if doc_legacy current then exists r, normalize_directory_uri (uri_dir uri) = Ok r /\ doc_metadata written = MkMetadata (Some r) None None None
        else doc_metadata written = doc_metadata current)
    /\ body_for_preview text = Ok (strip is_space (if seqb mode (u "append") then doc_body current ++ doc_body requested else doc_body requested)).
Proof.
  intros Hc Hh Hu. unfold prepare_abstract_overview_write. destruct (negb (mem _ _)); [done|]. destruct (negb (is_abstract_overview_uri _)); [done|].
  rewrite Hc. cbn [mbind result_bind]. intros (q & Hq & H)%result_bind_ok. destruct (negb (doc_legacy q) && _) eqn:Hp; [done|].
  exists q. set (body := if seqb mode (u "append") then _ else _) in *. set (level := if seqb (uri_name uri) ABSTRACT_NAME then ABSTRACT else OVERVIEW) in *.
  assert (doc_legacy q = false -> doc_metadata q = doc_metadata current) as Hsame.
  { intros E. rewrite E in Hp. cbn in Hp. apply negb_false_iff, bool_decide_eq_true in Hp. done. }
  pose proof (parsed_metadata _ _ Hc) as Hm. destruct (doc_legacy current).
  - rewrite Hm in H. cbn [md_directory no_metadata] in H. destruct (render_parse _ _ _ _ _ H) as (r & m & H1 & H2 & H3 & H4 & H5).
    assert (m = MkMetadata (Some r) None None None) as ->.
    { destruct (normalize_parts _ _ H2) as (_ & A & B & C).
      change (Ok None = Ok (md_source m)) in A. change (Ok None = Ok (md_generated_by m)) in B. change (Ok None = Ok (md_freshness m)) in C.
      destruct m; cbn in *. congruence. }
    assert (header_ok (MkMetadata (Some r) None None None)) as Hok by (split_and!; [by eapply directory_single|done..]).
    specialize (H5 Hok). eexists. split_and!; [done|exact H5|done|done|by exists r|by eapply written_preview].
  - destruct Hm as (r & v & Hr & Hv & Hn). rewrite Hr in H.
    replace (nonempty r) with true in H by (symmetry; apply directory_shape in Hv as [(z & ->) _]; done).
    destruct (render_parse _ _ _ _ _ H) as (r' & m & H1 & H2 & H3 & H4 & H5). destruct (directory_twice _ _ _ Hv H1) as [-> Hs].
    rewrite (normalize_same _ _ (Hn Hs) Hr) in H2. injection H2 as <-. specialize (H5 Hh).
    eexists. split_and!; [done|exact H5|done|done|done|by eapply written_preview].
Qed.
End documents.

(** ** Samples *)

Lemma omap_increasing {A} (items : list A) (f : nat -> nat) k : (forall i, f i < f (S i))%nat ->
  forall a, omap (fun i => items !! f i) (seq a k) `sublist_of` drop (f a) items.
Proof.
  intros Hf. induction k as [|k IH]; intros a; [apply sublist_nil_l|]. cbn [seq omap list_omap].
  assert (forall b, (f a < b)%nat -> drop b items `sublist_of` drop (S (f a)) items) as Hd.
  { intros b Hb. replace b with (S (f a) + (b - S (f a)))%nat by lia. rewrite <- drop_drop. apply sublist_drop. }
  specialize (IH (S a)). specialize (Hd _ (Hf a)). destruct (items !! f a) as [x|] eqn:E.
  - rewrite (drop_S _ _ _ E). apply sublist_skip. by etransitivity.
  - etransitivity; [exact IH|]. etransitivity; [exact Hd|]. apply lookup_ge_None in E. rewrite (drop_ge _ (S (f a))) by lia. apply sublist_nil_l.
Qed.

Lemma omap_total {A B} (f : A -> option B) l : Forall (fun a => is_Some (f a)) l -> length (omap f l) = length l.
Proof. induction 1 as [|a l (b & Hb) _ IH]; [done|]. cbn. rewrite Hb. cbn. by rewrite IH. Qed.

Lemma omap_last {A B} (f : A -> option B) l a b : f a = Some b -> last (omap f (l ++ [a])) = Some b.
Proof. intros H. rewrite omap_app. cbn. rewrite H. apply last_snoc. Qed.

Section sample.
Context {A : Type} (items : list A) (limit : Z).
Abbreviation n := (Z.of_nat (length items)).
Abbreviation position := (fun i : nat => Z.to_nat (Z.of_nat i * (n - 1) / (limit - 1))).

Lemma position_increasing i : (1 < limit)%Z -> (limit < n)%Z -> (position i < position (S i))%nat.
Proof.
  intros H1 H2. apply Z2Nat.inj_lt; [apply Z.div_pos; nia..|].
  assert (Z.of_nat i * (n - 1) / (limit - 1) + 1 <= Z.of_nat (S i) * (n - 1) / (limit - 1))%Z; [|lia].
  apply Z.div_le_lower_bound; [lia|]. pose proof (Z.mul_div_le (Z.of_nat i * (n - 1)) (limit - 1)). nia.
Qed.

Lemma position_last : (1 < limit)%Z -> (limit < n)%Z -> position (Z.to_nat (limit - 1)) = (length items - 1)%nat.
Proof. intros H1 H2. cbn beta. rewrite Z2Nat.id by lia. rewrite Z.mul_comm, Z.div_mul by lia. lia. Qed.

Lemma position_below i : (1 < limit)%Z -> (limit < n)%Z -> (i < Z.to_nat limit)%nat -> (position i < length items)%nat.
Proof.
  intros H1 H2 Hi. enough (Z.of_nat i * (n - 1) / (limit - 1) < n)%Z by (apply Nat2Z.inj_lt; rewrite Z2Nat.id; [lia|apply Z.div_pos; nia]).
  apply Z.div_lt_upper_bound; [lia|]. nia.
Qed.

(** A sample is as large as the limit allows, keeps the order of the entries, and
    from a limit of two on it spans the directory from the first entry to the last. *)
Theorem sample_spans :
  deterministic_sample items limit `sublist_of` items
  /\ Z.of_nat (length (deterministic_sample items limit)) = Z.max 0 (Z.min limit n)
  /\ ((1 < limit)%Z -> head (deterministic_sample items limit) = head items /\ last (deterministic_sample items limit) = last items).
Proof.
  unfold deterministic_sample. destruct (Z.leb_spec limit 0); [split_and!; [apply sublist_nil_l|cbn; lia|lia]|].
  destruct (Z.leb_spec n limit); [split_and!; [done|lia|done]|]. destruct (Z.eqb_spec limit 1) as [->|Hne].
  { split_and!; [apply sublist_take|rewrite length_take; lia|lia]. }
  assert (1 < limit)%Z as H1 by lia. split_and!.
  - etransitivity; [apply (omap_increasing items position); intros i; by apply position_increasing|]. apply sublist_drop.
  - rewrite omap_total, length_seq; [lia|]. apply Forall_seq. intros i Hi. apply lookup_lt_is_Some_2, position_below; lia.
  - intros _. split.
    + replace (Z.to_nat limit) with (S (Z.to_nat limit - 1)) by lia. cbn [seq omap list_omap].
      destruct items as [|x l]; [cbn in *; lia|]. done.
    + replace (Z.to_nat limit) with (Z.to_nat (limit - 1) + 1)%nat by lia. rewrite seq_app. cbn [seq plus].
      destruct (last items) as [x|] eqn:E; [|apply last_None in E; rewrite E in *; cbn in *; lia].
      apply omap_last. rewrite position_last by done. rewrite last_lookup in E. rewrite <- E. f_equal. lia.
Qed.
End sample.
