(* ===== verification/OverviewCounters.v ===== *)
(** The counters of changes since a directory's last summary: recording changes and
    writing a new summary count exactly, and no change that arrives while a summary is
    generated is forgotten, whatever write fails. *)
From Stdlib Require Import NArith ZArith SpecFloat.
From S2P Require Import Prelude Effects PyStr PyVal Identifiers WorkIndex Message Overview OverviewTheory.

Open Scope N_scope.

(** Files with their contents; a write that raises has happened or has not. *)
Class SidecarFSOk (F : Type) {FS : SidecarFS F} (files : F -> gmap pystr pystr) : Prop := {
  sc_read_ok : forall uri s, files (sc_read uri s).2 = files s
    /\ match (sc_read uri s).1 with Ok c => files s !! uri = Some c | Err e => is_missing e = true -> files s !! uri = None end;
  sc_write_ok : forall uri c s, match sc_write uri c s with
    | (Ok _, s') => files s' = <[uri := c]> (files s)
    | (Err _, s') => files s' = files s \/ files s' = <[uri := c]> (files s) end;
  sc_lock_ok : forall uris s, files (sc_lock uris s).2 = files s;
  sc_unlock_ok : forall lease s, files (sc_unlock lease s).2 = files s }.

Definition set_count (c : counters) (p : Z) : counters := MkCounters (total_entries c) (sampled_entries c) (unsampled_entries c) p.
Definition one_line (o : option (pystr * pystr)) : Prop := from_option (fun p => single_line p.1 /\ single_line p.2) True o.

(** ** Rendering with counters *)

Section rendering.
Context {env : OverviewEnv} {env_ok : OverviewEnvOk}.

Lemma strip_single s : single_line s -> single_line (strip is_space s).
Proof. unfold single_line. rewrite !Forall_forall. intros H c Hc. by eapply H, strip_sub. Qed.

Lemma bounded_single l s r : bounded_string l (VStr s) = Ok r -> single_line s -> single_line r.
Proof. unfold bounded_string. destruct (negb _); [done|]. destruct (_ <? _)%nat; [done|]. intros [= <-]. apply strip_single. Qed.

Lemma pair_single k k' l l' o o' : normalize_pair k k' l l' (default VNone (pair_dict k k' <$> o)) = Ok o' -> seqb (u k) (u k') = false -> one_line o -> one_line o'.
Proof.
  destruct o as [[a b]|]; [|by intros [= <-]]. unfold pair_dict. cbn. rewrite !(proj2 (seqb_true _ _) eq_refl). intros H Hk. rewrite Hk in H.
  apply result_bind_ok in H as (x & Hx & H). apply result_bind_ok in H as (y & Hy & H). injection H as <-. intros [H1 H2]. split; by eapply bounded_single.
Qed.

(** A text rendered with valid counters reads back with them. *)
Lemma render_counters level dir body md text so g f c : render_abstract_overview level dir body md = Ok text -> single_line dir ->
  get_or_none md (u "source") = default VNone (pair_dict "kind" "uri" <$> so) -> one_line so ->
  get_or_none md (u "generated_by") = default VNone (pair_dict "component" "trigger" <$> g) -> one_line g ->
  get_or_none md (u "freshness") = VDict f -> normalize_freshness (VDict f) = Ok (Some c) ->
  exists d, parse_abstract_overview text = Ok d /\ doc_legacy d = false /\ header_ok (doc_metadata d) /\ md_freshness (doc_metadata d) = Some c
    /\ doc_body d = strip is_space body ++ [c_nl].
Proof.
  intros H Hdir Hs Hso Hg Hgo Hf Hc. destruct (render_parse _ _ _ _ _ H) as (r & m & H1 & H2 & H3 & _ & H5).
  destruct (normalize_parts _ _ H2) as (_ & A & B & C). unfold get_or_none in *. rewrite !dict_set_get in A, B, C.
  change (normalize_pair "kind" "uri" MAX_LABEL_CHARS MAX_SOURCE_URI_CHARS (default VNone (dict_get md (u "source"))) = Ok (md_source m)) in A.
  change (normalize_pair "component" "trigger" MAX_LABEL_CHARS MAX_LABEL_CHARS (default VNone (dict_get md (u "generated_by"))) = Ok (md_generated_by m)) in B.
  change (normalize_freshness (default VNone (dict_get md (u "freshness"))) = Ok (md_freshness m)) in C.
  rewrite Hs in A. rewrite Hg in B. rewrite Hf, Hc in C. injection C as C.
  assert (header_ok m) as Hh.
  { split_and!; [rewrite H3; by eapply directory_single|eapply pair_single; [exact A|by vm_compute|done]|eapply pair_single; [exact B|by vm_compute|done]]. }
  eexists. split; [by apply H5|]. cbn. split_and!; [done|apply Hh..|by rewrite <- C|done].
Qed.

Lemma parsed_counters raw d c : parse_abstract_overview raw = Ok d -> md_freshness (doc_metadata d) = Some c -> counters_ok c.
Proof.
  unfold parse_abstract_overview. destruct (splitlines raw) as [|first rest]; [by intros [= <-]|]. destruct (is_fence first); [|by intros [= <-]].
  destruct (closing rest) as [[front after]|]; [|done]. intros (l & _ & H)%result_bind_ok. destruct (dict_get l (u "directory")); [|done].
  apply result_bind_ok in H as (m & (_ & _ & _ & Hf)%normalize_parts & H). injection H as <-. cbn. intros E. rewrite E in Hf. by eapply freshness_ok.
Qed.

Lemma set_count_ok c p : counters_ok c -> (0 <= p)%Z -> counters_ok (set_count c p).
Proof. intros (H1 & H2 & H3 & H4) Hp. by split_and!. Qed.

Lemma counters_set c p : counters_ok c -> (0 <= p)%Z ->
  normalize_freshness (VDict (dict_set (counters_dict c) (u "pending_child_changes") (VInt p))) = Ok (Some (set_count c p)).
Proof. intros H Hp. apply freshness_exact; [by apply set_count_ok|by vm_compute..]. Qed.
End rendering.

(** ** The two files *)

Section counting.
Context {F : Type} {env : OverviewEnv} {FS : SidecarFS F} {files : F -> gmap pystr pystr} {env_ok : OverviewEnvOk} {fs_ok : SidecarFSOk F files}.
Context (dir : pystr) (dir_line : single_line dir) (dir_plain : rstrip is_slash dir = dir).

Abbreviation overview_uri := (dir ++ [c_slash] ++ OVERVIEW_NAME).
Abbreviation abstract_uri := (dir ++ [c_slash] ++ ABSTRACT_NAME).
Abbreviation store := (gmap pystr pystr).

(** The file holds a document with a header of single lines and these counters. *)
Definition holds (fs : store) (uri : pystr) (d : document) (c : counters) : Prop := exists raw,
  fs !! uri = Some raw /\ parse_abstract_overview raw = Ok d /\ doc_legacy d = false /\ header_ok (doc_metadata d) /\ md_freshness (doc_metadata d) = Some c.
Definition shows (fs : store) (uri : pystr) (c : counters) : Prop := exists d, holds fs uri d c.

(** The changes pending: the larger counter. *)
Definition counts (fs : store) (p : Z) : Prop := exists c c',
  shows fs overview_uri c /\ shows fs abstract_uri c' /\ p = Z.max (pending_child_changes c) (pending_child_changes c').

Lemma uris_differ : overview_uri <> abstract_uri.
Proof. intros H%app_inv_head. by vm_compute in H. Qed.

Lemma shows_ok fs uri c : shows fs uri c -> counters_ok c.
Proof. intros (d & raw & _ & H & _ & _ & Hc). by eapply parsed_counters. Qed.

Lemma shows_other fs uri uri' t c : uri <> uri' -> shows fs uri c -> shows (<[uri' := t]> fs) uri c.
Proof. intros Hn (d & raw & H & Hr). exists d, raw. by rewrite lookup_insert_ne. Qed.

Lemma shows_written (fs : store) uri t d c : parse_abstract_overview t = Ok d -> doc_legacy d = false -> header_ok (doc_metadata d) ->
  md_freshness (doc_metadata d) = Some c -> shows (<[uri := t]> fs) uri c.
Proof. intros H1 H2 H3 H4. exists d, t. by rewrite lookup_insert_eq. Qed.

Lemma counts_positive fs p : counts fs p -> (0 <= p)%Z.
Proof. intros (c & c' & (_ & _ & H & _)%shows_ok & _ & ->). lia. Qed.

(** *** Reading and writing *)

Abbreviation at_ fs := (fun s : F => files s = fs).

Lemma raw_spec fs uri : spec (at_ fs) (raw_if_exists uri) (fun o s => files s = fs /\ o = fs !! uri) (fun _ => at_ fs).
Proof.
  intros s Hs. unfold raw_if_exists, st_catch. rewrite st_bind_unfold. destruct (sc_read_ok uri s) as [H1 H2]. rewrite Hs in *.
  destruct (sc_read uri s) as [[c|e] s']; cbn in *; [done|]. destruct (is_missing e); [|done]. cbn. split; [done|]. symmetry. by apply H2.
Qed.

Lemma spec_read {A : Type} (fs : store) (uri : pystr) (c : counters) (k : option document -> ST F A) Q (E : exn -> F -> Prop) : shows fs uri c -> (forall e s, files s = fs -> E e s) ->
  (forall d, holds fs uri d c -> spec (at_ fs) (k (Some d)) Q E) -> spec (at_ fs) (read_existing_document uri ≫= k) Q E.
Proof.
  intros (d & raw & H1 & H2 & H3) HE Hk s Hs. rewrite st_bind_unfold. unfold read_existing_document. rewrite st_bind_unfold.
  pose proof (raw_spec fs uri s Hs) as H. destruct (raw_if_exists uri s) as [[o|e] s']; [|by apply HE]. destruct H as [Hs' ->]. rewrite H1, st_bind_unfold.
  unfold st_lift. rewrite H2. cbn. apply Hk; [|done]. by exists raw.
Qed.

Lemma write_spec fs uri text cur : cur = fs !! uri ->
  spec (at_ fs) (write_changed uri text cur) (fun _ => at_ (<[uri := text]> fs)) (fun _ s => files s = fs \/ files s = <[uri := text]> fs).
Proof.
  intros -> s Hs. unfold write_changed. destruct (bool_decide _) eqn:E.
  - apply bool_decide_eq_true in E. cbn. by rewrite insert_id.
  - pose proof (sc_write_ok uri text s) as H. rewrite Hs in H. by destruct (sc_write uri text s) as [[?|?] ?].
Qed.

Lemma sidecars_spec {A : Type} (uris : list pystr) (lock : option N) (fs : store) (body : ST F A) (Q : A -> store -> Prop) (E : store -> Prop) : E fs -> (forall a gs, Q a gs -> E gs) ->
  spec (at_ fs) body (fun a s => Q a (files s)) (fun _ s => E (files s)) ->
  spec (at_ fs) (with_sidecars uris lock body) (fun a s => Q a (files s)) (fun _ s => E (files s)).
Proof.
  intros HE HQ Hb. destruct lock as [l|]; [done|]. unfold with_sidecars. apply spec_bind with (R := fun _ => at_ fs).
  - intros s Hs. pose proof (sc_lock_ok uris s) as H. destruct (sc_lock uris s) as [[?|?] s']; cbn in *; congruence.
  - intros l. apply spec_finally; [exact Hb| |].
    + intros a s Hs. pose proof (sc_unlock_ok l s) as H. destruct (sc_unlock l s) as [[?|?] s']; cbn in *; rewrite H; [done|by eapply HQ].
    + intros e s Hs. pose proof (sc_unlock_ok l s) as H. destruct (sc_unlock l s) as [[?|?] s']; cbn in *; by rewrite H.
Qed.

(** *** Recording changes *)

(** Setting the counter of one file. *)
Lemma set_pending_spec (fs : store) (level : ContextLevel) (uri : pystr) (d : document) (c : counters) (q : Z) : holds fs uri d c -> (0 <= q)%Z ->
  let post gs := exists t, gs = <[uri := t]> fs /\ shows gs uri (set_count c q) in
  spec (at_ fs) (set_pending level dir uri (Some d) q) (fun _ s => post (files s)) (fun _ s => files s = fs \/ post (files s)).
Proof.
  intros (raw & Hraw & Hd & Hl & Hh & Hc) Hq post. unfold set_pending, baseline. rewrite Hl, Hc. pose proof (parsed_counters _ _ _ Hd Hc) as Hok. set (m := doc_metadata d) in *.
  apply spec_bind with (R := fun text s => files s = fs /\ forall gs, gs = <[uri := text]> fs -> post gs).
  { apply spec_lift; [|by left]. intros text s Ht Hs. split; [done|]. intros gs ->. exists text. split; [done|].
    destruct (render_counters _ _ _ _ _ (md_source m) (md_generated_by m) (dict_set (counters_dict c) (u "pending_child_changes") (VInt q)) (set_count c q) Ht)
      as (d' & H1 & H2 & H3 & H4 & _); [done|..]; unfold get_or_none; rewrite ?dict_set_get.
    - by rewrite <- get_source.
    - apply Hh.
    - by rewrite <- get_generated.
    - apply Hh.
    - done.
    - by apply counters_set.
    - by eapply shows_written. }
  intros text. eapply spec_bind with (R := fun o s => (files s = fs /\ o = fs !! uri) /\ forall gs, gs = <[uri := text]> fs -> post gs).
  { intros s [Hs Hp]. pose proof (raw_spec fs uri s Hs) as H. destruct (raw_if_exists uri s) as [[?|?] ?]; [done|by left]. }
  intros o s [[Hs ->] Hp]. pose proof (write_spec fs uri text _ eq_refl s Hs) as H. destruct (write_changed uri text _ s) as [[?|?] ?]; [by apply Hp|].
  destruct H as [H|H]; [by left|right; by apply Hp].
Qed.

Lemma decide_pending total p n limit ratio force d : (0 < n)%Z -> decide_parent_refresh true true total p n limit ratio force = Ok d -> fd_pending_after d = (p + n)%Z.
Proof.
  intros Hn. unfold decide_parent_refresh. rewrite (proj2 (Z.leb_gt n 0)) by done. cbn [negb orb]. destruct (force || _); [by intros [= <-]|].
  intros (x & _ & H)%result_bind_ok. by injection H as <-.
Qed.

Lemma set_count_pending c q : pending_child_changes (set_count c q) = q.
Proof. done. Qed.

Lemma plan_locked_spec (limit : Z) (ratio : spec_float) (force : bool) (fs : store) (p n : Z) : counts fs p -> (0 < n)%Z ->
  spec (at_ fs) (plan_locked limit ratio force dir overview_uri abstract_uri n)
    (fun d s => fd_pending_after d = (p + n)%Z /\ counts (files s) (p + n)) (fun _ s => counts (files s) p \/ counts (files s) (p + n)).
Proof.
  intros Hcounts Hn. pose proof (counts_positive _ _ Hcounts) as Hpos. assert (counts fs p) as (c & c' & Ho & Ha & Hp) by done.
  unfold plan_locked. apply (spec_read fs _ c); [done|intros e s ->; by left|intros d Hd]. apply (spec_read fs _ c'); [done|intros e s ->; by left|intros d' Hd'].
  unfold baseline at 1 2. assert (doc_legacy d = false /\ md_freshness (doc_metadata d) = Some c) as [-> ->] by (by destruct Hd as (? & ? & ? & ? & ? & ?)).
  assert (doc_legacy d' = false /\ md_freshness (doc_metadata d') = Some c') as [-> ->] by (by destruct Hd' as (? & ? & ? & ? & ? & ?)).
  rewrite <- Hp. apply spec_bind with (R := fun x s => files s = fs /\ fd_pending_after x = (p + n)%Z).
  { apply spec_lift; [|intros e s _ ->; by left]. intros x s Hx Hs. split; [done|]. by eapply decide_pending. }
  intros x. eapply spec_bind with (R := fun _ s => fd_pending_after x = (p + n)%Z /\ exists t, files s = <[overview_uri := t]> fs /\ shows (files s) overview_uri (set_count c (p + n))).
  { intros s [Hs Hx]. rewrite Hx. pose proof (set_pending_spec fs OVERVIEW overview_uri d c (p + n) Hd ltac:(lia) s Hs) as H.
    destruct (set_pending OVERVIEW dir overview_uri (Some d) (p + n) s) as [[?|?] s']; [done|]. destruct H as [H|(t & H & Hsh)]; [left; by rewrite H|right].
    exists (set_count c (p + n)), c'. split_and!; [done| |cbn; lia]. rewrite H. by apply shows_other; [intros ?%symmetry%uris_differ|]. }
  intros []. intros s (Hx & t & Hs & Hsh). rewrite Hx, st_bind_unfold.
  assert (holds (<[overview_uri := t]> fs) abstract_uri d' c') as Hd2.
  { destruct Hd' as (raw & H1 & H2). exists raw. rewrite lookup_insert_ne by apply uris_differ. done. }
  pose proof (set_pending_spec _ ABSTRACT abstract_uri d' c' (p + n) Hd2 ltac:(lia) s Hs) as H.
  assert (forall t' gs, gs = <[abstract_uri := t']> (<[overview_uri := t]> fs) -> shows gs abstract_uri (set_count c' (p + n)) -> counts gs (p + n)) as Hboth.
  { intros t' gs Hgs Hsh'. exists (set_count c (p + n)), (set_count c' (p + n)). split_and!; [|done|cbn; lia]. rewrite Hgs. apply shows_other; [apply uris_differ|]. by rewrite <- Hs. }
  destruct (set_pending ABSTRACT dir abstract_uri (Some d') (p + n) s) as [[?|?] s']; [destruct H as (t' & H & Hsh'); cbn; split; [done|by eapply Hboth]|].
  right. destruct H as [H|(t' & H & Hsh')]; [|by eapply Hboth]. exists (set_count c (p + n)), c'. split_and!; [by rewrite H, <- Hs|rewrite H; by exists d'|cbn; lia].
Qed.

Lemma holds_baseline fs uri d c : holds fs uri d c -> baseline (Some d) = Some c.
Proof. intros (raw & _ & _ & Hl & _ & Hc). unfold baseline. by rewrite Hl. Qed.

(** Recording changes adds them; when it fails, the counter has its old or its new value. *)
Lemma plan_spec (limit : Z) (ratio : spec_float) (force : bool) (fs : store) (p n : Z) : counts fs p -> (0 < n)%Z ->
  spec (at_ fs) (plan_abstract_overview_refresh limit ratio force dir n true)
    (fun d s => fd_pending_after d = (p + n)%Z /\ counts (files s) (p + n)) (fun _ s => counts (files s) p \/ counts (files s) (p + n)).
Proof.
  intros Hcounts Hn. assert (counts fs p) as (c & c' & Ho & Ha & Hp) by done. unfold plan_abstract_overview_refresh.
  rewrite (proj2 (Z.leb_gt n 0)) by done. cbn [negb orb]. rewrite dir_plain.
  apply (spec_read fs _ c); [done|intros e s ->; by left|intros d Hd]. apply (spec_read fs _ c'); [done|intros e s ->; by left|intros d' Hd'].
  rewrite (holds_baseline _ _ _ _ Hd), (holds_baseline _ _ _ _ Hd').
  apply (sidecars_spec _ _ fs _ (fun d fs => fd_pending_after d = (p + n)%Z /\ counts fs (p + n)) (fun fs => counts fs p \/ counts fs (p + n)));
    [by left|intros a gs [_ H]; by right|]. by apply plan_locked_spec.
Qed.

(** The snapshot is the number of changes pending. *)
Lemma snapshot_spec (lock : option N) (fs : store) (p : Z) : counts fs p -> spec (at_ fs) (read_pending_snapshot dir lock) (fun s f => s = p /\ files f = fs) (fun _ => at_ fs).
Proof.
  intros (c & c' & Ho & Ha & Hp). unfold read_pending_snapshot. rewrite dir_plain.
  apply (sidecars_spec _ _ fs _ (fun s gs => s = p /\ gs = fs) (fun gs => gs = fs)); [done|by intros ? ? []|].
  apply (spec_read fs _ c); [done|done|intros d Hd]. apply (spec_read fs _ c'); [done|done|intros d' Hd'].
  cbn [omap list_omap]. rewrite (holds_baseline _ _ _ _ Hd), (holds_baseline _ _ _ _ Hd'). cbn. by apply spec_ret.
Qed.

(** *** Writing a summary *)

(** The metadata a refresh writes: [m] with the source of the old files if it has none. *)
Lemma merged_parts (m : metadata) (c0 : counters) (existing : list document) cp (q : Z) :
  header_ok m -> md_freshness m = Some c0 -> counters_ok c0 -> Forall (fun d => header_ok (doc_metadata d)) existing -> (0 <= q)%Z ->
  q = Z.max (current_pending existing - match cp with Some k => Z.max k 0 | None => current_pending existing end) 0 ->
  let md := consume (keep_source (metadata_dict m) existing) existing cp in
  exists so f, one_line so /\ get_or_none md (u "source") = default VNone (pair_dict "kind" "uri" <$> so)
    /\ get_or_none md (u "generated_by") = default VNone (pair_dict "component" "trigger" <$> md_generated_by m)
    /\ get_or_none md (u "freshness") = VDict f /\ normalize_freshness (VDict f) = Ok (Some (set_count c0 q)).
Proof.
  intros Hh Hc Hok Hex Hq0 Hq md. set (ks := keep_source (metadata_dict m) existing).
  assert (get_or_none ks (u "freshness") = VDict (counters_dict c0) /\ get_or_none ks (u "generated_by") = default VNone (pair_dict "component" "trigger" <$> md_generated_by m)
    /\ exists so, one_line so /\ get_or_none ks (u "source") = default VNone (pair_dict "kind" "uri" <$> so)) as (H1 & H2 & so & H3 & H4).
  { unfold ks, keep_source, get_or_none. rewrite get_source. destruct (md_source m) as [s|] eqn:Es; cbn [fmap option_fmap option_map].
    - rewrite get_freshness, get_generated, Hc. split_and!; [done..|]. exists (Some s). rewrite get_source, Es. split; [|done]. destruct Hh as (_ & Hs & _). by rewrite Es in Hs.
    - destruct (head _) as [s|] eqn:E.
      + rewrite !dict_set_get, get_freshness, get_generated, Hc. split_and!; [done..|]. exists (Some s). split; [|done].
        assert (s ∈ omap (fun d => md_source (doc_metadata d)) existing) as Hs by (destruct (omap _ existing); [done|]; injection E as ->; by left).
        apply list_elem_of_omap in Hs as (d & Hd & Hs). rewrite Forall_forall in Hex. destruct (Hex d Hd) as (_ & H & _). by rewrite Hs in H.
      + rewrite get_freshness, get_generated, Hc. split_and!; [done..|]. exists None. by rewrite get_source, Es. }
  unfold md, consume. fold ks. rewrite H1. set (cons := match cp with Some _ => _ | None => _ end) in *. exists so, (dict_set (counters_dict c0) (u "pending_child_changes") (VInt q)).
  unfold get_or_none in *. rewrite !dict_set_get. rewrite <- Hq. split_and!; [done|exact H4|exact H2|done|by apply counters_set].
Qed.

(** A text that shows a body and counters. *)
Definition fresh_text (body : pystr) (c : counters) (text : pystr) : Prop := exists d,
  parse_abstract_overview text = Ok d /\ doc_legacy d = false /\ header_ok (doc_metadata d) /\ md_freshness (doc_metadata d) = Some c
  /\ doc_body d = strip is_space body ++ [c_nl].

Lemma fresh_shows (fs : store) uri body c t : fresh_text body c t -> shows (<[uri := t]> fs) uri c.
Proof. intros (d & H1 & H2 & H3 & H4 & _). by eapply shows_written. Qed.

(** The visible body of a file. *)
Definition visible (fs : store) (uri body : pystr) : Prop := exists raw, fs !! uri = Some raw /\ body_for_preview raw = Ok body.

Lemma fresh_visible body c t : fresh_text body c t -> body_for_preview t = Ok (strip is_space body).
Proof. intros (d & H1 & H2 & _ & _ & H5). apply (written_preview t (doc_metadata d)). rewrite H1. destruct d; cbn in *. by subst. Qed.

Lemma existing_pending (fs : store) d d' c c' : holds fs overview_uri d c -> holds fs abstract_uri d' c' ->
  current_pending [d; d'] = Z.max (pending_child_changes c) (pending_child_changes c').
Proof.
  intros H H'. assert (counters_ok c) as (_ & _ & Hc & _) by (apply (shows_ok fs overview_uri); by exists d).
  destruct H as (? & _ & _ & _ & _ & E), H' as (? & _ & _ & _ & _ & E'). unfold current_pending, pending_of. cbn. rewrite E, E'. cbn. lia.
Qed.

(** How far a refresh counts down. *)
Definition after_refresh (p : Z) (consumed : option Z) : Z := Z.max (p - match consumed with Some k => Z.max k 0 | None => p end) 0.

Section refresh.
Context (m : metadata) (c0 : counters) (header : header_ok m) (fresh : md_freshness m = Some c0) (valid : counters_ok c0).
Context (overview abstract : pystr) (consumed : option Z).

Lemma write_both (fs : store) p to ta : counts fs p -> let q := after_refresh p consumed in
  fresh_text overview (set_count c0 q) to -> fresh_text abstract (set_count c0 q) ta ->
  spec (at_ fs) (_ ← write_changed overview_uri to (fs !! overview_uri); write_changed abstract_uri ta (fs !! abstract_uri))
    (fun _ s => counts (files s) q /\ visible (files s) overview_uri (strip is_space overview) /\ visible (files s) abstract_uri (strip is_space abstract))
    (fun _ s => exists p', counts (files s) p' /\ (q <= p' <= p)%Z).
Proof.
  intros Hcounts q Ho Ha. pose proof (counts_positive _ _ Hcounts) as Hpos. assert (0 <= q <= p)%Z as Hq by (unfold q, after_refresh; destruct consumed; lia).
  assert (counts fs p) as (c & c' & Hsc & Hsc' & Hp) by done.
  assert (forall gs, gs = <[overview_uri := to]> fs -> exists p', counts gs p' /\ (q <= p' <= p)%Z) as Hfirst.
  { intros gs ->. exists (Z.max q (pending_child_changes c')). split; [|lia]. exists (set_count c0 q), c'. split_and!; [by eapply fresh_shows| |done].
    by apply shows_other; [intros ?%symmetry%uris_differ|]. }
  apply spec_bind with (R := fun _ => at_ (<[overview_uri := to]> fs)).
  { eapply spec_conseq; [by apply write_spec|done|intros ? s H; exact H|]. intros e s [H|H]; cbn beta in H.
    - exists p. rewrite H. split; [done|lia].
    - by apply Hfirst. }
  intros []. set (fs1 := <[overview_uri := to]> fs).
  assert (forall gs, gs = <[abstract_uri := ta]> fs1 -> counts gs q) as Hboth.
  { intros gs ->. exists (set_count c0 q), (set_count c0 q). split_and!; [|by eapply fresh_shows|cbn; lia]. apply shows_other; [apply uris_differ|]. by eapply fresh_shows. }
  eapply spec_conseq; [apply (write_spec fs1); unfold fs1; by rewrite lookup_insert_ne by apply uris_differ|done| |].
  - intros a s H. cbn beta in H. split_and!; [by apply Hboth| |]; rewrite H; [exists to|exists ta].
    + rewrite lookup_insert_ne by (intros ?%symmetry%uris_differ; done). unfold fs1. rewrite lookup_insert_eq. split; [done|by eapply fresh_visible].
    + rewrite lookup_insert_eq. split; [done|by eapply fresh_visible].
  - intros e s [H|H]; [by apply Hfirst|]. exists q. split; [by apply Hboth|lia].
Qed.

(** What [write_abstract_overview] does to the counter and the bodies. *)
Lemma write_locked_spec (fs : store) p : counts fs p -> let q := after_refresh p consumed in
  spec (at_ fs) (write_locked overview_uri abstract_uri dir overview abstract (metadata_dict m) consumed)
    (fun r s => wr_wrote r = true /\ counts (files s) q /\ visible (files s) overview_uri (strip is_space overview) /\ visible (files s) abstract_uri (strip is_space abstract))
    (fun _ s => exists p', counts (files s) p' /\ (q <= p' <= p)%Z).
Proof.
  intros Hcounts q. pose proof (counts_positive _ _ Hcounts) as Hpos. assert (0 <= q <= p)%Z as Hq by (unfold q, after_refresh; destruct consumed; lia).
  assert (counts fs p) as (c & c' & Hsc & Hsc' & Hp) by done.
  assert (forall (e : exn) s, files s = fs -> exists p', counts (files s) p' /\ (q <= p' <= p)%Z) as HE by (intros e s ->; exists p; split; [done|lia]).
  unfold write_locked. apply (spec_read fs _ c); [done|exact HE|intros d Hd]. apply (spec_read fs _ c'); [done|exact HE|intros d' Hd'].
  cbn [option_list]. change ([d] ++ [d']) with [d; d']. destruct (merged_parts m c0 [d; d'] consumed q header fresh valid) as (so & f & H1 & H2 & H3 & H4 & H5).
  { constructor; [by destruct Hd as (? & _ & _ & _ & H & _)|]. constructor; [by destruct Hd' as (? & _ & _ & _ & H & _)|done]. }
  { lia. }
  { unfold q, after_refresh. by rewrite (existing_pending fs d d' c c'), <- Hp. }
  set (md := Overview.consume _ _ _) in *. clearbody md.
  assert (forall level body text, render_abstract_overview level dir body md = Ok text -> fresh_text body (set_count c0 q) text) as Hr.
  { intros level body text Ht. destruct header as (_ & _ & Hg). by eapply render_counters. }
  apply spec_bind with (R := fun t s => files s = fs /\ fresh_text overview (set_count c0 q) t); [apply spec_lift; eauto|intros to].
  apply spec_bind with (R := fun t s => files s = fs /\ fresh_text overview (set_count c0 q) to /\ fresh_text abstract (set_count c0 q) t).
  { apply spec_lift; [intros t s Ht [Hs Ho]; eauto|intros e s _ [Hs _]; by apply (HE e)]. }
  intros ta s (Hs & Ho & Ha).
  assert (spec (at_ fs) (co ← raw_if_exists overview_uri; ca ← raw_if_exists abstract_uri; _ ← write_changed overview_uri to co; write_changed abstract_uri ta ca)
    (fun _ s => counts (files s) q /\ visible (files s) overview_uri (strip is_space overview) /\ visible (files s) abstract_uri (strip is_space abstract))
    (fun _ s => exists p', counts (files s) p' /\ (q <= p' <= p)%Z)) as Hw.
  { eapply spec_bind; [eapply spec_conseq; [apply (raw_spec fs)|intros s' H; exact H|intros o s' H; exact H|exact HE]|]. intros o s1 [Hs1 ->]. rewrite st_bind_unfold.
    pose proof (raw_spec fs abstract_uri s1 Hs1) as H. destruct (raw_if_exists abstract_uri s1) as [[o|e] s2]; [|by apply (HE e)]. destruct H as [Hs2 ->].
    by apply (write_both fs p to ta). }
  specialize (Hw s Hs). revert Hw. rewrite !st_bind_unfold. destruct (raw_if_exists overview_uri s) as [[co|?] s1]; [|done]. rewrite !st_bind_unfold.
  destruct (raw_if_exists abstract_uri s1) as [[ca|?] s2]; [|done]. rewrite !st_bind_unfold. destruct (write_changed overview_uri to co s2) as [[?|?] s3]; [|done].
  rewrite !st_bind_unfold. destruct (write_changed abstract_uri ta ca s3) as [[?|?] s4]; [|done]. cbn. tauto.
Qed.

Lemma write_abstract_overview_spec (fs : store) p stale stale' lock : counts fs p -> let q := after_refresh p consumed in
  spec (at_ fs) (write_abstract_overview dir overview abstract stale stale' (metadata_dict m) consumed lock)
    (fun r s => if wr_wrote r then counts (files s) q /\ visible (files s) overview_uri (strip is_space overview) /\ visible (files s) abstract_uri (strip is_space abstract)
                else counts (files s) p)
    (fun _ s => exists p', counts (files s) p' /\ (q <= p' <= p)%Z).
Proof.
  intros Hcounts q. pose proof (counts_positive _ _ Hcounts) as Hpos. assert (0 <= q <= p)%Z as Hq by (unfold q, after_refresh; destruct consumed; lia).
  unfold write_abstract_overview. destruct stale; [apply spec_ret; by intros s ->|].
  apply (sidecars_spec _ _ fs _ (fun r gs => if wr_wrote r then counts gs q /\ visible gs overview_uri (strip is_space overview) /\ visible gs abstract_uri (strip is_space abstract)
    else counts gs p) (fun gs => exists p', counts gs p' /\ (q <= p' <= p)%Z)).
  - exists p. split; [done|lia].
  - intros r gs H. destruct (wr_wrote r); [exists q; split; [apply H|lia]|exists p; split; [done|lia]].
  - destruct stale'; [apply spec_ret; by intros s ->|]. eapply spec_conseq; [by apply write_locked_spec|done| |done]. intros r s (-> & H). exact H.
Qed.
End refresh.

(** ** Changes while a summary is generated *)

(** Changes recorded one after the other, with the least and the largest number that can
    have been counted: a recording that fails may have counted. *)
Inductive marks : F -> Z -> Z -> F -> Prop :=
| marks_none f : marks f 0 0 f
| marks_more f lo hi f' limit ratio force n r f'' : marks f lo hi f' -> (0 < n)%Z ->
    plan_abstract_overview_refresh limit ratio force dir n true f' = (r, f'') ->
    marks f (lo + match r with Ok _ => n | Err _ => 0 end) (hi + n) f''.

Lemma marks_count f lo hi f' p : marks f lo hi f' -> counts (files f) p -> exists p', counts (files f') p' /\ (p + lo <= p' <= p + hi)%Z /\ (0 <= hi)%Z.
Proof.
  induction 1 as [f|f lo hi f' limit ratio force n r f'' _ IH Hn H]; intros Hp; [exists p; split; [done|lia]|].
  destruct (IH Hp) as (p' & Hp' & Hb). pose proof (plan_spec limit ratio force _ p' n Hp' Hn f' eq_refl) as Hs. rewrite H in Hs. destruct r as [d|e].
  - destruct Hs as [_ Hs]. exists (p' + n)%Z. split; [done|lia].
  - destruct Hs as [Hs|Hs]; [exists p'|exists (p' + n)%Z]; (split; [done|lia]).
Qed.

End counting.
