(* ===== verification/MemStore.v ===== *)
(** Stores in memory, where theorems on files are applied: a codec for values, and files
    with failures and cancellations where a script puts them. *)
From Stdlib Require Import NArith ZArith.
From S2P Require Import Prelude Effects PyStr PyVal WireJson.

Open Scope N_scope.

(** ** A codec *)

(** The text of [WireJson] between braces, above the codes of line ends. *)
Definition shift : N := 20000.
Definition mem_dumps (v : pyval) : pystr := 123 :: ((fun c => c + shift) <$> wire v) ++ [125].
Definition mem_loads (s : pystr) : result pyval :=
  match s with
  | 123 :: r => wire_loads ((fun c => c - shift) <$> removelast r)
  | _ => Err ValueError
  end.

Lemma unshift (s : pystr) : (fun c => c - shift) <$> ((fun c => c + shift) <$> s) = s.
Proof. induction s as [|c s IH]; [done|]. rewrite !fmap_cons, IH. f_equal. lia. Qed.

Lemma shift_above (s : pystr) c : c ∈ ((fun c => c + shift) <$> s) -> shift <= c.
Proof. intros (d & -> & _)%list_elem_of_fmap. lia. Qed.

(** ** Files *)

(** What happens to the next operation that reads or writes: nothing, or an exception
    before or after its effect. *)
Inductive fault := Fine | Before (e : exn) | After (e : exn).
Record memfs := MkFs { mf_files : gmap pystr pystr; mf_dirs : gset pystr; mf_faults : list fault }.

(** The exception of a fault while reading: a cancellation, or on a flaky store any other
    than that of a missing file. *)
Definition fault_exn (flaky : bool) (e : exn) : exn := if flaky then match e with NotFoundError => OtherError | e => e end else CancelledError.
Definition next (f : memfs) : fault * memfs :=
  match mf_faults f with
  | [] => (Fine, f)
  | x :: l => (x, MkFs (mf_files f) (mf_dirs f) l)
  end.
Definition put (uri c : pystr) (f : memfs) : memfs := MkFs (<[uri := c]> (mf_files f)) (mf_dirs f) (mf_faults f).

Definition mem_write (uri c : pystr) : ST memfs unit := fun f =>
  let '(x, f) := next f in
  match x with
  | Fine => (Ok tt, put uri c f)
  | Before e => (Err e, f)
  | After e => (Err e, put uri c f)
  end.

(** Reading on a steady or a flaky store. *)
Definition mem_read (flaky : bool) (uri : pystr) : ST memfs pystr := fun f =>
  let '(x, f) := next f in
  match x with
  | Fine => (match mf_files f !! uri with Some c => Ok c | None => Err NotFoundError end, f)
  | Before e | After e => (Err (fault_exn flaky e), f)
  end.

Lemma next_files f : mf_files (next f).2 = mf_files f.
Proof. unfold next. by destruct (mf_faults f). Qed.

Lemma mem_write_ok uri c f :
  match mem_write uri c f with
  | (Ok _, f') => mf_files f' = <[uri := c]> (mf_files f)
  | (Err _, f') => mf_files f' = mf_files f \/ mf_files f' = <[uri := c]> (mf_files f)
  end.
Proof.
  unfold mem_write. pose proof (next_files f) as H. destruct (next f) as [[|e|e] f']; cbn in *; rewrite H; auto.
Qed.

Lemma mem_read_ok flaky uri f : mf_files (mem_read flaky uri f).2 = mf_files f
  /\ match (mem_read flaky uri f).1 with Ok c => mf_files f !! uri = Some c | Err NotFoundError => mf_files f !! uri = None | Err _ => True end.
Proof.
  unfold mem_read. pose proof (next_files f) as H. destruct (next f) as [[|e|e] f']; cbn [fst snd] in *; [|by destruct flaky, e|by destruct flaky, e].
  rewrite <- H. split; [done|]. by destruct (mf_files f' !! uri).
Qed.
