(* ===== verification/OverviewRuns.v ===== *)
(** Generated overviews in memory: the theorems applied to concrete directories, and runs
    that show where the code does not do what it says. *)
From Stdlib Require Import NArith ZArith SpecFloat.
From S2P Require Import Prelude Effects PyStr PyVal WireJson Identifiers WorkIndex Message MemStore Overview OverviewTheory OverviewCounters.

Open Scope N_scope.

(** ** A codec and files that keep the laws *)

#[export] Instance mem_overview : OverviewEnv := {|
  yaml_load s := match mem_loads (removelast s) with Ok v => Some v | Err _ => None end;
  yaml_dump d := mem_dumps (VDict d);
  value_text v := mem_dumps v;
  sha256_hex s := s |}.

Lemma dump_strip v : rstrip is_space (mem_dumps v) = mem_dumps v.
Proof. apply (rstrip_id _ _ 125); [|done]. unfold mem_dumps. by rewrite app_comm_cons, last_snoc. Qed.

Lemma one_line_split s : single_line s -> splitlines (s ++ [c_nl]) = [s ++ [c_nl]].
Proof. induction 1 as [|c s Hc _ IH]; [by vm_compute|]. cbn [app splitlines]. rewrite Hc, IH. done. Qed.

Lemma not_break c : 8233 < c -> is_break c = false.
Proof. intros H. apply bool_decide_eq_false. unfold line_breaks. rewrite !elem_of_cons, elem_of_nil. lia. Qed.

Lemma dump_line v : single_line (mem_dumps v).
Proof.
  unfold mem_dumps. constructor; [by vm_compute|]. apply Forall_app. split; [|by repeat constructor].
  apply Forall_forall. intros c H%shift_above. apply not_break. unfold shift in H. lia.
Qed.

#[export] Instance mem_overview_ok : OverviewEnvOk.
Proof.
  split; intros m _; unfold yaml_dump; cbn [mem_overview]; rewrite dump_strip.
  - unfold yaml_load. cbn [mem_overview]. rewrite removelast_last. unfold mem_loads, mem_dumps. rewrite removelast_last, unshift, wire_roundtrip. done.
  - rewrite one_line_split by apply dump_line. constructor; [|done]. unfold is_fence. apply seqb_false.
    rewrite rstrip_snoc by done. rewrite (rstrip_id _ _ 125); [by vm_compute| |done]. unfold mem_dumps. by rewrite app_comm_cons, last_snoc.
Qed.

#[export] Instance mem_sidecars : SidecarFS memfs := {|
  sc_read := mem_read false;
  sc_write := mem_write;
  sc_lock _ f := (Ok 1, f);
  sc_unlock _ f := (Ok tt, f) |}.

#[export] Instance mem_sidecars_ok : SidecarFSOk memfs mf_files.
Proof.
  split; [|intros uri c f; apply mem_write_ok|done|done]. intros uri f. cbn. unfold mem_read. pose proof (next_files f) as H.
  destruct (next f) as [[|e|e] f']; cbn in *; [|done..]. rewrite <- H. split; [done|]. by destruct (mf_files f' !! uri).
Qed.

(** ** Documents *)

Definition sdir : pystr := u "viking://resources/docs".
Definition generated : metadata := MkMetadata None None (Some (u "SemanticProcessor", u "write")) (Some (MkCounters 40 32 8 0)).
Definition spaced_body : pystr := c_nl :: u "# Docs" ++ [c_nl; c_nl].
Definition stored_metadata : metadata := MkMetadata (Some (sdir ++ [c_slash])) None (md_generated_by generated) (md_freshness generated).

Definition text_of_result (r : result pystr) : pystr := match r with Ok t => t | Err _ => [] end.
Definition docs_text : pystr := text_of_result (render_abstract_overview OVERVIEW sdir spaced_body (metadata_dict generated)).

Lemma stored_header : header_ok stored_metadata.
Proof. split_and!; try split; apply (bool_decide_eq_true_1 (Forall _ _)); by vm_compute. Qed.

Lemma rendered_reread_witness :
  parse_abstract_overview docs_text = Ok (MkDocument stored_metadata (strip is_space spaced_body ++ [c_nl]) false)
  /\ body_for_preview docs_text = Ok (u "# Docs").
Proof.
  destruct (rendered_reread OVERVIEW sdir spaced_body (metadata_dict generated) docs_text stored_metadata) as (H1 & H2 & _).
  - by vm_compute.
  - exists (sdir ++ [c_slash]). split; by vm_compute.
  - apply stored_header.
  - split; [exact H1|exact H2].
Defined.

(** A body is sent for the stored overview: the metadata stay. *)
Definition docs_uri : pystr := sdir ++ [c_slash] ++ OVERVIEW_NAME.
Definition docs_document : document := MkDocument stored_metadata (u "# Docs" ++ [c_nl]) false.
Definition edited_text : pystr := text_of_result (prepare_abstract_overview_write docs_uri docs_text (u "# New") (u "replace")).

Lemma metadata_protected_witness :
  exists written, parse_abstract_overview edited_text = Ok written /\ doc_metadata written = stored_metadata /\ body_for_preview edited_text = Ok (u "# New").
Proof.
  destruct (metadata_protected docs_uri docs_text (u "# New") (u "replace") edited_text docs_document) as (q & w & Hq & H1 & _ & _ & H2 & H3).
  - by vm_compute.
  - apply stored_header.
  - apply (bool_decide_eq_true_1 (Forall _ _)). by vm_compute.
  - by vm_compute.
  - exists w. split; [exact H1|]. split; [exact H2|]. rewrite H3.
    assert (Ok q = Ok (MkDocument no_metadata (u "# New") true)) as [= ->] by (rewrite <- Hq; by vm_compute). by vm_compute.
Defined.

(** ** Counting changes *)

Definition both (t : pystr -> result pystr) : memfs :=
  MkFs (<[docs_uri := text_of_result (t (u "# Docs"))]> (<[sdir ++ [c_slash] ++ ABSTRACT_NAME := text_of_result (t (u "docs"))]> ∅)) ∅ (replicate 24 Fine ++ [After OtherError]).
Definition start_fs : memfs := both (fun body => render_abstract_overview OVERVIEW sdir body (metadata_dict generated)).

Abbreviation plan n := (plan_abstract_overview_refresh 32 ONE_TENTH false sdir n true).
Abbreviation snapshot := (read_pending_snapshot sdir None).
Abbreviation refresh consumed := (write_abstract_overview sdir (u "# Docs again") (u "docs") false false (metadata_dict generated) consumed None).

(** One change, a snapshot, three changes of which the second fails after it wrote one
    file, and the refresh. *)
Definition run1 := plan 1%Z start_fs.
Definition run2 := snapshot run1.2.
Definition run3 := plan 2%Z run2.2.
Definition run4 := plan 1%Z run3.2.
Definition run5 := plan 1%Z run4.2.
Definition run6 := refresh (Some 1%Z) run5.2.

Definition counted (f : memfs) : option Z * option Z :=
  let at_ uri := match mf_files f !! uri with Some raw => match parse_abstract_overview raw with Ok d => pending_of d | Err _ => None end | None => None end in
  (at_ docs_uri, at_ (sdir ++ [c_slash] ++ ABSTRACT_NAME)).

Example run_counts :
  counted run1.2 = (Some 1%Z, Some 1%Z) /\ run2.1 = Ok 1%Z /\ counted run3.2 = (Some 3%Z, Some 3%Z) /\ counted run4.2 = (Some 4%Z, Some 3%Z)
  /\ counted run5.2 = (Some 5%Z, Some 5%Z) /\ counted run6.2 = (Some 4%Z, Some 4%Z).
Proof. by vm_compute. Qed.

Definition counted_metadata (p : Z) : metadata := MkMetadata (md_directory stored_metadata) None (md_generated_by generated) (Some (MkCounters 40 32 8 p)).
Definition document_at (f : memfs) (uri : pystr) : option document :=
  match mf_files f !! uri with Some raw => match parse_abstract_overview raw with Ok d => Some d | Err _ => None end | None => None end.

Lemma shows_at f uri p body : document_at f uri = Some (MkDocument (counted_metadata p) body false) -> shows (mf_files f) uri (MkCounters 40 32 8 p).
Proof.
  unfold document_at. destruct (mf_files f !! uri) as [raw|] eqn:E; [|done]. destruct (parse_abstract_overview raw) as [d|] eqn:Hp; [|done].
  intros [= ->]. exists (MkDocument (counted_metadata p) body false), raw. split_and!; [done..|apply stored_header|done].
Qed.


(** ** Runs that show limits *)

(** A tenth of the entries is the threshold, as doubles: 4 of 40 reach it. *)
Example threshold_reached :
  decide_parent_refresh true true 40 3 1 32 ONE_TENTH false = Ok (MkDecision REFRESH_NOW 4 40)
  /\ decide_parent_refresh true true 40 2 1 32 ONE_TENTH false = Ok (MkDecision MARK_PENDING 3 40).
Proof. by vm_compute. Qed.

(** The root has no normal form: its two slashes are stripped with the others, and the
    second normalization refuses what is left. *)
Example root_has_no_overview :
  normalize_directory_uri (u "viking://") = Ok (u "viking:/")
  /\ render_abstract_overview OVERVIEW (u "viking://") (u "all") [] = Err ValueError.
Proof. by vm_compute. Qed.

(** A refresh that names no snapshot consumes the changes that arrived while it ran. *)
Example unnamed_snapshot_forgets : counted run5.2 = (Some 5%Z, Some 5%Z) /\ counted (refresh None run5.2).2 = (Some 0%Z, Some 0%Z).
Proof. by vm_compute. Qed.
