(* ===== verification/SessionPolicy.v ===== *)
(** Session policies: [session/auto_commit_policy.py], [session/memory_policy.py], the
    policy helpers at the top of [session/session.py], and [utils/tags.py]. *)
From Stdlib Require Import NArith ZArith.
From S2P Require Import Prelude PyStr PyVal Identifiers WorkIndex.

Open Scope N_scope.

(** ** Search tags *)

Definition MAX_TAG_KEY_LENGTH : nat := 64.
Definition MAX_TAG_VALUE_LENGTH : nat := 128.
Definition MAX_TAG_LENGTH : nat := 64 + 1 + 128.
Definition c_eq : N := 61.

Definition tag_head_char (c : N) : bool := ((97 <=? c) && (c <=? 122)) || ((48 <=? c) && (c <=? 57)).
Definition tag_char (c : N) : bool := tag_head_char c || (c =? c_under) || (c =? c_dot) || (c =? c_minus).

(** [_TAG_TOKEN_RE.match(s)] for [^[a-z0-9][a-z0-9_.-]*$]. *)
Definition tag_token (s : pystr) : bool :=
  match dollar_body s with c :: r => tag_head_char c && forallb tag_char r | [] => false end.

Section tags.
(** [str.lower]. *)
Context (lower : pystr -> pystr).

Definition normalize_search_tag (tag : pystr) : result pystr :=
  let value := lower (strip is_space tag) in
  if negb (nonempty value) then Err InvalidArgumentError
  else if (MAX_TAG_LENGTH <? length value)%nat then Err InvalidArgumentError
  else if negb (count c_eq value =? 1)%nat then Err InvalidArgumentError
  else
    let '(key, _, raw_value) := partition c_eq value in
    if negb (nonempty key) || negb (nonempty raw_value) then Err InvalidArgumentError
    else if (MAX_TAG_KEY_LENGTH <? length key)%nat then Err InvalidArgumentError
    else if (MAX_TAG_VALUE_LENGTH <? length raw_value)%nat then Err InvalidArgumentError
    else if negb (tag_token key) || negb (tag_token raw_value) then Err InvalidArgumentError
    else Ok (key ++ [c_eq] ++ raw_value).

(** [key, raw_value = value.split("=", 1)]. *)
Definition tag_item (value : pystr) : pystr * pystr := let '(key, _, raw_value) := partition c_eq value in (key, raw_value).
Definition tag_text (kv : pystr * pystr) : pystr := kv.1 ++ [c_eq] ++ kv.2.

Fixpoint collect_tags (discard_invalid : bool) (tags : list (option pystr)) (values_by_key : list (pystr * pystr))
    : result (list (pystr * pystr)) :=
  match tags with
  | [] => Ok values_by_key
  | None :: tags => collect_tags discard_invalid tags values_by_key
  | Some item :: tags =>
      match normalize_search_tag item with
      | Ok value => let '(key, raw_value) := tag_item value in collect_tags discard_invalid tags (dict_set values_by_key key raw_value)
      | Err e => if discard_invalid then collect_tags discard_invalid tags values_by_key else Err e
      end
  end.

Definition normalize_search_tags (tags : option (list (option pystr))) (discard_invalid : bool) : result (list pystr) :=
  match tags with
  | None | Some [] => Ok []
  | Some tags => match collect_tags discard_invalid tags [] with Ok values => Ok (tag_text <$> values) | Err e => Err e end
  end.

(** [merge_search_tags]. *)
Definition merge_search_tags (existing incoming : option (list (option pystr))) : result (list pystr) :=
  old ← normalize_search_tags existing true;
  new ← normalize_search_tags incoming true;
  Ok (tag_text <$> foldl (fun ordered item => let '(key, value) := tag_item item in dict_set ordered key value) [] (old ++ new)).

(** [_resolve_event_search_tags]. *)
Definition resolve_event_search_tags (commit_tags session_default_tags : option (list pystr)) : result (list pystr) :=
  let chosen := match commit_tags with Some _ => commit_tags | None => session_default_tags end in
  normalize_search_tags (option_map (map Some) chosen) false.
End tags.

(** ** Automatic commits *)

Definition DEFAULT_PENDING_TOKEN_THRESHOLD : Z := 150000.
Definition DEFAULT_MESSAGE_COUNT_THRESHOLD : Z := 100.
Definition DEFAULT_IDLE_TIMEOUT_SECONDS : Z := 86400.
Definition DEFAULT_KEEP_RECENT_COUNT : Z := 0.
Definition DEFAULT_MIN_COMMIT_INTERVAL_SECONDS : Z := 0.
Definition MAX_PENDING_TOKEN_THRESHOLD : Z := 1000000.
Definition MAX_MESSAGE_COUNT_THRESHOLD : Z := 1000.
Definition MAX_IDLE_TIMEOUT_SECONDS : Z := 604800.

(** [int(v)], or [None] when it raises [TypeError] or [ValueError]; a double is truncated
    towards zero. *)
Definition to_int (v : pyval) : option Z :=
  match v with
  | VInt z => Some z
  | VBool b => Some (if b then 1 else 0)%Z
  | VFloat z => Some (Z.quot z (2 ^ 1074))
  | VStr s => py_int s
  | _ => None
  end.

Definition coerce_int (v : pyval) (minimum maximum : Z) : result Z :=
  match to_int v with
  | None => Err InvalidArgumentError
  | Some parsed =>
      let parsed := if (parsed <? minimum)%Z then minimum else parsed in
      Ok (if (maximum <? parsed)%Z then maximum else parsed)
  end.

Record AutoCommitPolicy := MkAuto {
  pending_token_threshold : Z; message_count_threshold : Z; idle_timeout_seconds : Z; policy_keep_recent_count : Z;
  min_commit_interval_seconds : Z }.

Definition auto_default : AutoCommitPolicy :=
  MkAuto DEFAULT_PENDING_TOKEN_THRESHOLD DEFAULT_MESSAGE_COUNT_THRESHOLD DEFAULT_IDLE_TIMEOUT_SECONDS DEFAULT_KEEP_RECENT_COUNT
    DEFAULT_MIN_COMMIT_INTERVAL_SECONDS.

Definition auto_keys : list pystr :=
  [u "pending_token_threshold"; u "message_count_threshold"; u "idle_timeout_seconds"; u "keep_recent_count";
   u "min_commit_interval_seconds"].

Definition only_keys (keys : list pystr) (d : pydict) : bool := forallb (fun kv => mem kv.1 keys) d.

(** [AutoCommitPolicy.from_dict] of a dict or [None]. *)
Definition auto_from_dict (data : pyval) : result AutoCommitPolicy :=
  match data with
  | VNone => Ok auto_default
  | VDict d =>
      if negb (only_keys auto_keys d) then Err InvalidArgumentError
      else
        let field k dflt maximum := coerce_int (default (VInt dflt) (dict_get d (u k))) 0 maximum in
        a ← field "pending_token_threshold"%string DEFAULT_PENDING_TOKEN_THRESHOLD MAX_PENDING_TOKEN_THRESHOLD;
        b ← field "message_count_threshold"%string DEFAULT_MESSAGE_COUNT_THRESHOLD MAX_MESSAGE_COUNT_THRESHOLD;
        c ← field "idle_timeout_seconds"%string DEFAULT_IDLE_TIMEOUT_SECONDS MAX_IDLE_TIMEOUT_SECONDS;
        k ← field "keep_recent_count"%string DEFAULT_KEEP_RECENT_COUNT MAX_MESSAGE_COUNT_THRESHOLD;
        i ← field "min_commit_interval_seconds"%string DEFAULT_MIN_COMMIT_INTERVAL_SECONDS MAX_IDLE_TIMEOUT_SECONDS;
        Ok (MkAuto a b c k i)
  | _ => Err InvalidArgumentError
  end.

Definition auto_to_dict (p : AutoCommitPolicy) : pydict :=
  [(u "pending_token_threshold", VInt (pending_token_threshold p)); (u "message_count_threshold", VInt (message_count_threshold p));
   (u "idle_timeout_seconds", VInt (idle_timeout_seconds p)); (u "keep_recent_count", VInt (policy_keep_recent_count p));
   (u "min_commit_interval_seconds", VInt (min_commit_interval_seconds p))].

(** ** Memory extraction *)

Definition CASE_MEMORY_TYPE : pystr := u "cases".
Definition TRAJECTORY_MEMORY_TYPE : pystr := u "trajectories".
Definition EXPERIENCE_MEMORY_TYPE : pystr := u "experiences".
Definition AGENT_EVOLUTION_MEMORY_TYPES : gset pystr := {[CASE_MEMORY_TYPE; TRAJECTORY_MEMORY_TYPE; EXPERIENCE_MEMORY_TYPE]}.

Record MemoryPolicy := MkPolicy {
  self_enabled : bool; peer_enabled : bool; memory_types : option (gset pystr); working_memory_enabled : bool }.
Definition memory_default : MemoryPolicy := MkPolicy true true None true.

Section memory.
(** [str.casefold]. *)
Context (casefold : pystr -> pystr).

Definition parse_enabled (v : pyval) : bool :=
  match v with
  | VStr s =>
      let normalized := casefold (strip is_space s) in
      if mem normalized [u "1"; u "true"; u "yes"; u "on"] then true
      else if mem normalized [[]; u "0"; u "false"; u "no"; u "off"] then false
      else py_truthy v
  | v => py_truthy v
  end.

Definition target_enabled (data : pyval) : result bool :=
  match data with
  | VNone => Ok true
  | VDict d =>
      if negb (only_keys [u "enabled"] d) then Err InvalidArgumentError
      else Ok (match dict_get d (u "enabled") with Some v => parse_enabled v | None => true end)
  | _ => Err InvalidArgumentError
  end.

Fixpoint type_names (l : list pyval) : result (list pystr) :=
  match l with
  | [] => Ok []
  | VStr s :: l => if nonempty s then names ← type_names l; Ok (s :: names) else Err InvalidArgumentError
  | _ :: _ => Err InvalidArgumentError
  end.

Definition parse_memory_types (data : pyval) : result (option (gset pystr)) :=
  match data with
  | VNone => Ok None
  | VList l =>
      names ← type_names l;
      let types : gset pystr := list_to_set names in
      Ok (Some (if bool_decide (EXPERIENCE_MEMORY_TYPE ∈ types) then types ∪ AGENT_EVOLUTION_MEMORY_TYPES
                else types ∖ AGENT_EVOLUTION_MEMORY_TYPES))
  | _ => Err InvalidArgumentError
  end.

(** [MemoryPolicy.from_dict] of a dict or [None]. *)
Definition memory_from_dict (data : pyval) : result MemoryPolicy :=
  match data with
  | VNone => Ok memory_default
  | VDict d =>
      if negb (only_keys [u "self"; u "peer"; u "memory_types"; u "working_memory"] d) then Err InvalidArgumentError
      else
        s ← target_enabled (get_or_none d (u "self"));
        p ← target_enabled (get_or_none d (u "peer"));
        t ← parse_memory_types (get_or_none d (u "memory_types"));
        w ← target_enabled (get_or_none d (u "working_memory"));
        Ok (MkPolicy s p t w)
  | _ => Err InvalidArgumentError
  end.
End memory.

Definition enabled_dict (b : bool) : pyval := VDict [(u "enabled", VBool b)].
Definition sorted_set (s : gset pystr) : list pystr := sorted_strs (elements s).

Definition memory_to_dict (p : MemoryPolicy) : pydict :=
  [(u "self", enabled_dict (self_enabled p)); (u "peer", enabled_dict (peer_enabled p))]
  ++ (if working_memory_enabled p then [] else [(u "working_memory", enabled_dict false)])
  ++ match memory_types p with Some s => [(u "memory_types", VList (VStr <$> sorted_set s))] | None => [] end.

Section registry.
(** The memory types registered and enabled. *)
Context (enabled_memory_types : gset pystr).

(** [_validate_memory_policy_types] and [validate_memory_types]. *)
Definition validate_memory_types (p : MemoryPolicy) : result unit :=
  match memory_types p with
  | None => Ok tt
  | Some types => if bool_decide (types ⊆ enabled_memory_types) then Ok tt else Err InvalidArgumentError
  end.

Definition effective_memory_types (p : MemoryPolicy) : gset pystr := default enabled_memory_types (memory_types p).

(** [_apply_agent_evolution_setting]. *)
Definition apply_agent_evolution_setting (p : MemoryPolicy) (agent_evolution_enabled : bool) : MemoryPolicy :=
  if agent_evolution_enabled then p
  else MkPolicy (self_enabled p) (peer_enabled p) (Some (effective_memory_types p ∖ AGENT_EVOLUTION_MEMORY_TYPES)) (working_memory_enabled p).
End registry.

(** [_agent_memory_skip_reason]. *)
Definition agent_memory_skip_reason (agent_evolution_enabled : bool) (types : gset pystr) (user_config_error : option pystr) : option pystr :=
  if match user_config_error with Some e => nonempty e | None => false end then Some (u "invalid_user_config")
  else if negb agent_evolution_enabled then Some (u "agent_evolution_disabled")
  else if negb (bool_decide (EXPERIENCE_MEMORY_TYPE ∈ types)) then Some (u "memory_types_filtered")
  else None.
