(* ===== verification/SessionMeta.v ===== *)
(** The metadata of a session: [SessionMeta] of [session/session.py]. *)
From Stdlib Require Import NArith ZArith.
From S2P Require Import Prelude PyStr PyVal Identifiers WorkIndex SessionPolicy.

Open Scope N_scope.

Record TokenUsage := MkUsageCounts {
  tu_prompt_tokens : Z; tu_completion_tokens : Z; tu_total_tokens : Z; tu_cached_tokens : Z; tu_reasoning_tokens : Z }.

Record SessionMeta := MkSessionMeta {
  sm_session_id : pystr;
  sm_created_at : pystr;
  sm_updated_at : pystr;
  sm_created_by_account_id : pystr;
  sm_created_by_user_id : pystr;
  sm_message_count : Z;
  sm_total_message_count : option Z;
  sm_commit_count : Z;
  sm_memories_extracted : list (pystr * Z);
  sm_last_commit_at : pystr;
  sm_llm_token_usage : TokenUsage;
  sm_embedding_total : Z;
  sm_pending_tokens : Z;
  sm_keep_recent_count : Z;
  sm_retention_mode : pystr;
  sm_keep_recent_turn_count : Z;
  sm_retained_message_token_budget : Z;
  sm_min_raw_tail_steps : Z;
  sm_memory_policy : option pydict;
  sm_auto_commit_policy : option pydict;
  sm_last_message_at : pystr;
  sm_last_auto_commit_at : pystr;
  sm_event_search_tags : option (list pystr) }.

Definition default_memory_counts : list (pystr * Z) := [(u "total", 0%Z)].

(** [SessionMeta(session_id=..., created_at=..., created_by_account_id=..., created_by_user_id=...)]. *)
Definition new_meta (session_id created_at account user : pystr) : SessionMeta :=
  MkSessionMeta session_id created_at [] account user 0 (Some 0%Z) 0 default_memory_counts [] (MkUsageCounts 0 0 0 0 0) 0 0 0 [] 0 0 1
    None None [] [] None.

(** ** Reading *)

(** Typed [data.get(k, default)], as in [Message]: a value of another type is outside the
    record. *)
Definition meta_str (d : pydict) (k : string) : result pystr :=
  match dict_get d (u k) with None => Ok [] | Some (VStr s) => Ok s | Some _ => Err TypeError end.
Definition meta_int (d : pydict) (k : string) : result Z :=
  match dict_get d (u k) with None => Ok 0%Z | Some (VInt z) => Ok z | Some _ => Err TypeError end.
Definition meta_opt_int (d : pydict) (k : string) : result (option Z) :=
  match get_or_none d (u k) with VNone => Ok None | VInt z => Ok (Some z) | _ => Err TypeError end.
Definition meta_dict (d : pydict) (k : string) : result pydict :=
  match dict_get d (u k) with None => Ok [] | Some (VDict s) => Ok s | Some _ => Err TypeError end.
Definition meta_opt_dict (d : pydict) (k : string) : result (option pydict) :=
  match get_or_none d (u k) with VNone => Ok None | VDict s => Ok (Some s) | _ => Err TypeError end.
Fixpoint text_list (l : list pyval) : result (list pystr) :=
  match l with
  | [] => Ok []
  | VStr s :: l => r ← text_list l; Ok (s :: r)
  | _ :: _ => Err TypeError
  end.
Definition meta_opt_tags (d : pydict) (k : string) : result (option (list pystr)) :=
  match get_or_none d (u k) with VNone => Ok None | VList l => Some <$> text_list l | _ => Err TypeError end.

(** [max(0, int(v or 0))]. *)
Definition nonneg_int (v : pyval) : result Z :=
  match to_int (py_or v (VInt 0)) with Some z => Ok (Z.max 0 z) | None => Err TypeError end.
Definition meta_nonneg (d : pydict) (k : string) (dflt : Z) : result Z := nonneg_int (default (VInt dflt) (dict_get d (u k))).

(** The loop over the stored counts: a count that is no number becomes zero. *)
Definition memory_counts (memories : pydict) : list (pystr * Z) :=
  foldl (fun counts kv => dict_set counts kv.1 (default 0%Z (to_int (py_or kv.2 (VInt 0))))) default_memory_counts memories.

Definition usage_from_dict (d : pydict) : result TokenUsage :=
  a ← meta_int d "prompt_tokens";
  b ← meta_int d "completion_tokens";
  c ← meta_int d "total_tokens";
  e ← meta_int d "cached_tokens";
  f ← meta_int d "reasoning_tokens";
  Ok (MkUsageCounts a b c e f).

Definition meta_from_dict (render : pyval -> pystr) (data : pydict) : result SessionMeta :=
  llm ← meta_dict data "llm_token_usage";
  embedding ← meta_dict data "embedding_token_usage";
  memories ← meta_dict data "memories_extracted";
  sid ← meta_str data "session_id";
  created ← meta_str data "created_at";
  updated ← meta_str data "updated_at";
  by_account ← meta_str data "created_by_account_id";
  account ← meta_str data "account_id";
  by_user ← meta_str data "created_by_user_id";
  message_count ← meta_int data "message_count";
  total ← meta_opt_int data "total_message_count";
  commits ← meta_int data "commit_count";
  last_commit ← meta_str data "last_commit_at";
  usage ← usage_from_dict llm;
  embedding_total ← meta_int embedding "total_tokens";
  pending ← meta_nonneg data "pending_tokens" 0;
  keep ← meta_nonneg data "keep_recent_count" 0;
  turns ← meta_nonneg data "keep_recent_turn_count" 0;
  budget ← meta_nonneg data "retained_message_token_budget" 0;
  tail ← meta_nonneg data "min_raw_tail_steps" 1;
  policy ← meta_opt_dict data "memory_policy";
  auto ← meta_opt_dict data "auto_commit_policy";
  last_message ← meta_str data "last_message_at";
  last_auto ← meta_str data "last_auto_commit_at";
  tags ← meta_opt_tags data "event_search_tags";
  Ok (MkSessionMeta sid created updated (if nonempty by_account then by_account else account) by_user message_count total commits
        (memory_counts memories) last_commit usage embedding_total pending keep
        (py_str render (py_or (default (VStr []) (dict_get data (u "retention_mode"))) (VStr []))) turns budget tail policy auto
        last_message last_auto tags).

(** ** Writing *)

Definition counts_dict (l : list (pystr * Z)) : pyval := VDict ((fun kv => (kv.1, VInt kv.2)) <$> l).
Definition opt_dict_val (o : option pydict) : pyval := match o with Some d => VDict d | None => VNone end.

Definition usage_to_dict (t : TokenUsage) : pyval :=
  VDict [(u "prompt_tokens", VInt (tu_prompt_tokens t)); (u "completion_tokens", VInt (tu_completion_tokens t));
         (u "total_tokens", VInt (tu_total_tokens t)); (u "cached_tokens", VInt (tu_cached_tokens t));
         (u "reasoning_tokens", VInt (tu_reasoning_tokens t))].

Definition meta_to_dict (m : SessionMeta) : pydict :=
  [(u "session_id", VStr (sm_session_id m)); (u "created_at", VStr (sm_created_at m)); (u "updated_at", VStr (sm_updated_at m));
   (u "created_by_account_id", VStr (sm_created_by_account_id m)); (u "created_by_user_id", VStr (sm_created_by_user_id m));
   (u "message_count", VInt (sm_message_count m)); (u "commit_count", VInt (sm_commit_count m));
   (u "memories_extracted", counts_dict (sm_memories_extracted m)); (u "last_commit_at", VStr (sm_last_commit_at m));
   (u "llm_token_usage", usage_to_dict (sm_llm_token_usage m));
   (u "embedding_token_usage", VDict [(u "total_tokens", VInt (sm_embedding_total m))]);
   (u "pending_tokens", VInt (sm_pending_tokens m)); (u "keep_recent_count", VInt (sm_keep_recent_count m));
   (u "retention_mode", VStr (sm_retention_mode m)); (u "keep_recent_turn_count", VInt (sm_keep_recent_turn_count m));
   (u "retained_message_token_budget", VInt (sm_retained_message_token_budget m));
   (u "min_raw_tail_steps", VInt (sm_min_raw_tail_steps m)); (u "memory_policy", opt_dict_val (sm_memory_policy m));
   (u "auto_commit_policy", opt_dict_val (sm_auto_commit_policy m)); (u "last_message_at", VStr (sm_last_message_at m));
   (u "last_auto_commit_at", VStr (sm_last_auto_commit_at m))]
  ++ match sm_total_message_count m with Some z => [(u "total_message_count", VInt z)] | None => [] end
  ++ match sm_event_search_tags m with Some l => [(u "event_search_tags", VList (VStr <$> l))] | None => [] end.

(** ** Assignments *)

Definition set_updated_at (t : pystr) (m : SessionMeta) : SessionMeta :=
  MkSessionMeta (sm_session_id m) (sm_created_at m) t (sm_created_by_account_id m) (sm_created_by_user_id m) (sm_message_count m) (sm_total_message_count m)
    (sm_commit_count m) (sm_memories_extracted m) (sm_last_commit_at m) (sm_llm_token_usage m) (sm_embedding_total m) (sm_pending_tokens m)
    (sm_keep_recent_count m) (sm_retention_mode m) (sm_keep_recent_turn_count m) (sm_retained_message_token_budget m) (sm_min_raw_tail_steps m)
    (sm_memory_policy m) (sm_auto_commit_policy m) (sm_last_message_at m) (sm_last_auto_commit_at m) (sm_event_search_tags m).

Definition set_created_by (account : pystr) (user : pystr) (m : SessionMeta) : SessionMeta :=
  MkSessionMeta (sm_session_id m) (sm_created_at m) (sm_updated_at m) account user (sm_message_count m) (sm_total_message_count m) (sm_commit_count m)
    (sm_memories_extracted m) (sm_last_commit_at m) (sm_llm_token_usage m) (sm_embedding_total m) (sm_pending_tokens m) (sm_keep_recent_count m)
    (sm_retention_mode m) (sm_keep_recent_turn_count m) (sm_retained_message_token_budget m) (sm_min_raw_tail_steps m) (sm_memory_policy m)
    (sm_auto_commit_policy m) (sm_last_message_at m) (sm_last_auto_commit_at m) (sm_event_search_tags m).

Definition set_message_count (n : Z) (m : SessionMeta) : SessionMeta :=
  MkSessionMeta (sm_session_id m) (sm_created_at m) (sm_updated_at m) (sm_created_by_account_id m) (sm_created_by_user_id m) n (sm_total_message_count m)
    (sm_commit_count m) (sm_memories_extracted m) (sm_last_commit_at m) (sm_llm_token_usage m) (sm_embedding_total m) (sm_pending_tokens m)
    (sm_keep_recent_count m) (sm_retention_mode m) (sm_keep_recent_turn_count m) (sm_retained_message_token_budget m) (sm_min_raw_tail_steps m)
    (sm_memory_policy m) (sm_auto_commit_policy m) (sm_last_message_at m) (sm_last_auto_commit_at m) (sm_event_search_tags m).

Definition set_total_message_count (n : option Z) (m : SessionMeta) : SessionMeta :=
  MkSessionMeta (sm_session_id m) (sm_created_at m) (sm_updated_at m) (sm_created_by_account_id m) (sm_created_by_user_id m) (sm_message_count m) n
    (sm_commit_count m) (sm_memories_extracted m) (sm_last_commit_at m) (sm_llm_token_usage m) (sm_embedding_total m) (sm_pending_tokens m)
    (sm_keep_recent_count m) (sm_retention_mode m) (sm_keep_recent_turn_count m) (sm_retained_message_token_budget m) (sm_min_raw_tail_steps m)
    (sm_memory_policy m) (sm_auto_commit_policy m) (sm_last_message_at m) (sm_last_auto_commit_at m) (sm_event_search_tags m).

Definition set_commit_count (n : Z) (m : SessionMeta) : SessionMeta :=
  MkSessionMeta (sm_session_id m) (sm_created_at m) (sm_updated_at m) (sm_created_by_account_id m) (sm_created_by_user_id m) (sm_message_count m)
    (sm_total_message_count m) n (sm_memories_extracted m) (sm_last_commit_at m) (sm_llm_token_usage m) (sm_embedding_total m) (sm_pending_tokens m)
    (sm_keep_recent_count m) (sm_retention_mode m) (sm_keep_recent_turn_count m) (sm_retained_message_token_budget m) (sm_min_raw_tail_steps m)
    (sm_memory_policy m) (sm_auto_commit_policy m) (sm_last_message_at m) (sm_last_auto_commit_at m) (sm_event_search_tags m).

Definition set_last_commit_at (t : pystr) (m : SessionMeta) : SessionMeta :=
  MkSessionMeta (sm_session_id m) (sm_created_at m) (sm_updated_at m) (sm_created_by_account_id m) (sm_created_by_user_id m) (sm_message_count m)
    (sm_total_message_count m) (sm_commit_count m) (sm_memories_extracted m) t (sm_llm_token_usage m) (sm_embedding_total m) (sm_pending_tokens m)
    (sm_keep_recent_count m) (sm_retention_mode m) (sm_keep_recent_turn_count m) (sm_retained_message_token_budget m) (sm_min_raw_tail_steps m)
    (sm_memory_policy m) (sm_auto_commit_policy m) (sm_last_message_at m) (sm_last_auto_commit_at m) (sm_event_search_tags m).

Definition set_pending_tokens (n : Z) (m : SessionMeta) : SessionMeta :=
  MkSessionMeta (sm_session_id m) (sm_created_at m) (sm_updated_at m) (sm_created_by_account_id m) (sm_created_by_user_id m) (sm_message_count m)
    (sm_total_message_count m) (sm_commit_count m) (sm_memories_extracted m) (sm_last_commit_at m) (sm_llm_token_usage m) (sm_embedding_total m) n
    (sm_keep_recent_count m) (sm_retention_mode m) (sm_keep_recent_turn_count m) (sm_retained_message_token_budget m) (sm_min_raw_tail_steps m)
    (sm_memory_policy m) (sm_auto_commit_policy m) (sm_last_message_at m) (sm_last_auto_commit_at m) (sm_event_search_tags m).

Definition set_retention (keep : Z) (mode : pystr) (turns : Z) (budget : Z) (tail : Z) (m : SessionMeta) : SessionMeta :=
  MkSessionMeta (sm_session_id m) (sm_created_at m) (sm_updated_at m) (sm_created_by_account_id m) (sm_created_by_user_id m) (sm_message_count m)
    (sm_total_message_count m) (sm_commit_count m) (sm_memories_extracted m) (sm_last_commit_at m) (sm_llm_token_usage m) (sm_embedding_total m)
    (sm_pending_tokens m) keep mode turns budget tail (sm_memory_policy m) (sm_auto_commit_policy m) (sm_last_message_at m) (sm_last_auto_commit_at m)
    (sm_event_search_tags m).

Definition set_memory_policy (p : option pydict) (m : SessionMeta) : SessionMeta :=
  MkSessionMeta (sm_session_id m) (sm_created_at m) (sm_updated_at m) (sm_created_by_account_id m) (sm_created_by_user_id m) (sm_message_count m)
    (sm_total_message_count m) (sm_commit_count m) (sm_memories_extracted m) (sm_last_commit_at m) (sm_llm_token_usage m) (sm_embedding_total m)
    (sm_pending_tokens m) (sm_keep_recent_count m) (sm_retention_mode m) (sm_keep_recent_turn_count m) (sm_retained_message_token_budget m)
    (sm_min_raw_tail_steps m) p (sm_auto_commit_policy m) (sm_last_message_at m) (sm_last_auto_commit_at m) (sm_event_search_tags m).

Definition set_auto_commit_policy (p : option pydict) (m : SessionMeta) : SessionMeta :=
  MkSessionMeta (sm_session_id m) (sm_created_at m) (sm_updated_at m) (sm_created_by_account_id m) (sm_created_by_user_id m) (sm_message_count m)
    (sm_total_message_count m) (sm_commit_count m) (sm_memories_extracted m) (sm_last_commit_at m) (sm_llm_token_usage m) (sm_embedding_total m)
    (sm_pending_tokens m) (sm_keep_recent_count m) (sm_retention_mode m) (sm_keep_recent_turn_count m) (sm_retained_message_token_budget m)
    (sm_min_raw_tail_steps m) (sm_memory_policy m) p (sm_last_message_at m) (sm_last_auto_commit_at m) (sm_event_search_tags m).

Definition set_last_message_at (t : pystr) (m : SessionMeta) : SessionMeta :=
  MkSessionMeta (sm_session_id m) (sm_created_at m) (sm_updated_at m) (sm_created_by_account_id m) (sm_created_by_user_id m) (sm_message_count m)
    (sm_total_message_count m) (sm_commit_count m) (sm_memories_extracted m) (sm_last_commit_at m) (sm_llm_token_usage m) (sm_embedding_total m)
    (sm_pending_tokens m) (sm_keep_recent_count m) (sm_retention_mode m) (sm_keep_recent_turn_count m) (sm_retained_message_token_budget m)
    (sm_min_raw_tail_steps m) (sm_memory_policy m) (sm_auto_commit_policy m) t (sm_last_auto_commit_at m) (sm_event_search_tags m).

Definition set_last_auto_commit_at (t : pystr) (m : SessionMeta) : SessionMeta :=
  MkSessionMeta (sm_session_id m) (sm_created_at m) (sm_updated_at m) (sm_created_by_account_id m) (sm_created_by_user_id m) (sm_message_count m)
    (sm_total_message_count m) (sm_commit_count m) (sm_memories_extracted m) (sm_last_commit_at m) (sm_llm_token_usage m) (sm_embedding_total m)
    (sm_pending_tokens m) (sm_keep_recent_count m) (sm_retention_mode m) (sm_keep_recent_turn_count m) (sm_retained_message_token_budget m)
    (sm_min_raw_tail_steps m) (sm_memory_policy m) (sm_auto_commit_policy m) (sm_last_message_at m) t (sm_event_search_tags m).

Definition set_event_search_tags (tags : option (list pystr)) (m : SessionMeta) : SessionMeta :=
  MkSessionMeta (sm_session_id m) (sm_created_at m) (sm_updated_at m) (sm_created_by_account_id m) (sm_created_by_user_id m) (sm_message_count m)
    (sm_total_message_count m) (sm_commit_count m) (sm_memories_extracted m) (sm_last_commit_at m) (sm_llm_token_usage m) (sm_embedding_total m)
    (sm_pending_tokens m) (sm_keep_recent_count m) (sm_retention_mode m) (sm_keep_recent_turn_count m) (sm_retained_message_token_budget m)
    (sm_min_raw_tail_steps m) (sm_memory_policy m) (sm_auto_commit_policy m) (sm_last_message_at m) (sm_last_auto_commit_at m) tags.

Definition set_commit_results (llm : TokenUsage) (embedding : Z) (memories : list (pystr * Z)) (m : SessionMeta) : SessionMeta :=
  MkSessionMeta (sm_session_id m) (sm_created_at m) (sm_updated_at m) (sm_created_by_account_id m) (sm_created_by_user_id m) (sm_message_count m)
    (sm_total_message_count m) (sm_commit_count m) memories (sm_last_commit_at m) llm embedding (sm_pending_tokens m) (sm_keep_recent_count m)
    (sm_retention_mode m) (sm_keep_recent_turn_count m) (sm_retained_message_token_budget m) (sm_min_raw_tail_steps m) (sm_memory_policy m)
    (sm_auto_commit_policy m) (sm_last_message_at m) (sm_last_auto_commit_at m) (sm_event_search_tags m).
