(* ===== verification/SessionPolicyTheory.v ===== *)
(** What sessions store about themselves reads back as it was: policies and metadata, once
    read, are written and read again without a change. *)
From Stdlib Require Import NArith ZArith.
From S2P Require Import Prelude Effects PyStr PyVal Identifiers WorkIndex SessionPolicy SessionMeta.

Open Scope N_scope.

(** ** Policies *)

(** The bounds every policy that was read keeps. *)
Definition auto_ok (p : AutoCommitPolicy) : Prop :=
  (0 <= pending_token_threshold p <= MAX_PENDING_TOKEN_THRESHOLD)%Z /\ (0 <= message_count_threshold p <= MAX_MESSAGE_COUNT_THRESHOLD)%Z
  /\ (0 <= idle_timeout_seconds p <= MAX_IDLE_TIMEOUT_SECONDS)%Z /\ (0 <= policy_keep_recent_count p <= MAX_MESSAGE_COUNT_THRESHOLD)%Z
  /\ (0 <= min_commit_interval_seconds p <= MAX_IDLE_TIMEOUT_SECONDS)%Z.

Lemma coerce_bounds v hi z : (0 <= hi)%Z -> coerce_int v 0 hi = Ok z -> (0 <= z <= hi)%Z.
Proof. intros Hh. unfold coerce_int. destruct (to_int v) as [n|]; [|done]. intros [= <-]. destruct (Z.ltb_spec n 0), (Z.ltb_spec hi n); try lia; destruct (Z.ltb_spec hi 0); lia. Qed.

Lemma coerce_id hi z : (0 <= z <= hi)%Z -> coerce_int (VInt z) 0 hi = Ok z.
Proof. intros H. unfold coerce_int. cbn. rewrite (proj2 (Z.ltb_ge z 0)), (proj2 (Z.ltb_ge hi z)) by lia. done. Qed.

Lemma coerce_field d key z hi dflt : dict_get d key = Some (VInt z) -> (0 <= z <= hi)%Z -> coerce_int (default dflt (dict_get d key)) 0 hi = Ok z.
Proof. intros -> H. by apply coerce_id. Qed.

Lemma auto_read_ok v p : auto_from_dict v = Ok p -> auto_ok p.
Proof.
  destruct v; try done; cbn [auto_from_dict]; [intros [= <-]; by vm_compute|]. destruct (negb _); [done|].
  intros H. do 5 (apply result_bind_ok in H as (? & ?%coerce_bounds & H); [|done]). by injection H as <-.
Qed.

Lemma auto_reread p : auto_ok p -> auto_from_dict (VDict (auto_to_dict p)) = Ok p.
Proof.
  destruct p as [a b c k i]. intros (Ha & Hb & Hc & Hk & Hi). cbn [pending_token_threshold message_count_threshold idle_timeout_seconds policy_keep_recent_count min_commit_interval_seconds] in *.
  unfold auto_from_dict. assert (only_keys auto_keys (auto_to_dict (MkAuto a b c k i)) = true) as -> by reflexivity. cbn [negb].
  set (d := auto_to_dict _). cbn zeta beta.
  apply (result_bind_intro _ _ a); [by apply coerce_field|]. apply (result_bind_intro _ _ b); [by apply coerce_field|].
  apply (result_bind_intro _ _ c); [by apply coerce_field|]. apply (result_bind_intro _ _ k); [by apply coerce_field|].
  by apply (result_bind_intro _ _ i); [apply coerce_field|].
Qed.

(** Memory types that were read: with all agent types or none of them. *)
Definition types_ok (types : gset pystr) : Prop :=
  [] ∉ types /\ ((EXPERIENCE_MEMORY_TYPE ∈ types /\ AGENT_EVOLUTION_MEMORY_TYPES ⊆ types) \/ (EXPERIENCE_MEMORY_TYPE ∉ types /\ AGENT_EVOLUTION_MEMORY_TYPES ## types)).

Lemma type_names_ok l names : type_names l = Ok names -> [] ∉ names.
Proof.
  revert names. induction l as [|v l IH]; intros names; cbn [type_names]; [intros [= <-]; apply not_elem_of_nil|].
  destruct v; try done. destruct (nonempty s) eqn:E; [|done]. apply nonempty_true in E. destruct (type_names l) as [r|]; [|done].
  intros [= <-]. rewrite elem_of_cons. specialize (IH r eq_refl). intros [?|?]; [by subst|done].
Qed.

Lemma type_names_reread l : [] ∉ l -> type_names (VStr <$> l) = Ok l.
Proof.
  induction l as [|s l IH]; [done|]. intros [Hs Hl]%not_elem_of_cons. rewrite fmap_cons. cbn [type_names].
  replace (nonempty s) with true by (symmetry; apply nonempty_true; congruence). by rewrite IH.
Qed.

Lemma agent_types_nonempty : [] ∉ AGENT_EVOLUTION_MEMORY_TYPES.
Proof. unfold AGENT_EVOLUTION_MEMORY_TYPES. rewrite !elem_of_union, !elem_of_singleton. intros [[H|H]|H]; revert H; by vm_compute. Qed.
Lemma experience_agent : EXPERIENCE_MEMORY_TYPE ∈ AGENT_EVOLUTION_MEMORY_TYPES.
Proof. unfold AGENT_EVOLUTION_MEMORY_TYPES. set_solver. Qed.

Lemma types_read_ok v types : parse_memory_types v = Ok (Some types) -> types_ok types.
Proof.
  pose proof agent_types_nonempty as Hagent. pose proof experience_agent as Hexp.
  destruct v; try done. cbn [parse_memory_types]. intros (names & Hn%type_names_ok & [= <-])%result_bind_ok.
  destruct (decide (EXPERIENCE_MEMORY_TYPE ∈ list_to_set (C := gset pystr) names)) as [H|H].
  - rewrite bool_decide_eq_true_2 by done. split; [|left; set_solver]. rewrite elem_of_union, elem_of_list_to_set. tauto.
  - rewrite bool_decide_eq_false_2 by done. split; [|right; set_solver]. rewrite elem_of_difference, elem_of_list_to_set. tauto.
Qed.

Lemma types_reread types : types_ok types -> parse_memory_types (VList (VStr <$> sorted_set types)) = Ok (Some types).
Proof.
  intros [Hn Ht]. assert (forall x, x ∈ sorted_set types <-> x ∈ types) as Hs.
  { intros x. unfold sorted_set. rewrite sorted_strs_perm. apply elem_of_elements. }
  cbn [parse_memory_types]. rewrite type_names_reread by by rewrite Hs. cbn [mbind result_bind].
  assert (list_to_set (C := gset pystr) (sorted_set types) = types) as ->.
  { apply set_eq. intros x. by rewrite elem_of_list_to_set. }
  do 2 f_equal. destruct Ht as [[H1 H2]|[H1 H2]]; [rewrite bool_decide_eq_true_2 by done|rewrite bool_decide_eq_false_2 by done]; apply set_eq; set_solver.
Qed.

Definition memory_ok (p : MemoryPolicy) : Prop := from_option types_ok True (memory_types p).

Lemma memory_read_ok casefold v p : memory_from_dict casefold v = Ok p -> memory_ok p.
Proof.
  destruct v; try done; cbn [memory_from_dict]; [by intros [= <-]|]. destruct (negb _); [done|].
  intros (s & _ & H)%result_bind_ok. apply result_bind_ok in H as (q & _ & H). apply result_bind_ok in H as (t & Ht & H).
  apply result_bind_ok in H as (w & _ & H). injection H as <-. unfold memory_ok. cbn. destruct t; [|done]. by eapply types_read_ok.
Qed.

Lemma memory_reread casefold p : memory_ok p -> memory_from_dict casefold (VDict (memory_to_dict p)) = Ok p.
Proof.
  destruct p as [s q t w]. unfold memory_ok. cbn [memory_types]. intros Ht.
  assert (forall b, target_enabled casefold (enabled_dict b) = Ok b) as He by by intros [|].
  set (d := memory_to_dict _). unfold memory_from_dict.
  assert (only_keys [u "self"; u "peer"; u "memory_types"; u "working_memory"] d = true) as -> by by destruct t, w.
  assert (get_or_none d (u "self") = enabled_dict s) as -> by by destruct t, w.
  assert (get_or_none d (u "peer") = enabled_dict q) as -> by by destruct t, w.
  assert (get_or_none d (u "memory_types") = match t with Some x => VList (VStr <$> sorted_set x) | None => VNone end) as -> by by destruct t, w.
  assert (get_or_none d (u "working_memory") = if w then VNone else enabled_dict false) as -> by by destruct t, w.
  cbn [negb]. apply (result_bind_intro _ _ s); [done|]. apply (result_bind_intro _ _ q); [done|].
  apply (result_bind_intro _ _ t); [destruct t; [by apply types_reread|done]|]. by apply (result_bind_intro _ _ w); [destruct w|].
Qed.

(** The policies of a session are stable: what an automatic-commit policy reads as lies
    within the limits, and both it and a memory policy, once read from any value, are
    written to dictionaries that read back as the same policy. *)
Theorem policies_reread (casefold : pystr -> pystr) (v : pyval) :
  (forall p, auto_from_dict v = Ok p -> auto_ok p /\ auto_from_dict (VDict (auto_to_dict p)) = Ok p)
  /\ (forall p, memory_from_dict casefold v = Ok p -> memory_from_dict casefold (VDict (memory_to_dict p)) = Ok p).
Proof.
  split; intros p H.
  - apply auto_read_ok in H. split; [done|by apply auto_reread].
  - by apply memory_reread, (memory_read_ok casefold v).
Qed.

(** ** Metadata *)

(** Counts as they are kept: the total first, and every kind once. *)
Definition counts_ok (l : list (pystr * Z)) : Prop := head (fst <$> l) = Some (u "total") /\ NoDup (fst <$> l).

Definition meta_ok (m : SessionMeta) : Prop :=
  counts_ok (sm_memories_extracted m) /\ (0 <= sm_pending_tokens m)%Z /\ (0 <= sm_keep_recent_count m)%Z /\ (0 <= sm_keep_recent_turn_count m)%Z
  /\ (0 <= sm_retained_message_token_budget m)%Z /\ (0 <= sm_min_raw_tail_steps m)%Z.

Lemma dict_set_head {A} (d : list (pystr * A)) k v x : head (fst <$> d) = Some x -> head (fst <$> dict_set d k v) = Some x.
Proof. destruct d as [|[k' v'] d]; [done|]. cbn. intros [= <-]. destruct (seqb k' k) eqn:E; [|done]. by apply seqb_true in E as ->. Qed.

Lemma counts_set l k z : counts_ok l -> counts_ok (dict_set l k z).
Proof. intros [H1 H2]. split; [by apply dict_set_head|by apply dict_set_nodup]. Qed.

Lemma counts_read_ok d : counts_ok (memory_counts d).
Proof.
  unfold memory_counts. assert (counts_ok default_memory_counts) as H by (split; [done|apply NoDup_singleton]).
  revert H. generalize default_memory_counts. induction d as [|kv d IH]; intros l H; [done|]. cbn [foldl]. by apply IH, counts_set.
Qed.

Lemma count_value z : default 0%Z (to_int (py_or (VInt z) (VInt 0))) = z.
Proof. unfold py_or. cbn. by destruct z. Qed.

Lemma counts_reread l : counts_ok l -> memory_counts ((fun kv => (kv.1, VInt kv.2)) <$> l) = l.
Proof.
  intros [Hh Hn]. unfold memory_counts. destruct l as [|[k t] l]; [done|]. cbn in Hh. injection Hh as ->. rewrite fmap_cons. cbn [foldl fst snd].
  rewrite count_value. assert (dict_set default_memory_counts (u "total") t = [(u "total", t)]) as -> by reflexivity.
  change ((u "total", t) :: l) with ([(u "total", t)] ++ l) in *. generalize dependent [(u "total", t)].
  induction l as [|[k z] l IH]; intros acc Hn; [by rewrite app_nil_r|]. rewrite fmap_cons. cbn [foldl fst snd]. rewrite count_value, dict_set_fresh.
  - rewrite IH; by rewrite <- app_assoc.
  - rewrite fmap_app in Hn. apply NoDup_app in Hn as (_ & Hn & _). intros Hin. apply (Hn k Hin). by left.
Qed.

Lemma nonneg_read_ok d k dflt z : meta_nonneg d k dflt = Ok z -> (0 <= z)%Z.
Proof. unfold meta_nonneg, nonneg_int. destruct (to_int _); [|done]. intros [= <-]. lia. Qed.

Lemma meta_read_ok render d m : meta_from_dict render d = Ok m -> meta_ok m.
Proof.
  unfold meta_from_dict. intros H. do 15 (apply result_bind_ok in H as (? & _ & H)). do 5 (apply result_bind_ok in H as (? & ?%nonneg_read_ok & H)).
  do 5 (apply result_bind_ok in H as (? & _ & H)). injection H as <-. cbn. split; [apply counts_read_ok|done].
Qed.

Lemma nonneg_field d k z dflt : dict_get d (u k) = Some (VInt z) -> (0 <= z)%Z -> meta_nonneg d k dflt = Ok z.
Proof. intros H Hz. unfold meta_nonneg, nonneg_int. rewrite H. cbn. unfold py_or. destruct z; cbn; f_equal; lia. Qed.

Lemma text_list_reread l : text_list (VStr <$> l) = Ok l.
Proof. induction l as [|s l IH]; [done|]. rewrite fmap_cons. cbn [text_list]. by rewrite IH. Qed.

Lemma str_field d k s : dict_get d (u k) = Some (VStr s) -> meta_str d k = Ok s.
Proof. intros H. unfold meta_str. by rewrite H. Qed.
Lemma int_field d k z : dict_get d (u k) = Some (VInt z) -> meta_int d k = Ok z.
Proof. intros H. unfold meta_int. by rewrite H. Qed.
Lemma dict_field d k x : dict_get d (u k) = Some (VDict x) -> meta_dict d k = Ok x.
Proof. intros H. unfold meta_dict. by rewrite H. Qed.
Lemma opt_dict_field d k o : dict_get d (u k) = Some (opt_dict_val o) -> meta_opt_dict d k = Ok o.
Proof. intros H. unfold meta_opt_dict, get_or_none. rewrite H. by destruct o. Qed.

Lemma meta_ok_reread render m : meta_ok m -> meta_from_dict render (meta_to_dict m) = Ok m.
Proof.
  destruct m as [sid created updated account user count total commits memories last usage embedding pending keep mode turns budget tail policy auto last_m last_a tags].
  intros (Hc & Hp & Hk & Ht & Hb & Hs). cbn [sm_memories_extracted sm_pending_tokens sm_keep_recent_count sm_keep_recent_turn_count
    sm_retained_message_token_budget sm_min_raw_tail_steps] in *.
  set (d := meta_to_dict _). unfold meta_from_dict.
  apply (result_bind_intro _ _ _ _ (dict_field d "llm_token_usage" _ eq_refl)).
  apply (result_bind_intro _ _ _ _ (dict_field d "embedding_token_usage" _ eq_refl)).
  apply (result_bind_intro _ _ _ _ (dict_field d "memories_extracted" ((fun kv => (kv.1, VInt kv.2)) <$> memories) eq_refl)).
  apply (result_bind_intro _ _ _ _ (str_field d "session_id" _ eq_refl)).
  apply (result_bind_intro _ _ _ _ (str_field d "created_at" _ eq_refl)).
  apply (result_bind_intro _ _ _ _ (str_field d "updated_at" _ eq_refl)).
  apply (result_bind_intro _ _ _ _ (str_field d "created_by_account_id" _ eq_refl)).
  apply (result_bind_intro _ _ []); [unfold meta_str, d; by destruct total, tags|].
  apply (result_bind_intro _ _ _ _ (str_field d "created_by_user_id" _ eq_refl)).
  apply (result_bind_intro _ _ _ _ (int_field d "message_count" _ eq_refl)).
  apply (result_bind_intro _ _ total); [unfold meta_opt_int, d; by destruct total, tags|].
  apply (result_bind_intro _ _ _ _ (int_field d "commit_count" _ eq_refl)).
  apply (result_bind_intro _ _ _ _ (str_field d "last_commit_at" _ eq_refl)).
  apply (result_bind_intro _ _ usage); [by destruct usage|].
  apply (result_bind_intro _ _ embedding); [done|].
  apply (result_bind_intro _ _ _ _ (nonneg_field d "pending_tokens" pending 0 eq_refl Hp)).
  apply (result_bind_intro _ _ _ _ (nonneg_field d "keep_recent_count" keep 0 eq_refl Hk)).
  apply (result_bind_intro _ _ _ _ (nonneg_field d "keep_recent_turn_count" turns 0 eq_refl Ht)).
  apply (result_bind_intro _ _ _ _ (nonneg_field d "retained_message_token_budget" budget 0 eq_refl Hb)).
  apply (result_bind_intro _ _ _ _ (nonneg_field d "min_raw_tail_steps" tail 1 eq_refl Hs)).
  apply (result_bind_intro _ _ _ _ (opt_dict_field d "memory_policy" policy eq_refl)).
  apply (result_bind_intro _ _ _ _ (opt_dict_field d "auto_commit_policy" auto eq_refl)).
  apply (result_bind_intro _ _ _ _ (str_field d "last_message_at" _ eq_refl)).
  apply (result_bind_intro _ _ _ _ (str_field d "last_auto_commit_at" _ eq_refl)).
  apply (result_bind_intro _ _ tags).
  { unfold meta_opt_tags, d. destruct total, tags as [l|]; try done; change (Some <$> text_list (VStr <$> l) = Ok (Some l)); by rewrite text_list_reread. }
  rewrite counts_reread by done.
  assert (dict_get d (u "retention_mode") = Some (VStr mode)) as -> by reflexivity. by destruct account, mode.
Qed.

(** The metadata of a session survives its file: whatever dictionary it is read from,
    also one of an older version with fields missing or renamed, what is written for it
    reads back as the same metadata. *)
Theorem meta_reread (render : pyval -> pystr) (d : pydict) (m : SessionMeta) :
  meta_from_dict render d = Ok m -> meta_from_dict render (meta_to_dict m) = Ok m.
Proof. intros H%meta_read_ok. by apply meta_ok_reread. Qed.
