(* ===== verification/Session.v ===== *)
(** Sessions: the live messages of a conversation and the archives they move to, of
    [session/session.py].

    A session object holds a copy of the live messages and of the metadata; the files
    are shared by every worker.  Appends, commits, the recovery of a commit and the
    updates of the configuration hold an exclusive lock on the session's path while they
    read and write, so a run of several workers is a sequence of these operations, each
    on a session object of any age. *)
From Stdlib Require Import NArith ZArith.
From S2P Require Import Prelude Effects PyStr PyVal Identifiers WorkIndex TaskRecord Tokens Message Retention Overview SessionPolicy SessionMeta.

Open Scope N_scope.

(** ** What sessions are given *)

(** Python's JSON, [str] of values and of exceptions, hashing and case folding, the
    registry of memory types, and the YAML of the two overview files. *)
Class SessionEnv := {
  json_dumps : pyval -> pystr;
  json_loads : pystr -> result pyval;
  text_of : pyval -> pystr;
  exn_text : exn -> pystr;
  sha256_text : pystr -> pystr;
  lower : pystr -> pystr;
  casefold : pystr -> pystr;
  registered_types : gset pystr;
  overview_env :: OverviewEnv }.

(** The file system; a missing file is a [NotFoundError] without another cause. *)
Class SessionFS (F : Type) := {
  sf_read : pystr -> ST F pystr;
  sf_write : pystr -> pystr -> ST F unit;
  sf_append : pystr -> pystr -> ST F unit;
  sf_exists : pystr -> ST F bool;
  sf_stat : pystr -> ST F unit;
  sf_mkdir : pystr -> ST F unit;
  sf_ls : pystr -> ST F (list pystr);
  sf_lock : pystr -> ST F N;
  sf_unlock : N -> ST F unit }.

(** The commit queue and the task tracker: [enqueue] on the queue of session commits,
    and [create], [complete], [fail] and [has_work] of the tracker. *)
Class CommitBackend (B : Type) := {
  cb_enqueue : pydict -> ST B unit;
  cb_create : pystr -> pystr -> pystr -> pystr -> ST B TaskStatus;
  cb_complete : pystr -> pydict -> pystr -> pystr -> ST B unit;
  cb_fail : pystr -> pystr -> pystr -> pystr -> ST B unit;
  cb_has_work : B -> pystr -> bool }.

(** [_is_storage_not_found]. *)
Definition is_storage_not_found (e : exn) : bool := match e with NotFoundError => true | _ => false end.

(** ** State *)

Record Usage := MkUsage { usage_uri : pystr; usage_type : pystr; usage_input : pystr; usage_output : pystr; usage_success : bool }.

(** A [Session] object: messages, usage records, [_compression], [_stats], metadata. *)
Record session := MkSession {
  s_messages : list Message;
  s_usage : list Usage;
  s_index : Z;
  s_original_count : Z;
  s_compression_count : Z;
  s_total_turns : Z;
  s_total_tokens : Z;
  s_contexts_used : Z;
  s_skills_used : Z;
  s_meta : SessionMeta;
  s_loaded : bool }.

Definition set_messages (l : list Message) (s : session) : session :=
  MkSession l (s_usage s) (s_index s) (s_original_count s) (s_compression_count s) (s_total_turns s) (s_total_tokens s) (s_contexts_used s)
    (s_skills_used s) (s_meta s) (s_loaded s).
Definition set_usage (l : list Usage) (c k : Z) (s : session) : session :=
  MkSession (s_messages s) l (s_index s) (s_original_count s) (s_compression_count s) (s_total_turns s) (s_total_tokens s) c k (s_meta s) (s_loaded s).
Definition set_index (i : Z) (s : session) : session :=
  MkSession (s_messages s) (s_usage s) i (s_original_count s) (s_compression_count s) (s_total_turns s) (s_total_tokens s) (s_contexts_used s)
    (s_skills_used s) (s_meta s) (s_loaded s).
Definition set_original_count (n : Z) (s : session) : session :=
  MkSession (s_messages s) (s_usage s) (s_index s) n (s_compression_count s) (s_total_turns s) (s_total_tokens s) (s_contexts_used s)
    (s_skills_used s) (s_meta s) (s_loaded s).
Definition set_compression_count (n : Z) (s : session) : session :=
  MkSession (s_messages s) (s_usage s) (s_index s) (s_original_count s) n (s_total_turns s) (s_total_tokens s) (s_contexts_used s)
    (s_skills_used s) (s_meta s) (s_loaded s).
Definition add_stats (turns tokens : Z) (s : session) : session :=
  MkSession (s_messages s) (s_usage s) (s_index s) (s_original_count s) (s_compression_count s) (s_total_turns s + turns) (s_total_tokens s + tokens)
    (s_contexts_used s) (s_skills_used s) (s_meta s) (s_loaded s).
Definition set_meta (m : SessionMeta) (s : session) : session :=
  MkSession (s_messages s) (s_usage s) (s_index s) (s_original_count s) (s_compression_count s) (s_total_turns s) (s_total_tokens s) (s_contexts_used s)
    (s_skills_used s) m (s_loaded s).
Definition set_loaded (s : session) : session :=
  MkSession (s_messages s) (s_usage s) (s_index s) (s_original_count s) (s_compression_count s) (s_total_turns s) (s_total_tokens s) (s_contexts_used s)
    (s_skills_used s) (s_meta s) true.
Definition upd_meta (f : SessionMeta -> SessionMeta) (s : session) : session := set_meta (f (s_meta s)) s.

(** A session object with the files, and the queue and tracker. *)
Record world (F B : Type) := MkWorld { w_self : session; w_fs : F; w_back : B }.
Arguments MkWorld {F B}. Arguments w_self {F B}. Arguments w_fs {F B}. Arguments w_back {F B}.

(** ** Message files *)

(** [s.replace("\r\n", "\n")]. *)
Fixpoint replace_crlf (s : pystr) : pystr :=
  match s with
  | c :: r => match r with
              | d :: r' => if (c =? 13) && (d =? c_nl) then c_nl :: replace_crlf r' else c :: replace_crlf r
              | [] => [c]
              end
  | [] => []
  end.

Definition blank (line : pystr) : bool := negb (nonempty (strip is_space line)).

Section files.
Context {env : SessionEnv}.

(** [m.to_jsonl()]. *)
Definition to_jsonl (now : pystr) (m : Message) : pystr := json_dumps (VDict (Message.to_dict now m)).

(** [Message.from_dict(json.loads(line))]; what is no object has no [get]. *)
Definition parse_line (line : pystr) : result Message :=
  v ← json_loads line;
  match v with VDict d => Message.from_dict text_of d | _ => Err OtherError end.

Fixpoint parse_lines (lines : list pystr) : result (list Message) :=
  match lines with
  | [] => Ok []
  | line :: lines => if blank line then parse_lines lines else m ← parse_line line; ms ← parse_lines lines; Ok (m :: ms)
  end.

(** Reading with every failure turned into a [ValueError]. *)
Definition strictly {A} (r : result A) : result A := match r with Ok a => Ok a | Err _ => Err ValueError end.

(** The lines of [_read_live_messages_strict], and those of [load] and
    [_read_archive_messages]. *)
Definition live_lines (content : pystr) : list pystr := split c_nl (replace_crlf content).
Definition stripped_lines (content : pystr) : list pystr := split c_nl (strip is_space content).

Definition parse_live (content : pystr) : result (list Message) := strictly (parse_lines (live_lines content)).
Definition parse_archive (content : pystr) : result (list Message) := strictly (parse_lines (stripped_lines content)).

(** ["\n".join(lines) + "\n" if lines else ""], and the batch of an append. *)
Definition file_of (now : pystr) (messages : list Message) : pystr :=
  match messages with [] => [] | _ => join [c_nl] (to_jsonl now <$> messages) ++ [c_nl] end.
Definition batch_of (now : pystr) (messages : list Message) : pystr := concat ((fun m => to_jsonl now m ++ [c_nl]) <$> messages).

(** [json.loads] of a metadata file, as the object it must be. *)
Definition parse_object (content : pystr) : result pydict :=
  v ← json_loads content;
  match v with VDict d => Ok d | _ => Err OtherError end.
Definition parse_meta (content : pystr) : result SessionMeta := d ← parse_object content; meta_from_dict text_of d.
End files.

(** ** Tokens that the next commit archives *)

Section pending.
Context {env : SessionEnv}.

Abbreviation tokens := (tokens_of (fun d => json_dumps (VDict d))).
Definition sum_tokens (l : list Message) : Z := foldr (fun m n => (tokens m + n)%Z) 0%Z l.

Definition RETENTION_MODE_TURN_BUDGET : pystr := u "turn_budget".
Definition turn_budget_mode (m : SessionMeta) : bool := seqb (sm_retention_mode m) RETENTION_MODE_TURN_BUDGET.

Definition plan (messages : list Message) (turns budget tail : Z) : RetentionPlan :=
  plan_retention (fun d => json_dumps (VDict d)) messages turns budget tail.

(** [_calculate_pending_tokens]. *)
Definition calculate_pending_tokens (messages : list Message) (meta : SessionMeta) : Z :=
  if turn_budget_mode meta && (0 <? sm_keep_recent_turn_count meta)%Z && (0 <? sm_retained_message_token_budget meta)%Z then
    let p := plan messages (sm_keep_recent_turn_count meta) (sm_retained_message_token_budget meta) (sm_min_raw_tail_steps meta) in
    let retained_ids := m_id <$> retained_messages p in
    sum_tokens (filter (fun m => mem (m_id m) retained_ids = false) (archive_messages p))
  else
    let keep := Z.max 0 (sm_keep_recent_count meta) in
    let total := Z.of_nat (length messages) in
    if (keep <=? 0)%Z then sum_tokens messages
    else if (keep <? total)%Z then sum_tokens (take (Z.to_nat (total - keep)) messages)
    else 0%Z.

Definition rebuild_pending_tokens (s : session) : session :=
  upd_meta (set_pending_tokens (Z.max 0 (calculate_pending_tokens (s_messages s) (s_meta s)))) s.

(** The loop of [_apply_appended_messages_to_state]; [self._messages[-(keep + 1)]] is the
    message pushed out of the window. *)
Definition push_message (s : session) (msg : Message) : session :=
  let s := set_messages (s_messages s ++ [msg]) s in
  let s := add_stats (if is_user_query msg then 1 else 0) (tokens msg) s in
  if turn_budget_mode (s_meta s) then s
  else
    let keep := sm_keep_recent_count (s_meta s) in
    if (keep <=? 0)%Z then upd_meta (fun m => set_pending_tokens (sm_pending_tokens m + tokens msg)%Z m) s
    else if (keep <? Z.of_nat (length (s_messages s)))%Z then
      match s_messages s !! (length (s_messages s) - Z.to_nat (keep + 1))%nat with
      | Some pushed_out => upd_meta (fun m => set_pending_tokens (sm_pending_tokens m + tokens pushed_out)%Z m) s
      | None => s
      end
    else s.

Definition apply_appended_messages (now : pystr) (messages : list Message) (s : session) : session :=
  let s := foldl push_message s messages in
  let s := if turn_budget_mode (s_meta s) then rebuild_pending_tokens s else s in
  let s := upd_meta (set_message_count (Z.of_nat (length (s_messages s)))) s in
  let s := upd_meta (fun m => set_total_message_count ((fun n => n + Z.of_nat (length messages))%Z <$> sm_total_message_count m) m) s in
  match messages with [] => s | _ => upd_meta (set_last_message_at now) s end.
End pending.

(** ** Delivery identities *)

Definition DELIVERY_PREFIX : pystr := u "msg_delivery_".
Definition is_delivery (id : pystr) : bool := startswith DELIVERY_PREFIX id.

(** [s.rsplit("_", 1)[0]]. *)
Definition rsplit_head (s : pystr) : pystr :=
  match partition c_under (reverse s) with (_, true, rest) => reverse rest | _ => s end.

Fixpoint filter_loop (groups : list pystr) (messages : list Message) (delivered : list pystr) : list Message :=
  match messages with
  | [] => []
  | m :: messages =>
      if is_delivery (m_id m) then
        if mem (m_id m) delivered || mem (rsplit_head (m_id m)) groups then filter_loop groups messages delivered
        else m :: filter_loop groups messages (m_id m :: delivered)
      else m :: filter_loop groups messages delivered
  end.

(** [_filter_delivered_messages]: what remains of the messages. *)
Definition filter_delivered_messages (messages : list Message) (delivered : list pystr) : list Message :=
  filter_loop (rsplit_head <$> filter (fun id => is_delivery id = true) delivered) messages delivered.

(** [_stable_deduplicate_messages]. *)
Fixpoint deduplicate_from (seen : list pystr) (messages : list Message) : list Message :=
  match messages with
  | [] => []
  | m :: messages => if mem (m_id m) seen then deduplicate_from seen messages else m :: deduplicate_from (m_id m :: seen) messages
  end.
Definition stable_deduplicate_messages : list Message -> list Message := deduplicate_from [].

(** ** Archives *)

Definition ARCHIVE_PREFIX : pystr := u "archive_".

(** [f"{n:03d}"]. *)
Definition pad3 (n : Z) : pystr := let d := decimal (Z.to_N n) in replicate (3 - length d) 48 ++ d.

Definition is_digit (c : N) : bool := (48 <=? c) && (c <=? 57).
(** [int] of a run of digits. *)
Definition digits_value (s : pystr) : Z := foldl (fun n c => (n * 10 + Z.of_N (c - 48))%Z) 0%Z s.

(** [re.fullmatch(r"archive_(\d+)", name)], as the number. *)
Definition archive_number (name : pystr) : option Z :=
  let d := drop (length ARCHIVE_PREFIX) name in
  if startswith ARCHIVE_PREFIX name && nonempty d && forallb is_digit d then Some (digits_value d) else None.

(** [_archive_index_from_uri]: [re.search(r"archive_(\d+)$", archive_uri.rstrip("/"))]. *)
Definition archive_index_from_uri (archive_uri : pystr) : result Z :=
  let s := dollar_body (rstrip is_slash archive_uri) in
  let head := rstrip is_digit s in
  let d := drop (length head) s in
  if nonempty d && startswith (reverse ARCHIVE_PREFIX) (reverse head) then Ok (digits_value d) else Err ValueError.

Record archive_ref := MkRef { ar_id : pystr; ar_uri : pystr; ar_index : Z }.

(** One item of the listing in [_list_archive_refs]. *)
Definition ref_of (history_uri name : pystr) : option archive_ref :=
  if negb (nonempty name) || negb (startswith ARCHIVE_PREFIX name) then None
  else
    match split c_under name !! 1%nat with
    | Some number => MkRef name (history_uri ++ [c_slash] ++ name) <$> py_int number
    | None => None
    end.

(** [sorted(refs, key=index, reverse=True)]: equal indices keep their order. *)
Fixpoint insert_ref (r : archive_ref) (l : list archive_ref) : list archive_ref :=
  match l with
  | [] => [r]
  | x :: l => if (ar_index r <? ar_index x)%Z then x :: insert_ref r l else r :: x :: l
  end.
Definition sort_refs (l : list archive_ref) : list archive_ref := foldr insert_ref [] l.

(** ** Operations *)

(** [d.update(updates)]. *)
Definition dict_update (d updates : pydict) : pydict := foldl (fun d kv => dict_set d kv.1 kv.2) d updates.

(** [queue_message.get("task_id") if isinstance(queue_message, dict) else None]. *)
Definition marker_task_id (marker : pydict) : pyval :=
  match get_or_none marker (u "queue_message") with VDict q => get_or_none q (u "task_id") | _ => VNone end.

(** The strings of a list. *)
Definition strings_of (l : list pyval) : list pystr := omap (fun v => match v with VStr s => Some s | _ => None end) l.

(** The arguments of [commit_async]. *)
Record commit_args := MkCommit {
  ca_keep_recent_count : Z;
  ca_memory_policy : option pydict;
  ca_retention_mode : option pystr;
  ca_keep_recent_turn_count : option Z;
  ca_retained_message_token_budget : option Z;
  ca_min_raw_tail_steps : option Z;
  ca_persist_keep_recent_count : bool;
  ca_record_auto_commit_success : bool;
  ca_event_tags : option (list pystr) }.

Record commit_result := MkCommitResult {
  cr_status : pystr;
  cr_task_id : option pystr;
  cr_archive_uri : option pystr;
  cr_archived : bool;
  cr_reason : option pystr;
  cr_estimated_active_tokens : Z;
  cr_budget_exceeded : bool }.

(** The retention settings of a commit after validation. *)
Record settings := MkSettings { se_turn_mode : bool; se_keep : Z; se_turns : Z; se_budget : Z; se_tail : Z }.

Definition given {A} (o : option A) : bool := match o with Some _ => true | None => false end.

Definition commit_settings (a : commit_args) : result settings :=
  let keep := Z.max 0 (ca_keep_recent_count a) in
  match ca_retention_mode a with
  | Some mode =>
      if negb (seqb mode RETENTION_MODE_TURN_BUDGET) then Err ValueError
      else
        let budget := Z.max 0 (default 12000%Z (ca_retained_message_token_budget a)) in
        if (budget <=? 0)%Z then Err ValueError
        else Ok (MkSettings true keep (Z.max 0 (default 3%Z (ca_keep_recent_turn_count a))) budget
                   (Z.max 0 (default 1%Z (ca_min_raw_tail_steps a))))
  | None =>
      if given (ca_keep_recent_turn_count a) || given (ca_retained_message_token_budget a) || given (ca_min_raw_tail_steps a)
      then Err ValueError
      else Ok (MkSettings false keep 3 12000 1)
  end.

(** [_remember_retention_policy] with the settings of a commit. *)
Definition remember (st : settings) (keep : Z) (m : SessionMeta) : SessionMeta :=
  set_retention keep (if se_turn_mode st then RETENTION_MODE_TURN_BUDGET else []) (if se_turn_mode st then se_turns st else 0%Z)
    (if se_turn_mode st then se_budget st else 0%Z) (se_tail st) m.

(** [SessionCommitMsg.to_dict()]. *)
Record SessionCommitMsg := MkCommitMsg {
  cm_task_id : pystr; cm_session_id : pystr; cm_session_uri : pystr; cm_archive_uri : pystr; cm_user : pydict;
  cm_memory_policy : pydict; cm_usage_uris : list pystr; cm_record_auto_commit_success : bool; cm_event_search_tags : list pystr }.

Definition commit_msg_to_dict (m : SessionCommitMsg) : pydict :=
  [(u "task_id", VStr (cm_task_id m)); (u "session_id", VStr (cm_session_id m)); (u "session_uri", VStr (cm_session_uri m));
   (u "archive_uri", VStr (cm_archive_uri m)); (u "user", VDict (cm_user m)); (u "memory_policy", VDict (cm_memory_policy m));
   (u "usage_uris", VList (VStr <$> cm_usage_uris m)); (u "record_auto_commit_success", VBool (cm_record_auto_commit_success m));
   (u "event_search_tags", VList (VStr <$> cm_event_search_tags m))].

(** [list(dict.fromkeys(...))]: the first occurrences. *)
Fixpoint first_occurrences (seen : list pystr) (l : list pystr) : list pystr :=
  match l with
  | [] => []
  | x :: l => if mem x seen then first_occurrences seen l else x :: first_occurrences (x :: seen) l
  end.

Definition opt_text (o : option pystr) : pyval := match o with Some s => VStr s | None => VNone end.

(** [_retention_plan_meta]. *)
Definition retention_plan_meta (st : settings) (p : RetentionPlan) : pydict :=
  [(u "mode", VStr RETENTION_MODE_TURN_BUDGET); (u "keep_recent_turn_count", VInt (se_turns st));
   (u "retained_message_token_budget", VInt (se_budget st)); (u "min_raw_tail_steps", VInt (se_tail st));
   (u "partial_turn", VBool (partial_turn p)); (u "turn_anchor_message_id", opt_text (m_id <$> turn_anchor p));
   (u "checkpoint_source_message_ids", VList (VStr <$> checkpoint_source_message_ids p));
   (u "raw_tail_start_message_id", opt_text (raw_tail_start_message_id p));
   (u "estimated_active_tokens", VInt (estimated_active_tokens p)); (u "budget_exceeded", VBool (budget_exceeded p))].

(** One entry of [messages_spec]; the keys a caller may leave out are options, the
    deduplication key is any value. *)
Record message_spec := MkSpec {
  sp_role : option pystr; sp_parts : option (list Part); sp_peer_id : option pystr; sp_created_at : option pystr;
  sp_turn_id : option pystr; sp_message_kind : option pystr; sp_source_message_ids : option (list pystr);
  sp_deduplication_key : option pyval }.

(** [_is_tool_result_aggregate]. *)
Definition is_tool_result_aggregate (role : pystr) (parts : list Part) : bool :=
  seqb role (u "user") && (1 <? length parts)%nat && forallb is_tool parts.

Inductive archive_status := APending | ACompleted | AFailed.
#[export] Instance archive_status_eq_dec : EqDecision archive_status.
Proof. solve_decision. Defined.

Record ArchiveState := MkArchive {
  as_id : pystr; as_uri : pystr; as_index : Z; as_state : archive_status; as_overview : pystr; as_done : pydict; as_failed : pydict }.

(** [coverage_start_index] and [coverage_end_index]. *)
Definition coverage_index (k : string) (a : ArchiveState) : Z :=
  match get_or_none (as_done a) (u k) with
  | VStr raw => default (as_index a) (archive_number raw)
  | _ => as_index a
  end.

(** [_covered_archive_ids]. *)
Definition covers (a candidate : ArchiveState) : bool :=
  let first := coverage_index "coverage_start_archive" a in
  let last := coverage_index "coverage_end_archive" a in
  let start := Z.max 1 (Z.min (Z.min first last) (as_index a)) in
  let stop := Z.min (as_index a) (Z.max first last) in
  let explicit := match get_or_none (as_done a) (u "covered_failed_archives") with VList l => strings_of l | _ => [] end in
  bool_decide (as_state a = ACompleted)
  && (((start <=? as_index candidate)%Z && (as_index candidate <=? stop)%Z && negb (bool_decide (as_state candidate = APending)))
      || (mem (as_id candidate) explicit && (as_index candidate <=? as_index a)%Z && bool_decide (as_state candidate = AFailed))).
Definition covered_archive_ids (states : list ArchiveState) : list pystr :=
  as_id <$> filter (fun c => existsb (fun a => covers a c) states = true) states.

Section operations.
Context {F B : Type} {env : SessionEnv} {FS : SessionFS F} {CB : CommitBackend B}.
(** The object's identity: its id, its URI and the path that is locked, and its owner. *)
Context (session_id session_uri session_path account_id user_id : pystr).
(** [_agent_evolution_enabled] and the policy of [_memory_policy_provider]. *)
Context (agent_evolution_enabled : bool) (provided_policy : option pydict).
(** [_externalize_large_tool_output_group], which rewrites the messages it is given. *)
Context (externalize : ST (list Message * F) unit).
(** The readings of the clock during an operation. *)
Context (now : nat -> pystr).

Abbreviation W := (world F B).

Definition on_fs {A} (op : ST F A) : ST W A := fun w =>
  let '(r, f) := op (w_fs w) in (r, MkWorld (w_self w) f (w_back w)).
Definition on_back {A} (op : ST B A) : ST W A := fun w =>
  let '(r, b) := op (w_back w) in (r, MkWorld (w_self w) (w_fs w) b).
Definition self {A} (f : session -> A) : ST W A := st_gets (fun w => f (w_self w)).
Definition modify (f : session -> session) : ST W unit := st_modify (fun w => MkWorld (f (w_self w)) (w_fs w) (w_back w)).

Definition live_uri : pystr := session_uri ++ u "/messages.jsonl".
Definition meta_uri : pystr := session_uri ++ u "/.meta.json".
Definition history_uri : pystr := session_uri ++ u "/history".
Definition archive_uri_of (index : Z) : pystr := history_uri ++ [c_slash] ++ ARCHIVE_PREFIX ++ pad3 index.
Definition archive_messages_uri (archive_uri : pystr) : pystr := archive_uri ++ u "/messages.jsonl".
Definition archive_meta_uri (archive_uri : pystr) : pystr := archive_uri ++ u "/.meta.json".
Definition done_uri (archive_uri : pystr) : pystr := archive_uri ++ u "/.done".
Definition failed_uri (archive_uri : pystr) : pystr := archive_uri ++ u "/.failed.json".

(** [pathlock_acquire_exact] and [pathlock_release] around a body. *)
Definition locked {A} (body : ST W A) : ST W A :=
  lease ← on_fs (sf_lock session_path);
  st_finally body (on_fs (sf_unlock lease)).

Definition attempt (body : ST W unit) : ST W unit := st_catch is_exception body (fun _ => mret tt).

(** [read_file], or [None] for a missing file. *)
Definition read_optional (uri : pystr) : ST W (option pystr) :=
  st_catch is_storage_not_found (content ← on_fs (sf_read uri); mret (Some content)) (fun _ => mret None).

Definition read_live_messages_strict : ST W (list Message) :=
  content ← on_fs (sf_read live_uri);
  st_lift (parse_live content).
Definition read_archive_messages (archive_uri : pystr) : ST W (list Message) :=
  content ← on_fs (sf_read (archive_messages_uri archive_uri));
  st_lift (parse_archive content).
Definition reload_meta : ST W unit :=
  content ← on_fs (sf_read meta_uri);
  m ← st_lift (parse_meta content);
  modify (set_meta m).

(** [_save_meta]; [n] is the number of the clock reading. *)
Definition save_meta (n : nat) : ST W unit :=
  _ ← modify (upd_meta (set_updated_at (now n)));
  m ← self s_meta;
  on_fs (sf_write meta_uri (json_dumps (VDict (meta_to_dict m)))).

(** ** Loading *)

Definition set_messages_op (l : list Message) : ST W unit := modify (set_messages l).

Definition load_index_from_history : ST W unit :=
  st_catch is_storage_not_found
    (names ← on_fs (sf_ls history_uri);
     match omap archive_number names with
     | [] => mret tt
     | i :: l => modify (fun s => set_compression_count (Z.of_nat (length (i :: l))) (set_index (foldl Z.max i l) s))
     end)
    (fun _ => mret tt).

Definition load_meta : ST W unit :=
  st_catch is_storage_not_found
    (_ ← reload_meta;
     modify (fun s => let i := Z.max 0 (sm_commit_count (s_meta s)) in set_compression_count i (set_index i s)))
    (fun _ =>
       _ ← load_index_from_history;
       modify (fun s => upd_meta (fun m => set_total_message_count None (set_commit_count (s_index s) m)) s)).

Definition normalize_auto_policy : ST W unit :=
  m ← self s_meta;
  match sm_auto_commit_policy m with
  | None => mret tt
  | Some d => p ← st_lift (auto_from_dict (VDict d)); modify (upd_meta (set_auto_commit_policy (Some (auto_to_dict p))))
  end.

(** [load]. *)
Definition load : ST W unit :=
  loaded ← self s_loaded;
  if loaded : bool then mret tt
  else
    _ ← st_catch is_storage_not_found
          (content ← on_fs (sf_read live_uri);
           messages ← st_lift (parse_lines (stripped_lines content));
           set_messages_op messages)
          (fun _ => mret tt);
    _ ← load_meta;
    _ ← modify (fun s => upd_meta (fun m =>
          let m := set_message_count (Z.of_nat (length (s_messages s))) m in
          set_created_by (if nonempty (sm_created_by_account_id m) then sm_created_by_account_id m else account_id)
            (if nonempty (sm_created_by_user_id m) then sm_created_by_user_id m else user_id) m) s);
    _ ← normalize_auto_policy;
    modify (fun s => set_loaded (rebuild_pending_tokens s)).

(** [exists], [is_materialized] and [ensure_exists]. *)
Definition stat_exists (uri : pystr) : ST W bool :=
  st_catch is_storage_not_found (_ ← on_fs (sf_stat uri); mret true) (fun _ => mret false).
Definition session_exists : ST W bool := stat_exists session_uri.
Definition is_materialized : ST W bool := stat_exists live_uri.

Definition ensure_exists : ST W unit :=
  found ← session_exists;
  if found : bool then mret tt
  else
    _ ← on_fs (sf_mkdir session_uri);
    _ ← on_fs (sf_write live_uri []);
    save_meta 0.

(** [update_config]. *)
Definition update_config (event_search_tags : option (list pystr)) (auto_commit_policy : option pydict) (update_auto_commit_policy : bool)
    : ST W unit :=
  locked
    (_ ← st_catch is_storage_not_found reload_meta (fun _ => mret tt);
     _ ← match event_search_tags with Some tags => modify (upd_meta (set_event_search_tags (Some tags))) | None => mret tt end;
     _ ← (if update_auto_commit_policy || given auto_commit_policy then
            match auto_commit_policy with
            | None => modify (upd_meta (set_auto_commit_policy None))
            | Some updates =>
                m ← self s_meta;
                p ← st_lift (auto_from_dict (VDict (dict_update (default [] (sm_auto_commit_policy m)) updates)));
                modify (upd_meta (set_auto_commit_policy (Some (auto_to_dict p))))
            end
          else mret tt);
     save_meta 0).

(** [used]. *)
Definition used (contexts : list pystr) (skill : option Usage) : ST W unit :=
  modify (fun s =>
    let s := set_usage (s_usage s ++ ((fun uri => MkUsage uri (u "context") [] [] true) <$> contexts))
               (s_contexts_used s + Z.of_nat (length contexts)) (s_skills_used s) s in
    match skill with
    | Some k => set_usage (s_usage s ++ [k]) (s_contexts_used s) (s_skills_used s + 1) s
    | None => s
    end).

(** ** Appending *)

(** [_list_archive_refs]; a listing that fails is empty, unless it is strict and the
    directory is there. *)
Definition list_archive_refs (strict : bool) : ST W (list archive_ref) :=
  st_catch (fun e => is_exception e && negb (strict && negb (is_storage_not_found e)))
    (names ← on_fs (sf_ls history_uri); mret (sort_refs (omap (ref_of history_uri) names)))
    (fun _ => mret []).

(** The loop over the archives that looks for the wanted ids. *)
Fixpoint find_delivered (wanted : list pystr) (refs : list archive_ref) (delivered : list pystr) : ST W (list pystr) :=
  match refs with
  | [] => mret delivered
  | r :: refs =>
      messages ← read_archive_messages (ar_uri r);
      let delivered := (m_id <$> messages) ++ delivered in
      if forallb (fun id => mem id delivered) wanted then mret delivered else find_delivered wanted refs delivered
  end.

Definition drop_delivered (messages : list Message) : ST W (list Message) :=
  if existsb (fun m => is_delivery (m_id m)) messages then
    live ← self s_messages;
    let delivered := m_id <$> live in
    let wanted := filter (fun id => mem id delivered = false) (m_id <$> messages) in
    delivered ← match wanted with
                | [] => mret delivered
                | _ => refs ← list_archive_refs true; find_delivered wanted refs delivered
                end;
    mret (filter_delivered_messages messages delivered)
  else mret messages.

(** The live file: [true] when it is missing. *)
Definition reload_live : ST W bool :=
  st_catch is_storage_not_found
    (messages ← read_live_messages_strict; _ ← set_messages_op messages; mret false)
    (fun _ => _ ← set_messages_op []; mret true).

(** [_append_messages_authoritatively]: the messages that were appended. *)
Definition append_messages (messages : list Message) : ST W (list Message) :=
  match messages with
  | [] => mret []
  | _ =>
      locked
        (live_messages_missing ← reload_live;
         _ ← attempt reload_meta;
         messages ← drop_delivered messages;
         match messages with
         | [] => mret []
         | _ =>
             _ ← modify (apply_appended_messages (now 0) messages);
             let batch_content := batch_of (now 1) messages in
             _ ← on_fs (if live_messages_missing : bool then sf_write live_uri batch_content else sf_append live_uri batch_content);
             _ ← save_meta 2;
             mret messages
         end)
  end.

(** *** Building messages *)

Definition check_key (key : option pyval) : result (option pystr) :=
  match key with
  | None | Some VNone => Ok None
  | Some (VStr k) => if (1 <=? length k)%nat && (length k <=? 256)%nat then Ok (Some k) else Err ValueError
  | Some _ => Err ValueError
  end.

(** [message_id]; [uuid4] is the hexadecimal text drawn for a message without a key. *)
Definition message_id (key : option pystr) (uuid4 : pystr) (part_index : nat) : pystr :=
  match key with
  | Some k => DELIVERY_PREFIX ++ sha256_text k ++ [c_under] ++ decimal (N.of_nat part_index)
  | None => u "msg_" ++ uuid4
  end.

Definition spec_messages (uuid4 : nat -> pystr) (n : nat) (role : pystr) (parts : list Part) (sp : message_spec) (key peer_id : option pystr)
    : list Message :=
  let created := match sp_created_at sp with Some c => if nonempty c then c else now n | None => now n end in
  if is_tool_result_aggregate role parts then
    imap (fun i part =>
      MkMsg (message_id key (uuid4 (n + i)%nat) i) role [part] peer_id (Some created) (sp_turn_id sp)
        (Some (match sp_message_kind sp with Some k => if nonempty k then k else u "tool_transport" | None => u "tool_transport" end))
        (sp_source_message_ids sp)) parts
  else [MkMsg (message_id key (uuid4 n) 0) role parts peer_id (Some created) (sp_turn_id sp) (sp_message_kind sp) (sp_source_message_ids sp)].

(** Externalize a group of messages; what it wrote and rewrote stays when it raises. *)
Definition externalized (messages : list Message) : ST W (list Message) := fun w =>
  let '(r, (messages, f)) := externalize (messages, w_fs w) in
  (_ ← r; Ok messages, MkWorld (w_self w) f (w_back w)).

(** The loop of [_build_messages]. *)
Fixpoint build_from (uuid4 : nat -> pystr) (specs : list message_spec) (delivery_keys : list pystr) (all_messages : list Message)
    : ST W (list Message) :=
  match specs with
  | [] => mret all_messages
  | sp :: specs =>
      match sp_role sp, sp_parts sp with
      | Some role, Some parts =>
          key ← st_lift (check_key (sp_deduplication_key sp));
          if match key with Some k => mem k delivery_keys | None => false end then build_from uuid4 specs delivery_keys all_messages
          else
            peer_id ← st_lift (match normalize_peer_id (sp_peer_id sp) with
                               | Ok p => Ok p
                               | Err e => Err (if is_value_error e then InvalidArgumentError else e)
                               end);
            msgs ← externalized (spec_messages uuid4 (length all_messages) role parts sp key peer_id);
            build_from uuid4 specs (match key with Some k => k :: delivery_keys | None => delivery_keys end) (all_messages ++ msgs)
      | _, _ => st_raise ValueError
      end
  end.

(** [add_messages_async]. *)
Definition add_messages (uuid4 : nat -> pystr) (specs : list message_spec) : ST W (list Message) :=
  messages ← build_from uuid4 specs [] [];
  append_messages messages.

(** ** Archive metadata *)

(** [_read_archive_meta]. *)
Definition read_archive_meta (archive_uri : pystr) : ST W pydict :=
  st_catch is_exception
    (content ← on_fs (sf_read (archive_meta_uri archive_uri)); st_lift (parse_object content))
    (fun _ => mret []).

(** [_merge_archive_meta]. *)
Definition merge_archive_meta (archive_uri : pystr) (updates : pydict) : ST W unit :=
  meta ← read_archive_meta archive_uri;
  on_fs (sf_write (archive_meta_uri archive_uri) (json_dumps (VDict (dict_update meta updates)))).

(** [_read_phase1_meta]. *)
Definition read_phase1_meta (archive_uri : pystr) : ST W pydict :=
  meta ← read_archive_meta archive_uri;
  mret (match get_or_none meta (u "phase1") with VDict d => d | _ => [] end).

Definition ids_val (messages : list Message) : pyval := VList (VStr ∘ m_id <$> messages).

(** The payload and the update of [_write_phase1_marker]. *)
Definition phase1_payload (st : settings) (queue_message : pydict) (original archived retained : list Message) : pydict :=
  [(u "version", VInt 1); (u "status", VStr (u "preparing")); (u "created_at", VStr (now 0)); (u "queue_message", VDict queue_message);
   (u "original_message_ids", ids_val original); (u "archived_message_ids", ids_val archived); (u "retained_message_ids", ids_val retained);
   (u "keep_recent_count", VInt (se_keep st)); (u "retention_mode", VStr (if se_turn_mode st then RETENTION_MODE_TURN_BUDGET else []));
   (u "keep_recent_turn_count", VInt (if se_turn_mode st then se_turns st else 0));
   (u "retained_message_token_budget", VInt (if se_turn_mode st then se_budget st else 0)); (u "min_raw_tail_steps", VInt (se_tail st))].

Definition write_phase1_marker (archive_uri : pystr) (payload : pydict) (skip_reason : option pystr) : ST W unit :=
  merge_archive_meta archive_uri
    [(u "phase1", VDict payload);
     (u "agent_evolution", VDict [(u "enabled", VBool agent_evolution_enabled); (u "skip_reason", opt_text skip_reason)])].

(** [_write_phase1_ready_marker]. *)
Definition write_phase1_ready_marker (n : nat) (archive_uri : pystr) : ST W unit :=
  phase1 ← read_phase1_meta archive_uri;
  merge_archive_meta archive_uri [(u "phase1", VDict (dict_update phase1 [(u "status", VStr (u "ready")); (u "ready_at", VStr (now n))]))].

(** [_archive_file_exists]. *)
Definition archive_file_exists (uri : pystr) : ST W bool := st_catch is_exception (on_fs (sf_exists uri)) (fun _ => mret false).

(** [_write_failed_marker] without completed steps. *)
Definition write_failed_marker (n : nat) (archive_uri stage error : pystr) : ST W unit :=
  on_fs (sf_write (failed_uri archive_uri)
    (json_dumps (VDict [(u "stage", VStr stage); (u "error", VStr error); (u "failed_at", VStr (now n)); (u "skipped", VBool true);
                        (u "completed_memory_steps", VDict [])]))).

(** ** Committing *)

(** [_resolve_memory_policy], validated and with the agent setting applied. *)
Definition effective_policy (override : option pydict) : ST W MemoryPolicy :=
  meta ← self s_meta;
  let policy := match override with
                | Some _ => override
                | None => match sm_memory_policy meta with Some p => Some p | None => provided_policy end
                end in
  p ← st_lift (memory_from_dict casefold (opt_dict_val policy));
  _ ← st_lift (validate_memory_types registered_types p);
  mret (apply_agent_evolution_setting registered_types p agent_evolution_enabled).

(** The metadata a commit starts from; a default policy set on the object survives. *)
Definition reload_commit_meta (a : commit_args) (in_memory_policy : option pydict) : ST W unit :=
  _ ← reload_meta;
  modify (upd_meta (fun m =>
    if negb (given (ca_memory_policy a)) && negb (given (sm_memory_policy m)) && given in_memory_policy
    then set_memory_policy in_memory_policy m else m)).

(** The search for a free archive number. *)
Fixpoint skip_archives (fuel : nat) : ST W unit :=
  match fuel with
  | O => st_raise OutOfFuel
  | S fuel =>
      i ← self s_index;
      taken ← on_fs (sf_exists (archive_uri_of (i + 1)));
      if taken : bool then _ ← modify (set_index (i + 1)); skip_archives fuel else mret tt
  end.

(** Externalize every turn; [turn.messages] are the session's own message objects. *)
Fixpoint externalize_turns (turns : list (list Message)) (done : list Message) : ST W unit :=
  match turns with
  | [] => mret tt
  | t :: turns => fun w =>
      let '(r, (t', f)) := externalize (t, w_fs w) in
      let w := MkWorld (set_messages (done ++ t' ++ concat turns) (w_self w)) f (w_back w) in
      match r with
      | Ok _ => externalize_turns turns (done ++ t') w
      | Err e => (Err e, w)
      end
  end.

(** The split of the live messages: archived, retained, and the plan of turn mode. *)
Definition split_messages (st : settings) : ST W (list Message * list Message * option RetentionPlan) :=
  messages ← self s_messages;
  if se_turn_mode st then
    _ ← externalize_turns (turn_messages <$> build_turns id messages) [];
    messages ← self s_messages;
    let p := plan messages (se_turns st) (se_budget st) (se_tail st) in
    mret (archive_messages p, retained_messages p, Some p)
  else if (0 <? se_keep st)%Z then
    let split_idx := Z.to_nat (Z.max 0 (Z.of_nat (length messages) - se_keep st)) in
    mret (take split_idx messages, drop split_idx messages, None)
  else mret (messages, [], None).

(** [_generate_abstract] and [_generate_overview]. *)
Definition signed_decimal (z : Z) : pystr := if (z <? 0)%Z then [c_minus] ++ decimal (Z.abs_N z) else decimal (Z.to_N z).
Definition generate_abstract (s : session) : pystr :=
  match s_messages s with
  | [] => []
  | m :: _ => signed_decimal (s_total_turns s) ++ u " turns, starting from '" ++ take 50 (Message.content m) ++ u "...'"
  end.
Definition generate_overview (turn_count : nat) (s : session) : pystr :=
  join [c_nl]
    ([u "# Session Directory Structure"; []; u "## File Description";
      u "- `messages.jsonl` - Current messages (" ++ decimal (N.of_nat turn_count) ++ u " turns)"]
     ++ (if (0 <? s_index s)%Z then [u "- `history/` - Historical archives (" ++ signed_decimal (s_index s) ++ u " total)"] else [])
     ++ [[]; u "## Access Methods"; u "- Full conversation: `" ++ session_uri ++ u "`"]
     ++ (if (0 <? s_index s)%Z then [u "- Historical archives: `" ++ session_uri ++ u "/history/`"] else [])).

(** The two overviews of the session's directory. *)
Definition SESSION_UPDATE : pydict :=
  [(u "generated_by", VDict [(u "component", VStr (u "Session")); (u "trigger", VStr (u "session_update"))])].
Definition write_overviews (turn_count : nat) (s : session) : ST W unit :=
  abstract ← st_lift (render_abstract_overview ABSTRACT session_uri (generate_abstract s) SESSION_UPDATE);
  _ ← on_fs (sf_write (session_uri ++ u "/.abstract.md") abstract);
  overview ← st_lift (render_abstract_overview OVERVIEW session_uri (generate_overview turn_count s) SESSION_UPDATE);
  on_fs (sf_write (session_uri ++ u "/.overview.md") overview).

(** [_write_to_agfs_async]. *)
Definition write_to_agfs (n : nat) (messages : list Message) : ST W unit :=
  s ← self id;
  let turn_count := length (filter (fun m => is_user_query m = true) messages) in
  _ ← on_fs (sf_write live_uri (file_of (now n) messages));
  write_overviews turn_count s.

Definition skipped (reason : string) (p : option RetentionPlan) : commit_result :=
  MkCommitResult (u "skipped") None None false (Some (u reason))
    (from_option estimated_active_tokens 0%Z p) (from_option budget_exceeded false p).

(** The handler of Phase 1: a terminal marker, and the object as it was. *)
Definition fail_phase1 {A} (archive_uri : pystr) (original : list Message) (stage : string) (e : exn) : ST W A :=
  _ ← attempt (write_failed_marker 9 archive_uri (u stage) (exn_text e));
  _ ← modify (fun s => set_index (s_index s - 1) (set_messages original s));
  st_raise e.

Definition guarded (archive_uri : pystr) (original : list Message) (stage : string) (body : ST W unit) : ST W unit :=
  st_catch is_exception body (fail_phase1 archive_uri original stage).

(** The four stages of Phase 1. *)
Definition persist_archive (st : settings) (archive_uri : pystr) (payload : pydict) (skip_reason : option pystr) (archived : list Message)
    (p : option RetentionPlan) : ST W unit :=
  _ ← write_phase1_marker archive_uri payload skip_reason;
  _ ← on_fs (sf_write (archive_messages_uri archive_uri) (join [c_nl] (to_jsonl (now 1) <$> archived) ++ [c_nl]));
  match p with
  | Some p => merge_archive_meta archive_uri [(u "retention_plan", VDict (retention_plan_meta st p))]
  | None => mret tt
  end.

Definition publish_root (st : settings) (stored_keep : Z) (record_auto : bool) (archive_uri : pystr) (retained : list Message) : ST W unit :=
  _ ← set_messages_op retained;
  _ ← write_to_agfs 2 retained;
  _ ← modify (fun s => upd_meta (fun m =>
        let m := remember st stored_keep (set_pending_tokens 0 (set_message_count (Z.of_nat (length retained)) m)) in
        let m := set_last_commit_at (now 3) (set_commit_count (Z.max (sm_commit_count m) (s_index s)) m) in
        if record_auto then set_last_auto_commit_at (now 4) m else m) s);
  _ ← save_meta 5;
  write_phase1_ready_marker 6 archive_uri.

Definition phase1 (st : settings) (stored_keep : Z) (a : commit_args) (policy : MemoryPolicy) (tags : list pystr) (task_id : pystr)
    (archived retained : list Message) (p : option RetentionPlan) : ST W commit_result :=
  _ ← modify (fun s => set_index (s_index s + 1) s);
  s ← self id;
  let archive_uri := archive_uri_of (s_index s) in
  let original := s_messages s in
  let msg := MkCommitMsg task_id session_id session_uri archive_uri [(u "account_id", VStr account_id); (u "user_id", VStr user_id)]
               (memory_to_dict policy) (first_occurrences [] (filter (fun x => nonempty x = true) (usage_uri <$> s_usage s)))
               (ca_record_auto_commit_success a) tags in
  let reason := agent_memory_skip_reason agent_evolution_enabled (effective_memory_types registered_types policy) None in
  let payload := phase1_payload st (commit_msg_to_dict msg) original archived retained in
  _ ← guarded archive_uri original "phase1_persist" (persist_archive st archive_uri payload reason archived p);
  _ ← guarded archive_uri original "queue_enqueue" (on_back (cb_enqueue (commit_msg_to_dict msg)));
  _ ← guarded archive_uri original "task_tracker_create" (_ ← on_back (cb_create session_id task_id account_id user_id); mret tt);
  _ ← guarded archive_uri original "phase1_persist" (publish_root st stored_keep (ca_record_auto_commit_success a) archive_uri retained);
  mret (MkCommitResult (u "accepted") (Some task_id) (Some archive_uri) true None
          (from_option estimated_active_tokens 0%Z p) (from_option budget_exceeded false p)).

(** Archive what does not stay; the number of messages archived is returned beside the
    result. *)
Definition commit_messages (st : settings) (stored_keep : Z) (a : commit_args) (policy : MemoryPolicy) (tags : list pystr) (task_id : pystr)
    (messages : list Message) : ST W (commit_result * nat) :=
  match messages with
  | [] =>
      _ ← modify (upd_meta (fun m => remember st stored_keep (set_pending_tokens 0 m)));
      _ ← save_meta 7;
      mret (skipped "no_messages" None, 0%nat)
  | _ =>
      '(archived, retained, p) ← split_messages st;
      match archived with
      | [] =>
          _ ← set_messages_op retained;
          _ ← write_to_agfs 8 retained;
          _ ← modify (upd_meta (fun m =>
                remember st stored_keep (set_message_count (Z.of_nat (length messages)) (set_pending_tokens 0 m))));
          _ ← save_meta 7;
          mret (skipped "all_within_keep_window" p, 0%nat)
      | _ => r ← phase1 st stored_keep a policy tags task_id archived retained p; mret (r, length archived)
      end
  end.

(** What [commit_async] does while it holds the lock. *)
Definition commit_locked (fuel : nat) (st : settings) (a : commit_args) (task_id : pystr) (in_memory_policy : option pydict)
    (explicit : option MemoryPolicy) : ST W (commit_result * nat) :=
  messages ← read_live_messages_strict;
  _ ← set_messages_op messages;
  _ ← attempt (reload_commit_meta a in_memory_policy);
  meta ← self s_meta;
  tags ← st_lift (resolve_event_search_tags lower (ca_event_tags a) (sm_event_search_tags meta));
  policy ← match explicit with Some p => mret p | None => effective_policy None end;
  _ ← modify (fun s => set_index (Z.max (s_index s) (sm_commit_count (s_meta s))) s);
  _ ← skip_archives fuel;
  let stored_keep := if ca_persist_keep_recent_count a then se_keep st else Z.max 0 (sm_keep_recent_count meta) in
  commit_messages st stored_keep a policy tags task_id messages.

(** [commit_async], with the uuid drawn for the task. *)
Definition commit_async (fuel : nat) (task_id : pystr) (a : commit_args) : ST W commit_result :=
  st ← st_lift (commit_settings a);
  meta ← self s_meta;
  explicit ← match ca_memory_policy a with Some p => p ← effective_policy (Some p); mret (Some p) | None => mret None end;
  '(r, archived) ← locked (commit_locked fuel st a task_id (sm_memory_policy meta) explicit);
  _ ← modify (fun s => set_original_count (s_original_count s + Z.of_nat archived) s);
  mret r.

(** [finalize_cancelled_commit]. *)
Definition finalize_cancelled_commit (archive_uri : pystr) : ST W unit :=
  write_failed_marker 0 archive_uri (u "cancelled") (u "session commit cancelled").

(** ** Recovering a commit *)

(** Finish a rewrite that is known to be in the live file. *)
Definition reconcile_phase1 (archive_uri : pystr) (marker : pydict) (live_messages : list Message) : ST W unit :=
  _ ← attempt reload_meta;
  _ ← set_messages_op live_messages;
  let setting k dflt := nonneg_int (default (VInt dflt) (dict_get marker (u k))) in
  keep ← st_lift (setting "keep_recent_count"%string 0%Z);
  turns ← st_lift (setting "keep_recent_turn_count"%string 0%Z);
  budget ← st_lift (setting "retained_message_token_budget"%string 0%Z);
  tail ← st_lift (setting "min_raw_tail_steps"%string 1%Z);
  let mode := py_str text_of (py_or (get_or_none marker (u "retention_mode")) (VStr [])) in
  _ ← modify (upd_meta (fun m => set_message_count (Z.of_nat (length live_messages)) (set_retention keep mode turns budget tail m)));
  index ← st_lift (archive_index_from_uri archive_uri);
  _ ← modify (upd_meta (fun m => set_last_commit_at (now 0) (set_commit_count (Z.max (sm_commit_count m) index) m)));
  _ ← modify rebuild_pending_tokens;
  _ ← save_meta 1;
  write_phase1_ready_marker 2 archive_uri.

(** The live messages and the ids of the marker, or [None] after the failure marker. *)
Definition verify_phase1 (archive_uri : pystr) (marker : pydict) : ST W (option (list pystr * list pystr * list Message)) :=
  st_catch is_exception
    (match marker, get_or_none marker (u "retained_message_ids"), get_or_none marker (u "archived_message_ids") with
     | _ :: _, VList retained, VList archived =>
         live ← read_live_messages_strict;
         mret (Some (strings_of retained, strings_of archived, live))
     | _, _, _ => st_raise ValueError
     end)
    (fun e =>
       _ ← write_failed_marker 3 archive_uri (u "phase1_recovery") (u "Cannot verify Phase 1 state: " ++ exn_text e);
       mret None).

(** Whether the live file is the one Phase 1 writes, possibly with later appends. *)
Definition phase1_applied (retained_ids archived_ids : list pystr) (live : list Message) : bool :=
  let live_ids := m_id <$> live in
  bool_decide (take (length retained_ids) live_ids = retained_ids)
  && forallb (fun id => mem id retained_ids || negb (mem id live_ids)) archived_ids.

Definition recover_phase1 (archive_uri : pystr) : ST W bool :=
  marker ← read_phase1_meta archive_uri;
  if is_text (u "ready") (get_or_none marker (u "status")) then mret true
  else
    failed ← archive_file_exists (failed_uri archive_uri);
    if failed : bool then mret false
    else
      let task_id := marker_task_id marker in
      has_work ← st_gets (fun w : W => py_truthy task_id && cb_has_work (w_back w) (py_str text_of task_id));
      if negb has_work then
        let error := u "Phase 1 has no QueueFS work to resume" in
        _ ← write_failed_marker 3 archive_uri (u "phase1_recovery") error;
        _ ← (if py_truthy task_id then on_back (cb_fail (py_str text_of task_id) error account_id user_id) else mret tt);
        mret false
      else
        checked ← verify_phase1 archive_uri marker;
        match checked with
        | None => mret false
        | Some (retained_ids, archived_ids, live) =>
            if phase1_applied retained_ids archived_ids live
            then _ ← reconcile_phase1 archive_uri marker live; mret true
            else
              _ ← write_failed_marker 3 archive_uri (u "phase1_recovery")
                    (u "Root rewrite was not durably completed before process interruption");
              mret false
        end.

(** [_ensure_phase1_ready]. *)
Definition ensure_phase1_ready (archive_uri : pystr) : ST W bool :=
  marker ← read_phase1_meta archive_uri;
  if match marker with [] => true | _ => is_text (u "ready") (get_or_none marker (u "status")) end then mret true
  else
    failed ← archive_file_exists (failed_uri archive_uri);
    if failed : bool then mret false else locked (recover_phase1 archive_uri).

(** ** Phase 2 *)

(** [_archive_terminal_state]. *)
Definition archive_terminal_state (archive_uri : pystr) : ST W archive_status :=
  done ← archive_file_exists (done_uri archive_uri);
  if done : bool then mret ACompleted
  else
    failed ← archive_file_exists (failed_uri archive_uri);
    mret (if failed : bool then AFailed else APending).

(** [_can_run_archive]. *)
Definition can_run_archive (index : Z) : ST W bool :=
  if (index <=? 1)%Z then mret true
  else
    let predecessor := archive_uri_of (index - 1) in
    there ← on_fs (sf_exists predecessor);
    if negb there then mret true
    else
      state ← archive_terminal_state predecessor;
      if negb (bool_decide (state = APending)) then mret true
      else
        marker ← read_phase1_meta predecessor;
        match marker with
        | [] => mret false
        | _ =>
            if negb (is_text (u "ready") (get_or_none marker (u "status"))) then
              ready ← ensure_phase1_ready predecessor; mret (negb ready)
            else
              let task_id := marker_task_id marker in
              if negb (py_truthy task_id) then mret false
              else
                working ← st_gets (fun w : W => cb_has_work (w_back w) (py_str text_of task_id));
                if working : bool then mret false
                else
                  let error := u "Session commit queue work is missing" in
                  _ ← write_failed_marker 4 predecessor (u "queue_missing") error;
                  _ ← on_back (cb_fail (py_str text_of task_id) error account_id user_id);
                  mret true
        end.

(** The text of a failure marker. *)
Definition failure_text (failed : pydict) (dflt : string) : pystr := py_str text_of (py_or (get_or_none failed (u "error")) (VStr (u dflt))).

(** What [resume_queued_commit] makes of the archive's record of the agent setting. *)
Definition evolution_snapshot (archive_meta : pydict) : pydict :=
  match get_or_none archive_meta (u "agent_evolution") with
  | VDict d => d
  | _ => match get_or_none archive_meta (u "phase1") with
         | VDict p => match get_or_none p (u "queue_message") with VDict q => q | _ => [] end
         | _ => []
         end
  end.
Definition first_given (d : pydict) (k k' : string) : pyval :=
  match get_or_none d (u k) with VNone => get_or_none d (u k') | v => v end.

(** The arguments of [_run_memory_extraction]. *)
Record extraction := MkExtraction {
  ex_task_id : pystr; ex_archive_uri : pystr; ex_messages : list Message; ex_usage_uris : list pystr; ex_memory_policy : pydict;
  ex_agent_evolution_enabled : bool; ex_skip_reason : pyval; ex_user_config_error : option pystr; ex_record_auto_commit_success : bool;
  ex_event_search_tags : list pystr }.

Definition extraction_of (msg : SessionCommitMsg) (messages : list Message) (archive_meta : pydict) : result extraction :=
  p ← memory_from_dict casefold (VDict (cm_memory_policy msg));
  let snapshot := evolution_snapshot archive_meta in
  let enabled := match first_given snapshot "enabled" "agent_evolution_enabled" with VBool b => b | _ => true end in
  let reason := match first_given snapshot "skip_reason" "agent_memory_skip_reason" with
                | VNone => opt_text (agent_memory_skip_reason enabled (effective_memory_types registered_types p) None)
                | v => v
                end in
  let error := match get_or_none snapshot (u "user_config_error") with VNone => None | v => Some (py_str text_of v) end in
  Ok (MkExtraction (cm_task_id msg) (cm_archive_uri msg) messages (cm_usage_uris msg) (cm_memory_policy msg) enabled reason error
        (cm_record_auto_commit_success msg) (cm_event_search_tags msg)).

Section phase2.
(** [_run_memory_extraction]. *)
Context (run_memory_extraction : extraction -> ST W unit).

Definition fail_commit (msg : SessionCommitMsg) (error : pystr) : ST W bool :=
  _ ← on_back (cb_fail (cm_task_id msg) error account_id user_id); mret true.

(** From the archive's messages on; a file that is missing or cannot be read is an empty
    archive. *)
Definition run_archive (msg : SessionCommitMsg) : ST W bool :=
  let archive_uri := cm_archive_uri msg in
  content ← read_optional (archive_messages_uri archive_uri);
  let messages := match content with Some c => parse_archive c | None => Ok [] end in
  match messages with
  | Ok ((_ :: _) as messages) =>
      archive_meta ← read_archive_meta archive_uri;
      args ← st_lift (extraction_of msg messages archive_meta);
      _ ← run_memory_extraction args;
      mret true
  | _ =>
      let error := match messages with
                   | Err _ => u "session commit archive has invalid messages: invalid message record"
                   | Ok _ => u "session commit archive has no messages"
                   end in
      _ ← write_failed_marker 5 archive_uri (u "archive_read") error;
      fail_commit msg error
  end.

(** [resume_queued_commit]. *)
Definition resume_queued_commit (msg : SessionCommitMsg) : ST W bool :=
  let archive_uri := cm_archive_uri msg in
  status ← on_back (cb_create session_id (cm_task_id msg) account_id user_id);
  done ← read_optional (done_uri archive_uri);
  match done with
  | Some _ =>
      if bool_decide (status = COMPLETED) then mret true
      else
        _ ← on_back (cb_complete (cm_task_id msg) [(u "session_id", VStr session_id); (u "archive_uri", VStr archive_uri)] account_id user_id);
        mret true
  | None =>
      failed ← read_optional (failed_uri archive_uri);
      match failed with
      | Some content =>
          d ← st_lift (parse_object content);
          fail_commit msg (failure_text d "session commit failed")
      | None =>
          ready ← ensure_phase1_ready archive_uri;
          if negb ready then
            error ← st_catch is_exception
                      (content ← on_fs (sf_read (failed_uri archive_uri));
                       d ← st_lift (parse_object content);
                       mret (failure_text d "session commit Phase 1 is not ready"))
                      (fun _ => mret (u "session commit Phase 1 is not ready"));
            fail_commit msg error
          else
            index ← st_lift (archive_index_from_uri archive_uri);
            runnable ← can_run_archive index;
            if negb runnable then mret false else run_archive msg
      end
  end.
End phase2.

(** The token counts of a telemetry snapshot: those of [llm], and of [embedding]. *)
Definition add_usage (a b : TokenUsage) : TokenUsage :=
  MkUsageCounts (tu_prompt_tokens a + tu_prompt_tokens b) (tu_completion_tokens a + tu_completion_tokens b)
    (tu_total_tokens a + tu_total_tokens b) (tu_cached_tokens a + tu_cached_tokens b) (tu_reasoning_tokens a + tu_reasoning_tokens b).

Definition add_count (counts : list (pystr * Z)) (kv : pystr * Z) : list (pystr * Z) :=
  let counts := dict_set counts kv.1 (default 0%Z (dict_get counts kv.1) + kv.2)%Z in
  dict_set counts (u "total") (default 0%Z (dict_get counts (u "total")) + kv.2)%Z.

(** [_read_live_message_count]. *)
Definition read_live_message_count : ST W Z :=
  st_catch is_exception
    (content ← on_fs (sf_read live_uri);
     mret (Z.of_nat (length (filter (fun l => blank l = false) (stripped_lines content)))))
    (fun _ => self (fun s => Z.of_nat (length (s_messages s)))).

(** [_merge_and_save_commit_meta]. *)
Definition merge_and_save_commit_meta (archive_index : Z) (memories : list (pystr * Z)) (telemetry : option (TokenUsage * Z)) (record_auto : bool)
    : ST W unit :=
  locked
    (stored ← st_catch is_exception
                (content ← on_fs (sf_read meta_uri); m ← st_lift (parse_meta content); mret m)
                (fun _ => self s_meta);
     count ← read_live_message_count;
     let m := match telemetry with
              | Some (llm, embedding) =>
                  set_commit_results (add_usage (sm_llm_token_usage stored) llm) (sm_embedding_total stored + embedding)%Z
                    (sm_memories_extracted stored) stored
              | None => stored
              end in
     let m := set_commit_count (Z.max (sm_commit_count m) archive_index) m in
     let m := set_commit_results (sm_llm_token_usage m) (sm_embedding_total m) (foldl add_count (sm_memories_extracted m) memories) m in
     let m := set_message_count count (set_last_commit_at (now 0) m) in
     _ ← modify (set_meta (if record_auto then set_last_auto_commit_at (now 1) m else m));
     save_meta 2).
End operations.
