(* ===== verification/SessionFiles.v ===== *)
(** What sessions rely on: Python's JSON, the file system, the commit queue and the
    externalization of tool outputs, and how message files read back. *)
From Stdlib Require Import NArith ZArith.
From S2P Require Import Prelude Effects PyStr PyVal Identifiers WorkIndex TaskRecord Tokens Message Retention SessionPolicy SessionMeta Session.

Open Scope N_scope.

Definition c_cr : N := 13.

(** ** Laws *)

(** [json.dumps] writes an object between braces and escapes control characters. *)
Class SessionEnvOk {env : SessionEnv} : Prop := {
  json_roundtrip : forall v, json_loads (json_dumps v) = Ok v;
  json_object : forall d, exists body, json_dumps (VDict d) = 123 :: body ++ [125] /\ c_nl ∉ body /\ c_cr ∉ body }.

(** The default [node_limit] of [VikingFS.ls]. *)
Definition NODE_LIMIT : N := 1000.

(** The names directly below [uri]. *)
Definition child (uri : pystr) (names : gset pystr) (n : pystr) : Prop := c_slash ∉ n /\ uri ++ [c_slash] ++ n ∈ names.

(** A directory with fewer entries than one listing shows. *)
Definition short_dir (uri : pystr) (names : gset pystr) : Prop :=
  forall l, NoDup l -> (forall n, n ∈ l -> child uri names n) -> N.of_nat (length l) < NODE_LIMIT.

(** Files with their contents, and the names of all files and directories.  A write that
    raises (or is cancelled) has happened or has not.  A listing has different names of
    things that are there, and all of them (but hidden ones) unless it was cut. *)
Class SessionFSOk (F : Type) {FS : SessionFS F} (files : F -> gmap pystr pystr) (entries : F -> gset pystr) : Prop := {
  fs_write_ok : forall uri c s, match sf_write uri c s with
    | (Ok _, s') => files s' = <[uri := c]> (files s)
    | (Err _, s') => files s' = files s \/ files s' = <[uri := c]> (files s) end;
  fs_append_ok : forall uri c s, match sf_append uri c s with
    | (Ok _, s') => files s' = <[uri := default [] (files s !! uri) ++ c]> (files s)
    | (Err _, s') => files s' = files s \/ files s' = <[uri := default [] (files s !! uri) ++ c]> (files s) end;
  fs_read_ok : forall uri s, files (sf_read uri s).2 = files s
    /\ match (sf_read uri s).1 with
       | Ok c => files s !! uri = Some c
       | Err NotFoundError => files s !! uri = None
       | Err _ => True end;
  fs_exists_ok : forall uri s, files (sf_exists uri s).2 = files s /\ entries (sf_exists uri s).2 = entries s
    /\ forall b, (sf_exists uri s).1 = Ok b -> b = bool_decide (uri ∈ entries s);
  fs_ls_ok : forall uri s, files (sf_ls uri s).2 = files s
    /\ match (sf_ls uri s).1 with
       | Ok names => NoDup names /\ (forall n, n ∈ names -> child uri (entries s) n)
           /\ (N.of_nat (length names) < NODE_LIMIT -> forall n, child uri (entries s) n -> startswith (u ".") n = false -> n ∈ names)
       | Err NotFoundError => forall n, uri ++ [c_slash] ++ n ∉ entries s
       | Err _ => True end;
  fs_stat_ok : forall uri s, files (sf_stat uri s).2 = files s /\ ((sf_stat uri s).1 = Err NotFoundError -> uri ∉ entries s);
  fs_mkdir_ok : forall uri s, files (sf_mkdir uri s).2 = files s;
  fs_lock_ok : forall path s, files (sf_lock path s).2 = files s;
  fs_unlock_ok : forall lease s, files (sf_unlock lease s).2 = files s;
  fs_entry : forall s p, is_Some (files s !! p) -> p ∈ entries s;
  fs_parent : forall s d n, d ++ [c_slash] ++ n ∈ entries s -> d ∈ entries s }.

(** A queued commit is work of its task until its message is acknowledged. *)
Class CommitBackendOk (B : Type) {CB : CommitBackend B} : Prop := {
  enqueue_has_work : forall d b b' task_id, cb_enqueue d b = (Ok tt, b') -> dict_get d (u "task_id") = Some (VStr task_id) -> task_id <> [] ->
    cb_has_work b' task_id = true;
  create_has_work : forall resource_id task_id account user b task_id', cb_has_work b task_id' = true ->
    cb_has_work (cb_create resource_id task_id account user b).2 task_id' = true }.

(** An image part needs an address to be read back. *)
Definition message_ok (m : Message) : Prop := Forall part_ok (m_parts m).

(** Externalization rewrites tool parts and writes below the session's tool results,
    whatever it raises. *)
Class ExternalizeOk {F} (files : F -> gmap pystr pystr) (session_uri : pystr) (externalize : ST (list Message * F) unit) : Prop := {
  externalize_ids : forall ms f, m_id <$> (externalize (ms, f)).2.1 = m_id <$> ms;
  externalize_parts : forall ms f, Forall message_ok ms -> Forall message_ok (externalize (ms, f)).2.1;
  externalize_files : forall ms f p, ~ (session_uri ++ u "/tool-results/") `prefix_of` p ->
    files (externalize (ms, f)).2.2 !! p = files f !! p }.

(** ** Message files *)

Lemma strings_of_texts (l : list pystr) : strings_of (VStr <$> l) = l.
Proof. induction l as [|s l IH]; [done|]. rewrite fmap_cons. change (s :: strings_of (VStr <$> l) = s :: l). by rewrite IH. Qed.

(** What is read back can be written again. *)
Lemma part_read_ok render d p : part_from_dict render d = Ok p -> part_ok p.
Proof.
  unfold part_from_dict. destruct (default _ _); try (by intros [= <-]).
  destruct (seqb s (u "text")); [destruct (get_str d "text" []); [by intros [= <-]|done]|].
  destruct (seqb s (u "context")).
  { destruct (get_str d "uri" []); [|done]. destruct (get_str d "context_type" _); [|done]. destruct (get_str d "abstract" _); [by intros [= <-]|done]. }
  destruct (seqb s (u "image_url")).
  { destruct (parse_image_url_payload render d) as [url detail]. destruct (nonempty (strip is_space url)) eqn:E; [|done]. by intros [= <-]. }
  destruct (seqb s (u "tool")); [destruct (tool_from_dict d); [by intros [= <-]|done]|]. by intros [= <-].
Qed.

Lemma parts_read_ok render l ps : parts_from_dicts render l = Ok ps -> Forall part_ok ps.
Proof.
  revert ps. induction l as [|v l IH]; intros ps; cbn [parts_from_dicts]; [by intros [= <-]|].
  destruct v; try done. destruct (part_from_dict render l0) as [p|] eqn:E; [|done]. cbn [mbind result_bind].
  destruct (parts_from_dicts render l) as [ps'|]; [|done]. intros [= <-]. constructor; [by eapply part_read_ok|by apply IH].
Qed.

Lemma message_read_ok render d m : Message.from_dict render d = Ok m -> message_ok m.
Proof.
  unfold Message.from_dict. intros (raws & _ & H)%result_bind_ok. apply result_bind_ok in H as (ps & E%parts_read_ok & H).
  repeat (apply result_bind_ok in H as (? & _ & H)). by injection H as <-.
Qed.

Section messages.
Context {env : SessionEnv} {env_ok : SessionEnvOk}.

(** A message as it reads back. *)
Definition stored (now : pystr) (m : Message) : Message :=
  MkMsg (m_id m) (m_role m) (norm_part <$> m_parts m)
    (match normalize_peer_id (m_peer_id m) with Ok p => p | Err _ => m_peer_id m end)
    (Some (created_text now m)) (m_turn_id m) (m_message_kind m) (m_source_message_ids m).

Lemma stored_ids now (ms : list Message) : m_id <$> (stored now <$> ms) = m_id <$> ms.
Proof. rewrite <- list_fmap_compose. by apply list_fmap_ext. Qed.

(** A line of a message file: no line ends inside, and not blank. *)
Definition line_ok (l : pystr) : Prop := exists body, l = 123 :: body ++ [125] /\ c_nl ∉ body /\ c_cr ∉ body.

Lemma jsonl_line now m : line_ok (to_jsonl now m).
Proof. apply json_object. Qed.

Lemma line_no_nl l : line_ok l -> c_nl ∉ l.
Proof. intros (b & -> & H1 & _). rewrite elem_of_cons, elem_of_app, list_elem_of_singleton. unfold c_nl in *. intros [?|[?|?]]; done. Qed.

Lemma line_no_cr l : line_ok l -> c_cr ∉ l.
Proof. intros (b & -> & _ & H1). rewrite elem_of_cons, elem_of_app, list_elem_of_singleton. unfold c_cr in *. intros [?|[?|?]]; done. Qed.

Lemma line_strip l : line_ok l -> strip is_space l = l.
Proof. intros (b & -> & _). by apply strip_ends. Qed.

Lemma line_not_blank l : line_ok l -> blank l = false.
Proof. intros H. unfold blank. rewrite line_strip by done. by destruct H as (b & -> & _). Qed.

Lemma parse_jsonl now m : message_ok m -> parse_line (to_jsonl now m) = Ok (stored now m).
Proof.
  intros H. unfold parse_line, to_jsonl. rewrite json_roundtrip. cbn [mbind result_bind]. by apply message_roundtrip.
Qed.

Lemma parse_lines_ok lines ms : parse_lines lines = Ok ms -> Forall message_ok ms.
Proof.
  revert ms. induction lines as [|l lines IH]; intros ms; cbn [parse_lines]; [by intros [= <-]|].
  destruct (blank l); [by apply IH|]. unfold parse_line. destruct (json_loads l) as [[]|]; try done. cbn [mbind result_bind].
  destruct (Message.from_dict text_of l0) as [m|] eqn:E; [|done]. cbn [mbind result_bind]. destruct (parse_lines lines); [|done].
  intros [= <-]. constructor; [by eapply message_read_ok|by apply IH].
Qed.

Lemma parse_live_ok content ms : parse_live content = Ok ms -> Forall message_ok ms.
Proof. unfold parse_live. destruct (parse_lines _) eqn:E; [|done]. intros [= <-]. by eapply parse_lines_ok. Qed.

Lemma parse_lines_app a b : parse_lines (a ++ b) = (x ← parse_lines a; y ← parse_lines b; Ok (x ++ y)).
Proof.
  induction a as [|l a IH]; cbn [app parse_lines].
  - cbn. by destruct (parse_lines b).
  - destruct (blank l); [done|]. cbn [mbind result_bind]. rewrite IH. destruct (parse_line l) as [m|e]; [|done].
    cbn [mbind result_bind]. destruct (parse_lines a) as [ms|e]; [|done]. cbn [mbind result_bind].
    by destruct (parse_lines b).
Qed.

Lemma parse_lines_jsonl now ms : Forall message_ok ms -> parse_lines (to_jsonl now <$> ms) = Ok (stored now <$> ms).
Proof.
  induction 1 as [|m ms Hm _ IH]; [done|]. rewrite !fmap_cons. cbn [parse_lines].
  rewrite line_not_blank by apply jsonl_line. rewrite parse_jsonl by done. cbn [mbind result_bind]. by rewrite IH.
Qed.

Lemma parse_lines_blank l : parse_lines (l ++ [[]]) = parse_lines l.
Proof.
  rewrite parse_lines_app. destruct (parse_lines l) as [a|e]; [|done]. cbn. by rewrite app_nil_r.
Qed.

(** Line ends of another kind do not occur. *)
Lemma replace_crlf_none s : c_cr ∉ s -> replace_crlf s = s.
Proof.
  induction s as [|c s IH]; [done|]. intros [Hc Hs]%not_elem_of_cons. cbn [replace_crlf].
  destruct s as [|d s]; [done|]. destruct (N.eqb_spec c 13) as [->|_]; [done|]. cbn [andb]. by rewrite IH.
Qed.

Lemma replace_crlf_cons c d a :
  replace_crlf (c :: d :: a) = if (c =? 13) && (d =? c_nl) then c_nl :: replace_crlf a else c :: replace_crlf (d :: a).
Proof. done. Qed.

Lemma replace_crlf_app a b : last a = Some c_nl -> replace_crlf (a ++ b) = replace_crlf a ++ replace_crlf b.
Proof.
  revert b. remember (length a) as n eqn:Hn. assert (length a <= n)%nat as Hle by lia. clear Hn.
  revert a Hle. induction n as [|n IH]; intros [|c a] Hle b H; cbn [length] in Hle; try done; try lia.
  destruct a as [|d a].
  - injection H as ->. cbn. by destruct b.
  - change ((c :: d :: a) ++ b) with (c :: d :: (a ++ b)).
    rewrite !replace_crlf_cons. destruct ((c =? 13) && (d =? c_nl)).
    + destruct a as [|e a]; [done|]. cbn [app]. f_equal. apply (IH (e :: a)); [cbn in *; lia|done].
    + cbn [app]. f_equal. apply (IH (d :: a)); [cbn in *; lia|done].
Qed.

Lemma replace_crlf_last a : last a = Some c_nl -> last (replace_crlf a) = Some c_nl.
Proof.
  remember (length a) as n eqn:Hn. assert (length a <= n)%nat as Hle by lia. clear Hn.
  revert a Hle. induction n as [|n IH]; intros [|c a] Hle H; cbn [length] in Hle; try done; try lia.
  destruct a as [|d a]; [done|]. rewrite replace_crlf_cons. destruct (_ && _).
  - destruct a as [|e a]; [done|]. specialize (IH (e :: a) ltac:(cbn in *; lia) H). by destruct (replace_crlf (e :: a)).
  - specialize (IH (d :: a) ltac:(cbn in *; lia) H). by destruct (replace_crlf (d :: a)).
Qed.

(** A text that is empty or ends with a line end. *)
Definition terminated (s : pystr) : Prop := s = [] \/ last s = Some c_nl.

Lemma split_last c s t : last s = Some c -> split c (s ++ t) = removelast (split c s) ++ split c t.
Proof.
  induction s as [|x s IH]; [done|]. intros H. cbn [app split]. destruct s as [|y s].
  - injection H as ->. rewrite N.eqb_refl. done.
  - assert (last (y :: s) = Some c) as Hl by done. specialize (IH Hl).
    destruct (N.eqb_spec x c) as [->|Hn].
    + rewrite IH. pose proof (split_not_nil c (y :: s)). destruct (split c (y :: s)); done.
    + rewrite IH. pose proof (split_not_nil c (y :: s)). destruct (split c (y :: s)) as [|h [|h' tl]] eqn:E; [done| |done].
      exfalso. assert (c ∉ (y :: s)); [|apply last_Some_elem_of in Hl; done].
      rewrite <- (join_split c (y :: s)), E. cbn [join].
      pose proof (split_pieces c (y :: s)) as Hp. rewrite E in Hp. by inversion Hp.
Qed.

Lemma split_last_nil c s : last s = Some c -> exists l, split c s = l ++ [[]].
Proof.
  intros (s' & ->)%last_Some. exists (split c s').
  induction s' as [|x s' IH]; cbn [app split]; [by rewrite N.eqb_refl|].
  destruct (x =? c); [by rewrite IH|]. rewrite IH. pose proof (split_not_nil c s'). by destruct (split c s').
Qed.

Lemma live_lines_app a b : terminated a -> parse_lines (live_lines (a ++ b)) = (x ← parse_lines (live_lines a); y ← parse_lines (live_lines b); Ok (x ++ y)).
Proof.
  intros [->|Ha].
  { cbn [app]. replace (parse_lines (live_lines [])) with (Ok (A := list Message) []) by done. cbn [mbind result_bind app].
    by destruct (parse_lines (live_lines b)). }
  unfold live_lines. rewrite replace_crlf_app by done.
  pose proof (replace_crlf_last a Ha) as Hl.
  rewrite (split_last _ _ _ Hl). destruct (split_last_nil _ _ Hl) as (l & ->). rewrite removelast_last, parse_lines_blank.
  apply parse_lines_app.
Qed.

Lemma batch_lines now ms : live_lines (batch_of now ms) = (to_jsonl now <$> ms) ++ [[]].
Proof.
  unfold live_lines, batch_of. rewrite replace_crlf_none.
  - induction ms as [|m ms IH]; [done|]. rewrite !fmap_cons. cbn [concat]. rewrite <- app_assoc. cbn [app].
    rewrite split_app_sep by apply line_no_nl, jsonl_line. by rewrite IH.
  - rewrite elem_of_concat. intros (l & Hc & Hl). apply list_elem_of_fmap in Hl as (m & -> & _).
    apply elem_of_app in Hc as [Hc|Hc%list_elem_of_singleton]; [|done]. by apply (line_no_cr _ (jsonl_line now m)).
Qed.

Lemma parse_batch now ms : Forall message_ok ms -> parse_lines (live_lines (batch_of now ms)) = Ok (stored now <$> ms).
Proof.
  intros H. rewrite batch_lines, parse_lines_blank. by apply parse_lines_jsonl.
Qed.

Lemma file_batch now ms : file_of now ms = batch_of now ms.
Proof.
  unfold file_of, batch_of. destruct ms as [|m ms]; [done|]. revert m. induction ms as [|m' ms IH]; intros m.
  - cbn. by rewrite app_nil_r.
  - specialize (IH m'). rewrite !fmap_cons in *. rewrite join_cons by done. cbn [concat] in *. rewrite <- IH.
    by rewrite <- !app_assoc.
Qed.

Lemma batch_terminated now ms : terminated (batch_of now ms).
Proof.
  destruct ms as [|m ms _] using rev_ind; [by left|]. right. unfold batch_of. rewrite fmap_app, concat_app. cbn.
  by rewrite app_nil_r, app_assoc, last_snoc.
Qed.

(** What a rewrite of the live file reads back as. *)
Lemma parse_live_file now ms : Forall message_ok ms -> parse_live (file_of now ms) = Ok (stored now <$> ms).
Proof. intros H. unfold parse_live. by rewrite file_batch, parse_batch. Qed.

(** What an append to the live file reads back as. *)
Lemma parse_live_append now old ms batch :
  terminated old -> parse_live old = Ok ms -> Forall message_ok batch ->
  parse_live (old ++ batch_of now batch) = Ok (ms ++ (stored now <$> batch)) /\ terminated (old ++ batch_of now batch).
Proof.
  intros Ht Ho Hb. unfold parse_live in *. rewrite live_lines_app by done. destruct (parse_lines (live_lines old)) as [l|]; [|done].
  cbn [strictly] in Ho. injection Ho as ->. cbn [mbind result_bind]. rewrite parse_batch by done. cbn [mbind result_bind strictly].
  split; [done|]. destruct (batch_terminated now batch) as [E|E]; [by rewrite E, app_nil_r|].
  right. rewrite last_app. by rewrite E.
Qed.

(** What an archive reads back as. *)
Lemma parse_archive_file now ms : Forall message_ok ms -> ms <> [] ->
  parse_archive (join [c_nl] (to_jsonl now <$> ms) ++ [c_nl]) = Ok (stored now <$> ms).
Proof.
  intros H Hne. unfold parse_archive, stripped_lines.
  assert (strip is_space (join [c_nl] (to_jsonl now <$> ms) ++ [c_nl]) = join [c_nl] (to_jsonl now <$> ms)) as ->.
  - assert (exists body, join [c_nl] (to_jsonl now <$> ms) = 123 :: body ++ [125]) as (body & ->).
    { destruct ms as [|m ms]; [done|]. clear H Hne. revert m. induction ms as [|m' ms IH]; intros m.
      - destruct (jsonl_line now m) as (b & E & _). exists b. by rewrite <- E.
      - rewrite fmap_cons, join_cons by done. destruct (IH m') as (b & ->). destruct (jsonl_line now m) as (b' & -> & _).
        exists (b' ++ [125] ++ [c_nl] ++ 123 :: b). cbn. by rewrite <- !app_assoc. }
    unfold strip. cbn [app lstrip]. replace (is_space 123) with false by done.
    replace (123 :: (body ++ [125]) ++ [c_nl]) with ((123 :: body) ++ [125; c_nl]) by (cbn [app]; by rewrite <- app_assoc).
    by rewrite rstrip_app.
  - rewrite split_join; [by rewrite parse_lines_jsonl|by destruct ms|].
    apply Forall_fmap, Forall_true. intros m. by apply line_no_nl, jsonl_line.
Qed.
End messages.
