(* ===== verification/SessionArchives.v ===== *)
(** Archive numbers: the names of archive directories and back, the listing of archives,
    and the search for a free number. *)
From Stdlib Require Import NArith ZArith DecimalN.
From S2P Require Import Prelude Effects PyStr PyVal Identifiers WorkIndex TaskRecord Tokens Message Retention SessionPolicy SessionMeta Session SessionFiles.

Open Scope N_scope.

(** ** The names of archives *)

Definition digits (s : pystr) : Prop := s <> [] /\ Forall (fun c => 48 <= c <= 57) s.

Lemma decimal_digits n : digits (decimal n).
Proof.
  split; [|apply of_uint_digits]. unfold decimal. intros H. assert (N.to_uint n = Decimal.Nil) as E by by destruct (N.to_uint n).
  pose proof (DecimalN.Unsigned.of_to n) as Hn. rewrite E in Hn. by subst n.
Qed.

Lemma pad3_digits i : digits (pad3 i).
Proof.
  destruct (decimal_digits (Z.to_N i)) as [H1 H2]. unfold pad3. split.
  - intros [_ H]%app_eq_nil. done.
  - apply Forall_app. split; [|done]. apply Forall_replicate. lia.
Qed.

Lemma py_digits_some s acc b : Forall (fun c => 48 <= c <= 57) s -> s <> [] \/ b = true -> is_Some (py_digits s acc b).
Proof.
  intros H. revert acc b. induction H as [|c s Hc _ IH]; intros acc b Hb; cbn [py_digits].
  - destruct Hb as [?| ->]; [done|]. by eexists.
  - replace ((48 <=? c) && (c <=? 57)) with true by (symmetry; apply andb_true_intro; lia). apply IH. by right.
Qed.

Lemma digit_not_space c : 48 <= c <= 57 -> is_space c = false.
Proof.
  intros [H1 H2]. assert (exists n, (n < 10)%nat /\ c = 48 + N.of_nat n) as (n & Hn & ->) by (exists (N.to_nat (c - 48)); lia).
  do 10 (destruct n as [|n]; [by vm_compute|]). lia.
Qed.

Lemma py_int_digits s : digits s -> is_Some (py_int s).
Proof.
  intros [Hne Hd]. unfold py_int. rewrite strip_clean; [|eapply Forall_impl; [exact Hd|apply digit_not_space]].
  destruct s as [|c s]; [done|]. inversion Hd as [|? ? Hc _]; subst. unfold c_minus.
  replace (c =? 45) with false by lia. replace (c =? 43) with false by lia. apply py_digits_some; [done|by left].
Qed.

Lemma digits_clean s c : digits s -> (c < 48 \/ 57 < c) -> c ∉ s.
Proof. intros [_ H] Hc Hin. apply (proj1 (Forall_forall _ _) H) in Hin. lia. Qed.

Lemma ref_of_archive uri i : exists z, ref_of uri (ARCHIVE_PREFIX ++ pad3 i) = Some (MkRef (ARCHIVE_PREFIX ++ pad3 i) (uri ++ [c_slash] ++ ARCHIVE_PREFIX ++ pad3 i) z).
Proof.
  unfold ref_of. rewrite startswith_app. replace (nonempty (ARCHIVE_PREFIX ++ pad3 i)) with true by by vm_compute. cbn [negb orb].
  assert (split c_under (ARCHIVE_PREFIX ++ pad3 i) = [u "archive"; pad3 i]) as ->.
  { change (ARCHIVE_PREFIX ++ pad3 i) with (u "archive" ++ c_under :: pad3 i). rewrite split_app_sep.
    - rewrite split_no_sep; [done|]. apply digits_clean; [apply pad3_digits|]. right. by vm_compute.
    - apply (bool_decide_eq_false_1 _). by vm_compute. }
  cbn [lookup list_lookup]. destruct (py_int_digits (pad3 i) (pad3_digits i)) as (z & ->). by exists z.
Qed.

Lemma sort_refs_in r l : r ∈ sort_refs l <-> r ∈ l.
Proof.
  assert (forall x l, r ∈ insert_ref x l <-> r = x \/ r ∈ l) as Hi.
  { intros x l'. induction l' as [|y l' IH]; cbn [insert_ref]; [by rewrite list_elem_of_singleton, elem_of_nil; tauto|].
    destruct (_ <? _)%Z; rewrite !elem_of_cons; rewrite ?IH; tauto. }
  induction l as [|x l IH]; [done|]. cbn [sort_refs foldr]. rewrite Hi, elem_of_cons. unfold sort_refs in IH. tauto.
Qed.

(** ** From the name to the number *)

Abbreviation digit_step := (fun (n : Z) (c : N) => (n * 10 + Z.of_N (c - 48))%Z).

Lemma digits_value_acc d p : foldl digit_step (Z.pos p) (of_uint d) = Z.pos (Pos.of_uint_acc d p).
Proof. revert p. induction d; intros p; cbn [of_uint foldl Pos.of_uint_acc]; [done|rewrite <- IHd; f_equal; lia ..]. Qed.

Lemma digits_value_uint d : digits_value (of_uint d) = Z.of_N (N.of_uint d).
Proof.
  unfold digits_value, N.of_uint. induction d; cbn [of_uint foldl Pos.of_uint]; [done|exact IHd|..];
    cbn [Z.of_N]; rewrite <- (digits_value_acc d); done.
Qed.

Lemma digits_value_decimal n : digits_value (decimal n) = Z.of_N n.
Proof. unfold decimal. by rewrite digits_value_uint, DecimalN.Unsigned.of_to. Qed.

Lemma digits_value_pad3 i : (0 <= i)%Z -> digits_value (pad3 i) = i.
Proof.
  intros Hi. unfold pad3, digits_value. rewrite foldl_app.
  assert (forall k, foldl digit_step 0%Z (replicate k 48) = 0%Z) as -> by (intros k; induction k; [done|by cbn [replicate foldl]]).
  change (digits_value (decimal (Z.to_N i)) = i). rewrite digits_value_decimal. lia.
Qed.

Lemma archive_uri_inj uri i j : (0 <= i)%Z -> (0 <= j)%Z -> archive_uri_of uri i = archive_uri_of uri j -> i = j.
Proof.
  intros Hi Hj H. unfold archive_uri_of in H. do 3 apply app_inv_head in H. by rewrite <- (digits_value_pad3 i), <- (digits_value_pad3 j), H.
Qed.

(** The index [_archive_index_from_uri] reads off an archive's URI is its number. *)
Lemma archive_index_exact uri i : (0 <= i)%Z -> archive_index_from_uri (archive_uri_of uri i) = Ok i.
Proof.
  intros Hi. destruct (pad3_digits i) as [Hne Hd]. unfold archive_index_from_uri, archive_uri_of.
  set (h := history_uri uri ++ [c_slash] ++ ARCHIVE_PREFIX).
  replace (history_uri uri ++ [c_slash] ++ ARCHIVE_PREFIX ++ pad3 i) with (h ++ pad3 i) by (unfold h; by rewrite <- !app_assoc).
  destruct (last (pad3 i)) as [c|] eqn:El; [|by apply last_None in El].
  assert (48 <= c <= 57) as Hc by (apply (proj1 (Forall_forall _ _) Hd), last_Some_elem_of; done).
  assert (last (h ++ pad3 i) = Some c) as Elast by (by rewrite last_app, El).
  rewrite (rstrip_id _ _ c Elast) by (unfold is_slash, c_slash; lia).
  assert (dollar_body (h ++ pad3 i) = h ++ pad3 i) as ->.
  { destruct (dollar_body_spec (h ++ pad3 i)) as [E|E]; [done|]. rewrite E, last_snoc in Elast. injection Elast as <-. unfold c_nl in Hc. lia. }
  assert (rstrip is_digit (h ++ pad3 i) = h) as ->.
  { assert (forall l, Forall (fun c => 48 <= c <= 57) l -> rstrip is_digit (h ++ l) = rstrip is_digit h) as Hr.
    { intros l. induction l as [|x l IH] using rev_ind; intros Hl; [by rewrite app_nil_r|]. apply Forall_app in Hl as [Hl Hx]. apply Forall_cons in Hx as [Hx _].
      rewrite app_assoc. unfold rstrip at 1. rewrite reverse_snoc. cbn [lstrip].
      cbn beta in Hx. replace (is_digit x) with true by (symmetry; unfold is_digit; apply andb_true_intro; lia). by apply IH. }
    rewrite Hr by done. apply (rstrip_id _ _ c_under); [|by vm_compute]. unfold h. by rewrite !last_app. }
  rewrite drop_app_length. unfold h. rewrite reverse_app, reverse_app, <- app_assoc, startswith_app.
  replace (nonempty (pad3 i)) with true by (symmetry; by apply nonempty_true). cbn [andb]. by rewrite digits_value_pad3.
Qed.

(** ** The search for a free number *)

Section search.
Context {F B : Type} {FS : SessionFS F} {files : F -> gmap pystr pystr} {entries : F -> gset pystr} {env : SessionEnv} {fs_ok : SessionFSOk F files entries}.
Context (session_uri : pystr).

Abbreviation taken := (fun (f : F) (k : Z) => archive_uri_of session_uri k ∈ entries f).

Lemma search_ends (answers : forall uri f, exists b, (sf_exists uri f).1 = Ok b) (fuel : nat) (names : gset pystr) (w : world F B) :
  (0 <= s_index (w_self w))%Z -> (forall k, (s_index (w_self w) < k)%Z -> taken (w_fs w) k -> archive_uri_of session_uri k ∈ names) -> (size names < fuel)%nat ->
  exists w', skip_archives session_uri fuel w = (Ok tt, w') /\ entries (w_fs w') = entries (w_fs w)
    /\ (s_index (w_self w) <= s_index (w_self w'))%Z /\ ~ taken (w_fs w) (s_index (w_self w') + 1)%Z
    /\ forall k, (s_index (w_self w) < k <= s_index (w_self w'))%Z -> taken (w_fs w) k.
Proof.
  revert names w. induction fuel as [|fuel IH]; intros names w Hi HS Hf; [lia|]. cbn [skip_archives]. rewrite st_bind_unfold. cbn [self st_gets].
  set (i := s_index (w_self w)) in *. rewrite st_bind_unfold. unfold on_fs.
  destruct (fs_exists_ok (files := files) (entries := entries) (archive_uri_of session_uri (i + 1)) (w_fs w)) as (_ & He & Hb).
  destruct (answers (archive_uri_of session_uri (i + 1)) (w_fs w)) as [b Hans].
  destruct (sf_exists (archive_uri_of session_uri (i + 1)) (w_fs w)) as [r f']. cbn [fst snd] in *. subst r. specialize (Hb b eq_refl). destruct b.
  - symmetry in Hb. apply bool_decide_eq_true in Hb. rewrite st_bind_unfold. cbn [modify st_modify].
    set (w1 := MkWorld (set_index (i + 1) (w_self w)) f' (w_back w)).
    destruct (IH (names ∖ {[archive_uri_of session_uri (i + 1)]}) w1) as (w' & H1 & H2 & H3 & H4 & H5); cbn [w_self w_fs w1 s_index set_index] in *.
    + lia.
    + intros k Hk. rewrite He. intros Ht. apply elem_of_difference. split; [apply HS; [lia|done]|]. rewrite elem_of_singleton. intros E.
      apply archive_uri_inj in E; lia.
    + assert (archive_uri_of session_uri (i + 1) ∈ names) as Hin by (apply HS; [lia|done]).
      rewrite (size_difference names) by set_solver. rewrite size_singleton. assert (size names <> 0)%nat by (intros E%size_empty_inv; set_solver). lia.
    + exists w'. rewrite He in *. split_and!; [exact H1|done|lia|done|]. intros k Hk. destruct (decide (k = i + 1)%Z) as [->|]; [done|]. apply H5. lia.
  - symmetry in Hb. apply bool_decide_eq_false in Hb. exists (MkWorld (w_self w) f' (w_back w)). cbn. split_and!; [done|done|lia|done|lia].
Qed.

(** The search for an archive number ends: when the store answers, more fuel than there are
    files finds the first free number after the commits counted so far. *)
Theorem free_number_found (answers : forall uri f, exists b, (sf_exists uri f).1 = Ok b) (fuel : nat) (w : world F B) :
  (0 <= s_index (w_self w))%Z -> (size (entries (w_fs w)) < fuel)%nat ->
  exists w', skip_archives session_uri fuel w = (Ok tt, w') /\ (s_index (w_self w) <= s_index (w_self w'))%Z
    /\ ~ taken (w_fs w) (s_index (w_self w') + 1)%Z /\ forall k, (s_index (w_self w) < k <= s_index (w_self w'))%Z -> taken (w_fs w) k.
Proof.
  intros Hi Hf. destruct (search_ends answers fuel (entries (w_fs w)) w Hi (fun k _ H => H) Hf) as (w' & H1 & _ & H2 & H3 & H4). by exists w'.
Qed.
End search.
