(* ===== verification/SessionFrame.v ===== *)
(** What operations on a session leave alone: a set of watched paths, the operations that
    write none of them, and how facts about the watched files pass through the parts of a
    commit that only read, or write elsewhere. *)
From Stdlib Require Import NArith ZArith.
From S2P Require Import Prelude Effects PyStr PyVal Identifiers WorkIndex TaskRecord Tokens Message Retention SessionPolicy SessionMeta Session SessionFiles.

Open Scope N_scope.

(** ** Paths *)

Lemma suffix_neq (a b x y : pystr) : last x <> last y -> x <> [] -> y <> [] -> a ++ x <> b ++ y.
Proof.
  intros Hl Hx Hy H. apply Hl. apply (f_equal last) in H. rewrite !last_app in H.
  destruct (last x) eqn:Ex; [|by apply last_None in Ex]. destruct (last y) eqn:Ey; [|by apply last_None in Ey]. done.
Qed.

Ltac literal_neq := let H := fresh in intros H; vm_compute in H; discriminate H.

Create HintDb quiet.

Section frame.
Context {F B : Type} {env : SessionEnv} {FS : SessionFS F} {CB : CommitBackend B}.
Context {files : F -> gmap pystr pystr} {entries : F -> gset pystr} {env_ok : SessionEnvOk} {fs_ok : SessionFSOk F files entries}.
Context (session_uri session_path : pystr) {watched : pystr -> Prop}.

Abbreviation W := (world F B).
Abbreviation live_uri := (Session.live_uri session_uri).
Abbreviation archive_uri_of := (Session.archive_uri_of session_uri).

(** Two file systems that agree on what is watched. *)
Definition same (f f' : F) : Prop := forall p, watched p -> files f' !! p = files f !! p.

Lemma same_refl f : same f f.
Proof. by intros p _. Qed.
Lemma same_trans f g h : same f g -> same g h -> same f h.
Proof. intros H1 H2 p Hp. by rewrite H2, H1. Qed.
Lemma same_files f f' : files f' = files f -> same f f'.
Proof. intros H p _. by rewrite H. Qed.
Lemma same_insert f f' p c : ~ watched p -> files f' = <[p := c]> (files f) -> same f f'.
Proof. intros Hp H q Hq. rewrite H. apply lookup_insert_ne. intros ->. done. Qed.

Definition stable (P : F -> Prop) : Prop := forall f f', same f f' -> P f -> P f'.

(** ** Operations that write nothing watched *)

Definition quiet {A} (m : ST W A) : Prop := forall w, same (w_fs w) (w_fs (m w).2).

Lemma quiet_ret {A} (a : A) : quiet (mret a).
Proof. intros w. apply same_refl. Qed.
Lemma quiet_raise {A} e : quiet (st_raise (A := A) e).
Proof. intros w. apply same_refl. Qed.
Lemma quiet_lift {A} (r : result A) : quiet (st_lift r).
Proof. intros w. apply same_refl. Qed.
Lemma quiet_gets {A} (f : W -> A) : quiet (st_gets f).
Proof. intros w. apply same_refl. Qed.
Lemma quiet_object {A} (f : session -> A) : quiet (self f).
Proof. intros w. apply same_refl. Qed.
Lemma quiet_modify f : quiet (modify f).
Proof. intros w. apply same_refl. Qed.
Lemma quiet_back {A} (op : ST B A) : quiet (on_back op).
Proof. intros w. unfold on_back. destruct (op (w_back w)). apply same_refl. Qed.

Lemma quiet_bind {A C} (m : ST W A) (f : A -> ST W C) : quiet m -> (forall a, quiet (f a)) -> quiet (m ≫= f).
Proof.
  intros Hm Hf w. rewrite st_bind_unfold. specialize (Hm w). destruct (m w) as [[a|e] w']; [|done]. eapply same_trans; [exact Hm|apply Hf].
Qed.
Lemma quiet_catch {A} caught (m : ST W A) h : quiet m -> (forall e, quiet (h e)) -> quiet (st_catch caught m h).
Proof.
  intros Hm Hh w. unfold st_catch. specialize (Hm w). destruct (m w) as [[a|e] w']; [done|]. destruct (caught e); [|done].
  eapply same_trans; [exact Hm|apply Hh].
Qed.
Lemma quiet_fs {A} (op : ST F A) : (forall f, same f (op f).2) -> quiet (on_fs op).
Proof. intros H w. unfold on_fs. specialize (H (w_fs w)). by destruct (op (w_fs w)). Qed.
Lemma quiet_write p c : ~ watched p -> quiet (on_fs (sf_write p c)).
Proof.
  intros Hp. apply quiet_fs. intros f. pose proof (fs_write_ok p c f) as H. destruct (sf_write p c f) as [[[]|e] f']; cbn [snd].
  - by eapply same_insert.
  - destruct H as [H|H]; [by apply same_files|by eapply same_insert].
Qed.
Lemma quiet_read p : quiet (on_fs (sf_read p)).
Proof. apply quiet_fs. intros f. apply same_files, fs_read_ok. Qed.
Lemma quiet_exists p : quiet (on_fs (sf_exists p)).
Proof. apply quiet_fs. intros f. apply same_files, fs_exists_ok. Qed.
Lemma quiet_ls p : quiet (on_fs (sf_ls p)).
Proof. apply quiet_fs. intros f. apply same_files, fs_ls_ok. Qed.
Lemma quiet_stat p : quiet (on_fs (sf_stat p)).
Proof. apply quiet_fs. intros f. apply same_files, fs_stat_ok. Qed.
Lemma quiet_mkdir p : quiet (on_fs (sf_mkdir p)).
Proof. apply quiet_fs. intros f. apply same_files, fs_mkdir_ok. Qed.
Lemma quiet_lock p : quiet (on_fs (sf_lock p)).
Proof. apply quiet_fs. intros f. apply same_files, fs_lock_ok. Qed.
Lemma quiet_unlock l : quiet (on_fs (sf_unlock l)).
Proof. apply quiet_fs. intros f. apply same_files, fs_unlock_ok. Qed.
Lemma quiet_attempt m : quiet m -> quiet (attempt m).
Proof. intros H. apply quiet_catch; [done|intros e; apply quiet_ret]. Qed.
Lemma quiet_finally {A} (m : ST W A) c : quiet m -> quiet c -> quiet (st_finally m c).
Proof.
  intros Hm Hc w. unfold st_finally. specialize (Hm w). destruct (m w) as [r w']. specialize (Hc w').
  destruct (c w') as [[?|?] w'']; by eapply same_trans.
Qed.
Lemma quiet_locked {A} (m : ST W A) : quiet m -> quiet (locked session_path m).
Proof. intros H. apply quiet_bind; [apply quiet_lock|]. intros l. apply quiet_finally; [done|apply quiet_unlock]. Qed.

(** A quiet operation keeps everything a predicate on the watched files says. *)
Lemma quiet_spec {A} (P : F -> Prop) (m : ST W A) :
  quiet m -> (forall f f', same f f' -> P f -> P f') -> keeps (fun w => P (w_fs w)) m.
Proof. intros Hq HP w Hw. specialize (Hq w). destruct (m w) as [[a|e] w']; by eapply HP. Qed.

Lemma spec_locked {A} (P : F -> Prop) (body : ST W A) (Q : A -> F -> Prop) (E : F -> Prop) :
  (forall f f', same f f' -> P f -> P f') -> (forall a f f', same f f' -> Q a f -> Q a f') -> (forall f f', same f f' -> E f -> E f') ->
  (forall f, P f -> E f) -> (forall a f, Q a f -> E f) ->
  spec (fun w => P (w_fs w)) body (fun a w => Q a (w_fs w)) (fun _ w => E (w_fs w)) ->
  spec (fun w => P (w_fs w)) (locked session_path body) (fun a w => Q a (w_fs w)) (fun _ w => E (w_fs w)).
Proof.
  intros HP HQ HE HPE HQE Hb. unfold locked.
  apply spec_bind with (R := fun _ w => P (w_fs w)).
  - eapply spec_conseq; [apply (quiet_spec P); [apply quiet_lock|exact HP]| | |]; [done..|]. intros e w H. exact (HPE _ H).
  - intros l. apply spec_finally; [exact Hb| |].
    + intros a. eapply spec_conseq; [apply (quiet_spec (Q a)); [apply quiet_unlock|exact (HQ a)]|done|done|]. intros e w H. exact (HQE a _ H).
    + intros e. apply (quiet_spec E); [apply quiet_unlock|exact HE].
Qed.

Lemma spec_quiet {A} (P : F -> Prop) (m : ST W A) :
  quiet m -> stable P -> spec (fun w => P (w_fs w)) m (fun _ w => P (w_fs w)) (fun _ w => P (w_fs w)).
Proof. intros Hq HP. by apply (quiet_spec P). Qed.


(** The session's metadata, failure markers, overviews and tool results are not watched. *)
Class Unwatched : Prop := {
  unwatched_meta : ~ watched (meta_uri session_uri);
  unwatched_failed : forall i, ~ watched (failed_uri (archive_uri_of i));
  unwatched_abstract : ~ watched (session_uri ++ u "/.abstract.md");
  unwatched_overview : ~ watched (session_uri ++ u "/.overview.md");
  unwatched_tools : forall p, (session_uri ++ u "/tool-results/") `prefix_of` p -> ~ watched p }.
Context {unwatched : Unwatched}.

#[local] Hint Resolve quiet_ret quiet_raise quiet_lift quiet_gets quiet_object quiet_modify quiet_back quiet_bind quiet_catch quiet_write quiet_read
  quiet_exists quiet_ls quiet_stat quiet_mkdir quiet_attempt quiet_locked unwatched_meta unwatched_failed unwatched_abstract unwatched_overview : quiet.

Context (agent_evolution_enabled : bool) (provided_policy : option pydict) (externalize : ST (list Message * F) unit) (now : nat -> pystr).
Context {ext_ok : ExternalizeOk files session_uri externalize}.

Lemma quiet_reload_meta : quiet (reload_meta session_uri).
Proof. unfold reload_meta. eauto with quiet. Qed.
Lemma quiet_save_meta n : quiet (save_meta session_uri now n).
Proof. unfold save_meta. eauto 6 with quiet. Qed.
Lemma quiet_read_live : quiet (read_live_messages_strict session_uri).
Proof. unfold read_live_messages_strict. eauto with quiet. Qed.
Lemma quiet_read_archive a : quiet (read_archive_messages a).
Proof. unfold read_archive_messages. eauto with quiet. Qed.
Lemma quiet_read_archive_meta a : quiet (read_archive_meta a).
Proof. unfold read_archive_meta. eauto with quiet. Qed.
#[local] Hint Resolve quiet_reload_meta quiet_save_meta quiet_read_live quiet_read_archive quiet_read_archive_meta : quiet.
Lemma quiet_read_phase1 a : quiet (read_phase1_meta a).
Proof. unfold read_phase1_meta. eauto with quiet. Qed.
Lemma quiet_failed n i a b : quiet (write_failed_marker now n (archive_uri_of i) a b).
Proof. unfold write_failed_marker. eauto with quiet. Qed.
Lemma quiet_file_exists p : quiet (archive_file_exists p).
Proof. unfold archive_file_exists. eauto with quiet. Qed.

Lemma quiet_overviews n s : quiet (write_overviews session_uri n s).
Proof. unfold write_overviews. eauto 8 with quiet. Qed.

Lemma quiet_externalized ms : quiet (externalized externalize ms).
Proof.
  intros w. unfold externalized. pose proof (externalize_files (files := files) ms (w_fs w)) as H.
  destruct (externalize (ms, w_fs w)) as [r [ms' f']]. cbn in *. intros p Hp. apply H. by intros ?%unwatched_tools.
Qed.

Lemma quiet_config tags auto upd : quiet (update_config session_uri session_path now tags auto upd).
Proof.
  unfold update_config. apply quiet_locked. repeat (apply quiet_bind; [|intros ?]); eauto with quiet.
  - destruct tags; eauto with quiet.
  - destruct (_ || _); [|eauto with quiet]. destruct auto; eauto with quiet.
Qed.

Lemma quiet_merge_commit i ms t r : quiet (merge_and_save_commit_meta session_uri session_path now i ms t r).
Proof.
  unfold merge_and_save_commit_meta, read_live_message_count. apply quiet_locked. repeat (apply quiet_bind; [eauto 8 with quiet|intros ?]). eauto with quiet.
Qed.

(** Every id is archived or retained. *)
Definition covers (ids : list pystr) (archived retained : list Message) : Prop :=
  forall id, id ∈ ids <-> id ∈ (m_id <$> archived) \/ id ∈ (m_id <$> retained).

Lemma plan_covers ms turns budget tail :
  let p := plan ms turns budget tail in
  covers (m_id <$> ms) (archive_messages p) (retained_messages p)
  /\ (forall m, m ∈ archive_messages p \/ m ∈ retained_messages p -> m ∈ ms).
Proof.
  cbn zeta. pose proof (plan_lossless (fun d => json_dumps (VDict d)) ms turns budget tail) as H. unfold plan, lossless in *.
  set (p := plan_retention _ _ _ _ _) in *. clearbody p. destruct (partial_turn p).
  - destruct H as (older & a & stps & n & -> & _ & Ha & Hr & _). rewrite Ha, Hr.
    assert (concat stps = concat (take n stps) ++ concat (drop n stps)) as -> by by rewrite <- concat_app, take_drop. split.
    + intros id. rewrite !fmap_app, !fmap_cons, !fmap_app, !elem_of_app, !elem_of_cons, !elem_of_app. tauto.
    + intros m. rewrite !elem_of_app, !elem_of_cons, !elem_of_app. tauto.
  - subst ms. split.
    + intros id. by rewrite fmap_app, elem_of_app.
    + intros m. by rewrite elem_of_app.
Qed.


Lemma externalize_turns_spec (P : F -> Prop) i turns done : stable P ->
  spec (fun w : W => (P (w_fs w) /\ s_index (w_self w) = i) /\ s_messages (w_self w) = done ++ concat turns /\ Forall message_ok (s_messages (w_self w)))
    (externalize_turns externalize turns done)
    (fun _ w => (P (w_fs w) /\ s_index (w_self w) = i) /\ m_id <$> s_messages (w_self w) = m_id <$> (done ++ concat turns)
                /\ Forall message_ok (s_messages (w_self w)))
    (fun _ w => P (w_fs w)).
Proof.
  intros HP. revert done. induction turns as [|t turns IH]; intros done.
  { apply spec_ret. intros w (H1 & H2 & H3). by rewrite H2 in *. }
  intros w ((H1 & Hi) & H2 & H3). cbn [externalize_turns]. cbn [concat] in H2.
  pose proof (externalize_ids (files := files) t (w_fs w)) as Hids. pose proof (externalize_parts (files := files) t (w_fs w)) as Hparts.
  pose proof (externalize_files (files := files) t (w_fs w)) as Hfiles.
  destruct (externalize (t, w_fs w)) as [r [t' f']]. cbn [fst snd] in *.
  assert (P f') as HPf'. { eapply HP, H1. intros p Hp. apply Hfiles. by intros ?%unwatched_tools. }
  rewrite H2, !Forall_app in H3. destruct H3 as (Hd & Ht & Hrest). specialize (Hparts Ht).
  destruct r as [[]|e]; [|exact HPf'].
  specialize (IH (done ++ t') (MkWorld (set_messages (done ++ t' ++ concat turns) (w_self w)) f' (w_back w))).
  cbn [w_fs w_self s_messages set_messages s_index] in IH. rewrite <- app_assoc in IH. rewrite !Forall_app in IH.
  specialize (IH (conj (conj HPf' Hi) (conj eq_refl (conj Hd (conj Hparts Hrest))))).
  destruct (externalize_turns externalize turns (done ++ t') _) as [[?|?] w']; [|exact IH].
  destruct IH as (Ha & Hb & Hc). split_and!; [apply Ha|apply Ha| |exact Hc]. rewrite Hb. cbn [concat]. rewrite !fmap_app, Hids. done.
Qed.

Lemma spec_self_bind {A C} (P : W -> Prop) (f : session -> A) v (k : A -> ST W C) Q E :
  (forall w, P w -> f (w_self w) = v) -> spec P (k v) Q E -> spec P (self f ≫= k) Q E.
Proof. intros Hv Hk w Hw. rewrite st_bind_unfold. cbn. rewrite (Hv w Hw). by apply Hk. Qed.

Lemma split_spec (P : F -> Prop) i ms st : stable P ->
  spec (fun w : W => (P (w_fs w) /\ s_index (w_self w) = i) /\ s_messages (w_self w) = ms /\ Forall message_ok ms)
    (split_messages externalize st)
    (fun r w => (P (w_fs w) /\ s_index (w_self w) = i) /\ m_id <$> s_messages (w_self w) = m_id <$> ms
       /\ covers (m_id <$> ms) r.1.1 r.1.2 /\ Forall message_ok r.1.1 /\ Forall message_ok r.1.2)
    (fun _ w => P (w_fs w)).
Proof.
  intros HP. unfold split_messages. apply (spec_self_bind _ _ ms); [by intros w (_ & H & _)|]. destruct (se_turn_mode st).
  - eapply spec_bind.
    + eapply spec_conseq; [apply (externalize_turns_spec P i (turn_messages <$> build_turns id ms) [] HP)| |intros a w H; exact H|done].
      intros w (H1 & H2 & H3). cbn [app]. split_and!; [apply H1|apply H1| |by rewrite H2]. rewrite H2. symmetry. apply (build_turns_flatten id).
    + intros []. apply spec_bind with (R := fun l (w : W) => (P (w_fs w) /\ s_index (w_self w) = i) /\ m_id <$> s_messages (w_self w) = m_id <$> ms
        /\ s_messages (w_self w) = l /\ Forall message_ok l).
      { apply spec_gets. intros w (H1 & H2 & H3). split_and!; [apply H1|apply H1| |done|done].
        rewrite H2. cbn [app]. f_equal. apply (build_turns_flatten id). }
      intros l. apply spec_ret. intros w (H1 & H2 & H3 & H4). cbn [fst snd].
      destruct (plan_covers l (se_turns st) (se_budget st) (se_tail st)) as [Hc Hs]. rewrite <- H2, H3.
      split_and!; [apply H1|apply H1|done|exact Hc| |]; rewrite Forall_forall in *; eauto.
  - destruct (0 <? se_keep st)%Z; apply spec_ret; intros w (H1 & H2 & H3); cbn [fst snd]; rewrite H2.
    + set (n := Z.to_nat _). split_and!; [apply H1|apply H1|done| |by apply Forall_take|by apply Forall_drop].
      intros id. by rewrite <- elem_of_app, <- fmap_app, take_drop.
    + split_and!; [apply H1|apply H1|done| |done|done]. intros id. cbn. rewrite elem_of_nil. tauto.
Qed.

Lemma free_archive f i name : archive_uri_of i ∉ entries f -> files f !! (archive_uri_of i ++ [c_slash] ++ name) = None.
Proof.
  intros Hn. destruct (files f !! (archive_uri_of i ++ [c_slash] ++ name)) eqn:E; [|done]. exfalso. apply Hn.
  apply (fs_parent (FS := FS) (files := files) f _ name). apply (fs_entry (FS := FS) (files := files) f). by rewrite E.
Qed.

Lemma skip_archives_spec (P : F -> Prop) ms fuel : stable P ->
  spec (fun w : W => P (w_fs w) /\ s_messages (w_self w) = ms) (skip_archives session_uri fuel)
    (fun _ w => (P (w_fs w) /\ s_messages (w_self w) = ms)
       /\ forall name, files (w_fs w) !! (archive_uri_of (s_index (w_self w) + 1) ++ [c_slash] ++ name) = None)
    (fun _ w => P (w_fs w)).
Proof.
  intros HP. induction fuel as [|fuel IH]; cbn [skip_archives]; [apply spec_raise; by intros w []|].
  intros w [H1 H2]. rewrite st_bind_unfold. cbn [self st_gets]. rewrite st_bind_unfold. unfold on_fs.
  set (i := s_index (w_self w)). destruct (fs_exists_ok (files := files) (entries := entries) (archive_uri_of (i + 1)) (w_fs w)) as (Hf & He & Hb).
  destruct (sf_exists (archive_uri_of (i + 1)) (w_fs w)) as [[b|e] f']; cbn [fst snd w_fs] in *; [|by eapply HP, H1; apply same_files].
  specialize (Hb b eq_refl). destruct b.
  - rewrite st_bind_unfold. cbn. apply IH. split; [by eapply HP, H1; apply same_files|exact H2].
  - cbn. split; [split; [by eapply HP, H1; apply same_files|exact H2]|]. intros name. apply (free_archive f' _ name). rewrite He. symmetry in Hb. by apply bool_decide_eq_false in Hb.
Qed.

Lemma quiet_effective_policy o : quiet (effective_policy agent_evolution_enabled provided_policy o).
Proof. unfold effective_policy. eauto 8 with quiet. Qed.

(** Quiet, and the object keeps its messages. *)
Definition calm {A} (m : ST W A) : Prop := quiet m /\ forall w, s_messages (w_self (m w).2) = s_messages (w_self w).

Lemma calm_spec {A} (P : F -> Prop) ms (m : ST W A) : stable P -> calm m ->
  spec (fun w => P (w_fs w) /\ s_messages (w_self w) = ms) m (fun _ w => P (w_fs w) /\ s_messages (w_self w) = ms)
    (fun _ w => P (w_fs w) /\ s_messages (w_self w) = ms).
Proof. intros HP [Hq Hm] w [H1 H2]. specialize (Hq w). specialize (Hm w). destruct (m w) as [[?|?] w']; cbn in *; split; [by eapply HP|congruence|by eapply HP|congruence]. Qed.

Lemma calm_bind {A C} (m : ST W A) (f : A -> ST W C) : calm m -> (forall a, calm (f a)) -> calm (m ≫= f).
Proof.
  intros [H1 H2] Hf. split; [apply quiet_bind; [done|intros a; apply Hf]|]. intros w. rewrite st_bind_unfold. specialize (H2 w).
  destruct (m w) as [[a|e] w']; [|done]. cbn in H2. rewrite <- H2. apply Hf.
Qed.
Lemma calm_fs {A} (op : ST F A) : quiet (on_fs op) -> calm (on_fs op).
Proof. intros H. split; [done|]. intros w. unfold on_fs. by destruct (op (w_fs w)). Qed.
Lemma calm_meta f : calm (modify (upd_meta f)).
Proof. split; [apply quiet_modify|done]. Qed.
Lemma calm_lift {A} (r : result A) : calm (st_lift r).
Proof. split; [apply quiet_lift|done]. Qed.
Lemma calm_ret {A} (a : A) : calm (mret a).
Proof. split; [apply quiet_ret|done]. Qed.
Lemma calm_self {A} (f : session -> A) : calm (self f).
Proof. split; [apply quiet_object|done]. Qed.
Lemma calm_attempt m : calm m -> calm (attempt m).
Proof.
  intros [H1 H2]. split; [by apply quiet_attempt|]. intros w. unfold attempt, st_catch. specialize (H2 w). destruct (m w) as [[?|e] w']; [done|].
  by destruct (is_exception e).
Qed.

Lemma calm_reload_meta : calm (reload_meta session_uri).
Proof.
  unfold reload_meta. apply calm_bind; [apply calm_fs, quiet_read|intros c]. apply calm_bind; [apply calm_lift|intros m].
  split; [apply quiet_modify|done].
Qed.
Lemma calm_reload a policy : calm (attempt (reload_commit_meta session_uri a policy)).
Proof. apply calm_attempt, calm_bind; [apply calm_reload_meta|intros _]. apply calm_meta. Qed.
Lemma calm_policy o : calm (effective_policy agent_evolution_enabled provided_policy o).
Proof.
  unfold effective_policy. apply calm_bind; [apply calm_self|intros m]. apply calm_bind; [apply calm_lift|intros p].
  apply calm_bind; [apply calm_lift|intros _]. apply calm_ret.
Qed.


End frame.
Arguments same {F files} watched f f'.
Arguments stable {F files} watched P.
Arguments quiet {F B files} watched {A} m.
Arguments calm {F B files} watched {A} m.
Arguments Unwatched session_uri watched : clear implicits.
