(* ===== verification/SessionTheory.v ===== *)
(** No operation on a session that exists loses a message: over every sequence of
    appends, commits, recoveries, updates and single steps of creations, by any number of
    workers, with failures and cancellations anywhere, every message id once held is
    still in the live file or in an archive. *)
From Stdlib Require Import NArith ZArith.
From S2P Require Import Prelude Effects PyStr PyVal Identifiers WorkIndex TaskRecord Tokens Message Retention SessionPolicy SessionMeta Session SessionFiles SessionFrame.

Open Scope N_scope.

Section theory.
Context {F B : Type} {env : SessionEnv} {FS : SessionFS F} {CB : CommitBackend B}.
Context {files : F -> gmap pystr pystr} {entries : F -> gset pystr} {env_ok : SessionEnvOk} {fs_ok : SessionFSOk F files entries}.
Context (session_id session_uri session_path account_id user_id : pystr).

Abbreviation W := (world F B).
Abbreviation live_uri := (Session.live_uri session_uri).
Abbreviation archive_uri_of := (Session.archive_uri_of session_uri).

(** The files messages live in. *)
Definition relevant (p : pystr) : Prop := p = live_uri \/ exists i, p = archive_messages_uri (archive_uri_of i).

Lemma history_not_live x : Session.history_uri session_uri ++ x <> live_uri.
Proof. unfold Session.history_uri, Session.live_uri. rewrite <- app_assoc. intros H%app_inv_head. revert H. literal_neq. Qed.

Lemma archive_not_live i x : archive_uri_of i ++ x <> live_uri.
Proof. unfold Session.archive_uri_of. rewrite <- !app_assoc. apply history_not_live. Qed.

Lemma beside_irrelevant (name : pystr) :
  name <> u "/messages.jsonl" -> (forall x, name <> u "/history" ++ x) -> ~ relevant (session_uri ++ name).
Proof.
  intros H1 H2 [H|(i & H)].
  - by apply app_inv_head in H.
  - unfold archive_messages_uri, Session.archive_uri_of, Session.history_uri in H. rewrite <- !app_assoc in H. by apply app_inv_head, H2 in H.
Qed.

Lemma meta_irrelevant : ~ relevant (Session.meta_uri session_uri).
Proof. apply beside_irrelevant; [literal_neq|intros x; literal_neq]. Qed.

Lemma inside_irrelevant a name : (exists i, a = archive_uri_of i) -> last name <> Some 108 -> name <> [] -> ~ relevant (a ++ name).
Proof.
  intros (i & ->) Hl Hn [H|(j & H)]; [by apply archive_not_live in H|].
  unfold archive_messages_uri in H. revert H. apply suffix_neq; [|done|literal_neq]. replace (last (u "/messages.jsonl")) with (Some 108); [done|by vm_compute].
Qed.

Lemma archive_meta_irrelevant i : ~ relevant (archive_meta_uri (archive_uri_of i)).
Proof. apply inside_irrelevant; [by exists i|literal_neq|literal_neq]. Qed.
Lemma failed_irrelevant i : ~ relevant (failed_uri (archive_uri_of i)).
Proof. apply inside_irrelevant; [by exists i|literal_neq|literal_neq]. Qed.

Lemma tool_results_irrelevant p : (session_uri ++ u "/tool-results/") `prefix_of` p -> ~ relevant p.
Proof. intros (x & ->). rewrite <- app_assoc. apply beside_irrelevant; [literal_neq|intros y; literal_neq]. Qed.

#[export] Instance relevant_unwatched : Unwatched session_uri relevant.
Proof.
  split; [apply meta_irrelevant|apply failed_irrelevant| | |apply tool_results_irrelevant]; apply beside_irrelevant; try literal_neq; intros x; literal_neq.
Qed.

Abbreviation same := (SessionFrame.same (files := files) relevant).
Abbreviation quiet := (SessionFrame.quiet (B := B) (files := files) relevant).
Abbreviation stable := (SessionFrame.stable (files := files) relevant).

(** ** What is held *)

Definition live_ids (f : F) : list pystr :=
  match files f !! live_uri with
  | Some c => match parse_live c with Ok ms => m_id <$> ms | Err _ => [] end
  | None => []
  end.
Definition archive_ids (f : F) (a : pystr) : list pystr :=
  match files f !! archive_messages_uri a with
  | Some c => match parse_archive c with Ok ms => m_id <$> ms | Err _ => [] end
  | None => []
  end.
Definition held (f : F) (id : pystr) : Prop := id ∈ live_ids f \/ exists i, id ∈ archive_ids f (archive_uri_of i).

(** The live file is there and ends with a line end, so that appends start a line. *)
Definition live_ok (f : F) : Prop := exists c, files f !! live_uri = Some c /\ terminated c.

Definition keeps_ids (ids : list pystr) (f : F) : Prop := live_ok f /\ forall id, id ∈ ids -> held f id.

Lemma same_live f f' : same f f' -> live_ids f' = live_ids f /\ (live_ok f -> live_ok f').
Proof. intros H. unfold live_ids, live_ok. by rewrite (H live_uri) by by left. Qed.
Lemma same_archive f f' i : same f f' -> archive_ids f' (archive_uri_of i) = archive_ids f (archive_uri_of i).
Proof. intros H. unfold archive_ids. rewrite (H (archive_messages_uri _)); [done|]. right. by exists i. Qed.
Lemma same_held f f' id : same f f' -> held f id -> held f' id.
Proof.
  intros H [Hl|(i & Hi)]; [left; by rewrite (proj1 (same_live _ _ H))|right; exists i; by rewrite same_archive with (f := f)].
Qed.
Lemma same_keeps ids f f' : same f f' -> keeps_ids ids f -> keeps_ids ids f'.
Proof. intros H [H1 H2]. split; [by apply (same_live f)|]. intros id Hid. by apply (same_held f), H2. Qed.

Context (agent_evolution_enabled : bool) (provided_policy : option pydict) (externalize : ST (list Message * F) unit) (now : nat -> pystr).
Context {ext_ok : ExternalizeOk files session_uri externalize}.

(** The operations that write nothing relevant. *)
#[local] Hint Resolve fs_ok ext_ok relevant_unwatched quiet_ret quiet_raise quiet_lift quiet_gets quiet_object quiet_modify quiet_back quiet_bind quiet_catch
  quiet_write quiet_read quiet_exists quiet_ls quiet_stat quiet_mkdir quiet_attempt quiet_locked meta_irrelevant archive_meta_irrelevant
  failed_irrelevant quiet_reload_meta quiet_save_meta quiet_read_live quiet_read_archive quiet_read_archive_meta quiet_read_phase1 quiet_failed
  quiet_file_exists : quiet.

Lemma quiet_merge_meta i d : quiet (merge_archive_meta (archive_uri_of i) d).
Proof. unfold merge_archive_meta. eauto with quiet. Qed.
#[local] Hint Resolve quiet_merge_meta : quiet.
Lemma quiet_ready n i : quiet (write_phase1_ready_marker now n (archive_uri_of i)).
Proof. unfold write_phase1_ready_marker. eauto with quiet. Qed.
Lemma quiet_marker i d r : quiet (write_phase1_marker agent_evolution_enabled (archive_uri_of i) d r).
Proof. unfold write_phase1_marker. eauto with quiet. Qed.
#[local] Hint Resolve quiet_ready quiet_marker : quiet.

Lemma quiet_reconcile i m l : quiet (reconcile_phase1 session_uri now (archive_uri_of i) m l).
Proof. unfold reconcile_phase1. repeat (apply quiet_bind; [eauto with quiet|intros ?]). eauto with quiet. Qed.

Lemma quiet_recover i : quiet (recover_phase1 session_uri account_id user_id now (archive_uri_of i)).
Proof.
  unfold recover_phase1. apply quiet_bind; [eauto with quiet|intros marker]. destruct (is_text _ _); [eauto with quiet|].
  apply quiet_bind; [eauto with quiet|intros [|]]; [eauto with quiet|]. apply quiet_bind; [eauto with quiet|intros [|]]; cbn [negb].
  - apply quiet_bind.
    + unfold verify_phase1. apply quiet_catch; [|eauto with quiet].
      destruct marker; [eauto with quiet|]. destruct (get_or_none _ _); eauto with quiet. destruct (get_or_none _ _); eauto with quiet.
    + intros [[[r a] l]|]; [|eauto with quiet]. destruct (phase1_applied r a l); [|eauto with quiet].
      apply quiet_bind; [apply quiet_reconcile|eauto with quiet].
  - apply quiet_bind; [eauto with quiet|intros ?]. apply quiet_bind; [|eauto with quiet]. destruct (py_truthy _); eauto with quiet.
Qed.

Lemma quiet_ensure i : quiet (ensure_phase1_ready session_uri session_path account_id user_id now (archive_uri_of i)).
Proof.
  unfold ensure_phase1_ready. apply quiet_bind; [eauto with quiet|intros marker]. destruct (match marker with [] => _ | _ => _ end); [eauto with quiet|].
  apply quiet_bind; [eauto with quiet|intros [|]]; [eauto with quiet|]. apply quiet_locked, quiet_recover.
Qed.

Lemma quiet_can_run i : quiet (can_run_archive session_uri session_path account_id user_id now i).
Proof.
  unfold can_run_archive. destruct (i <=? 1)%Z; [eauto with quiet|]. apply quiet_bind; [eauto with quiet|intros [|]]; cbn [negb]; [|eauto with quiet].
  apply quiet_bind; [unfold archive_terminal_state|].
  { apply quiet_bind; [eauto with quiet|intros [|]]; eauto with quiet. }
  intros st. destruct (bool_decide _); cbn [negb]; [|eauto with quiet]. apply quiet_bind; [eauto with quiet|intros [|kv marker]]; [eauto with quiet|].
  destruct (is_text _ _); cbn [negb]; [|apply quiet_bind; [apply quiet_ensure|eauto with quiet]].
  destruct (py_truthy _); cbn [negb]; [|eauto with quiet]. apply quiet_bind; [eauto with quiet|intros [|]]; eauto 8 with quiet.
Qed.

(** ** Appending *)

(** The ids of live messages read at the start of an operation. *)
Lemma read_live_spec ids :
  spec (fun w : W => keeps_ids ids (w_fs w)) (read_live_messages_strict session_uri)
    (fun ms w => keeps_ids ids (w_fs w) /\ Forall message_ok ms /\ exists c, files (w_fs w) !! live_uri = Some c /\ parse_live c = Ok ms)
    (fun e w => keeps_ids ids (w_fs w) /\ (e = NotFoundError -> files (w_fs w) !! live_uri = None)).
Proof.
  intros w Hk. unfold read_live_messages_strict. rewrite st_bind_unfold. unfold on_fs. destruct (fs_read_ok live_uri (w_fs w)) as [Hf Hr].
  destruct (sf_read live_uri (w_fs w)) as [[c|e] f']; cbn [fst snd] in *.
  - unfold st_lift. destruct (parse_live c) as [ms|e] eqn:E; cbn [w_fs].
    + split_and!; [by eapply same_keeps, Hk; apply same_files|by eapply parse_live_ok|]. exists c. by rewrite Hf.
    + split; [by eapply same_keeps, Hk; apply same_files|]. intros ->. unfold parse_live in E. by destruct (parse_lines _).
  - cbn [w_fs]. split; [by eapply same_keeps, Hk; apply same_files|]. intros ->. by rewrite Hf.
Qed.

(** The invariant after a step that may have rewritten the live file. *)
Lemma keeps_live ids f f' c ms :
  keeps_ids ids f -> files f' = <[live_uri := c]> (files f) -> terminated c -> parse_live c = Ok ms ->
  (forall id, id ∈ live_ids f -> id ∈ (m_id <$> ms) \/ exists i, id ∈ archive_ids f (archive_uri_of i)) -> keeps_ids ids f'.
Proof.
  intros [Hl Hk] Hf Ht Hp Hids.
  assert (forall i, archive_ids f' (archive_uri_of i) = archive_ids f (archive_uri_of i)) as Ha.
  { intros i. unfold archive_ids. rewrite Hf, lookup_insert_ne; [done|]. intros E. symmetry in E. by apply archive_not_live in E. }
  assert (live_ids f' = m_id <$> ms) as Hl' by (unfold live_ids; by rewrite Hf, lookup_insert_eq, Hp).
  split; [exists c; by rewrite Hf, lookup_insert_eq|]. intros id Hid. specialize (Hk id Hid) as [H|(i & H)].
  - destruct (Hids id H) as [H'|(i & H')]; [left; by rewrite Hl'|right; exists i; by rewrite Ha].
  - right. exists i. by rewrite Ha.
Qed.

Lemma reload_live_spec ids :
  spec (fun w : W => keeps_ids ids (w_fs w)) (reload_live session_uri)
    (fun missing w => keeps_ids ids (w_fs w)
       /\ if missing : bool then files (w_fs w) !! live_uri = None
          else exists c, files (w_fs w) !! live_uri = Some c /\ parse_live c = Ok (s_messages (w_self w)))
    (fun _ w => keeps_ids ids (w_fs w)).
Proof.
  unfold reload_live. eapply spec_catch with (E1 := fun e w => keeps_ids ids (w_fs w) /\ (e = NotFoundError -> files (w_fs w) !! live_uri = None)).
  - eapply spec_bind; [apply read_live_spec|]. intros ms.
    apply spec_bind with (R := fun _ (w : W) => keeps_ids ids (w_fs w)
      /\ exists c, files (w_fs w) !! live_uri = Some c /\ parse_live c = Ok (s_messages (w_self w))).
    + apply spec_modify. intros w (Hk & _ & H). exact (conj Hk H).
    + intros _. apply spec_ret. intros w H. exact H.
  - intros e He. destruct e; try done.
    apply spec_bind with (R := fun _ (w : W) => keeps_ids ids (w_fs w) /\ files (w_fs w) !! live_uri = None).
    + apply spec_modify. intros w [H1 H2]. split; [exact H1|by apply H2].
    + intros _. apply spec_ret. intros w H. exact H.
  - intros e w _ [H _]. exact H.
Qed.

(** A step that writes the live file, or raises before or after it did. *)
Definition rewrites (op : ST F unit) (c : pystr) (f : F) : Prop :=
  match op f with
  | (Ok _, f') => files f' = <[live_uri := c]> (files f)
  | (Err _, f') => files f' = files f \/ files f' = <[live_uri := c]> (files f)
  end.

Lemma rewrites_keeps ids op c ms f :
  rewrites op c f -> keeps_ids ids f -> terminated c -> parse_live c = Ok ms ->
  (forall id, id ∈ live_ids f -> id ∈ (m_id <$> ms) \/ exists i, id ∈ archive_ids f (archive_uri_of i)) ->
  match op f with
  | (Ok _, f') => keeps_ids (ids ++ (m_id <$> ms)) f' /\ files f' = <[live_uri := c]> (files f)
  | (Err _, f') => keeps_ids ids f'
  end.
Proof.
  intros Hw Hk Ht Hp Hids. unfold rewrites in Hw. destruct (op f) as [[[]|e] f'].
  - split; [|exact Hw]. destruct (keeps_live ids f f' c ms Hk Hw Ht Hp Hids) as [H1 H2]. split; [exact H1|].
    intros id [H|H]%elem_of_app; [by apply H2|]. left. unfold live_ids. by rewrite Hw, lookup_insert_eq, Hp.
  - destruct Hw as [Hw|Hw]; [by eapply same_keeps, Hk; apply same_files|by eapply keeps_live].
Qed.

Definition live_state (missing : bool) (f : F) : Prop :=
  if missing then files f !! live_uri = None else exists c ms, files f !! live_uri = Some c /\ parse_live c = Ok ms.

Lemma append_live_spec ids missing batch : Forall message_ok batch ->
  spec (fun w : W => keeps_ids ids (w_fs w) /\ live_state missing (w_fs w))
    (on_fs (if missing : bool then sf_write live_uri (batch_of (now 1) batch) else sf_append live_uri (batch_of (now 1) batch)))
    (fun _ w => keeps_ids (ids ++ (m_id <$> batch)) (w_fs w)) (fun _ w => keeps_ids ids (w_fs w)).
Proof.
  intros Hb w [Hk Hs]. unfold on_fs. destruct missing; cbn [live_state] in Hs.
  - pose proof (fs_write_ok live_uri (batch_of (now 1) batch) (w_fs w)) as Hw.
    pose proof (rewrites_keeps ids (sf_write live_uri (batch_of (now 1) batch)) _ (stored (now 1) <$> batch) (w_fs w) Hw Hk (batch_terminated _ _)) as H.
    rewrite stored_ids in H. destruct (sf_write _ _ _) as [[[]|e] f']; cbn [w_fs]; apply H; try (unfold parse_live; by rewrite parse_batch);
      unfold live_ids; rewrite Hs; by intros ? ?%elem_of_nil.
  - destruct Hs as (c & ms & Hc & Hp).
    assert (terminated c) as Ht by (destruct Hk as [(c0 & Hc0 & ?) _]; congruence).
    destruct (parse_live_append (now 1) c ms batch Ht Hp Hb) as [Hpa Hta].
    pose proof (fs_append_ok live_uri (batch_of (now 1) batch) (w_fs w)) as Hw. rewrite Hc in Hw. cbn [default from_option] in Hw.
    pose proof (rewrites_keeps ids (sf_append live_uri (batch_of (now 1) batch)) _ _ (w_fs w) Hw Hk Hta Hpa) as H.
    rewrite fmap_app, stored_ids in H.
    assert (forall id, id ∈ live_ids (w_fs w) -> id ∈ (m_id <$> ms) ++ (m_id <$> batch) \/ exists i, id ∈ archive_ids (w_fs w) (archive_uri_of i)) as Hids.
    { unfold live_ids. rewrite Hc, Hp. intros id Hid. left. apply elem_of_app. by left. }
    specialize (H Hids). destruct (sf_append _ _ _) as [[[]|e] f']; cbn [w_fs]; [|exact H].
    destruct H as [[H1 H2] _]. split; [exact H1|]. intros id [Hi|Hi]%elem_of_app; apply H2; rewrite !elem_of_app; tauto.
Qed.

Lemma same_live_state missing f f' : same f f' -> live_state missing f -> live_state missing f'.
Proof. intros H. unfold live_state. rewrite (H live_uri) by by left. done. Qed.

Lemma quiet_drop_delivered ms : quiet (drop_delivered session_uri ms).
Proof.
  unfold drop_delivered. destruct (existsb _ _); [|eauto with quiet]. apply quiet_bind; [eauto with quiet|intros live].
  apply quiet_bind; [|eauto with quiet]. destruct (filter _ _) as [|i wanted]; [eauto with quiet|].
  apply quiet_bind; [unfold list_archive_refs; eauto with quiet|intros refs].
  generalize (m_id <$> live). generalize (i :: wanted). intros ids. induction refs as [|r refs IH]; intros d; cbn [find_delivered]; [eauto with quiet|].
  apply quiet_bind; [eauto with quiet|intros ms']. destruct (forallb _ _); [eauto with quiet|apply IH].
Qed.

(** What the delivery filter lets through are messages of the batch. *)
Lemma filter_loop_sub groups ms d : filter_loop groups ms d `sublist_of` ms.
Proof.
  revert d. induction ms as [|m ms IH]; intros d; cbn [filter_loop]; [done|].
  destruct (is_delivery _); [destruct (_ || _)|]; [by apply sublist_cons|by apply sublist_skip|by apply sublist_skip].
Qed.

Lemma drop_delivered_sub ms : spec (fun _ : W => True) (drop_delivered session_uri ms) (fun r _ => r `sublist_of` ms) (fun _ _ => True).
Proof.
  unfold drop_delivered. destruct (existsb _ _); [|by apply spec_ret].
  apply spec_bind with (R := fun _ _ => True); [by apply spec_gets|]. intros live.
  apply spec_bind with (R := fun _ _ => True); [by intros w _; destruct (_ w) as [[?|?] ?]|]. intros d.
  apply spec_ret. intros _ _. apply filter_loop_sub.
Qed.

Lemma append_tail ids missing r : Forall message_ok r ->
  spec (fun w : W => keeps_ids ids (w_fs w) /\ live_state missing (w_fs w))
    (_ ← modify (apply_appended_messages (now 0) r);
     _ ← on_fs (if missing : bool then sf_write live_uri (batch_of (now 1) r) else sf_append live_uri (batch_of (now 1) r));
     _ ← save_meta session_uri now 2; mret r)
    (fun r w => keeps_ids (ids ++ (m_id <$> r)) (w_fs w)) (fun _ w => keeps_ids ids (w_fs w)).
Proof.
  intros Hr. apply spec_bind with (R := fun _ w => keeps_ids ids (w_fs w) /\ live_state missing (w_fs w)); [by apply spec_modify|]. intros _.
  eapply spec_bind; [by apply append_live_spec|]. intros []. cbn beta.
  apply spec_bind with (R := fun _ w => keeps_ids (ids ++ (m_id <$> r)) (w_fs w)); [|intros _; by apply spec_ret].
  eapply spec_conseq; [apply (quiet_spec (files := files) (watched := relevant) (keeps_ids (ids ++ (m_id <$> r)))); [eauto with quiet|apply same_keeps]|done|done|].
  intros e w [H1 H2]. split; [done|]. intros id Hid. apply H2, elem_of_app. by left.
Qed.

Lemma append_spec ids ms : Forall message_ok ms ->
  spec (fun w : W => keeps_ids ids (w_fs w)) (append_messages session_uri session_path now ms)
    (fun r w => keeps_ids (ids ++ (m_id <$> r)) (w_fs w)) (fun _ w => keeps_ids ids (w_fs w)).
Proof.
  intros Hok. unfold append_messages. destruct ms as [|m ms'].
  { apply spec_ret. intros w H. by rewrite app_nil_r. }
  set (ms := m :: ms') in *. clearbody ms.
  apply (spec_locked session_path (files := files) (watched := relevant) (keeps_ids ids) _ (fun r => keeps_ids (ids ++ (m_id <$> r))) (keeps_ids ids)); eauto using same_keeps.
  { intros r f [H1 H2]. split; [done|]. intros id Hid. apply H2, elem_of_app. by left. }
  apply spec_bind with (R := fun missing w => keeps_ids ids (w_fs w) /\ live_state missing (w_fs w)).
  { eapply spec_conseq; [apply (reload_live_spec ids)|done| |done]. intros missing w [H1 H2]. split; [exact H1|].
    destruct missing; [exact H2|]. destruct H2 as (c & Hc & Hp). by exists c, (s_messages (w_self w)). }
  intros missing. set (P := fun f => keeps_ids ids f /\ live_state missing f).
  assert (forall f f', same f f' -> P f -> P f') as HP by (intros f f' H [H1 H2]; split; [by eapply same_keeps|by eapply same_live_state]).
  apply spec_bind with (R := fun _ w => P (w_fs w)).
  { eapply spec_conseq; [apply (quiet_spec (files := files) (watched := relevant) P); [eauto with quiet|exact HP]|done|done|]. by intros e w [H _]. }
  intros _. apply spec_bind with (R := fun r w => P (w_fs w) /\ r `sublist_of` ms).
  { eapply spec_conseq; [apply spec_and; [apply (quiet_spec (files := files) (watched := relevant) P); [apply quiet_drop_delivered|exact HP]|eapply spec_pre; [apply drop_delivered_sub|done]]|done|done|].
    by intros e w [[H _] _]. }
  intros r. destruct r as [|x r'] eqn:Er.
  { apply spec_ret. intros w [[H _] _]. by rewrite app_nil_r. }
  intros w [HPw Hsub]. apply append_tail; [|exact HPw]. rewrite Forall_forall in *. intros y Hy. by eapply Hok, elem_of_sublist.
Qed.

(** ** Committing *)

(** *** Phase 1 *)

Section phase1.
Context (ids L : list pystr) (i : Z) (archived retained : list Message).
Context (Hcov : covers L archived retained) (Harch : Forall message_ok archived) (Hret : Forall message_ok retained) (Hne : archived <> []).

Abbreviation uri := (archive_uri_of i).

(** Before and after the archive is written. *)
Definition before_archive (f : F) : Prop :=
  keeps_ids ids f /\ (forall id, id ∈ live_ids f -> id ∈ L) /\ files f !! archive_messages_uri uri = None.
Definition after_archive (f : F) : Prop :=
  keeps_ids ids f /\ (forall id, id ∈ live_ids f -> id ∈ L) /\ archive_ids f uri = m_id <$> archived.

Lemma before_stable : stable before_archive.
Proof.
  intros f f' H (H1 & H2 & H3). split_and!; [by eapply same_keeps|by rewrite (proj1 (same_live _ _ H))|].
  rewrite (H (archive_messages_uri uri)); [done|]. right. by exists i.
Qed.
Lemma after_stable : stable after_archive.
Proof.
  intros f f' H (H1 & H2 & H3). split_and!; [by eapply same_keeps|by rewrite (proj1 (same_live _ _ H))|by rewrite (same_archive _ _ _ H)].
Qed.

Lemma archive_write_keeps f f' c :
  before_archive f -> files f' = <[archive_messages_uri uri := c]> (files f) -> keeps_ids ids f' /\ (forall id, id ∈ live_ids f' -> id ∈ L).
Proof.
  intros (Hk & Hl & Hn) Hf.
  assert (files f' !! live_uri = files f !! live_uri) as Hlive by (rewrite Hf, lookup_insert_ne; [done|apply archive_not_live]).
  assert (live_ids f' = live_ids f) as Hli by (unfold live_ids; by rewrite Hlive).
  split; [|by rewrite Hli]. destruct Hk as [H1 H2]. split; [unfold live_ok; by rewrite Hlive|].
  intros id Hid. destruct (H2 id Hid) as [H|(j & H)]; [left; by rewrite Hli|]. right. exists j. unfold archive_ids in *.
  rewrite Hf, lookup_insert_ne; [done|]. intros E. rewrite <- E, Hn in H. by apply elem_of_nil in H.
Qed.

Lemma write_archive_spec :
  spec (fun w : W => before_archive (w_fs w))
    (on_fs (sf_write (archive_messages_uri uri) (join [c_nl] (to_jsonl (now 1) <$> archived) ++ [c_nl])))
    (fun _ w => after_archive (w_fs w)) (fun _ w => keeps_ids ids (w_fs w)).
Proof.
  intros w Hb. unfold on_fs. set (c := join _ _ ++ _). pose proof (fs_write_ok (archive_messages_uri uri) c (w_fs w)) as Hw.
  destruct (sf_write _ _ _) as [[[]|e] f']; cbn [w_fs].
  - destruct (archive_write_keeps _ _ _ Hb Hw) as [H1 H2]. split_and!; [exact H1|exact H2|].
    unfold archive_ids. rewrite Hw, lookup_insert_eq. unfold c. rewrite parse_archive_file by done. apply stored_ids.
  - destruct Hw as [Hw|Hw]; [|by apply (archive_write_keeps _ _ _ Hb Hw)]. eapply same_keeps, Hb. by apply same_files.
Qed.

Lemma persist_spec st payload reason p :
  spec (fun w : W => before_archive (w_fs w)) (persist_archive agent_evolution_enabled now st uri payload reason archived p)
    (fun _ w => after_archive (w_fs w)) (fun _ w => keeps_ids ids (w_fs w)).
Proof.
  unfold persist_archive. apply spec_bind with (R := fun _ w => before_archive (w_fs w)).
  { eapply spec_conseq; [apply (spec_quiet (files := files) (watched := relevant) before_archive); [eauto with quiet|apply before_stable]|done|done|]. by intros e w [H _]. }
  intros _. eapply spec_bind; [apply write_archive_spec|]. intros [].
  eapply spec_conseq; [apply (spec_quiet (files := files) (watched := relevant) after_archive); [|apply after_stable]|done|done|]; [|by intros e w [H _]].
  destruct p; [eauto with quiet|apply quiet_ret].
Qed.

(** The live file with the retained messages. *)
Lemma write_root_spec n :
  spec (fun w : W => after_archive (w_fs w)) (on_fs (sf_write live_uri (file_of (now n) retained)))
    (fun _ w => keeps_ids ids (w_fs w)) (fun _ w => keeps_ids ids (w_fs w)).
Proof.
  intros w (Hk & Hl & Ha). unfold on_fs. rewrite file_batch.
  pose proof (fs_write_ok live_uri (batch_of (now n) retained) (w_fs w)) as Hw.
  pose proof (rewrites_keeps ids (sf_write live_uri (batch_of (now n) retained)) _ (stored (now n) <$> retained) (w_fs w) Hw Hk (batch_terminated _ _)) as H.
  rewrite stored_ids in H.
  assert (parse_live (batch_of (now n) retained) = Ok (stored (now n) <$> retained)) as Hp by (unfold parse_live; by rewrite parse_batch).
  specialize (H Hp). destruct (sf_write _ _ _) as [[[]|e] f']; cbn [w_fs]; [destruct H as [[H1 H2] _]|apply H].
  1, 3: intros id Hid; destruct (proj1 (Hcov id) (Hl id Hid)) as [Hi|Hi]; [right; exists i; by rewrite Ha|by left].
  split; [exact H1|]. intros id Hid. apply H2, elem_of_app. by left.
Qed.

Lemma write_to_agfs_spec n :
  spec (fun w : W => after_archive (w_fs w)) (write_to_agfs session_uri now n retained)
    (fun _ w => keeps_ids ids (w_fs w)) (fun _ w => keeps_ids ids (w_fs w)).
Proof.
  unfold write_to_agfs. apply spec_bind with (R := fun _ w => after_archive (w_fs w)); [by apply spec_gets|]. intros s.
  eapply spec_bind; [apply write_root_spec|]. intros []. apply (spec_quiet (files := files) (watched := relevant) (keeps_ids ids)); [|intros ? ?; apply same_keeps].
  apply quiet_overviews; apply _.
Qed.

Lemma publish_spec st keep auto :
  spec (fun w : W => after_archive (w_fs w)) (publish_root session_uri now st keep auto uri retained)
    (fun _ w => keeps_ids ids (w_fs w)) (fun _ w => keeps_ids ids (w_fs w)).
Proof.
  unfold publish_root. apply spec_bind with (R := fun _ w => after_archive (w_fs w)); [by apply spec_modify|]. intros _.
  eapply spec_bind; [apply write_to_agfs_spec|]. intros []. apply (spec_quiet (files := files) (watched := relevant) (keeps_ids ids)); [|intros ? ?; apply same_keeps].
  eauto 8 with quiet.
Qed.

Lemma guarded_spec (P Q : F -> Prop) original stage (body : ST W unit) :
  spec (fun w => P (w_fs w)) body (fun _ w => Q (w_fs w)) (fun _ w => keeps_ids ids (w_fs w)) ->
  spec (fun w => P (w_fs w)) (guarded now uri original stage body) (fun _ w => Q (w_fs w)) (fun _ w => keeps_ids ids (w_fs w)).
Proof.
  intros Hb. unfold guarded. eapply spec_catch; [exact Hb| |done]. intros e _. unfold fail_phase1.
  apply spec_bind with (R := fun _ w => keeps_ids ids (w_fs w)).
  { apply (spec_quiet (files := files) (watched := relevant) (keeps_ids ids)); [eauto with quiet|intros ? ?; apply same_keeps]. }
  intros _. apply spec_bind with (R := fun _ w => keeps_ids ids (w_fs w)); [by apply spec_modify|]. intros _. by apply spec_raise.
Qed.
End phase1.

Lemma phase1_spec ids L i st keep a policy tags task_id archived retained p :
  covers L archived retained -> Forall message_ok archived -> Forall message_ok retained -> archived <> [] ->
  spec (fun w : W => before_archive ids L (i + 1) (w_fs w) /\ s_index (w_self w) = i)
    (phase1 session_id session_uri account_id user_id agent_evolution_enabled now st keep a policy tags task_id archived retained p)
    (fun _ w => keeps_ids ids (w_fs w)) (fun _ w => keeps_ids ids (w_fs w)).
Proof.
  intros Hcov Ha Hr Hne. unfold phase1.
  apply spec_bind with (R := fun _ w => before_archive ids L (i + 1) (w_fs w) /\ s_index (w_self w) = (i + 1)%Z).
  { apply spec_modify. intros w [H1 H2]. split; [exact H1|]. cbn. by rewrite H2. }
  intros _. apply spec_bind with (R := fun s w => before_archive ids L (i + 1) (w_fs w) /\ s_index s = (i + 1)%Z).
  { apply spec_gets. intros w [H1 H2]. by split. }
  intros s. intros w [H1 H2]. rewrite H2. revert w H1.
  apply (spec_bind (fun w : W => before_archive ids L (i + 1) (w_fs w)) _ _ (fun _ w => after_archive ids L (i + 1) archived (w_fs w))).
  { by apply guarded_spec, persist_spec. }
  intros _. apply spec_bind with (R := fun _ w => after_archive ids L (i + 1) archived (w_fs w)).
  { apply guarded_spec. eapply spec_conseq; [apply (spec_quiet (files := files) (watched := relevant) (after_archive ids L (i + 1) archived)); [apply quiet_back|apply after_stable]|done|done|].
    by intros e w [H _]. }
  intros _. apply spec_bind with (R := fun _ w => after_archive ids L (i + 1) archived (w_fs w)).
  { apply guarded_spec. eapply spec_conseq; [apply (spec_quiet (files := files) (watched := relevant) (after_archive ids L (i + 1) archived)); [|apply after_stable]|done|done|].
    - apply quiet_bind; [apply quiet_back|intros ?; apply quiet_ret].
    - by intros e w [H _]. }
  intros _. apply spec_bind with (R := fun _ w => keeps_ids ids (w_fs w)); [by apply guarded_spec, publish_spec|].
  intros _. by apply spec_ret.
Qed.

(** *** The whole commit *)

Lemma commit_messages_spec ids i st keep a policy tags task_id ms : Forall message_ok ms ->
  spec (fun w : W => (before_archive ids (m_id <$> ms) (i + 1) (w_fs w) /\ s_index (w_self w) = i) /\ s_messages (w_self w) = ms)
    (commit_messages session_id session_uri account_id user_id agent_evolution_enabled externalize now st keep a policy tags task_id ms)
    (fun _ w => keeps_ids ids (w_fs w)) (fun _ w => keeps_ids ids (w_fs w)).
Proof.
  intros Hok. unfold commit_messages. destruct ms as [|m ms'].
  { eapply spec_pre; [apply (spec_quiet (files := files) (watched := relevant) (keeps_ids ids)); [eauto 8 with quiet|intros ? ?; apply same_keeps]|]. by intros w [[[H _] _] _]. }
  set (ms := m :: ms') in *. clearbody ms. eapply spec_bind.
  { eapply spec_conseq; [apply (split_spec (files := files) session_uri (watched := relevant) externalize now (before_archive ids (m_id <$> ms) (i + 1)) i ms st (before_stable _ _ _))| |intros r w H; exact H|].
    - intros w [H1 H2]. exact (conj H1 (conj H2 Hok)).
    - by intros e w [H _]. }
  intros [[archived retained] p]. cbn [fst snd].
  intros w (H1 & _ & Hcov & Ha & Hr). revert w H1. destruct archived as [|x l] eqn:Ea.
  - apply (spec_bind (fun w : W => before_archive ids (m_id <$> ms) (i + 1) (w_fs w) /\ s_index (w_self w) = i) _ _
             (fun _ w => after_archive ids (m_id <$> ms) (i + 1) [] (w_fs w))).
    { apply spec_modify. intros w ((Hk & Hl & Hn) & _). split_and!; [exact Hk|exact Hl|]. unfold archive_ids. cbn [w_fs]. by rewrite Hn. }
    intros _. eapply spec_bind; [by apply (write_to_agfs_spec ids (m_id <$> ms) (i + 1) [] retained)|]. intros [].
    apply (spec_quiet (files := files) (watched := relevant) (keeps_ids ids)); [eauto 8 with quiet|intros ? ?; apply same_keeps].
  - rewrite <- Ea in *. apply (spec_bind (fun w : W => before_archive ids (m_id <$> ms) (i + 1) (w_fs w) /\ s_index (w_self w) = i) _ _
             (fun _ w => keeps_ids ids (w_fs w))).
    + apply phase1_spec; try done. by rewrite Ea.
    + intros r. by apply spec_ret.
Qed.

Lemma commit_locked_spec ids fuel st a task_id policy explicit :
  spec (fun w : W => keeps_ids ids (w_fs w))
    (commit_locked session_id session_uri account_id user_id agent_evolution_enabled provided_policy externalize now fuel st a task_id policy explicit)
    (fun _ w => keeps_ids ids (w_fs w)) (fun _ w => keeps_ids ids (w_fs w)).
Proof.
  unfold commit_locked.
  apply spec_bind with (R := fun ms w => (keeps_ids ids (w_fs w) /\ live_ids (w_fs w) = m_id <$> ms) /\ Forall message_ok ms).
  { eapply spec_conseq; [apply (read_live_spec ids)|done| |by intros e w [H _]]. intros ms w (H1 & H2 & c & H3 & H4).
    split; [split; [exact H1|]|exact H2]. unfold live_ids. by rewrite H3, H4. }
  intros ms w [HK Hok]. revert w HK. set (P := fun f => keeps_ids ids f /\ live_ids f = m_id <$> ms).
  assert (stable P) as HP.
  { intros f f' H [H1 H2]. split; [by eapply same_keeps|]. by rewrite (proj1 (same_live _ _ H)). }
  assert (forall (e : exn) (w : W), P (w_fs w) /\ s_messages (w_self w) = ms -> keeps_ids ids (w_fs w)) as HPk by by intros e w [[H _] _].
  apply (spec_bind (fun w : W => P (w_fs w)) _ _ (fun _ w => P (w_fs w) /\ s_messages (w_self w) = ms)); [by apply spec_modify|]. intros _.
  apply spec_bind with (R := fun _ w => P (w_fs w) /\ s_messages (w_self w) = ms).
  { eapply spec_conseq; [apply (calm_spec (files := files) (watched := relevant) P ms _ HP (calm_reload session_uri a policy))|done|done|exact HPk]. }
  intros _. apply spec_bind with (R := fun _ w => P (w_fs w) /\ s_messages (w_self w) = ms); [by apply spec_gets|]. intros meta.
  apply spec_bind with (R := fun _ w => P (w_fs w) /\ s_messages (w_self w) = ms); [by apply spec_lift; eauto|]. intros tags.
  apply spec_bind with (R := fun _ w => P (w_fs w) /\ s_messages (w_self w) = ms).
  { destruct explicit; [by apply spec_ret|]. eapply spec_conseq; [apply (calm_spec (files := files) (watched := relevant) P ms _ HP (calm_policy agent_evolution_enabled provided_policy None))|done|done|exact HPk]. }
  intros pol. apply spec_bind with (R := fun _ w => P (w_fs w) /\ s_messages (w_self w) = ms); [by apply spec_modify|]. intros _.
  eapply spec_bind; [eapply spec_conseq; [apply (skip_archives_spec session_uri (files := files) (watched := relevant) P ms fuel HP)|done|intros x w H; exact H|by intros e w [H _]]|]. intros [].
  intros w (((Hk & Hl) & Hm) & Hn). apply (commit_messages_spec ids (s_index (w_self w))); [done|]. split; [|exact Hm]. split; [|done].
  split_and!; [exact Hk|by rewrite Hl|exact (Hn (u "messages.jsonl"))].
Qed.

Lemma commit_spec ids fuel task_id a :
  spec (fun w : W => keeps_ids ids (w_fs w))
    (commit_async session_id session_uri session_path account_id user_id agent_evolution_enabled provided_policy externalize now fuel task_id a)
    (fun _ w => keeps_ids ids (w_fs w)) (fun _ w => keeps_ids ids (w_fs w)).
Proof.
  unfold commit_async. assert (stable (keeps_ids ids)) as HP by (intros f f'; apply same_keeps).
  apply spec_bind with (R := fun _ w => keeps_ids ids (w_fs w)); [by apply (spec_quiet (files := files) (watched := relevant) (keeps_ids ids)); [apply quiet_lift|]|]. intros st.
  apply spec_bind with (R := fun _ w => keeps_ids ids (w_fs w)); [by apply spec_gets|]. intros meta.
  apply spec_bind with (R := fun _ w => keeps_ids ids (w_fs w)).
  { apply (spec_quiet (files := files) (watched := relevant) (keeps_ids ids)); [|done]. destruct (ca_memory_policy a); [|apply quiet_ret].
    apply quiet_bind; [apply quiet_effective_policy|intros ?; apply quiet_ret]. }
  intros explicit. apply spec_bind with (R := fun _ w => keeps_ids ids (w_fs w)).
  { apply (spec_locked session_path (files := files) (watched := relevant) (keeps_ids ids) _ (fun _ => keeps_ids ids) (keeps_ids ids)); try done. apply commit_locked_spec. }
  intros [r n]. apply spec_bind with (R := fun _ w => keeps_ids ids (w_fs w)); [by apply spec_modify|]. intros _. by apply spec_ret.
Qed.

(** ** The other operations *)

Lemma quiet_load : quiet (load session_uri account_id user_id).
Proof.
  unfold load. apply quiet_bind; [eauto with quiet|intros [|]]; [eauto with quiet|].
  apply quiet_bind; [eauto 8 with quiet|intros _]. apply quiet_bind.
  { unfold load_meta, load_index_from_history. apply quiet_catch; [eauto with quiet|intros e]. apply quiet_bind; [|eauto with quiet].
    apply quiet_catch; [|eauto with quiet]. apply quiet_bind; [eauto with quiet|intros names]. destruct (omap _ _); eauto with quiet. }
  intros _. apply quiet_bind; [eauto with quiet|intros _]. apply quiet_bind; [|eauto with quiet].
  unfold normalize_auto_policy. apply quiet_bind; [eauto with quiet|intros m]. destruct (sm_auto_commit_policy m); eauto with quiet.
Qed.

Lemma live_empty f : session_uri ∉ entries f -> files f !! live_uri = None.
Proof.
  intros Hn. destruct (files f !! live_uri) eqn:E; [|done]. exfalso. apply Hn.
  apply (fs_parent (FS := FS) (files := files) f _ (u "messages.jsonl")). apply (fs_entry (FS := FS) (files := files) f).
  unfold Session.live_uri in E. replace ([c_slash] ++ u "messages.jsonl") with (u "/messages.jsonl") by by vm_compute. by rewrite E.
Qed.

(** While the live file is there, no creation finds the session missing. *)
Lemma exists_found (w : W) r w' : live_ok (w_fs w) -> session_exists session_uri w = (r, w') -> r <> Ok false.
Proof.
  intros (c & Hc & _). unfold session_exists, stat_exists, st_catch. rewrite st_bind_unfold. unfold on_fs.
  destruct (fs_stat_ok (files := files) (entries := entries) session_uri (w_fs w)) as [_ Hn].
  destruct (sf_stat session_uri (w_fs w)) as [[[]|e] f']; [by intros [= <- _]|]. cbn [fst] in Hn.
  destruct (is_storage_not_found e) eqn:Ee; [|by intros [= <- _]]. destruct e; try done. pose proof (live_empty _ (Hn eq_refl)). congruence.
Qed.

Lemma quiet_session_exists : quiet (session_exists session_uri).
Proof. unfold session_exists, stat_exists. eauto 8 with quiet. Qed.

(** Built messages can be written when the parts given can. *)
Definition spec_ok_parts (sp : message_spec) : Prop := from_option (Forall part_ok) True (sp_parts sp).

Lemma spec_messages_ok uuid4 n role parts sp key peer : Forall part_ok parts -> Forall message_ok (spec_messages now uuid4 n role parts sp key peer).
Proof.
  intros H. unfold spec_messages. destruct (is_tool_result_aggregate role parts); [|by repeat constructor].
  apply Forall_lookup. intros k m Hk. rewrite list_lookup_imap in Hk. destruct (parts !! k) as [part|] eqn:E; [|done]. injection Hk as <-.
  constructor; [|done]. by eapply Forall_lookup_1.
Qed.

Lemma build_spec (P : F -> Prop) uuid4 specs keys all : stable P -> Forall spec_ok_parts specs -> Forall message_ok all ->
  spec (fun w : W => P (w_fs w)) (build_from externalize now uuid4 specs keys all) (fun r w => P (w_fs w) /\ Forall message_ok r) (fun _ w => P (w_fs w)).
Proof.
  intros HP. revert keys all. induction specs as [|sp specs IH]; intros keys all Hs Hall; cbn [build_from]; [by apply spec_ret|].
  apply Forall_cons in Hs as [Hsp Hs]. unfold spec_ok_parts in Hsp. destruct (sp_role sp) as [role|]; [|by apply spec_raise].
  destruct (sp_parts sp) as [parts|]; [|by apply spec_raise]. cbn in Hsp.
  apply spec_bind with (R := fun _ w => P (w_fs w)); [by apply (spec_quiet (files := files) (watched := relevant) P); [apply quiet_lift|]|]. intros key.
  destruct (match key with Some k => mem k keys | None => false end); [by apply IH|].
  apply spec_bind with (R := fun _ w => P (w_fs w)); [by apply (spec_quiet (files := files) (watched := relevant) P); [apply quiet_lift|]|]. intros peer.
  set (l := spec_messages now uuid4 (length all) role parts sp key peer).
  apply spec_bind with (R := fun r w => P (w_fs w) /\ Forall message_ok r).
  - intros w Hw. pose proof (quiet_externalized (files := files) session_uri (watched := relevant) externalize l w) as Hq. unfold externalized in *.
    pose proof (externalize_parts (files := files) l (w_fs w) (spec_messages_ok _ _ _ _ _ _ _ Hsp)) as Hparts.
    destruct (externalize (l, w_fs w)) as [[[]|e] [l' f']]; cbn in *; [|by eapply HP]. split; [by eapply HP|done].
  - intros l' w [Hw Hl']. apply IH; [done|by apply Forall_app|done].
Qed.

Lemma add_spec ids uuid4 specs : Forall spec_ok_parts specs ->
  spec (fun w : W => keeps_ids ids (w_fs w)) (add_messages session_uri session_path externalize now uuid4 specs)
    (fun r w => keeps_ids (ids ++ (m_id <$> r)) (w_fs w)) (fun _ w => keeps_ids ids (w_fs w)).
Proof.
  intros Hs. unfold add_messages. eapply spec_bind; [apply (build_spec (keeps_ids ids)); [intros ? ?; apply same_keeps|done|by constructor]|].
  intros ms w [Hk Hok]. by apply (append_spec ids ms Hok).
Qed.

Lemma quiet_resume run msg i : (forall x, quiet (run x)) -> cm_archive_uri msg = archive_uri_of i ->
  quiet (resume_queued_commit session_id session_uri session_path account_id user_id now run msg).
Proof.
  intros Hrun Hu. unfold resume_queued_commit, read_optional, fail_commit. rewrite Hu. apply quiet_bind; [eauto with quiet|intros status].
  apply quiet_bind; [eauto with quiet|intros [done|]].
  { destruct (bool_decide _); eauto with quiet. }
  apply quiet_bind; [eauto with quiet|intros [content|]]; [eauto with quiet|].
  apply quiet_bind; [apply quiet_ensure|intros [|]]; cbn [negb].
  - apply quiet_bind; [eauto with quiet|intros n]. apply quiet_bind; [apply quiet_can_run|intros [|]]; cbn [negb]; [|eauto with quiet].
    unfold run_archive, read_optional, fail_commit. rewrite Hu. apply quiet_bind; [eauto with quiet|intros content].
    destruct (match content with Some c => _ | None => _ end) as [[|m ms]|e]; [eauto 8 with quiet| |eauto 8 with quiet].
    repeat (apply quiet_bind; [eauto with quiet|intros ?]). eauto with quiet.
  - apply quiet_bind; [|eauto with quiet]. eauto 8 with quiet.
Qed.
End theory.

(** ** Runs of many workers *)

Section runs.
Context {F B : Type} {env : SessionEnv} {FS : SessionFS F} {CB : CommitBackend B}.
Context {files : F -> gmap pystr pystr} {entries : F -> gset pystr} {env_ok : SessionEnvOk} {fs_ok : SessionFSOk F files entries}.
Context (session_id session_uri session_path account_id user_id : pystr) (externalize : ST (list Message * F) unit).
Context {ext_ok : ExternalizeOk files session_uri externalize}.

Abbreviation held := (held (files := files) session_uri).
Abbreviation live_ok := (live_ok (files := files) session_uri).
Abbreviation quiet := (SessionFrame.quiet (B := B) (files := files) (relevant session_uri)).

Definition ids_of (r : result (list Message)) : list pystr := match r with Ok ms => m_id <$> ms | Err _ => [] end.

(** One operation of some worker on the files [f]: with a session object, a queue and
    tracker, a clock and settings of its own, and any outcome.  The list holds the ids of
    the messages it reports as appended. *)
Inductive op_step (f : F) : list pystr -> F -> Prop :=
| step_add (s : session) (b : B) now uuid4 specs r w' :
    Forall spec_ok_parts specs ->
    add_messages session_uri session_path externalize now uuid4 specs (MkWorld s f b) = (r, w') -> op_step f (ids_of r) (w_fs w')
| step_commit (s : session) (b : B) now enabled policy fuel task_id a r w' :
    commit_async session_id session_uri session_path account_id user_id enabled policy externalize now fuel task_id a (MkWorld s f b) = (r, w') ->
    op_step f [] (w_fs w')
| step_recover (s : session) (b : B) now i r w' :
    ensure_phase1_ready session_uri session_path account_id user_id now (archive_uri_of session_uri i) (MkWorld s f b) = (r, w') -> op_step f [] (w_fs w')
| step_resume (s : session) (b : B) now run msg i r w' :
    (forall x, quiet (run x)) -> cm_archive_uri msg = archive_uri_of session_uri i ->
    resume_queued_commit session_id session_uri session_path account_id user_id now run msg (MkWorld s f b) = (r, w') -> op_step f [] (w_fs w')
| step_cancel (s : session) (b : B) now i r w' :
    finalize_cancelled_commit now (archive_uri_of session_uri i) (MkWorld s f b) = (r, w') -> op_step f [] (w_fs w')
| step_merge (s : session) (b : B) now i memories telemetry auto r w' :
    merge_and_save_commit_meta session_uri session_path now i memories telemetry auto (MkWorld s f b) = (r, w') -> op_step f [] (w_fs w')
| step_config (s : session) (b : B) now tags auto upd r w' :
    update_config session_uri session_path now tags auto upd (MkWorld s f b) = (r, w') -> op_step f [] (w_fs w')
| step_load (s : session) (b : B) r w' : load session_uri account_id user_id (MkWorld s f b) = (r, w') -> op_step f [] (w_fs w').

(** [ensure_exists] holds no lock: its calls of the store are steps of their own.  Where a
    creation that found the session missing stands. *)
Inductive creation := FoundMissing | MadeDir | WroteBlank.

Definition creation_call (now : nat -> pystr) (c : creation) : ST (world F B) unit :=
  match c with
  | FoundMissing => on_fs (sf_mkdir session_uri)
  | MadeDir => on_fs (sf_write (live_uri session_uri) [])
  | WroteBlank => save_meta session_uri now 0
  end.
Definition creation_next (c : creation) : list creation :=
  match c with FoundMissing => [MadeDir] | MadeDir => [WroteBlank] | WroteBlank => [] end.

(** A step of the workers: the files, and the creations under way. *)
Inductive step : F * list creation -> list pystr -> F * list creation -> Prop :=
| step_op f cs ids f' : op_step f ids f' -> step (f, cs) ids (f', cs)
| step_look f cs (s : session) (b : B) r w' : session_exists session_uri (MkWorld s f b) = (r, w') ->
    step (f, cs) [] (w_fs w', (match r with Ok false => [FoundMissing] | _ => [] end) ++ cs)
| step_creation f cs c cs' (s : session) (b : B) now r w' : creation_call now c (MkWorld s f b) = (r, w') ->
    step (f, cs ++ c :: cs') [] (w_fs w', cs ++ (if is_ok r then creation_next c else []) ++ cs').

Inductive steps (c : F * list creation) : list pystr -> F * list creation -> Prop :=
| steps_none : steps c [] c
| steps_more ids d ids' e : steps c ids d -> step d ids' e -> steps c (ids ++ ids') e.

Lemma steps_trans c ids d ids' e : steps c ids d -> steps d ids' e -> steps c (ids ++ ids') e.
Proof. intros H1 H2. induction H2 as [|ids' g ids'' e _ IH Hs]; [by rewrite app_nil_r|]. rewrite app_assoc. by econstructor. Qed.

(** [ensure_exists] is a look and, when the session is missing, these calls in turn: run
    without interruption it is a run of these steps. *)
Lemma ensure_exists_steps now (s : session) (b : B) f r w' cs :
  ensure_exists session_uri now (MkWorld s f b) = (r, w') -> steps (f, cs) [] (w_fs w', cs).
Proof.
  change (ensure_exists session_uri now) with (found ← session_exists (B := B) session_uri; if found : bool then mret tt else
    _ ← creation_call now FoundMissing; _ ← creation_call now MadeDir; creation_call now WroteBlank).
  rewrite st_bind_unfold. destruct (session_exists session_uri _) as [r1 [s1 f1 b1]] eqn:E1.
  pose proof (steps_more _ _ _ _ _ (steps_none (f, cs)) (step_look f cs s b r1 _ E1)) as H1. cbn [w_fs app] in H1.
  destruct r1 as [[|]|e]; [by intros [= _ <-]| |by intros [= _ <-]]. cbn [app] in H1.
  rewrite st_bind_unfold. destruct (creation_call now FoundMissing _) as [r2 [s2 f2 b2]] eqn:E2.
  pose proof (steps_more _ _ _ _ _ H1 (step_creation f1 [] FoundMissing cs s1 b1 now r2 _ E2)) as H2. cbn [w_fs app] in H2.
  destruct r2 as [[]|e]; [|by intros [= _ <-]]. cbn [app is_ok creation_next] in H2.
  rewrite st_bind_unfold. destruct (creation_call now MadeDir _) as [r3 [s3 f3 b3]] eqn:E3.
  pose proof (steps_more _ _ _ _ _ H2 (step_creation f2 [] MadeDir cs s2 b2 now r3 _ E3)) as H3. cbn [w_fs app] in H3.
  destruct r3 as [[]|e]; [|by intros [= _ <-]]. cbn [app is_ok creation_next] in H3.
  intros E4. pose proof (steps_more _ _ _ _ _ H3 (step_creation f3 [] WroteBlank cs s3 b3 now r w' E4)) as H4. by destruct r.
Qed.

(** No creation has still to write the live file. *)
Definition all_written (cs : list creation) : Prop := Forall (fun c => c = WroteBlank) cs.

Lemma op_keeps_ids ids f new f' : keeps_ids (files := files) session_uri ids f -> op_step f new f' -> keeps_ids (files := files) session_uri (ids ++ new) f'.
Proof.
  intros Hk Hs.
  assert (forall A (m : ST (world F B) A) s b r w', quiet m -> m (MkWorld s f b) = (r, w') -> keeps_ids (files := files) session_uri (ids ++ []) (w_fs w')) as Hq.
  { intros A m s b r w' Hm E. rewrite app_nil_r. specialize (Hm (MkWorld s f b)). rewrite E in Hm. by eapply same_keeps. }
  destruct Hs as [s b now uuid4 specs r w' Hp E|s b now enabled policy fuel task_id a r w' E|s b now i r w' E|s b now run msg i r w' Hr Hu E|
    s b now i r w' E|s b now i memories telemetry auto r w' E|s b now tags auto upd r w' E|s b r w' E].
  - pose proof (add_spec (files := files) (B := B) session_uri session_path externalize now ids uuid4 specs Hp (MkWorld s f b) Hk) as H. rewrite E in H.
    destruct r as [l|e]; cbn [ids_of]; [exact H|by rewrite app_nil_r].
  - pose proof (commit_spec (files := files) (CB := CB) session_id session_uri session_path account_id user_id enabled policy externalize now ids fuel task_id a
      (MkWorld s f b) Hk) as H. rewrite E, app_nil_r in *. by destruct r.
  - eapply Hq; [|exact E]. apply quiet_ensure.
  - eapply Hq; [|exact E]. by eapply quiet_resume.
  - eapply Hq; [|exact E]. apply (quiet_failed session_uri); apply _.
  - eapply Hq; [|exact E]. apply quiet_merge_commit; apply _.
  - eapply Hq; [|exact E]. apply quiet_config; apply _.
  - eapply Hq; [|exact E]. apply quiet_load.
Qed.

(** What holds between any two steps. *)
Definition safe (ids : list pystr) (c : F * list creation) : Prop := keeps_ids (files := files) session_uri ids c.1 /\ all_written c.2.

Lemma step_safe ids c new c' : safe ids c -> step c new c' -> safe (ids ++ new) c'.
Proof.
  intros [Hk Hc] Hs. destruct Hs as [f cs ids' f' Hop|f cs s b r w' E|f cs st cs' s b now r w' E]; cbn [fst snd] in *.
  - split; [by eapply op_keeps_ids|done].
  - pose proof (exists_found (files := files) (entries := entries) session_uri (MkWorld s f b) r w' (proj1 Hk) E) as Hr.
    pose proof (quiet_session_exists (files := files) (entries := entries) (B := B) session_uri (MkWorld s f b)) as Hq. rewrite E in Hq.
    rewrite app_nil_r. split; [by eapply same_keeps|]. by destruct r as [[|]|].
  - apply Forall_app in Hc as [Hc1 [-> Hc2]%Forall_cons]. rewrite app_nil_r. split.
    + pose proof (quiet_save_meta (files := files) (entries := entries) (B := B) session_uri (watched := relevant session_uri) now 0 (MkWorld s f b)) as Hq.
      cbn [creation_call] in E. rewrite E in Hq. by eapply same_keeps.
    + apply Forall_app. split; [done|]. by destruct (is_ok r).
Qed.

Lemma steps_safe known c ids c' : safe known c -> steps c ids c' -> safe (known ++ ids) c'.
Proof. intros Hc Hs. induction Hs as [|ids d ids' e Hs IH Hstep]; [by rewrite app_nil_r|]. rewrite app_assoc. by eapply step_safe. Qed.

End runs.
