(* ===== verification/SessionDelivery.v ===== *)
(** Appends: a message with a deduplication key is appended at most once over every run,
    and the count of tokens that wait for the next commit is the one a recount gives. *)
From Stdlib Require Import NArith ZArith.
From S2P Require Import Prelude Effects PyStr PyVal Identifiers WorkIndex TaskRecord Tokens Message Retention SessionPolicy SessionMeta Session SessionFiles SessionArchives SessionFrame SessionTheory.

Open Scope N_scope.

Lemma NoDup_filter_none (l : list pystr) : (forall id, id ∈ l -> is_delivery id <> true) -> NoDup (filter (fun id => is_delivery id = true) l).
Proof.
  intros H. induction l as [|x l IH]; [constructor|]. rewrite filter_cons_False by (apply H; by left). apply IH. intros id Hid. apply H. by right.
Qed.

Section delivery.
Context {F B : Type} {env : SessionEnv} {FS : SessionFS F} {CB : CommitBackend B}.
Context {files : F -> gmap pystr pystr} {entries : F -> gset pystr} {env_ok : SessionEnvOk} {fs_ok : SessionFSOk F files entries}.
Context (session_id session_uri session_path account_id user_id : pystr) (externalize : ST (list Message * F) unit).
Context {ext_ok : ExternalizeOk files session_uri externalize}.

Abbreviation W := (world F B).
Abbreviation held := (held (files := files) session_uri).
Abbreviation live_ids := (live_ids (files := files) session_uri).
Abbreviation archive_ids := (archive_ids (files := files)).
Abbreviation live_ok := (live_ok (files := files) session_uri).
Abbreviation keeps_ids := (keeps_ids (files := files) session_uri).

(** Reads, listings and locks leave the names alone, and so does externalization outside its own
    directory. *)
Class NamesFS : Prop := {
  read_names : forall uri s, entries (sf_read uri s).2 = entries s;
  ls_names : forall uri s, entries (sf_ls uri s).2 = entries s;
  lock_names : forall path s, entries (sf_lock path s).2 = entries s;
  externalize_names : forall ms s p, ~ (session_uri ++ u "/tool-results") `prefix_of` p -> p ∈ entries (externalize (ms, s)).2.2 <-> p ∈ entries s }.
Context {names_ok : NamesFS}.

Definition short_history (f : F) : Prop := short_dir (history_uri session_uri) (entries f).

(** New messages: those with a key are not held, and none comes twice. *)
Definition new_keys (f : F) (ids : list pystr) : Prop :=
  (forall id, id ∈ ids -> is_delivery id = true -> ~ held f id) /\ NoDup (filter (fun id => is_delivery id = true) ids).

Lemma filter_loop_new groups ms d :
  let r := m_id <$> filter_loop groups ms d in
  (forall id, id ∈ r -> is_delivery id = true -> id ∉ d) /\ NoDup (filter (fun id => is_delivery id = true) r).
Proof.
  cbn zeta. revert d. induction ms as [|m ms IH]; intros d; cbn [filter_loop].
  { split; [by intros id ?%elem_of_nil|constructor]. }
  destruct (is_delivery (m_id m)) eqn:Ed.
  - destruct (mem (m_id m) d) eqn:Em; cbn [orb]; [apply IH|]. destruct (mem _ groups); [apply IH|].
    apply bool_decide_eq_false in Em. destruct (IH (m_id m :: d)) as [H1 H2]. rewrite fmap_cons. split.
    + intros id [->|Hid]%elem_of_cons Hd; [done|]. specialize (H1 id Hid Hd). rewrite elem_of_cons in H1. tauto.
    + rewrite filter_cons_True by done. constructor; [|done]. intros [_ Hin]%list_elem_of_filter. apply (H1 _ Hin Ed). by left.
  - destruct (IH d) as [H1 H2]. rewrite fmap_cons. split.
    + intros id [->|Hid]%elem_of_cons Hd; [congruence|by apply H1].
    + by rewrite filter_cons_False by congruence.
Qed.

(** The files and names as they are in [f]. *)
Definition unchanged (f : F) (w : W) : Prop := files (w_fs w) = files f /\ entries (w_fs w) = entries f.

Lemma unchanged_read f p : spec (unchanged f) (on_fs (sf_read p)) (fun c w => unchanged f w /\ files f !! p = Some c)
  (fun e w => unchanged f w /\ (e = NotFoundError -> files f !! p = None)).
Proof.
  intros w [Hw He]. unfold on_fs, unchanged in *. destruct (fs_read_ok (files := files) p (w_fs w)) as [Hf Hr]. pose proof (read_names p (w_fs w)) as Hn.
  destruct (sf_read p (w_fs w)) as [[c|e] f']; cbn [fst snd w_fs] in *; rewrite <- Hw, <- He; (split; [done|]); [done|]. by intros ->.
Qed.

Lemma find_delivered_spec f wanted refs d :
  spec (unchanged f) (find_delivered wanted refs d)
    (fun d' _ => (forall id, id ∈ d -> id ∈ d') /\ ((forall id, id ∈ wanted -> id ∈ d') \/ forall r id, r ∈ refs -> id ∈ archive_ids f (ar_uri r) -> id ∈ d'))
    (fun _ _ => True).
Proof.
  revert d. induction refs as [|r refs IH]; intros d; cbn [find_delivered].
  { apply spec_ret. intros w _. split; [done|]. right. by intros r id ?%elem_of_nil. }
  apply spec_bind with (R := fun ms w => unchanged f w /\ archive_ids f (ar_uri r) = m_id <$> ms).
  { unfold read_archive_messages. eapply spec_bind; [eapply spec_conseq; [apply (unchanged_read f)|done|intros c w H; exact H|done]|]. intros c. cbn beta.
    apply spec_lift; [|done]. intros ms w Hp [Hw Hc]. split; [done|]. unfold SessionTheory.archive_ids. by rewrite Hc, Hp. }
  intros ms. destruct (forallb _ _) eqn:Ef.
  - apply spec_ret. intros w _. split; [intros id Hid; apply elem_of_app; by right|]. left. intros id Hid.
    rewrite forallb_forall in Ef. apply (bool_decide_eq_true_1 _), Ef. by apply list_elem_of_In.
  - intros w [Hw Ha]. specialize (IH ((m_id <$> ms) ++ d) w Hw). destruct (find_delivered _ _ _ w) as [[d'|e] w']; [|done].
    destruct IH as [H1 H2]. split; [intros id Hid; apply H1, elem_of_app; by right|]. destruct H2 as [H2|H2]; [by left|]. right.
    intros r' id [->|Hr]%elem_of_cons Hid; [|by eapply H2]. apply H1, elem_of_app. left. by rewrite <- Ha.
Qed.

Lemma refs_all f : short_history f -> spec (unchanged f) (list_archive_refs session_uri true)
  (fun refs w => unchanged f w /\ forall i id, id ∈ archive_ids f (archive_uri_of session_uri i) -> exists r, r ∈ refs /\ ar_uri r = archive_uri_of session_uri i)
  (fun _ _ => True).
Proof.
  intros Hshort w [Hw He]. unfold list_archive_refs, st_catch. rewrite st_bind_unfold. unfold on_fs.
  destruct (fs_ls_ok (files := files) (entries := entries) (history_uri session_uri) (w_fs w)) as [Hf Hn].
  assert (forall i id, id ∈ archive_ids f (archive_uri_of session_uri i) -> child (history_uri session_uri) (entries (w_fs w)) (ARCHIVE_PREFIX ++ pad3 i)) as Hentry.
  { intros i id Hid. split.
    - rewrite elem_of_app. intros [H|H]; revert H; [apply (bool_decide_eq_false_1 _); by vm_compute|].
      apply digits_clean; [apply pad3_digits|]. left. by vm_compute.
    - unfold SessionTheory.archive_ids in Hid. destruct (files f !! archive_messages_uri (archive_uri_of session_uri i)) as [p|] eqn:E; [|by apply elem_of_nil in Hid].
      apply (fs_parent (FS := FS) (files := files) (w_fs w) _ (u "messages.jsonl")). apply (fs_entry (FS := FS) (files := files)). rewrite Hw.
      unfold archive_messages_uri in E. replace ([c_slash] ++ u "messages.jsonl") with (u "/messages.jsonl") by by vm_compute. exists p. exact E. }
  pose proof (ls_names (history_uri session_uri) (w_fs w)) as Hnames.
  destruct (sf_ls (history_uri session_uri) (w_fs w)) as [[names|e] f']; cbn [fst snd] in *.
  - destruct Hn as (Hnd & Hsub & Hall). rewrite He in Hsub. specialize (Hall (Hshort names Hnd Hsub)).
    cbn. split; [split; cbn; congruence|]. intros i id Hid. destruct (ref_of_archive (history_uri session_uri) i) as (z & Hz).
    exists (MkRef (ARCHIVE_PREFIX ++ pad3 i) (archive_uri_of session_uri i) z). split; [|done]. apply sort_refs_in, list_elem_of_omap. exists (ARCHIVE_PREFIX ++ pad3 i). split; [|exact Hz].
    apply Hall; [by eapply Hentry|]. by vm_compute.
  - destruct e; cbn; try done. split; [split; cbn; congruence|]. intros i id Hid. exfalso. eapply Hn, Hentry, Hid.
Qed.

(** ** Appending once *)

Lemma drop_delivered_new f ms : short_history f ->
  spec (fun w : W => unchanged f w /\ live_ids f = m_id <$> s_messages (w_self w)) (drop_delivered session_uri ms)
    (fun r _ => new_keys f (m_id <$> r)) (fun _ _ => True).
Proof.
  intros Hshort. unfold drop_delivered. destruct (existsb _ _) eqn:Ex.
  2:{ apply spec_ret. intros w _. assert (forall id, id ∈ (m_id <$> ms) -> is_delivery id <> true) as Hno.
      { intros id (m & -> & Hm)%list_elem_of_fmap Hd. assert (existsb (fun m => is_delivery (m_id m)) ms = true); [|congruence].
        apply existsb_exists. exists m. split; [by apply list_elem_of_In|done]. }
      split; [intros id Hid Hd; by apply Hno in Hid|]. apply NoDup_filter_none. exact Hno. }
  apply spec_bind with (R := fun live w => unchanged f w /\ live_ids f = m_id <$> live); [by apply spec_gets|]. intros live.
  set (wanted := filter _ (m_id <$> ms)).
  apply spec_bind with (R := fun d _ => (forall id, id ∈ live_ids f -> id ∈ d)
    /\ ((forall id, id ∈ wanted -> id ∈ d) \/ forall i id, id ∈ archive_ids f (archive_uri_of session_uri i) -> id ∈ d)
    /\ live_ids f = m_id <$> live).
  - destruct wanted as [|x ids] eqn:Ew.
    { apply spec_ret. intros w [_ Hl]. rewrite Hl. split_and!; [done| |done]. left. by intros id ?%elem_of_nil. }
    apply spec_bind with (R := fun refs w => (unchanged f w /\ forall i id, id ∈ archive_ids f (archive_uri_of session_uri i) ->
      exists r, r ∈ refs /\ ar_uri r = archive_uri_of session_uri i) /\ live_ids f = m_id <$> live).
    { intros w [Hw Hl]. pose proof (refs_all f Hshort w Hw) as H. by destruct (list_archive_refs session_uri true w) as [[?|?] ?]. }
    intros refs w [[Hw Hr] Hl]. pose proof (find_delivered_spec f (x :: ids) refs (m_id <$> live) w Hw) as H.
    destruct (find_delivered _ _ _ w) as [[d|e] w']; [|done]. destruct H as [H1 H2]. split_and!; [intros id; rewrite Hl; apply H1| |done].
    destruct H2 as [H2|H2]; [by left|right]. intros i id Hid. destruct (Hr i id Hid) as (r & Hin & Hu). eapply H2; [exact Hin|]. by rewrite Hu.
  - intros d. apply spec_ret. intros w (Hlive & Hrest & Hl). destruct (filter_loop_new (rsplit_head <$> filter (fun id => is_delivery id = true) d) ms d) as [H1 H2].
    split; [|exact H2]. intros id Hid Hd [Hh|(i & Hh)]; [by eapply H1, Hlive|]. destruct Hrest as [Hwant|Harch]; [|by eapply H1, Harch].
    eapply (H1 id Hid Hd), Hwant. apply list_elem_of_filter. split.
    + apply bool_decide_eq_false_2. intros Hin. apply (H1 id Hid Hd), Hlive. by rewrite Hl.
    + apply list_elem_of_fmap in Hid as (m & -> & Hm). apply list_elem_of_fmap. exists m. split; [done|]. eapply elem_of_sublist; [exact Hm|apply filter_loop_sub].
Qed.

Lemma locked_files {A} f (body : ST W A) (Q : A -> Prop) :
  spec (unchanged f) body (fun a _ => Q a) (fun _ _ => True) -> spec (unchanged f) (locked session_path body) (fun a _ => Q a) (fun _ _ => True).
Proof.
  intros Hb. unfold locked. apply spec_bind with (R := fun _ w => unchanged f w).
  { intros w [Hw He]. unfold on_fs, unchanged in *. pose proof (fs_lock_ok (files := files) session_path (w_fs w)) as H. pose proof (lock_names session_path (w_fs w)) as Hn.
    destruct (sf_lock session_path (w_fs w)) as [[?|?] f']; [|done]. cbn in *. by rewrite H, Hn. }
  intros l w Hw. specialize (Hb w Hw). unfold st_finally. destruct (body w) as [r w']. destruct (on_fs _ w') as [[?|?] w'']; [|done]. by destruct r.
Qed.

(** The object's copy of the live messages. *)
Definition copied (f : F) (w : W) : Prop := unchanged f w /\ live_ids f = m_id <$> s_messages (w_self w).

Lemma reload_copies f : spec (unchanged f) (reload_live session_uri) (fun _ w => copied f w) (fun _ _ => True).
Proof.
  unfold reload_live, read_live_messages_strict. eapply spec_catch with (E1 := fun e w => unchanged f w /\ (e = NotFoundError -> files f !! live_uri session_uri = None)); [|intros e He|done].
  - apply spec_bind with (R := fun ms w => unchanged f w /\ live_ids f = m_id <$> ms).
    { eapply spec_bind; [apply (unchanged_read f)|]. intros c. cbn beta. apply spec_lift.
      - intros ms w Hp [Hw Hc]. split; [done|]. unfold SessionTheory.live_ids. by rewrite Hc, Hp.
      - intros e w Hp [Hw _]. split; [done|]. intros ->. unfold parse_live in Hp. by destruct (parse_lines _). }
    intros ms. apply spec_bind with (R := fun _ w => copied f w); [by apply spec_modify|]. intros _. by apply spec_ret.
  - destruct e; try done. apply spec_bind with (R := fun _ w => copied f w); [|intros _; by apply spec_ret].
    apply spec_modify. intros w [Hw Hn]. split; [done|]. unfold SessionTheory.live_ids. by rewrite (Hn eq_refl).
Qed.

Lemma reload_meta_copied f : spec (copied f) (attempt (reload_meta session_uri)) (fun _ w => copied f w) (fun _ _ => True).
Proof.
  unfold attempt. apply spec_catch with (E1 := fun _ w => copied f w); [|by intros e _; apply spec_ret|done]. unfold reload_meta.
  apply spec_bind with (R := fun _ w => copied f w).
  { intros w [Hw Hl]. pose proof (unchanged_read f (meta_uri session_uri) w Hw) as H. unfold on_fs, copied in *.
    destruct (sf_read _ _) as [[?|?] ?]; (split; [apply H|exact Hl]). }
  intros c. apply spec_bind with (R := fun _ w => copied f w); [by apply spec_lift|]. intros m. by apply spec_modify.
Qed.

Lemma append_new f now ms : short_history f -> spec (unchanged f) (append_messages session_uri session_path now ms) (fun r _ => new_keys f (m_id <$> r)) (fun _ _ => True).
Proof.
  intros Hshort. assert (new_keys f []) as Hnil by (split; [by intros id ?%elem_of_nil|constructor]).
  unfold append_messages. destruct ms as [|m ms]; [by apply spec_ret|].
  apply (locked_files f _ (fun r => new_keys f (m_id <$> r))). eapply spec_bind; [apply reload_copies|]. intros missing.
  eapply spec_bind; [apply reload_meta_copied|]. intros []. eapply spec_bind; [by apply drop_delivered_new|]. intros r.
  destruct r as [|x r]; [by apply spec_ret|]. set (l := x :: r).
  do 3 (apply spec_bind with (R := fun _ _ => new_keys f (m_id <$> l)); [apply spec_pure|intros _]). by apply spec_ret.
Qed.

Lemma same_new f g ids : same (files := files) (relevant session_uri) f g -> new_keys g ids -> new_keys f ids.
Proof. intros H [H1 H2]. split; [|done]. intros id Hid Hd Hh. apply (H1 id Hid Hd). by eapply same_held. Qed.

(** Building the messages writes tool results at most. *)
Lemma short_build now uuid4 specs keys all :
  spec (fun w : W => short_history (w_fs w)) (build_from externalize now uuid4 specs keys all) (fun _ w => short_history (w_fs w)) (fun _ _ => True).
Proof.
  revert keys all. induction specs as [|sp specs IH]; intros keys all; cbn [build_from]; [by apply spec_ret|].
  destruct (sp_role sp) as [role|]; [|by apply spec_raise]. destruct (sp_parts sp) as [parts|]; [|by apply spec_raise].
  apply spec_bind with (R := fun _ w => short_history (w_fs w)); [by apply spec_lift|]. intros key.
  destruct (match key with Some k => mem k keys | None => false end); [apply IH|].
  apply spec_bind with (R := fun _ w => short_history (w_fs w)); [by apply spec_lift|]. intros peer.
  apply spec_bind with (R := fun _ w => short_history (w_fs w)); [|intros l; apply IH]. set (l := spec_messages _ _ _ _ _ _ _ _).
  intros w Hw. unfold externalized. pose proof (externalize_names l (w_fs w)) as Hn. destruct (externalize (l, w_fs w)) as [[[]|e] [l' f']]; [|done]. cbn [fst snd w_fs] in *.
  intros names Hnd Hsub. apply Hw; [done|]. intros n Hin. destruct (Hsub n Hin) as [H1 H2]. split; [done|]. apply Hn; [|done].
  intros [x Hx]. unfold history_uri in Hx. rewrite <- !app_assoc in Hx. apply app_inv_head in Hx. revert Hx. literal_neq.
Qed.

Lemma add_new f now uuid4 specs : Forall spec_ok_parts specs -> short_history f ->
  spec (fun w : W => w_fs w = f) (add_messages session_uri session_path externalize now uuid4 specs) (fun r _ => new_keys f (m_id <$> r)) (fun _ _ => True).
Proof.
  intros Hs Hshort. unfold add_messages. apply spec_bind with (R := fun _ w => same (files := files) (relevant session_uri) f (w_fs w) /\ short_history (w_fs w)).
  { assert (stable (files := files) (relevant session_uri) (same (files := files) (relevant session_uri) f)) as Hst by (intros g h Hgh Hfg; by eapply same_trans).
    intros w Hw. pose proof (short_build now uuid4 specs [] [] w) as H2.
    pose proof (build_spec (files := files) (B := B) session_uri externalize now (same (files := files) (relevant session_uri) f) uuid4 specs [] [] Hst Hs ltac:(by constructor) w) as H1.
    cbn beta in *. rewrite Hw in H1, H2. specialize (H1 ltac:(apply same_refl)). specialize (H2 Hshort).
    destruct (build_from _ _ _ _ _ _ w) as [[r|e] w']; [|done]. by destruct H1. }
  intros ms w [Hw Hsw]. pose proof (append_new (w_fs w) now ms Hsw w (conj eq_refl eq_refl)) as H. destruct (append_messages _ _ _ _ w) as [[r|e] w']; [|done]. by eapply same_new.
Qed.

Abbreviation step := (step (files := files) (B := B) session_id session_uri session_path account_id user_id externalize).
Abbreviation steps := (steps (files := files) (B := B) session_id session_uri session_path account_id user_id externalize).

Lemma step_new c ids c' : short_history c.1 -> step c ids c' -> new_keys c.1 ids.
Proof.
  intros Hshort Hs. assert (new_keys c.1 []) as Hnil by (split; [by intros id ?%elem_of_nil|constructor]).
  destruct Hs as [f cs ids f' Hs| |]; [|exact Hnil..]. destruct Hs as [s b now uuid4 specs r w' Hp E| | | | | | |]; try exact Hnil.
  pose proof (add_new f now uuid4 specs Hp Hshort (MkWorld s f b) eq_refl) as H. rewrite E in H. by destruct r.
Qed.

(** Runs in which the history stays short. *)
Inductive short_steps (c : F * list creation) : list pystr -> F * list creation -> Prop :=
| short_none : short_steps c [] c
| short_more ids d ids' e : short_steps c ids d -> short_history d.1 -> step d ids' e -> short_steps c (ids ++ ids') e.

Lemma short_are_steps c ids c' : short_steps c ids c' -> steps c ids c'.
Proof. induction 1 as [|ids d ids' e _ IH _ Hs]; [constructor|by econstructor]. Qed.

End delivery.

(** ** Pending tokens *)

Section pending.
Context {env : SessionEnv}.

Abbreviation tokens := (tokens_of (fun d => json_dumps (VDict d))).

(** The stored count is what a recount over the messages gives. *)
Definition pending_exact (s : session) : Prop := sm_pending_tokens (s_meta s) = calculate_pending_tokens (s_messages s) (s_meta s).

Lemma sum_tokens_cons m l : sum_tokens (m :: l) = (tokens m + sum_tokens l)%Z.
Proof. done. Qed.

Lemma sum_tokens_app l l' : sum_tokens (l ++ l') = (sum_tokens l + sum_tokens l')%Z.
Proof. induction l as [|m l IH]; [done|]. rewrite <- app_comm_cons, !sum_tokens_cons, IH. lia. Qed.

Lemma sum_tokens_nonneg l : (0 <= sum_tokens l)%Z.
Proof. induction l as [|m l IH]; [done|]. rewrite sum_tokens_cons. assert (0 <= tokens m)%Z by (unfold tokens_of; lia). lia. Qed.

Lemma calculate_nonneg ms meta : (0 <= calculate_pending_tokens ms meta)%Z.
Proof. unfold calculate_pending_tokens. cbn zeta. repeat case_match; first [apply sum_tokens_nonneg | done]. Qed.

(** Without turns, the messages before the window of the last [keep]. *)
Lemma calculate_window ms meta : turn_budget_mode meta = false ->
  calculate_pending_tokens ms meta = sum_tokens (take (length ms - Z.to_nat (sm_keep_recent_count meta)) ms).
Proof.
  intros Ht. unfold calculate_pending_tokens. rewrite Ht. cbn [andb]. destruct (Z.leb_spec (Z.max 0 (sm_keep_recent_count meta)) 0).
  - rewrite firstn_all2; [done|lia].
  - destruct (Z.ltb_spec (Z.max 0 (sm_keep_recent_count meta)) (Z.of_nat (length ms))).
    + f_equal. f_equal. lia.
    + replace (length ms - _)%nat with 0%nat by lia. done.
Qed.

Lemma push_exact s m : turn_budget_mode (s_meta s) = false -> pending_exact s ->
  pending_exact (push_message s m) /\ turn_budget_mode (s_meta (push_message s m)) = false /\ s_messages (push_message s m) = s_messages s ++ [m].
Proof.
  intros Ht Hp. unfold push_message. cbn [set_messages add_stats s_meta s_messages]. rewrite Ht.
  unfold pending_exact in Hp. rewrite calculate_window in Hp by done. set (keep := sm_keep_recent_count (s_meta s)) in *.
  assert (forall s', s_meta s' = set_pending_tokens (sm_pending_tokens (s_meta s')) (s_meta s) -> s_messages s' = s_messages s ++ [m] ->
    sm_pending_tokens (s_meta s') = sum_tokens (take (length (s_messages s ++ [m]) - Z.to_nat keep) (s_messages s ++ [m])) ->
    pending_exact s' /\ turn_budget_mode (s_meta s') = false /\ s_messages s' = s_messages s ++ [m]) as Hdone.
  { intros s' Hm Hms Hpt. assert (turn_budget_mode (s_meta s') = false) as Ht' by (by rewrite Hm). split_and!; [|done|done].
    unfold pending_exact. rewrite calculate_window by done. rewrite Hpt, Hms. by rewrite Hm. }
  rewrite length_app in *. cbn [length] in *. assert (forall x, s_meta x = set_pending_tokens (sm_pending_tokens (s_meta x)) (s_meta x)) as Hid by (intros [? ? ? ? ? ? ? ? ? [] ?]; done).
  destruct (Z.leb_spec keep 0) as [Hk|Hk].
  - apply Hdone; [done|done|]. cbn. rewrite Hp, !firstn_all2 by (rewrite ?length_app; cbn; lia). rewrite sum_tokens_app. cbn. lia.
  - destruct (Z.ltb_spec keep (Z.of_nat (length (s_messages s) + 1))) as [Hl|Hl].
    + destruct (lookup_lt_is_Some_2 (s_messages s) (length (s_messages s) - Z.to_nat keep)) as (x & Hx); [lia|].
      replace (length (s_messages s) + 1 - Z.to_nat (keep + 1))%nat with (length (s_messages s) - Z.to_nat keep)%nat by lia.
      rewrite lookup_app_l by lia. rewrite Hx. apply Hdone; [done|done|]. cbn. rewrite Hp.
      replace (length (s_messages s) + 1 - Z.to_nat keep)%nat with (S (length (s_messages s) - Z.to_nat keep)) by lia.
      rewrite take_app_le by lia. rewrite (take_S_r _ _ _ Hx), sum_tokens_app. cbn. lia.
    + apply Hdone; [exact (Hid s)|done|]. cbn. rewrite Hp.
      replace (length (s_messages s) - Z.to_nat keep)%nat with 0%nat by lia. by replace (length (s_messages s) + 1 - Z.to_nat keep)%nat with 0%nat by lia.
Qed.

Lemma push_turn s m : turn_budget_mode (s_meta s) = true ->
  turn_budget_mode (s_meta (push_message s m)) = true /\ s_messages (push_message s m) = s_messages s ++ [m].
Proof. intros Ht. unfold push_message. cbn [set_messages add_stats s_meta s_messages]. by rewrite Ht. Qed.

Lemma push_all s batch : pending_exact s ->
  let s' := foldl push_message s batch in
  s_messages s' = s_messages s ++ batch /\ (turn_budget_mode (s_meta s') = false -> pending_exact s').
Proof.
  cbn zeta. destruct (turn_budget_mode (s_meta s)) eqn:Ht; intros Hp.
  - assert (turn_budget_mode (s_meta (foldl push_message s batch)) = true /\ s_messages (foldl push_message s batch) = s_messages s ++ batch) as [-> ?]; [|done].
    clear Hp. revert s Ht. induction batch as [|m l IH]; intros s Ht; cbn [foldl]; [by rewrite app_nil_r|].
    destruct (push_turn s m Ht) as [H1 H2]. destruct (IH _ H1) as [H3 H4]. split; [done|]. by rewrite H4, H2, <- app_assoc.
  - revert s Ht Hp. induction batch as [|m l IH]; intros s Ht Hp; cbn [foldl]; [by rewrite app_nil_r|].
    destruct (push_exact s m Ht Hp) as (H1 & H2 & H3). destruct (IH _ H2 H1) as [H4 H5]. split; [|done]. by rewrite H4, H3, <- app_assoc.
Qed.

(** An assignment of the metadata that the recount does not look at. *)
Lemma exact_upd f s ms :
  (forall m, sm_pending_tokens (f m) = sm_pending_tokens m /\ forall l, calculate_pending_tokens l (f m) = calculate_pending_tokens l m) ->
  pending_exact s /\ s_messages s = ms -> pending_exact (upd_meta f s) /\ s_messages (upd_meta f s) = ms.
Proof. intros Hf [H1 H2]. split; [|done]. unfold pending_exact in *. cbn. destruct (Hf (s_meta s)) as [-> ->]. done. Qed.

(** C31: the pending-token count that appends maintain message by message is the count over
    all live messages: with a window of recent messages each append adds the tokens of
    the message that leaves the window, and a turn budget recounts, so the stored count
    stays what [_calculate_pending_tokens] gives, for every batch and every setting. *)
Theorem appended_pending_exact (now : pystr) (batch : list Message) (s : session) :
  pending_exact s ->
  pending_exact (apply_appended_messages now batch s) /\ s_messages (apply_appended_messages now batch s) = s_messages s ++ batch.
Proof.
  intros Hp. unfold apply_appended_messages. destruct (push_all s batch Hp) as [Hm He]. set (s1 := foldl push_message s batch) in *. clearbody s1.
  assert (pending_exact (if turn_budget_mode (s_meta s1) then rebuild_pending_tokens s1 else s1)
    /\ s_messages (if turn_budget_mode (s_meta s1) then rebuild_pending_tokens s1 else s1) = s_messages s ++ batch) as H2.
  { destruct (turn_budget_mode (s_meta s1)); [|split; [by apply He|done]]. split; [|done]. unfold pending_exact, rebuild_pending_tokens. cbn.
    apply Z.max_r, calculate_nonneg. }
  cbn zeta. set (s2 := if turn_budget_mode _ then _ else _) in *. clearbody s2.
  destruct batch; [|apply exact_upd; [done|]]; by do 2 (apply exact_upd; [done|]).
Qed.
End pending.
