(* ===== verification/SessionRecovery.v ===== *)
(** Recovery of interrupted commits: a commit that was cut off anywhere in Phase 1 is
    settled by whoever meets its archive next, and the live file and the archive then hold
    what the commit meant, or the live file holds what it held before. *)
From Stdlib Require Import NArith ZArith.
From S2P Require Import Prelude Effects PyStr PyVal Identifiers WorkIndex TaskRecord Tokens Message Retention SessionPolicy SessionMeta Session SessionFiles SessionFrame SessionTheory.

Open Scope N_scope.

(** ** The test for a completed rewrite *)

Lemma applied_exact retained archived live :
  phase1_applied retained archived live = true <->
  take (length retained) (m_id <$> live) = retained /\ forall id, id ∈ archived -> id ∈ retained \/ id ∉ (m_id <$> live).
Proof.
  unfold phase1_applied. rewrite andb_true_iff, bool_decide_eq_true, forallb_forall. apply and_iff_compat_l. split.
  - intros H id Hid. specialize (H id (proj1 (list_elem_of_In _ _) Hid)). apply orb_true_iff in H as [H|H].
    + left. by apply bool_decide_eq_true in H.
    + right. apply negb_true_iff, bool_decide_eq_false in H. done.
  - intros H id Hid%list_elem_of_In. apply orb_true_iff. destruct (H id Hid) as [Hr|Hr].
    + left. by apply bool_decide_eq_true.
    + right. by apply negb_true_iff, bool_decide_eq_false.
Qed.

Section applied.
Context (L A R X : list pystr).
Context (Hcov : forall id, id ∈ L <-> id ∈ A \/ id ∈ R) (Hnew : forall id, id ∈ X -> id ∉ L).

(** The rewritten file passes, whatever was appended. *)
Lemma rewritten_applied live : m_id <$> live = R ++ X -> phase1_applied R A live = true.
Proof.
  intros Hl. apply applied_exact. rewrite Hl, take_app_length. split; [done|]. intros id Hid.
  destruct (decide (id ∈ R)) as [Hr|Hr]; [by left|]. right. intros [H|H]%elem_of_app; [done|]. apply (Hnew id H), Hcov. by left.
Qed.

(** The original file passes only when the rewrite would not change it. *)
Lemma original_applied live : NoDup L -> m_id <$> live = L ++ X -> phase1_applied R A live = true -> L = R.
Proof.
  intros Hnd Hl [Ht Ha]%applied_exact. rewrite Hl in Ht.
  assert (forall id, id ∈ L -> id ∈ R) as HLR.
  { intros id Hid. destruct (proj1 (Hcov id) Hid) as [H|H]; [|done]. destruct (Ha id H) as [?|Hn]; [done|]. exfalso. apply Hn. rewrite Hl. apply elem_of_app. by left. }
  destruct (decide (length R <= length L)%nat) as [Hle|Hgt].
  - rewrite take_app_le in Ht by done. rewrite <- (take_drop (length R) L), Ht in Hnd.
    destruct (drop (length R) L) as [|x l] eqn:Ed.
    + rewrite <- Ht. rewrite <- (take_drop (length R) L) at 1. by rewrite Ed, app_nil_r.
    + exfalso. apply NoDup_app in Hnd as (_ & Hd & _). apply (Hd x); [|by left]. apply HLR. rewrite <- (take_drop (length R) L), Ed. apply elem_of_app. right. by left.
  - rewrite take_app_ge in Ht by lia. destruct (take (length R - length L) X) as [|x l] eqn:Ex; [by rewrite app_nil_r in Ht|].
    exfalso. assert (x ∈ X) as Hx by (rewrite <- (take_drop (length R - length L) X), Ex; by left). apply (Hnew x Hx), Hcov. right. rewrite <- Ht.
    apply elem_of_app. right. by left.
Qed.
End applied.

(** Reads that fail only for missing files, or are cancelled; reading and locking create no
    failure marker. *)
Class ReliableFS {F} {FS : SessionFS F} (files : F -> gmap pystr pystr) (entries : F -> gset pystr) : Prop := {
  read_exact : forall uri s, (sf_read uri s).1 = Err CancelledError \/ (sf_read uri s).1 = from_option Ok (Err NotFoundError) (files s !! uri);
  read_entries : forall uri s a, failed_uri a ∈ entries (sf_read uri s).2 -> failed_uri a ∈ entries s;
  lock_entries : forall path s a, failed_uri a ∈ entries (sf_lock path s).2 -> failed_uri a ∈ entries s }.

Section recovery.
Context {F B : Type} {env : SessionEnv} {FS : SessionFS F} {CB : CommitBackend B}.
Context {files : F -> gmap pystr pystr} {entries : F -> gset pystr} {env_ok : SessionEnvOk} {fs_ok : SessionFSOk F files entries}.
Context {reliable : ReliableFS files entries}.
Context (session_uri session_path account_id user_id : pystr).

Abbreviation W := (world F B).
Abbreviation live_uri := (Session.live_uri session_uri).
Abbreviation archive_uri_of := (Session.archive_uri_of session_uri).
Abbreviation live_ids := (live_ids (files := files) session_uri).
Abbreviation archive_ids := (archive_ids (files := files)).
Abbreviation same := (SessionFrame.same (files := files) (relevant session_uri)).

(** ** What an interrupted commit leaves *)

Section archive.
Context (i : Z) (task_id : pystr) (L A R X : list pystr).

Abbreviation uri := (archive_uri_of i).

(** The marker of the commit in the archive's metadata. *)
Definition marker_ok (status : pystr) (m : pydict) : Prop :=
  get_or_none m (u "status") = VStr status /\ get_or_none m (u "retained_message_ids") = VList (VStr <$> R)
  /\ get_or_none m (u "archived_message_ids") = VList (VStr <$> A) /\ marker_task_id m = VStr task_id.
Definition marked (status : pystr) (f : F) : Prop :=
  exists c d m, files f !! archive_meta_uri uri = Some c /\ parse_object c = Ok d /\ get_or_none d (u "phase1") = VDict m /\ marker_ok status m.

Definition live_is (ids : list pystr) (f : F) : Prop :=
  exists c ms, files f !! live_uri = Some c /\ parse_live c = Ok ms /\ m_id <$> ms = ids.
Definition archived (f : F) : Prop := archive_ids f uri = A.

(** Before the live file was rewritten, after it, and after the marker was set. *)
Definition undone (f : F) (b : B) : Prop :=
  marked (u "preparing") f /\ live_is (L ++ X) f /\ (cb_has_work b task_id = true -> archived f).
Definition rewritten (f : F) (b : B) : Prop :=
  marked (u "preparing") f /\ live_is (R ++ X) f /\ archived f /\ cb_has_work b task_id = true.
Definition finished (f : F) : Prop := marked (u "ready") f /\ live_is (R ++ X) f /\ archived f.
Definition interrupted (f : F) (b : B) : Prop := undone f b \/ rewritten f b \/ finished f.

Lemma live_same ids f f' : same f f' -> live_is ids f -> live_is ids f'.
Proof. intros H. unfold live_is. by rewrite (H live_uri) by by left. Qed.
Lemma archived_same f f' : same f f' -> archived f -> archived f'.
Proof. intros H. unfold archived. by rewrite (same_archive session_uri f f'). Qed.

(** ** Reading *)

(** Files, work and the absence of a failure marker. *)
Definition as_before (f : F) (b : B) (w : W) : Prop := files (w_fs w) = files f /\ w_back w = b /\ failed_uri uri ∉ entries (w_fs w).

Lemma read_before f b p :
  spec (as_before f b) (on_fs (sf_read p)) (fun c w => as_before f b w /\ files f !! p = Some c)
    (fun e w => as_before f b w /\ (e = CancelledError \/ e = NotFoundError /\ files f !! p = None)).
Proof.
  intros w (Hf & Hb & Hn). unfold on_fs. destruct (fs_read_ok (files := files) p (w_fs w)) as [Hr _].
  pose proof (read_entries (files := files) p (w_fs w) uri) as He. pose proof (read_exact (files := files) (entries := entries) p (w_fs w)) as Hx.
  rewrite Hf in Hx. destruct (sf_read p (w_fs w)) as [r f']. cbn [fst snd] in *.
  assert (as_before f b (MkWorld (w_self w) f' (w_back w))) as Has by (split_and!; [cbn; congruence|done|tauto]).
  destruct Hx as [->| ->]; [split; [exact Has|by left]|]. destruct (files f !! p); cbn; [by split|]. split; [exact Has|by right].
Qed.

Lemma read_marker f b status : marked status f ->
  spec (as_before f b) (read_phase1_meta uri) (fun m w => as_before f b w /\ marker_ok status m) (fun _ _ => True).
Proof.
  intros (c & d & m & Hc & Hd & Hm & Hok). unfold read_phase1_meta. apply spec_bind with (R := fun x w => as_before f b w /\ x = d).
  - unfold read_archive_meta. eapply spec_catch with (E1 := fun e w => e = CancelledError); [|by intros ? ? ? ->|done].
    eapply spec_bind; [eapply spec_conseq; [apply (read_before f b)|done|intros x w H; exact H|]|].
    + intros e w [_ [->|[_ H]]]; [done|congruence].
    + intros x. cbn beta. apply spec_lift.
      * intros y w Hy [Hw Hx]. split; [done|]. congruence.
      * intros e w He [Hw Hx]. congruence.
  - intros x. apply spec_ret. intros w [Hw ->]. split; [done|]. by rewrite Hm.
Qed.

Lemma no_failure f b : spec (as_before f b) (archive_file_exists (failed_uri uri)) (fun x w => as_before f b w /\ x = false) (fun _ _ => True).
Proof.
  intros w (Hf & Hb & Hn). unfold archive_file_exists, st_catch, on_fs.
  destruct (fs_exists_ok (files := files) (entries := entries) (failed_uri uri) (w_fs w)) as (Hx & He & Hr).
  destruct (sf_exists (failed_uri uri) (w_fs w)) as [[x|e] f']; cbn [fst snd] in *.
  - rewrite (Hr x eq_refl). split; [|by apply bool_decide_eq_false]. split_and!; [cbn; congruence|done|cbn; by rewrite He].
  - destruct (is_exception e); [|done]. cbn. split; [|done]. split_and!; [cbn; congruence|done|cbn; by rewrite He].
Qed.

(** ** Recovering *)

Context (now : nat -> pystr).
Context (Hcov : forall id, id ∈ L <-> id ∈ A \/ id ∈ R) (Hnew : forall id, id ∈ X -> id ∉ L) (Hnd : NoDup L) (Htask : task_id <> []).

Definition settled (ready : bool) (f : F) : Prop := if ready then live_is (R ++ X) f /\ archived f else live_is (L ++ X) f.

Lemma settled_same ready f f' : same f f' -> settled ready f -> settled ready f'.
Proof. intros H. unfold settled. destruct ready; [intros [H1 H2]; split; [by eapply live_same|by eapply archived_same]|by apply live_same]. Qed.

(** The live file of an unfinished commit, and what its queue entry says. *)
Definition preparing (ids : list pystr) (f : F) (b : B) : Prop :=
  marked (u "preparing") f /\ live_is (ids ++ X) f /\ (cb_has_work b task_id = true -> archived f)
  /\ (ids = L \/ ids = R /\ cb_has_work b task_id = true).

Lemma verify_exact f b ids m : live_is ids f -> marker_ok (u "preparing") m ->
  spec (as_before f b) (verify_phase1 session_uri now uri m) (fun r w => as_before f b w /\ exists live, r = Some (R, A, live) /\ m_id <$> live = ids)
    (fun _ _ => True).
Proof.
  intros (c & ms & Hc & Hp & Hids) (Hs & Hr & Ha & _). unfold verify_phase1. destruct m as [|kv m]; [done|]. rewrite Hr, Ha.
  eapply spec_catch with (E1 := fun e w => e = CancelledError); [|by intros ? ? ? ->|done]. unfold read_live_messages_strict.
  apply spec_bind with (R := fun l w => as_before f b w /\ l = ms).
  - eapply spec_bind; [eapply spec_conseq; [apply (read_before f b)|done|intros x w H; exact H|]|].
    + intros e w [_ [->|[_ H]]]; [done|congruence].
    + intros x. cbn beta. apply spec_lift; [intros y w Hy [Hw Hx]; split; [done|congruence]|intros e w He [Hw Hx]; congruence].
  - intros l. apply spec_ret. intros w [Hw ->]. split; [done|]. exists ms. by rewrite !strings_of_texts.
Qed.

(** What is settled stays so through operations that write no message file. *)
Lemma quiet_settles {T} f b ready (m : ST W T) : quiet (files := files) (relevant session_uri) m -> settled ready f ->
  spec (as_before f b) m (fun _ w => settled ready (w_fs w)) (fun _ _ => True).
Proof.
  intros Hq Hf w (Hw & _). specialize (Hq w). assert (same f (w_fs w)) as Hs by by apply same_files.
  destruct (m w) as [[?|?] w']; [|done]. eapply settled_same, Hf. by eapply same_trans.
Qed.

Lemma quiet_write_failed n a e : quiet (B := B) (files := files) (relevant session_uri) (write_failed_marker now n uri a e).
Proof. apply (quiet_failed session_uri); apply _. Qed.

Lemma recover_settles ids f b : preparing ids f b ->
  spec (as_before f b) (recover_phase1 session_uri account_id user_id now uri) (fun ready w => settled ready (w_fs w)) (fun _ _ => True).
Proof.
  intros (Hm & Hl & Ha & Hids). unfold recover_phase1. eapply spec_bind; [by apply (read_marker f b (u "preparing"))|].
  intros m w [Hw Hok]. revert w Hw. destruct Hok as (Hs & Hok). rewrite Hs. cbn [is_text]. replace (seqb (u "preparing") (u "ready")) with false by by vm_compute.
  apply (spec_bind (as_before f b) _ _ (fun x w => as_before f b w /\ x = false)); [apply no_failure|].
  intros x w [Hw ->]. revert w Hw. assert (marker_task_id m = VStr task_id) as -> by apply Hok.
  apply (spec_bind (as_before f b) _ _ (fun x w => as_before f b w /\ x = cb_has_work b task_id)).
  { apply spec_gets. intros w Hw. split; [done|]. destruct Hw as (_ & -> & _). cbn. by rewrite (proj2 (nonempty_true task_id)). }
  intros x w [Hw ->]. revert w Hw. destruct (cb_has_work b task_id) eqn:Hb; cbn [negb].
  - eapply spec_bind; [by eapply verify_exact|]. intros r w [Hw (live & -> & Hlive)]. revert w Hw. destruct (phase1_applied R A live) eqn:Happ.
    + assert (settled true f) as Hset.
      { split; [|by apply Ha]. destruct Hids as [->|[-> _]]; [|exact Hl]. by rewrite <- (original_applied L A R X Hcov Hnew live Hnd Hlive Happ). }
      apply (spec_bind (as_before f b) _ _ (fun _ w => settled true (w_fs w))); [|intros _; by apply spec_ret].
      apply quiet_settles; [|exact Hset]. by apply quiet_reconcile.
    + assert (ids = L) as ->.
      { destruct Hids as [->|[-> _]]; [done|]. by rewrite (rewritten_applied L A R X Hcov Hnew live Hlive) in Happ. }
      apply (spec_bind (as_before f b) _ _ (fun _ w => settled false (w_fs w))); [|intros _; by apply spec_ret].
      apply quiet_settles; [apply quiet_write_failed|exact Hl].
  - assert (ids = L) as -> by by destruct Hids as [->|[_ ?]].
    apply (spec_bind (as_before f b) _ _ (fun _ w => settled false (w_fs w))); [apply quiet_settles; [apply quiet_write_failed|exact Hl]|]. intros _.
    apply spec_bind with (R := fun _ w => settled false (w_fs w)); [|intros _; by apply spec_ret].
    eapply spec_conseq; [apply (spec_quiet (files := files) (watched := relevant session_uri) (settled false))|done|done|done].
    + destruct (py_truthy _); [apply quiet_back|apply quiet_ret].
    + intros g g'. apply settled_same.
Qed.

(** Whoever meets an interrupted commit without a failure marker settles it. *)
Lemma ensure_settles f b : interrupted f b ->
  spec (as_before f b) (ensure_phase1_ready session_uri session_path account_id user_id now uri) (fun ready w => settled ready (w_fs w)) (fun _ _ => True).
Proof.
  intros Hi. assert (finished f \/ exists ids, preparing ids f b) as [Hf|(ids & Hp)].
  { destruct Hi as [(H1 & H2 & H3)|[(H1 & H2 & H3 & H4)|H]]; [right; exists L|right; exists R|by left]; split_and!; try done; [by left|by right]. }
  - destruct Hf as (Hm & Hl & Ha). unfold ensure_phase1_ready. eapply spec_bind; [by apply (read_marker f b (u "ready"))|].
    intros m w [Hw Hok]. destruct Hok as (Hs & _). destruct m as [|kv m]; [done|]. rewrite Hs. revert w Hw. apply spec_ret. intros w (Hw & _).
    apply (settled_same true f); [by apply same_files|by split].
  - pose proof Hp as (Hm & _). unfold ensure_phase1_ready. eapply spec_bind; [by apply (read_marker f b (u "preparing"))|].
    intros m w [Hw Hok]. destruct Hok as (Hs & _). destruct m as [|kv m]; [done|]. rewrite Hs. cbn [is_text].
    replace (seqb (u "preparing") (u "ready")) with false by by vm_compute. revert w Hw.
    apply (spec_bind (as_before f b) _ _ (fun x w => as_before f b w /\ x = false)); [apply no_failure|].
    intros x w [Hw ->]. revert w Hw. unfold locked. apply (spec_bind (as_before f b) _ _ (fun _ w => as_before f b w)).
    { intros w (Hf & Hb & Hn). unfold on_fs. pose proof (fs_lock_ok (files := files) session_path (w_fs w)) as H1.
      pose proof (lock_entries (files := files) session_path (w_fs w) uri) as H2. destruct (sf_lock session_path (w_fs w)) as [[?|?] f']; [|done].
      cbn in *. split_and!; [cbn; congruence|done|cbn; tauto]. }
    intros l w Hw. pose proof (recover_settles ids f b Hp w Hw) as H. unfold st_finally.
    destruct (recover_phase1 _ _ _ _ _ w) as [r w']. pose proof (quiet_unlock (files := files) (B := B) (watched := relevant session_uri) l w') as Hq.
    destruct (on_fs (sf_unlock l) w') as [[?|?] w'']; [|done]. destruct r as [ready|]; [|done]. by eapply settled_same.
Qed.
End archive.
End recovery.

(** ** Watching the archives' metadata as well *)

Section commit.
Context {F B : Type} {env : SessionEnv} {FS : SessionFS F} {CB : CommitBackend B}.
Context {files : F -> gmap pystr pystr} {entries : F -> gset pystr} {env_ok : SessionEnvOk} {fs_ok : SessionFSOk F files entries}.
Context {reliable : ReliableFS files entries} {back_ok : CommitBackendOk B}.
Context (session_id session_uri session_path account_id user_id : pystr).

Abbreviation W := (world F B).
Abbreviation live_uri := (Session.live_uri session_uri).
Abbreviation archive_uri_of := (Session.archive_uri_of session_uri).
Abbreviation live_ids := (live_ids (files := files) session_uri).
Abbreviation archive_ids := (archive_ids (files := files)).

Definition tracked (p : pystr) : Prop := relevant session_uri p \/ exists j, p = archive_meta_uri (archive_uri_of j).

Lemma beside_untracked (name : pystr) :
  name <> u "/messages.jsonl" -> (forall x, name <> u "/history" ++ x) -> ~ tracked (session_uri ++ name).
Proof.
  intros H1 H2 [H|(j & H)]; [by eapply beside_irrelevant|]. unfold archive_meta_uri, Session.archive_uri_of, Session.history_uri in H.
  rewrite <- !app_assoc in H. by apply app_inv_head, H2 in H.
Qed.

Lemma failed_not_meta i j : failed_uri (archive_uri_of i) <> archive_meta_uri (archive_uri_of j).
Proof.
  unfold failed_uri, archive_meta_uri. change (u "/.failed.json") with (u "/.failed" ++ u ".json"). change (u "/.meta.json") with (u "/.meta" ++ u ".json").
  rewrite !app_assoc. intros H%app_inv_tail. revert H. apply suffix_neq; literal_neq.
Qed.

#[local] Instance tracked_unwatched : Unwatched session_uri tracked.
Proof.
  split.
  - apply beside_untracked; [literal_neq|intros x; literal_neq].
  - intros i [H|(j & H)]; [by eapply failed_irrelevant|by eapply failed_not_meta].
  - apply beside_untracked; [literal_neq|intros x; literal_neq].
  - apply beside_untracked; [literal_neq|intros x; literal_neq].
  - intros p (x & ->). rewrite <- app_assoc. apply beside_untracked; [literal_neq|intros y; literal_neq].
Qed.

Abbreviation same := (SessionFrame.same (files := files) tracked).
Abbreviation quiet := (SessionFrame.quiet (B := B) (files := files) tracked).

Lemma same_relevant f f' : same f f' -> SessionFrame.same (files := files) (relevant session_uri) f f'.
Proof. intros H p Hp. apply H. by left. Qed.
Lemma same_meta f f' j : same f f' -> files f' !! archive_meta_uri (archive_uri_of j) = files f !! archive_meta_uri (archive_uri_of j).
Proof. intros H. apply H. right. by exists j. Qed.

(** ** The queue is left alone *)

Definition keeps_back {A} (m : ST W A) : Prop := forall w, w_back (m w).2 = w_back w.

Lemma back_ret {A} (a : A) : keeps_back (mret a).
Proof. done. Qed.
Lemma back_lift {A} (r : result A) : keeps_back (st_lift r).
Proof. done. Qed.
Lemma back_self {A} (f : session -> A) : keeps_back (self f).
Proof. done. Qed.
Lemma back_modify f : keeps_back (modify f).
Proof. done. Qed.
Lemma back_fs {A} (op : ST F A) : keeps_back (on_fs op).
Proof. intros w. unfold on_fs. by destruct (op (w_fs w)). Qed.
Lemma back_raise {A} e : keeps_back (st_raise (A := A) e).
Proof. done. Qed.
Lemma back_bind {A C} (m : ST W A) (f : A -> ST W C) : keeps_back m -> (forall a, keeps_back (f a)) -> keeps_back (m ≫= f).
Proof. intros Hm Hf w. rewrite st_bind_unfold. specialize (Hm w). destruct (m w) as [[a|e] w']; [|done]. cbn in Hm. rewrite <- Hm. apply Hf. Qed.
Lemma back_catch {A} caught (m : ST W A) h : keeps_back m -> (forall e, keeps_back (h e)) -> keeps_back (st_catch caught m h).
Proof.
  intros Hm Hh w. unfold st_catch. specialize (Hm w). destruct (m w) as [[a|e] w']; [done|]. cbn in Hm. destruct (caught e); [|done].
  rewrite <- Hm. apply Hh.
Qed.
Lemma back_attempt m : keeps_back m -> keeps_back (attempt m).
Proof. intros H. apply back_catch; [done|intros e; apply back_ret]. Qed.
#[local] Hint Resolve back_ret back_lift back_self back_modify back_fs back_raise back_bind back_catch back_attempt : back.

Context (agent_evolution_enabled : bool) (provided_policy : option pydict) (externalize : ST (list Message * F) unit) (now : nat -> pystr).
Context {ext_ok : ExternalizeOk files session_uri externalize}.

Lemma back_turns turns l : keeps_back (externalize_turns externalize turns l).
Proof.
  revert l. induction turns as [|t turns IH]; intros l w; cbn [externalize_turns]; [done|].
  destruct (externalize (t, w_fs w)) as [r [t' f']]. destruct r; [|done]. by rewrite IH.
Qed.
Lemma back_split st : keeps_back (split_messages externalize st).
Proof.
  unfold split_messages. apply back_bind; [eauto with back|intros ms]. destruct (se_turn_mode st).
  - apply back_bind; [apply back_turns|eauto with back].
  - destruct (_ <? _)%Z; eauto with back.
Qed.
Lemma back_skip fuel : keeps_back (skip_archives session_uri fuel).
Proof.
  induction fuel as [|fuel IH]; cbn [skip_archives]; [eauto with back|]. apply back_bind; [eauto with back|intros i].
  apply back_bind; [eauto with back|intros [|]]; eauto with back.
Qed.
Lemma back_policy o : keeps_back (effective_policy agent_evolution_enabled provided_policy o).
Proof. unfold effective_policy. eauto 8 with back. Qed.
Lemma back_reload : keeps_back (reload_meta session_uri).
Proof. unfold reload_meta. eauto 8 with back. Qed.
Lemma back_save n : keeps_back (save_meta session_uri now n).
Proof. unfold save_meta. eauto 8 with back. Qed.
Lemma back_failed n a s e : keeps_back (write_failed_marker now n a s e).
Proof. apply back_fs. Qed.
Lemma back_read_meta a : keeps_back (read_archive_meta a).
Proof. unfold read_archive_meta. eauto 8 with back. Qed.

(** A fact about the files and the queue that survives what writes nothing tracked. *)
Definition closed (K : W -> Prop) : Prop := forall w w', same (w_fs w) (w_fs w') -> w_back w' = w_back w -> K w -> K w'.

Lemma inert_spec {A} K (m : ST W A) : closed K -> quiet m -> keeps_back m -> spec K m (fun _ => K) (fun _ => K).
Proof. intros HK Hq Hb w Hw. specialize (Hq w). specialize (Hb w). destruct (m w) as [[?|?] w']; by eapply HK. Qed.

Lemma with_back {A} b (P : W -> Prop) (m : ST W A) (Q : A -> W -> Prop) (E : exn -> W -> Prop) :
  keeps_back m -> spec P m Q E -> spec (fun w => P w /\ w_back w = b) m (fun a w => Q a w /\ w_back w = b) (fun e w => E e w /\ w_back w = b).
Proof. intros Hk Hs w [Hw Hb]. specialize (Hs w Hw). specialize (Hk w). destruct (m w) as [[?|?] w']; cbn in Hk; (split; [done|congruence]). Qed.

Lemma marked_tracked i task_id A R st f f' : same f f' -> marked (files := files) session_uri i task_id A R st f -> marked (files := files) session_uri i task_id A R st f'.
Proof. intros H. unfold marked. by rewrite (same_meta f f' i H). Qed.
Lemma live_tracked ids f f' : same f f' -> live_is (files := files) session_uri ids f -> live_is (files := files) session_uri ids f'.
Proof. intros H. by apply live_same, same_relevant. Qed.
Lemma archived_tracked i A f f' : same f f' -> archived (files := files) session_uri i A f -> archived (files := files) session_uri i A f'.
Proof. intros H. by apply archived_same, same_relevant. Qed.

(** ** The stages of Phase 1 *)

Section stages.
Context (f0 : F) (b0 : B) (i : Z) (task_id : pystr) (L : list pystr) (archive retain : list Message).
Context (Hlive : live_is (files := files) session_uri L f0) (Hfree : files f0 !! archive_meta_uri (archive_uri_of i) = None).
Context (Hwork : cb_has_work b0 task_id = false) (Htask : task_id <> []).
Context (Harch : Forall message_ok archive) (Hret : Forall message_ok retain) (Hne : archive <> []).

Abbreviation uri := (archive_uri_of i).
Abbreviation A := (m_id <$> archive).
Abbreviation R := (m_id <$> retain).
Abbreviation marked := (marked (files := files) session_uri i task_id A R).
Abbreviation live_is := (live_is (files := files) session_uri).
Abbreviation archived := (archived (files := files) session_uri i A).

(** The other archives' metadata is as it was. *)
Definition framed (f : F) : Prop :=
  forall j, archive_meta_uri (archive_uri_of j) <> archive_meta_uri uri ->
  files f !! archive_meta_uri (archive_uri_of j) = files f0 !! archive_meta_uri (archive_uri_of j).

Definition stage0 (w : W) : Prop := same f0 (w_fs w) /\ w_back w = b0.
Definition stage1 (w : W) : Prop := framed (w_fs w) /\ marked (u "preparing") (w_fs w) /\ live_is L (w_fs w) /\ w_back w = b0.
Definition stage2 (w : W) : Prop := framed (w_fs w) /\ marked (u "preparing") (w_fs w) /\ live_is L (w_fs w) /\ archived (w_fs w).
Definition stage3 (w : W) : Prop := stage2 w /\ cb_has_work (w_back w) task_id = true.
Definition stage4 (w : W) : Prop :=
  framed (w_fs w) /\ marked (u "preparing") (w_fs w) /\ live_is R (w_fs w) /\ archived (w_fs w) /\ cb_has_work (w_back w) task_id = true.
Definition stage5 (w : W) : Prop := framed (w_fs w) /\ marked (u "ready") (w_fs w) /\ live_is R (w_fs w) /\ archived (w_fs w).

(** Where Phase 1 can stop. *)
Definition stopped (w : W) : Prop := stage0 w \/ stage1 w \/ stage2 w \/ stage4 w \/ stage5 w.

Lemma framed_same f f' : same f f' -> framed f -> framed f'.
Proof. intros H Hf j Hj. rewrite (same_meta f f' j H). by apply Hf. Qed.
#[local] Hint Resolve framed_same marked_tracked live_tracked archived_tracked : stage.

Lemma stage0_closed : closed stage0.
Proof. intros w w' H Hb [H1 H2]. split; [by eapply same_trans|congruence]. Qed.
Lemma stage1_closed : closed stage1.
Proof. intros w w' H Hb (H1 & H2 & H3 & H4). split_and!; eauto with stage. congruence. Qed.
Lemma stage2_closed : closed stage2.
Proof. intros w w' H Hb (H1 & H2 & H3 & H4). unfold stage2. split_and!; eauto with stage. Qed.
Lemma stage3_closed : closed stage3.
Proof. intros w w' H Hb (H1 & H2). split; [by eapply stage2_closed|congruence]. Qed.
Lemma stage4_closed : closed stage4.
Proof. intros w w' H Hb (H1 & H2 & H3 & H4 & H5). split_and!; eauto with stage. congruence. Qed.
Lemma stage5_closed : closed stage5.
Proof. intros w w' H Hb (H1 & H2 & H3 & H4). split_and!; eauto with stage. Qed.
Lemma stopped_closed : closed stopped.
Proof.
  intros w w' H Hb. unfold stopped.
  intros [?|[?|[?|[?|?]]]]; [left; by eapply stage0_closed|right; left; by eapply stage1_closed|do 2 right; left; by eapply stage2_closed|
    do 3 right; left; by eapply stage4_closed|do 4 right; by eapply stage5_closed].
Qed.

(** *** What a write changes *)

Lemma meta_not_live : archive_meta_uri uri <> live_uri.
Proof. apply archive_not_live. Qed.
Lemma meta_not_messages j : archive_meta_uri uri <> archive_messages_uri (archive_uri_of j).
Proof. intros H. apply (archive_meta_irrelevant session_uri i). right. by exists j. Qed.

Lemma insert_meta f f' c : files f' = <[archive_meta_uri uri := c]> (files f) ->
  (framed f -> framed f') /\ (forall ids, live_is ids f -> live_is ids f') /\ (archived f -> archived f').
Proof.
  intros Hf. split_and!.
  - intros H j Hj. rewrite Hf, lookup_insert_ne by congruence. by apply H.
  - intros ids. unfold SessionRecovery.live_is. rewrite Hf, lookup_insert_ne; [done|apply meta_not_live].
  - unfold SessionRecovery.archived, SessionTheory.archive_ids. rewrite Hf, lookup_insert_ne; [done|apply meta_not_messages].
Qed.

Lemma marked_insert st f f' d m :
  files f' = <[archive_meta_uri uri := json_dumps (VDict d)]> (files f) -> get_or_none d (u "phase1") = VDict m -> marker_ok task_id A R st m -> marked st f'.
Proof.
  intros Hf Hm Hok. exists (json_dumps (VDict d)), d, m. rewrite Hf, lookup_insert_eq. split_and!; [done| |done|done].
  unfold parse_object. by rewrite json_roundtrip.
Qed.

(** A write of the archive's metadata that may fail. *)
Lemma write_meta_spec (K K' : W -> Prop) d :
  (forall w f', K w -> files f' = <[archive_meta_uri uri := json_dumps (VDict d)]> (files (w_fs w)) -> K' (MkWorld (w_self w) f' (w_back w))) -> closed K ->
  spec K (on_fs (sf_write (archive_meta_uri uri) (json_dumps (VDict d)))) (fun _ => K') (fun _ w => K w \/ K' w).
Proof.
  intros HK Hc w Hw. unfold on_fs. pose proof (fs_write_ok (files := files) (archive_meta_uri uri) (json_dumps (VDict d)) (w_fs w)) as H.
  destruct (sf_write _ _ _) as [[[]|e] f']; [by apply HK|]. destruct H as [H|H]; [left|right; by apply HK].
  eapply Hc, Hw; [by apply same_files|done].
Qed.

(** Reading metadata that is not there, and metadata with a marker. *)
Lemma read_absent : spec stage0 (read_archive_meta uri) (fun d w => stage0 w /\ d = []) (fun _ => stage0).
Proof.
  intros w Hw. unfold read_archive_meta, st_catch. rewrite st_bind_unfold. unfold on_fs.
  destruct (fs_read_ok (files := files) (archive_meta_uri uri) (w_fs w)) as [Hf Hr]. destruct (sf_read (archive_meta_uri uri) (w_fs w)) as [[c|e] f']; cbn [fst snd] in *.
  - exfalso. destruct Hw as [Hs _]. rewrite (same_meta _ _ i Hs), Hfree in Hr. done.
  - assert (stage0 (MkWorld (w_self w) f' (w_back w))) as Hw' by (eapply stage0_closed, Hw; [by apply same_files|done]). by destruct (is_exception e).
Qed.

Lemma read_marked (K : W -> Prop) st : closed K -> (forall w, K w -> marked st (w_fs w)) ->
  spec K (read_archive_meta uri) (fun d w => K w /\ exists m, get_or_none d (u "phase1") = VDict m /\ marker_ok task_id A R st m) (fun _ => K).
Proof.
  intros Hc Hm w Hw. destruct (Hm w Hw) as (c & d & m & Hf & Hd & Hp & Hok). unfold read_archive_meta, st_catch. rewrite st_bind_unfold. unfold on_fs.
  destruct (fs_read_ok (files := files) (archive_meta_uri uri) (w_fs w)) as [Hsame _].
  pose proof (read_exact (files := files) (entries := entries) (archive_meta_uri uri) (w_fs w)) as Hx. rewrite Hf in Hx.
  destruct (sf_read (archive_meta_uri uri) (w_fs w)) as [r f']. cbn [fst snd] in *.
  assert (K (MkWorld (w_self w) f' (w_back w))) as Hw' by (eapply Hc, Hw; [by apply same_files|done]).
  destruct Hx as [->| ->]; [done|]. cbn. rewrite Hd. cbn. split; [done|]. by exists m.
Qed.

(** *** From stage to stage *)

Lemma get_set (d : pydict) k v k' : get_or_none (dict_set d k v) k' = if seqb k k' then v else get_or_none d k'.
Proof. unfold get_or_none. rewrite dict_set_get. by destruct (seqb k k'). Qed.

Lemma update_other d k v : seqb k (u "phase1") = false -> get_or_none (dict_update d [(k, v)]) (u "phase1") = get_or_none d (u "phase1").
Proof. intros H. cbn [dict_update foldl fst snd]. by rewrite get_set, H. Qed.

Lemma marker_ready m t : marker_ok task_id A R (u "preparing") m ->
  marker_ok task_id A R (u "ready") (dict_update m [(u "status", VStr (u "ready")); (u "ready_at", VStr t)]).
Proof.
  intros (H1 & H2 & H3 & H4). unfold marker_ok, marker_task_id in *. cbn [dict_update foldl fst snd]. rewrite !get_set.
  repeat match goal with |- context [seqb ?a ?b] => let v := eval vm_compute in (seqb a b) in replace (seqb a b) with v by by vm_compute end.
  by split_and!.
Qed.

Lemma payload_marker st msg original : cm_task_id msg = task_id ->
  marker_ok task_id A R (u "preparing") (phase1_payload now st (commit_msg_to_dict msg) original archive retain).
Proof.
  intros <-. split_and!; try reflexivity.
  - unfold phase1_payload. change (ids_val retain = VList (VStr <$> R)). unfold ids_val. by rewrite list_fmap_compose.
  - unfold phase1_payload. change (ids_val archive = VList (VStr <$> A)). unfold ids_val. by rewrite list_fmap_compose.
Qed.

Lemma mark_spec payload reason : marker_ok task_id A R (u "preparing") payload ->
  spec stage0 (write_phase1_marker agent_evolution_enabled uri payload reason) (fun _ => stage1) (fun _ w => stage0 w \/ stage1 w).
Proof.
  intros Hok. unfold write_phase1_marker, merge_archive_meta.
  apply spec_bind with (R := fun d w => stage0 w /\ d = []).
  { eapply spec_conseq; [apply read_absent|done|done|]. intros e w H. by left. }
  intros d w [Hw ->]. revert w Hw. apply (write_meta_spec stage0 stage1); [|apply stage0_closed]. intros w f' [Hs Hb] Hf.
  destruct (insert_meta _ _ _ Hf) as (H1 & H2 & H3). split_and!; [apply H1|by eapply marked_insert|apply H2|done].
  - intros j _. by apply same_meta.
  - by eapply live_tracked.
Qed.

Lemma archive_spec n :
  spec stage1 (on_fs (sf_write (archive_messages_uri uri) (join [c_nl] (to_jsonl (now n) <$> archive) ++ [c_nl]))) (fun _ => stage2) (fun _ w => stage1 w \/ stage2 w).
Proof.
  assert (forall w f', stage1 w -> files f' = <[archive_messages_uri uri := join [c_nl] (to_jsonl (now n) <$> archive) ++ [c_nl]]> (files (w_fs w)) ->
    stage2 (MkWorld (w_self w) f' (w_back w))) as Hstep.
  { intros w f' (H1 & (c & d & m & Hc & Hd) & (cl & ms & Hl & Hp) & _) Hf. split_and!; cbn [w_fs].
    - intros j Hj. rewrite Hf, lookup_insert_ne; [by apply H1|]. intros E. by eapply (archive_meta_irrelevant session_uri j); right; exists i.
    - exists c, d, m. rewrite Hf, lookup_insert_ne; [by split|]. intros E. symmetry in E. by apply meta_not_messages in E.
    - exists cl, ms. rewrite Hf, lookup_insert_ne; [by split|apply archive_not_live].
    - unfold SessionRecovery.archived, SessionTheory.archive_ids. rewrite Hf, lookup_insert_eq, parse_archive_file by done. apply stored_ids. }
  intros w Hw. unfold on_fs. set (c := join _ _ ++ _) in *. pose proof (fs_write_ok (files := files) (archive_messages_uri uri) c (w_fs w)) as H.
  destruct (sf_write _ _ _) as [[[]|e] f']; [by apply Hstep|]. destruct H as [H|H]; [left|right; by apply Hstep].
  eapply stage1_closed, Hw; [by apply same_files|done].
Qed.

Lemma merge_stages k v : seqb k (u "phase1") = false -> spec stage2 (merge_archive_meta uri [(k, v)]) (fun _ => stage2) (fun _ => stage2).
Proof.
  intros Hk. unfold merge_archive_meta. eapply spec_bind; [apply (read_marked stage2 (u "preparing")); [apply stage2_closed|by intros w (_ & H & _)]|].
  intros d w [Hw (m & Hm & Hok)]. revert w Hw. eapply spec_conseq; [apply (write_meta_spec stage2 stage2); [|apply stage2_closed]|done|done|by intros e w [H|H]].
  intros w f' (H1 & H2 & H3 & H4) Hf. destruct (insert_meta _ _ _ Hf) as (G1 & G2 & G3). split_and!; [by apply G1| |by apply G2|by apply G3].
  eapply marked_insert; [exact Hf| |exact Hok]. by rewrite update_other.
Qed.

Lemma enqueue_stages msg : cm_task_id msg = task_id -> spec stage2 (on_back (cb_enqueue (commit_msg_to_dict msg))) (fun _ => stage3) (fun _ => stage2).
Proof.
  intros Ht w Hw. unfold on_back. pose proof (enqueue_has_work (commit_msg_to_dict msg) (w_back w)) as H.
  destruct (cb_enqueue (commit_msg_to_dict msg) (w_back w)) as [[[]|e] b']; [|exact Hw]. split; [exact Hw|]. apply (H b' task_id eq_refl); [|done]. by rewrite <- Ht.
Qed.

Lemma create_spec r acc' us : spec stage3 (_ ← on_back (cb_create r task_id acc' us); mret tt) (fun _ => stage3) (fun _ => stage3).
Proof.
  apply spec_bind with (R := fun _ => stage3); [|intros _; by apply spec_ret]. intros w [Hw Hb]. unfold on_back.
  pose proof (create_has_work r task_id acc' us (w_back w) task_id Hb) as H. destruct (cb_create r task_id acc' us (w_back w)) as [[?|?] b']; by split.
Qed.

Lemma rewrite_spec n : spec stage3 (on_fs (sf_write live_uri (file_of (now n) retain))) (fun _ => stage4) (fun _ w => stage3 w \/ stage4 w).
Proof.
  assert (forall w f', stage3 w -> files f' = <[live_uri := file_of (now n) retain]> (files (w_fs w)) -> stage4 (MkWorld (w_self w) f' (w_back w))) as Hstep.
  { intros w f' [(H1 & (c & d & m & Hc & Hd) & _ & Ha) Hb] Hf. split_and!; cbn [w_fs w_back].
    - intros j Hj. rewrite Hf, lookup_insert_ne; [by apply H1|]. intros E. symmetry in E. by apply archive_not_live in E.
    - exists c, d, m. rewrite Hf, lookup_insert_ne; [by split|]. intros E. symmetry in E. by apply meta_not_live in E.
    - exists (file_of (now n) retain), (stored (now n) <$> retain). rewrite Hf, lookup_insert_eq, parse_live_file by done. by rewrite stored_ids.
    - unfold SessionRecovery.archived, SessionTheory.archive_ids in *. rewrite Hf, lookup_insert_ne; [done|]. intros E. symmetry in E. by apply archive_not_live in E.
    - done. }
  intros w Hw. unfold on_fs. pose proof (fs_write_ok (files := files) live_uri (file_of (now n) retain) (w_fs w)) as H.
  destruct (sf_write _ _ _) as [[[]|e] f']; [by apply Hstep|]. destruct H as [H|H]; [left|right; by apply Hstep].
  eapply stage3_closed, Hw; [by apply same_files|done].
Qed.

Lemma ready_spec n : spec stage4 (write_phase1_ready_marker now n uri) (fun _ => stage5) (fun _ w => stage4 w \/ stage5 w).
Proof.
  assert (forall w, stage4 w -> marked (u "preparing") (w_fs w)) as Hm by by intros w (_ & H & _).
  unfold write_phase1_ready_marker, read_phase1_meta, merge_archive_meta.
  apply spec_bind with (R := fun m w => stage4 w /\ marker_ok task_id A R (u "preparing") m).
  { eapply spec_bind; [eapply spec_conseq; [apply (read_marked stage4 (u "preparing") stage4_closed Hm)|done|intros d w H; exact H|intros e w H; by left]|].
    intros d. apply spec_ret. intros w [Hw (m & Hd & Hok)]. split; [done|]. by rewrite Hd. }
  intros m w [Hw Hok]. revert w Hw.
  eapply spec_bind; [eapply spec_conseq; [apply (read_marked stage4 (u "preparing") stage4_closed Hm)|done|intros d w H; exact H|intros e w H; by left]|].
  intros d w [Hw _]. revert w Hw. apply (write_meta_spec stage4 stage5); [|apply stage4_closed]. intros w f' (H1 & H2 & H3 & H4 & _) Hf.
  destruct (insert_meta _ _ _ Hf) as (G1 & G2 & G3). split_and!; [by apply G1| |by apply G2|by apply G3].
  eapply marked_insert; [exact Hf| |by apply (marker_ready m (now n))]. cbn [dict_update foldl fst snd]. rewrite get_set. by replace (seqb (u "phase1") (u "phase1")) with true by by vm_compute.
Qed.

Lemma into_stopped w : stage0 w \/ stage1 w \/ stage2 w \/ stage3 w \/ stage4 w \/ stage5 w -> stopped w.
Proof. unfold stopped. intros [?|[?|[?|[[? _]|[?|?]]]]]; tauto. Qed.

Ltac stops := intros; cbn beta in *; apply into_stopped; tauto.

Lemma persist_stages st payload reason p : marker_ok task_id A R (u "preparing") payload ->
  spec stage0 (persist_archive agent_evolution_enabled now st uri payload reason archive p) (fun _ => stage2) (fun _ => stopped).
Proof.
  intros Hok. unfold persist_archive. eapply spec_bind; [eapply spec_conseq; [by apply mark_spec|done|intros a w H; exact H|]|].
  { stops. }
  intros []. eapply spec_bind; [eapply spec_conseq; [apply (archive_spec 1)|done|intros a w H; exact H|]|].
  { stops. }
  intros []. destruct p as [p|]; [|by apply spec_ret]. eapply spec_conseq; [by apply merge_stages|done|done|]. stops.
Qed.

Lemma publish_stages st keep auto : spec stage3 (publish_root session_uri now st keep auto uri retain) (fun _ => stage5) (fun _ => stopped).
Proof.
  unfold publish_root, write_to_agfs. apply spec_bind with (R := fun _ => stage3); [by apply spec_modify|]. intros _.
  apply spec_bind with (R := fun _ => stage4).
  - apply spec_bind with (R := fun _ => stage3); [by apply spec_gets|]. intros s.
    eapply spec_bind; [eapply spec_conseq; [apply (rewrite_spec 2)|done|intros a w H; exact H|]|].
    { stops. }
    intros []. eapply spec_conseq; [apply (inert_spec stage4); [apply stage4_closed| |]|done|done|stops].
    + apply quiet_overviews; apply _.
    + unfold write_overviews; eauto 8 with back.
  - intros _. apply spec_bind with (R := fun _ => stage4); [by apply spec_modify|]. intros _.
    apply spec_bind with (R := fun _ => stage4).
    { eapply spec_conseq; [apply (inert_spec stage4); [apply stage4_closed|apply (quiet_save_meta session_uri); apply _|apply back_save]|done|done|]. stops. }
    intros _. eapply spec_conseq; [apply (ready_spec 6)|done|done|]. stops.
Qed.

Lemma guarded_stops (K K' : W -> Prop) original stage (body : ST W unit) :
  spec K body (fun _ => K') (fun _ => stopped) -> spec K (guarded now uri original stage body) (fun _ => K') (fun _ => stopped).
Proof.
  intros Hb. unfold guarded. eapply spec_catch; [exact Hb| |done]. intros e _. unfold fail_phase1.
  apply spec_bind with (R := fun _ => stopped).
  { apply inert_spec; [apply stopped_closed|apply quiet_attempt, (quiet_failed session_uri); apply _|apply back_attempt, back_failed]. }
  intros _. apply spec_bind with (R := fun _ => stopped); [|intros _; by apply spec_raise].
  apply spec_modify. intros w. by apply stopped_closed.
Qed.

Lemma phase1_stops st keep a policy tags p :
  spec (fun w => stage0 w /\ (s_index (w_self w) + 1 = i)%Z)
    (phase1 session_id session_uri account_id user_id agent_evolution_enabled now st keep a policy tags task_id archive retain p)
    (fun _ => stopped) (fun _ => stopped).
Proof.
  unfold phase1. apply spec_bind with (R := fun _ w => stage0 w /\ s_index (w_self w) = i).
  { apply spec_modify. intros w [Hw Hi]. by split. }
  intros _. apply spec_bind with (R := fun s w => stage0 w /\ s_index s = i).
  { apply spec_gets. intros w [Hw Hi]. by split. }
  intros s w [Hw Hi]. rewrite Hi. revert w Hw. set (msg := MkCommitMsg _ _ _ _ _ _ _ _ _).
  assert (cm_task_id msg = task_id) as Ht by done. clearbody msg.
  apply (spec_bind stage0 _ _ (fun _ => stage2)); [by apply guarded_stops, persist_stages, payload_marker|]. intros _.
  apply spec_bind with (R := fun _ => stage3).
  { apply guarded_stops. eapply spec_conseq; [by apply enqueue_stages|done|done|]. stops. }
  intros _. apply spec_bind with (R := fun _ => stage3).
  { apply guarded_stops. eapply spec_conseq; [apply create_spec|done|done|]. stops. }
  intros _. apply spec_bind with (R := fun _ => stage5); [apply guarded_stops, publish_stages|]. intros _. apply spec_ret. stops.
Qed.
End stages.

(** ** The whole commit *)

(** What a commit leaves of the files [f0]: no new marker, or one that can be settled. *)
Definition left_behind (f0 : F) (L : list pystr) (task_id : pystr) (w : W) : Prop :=
  (forall j, files (w_fs w) !! archive_meta_uri (archive_uri_of j) = files f0 !! archive_meta_uri (archive_uri_of j))
  \/ exists i A R, (forall id, id ∈ L <-> id ∈ A \/ id ∈ R) /\ framed f0 i (w_fs w)
       /\ interrupted (files := files) session_uri i task_id L A R [] (w_fs w) (w_back w).

Lemma stopped_left f0 b0 i task_id L archive retain w :
  covers L archive retain -> cb_has_work b0 task_id = false ->
  stopped f0 b0 i task_id L archive retain w -> left_behind f0 L task_id w.
Proof.
  intros Hcov Hwork. unfold left_behind, interrupted, undone, rewritten, finished.
  intros [[H _]|H]; [left; intros j; by apply same_meta|right]. exists i, (m_id <$> archive), (m_id <$> retain). rewrite !app_nil_r. split; [exact Hcov|].
  destruct H as [(H1 & H2 & H3 & H4)|[(H1 & H2 & H3 & H4)|[(H1 & H2 & H3 & H4 & H5)|(H1 & H2 & H3 & H4)]]]; (split; [exact H1|]).
  - left. split_and!; [done|done|]. rewrite H4. congruence.
  - left. by split_and!.
  - right. left. by split_and!.
  - right. right. by split_and!.
Qed.

Lemma left_closed f0 L task_id : closed (left_behind f0 L task_id).
Proof.
  intros w w' H Hb [Hm|(i & A & R & Hc & Hf & Hi)]; [left; intros j; by rewrite (same_meta _ _ j H)|right]. exists i, A, R.
  split_and!; [done|by eapply framed_same|]. rewrite Hb. unfold interrupted, undone, rewritten, finished in *.
  destruct Hi as [(H1 & H2 & H3)|[(H1 & H2 & H3 & H4)|(H1 & H2 & H3)]].
  - left. split_and!; [by eapply marked_tracked|by eapply live_tracked|intros Hw; eapply archived_tracked; [exact H|by apply H3]].
  - right. left. split_and!; [by eapply marked_tracked|by eapply live_tracked|by eapply archived_tracked|done].
  - right. right. split_and!; [by eapply marked_tracked|by eapply live_tracked|by eapply archived_tracked].
Qed.

Lemma nothing_left f0 L task_id w : same f0 (w_fs w) -> left_behind f0 L task_id w.
Proof. intros H. left. intros j. by apply same_meta. Qed.

(** Without an archive no marker is written. *)
Definition meta_file (p : pystr) : Prop := exists j, p = archive_meta_uri (archive_uri_of j).

Lemma meta_file_tracked p : ~ tracked p -> ~ meta_file p.
Proof. intros H1 H2. apply H1. by right. Qed.

#[local] Instance meta_file_unwatched : Unwatched session_uri meta_file.
Proof. split; intros; apply meta_file_tracked, tracked_unwatched; done. Qed.

Lemma live_not_meta : ~ meta_file live_uri.
Proof. intros (j & H). symmetry in H. by apply archive_not_live in H. Qed.

Lemma no_marker {T} f0 (m : ST W T) L task_id : SessionFrame.quiet (B := B) (files := files) meta_file m ->
  spec (fun w => same f0 (w_fs w)) m (fun _ => left_behind f0 L task_id) (fun _ => left_behind f0 L task_id).
Proof.
  intros Hq w Hw. specialize (Hq w).
  assert (left_behind f0 L task_id (m w).2) as H. { left. intros j. rewrite (Hq (archive_meta_uri (archive_uri_of j))) by by exists j. by apply same_meta. }
  by destruct (m w) as [[?|?] w'].
Qed.

Lemma commit_messages_left f0 b0 i task_id st keep a policy tags ms :
  Forall message_ok ms -> live_is (files := files) session_uri (m_id <$> ms) f0 -> cb_has_work b0 task_id = false -> task_id <> [] ->
  files f0 !! archive_meta_uri (archive_uri_of (i + 1)) = None ->
  spec (fun w : W => ((same f0 (w_fs w) /\ s_index (w_self w) = i) /\ s_messages (w_self w) = ms) /\ w_back w = b0)
    (commit_messages session_id session_uri account_id user_id agent_evolution_enabled externalize now st keep a policy tags task_id ms)
    (fun _ => left_behind f0 (m_id <$> ms) task_id) (fun _ => left_behind f0 (m_id <$> ms) task_id).
Proof.
  intros Hok Hl Hwork Htask Hfree. unfold commit_messages. destruct ms as [|m ms'].
  { eapply spec_pre; [apply no_marker|by intros w [[[H _] _] _]]. apply quiet_bind; [apply quiet_modify|intros _].
    apply quiet_bind; [apply (quiet_save_meta session_uri); apply _|intros _; apply quiet_ret]. }
  set (ms := m :: ms') in *. clearbody ms. set (L := m_id <$> ms) in *.
  eapply spec_bind.
  { eapply spec_conseq; [apply (with_back b0); [apply back_split|apply (split_spec (files := files) session_uri (watched := tracked) externalize now (same f0) i ms st)]| |intros r w H; exact H|].
    - intros f f' Hff Hf. by eapply same_trans.
    - intros w ([[H1 H2] H3] & H4). exact (conj (conj (conj H1 H2) (conj H3 Hok)) H4).
    - intros e w [H _]. by apply nothing_left. }
  intros [[archived retained] p]. cbn [fst snd]. intros w (((Hs & Hi) & _ & Hcov & Ha & Hr) & Hb). destruct archived as [|x l] eqn:Ea.
  - revert w Hs Hi Hb. intros w Hs _ _. revert w Hs. apply no_marker. apply quiet_bind; [apply quiet_modify|intros _].
    apply quiet_bind.
    + unfold write_to_agfs. apply quiet_bind; [apply quiet_object|intros s]. apply quiet_bind; [apply quiet_write, live_not_meta|intros _].
      apply quiet_overviews; apply _.
    + intros _. apply quiet_bind; [apply quiet_modify|intros _]. apply quiet_bind; [apply (quiet_save_meta session_uri); apply _|intros _; apply quiet_ret].
  - rewrite <- Ea in *. assert (archived <> []) as Hne by by rewrite Ea. clear Ea.
    pose proof (phase1_stops f0 b0 (i + 1) task_id L archived retained Hl Hfree Hwork Htask Ha Hr Hne st keep a policy tags p w) as H.
    specialize (H (conj (conj Hs Hb) (f_equal (fun z => (z + 1)%Z) Hi))). rewrite st_bind_unfold.
    destruct (phase1 _ _ _ _ _ _ _ _ _ _ _ _ _ _ _ w) as [[r|e] w']; cbn; by eapply stopped_left.
Qed.

(** The live messages as the commit read them. *)
Definition read_as (f0 : F) (b0 : B) (ms : list Message) (w : W) : Prop := (same f0 (w_fs w) /\ s_messages (w_self w) = ms) /\ w_back w = b0.

Lemma read_live_left f0 b0 :
  spec (fun w : W => same f0 (w_fs w) /\ w_back w = b0) (read_live_messages_strict session_uri)
    (fun ms w => (same f0 (w_fs w) /\ w_back w = b0) /\ Forall message_ok ms /\ live_is (files := files) session_uri (m_id <$> ms) f0)
    (fun _ w => same f0 (w_fs w)).
Proof.
  intros w [Hs Hb]. unfold read_live_messages_strict. rewrite st_bind_unfold. unfold on_fs. destruct (fs_read_ok (files := files) live_uri (w_fs w)) as [Hf Hr].
  destruct (sf_read live_uri (w_fs w)) as [[c|e] f']; cbn [fst snd] in *.
  - assert (same f0 f') as Hs' by (eapply same_trans; [exact Hs|by apply same_files]). unfold st_lift. destruct (parse_live c) as [ms|e] eqn:E; [|exact Hs'].
    split_and!; [exact Hs'|exact Hb|by eapply parse_live_ok|]. exists c, ms. split_and!; [|done|done]. by rewrite <- (Hs live_uri) by (by left; left).
  - eapply same_trans; [exact Hs|by apply same_files].
Qed.

Lemma calm_left {T} f0 b0 ms L task_id (m : ST W T) : calm (files := files) tracked m -> keeps_back m ->
  spec (read_as f0 b0 ms) m (fun _ => read_as f0 b0 ms) (fun _ => left_behind f0 L task_id).
Proof.
  intros [Hq Hm] Hk w [[H1 H2] H3]. specialize (Hq w). specialize (Hm w). specialize (Hk w). assert (same f0 (w_fs (m w).2)) as Hs by by eapply same_trans.
  destruct (m w) as [[?|?] w']; cbn in *; [|by apply nothing_left]. split; [split; [done|congruence]|congruence].
Qed.

Lemma commit_locked_left f0 b0 fuel st a task_id policy explicit : cb_has_work b0 task_id = false -> task_id <> [] ->
  spec (fun w : W => same f0 (w_fs w) /\ w_back w = b0)
    (commit_locked session_id session_uri account_id user_id agent_evolution_enabled provided_policy externalize now fuel st a task_id policy explicit)
    (fun _ => left_behind f0 (live_ids f0) task_id) (fun _ => left_behind f0 (live_ids f0) task_id).
Proof.
  intros Hwork Htask. unfold commit_locked.
  eapply spec_bind; [eapply spec_conseq; [apply (read_live_left f0 b0)|done|intros ms w H; exact H|intros e w H; by apply nothing_left]|].
  intros ms w (Hw & Hok & Hl). assert (live_ids f0 = m_id <$> ms) as ->.
  { destruct Hl as (c & ms' & Hc & Hp & Hm). unfold SessionTheory.live_ids. by rewrite Hc, Hp. }
  revert w Hw. set (L := m_id <$> ms).
  apply (spec_bind (fun w : W => same f0 (w_fs w) /\ w_back w = b0) _ _ (fun _ => read_as f0 b0 ms)).
  { apply spec_modify. intros w [H1 H2]. exact (conj (conj H1 eq_refl) H2). }
  intros _. apply spec_bind with (R := fun _ => read_as f0 b0 ms).
  { apply calm_left; [apply calm_reload|]. apply back_attempt, back_bind; [apply back_reload|intros _; apply back_modify]. }
  intros _. apply spec_bind with (R := fun _ => read_as f0 b0 ms); [by apply spec_gets|]. intros meta.
  apply spec_bind with (R := fun _ => read_as f0 b0 ms); [apply calm_left; [apply calm_lift|apply back_lift]|]. intros tags.
  apply spec_bind with (R := fun _ => read_as f0 b0 ms).
  { destruct explicit; [by apply spec_ret|]. apply calm_left; [apply calm_policy|apply back_policy]. }
  intros pol. apply spec_bind with (R := fun _ => read_as f0 b0 ms); [by apply spec_modify|]. intros _.
  eapply spec_bind.
  { eapply spec_conseq; [apply (with_back b0); [apply back_skip|apply (skip_archives_spec session_uri (files := files) (watched := tracked) (same f0) ms fuel)]|done|intros x w H; exact H|].
    - intros f f' Hff Hf. by eapply same_trans.
    - intros e w [H _]. by apply nothing_left. }
  intros [] w [[[Hs Hm] Hfree] Hb]. apply (commit_messages_left f0 b0 (s_index (w_self w))); [done|exact Hl|done|done| |].
  - rewrite <- (same_meta _ _ (s_index (w_self w) + 1) Hs). exact (Hfree (u ".meta.json")).
  - exact (conj (conj (conj Hs eq_refl) Hm) Hb).
Qed.

Lemma commit_left f0 b0 fuel task_id a : cb_has_work b0 task_id = false -> task_id <> [] ->
  spec (fun w : W => same f0 (w_fs w) /\ w_back w = b0)
    (commit_async session_id session_uri session_path account_id user_id agent_evolution_enabled provided_policy externalize now fuel task_id a)
    (fun _ => left_behind f0 (live_ids f0) task_id) (fun _ => left_behind f0 (live_ids f0) task_id).
Proof.
  intros Hwork Htask. unfold commit_async. set (K := fun w : W => same f0 (w_fs w) /\ w_back w = b0).
  assert (closed K) as HK by (intros w w' H Hb [H1 H2]; split; [by eapply same_trans|congruence]).
  assert (forall w, K w -> left_behind f0 (live_ids f0) task_id w) as HKl by (intros w [H _]; by apply nothing_left).
  apply spec_bind with (R := fun _ => K); [apply spec_lift; intros x w _ H; [exact H|by apply HKl]|]. intros st.
  apply spec_bind with (R := fun _ => K); [by apply spec_gets|]. intros meta.
  apply spec_bind with (R := fun _ => K).
  { eapply spec_conseq; [apply (inert_spec K _ HK)|done|done|intros e; apply HKl].
    - destruct (ca_memory_policy a); [|apply quiet_ret]. apply quiet_bind; [apply quiet_effective_policy|intros ?; apply quiet_ret].
    - destruct (ca_memory_policy a); [|apply back_ret]. apply back_bind; [apply back_policy|intros ?; apply back_ret]. }
  intros explicit. apply spec_bind with (R := fun _ => left_behind f0 (live_ids f0) task_id).
  - unfold locked. apply spec_bind with (R := fun _ => K).
    { eapply spec_conseq; [apply (inert_spec K _ HK); [apply quiet_lock|apply back_fs]|done|done|intros e; apply HKl]. }
    intros l. assert (keeps (left_behind f0 (live_ids f0) task_id) (on_fs (sf_unlock l))) as Hu.
    { apply inert_spec; [apply left_closed|apply quiet_unlock|apply back_fs]. }
    apply spec_finally; [by apply commit_locked_left|intros ?; exact Hu|intros ?; exact Hu].
  - intros [r n]. apply spec_bind with (R := fun _ => left_behind f0 (live_ids f0) task_id); [|intros _; by apply spec_ret].
    apply spec_modify. intros w. by apply left_closed.
Qed.

(** Messages that other workers append: the live file grows at its end. *)
Definition appended (X : list pystr) (f f' : F) : Prop :=
  (forall p, tracked p -> p <> live_uri -> files f' !! p = files f !! p)
  /\ forall ids, live_is (files := files) session_uri ids f -> live_is (files := files) session_uri (ids ++ X) f'.

Lemma appended_interrupted X i task_id L A R f f' b b' :
  appended X f f' -> cb_has_work b' task_id = cb_has_work b task_id ->
  interrupted (files := files) session_uri i task_id L A R [] f b -> interrupted (files := files) session_uri i task_id L A R X f' b'.
Proof.
  intros [Hsame Hlive] Hb. unfold interrupted, undone, rewritten, finished. rewrite !app_nil_r, Hb.
  assert (forall st, marked (files := files) session_uri i task_id A R st f -> marked (files := files) session_uri i task_id A R st f') as Hm.
  { intros st. unfold marked. rewrite Hsame; [done|right; by exists i|apply archive_not_live]. }
  assert (archived (files := files) session_uri i A f -> archived (files := files) session_uri i A f') as Ha.
  { unfold archived, SessionTheory.archive_ids. rewrite Hsame; [done|left; right; by exists i|apply archive_not_live]. }
  intros [(H1 & H2 & H3)|[(H1 & H2 & H3 & H4)|(H1 & H2 & H3)]].
  - left. split_and!; [by apply Hm|by apply Hlive|by intros ?%H3; apply Ha].
  - right. left. split_and!; [by apply Hm|by apply Hlive|by apply Ha|done].
  - right. right. split_and!; [by apply Hm|by apply Hlive|by apply Ha].
Qed.

End commit.
