(* ===== verification/SessionRuns.v ===== *)
(** Runs of sessions in memory: a codec, a file system with failures and cancellations
    where a script puts them, and a queue, all of which keep the promises the theorems on
    sessions assume; the theorems applied there, and runs that go wrong. *)
From Stdlib Require Import NArith ZArith.
From S2P Require Import Prelude Effects PyStr PyVal WireJson Identifiers WorkIndex TaskRecord Tokens Message Retention MemStore OverviewRuns SessionPolicy SessionMeta Session SessionFiles SessionPolicyTheory SessionFrame SessionTheory SessionDelivery SessionRecovery.

Open Scope N_scope.

(** ** A codec *)

#[export] Instance mem_env : SessionEnv := {|
  json_dumps := mem_dumps;
  json_loads := mem_loads;
  text_of v := match v with VStr s => s | v => mem_dumps v end;
  exn_text e := u "error";
  sha256_text s := s;
  lower s := s;
  casefold s := s;
  registered_types := {[u "events"; u "entities"]} ∪ AGENT_EVOLUTION_MEMORY_TYPES;
  overview_env := mem_overview |}.

#[export] Instance mem_env_ok : SessionEnvOk.
Proof.
  split.
  - intros v. unfold json_loads, json_dumps. cbn [mem_env]. unfold mem_dumps, mem_loads. rewrite removelast_last, unshift. apply wire_roundtrip.
  - intros d. exists ((fun c => c + shift) <$> wire (VDict d)). split; [done|].
    split; intros H%shift_above; unfold shift, c_nl, c_cr in H; lia.
Qed.

(** ** A file system *)

(** The directories above a path. *)
Fixpoint parents (p : pystr) : list pystr :=
  match p with
  | [] => []
  | c :: p => (if c =? c_slash then [[]] else []) ++ (cons c <$> parents p)
  end.

Lemma parents_iff p d : d ∈ parents p <-> exists n, p = d ++ [c_slash] ++ n.
Proof.
  revert d. induction p as [|c p IH]; intros d; cbn [parents].
  - rewrite elem_of_nil. split; [done|]. by intros (n & H); destruct d.
  - rewrite elem_of_app, list_elem_of_fmap. split.
    + intros [H|(x & -> & Hx)].
      * destruct (N.eqb_spec c c_slash) as [->|]; [|by apply elem_of_nil in H]. apply list_elem_of_singleton in H as ->. by exists p.
      * apply IH in Hx as (n & ->). by exists n.
    + intros (n & H). destruct d as [|x d]; cbn in H; injection H as -> ->.
      * left. rewrite N.eqb_refl. by apply list_elem_of_singleton.
      * right. exists d. split; [done|]. apply IH. by exists n.
Qed.

Definition mem_entries (f : memfs) : gset pystr :=
  list_to_set (elements (dom (mf_files f) ∪ mf_dirs f) ≫= fun p => p :: parents p).

Lemma mem_entries_iff f d :
  d ∈ mem_entries f <-> exists p, p ∈ dom (mf_files f) ∪ mf_dirs f /\ (d = p \/ d ∈ parents p).
Proof.
  unfold mem_entries. rewrite elem_of_list_to_set, list_elem_of_bind. setoid_rewrite elem_of_cons. setoid_rewrite elem_of_elements.
  split; intros (p & H1 & H2); exists p; by split.
Qed.

Lemma mem_parent f d n : d ++ [c_slash] ++ n ∈ mem_entries f -> d ∈ mem_entries f.
Proof.
  rewrite !mem_entries_iff. intros (p & Hp & H). exists p. split; [done|]. right. apply parents_iff.
  destruct H as [<-|(n' & ->)%parents_iff]; [by exists n|]. exists (n ++ [c_slash] ++ n'). by rewrite <- !app_assoc.
Qed.

Definition children (uri : pystr) (f : memfs) : list pystr :=
  omap (fun p => if startswith (uri ++ [c_slash]) p && negb (bool_decide (c_slash ∈ drop (length uri + 1) p)) then Some (drop (length uri + 1) p) else None)
    (elements (mem_entries f)).

Definition mem_fs (flaky : bool) : SessionFS memfs := {|
  sf_read := mem_read flaky;
  sf_write := mem_write;
  sf_append uri c f := mem_write uri (default [] (mf_files f !! uri) ++ c) f;
  sf_exists uri f := (Ok (bool_decide (uri ∈ mem_entries f)), f);
  sf_stat uri f := (if bool_decide (uri ∈ mem_entries f) then Ok tt else Err NotFoundError, f);
  sf_mkdir uri f := (Ok tt, MkFs (mf_files f) ({[uri]} ∪ mf_dirs f) (mf_faults f));
  sf_ls uri f := (if bool_decide (uri ∈ mem_entries f) then Ok (children uri f) else Err NotFoundError, f);
  sf_lock path f := (Ok 1, f);
  sf_unlock lease f := (Ok tt, f) |}.

Lemma children_iff uri f n : n ∈ children uri f <-> c_slash ∉ n /\ uri ++ [c_slash] ++ n ∈ mem_entries f.
Proof.
  unfold children. rewrite list_elem_of_omap. split.
  - intros (p & Hp & H). destruct (startswith (uri ++ [c_slash]) p) eqn:E; [|done]. apply startswith_inv in E. rewrite length_app in E. cbn [length] in E.
    destruct (bool_decide _) eqn:D; [done|]. cbn in H. apply bool_decide_eq_false in D. injection H as <-. split; [done|].
    rewrite app_assoc, <- E. by apply elem_of_elements.
  - intros [Hn He]. exists (uri ++ [c_slash] ++ n). split; [by apply elem_of_elements|].
    assert (drop (length uri + 1) (uri ++ [c_slash] ++ n) = n) as ->.
    { rewrite app_assoc. replace (length uri + 1)%nat with (length (uri ++ [c_slash])) by (by rewrite length_app). apply drop_app_length. }
    rewrite app_assoc, startswith_app, bool_decide_eq_false_2 by done. done.
Qed.

Lemma children_nodup uri f : NoDup (children uri f).
Proof.
  unfold children. match goal with |- NoDup (omap ?f _) => set (g := f) end.
  assert (forall p n, g p = Some n -> p = uri ++ [c_slash] ++ n) as Hg.
  { intros p n. unfold g. destruct (startswith (uri ++ [c_slash]) p) eqn:E; [|done]. apply startswith_inv in E. rewrite length_app in E. cbn [length] in E.
    destruct (bool_decide _); [done|]. intros [= <-]. by rewrite app_assoc, <- E. }
  generalize (NoDup_elements (mem_entries f)). generalize (elements (mem_entries f)). intros l.
  induction 1 as [|p l Hp _ IH]; [constructor|]. cbn. destruct (g p) as [n|] eqn:E; [|done]. constructor; [|done].
  rewrite list_elem_of_omap. intros (q & Hq & Hn). apply Hp. by rewrite (Hg _ _ E), <- (Hg _ _ Hn).
Qed.

(** A directory is short when its listing is. *)
Lemma short_mem uri f : (N.of_nat (length (children uri f)) <? NODE_LIMIT) = true -> short_dir uri (mem_entries f).
Proof.
  intros H%N.ltb_lt l Hnd Hsub. assert (length l <= length (children uri f))%nat; [|lia]. apply submseteq_length, NoDup_submseteq; [done|].
  intros n Hn. by apply children_iff, Hsub.
Qed.

Lemma memory_fs_ok flaky : SessionFSOk (FS := mem_fs flaky) memfs mf_files mem_entries.
Proof.
  split.
  - intros uri c f. apply mem_write_ok.
  - intros uri c f. apply mem_write_ok.
  - intros uri f. apply mem_read_ok.
  - intros uri f. cbn. split_and!; [done..|]. by intros b [= <-].
  - intros uri f. cbn. split; [done|]. destruct (bool_decide _) eqn:E; [split_and!; [apply children_nodup|intros n; apply children_iff|intros _ n ? _; by apply children_iff]|].
    apply bool_decide_eq_false in E. intros n H. by apply E, (mem_parent _ _ n).
  - intros uri f. cbn. split; [done|]. destruct (bool_decide _) eqn:E; [done|]. by apply bool_decide_eq_false in E.
  - done.
  - done.
  - done.
  - intros f p H. apply mem_entries_iff. exists p. split; [|by left]. apply elem_of_union. left. by apply elem_of_dom.
  - apply mem_parent.
Qed.

#[export] Instance steady_fs : SessionFS memfs := mem_fs false.
#[export] Instance steady_fs_ok : SessionFSOk memfs mf_files mem_entries := memory_fs_ok false.

Lemma next_entries f : mem_entries (next f).2 = mem_entries f.
Proof. unfold next. by destruct (mf_faults f). Qed.

#[export] Instance steady_reliable : ReliableFS mf_files mem_entries.
Proof.
  split.
  - intros uri f. cbn. unfold mem_read. pose proof (next_files f) as H. destruct (next f) as [[|e|e] f']; cbn in *; [right|by left|by left].
    rewrite <- H. by destruct (mf_files f' !! uri).
  - intros uri f a. cbn. unfold mem_read. pose proof (next_entries f) as H. destruct (next f) as [[|e|e] f']; cbn in *; by rewrite <- H.
  - done.
Qed.

(** ** A queue and tracker: the tasks with work *)

Record mem_back := MkBack { mb_work : list pystr; mb_failed : list (pystr * pystr) }.

#[export] Instance mem_backend : CommitBackend mem_back := {|
  cb_enqueue d b :=
    match dict_get d (u "task_id") with Some (VStr t) => (Ok tt, MkBack (t :: mb_work b) (mb_failed b)) | _ => (Err ValueError, b) end;
  cb_create _ _ _ _ b := (Ok PENDING, b);
  cb_complete _ _ _ _ b := (Ok tt, b);
  cb_fail t e _ _ b := (Ok tt, MkBack (mb_work b) ((t, e) :: mb_failed b));
  cb_has_work b t := mem t (mb_work b) |}.

#[export] Instance mem_backend_ok : CommitBackendOk mem_back.
Proof.
  split; [|done]. intros d b b' t H Ht _. unfold cb_enqueue in H. cbn [mem_backend] in H. rewrite Ht in H. injection H as <-. cbn. apply bool_decide_eq_true_2. by left.
Qed.

(** Messages with tool outputs that are never large. *)
Definition no_externalize : ST (list Message * memfs) unit := fun s => (Ok tt, s).
#[export] Instance no_externalize_ok uri : ExternalizeOk mf_files uri no_externalize.
Proof. by split. Qed.
#[export] Instance steady_names uri : NamesFS (entries := mem_entries) uri no_externalize.
Proof.
  split; [|done..]. intros p f. cbn. unfold mem_read. pose proof (next_entries f) as H. by destruct (next f) as [[|e|e] f'].
Qed.

(** ** Runs *)

Definition sid : pystr := u "s1".
Definition suri : pystr := u "viking://session/u1/s1".
Definition spath : pystr := u "/s1".
Definition acc : pystr := u "acc".
Definition usr : pystr := u "u1".
Definition clock (n : nat) : pystr := u "2026-01-01T00:00:0" ++ decimal (N.of_nat n).
Definition uuids (n : nat) : pystr := u "id" ++ decimal (N.of_nat n).

Definition fresh : session := MkSession [] [] 0 0 0 0 0 0 0 (new_meta sid (u "t0") acc usr) false.
Definition empty_fs : memfs := MkFs ∅ ∅ [].
Definition with_faults (l : list fault) (f : memfs) : memfs := MkFs (mf_files f) (mf_dirs f) l.
Definition no_back : mem_back := MkBack [] [].

Definition said (text : pystr) (key : option pystr) : message_spec :=
  MkSpec (Some (u "user")) (Some [TextPart text]) None None None None None (VStr <$> key).

Abbreviation add := (add_messages (B := mem_back) suri spath no_externalize clock).
Abbreviation commit := (commit_async sid suri spath acc usr true None no_externalize clock).
Abbreviation recover := (ensure_phase1_ready suri spath acc usr clock).

Definition keep (n : Z) : commit_args := MkCommit n None None None None None true false None.

Definition on_files (f : memfs) (b : mem_back) (s : session) : world memfs mem_back := MkWorld s f b.

(** Two messages arrive with keys, a commit keeps one of them and is cancelled after it
    rewrote the live file, a worker with a new object appends, another recovers. *)
Definition run_add := add uuids [said (u "hello") (Some (u "k1")); said (u "there") (Some (u "k2"))] (MkWorld fresh empty_fs no_back).
Definition faults_cancel : list fault := replicate 5 Fine ++ [After CancelledError].
Definition run_commit := commit 5 (u "task1") (keep 1) (MkWorld (w_self run_add.2) (with_faults faults_cancel (w_fs run_add.2)) no_back).
Definition run_second := add uuids [said (u "again") (Some (u "k2")); said (u "new") (Some (u "k3"))] (MkWorld fresh (with_faults [] (w_fs run_commit.2)) no_back).
Definition run_recover := recover (archive_uri_of suri 1) (MkWorld fresh (w_fs run_second.2) (w_back run_commit.2)).

(** The steps of this run, from the files after the first append on. *)
Definition first_id : pystr := u "msg_delivery_k1_0".
Definition commit_faults : memfs := with_faults faults_cancel (w_fs run_add.2).

Abbreviation mem_held := (held (files := mf_files) suri).

Lemma run_commit_step : op_step (files := mf_files) (B := mem_back) sid suri spath acc usr no_externalize commit_faults [] (w_fs run_commit.2).
Proof. eapply (step_commit _ _ _ _ _ _ _ (w_self run_add.2) no_back clock true None 5 (u "task1") (keep 1)). apply surjective_pairing. Qed.

(** A live file whose last line is complete. *)
Definition ends_well (f : memfs) : bool :=
  match mf_files f !! live_uri suri with Some c => bool_decide (last c = Some c_nl) | None => false end.
Lemma ends_well_ok f : ends_well f = true -> live_ok (files := mf_files) suri f.
Proof. unfold ends_well, live_ok. destruct (mf_files f !! live_uri suri) as [c|]; [|done]. intros H%bool_decide_eq_true. exists c. split; [done|by right]. Qed.


(** Both keyed messages of the second append are refused or new: the one that is live is
    not appended again. *)
Abbreviation mem_step := (op_step (files := mf_files) (B := mem_back) sid suri spath acc usr no_externalize).

Lemma run_second_step : mem_step (with_faults [] (w_fs run_commit.2)) (ids_of run_second.1) (w_fs run_second.2).
Proof.
  eapply (step_add _ _ _ _ _ _ _ fresh no_back clock uuids [said (u "again") (Some (u "k2")); said (u "new") (Some (u "k3"))]); [by repeat constructor|].
  apply surjective_pairing.
Qed.


(** A window of one message: the second message pushes the first out of it. *)
Definition one_msg : session := set_messages [MkMsg (u "m1") (u "user") [TextPart (u "hello world")] None (Some (u "t")) None None None]
  (upd_meta (fun m => set_retention 1 [] 0 0 1 m) fresh).
Definition next_msg : Message := MkMsg (u "m2") (u "user") [TextPart (u "bye")] None (Some (u "t")) None None None.

Lemma appended_pending_exact_witness :
  pending_exact (apply_appended_messages (u "t") [next_msg] one_msg)
  /\ (0 < sm_pending_tokens (s_meta (apply_appended_messages (u "t") [next_msg] one_msg)))%Z.
Proof. split; [|by vm_compute]. apply (appended_pending_exact (u "t") [next_msg] one_msg). by vm_compute. Defined.

Lemma meta_reread_witness :
  exists m, meta_from_dict text_of [(u "account_id", VStr (u "old")); (u "pending_tokens", VInt (-3))] = Ok m
    /\ sm_created_by_account_id m = u "old" /\ meta_from_dict text_of (meta_to_dict m) = Ok m.
Proof. eexists. split; [by vm_compute|]. split; [done|]. eapply meta_reread. instantiate (1 := [(u "account_id", VStr (u "old"))]). by vm_compute. Defined.

(** ** Recovering the cancelled commit *)

Definition parses (f : memfs) : bool :=
  match mf_files f !! live_uri suri with Some c => match parse_live c with Ok _ => true | Err _ => false end | None => false end.

Lemma live_is_unique ids f : live_is (files := mf_files) suri ids f -> ids = live_ids (files := mf_files) suri f.
Proof. intros (c & ms & Hc & Hp & Hm). unfold live_ids. by rewrite Hc, Hp. Qed.

Lemma live_is_parsed f : parses f = true -> live_is (files := mf_files) suri (live_ids (files := mf_files) suri f) f.
Proof.
  unfold parses, live_ids, live_is. destruct (mf_files f !! live_uri suri) as [c|]; [|done]. destruct (parse_live c) as [ms|] eqn:E; [|done].
  intros _. by exists c, ms.
Qed.

Definition third_id : list pystr := [u "msg_delivery_k3_0"].
Lemma second_appended : appended (files := mf_files) suri third_id (w_fs run_commit.2) (w_fs run_second.2).
Proof.
  split.
  - assert (mf_files (w_fs run_second.2) = <[live_uri suri := default [] (mf_files (w_fs run_second.2) !! live_uri suri)]>
      (<[meta_uri suri := default [] (mf_files (w_fs run_second.2) !! meta_uri suri)]> (mf_files (w_fs run_commit.2)))) as E
      by (apply (bool_decide_eq_true_1 _); by vm_compute).
    intros p Hp Hl. rewrite E, lookup_insert_ne by congruence. apply lookup_insert_ne. intros <-. revert Hp. apply beside_untracked; [literal_neq|intros x; literal_neq].
  - intros ids ->%live_is_unique.
    assert (live_ids (files := mf_files) suri (w_fs run_commit.2) ++ third_id = live_ids (files := mf_files) suri (w_fs run_second.2)) as ->
      by (apply (bool_decide_eq_true_1 _); by vm_compute).
    apply live_is_parsed. by vm_compute.
Qed.


(** ** Runs that go wrong *)

Definition outcome {A} (r : result A) : option exn := match r with Ok _ => None | Err e => Some e end.

(** Two requests create the session.  The first finds it missing; the second does too,
    creates it and appends a message; then the first writes its empty live file. *)
Abbreviation mem_steps := (steps (files := mf_files) (B := mem_back) sid suri spath acc usr no_externalize).
Abbreviation call c f := (creation_call (B := mem_back) suri clock c (MkWorld fresh f no_back)).
Definition run_create := ensure_exists (B := mem_back) suri clock (MkWorld fresh empty_fs no_back).
Definition run_said := add uuids [said (u "hello") (Some (u "k1"))] (MkWorld fresh (w_fs run_create.2) no_back).
Definition run_made := call FoundMissing (w_fs run_said.2).
Definition run_emptied := call MadeDir (w_fs run_made.2).

Example creation_race_loses_message :
  (exists ids, mem_steps (empty_fs, []) ids (w_fs run_emptied.2, [WroteBlank]) /\ first_id ∈ ids)
  /\ live_ids (files := mf_files) suri (w_fs run_emptied.2) = [] /\ elements (dom (mf_files (w_fs run_emptied.2))) ≡ₚ [live_uri suri; meta_uri suri].
Proof.
  split; [|split; [by vm_compute|apply (bool_decide_eq_true_1 _); by vm_compute]].
  assert (mem_steps (empty_fs, []) ([] ++ []) (empty_fs, [FoundMissing])) as H1.
  { eapply steps_more; [apply steps_none|]. exact (step_look sid suri spath acc usr no_externalize empty_fs [] fresh no_back (Ok false) (MkWorld fresh empty_fs no_back) eq_refl). }
  pose proof (ensure_exists_steps (files := mf_files) sid suri spath acc usr no_externalize clock fresh no_back empty_fs _ _ [FoundMissing] (surjective_pairing run_create)) as H2.
  assert (mem_steps (w_fs run_create.2, [FoundMissing]) ([] ++ ids_of run_said.1) (w_fs run_said.2, [FoundMissing])) as H3.
  { eapply steps_more; [apply steps_none|]. apply step_op.
    eapply (step_add _ _ _ _ _ _ _ fresh no_back clock uuids [said (u "hello") (Some (u "k1"))]); [by repeat constructor|apply surjective_pairing]. }
  eexists. split.
  - eapply steps_trans; [exact H1|]. eapply steps_trans; [exact H2|]. eapply steps_trans; [exact H3|]. eapply steps_more; [eapply steps_more; [apply steps_none|]|].
    + exact (step_creation sid suri spath acc usr no_externalize (w_fs run_said.2) [] FoundMissing [] fresh no_back clock _ _ (surjective_pairing run_made)).
    + assert (is_ok run_made.1 = true) as -> by by vm_compute. assert (is_ok run_emptied.1 = true) as E by by vm_compute.
      pose proof (step_creation sid suri spath acc usr no_externalize (files := mf_files) (w_fs run_made.2) [] MadeDir [] fresh no_back clock _ _ (surjective_pairing run_emptied)) as H.
      rewrite E in H. exact H.
  - apply (bool_decide_eq_true_1 _). by vm_compute.
Qed.

(** Listings that are cut: with the limit scaled down to one name and two archives, a key
    that was delivered is in the archive that is not listed, and is appended again. *)
Definition cut_fs (limit : nat) : SessionFS memfs := {|
  sf_read := mem_read false; sf_write := mem_write; sf_append := @sf_append memfs steady_fs; sf_exists := @sf_exists memfs steady_fs;
  sf_stat := @sf_stat memfs steady_fs; sf_mkdir := @sf_mkdir memfs steady_fs;
  sf_ls uri f := (if bool_decide (uri ∈ mem_entries f) then Ok (take limit (children uri f)) else Err NotFoundError, f);
  sf_lock := @sf_lock memfs steady_fs; sf_unlock := @sf_unlock memfs steady_fs |}.

Definition commit_all (f : memfs) : memfs := w_fs (commit 5 (u "task") (keep 0) (MkWorld fresh f no_back)).2.
Definition two_archives : memfs :=
  commit_all (w_fs (add uuids [said (u "there") (Some (u "k2"))] (MkWorld fresh (commit_all (w_fs run_said.2)) no_back)).2).
Definition run_cut := add_messages (FS := cut_fs 1) (B := mem_back) suri spath no_externalize clock uuids
  [said (u "hello") (Some (u "k1")); said (u "there") (Some (u "k2"))] (MkWorld fresh two_archives no_back).

Example unlisted_archive_repeats_delivery :
  archive_ids (files := mf_files) two_archives (archive_uri_of suri 1) = [u "msg_delivery_k1_0"]
  /\ archive_ids (files := mf_files) two_archives (archive_uri_of suri 2) = [u "msg_delivery_k2_0"]
  /\ ids_of run_cut.1 = [u "msg_delivery_k1_0"].
Proof. by vm_compute. Qed.

(** The archive's messages cannot be written: the commit fails and leaves a directory with
    metadata only.  From then on every append with a key raises. *)
Definition run_no_archive := commit 5 (u "task1") (keep 1) (MkWorld (w_self run_add.2) (with_faults (replicate 4 Fine ++ [Before OtherError]) (w_fs run_add.2)) no_back).
Definition run_blocked := add uuids [said (u "new") (Some (u "k3"))] (MkWorld fresh (with_faults [] (w_fs run_no_archive.2)) no_back).

Example keyed_append_blocked : outcome run_no_archive.1 = Some OtherError /\ outcome run_blocked.1 = Some NotFoundError.
Proof. by vm_compute. Qed.

(** On a store whose reads can fail for a moment, the metadata written with the retention
    plan replaces the marker; the commit is then cancelled before it rewrites the live
    file, and recovery still says ready: both messages stay live, and one is archived. *)
Definition by_turns : commit_args := MkCommit 0 None (Some (u "turn_budget")) (Some 1%Z) None None true false None.
Definition faults_flaky : list fault := replicate 5 Fine ++ [Before OtherError; Fine; Before CancelledError].
Definition run_flaky := commit_async (FS := mem_fs true) sid suri spath acc usr true None no_externalize clock 5 (u "task1") by_turns
  (MkWorld (w_self run_add.2) (with_faults faults_flaky (w_fs run_add.2)) no_back).
Definition run_misled := recover (archive_uri_of suri 1) (MkWorld fresh (with_faults [] (w_fs run_flaky.2)) (w_back run_flaky.2)).

Example lost_marker_misleads :
  outcome run_flaky.1 = Some CancelledError /\ run_misled.1 = Ok true
  /\ live_ids (files := mf_files) suri (w_fs run_misled.2) = [u "msg_delivery_k1_0"; u "msg_delivery_k2_0"]
  /\ archive_ids (files := mf_files) (w_fs run_misled.2) (archive_uri_of suri 1) = [u "msg_delivery_k1_0"].
Proof. by vm_compute. Qed.

(** Saving the metadata fails after the live file was rewritten: the archive is marked
    failed although its messages are in no other place. *)
Definition run_unsaved := commit 5 (u "task1") (keep 1) (MkWorld (w_self run_add.2) (with_faults (replicate 8 Fine ++ [Before OtherError]) (w_fs run_add.2)) no_back).

Example failed_archive_holds_messages :
  outcome run_unsaved.1 = Some OtherError /\ is_Some (mf_files (w_fs run_unsaved.2) !! failed_uri (archive_uri_of suri 1))
  /\ live_ids (files := mf_files) suri (w_fs run_unsaved.2) = [u "msg_delivery_k2_0"]
  /\ archive_ids (files := mf_files) (w_fs run_unsaved.2) (archive_uri_of suri 1) = [u "msg_delivery_k1_0"].
Proof. split; [by vm_compute|]. split; [apply (bool_decide_eq_true_1 _); by vm_compute|]. by vm_compute. Qed.

(** A tag whose key ends in a line feed passes the pattern. *)
Example tag_with_newline : normalize_search_tag (fun s => s) (u "a" ++ [10] ++ u "=b") = Ok (u "a" ++ [10] ++ u "=b").
Proof. by vm_compute. Qed.
