(* ===== verification/SessionContext.v ===== *)
(** The context of a session: what a reader is given of the live messages and the
    archives, of [session/session.py].

    Archives are read from the newest to the first that a commit has settled.  Those that
    are still pending give their messages, a completed one its overview and the checkpoints
    of turns that a commit has split. *)
From Stdlib Require Import NArith ZArith.
From S2P Require Import Prelude Effects PyStr PyVal Identifiers WorkIndex TaskRecord Tokens Message Retention ActiveBudget Overview SessionPolicy SessionMeta Session.

Open Scope N_scope.

(** ** Checkpoints *)

Definition CUMULATIVE_CHECKPOINT_VERSION : Z := 2.

(** A record of an archive's metadata. *)
Record checkpoint := MkCheckpoint { ck_sources : list pystr; ck_abstract : pystr; ck_version : Z }.

(** A checkpoint of one archive, and the one a context shows ([_CheckpointSnapshot]). *)
Record chunk := MkChunk { ch_sources : list pystr; ch_abstract : pystr; ch_archive_id : pystr; ch_archive_uri : pystr }.

(** The body of the loop of [_checkpoint_records_for_anchors]. *)
Definition checkpoint_record (anchor_ids : list pystr) (v : pyval) : option (pystr * checkpoint) :=
  match v with
  | VDict d =>
      match get_or_none d (u "turn_anchor_message_id"), get_or_none d (u "source_message_ids"), get_or_none d (u "abstract") with
      | VStr anchor_id, VList ((_ :: _) as source_ids), VStr abstract =>
          let valid := filter (fun s => nonempty s = true) (strings_of source_ids) in
          if mem anchor_id anchor_ids && nonempty (strip is_space abstract) && match valid with [] => false | _ => true end then
            let version := match to_int (default (VInt 1) (dict_get d (u "checkpoint_version"))) with Some z => Z.max 1 z | None => 1%Z end in
            Some (anchor_id, MkCheckpoint valid (strip is_space abstract) version)
          else None
      | _, _, _ => None
      end
  | _ => None
  end.

(** [grouped.setdefault(anchor_id, []).append(record)]. *)
Definition add_record {A} (grouped : list (pystr * list A)) (kr : pystr * A) : list (pystr * list A) :=
  dict_set grouped kr.1 (default [] (dict_get grouped kr.1) ++ [kr.2]).

(** [_checkpoint_records_for_anchors]. *)
Definition checkpoint_records_for_anchors (meta : pydict) (anchor_ids : list pystr) : list (pystr * list checkpoint) :=
  match get_or_none meta (u "checkpoints") with
  | VList checkpoints => foldl add_record [] (omap (checkpoint_record anchor_ids) checkpoints)
  | _ => []
  end.

(** The last cumulative record of an archive. *)
Definition cumulative (records : list checkpoint) : option checkpoint :=
  last (filter (fun r => (CUMULATIVE_CHECKPOINT_VERSION <=? ck_version r)%Z = true) records).

(** [sep.join(parts)] for the blank line between paragraphs. *)
Definition paragraphs (l : list pystr) : pystr := join [c_nl; c_nl] l.

(** What is known of one anchor: a cumulative base, and the deltas newer than it, newest
    first. *)
Record history := MkHistory { hi_base : option chunk; hi_legacy : list chunk; hi_resolved : bool }.

Definition chunk_of (id uri : pystr) (c : checkpoint) : chunk := MkChunk (ck_sources c) (ck_abstract c) id uri.

(** The body of the loop over one archive's records. *)
Definition extend_history (id uri : pystr) (histories : list (pystr * history)) (kr : pystr * list checkpoint) : list (pystr * history) :=
  match dict_get histories kr.1 with
  | None => histories
  | Some h =>
      dict_set histories kr.1
        match cumulative kr.2 with
        | Some c => MkHistory (Some (chunk_of id uri c)) (hi_legacy h) true
        | None => MkHistory (hi_base h)
                    (hi_legacy h ++ [MkChunk (first_occurrences [] (kr.2 ≫= ck_sources)) (paragraphs (ck_abstract <$> kr.2)) id uri]) (hi_resolved h)
        end
  end.

Definition unresolved (histories : list (pystr * history)) : list pystr := fst <$> filter (fun kh => hi_resolved kh.2 = false) histories.

(** Merging the chunks of an anchor in chronological order: the ids and the abstracts. *)
Definition merge_chunk (acc : list pystr * list pystr) (c : chunk) : list pystr * list pystr :=
  match filter (fun s => mem s acc.1 = false) (ch_sources c) with
  | [] => acc
  | fresh => (acc.1 ++ fresh, acc.2 ++ [ch_abstract c])
  end.

Definition snapshot_of (h : history) : option chunk :=
  let chunks := option_list (hi_base h) ++ reverse (hi_legacy h) in
  let '(ids, abstracts) := foldl merge_chunk ([], []) chunks in
  match ids, abstracts, head (hi_legacy h ++ option_list (hi_base h)) with
  | _ :: _, _ :: _, Some newest => Some (MkChunk ids (paragraphs abstracts) (ch_archive_id newest) (ch_archive_uri newest))
  | _, _, _ => None
  end.

(** The message that stands for the part of a turn a commit has archived. *)
Definition checkpoint_message (c : chunk) (m : Message) : Message :=
  MkMsg (u "checkpoint_" ++ ch_archive_id c ++ [c_under] ++ m_id m) (u "assistant") [ContextPart (ch_archive_uri c) (u "memory") (ch_abstract c)]
    None (m_created_at m) (m_turn_id m) (Some (u "checkpoint")) (Some (ch_sources c)).

(** The loop at the end of [_insert_terminal_checkpoints]. *)
Definition insert_checkpoints (candidates : list (pystr * chunk)) (messages : list Message) : list Message :=
  messages ≫= fun m => m :: match dict_get candidates (m_id m) with
                            | Some c => if nonempty (ch_abstract c) then [checkpoint_message c m] else []
                            | None => []
                            end.

(** [sorted(refs, key=index)]. *)
Fixpoint insert_ref_up (r : archive_ref) (l : list archive_ref) : list archive_ref :=
  match l with
  | [] => [r]
  | x :: l => if (ar_index r <=? ar_index x)%Z then r :: x :: l else x :: insert_ref_up r l
  end.
Definition sort_refs_up (l : list archive_ref) : list archive_ref := foldr insert_ref_up [] l.

(** [latest_archive] of the components of a context, and the components. *)
Record latest := MkLatest { la_id : pystr; la_uri : pystr; la_overview : pystr; la_tokens : Z }.
Record components := MkComponents { cx_latest : option latest; cx_total : nat; cx_failed : nat; cx_messages : list Message }.

(** The answer of [get_session_context]. *)
Record session_context := MkContext {
  sc_overview : pystr; sc_messages : list pydict; sc_estimated_tokens : Z; sc_total_archives : nat; sc_included_archives : nat;
  sc_dropped_archives : nat; sc_failed_archives : nat; sc_active_tokens : Z; sc_archive_tokens : Z }.

Section operations.
Context {F B : Type} {env : SessionEnv} {FS : SessionFS F}.
Context (session_uri : pystr) (now : nat -> pystr).

Abbreviation W := (world F B).
Abbreviation dumps := (fun d => json_dumps (VDict d)).

(** ** Reading archives *)

(** [_read_archive_overview]: only the reading of the file is guarded. *)
Definition read_archive_overview (archive_uri : pystr) : ST W pystr :=
  overview ← st_catch is_exception (c ← on_fs (sf_read (archive_uri ++ u "/.overview.md")); mret (Some c)) (fun _ => mret None);
  match overview with Some c => st_lift (body_for_preview c) | None => mret [] end.

(** [_read_archive_overview_tokens]. *)
Definition read_archive_overview_tokens (archive_uri overview : pystr) : ST W Z :=
  let overview_tokens := Z.of_N (estimate_text_tokens overview) in
  st_catch is_exception
    (content ← on_fs (sf_read (archive_meta_uri archive_uri));
     d ← st_lift (parse_object content);
     match to_int (default (VInt overview_tokens) (dict_get d (u "overview_tokens"))) with
     | Some meta_tokens => mret (Z.max overview_tokens meta_tokens)
     | None => st_raise TypeError
     end)
    (fun _ => mret overview_tokens).

(** The object in a marker file, or an empty one. *)
Definition read_marker (uri : pystr) : ST W pydict :=
  st_catch is_exception
    (content ← on_fs (sf_read uri);
     v ← st_lift (json_loads (if nonempty content then content else u "{}"));
     mret (match v with VDict d => d | _ => [] end))
    (fun _ => mret []).

(** The body of the loop of [_scan_archive_states]. *)
Definition archive_state (r : archive_ref) : ST W ArchiveState :=
  let state := MkArchive (ar_id r) (ar_uri r) (ar_index r) in
  done_exists ← archive_file_exists (done_uri (ar_uri r));
  if done_exists : bool then
    done ← read_marker (done_uri (ar_uri r));
    match get_or_none done (u "working_memory_enabled") with
    | VBool true =>
        overview ← read_archive_overview (ar_uri r);
        mret (if nonempty (strip is_space overview) then state ACompleted overview done []
              else state AFailed [] done [(u "stage", VStr (u "archive_overview")); (u "error", VStr (u "required overview is missing or unreadable"))])
    | _ => mret (state ACompleted [] done [])
    end
  else
    failed_exists ← archive_file_exists (failed_uri (ar_uri r));
    if failed_exists : bool then failed ← read_marker (failed_uri (ar_uri r)); mret (state AFailed [] [] failed)
    else mret (state APending [] [] []).

Fixpoint st_map {A C} (f : A -> ST W C) (l : list A) : ST W (list C) :=
  match l with [] => mret [] | x :: l => y ← f x; ys ← st_map f l; mret (y :: ys) end.

(** [_scan_archive_states]. *)
Definition scan_archive_states : ST W (list ArchiveState) :=
  refs ← list_archive_refs session_uri false;
  st_map archive_state (sort_refs_up refs).

(** [_get_completed_archive_refs]. *)
Definition get_completed_archive_refs (exclude_archive_uri : option pystr) (before_archive_index : option Z) : ST W (list archive_ref) :=
  states ← scan_archive_states;
  let excluded s := match exclude_archive_uri with
                    | Some e => nonempty e && nonempty (rstrip is_slash e) && seqb (as_uri s) (rstrip is_slash e)
                    | None => false
                    end in
  let late s := match before_archive_index with Some i => (i <=? as_index s)%Z | None => false end in
  mret ((fun s => MkRef (as_id s) (as_uri s) (as_index s))
          <$> filter (fun s => excluded s = false /\ late s = false /\ as_state s = ACompleted) (reverse states)).

(** The loop of [_get_effective_completed_checkpoints], newest archive first. *)
Fixpoint follow_checkpoints (refs : list archive_ref) (histories : list (pystr * history)) : ST W (list (pystr * history)) :=
  match refs with
  | [] => mret histories
  | r :: refs =>
      match unresolved histories with
      | [] => mret histories
      | open =>
          meta ← read_archive_meta (ar_uri r);
          follow_checkpoints refs (foldl (extend_history (ar_id r) (ar_uri r)) histories (checkpoint_records_for_anchors meta open))
      end
  end.

(** [_get_effective_completed_checkpoints]. *)
Definition get_effective_completed_checkpoints (anchor_ids : list pystr) (before_archive_index : option Z) : ST W (list (pystr * chunk)) :=
  match anchor_ids with
  | [] => mret []
  | _ =>
      refs ← get_completed_archive_refs None before_archive_index;
      histories ← follow_checkpoints refs ((fun a => (a, MkHistory None [] false)) <$> anchor_ids);
      mret (omap (fun kh => pair kh.1 <$> snapshot_of kh.2) histories)
  end.

(** ** Assembling a context *)

(** [_insert_terminal_checkpoints]. *)
Definition insert_terminal_checkpoints (messages : list Message) (terminal : option archive_ref) : ST W (list Message) :=
  match messages, terminal with
  | _ :: _, Some r =>
      meta ← read_archive_meta (ar_uri r);
      let grouped := checkpoint_records_for_anchors meta (m_id <$> messages) in
      let candidates := omap (fun kr => (fun c => (kr.1, chunk_of (ar_id r) (ar_uri r) c)) <$> cumulative kr.2) grouped in
      let legacy_ids := fst <$> filter (fun kr => cumulative kr.2 = None) grouped in
      legacy ← (match legacy_ids with [] => mret [] | _ => get_effective_completed_checkpoints legacy_ids (Some (ar_index r + 1)%Z) end);
      mret (insert_checkpoints (foldl (fun d kc => dict_set d kc.1 kc.2) candidates legacy) messages)
  | _, _ => mret messages
  end.

(** The first settled archive, and those before it. *)
Fixpoint find_terminal (refs newer_pending : list archive_ref) : ST W (list archive_ref * option (archive_ref * bool)) :=
  match refs with
  | [] => mret (newer_pending, None)
  | r :: refs =>
      state ← archive_terminal_state (ar_uri r);
      match state with
      | APending => find_terminal refs (newer_pending ++ [r])
      | ACompleted => mret (newer_pending, Some (r, true))
      | AFailed => mret (newer_pending, Some (r, false))
      end
  end.

(** The overview of the settled archive, and whether it counts as failed. *)
Definition latest_of (terminal : option (archive_ref * bool)) : ST W (option latest * nat) :=
  match terminal with
  | Some (r, true) =>
      overview ← read_archive_overview (ar_uri r);
      let overview := strip is_space overview in
      if nonempty overview then
        tokens ← read_archive_overview_tokens (ar_uri r) overview;
        mret (Some (MkLatest (ar_id r) (ar_uri r) overview tokens), 0%nat)
      else mret (None, 1%nat)
  | Some (_, false) => mret (None, 1%nat)
  | None => mret (None, 0%nat)
  end.

(** The messages of a pending archive; one without the file is skipped. *)
Definition pending_messages (r : archive_ref) : ST W (list Message) :=
  st_catch is_storage_not_found (read_archive_messages (ar_uri r)) (fun _ => mret []).

(** [_collect_session_context_components]. *)
Definition collect_session_context_components : ST W components :=
  refs ← list_archive_refs session_uri false;
  '(newer_pending, terminal) ← find_terminal refs [];
  '(latest_archive, failed_archives) ← latest_of terminal;
  archived ← st_map pending_messages (reverse newer_pending);
  live ← self s_messages;
  let merged := stable_deduplicate_messages (concat archived ++ live) in
  messages ← insert_terminal_checkpoints merged (match terminal with Some (r, true) => Some r | _ => None end);
  mret (MkComponents latest_archive (length refs) failed_archives messages).

(** [get_session_context]. *)
Definition get_session_context (token_budget : Z) : ST W session_context :=
  if (token_budget <? 0)%Z then st_raise ValueError
  else
    context ← collect_session_context_components;
    let budgeted := fit_active_messages_to_budget dumps (cx_messages context) token_budget in
    let message_tokens := ap_estimated_tokens budgeted in
    let remaining := Z.max 0 (token_budget - message_tokens) in
    let included := match cx_latest context with Some l => if (la_tokens l <=? remaining)%Z then Some l else None | None => None end in
    let archive_tokens := from_option la_tokens 0%Z included in
    mret (MkContext (from_option la_overview [] included) (Message.to_dict (now 0) <$> ap_messages budgeted) (message_tokens + archive_tokens)
            (cx_total context) 0 (cx_total context - cx_failed context) (cx_failed context) message_tokens archive_tokens).

(** [get_context_for_search]: the overview and the last messages. *)
Definition get_context_for_search (max_messages : Z) : ST W (pystr * list Message) :=
  context ← collect_session_context_components;
  let messages := cx_messages context in
  mret (from_option la_overview [] (cx_latest context),
        if (0 <? max_messages)%Z then drop (length messages - Z.to_nat max_messages) messages else []).

(** [_get_uncovered_archive_messages]. *)
Definition get_uncovered_archive_messages : ST W (list Message) :=
  states ← scan_archive_states;
  let covered := covered_archive_ids states in
  messages ← st_map (fun s => if mem (as_id s) covered || bool_decide (as_state s = ACompleted) then mret []
                              else pending_messages (MkRef (as_id s) (as_uri s) (as_index s))) states;
  mret (stable_deduplicate_messages (concat messages)).
End operations.
