(* ===== verification/SessionContextTheory.v ===== *)
(** The context of a session: it fits the budget it is asked for, reading it changes
    nothing, and it holds every message that no settled commit has taken over. *)
From Stdlib Require Import NArith ZArith.
From S2P Require Import Prelude Effects PyStr PyVal Identifiers WorkIndex TaskRecord Tokens Message Retention ActiveBudget ActiveBudgetTheory Overview SessionPolicy SessionMeta Session SessionFiles SessionArchives SessionFrame SessionTheory SessionContext.

Open Scope N_scope.

(** ** Deduplication *)

Lemma deduplicate_ids seen ms id : id ∈ (m_id <$> deduplicate_from seen ms) <-> id ∈ (m_id <$> ms) /\ id ∉ seen.
Proof.
  revert seen. induction ms as [|m ms IH]; intros seen; cbn [deduplicate_from]; [cbn; rewrite elem_of_nil; tauto|].
  destruct (mem (m_id m) seen) eqn:E.
  - apply bool_decide_eq_true in E. rewrite IH, fmap_cons, elem_of_cons. split; [tauto|]. intros [[->|H] Hn]; [done|tauto].
  - apply bool_decide_eq_false in E. rewrite !fmap_cons, !elem_of_cons, IH. destruct (decide (id = m_id m)) as [->|]; [tauto|]. set_solver.
Qed.

Lemma deduplicate_nodup seen ms : NoDup (m_id <$> deduplicate_from seen ms).
Proof.
  revert seen. induction ms as [|m ms IH]; intros seen; cbn [deduplicate_from]; [constructor|]. destruct (mem (m_id m) seen); [done|].
  rewrite fmap_cons. constructor; [|done]. rewrite deduplicate_ids. set_solver.
Qed.

(** ** Inserting checkpoints *)

(** A message that stands for the archived part of a turn. *)
Definition is_checkpoint (m : Message) : Prop := m_message_kind m = Some (u "checkpoint") /\ m_role m = u "assistant".

Lemma insert_checkpoints_spec candidates ms : exists ck : Message -> list Message,
  insert_checkpoints candidates ms = (ms ≫= fun m => m :: ck m) /\ forall m, Forall is_checkpoint (ck m).
Proof.
  eexists. split; [reflexivity|]. intros m. cbn. destruct (dict_get candidates (m_id m)) as [c|]; [|done]. destruct (nonempty (ch_abstract c)); [|done].
  by repeat constructor.
Qed.

(** ** Operations that only read *)

Create HintDb reads.

Section reading.
Context {F B : Type} {env : SessionEnv} {FS : SessionFS F}.
Context {files : F -> gmap pystr pystr} {entries : F -> gset pystr} {fs_ok : SessionFSOk F files entries}.
Context (session_uri : pystr).

Abbreviation W := (world F B).

Definition reads {A} (m : ST W A) : Prop := forall w, w_self (m w).2 = w_self w /\ files (w_fs (m w).2) = files (w_fs w).

Lemma reads_ret {A} (a : A) : reads (mret a).
Proof. done. Qed.
Lemma reads_raise {A} e : reads (st_raise (A := A) e).
Proof. done. Qed.
Lemma reads_lift {A} (r : result A) : reads (st_lift r).
Proof. done. Qed.
Lemma reads_self {A} (f : session -> A) : reads (self f).
Proof. done. Qed.
Lemma reads_bind {A C} (m : ST W A) (f : A -> ST W C) : reads m -> (forall a, reads (f a)) -> reads (m ≫= f).
Proof.
  intros Hm Hf w. rewrite st_bind_unfold. destruct (Hm w) as [H1 H2]. destruct (m w) as [[a|e] w']; [|done]. destruct (Hf a w') as [H3 H4]. cbn in *. split; congruence.
Qed.
Lemma reads_catch {A} caught (m : ST W A) h : reads m -> (forall e, reads (h e)) -> reads (st_catch caught m h).
Proof.
  intros Hm Hh w. unfold st_catch. destruct (Hm w) as [H1 H2]. destruct (m w) as [[a|e] w']; [done|]. destruct (caught e); [|done].
  destruct (Hh e w') as [H3 H4]. cbn in *. split; congruence.
Qed.
Lemma reads_fs {A} (op : ST F A) : (forall f, files (op f).2 = files f) -> reads (on_fs op).
Proof. intros H w. unfold on_fs. specialize (H (w_fs w)). by destruct (op (w_fs w)). Qed.
Lemma reads_read p : reads (on_fs (sf_read p)).
Proof. apply reads_fs. intros f. apply fs_read_ok. Qed.
Lemma reads_exists p : reads (on_fs (sf_exists p)).
Proof. apply reads_fs. intros f. apply fs_exists_ok. Qed.
Lemma reads_ls p : reads (on_fs (sf_ls p)).
Proof. apply reads_fs. intros f. apply fs_ls_ok. Qed.
#[local] Hint Resolve reads_ret reads_raise reads_lift reads_self reads_bind reads_catch reads_read reads_exists reads_ls : reads.

Lemma reads_map {A C} (f : A -> ST W C) l : (forall a, reads (f a)) -> reads (st_map f l).
Proof. intros H. induction l; cbn [st_map]; eauto 6 with reads. Qed.

Lemma reads_file_exists p : reads (archive_file_exists p).
Proof. unfold archive_file_exists. eauto with reads. Qed.
Lemma reads_archive_meta a : reads (read_archive_meta a).
Proof. unfold read_archive_meta. eauto with reads. Qed.
Lemma reads_archive_messages a : reads (read_archive_messages a).
Proof. unfold read_archive_messages. eauto with reads. Qed.
Lemma reads_refs strict : reads (list_archive_refs session_uri strict).
Proof. unfold list_archive_refs. eauto with reads. Qed.
Lemma reads_overview a : reads (read_archive_overview a).
Proof. unfold read_archive_overview. apply reads_bind; [eauto with reads|intros [|]]; eauto with reads. Qed.
#[local] Hint Resolve reads_map reads_file_exists reads_archive_meta reads_archive_messages reads_refs reads_overview : reads.

Lemma reads_tokens a o : reads (read_archive_overview_tokens a o).
Proof.
  unfold read_archive_overview_tokens. apply reads_catch; [|eauto with reads]. repeat (apply reads_bind; [eauto with reads|intros ?]). destruct (to_int _); eauto with reads.
Qed.
Lemma reads_marker a : reads (read_marker a).
Proof. unfold read_marker. eauto with reads. Qed.
Lemma reads_terminal a : reads (archive_terminal_state a).
Proof. unfold archive_terminal_state. apply reads_bind; [eauto with reads|intros [|]]; eauto with reads. Qed.
#[local] Hint Resolve reads_tokens reads_marker reads_terminal : reads.

Lemma reads_state r : reads (archive_state r).
Proof.
  unfold archive_state. apply reads_bind; [eauto with reads|intros [|]].
  - apply reads_bind; [eauto with reads|intros done]. destruct (get_or_none _ _) as [|[]| | | | |]; eauto with reads.
  - apply reads_bind; [eauto with reads|intros [|]]; eauto with reads.
Qed.
Lemma reads_completed x i : reads (get_completed_archive_refs session_uri x i).
Proof. unfold get_completed_archive_refs, scan_archive_states. eauto using reads_state with reads. Qed.
Lemma reads_follow refs hs : reads (follow_checkpoints refs hs).
Proof. revert hs. induction refs as [|r refs IH]; intros hs; cbn [follow_checkpoints]; [eauto with reads|]. destruct (unresolved hs); eauto with reads. Qed.
Lemma reads_effective ids i : reads (get_effective_completed_checkpoints session_uri ids i).
Proof. unfold get_effective_completed_checkpoints. destruct ids; eauto using reads_completed, reads_follow with reads. Qed.
Lemma reads_insert ms t : reads (insert_terminal_checkpoints session_uri ms t).
Proof.
  unfold insert_terminal_checkpoints. destruct ms as [|m ms], t as [r|]; try eauto with reads. apply reads_bind; [eauto with reads|intros meta].
  apply reads_bind; [|eauto with reads]. destruct (fst <$> _); eauto using reads_effective with reads.
Qed.
Lemma reads_find refs acc : reads (find_terminal refs acc).
Proof. revert acc. induction refs as [|r refs IH]; intros acc; cbn [find_terminal]; [eauto with reads|]. apply reads_bind; [eauto with reads|intros []]; eauto with reads. Qed.
Lemma reads_latest t : reads (latest_of t).
Proof.
  unfold latest_of. destruct t as [[r [|]]|]; eauto with reads. apply reads_bind; [eauto with reads|intros o]. destruct (nonempty _); eauto with reads.
Qed.
Lemma reads_pending r : reads (pending_messages r).
Proof. unfold pending_messages. eauto with reads. Qed.
#[local] Hint Resolve reads_insert reads_find reads_latest reads_pending : reads.

Lemma reads_components : reads (collect_session_context_components session_uri).
Proof.
  unfold collect_session_context_components. apply reads_bind; [eauto with reads|intros refs]. apply reads_bind; [eauto with reads|intros [pend term]].
  apply reads_bind; [eauto with reads|intros [l n]]. eauto 8 with reads.
Qed.

(** ** The budget *)

Definition latest_ok (l : latest) : Prop := (Z.of_N (estimate_text_tokens (la_overview l)) <= la_tokens l)%Z.

Lemma tokens_spec a o : spec (fun _ : W => True) (read_archive_overview_tokens a o) (fun z _ => (Z.of_N (estimate_text_tokens o) <= z)%Z) (fun _ _ => True).
Proof.
  unfold read_archive_overview_tokens. apply spec_catch with (E1 := fun _ _ => True); [|intros e _; by apply spec_ret|done].
  apply spec_bind with (R := fun _ _ => True); [by intros w; destruct (on_fs _ w) as [[]]|intros c].
  apply spec_bind with (R := fun _ _ => True); [by apply spec_lift|intros d]. destruct (to_int _); [apply spec_ret; intros; lia|by apply spec_raise].
Qed.

Lemma any_spec {A} (m : ST W A) : spec (fun _ : W => True) m (fun _ _ => True) (fun _ _ => True).
Proof. intros w _. by destruct (m w) as [[]]. Qed.

Lemma latest_spec t : spec (fun _ : W => True) (latest_of t) (fun r _ => from_option latest_ok True r.1) (fun _ _ => True).
Proof.
  unfold latest_of. destruct t as [[r [|]]|]; try (by apply spec_ret). apply spec_bind with (R := fun _ _ => True); [apply any_spec|intros o].
  destruct (nonempty _); [|by apply spec_ret]. eapply spec_bind; [apply tokens_spec|]. intros z. apply spec_ret. intros w H. exact H.
Qed.

Lemma components_latest : spec (fun _ : W => True) (collect_session_context_components session_uri) (fun c _ => from_option latest_ok True (cx_latest c)) (fun _ _ => True).
Proof.
  unfold collect_session_context_components. apply spec_bind with (R := fun _ _ => True); [apply any_spec|intros refs].
  apply spec_bind with (R := fun _ _ => True); [apply any_spec|intros [pend term]].
  eapply spec_bind; [apply latest_spec|]. intros [l n]. cbn [fst].
  eapply spec_bind; [apply (spec_pure (from_option latest_ok True l))|intros ?]. eapply spec_bind; [apply (spec_pure (from_option latest_ok True l))|intros ?].
  eapply spec_bind; [apply (spec_pure (from_option latest_ok True l))|intros ?]. by apply spec_ret.
Qed.

Abbreviation dumps := (fun d => json_dumps (VDict d)).

(** C32: a context fits.  Its messages and its overview together cost no more than the
    estimate it reports, which is no more than the budget asked for; the messages are the
    budgeted view of those the session has; and reading a context changes neither the
    files nor the session. *)
Theorem context_within_budget (now : nat -> pystr) (budget : Z) (w w' : W) (cx : session_context) :
  get_session_context session_uri now budget w = (Ok cx, w') ->
  (exists components w1,
     collect_session_context_components session_uri w = (Ok components, w1)
     /\ let view := ap_messages (fit_active_messages_to_budget dumps (cx_messages components) budget) in
        sc_messages cx = Message.to_dict (now 0%nat) <$> view
        /\ (message_tokens dumps view + Z.of_N (estimate_text_tokens (sc_overview cx)) <= sc_estimated_tokens cx <= budget)%Z)
  /\ w_self w' = w_self w /\ files (w_fs w') = files (w_fs w).
Proof.
  unfold get_session_context. destruct (Z.ltb_spec budget 0); [done|]. rewrite st_bind_unfold.
  pose proof (reads_components w) as Hreads. pose proof (components_latest w I) as Hl.
  destruct (collect_session_context_components session_uri w) as [[c|e] w1]; [|done]. intros [= <- <-]. split; [|exact Hreads].
  exists c, w1. split; [done|]. cbn zeta. split; [done|]. cbn [sc_overview sc_estimated_tokens].
  destruct (plan_tokens dumps (cx_messages c) budget) as [H1 H2]. rewrite H2. set (t := message_tokens dumps _) in *.
  destruct (cx_latest c) as [l|]; cbn [from_option default] in *; [|cbn; change (Z.of_N (estimate_text_tokens [])) with 0%Z; lia].
  unfold latest_ok in Hl. destruct (Z.leb_spec (la_tokens l) (Z.max 0 (budget - t))); cbn; [lia|]. change (Z.of_N (estimate_text_tokens [])) with 0%Z. lia.
Qed.

(** ** Completeness *)

(** A store that answers: listing and looking up files fail for missing ones only, and
    listing creates nothing. *)
Class AnsweringFS : Prop := {
  ls_entries : forall uri f, entries (sf_ls uri f).2 = entries f;
  ls_answers : forall uri f, (exists names, (sf_ls uri f).1 = Ok names) \/ (sf_ls uri f).1 = Err NotFoundError;
  exists_answers : forall uri f, exists b, (sf_exists uri f).1 = Ok b }.
Context {answering : AnsweringFS}.

(** The archives a listing shows, those a commit has settled, and those newer than all
    settled ones. *)
Definition listed (f : F) (r : archive_ref) : Prop := exists name,
  c_slash ∉ name /\ history_uri session_uri ++ [c_slash] ++ name ∈ entries f /\ ref_of (history_uri session_uri) name = Some r.
Definition settled (f : F) (r : archive_ref) : Prop := done_uri (ar_uri r) ∈ entries f \/ failed_uri (ar_uri r) ∈ entries f.
Definition open_archive (f : F) (r : archive_ref) : Prop :=
  listed f r /\ forall r', listed f r' -> (ar_index r <= ar_index r')%Z -> ~ settled f r'.

(** Two worlds with the same object, files and names. *)
Definition alike (w w' : W) : Prop := w_self w' = w_self w /\ files (w_fs w') = files (w_fs w) /\ entries (w_fs w') = entries (w_fs w).

Lemma alike_trans w1 w2 w3 : alike w1 w2 -> alike w2 w3 -> alike w1 w3.
Proof. intros (H1 & H2 & H3) (H4 & H5 & H6). split_and!; congruence. Qed.

Lemma file_exists_exact uri w : exists w', archive_file_exists uri w = (Ok (bool_decide (uri ∈ entries (w_fs w))), w') /\ alike w w'.
Proof.
  unfold archive_file_exists, st_catch, on_fs. destruct (fs_exists_ok (files := files) (entries := entries) uri (w_fs w)) as (Hf & He & Hb).
  destruct (exists_answers uri (w_fs w)) as [b Hans]. destruct (sf_exists uri (w_fs w)) as [r f']. cbn [fst snd] in *. subst r. rewrite (Hb b eq_refl).
  eexists. by split.
Qed.

Lemma terminal_exact r w : exists st w', archive_terminal_state (ar_uri r) w = (Ok st, w') /\ alike w w'
  /\ (st = APending <-> ~ settled (w_fs w) r).
Proof.
  unfold archive_terminal_state, settled. rewrite st_bind_unfold. destruct (file_exists_exact (done_uri (ar_uri r)) w) as (w1 & -> & H1). destruct (bool_decide _) eqn:E.
  - apply bool_decide_eq_true in E. exists ACompleted, w1. split_and!; [done|done|]. split; [done|tauto].
  - apply bool_decide_eq_false in E. rewrite st_bind_unfold. destruct (file_exists_exact (failed_uri (ar_uri r)) w1) as (w2 & -> & H2).
    destruct H1 as (? & ? & He). assert (alike w w2) by (eapply alike_trans; [|done]; done). rewrite He. destruct (bool_decide _) eqn:E2.
    + apply bool_decide_eq_true in E2. exists AFailed, w2. split_and!; [done|done|]. split; [done|tauto].
    + apply bool_decide_eq_false in E2. exists APending, w2. split_and!; [done|done|]. tauto.
Qed.

Lemma find_exact refs acc w : exists t pre post w', find_terminal refs acc w = (Ok (acc ++ pre, t), w') /\ alike w w' /\ refs = pre ++ post
  /\ Forall (fun r => ~ settled (w_fs w) r) pre /\ (post = [] \/ exists h rest, post = h :: rest /\ settled (w_fs w) h).
Proof.
  revert acc w. induction refs as [|r refs IH]; intros acc w; cbn [find_terminal].
  { exists None, [], [], w. rewrite app_nil_r. split_and!; [done..|by left]. }
  rewrite st_bind_unfold. destruct (terminal_exact r w) as (st & w1 & -> & H1 & Hst).
  assert (forall b : bool, st <> APending -> exists t pre post w', (Ok (acc, Some (r, b)), w1) = (Ok (acc ++ pre, t), w') /\ alike w w' /\ r :: refs = pre ++ post
    /\ Forall (fun r => ~ settled (w_fs w) r) pre /\ (post = [] \/ exists h rest, post = h :: rest /\ settled (w_fs w) h)) as Hstop.
  { intros b Hn. exists (Some (r, b)), [], (r :: refs), w1. rewrite app_nil_r. split_and!; [done..|]. right. exists r, refs. split; [done|].
    destruct (decide (done_uri (ar_uri r) ∈ entries (w_fs w))) as [?|N1]; [by left|]. destruct (decide (failed_uri (ar_uri r) ∈ entries (w_fs w))) as [?|N2]; [by right|].
    exfalso. apply Hn, Hst. by intros [?|?]. }
  destruct st; [|by apply Hstop..]. destruct (IH (acc ++ [r]) w1) as (t & pre & post & w' & E & H2 & -> & Hpre & Hpost).
  assert (forall r, settled (w_fs w1) r <-> settled (w_fs w) r) as Hs by (intros r'; unfold settled; by destruct H1 as (_ & _ & ->)).
  exists t, (r :: pre), post, w'. split_and!.
  - rewrite E. by rewrite <- app_assoc.
  - by eapply alike_trans.
  - done.
  - constructor; [by apply Hst|]. eapply Forall_impl; [exact Hpre|]. intros r' Hr'. by rewrite <- Hs.
  - destruct Hpost as [->|(h & rest & -> & Hh)]; [by left|right]. exists h, rest. split; [done|by apply Hs].
Qed.

(** References from the newest on. *)
Abbreviation newest_first := (StronglySorted (fun a b => (ar_index b <= ar_index a)%Z)).

Lemma sort_refs_sorted l : newest_first (sort_refs l).
Proof.
  induction l as [|r l IH]; [constructor|]. cbn [sort_refs foldr]. fold (sort_refs l). revert IH. generalize (sort_refs l). clear l. intros l.
  induction 1 as [|x l Hl IH Hx]; cbn [insert_ref]; [by repeat constructor|]. destruct (Z.ltb_spec (ar_index r) (ar_index x)).
  - constructor; [done|]. apply Forall_forall. intros y Hy. assert (y = r \/ y ∈ l) as [->|Hy'].
    { clear -Hy. induction l as [|z l IH]; cbn [insert_ref] in Hy; [apply list_elem_of_singleton in Hy; by left|]. destruct (_ <? _)%Z; rewrite !elem_of_cons in *; tauto. }
    + lia.
    + by apply (proj1 (Forall_forall _ _) Hx).
  - constructor; [by constructor|]. constructor; [lia|]. eapply Forall_impl; [exact Hx|]. cbn. lia.
Qed.

(** The history fits into one listing. *)
Abbreviation short_history f := (short_dir (history_uri session_uri) (entries f)).

Lemma archive_not_hidden uri name r : ref_of uri name = Some r -> startswith (u ".") name = false.
Proof.
  unfold ref_of. destruct (startswith ARCHIVE_PREFIX name) eqn:E; [|by rewrite orb_true_r]. intros _. apply startswith_inv in E. by rewrite E.
Qed.

Lemma refs_exact w : short_history (w_fs w) -> exists refs w', list_archive_refs session_uri false w = (Ok refs, w') /\ alike w w' /\ newest_first refs
  /\ forall r, r ∈ refs <-> listed (w_fs w) r.
Proof.
  intros Hshort. unfold list_archive_refs, st_catch. rewrite st_bind_unfold. unfold on_fs.
  destruct (fs_ls_ok (files := files) (entries := entries) (history_uri session_uri) (w_fs w)) as (Hf & Hn). pose proof (ls_entries (history_uri session_uri) (w_fs w)) as He.
  destruct (ls_answers (history_uri session_uri) (w_fs w)) as [[names Hl]|Hl]; destruct (sf_ls _ _) as [r f']; cbn [fst snd] in *; subst r.
  - destruct Hn as (Hnd & Hsub & Hall). specialize (Hall (Hshort names Hnd Hsub)).
    eexists _, _. split; [done|]. split; [done|]. split; [apply sort_refs_sorted|]. intros r. rewrite sort_refs_in, list_elem_of_omap. unfold listed.
    split; [intros (n & H1%Hsub & H2); exists n; by destruct H1|intros (n & H1 & H2 & H3); exists n; split; [apply Hall; [done|by eapply archive_not_hidden]|done]].
  - cbn. eexists _, _. split; [done|]. split; [done|]. split; [constructor|]. intros r. rewrite elem_of_nil. split; [done|]. intros (n & _ & H & _). by eapply Hn.
Qed.

Lemma spec_map {A C : Type} (P : W -> Prop) (f : A -> ST W C) (R : A -> C -> Prop) (E : exn -> W -> Prop) (l : list A) :
  (forall a, spec P (f a) (fun c w => P w /\ R a c) E) -> spec P (st_map f l) (fun cs w => P w /\ Forall2 R l cs) E.
Proof.
  intros H. induction l as [|a l IH]; cbn [st_map]; [apply spec_ret; intros w Hw; by split; [|constructor]|].
  eapply spec_bind; [apply H|]. intros c w [Hw Hc]. rewrite st_bind_unfold. specialize (IH w Hw). destruct (st_map f l w) as [[cs|e] w']; [|done]. cbn.
  destruct IH as [H1 H2]. split; [done|by constructor].
Qed.

Abbreviation archive_ids := (archive_ids (files := files)).

Lemma pending_spec f0 r : spec (fun w : W => files (w_fs w) = files f0) (pending_messages r)
  (fun ms w => files (w_fs w) = files f0 /\ m_id <$> ms = archive_ids f0 (ar_uri r)) (fun _ _ => True).
Proof.
  intros w Hw. unfold pending_messages, read_archive_messages, st_catch. rewrite st_bind_unfold. unfold on_fs.
  destruct (fs_read_ok (archive_messages_uri (ar_uri r)) (w_fs w)) as [H1 H2]. unfold SessionTheory.archive_ids. rewrite Hw in *.
  destruct (sf_read _ _) as [[c|e] f']; cbn [fst snd] in *.
  - unfold st_lift. rewrite H2. destruct (parse_archive c) as [ms|e] eqn:Hp; [done|].
    assert (e = ValueError) as -> by (unfold parse_archive, strictly in Hp; destruct (parse_lines _); congruence). done.
  - destruct (is_storage_not_found e) eqn:E; [|done]. destruct e; try done. cbn. by rewrite H2.
Qed.

Lemma insert_spec ms t :
  spec (fun _ : W => True) (insert_terminal_checkpoints session_uri ms t)
    (fun r _ => exists ck, r = (ms ≫= fun m => m :: ck m) /\ forall m, Forall is_checkpoint (ck m)) (fun _ _ => True).
Proof.
  assert (exists ck : Message -> list Message, ms = (ms ≫= fun m => m :: ck m) /\ forall m, Forall is_checkpoint (ck m)) as Hnone.
  { exists (fun _ => []). split; [|done]. clear. induction ms as [|m ms IH]; [done|]. cbn. by f_equal. }
  unfold insert_terminal_checkpoints. destruct ms as [|m ms], t as [r|]; try (by apply spec_ret).
  apply spec_bind with (R := fun _ _ => True); [apply any_spec|intros meta]. apply spec_bind with (R := fun _ _ => True); [apply any_spec|intros legacy].
  apply spec_ret. intros w _. apply insert_checkpoints_spec.
Qed.

(** The archives before the first settled one are those newer than all settled ones. *)
Lemma prefix_open (f f1 : F) pre post r :
  (forall r r', listed f r -> listed f r' -> ar_index r = ar_index r' -> r = r') -> newest_first (pre ++ post) ->
  (forall r, r ∈ pre ++ post <-> listed f r) -> (forall r, settled f1 r <-> settled f r) -> Forall (fun r => ~ settled f1 r) pre ->
  (post = [] \/ exists h rest, post = h :: rest /\ settled f1 h) -> r ∈ pre <-> open_archive f r.
Proof.
  intros Hinj Hsorted Hrefs Hs Hpre Hpost. rewrite Forall_forall in Hpre. apply StronglySorted_app in Hsorted as (Hlt & _ & Hrest). split.
  - intros Hr. assert (listed f r) as Hl by (apply Hrefs, elem_of_app; by left). split; [done|]. intros r' Hr' Hle. rewrite <- Hs.
    pose proof Hr' as Hin. apply Hrefs, elem_of_app in Hin as [Hin|Hin]; [by apply Hpre|].
    specialize (Hlt _ _ Hr Hin). replace r' with r by (apply Hinj; [done|done|lia]). by apply Hpre.
  - intros [Hl Ho]. pose proof Hl as Hin. apply Hrefs, elem_of_app in Hin as [Hin|Hin]; [done|]. exfalso.
    destruct Hpost as [->|(h & rest & -> & Hh)]; [by apply elem_of_nil in Hin|]. assert (listed f h) as Hlh by (apply Hrefs, elem_of_app; right; by left).
    apply (Ho h); [done| |by apply Hs]. apply elem_of_cons in Hin as [->|Hin]; [lia|]. inversion Hrest as [|? ? _ Hall]; subst.
    by apply (proj1 (Forall_forall _ _) Hall).
Qed.

Lemma archived_ids f0 (refs : list archive_ref) (archived : list (list Message)) :
  Forall2 (fun r ms => m_id <$> ms = archive_ids f0 (ar_uri r)) refs archived ->
  forall id, id ∈ (m_id <$> concat archived) <-> exists r, r ∈ refs /\ id ∈ archive_ids f0 (ar_uri r).
Proof.
  induction 1 as [|r ms refs archived Hr _ IH]; intros id.
  { cbn. rewrite elem_of_nil. split; [done|]. by intros (r & H%elem_of_nil & _). }
  cbn [concat]. rewrite fmap_app, elem_of_app, IH, Hr. setoid_rewrite elem_of_cons. split.
  - intros [H|(r' & H1 & H2)]; [exists r; tauto|exists r'; tauto].
  - intros (r' & [->|H1] & H2); [by left|right; by exists r'].
Qed.

(** C8: a context is complete.  Without the checkpoints that stand for archived parts of
    turns, its messages are, each once, the live messages and those of the archives newer
    than every settled one; an archive whose messages were never written has none.  This
    is on a store that answers: listing a directory and looking a marker up fail for
    missing ones only (the code takes any other failure for an empty history or a missing
    marker, and [failed_listing_hides_archives] shows what is then left out), for a
    history of fewer than 1000 entries, which one listing shows, and with no two archive
    directories of the same number. *)
Theorem context_complete (w w' : W) (c : components) :
  short_history (w_fs w) ->
  (forall r r', listed (w_fs w) r -> listed (w_fs w) r' -> ar_index r = ar_index r' -> r = r') ->
  collect_session_context_components session_uri w = (Ok c, w') ->
  exists (merged : list Message) (checkpoints : Message -> list Message),
    cx_messages c = (merged ≫= fun m => m :: checkpoints m) /\ (forall m, Forall is_checkpoint (checkpoints m)) /\ NoDup (m_id <$> merged)
    /\ forall id, id ∈ (m_id <$> merged) <->
         id ∈ (m_id <$> s_messages (w_self w)) \/ exists r, open_archive (w_fs w) r /\ id ∈ archive_ids (w_fs w) (ar_uri r).
Proof.
  intros Hshort Hinj. unfold collect_session_context_components. rewrite st_bind_unfold. destruct (refs_exact w Hshort) as (refs & w1 & -> & A1 & Hsorted & Hrefs).
  rewrite st_bind_unfold. destruct (find_exact refs [] w1) as (t & pre & post & w2 & -> & A2 & -> & Hpre & Hpost). cbn [app].
  assert (forall r, settled (w_fs w1) r <-> settled (w_fs w) r) as Hs by (intros r'; unfold settled; by destruct A1 as (_ & _ & ->)).
  assert (forall r, r ∈ pre <-> open_archive (w_fs w) r) as Hopen by (intros r; eapply prefix_open; eauto).
  rewrite st_bind_unfold. pose proof (reads_latest t w2) as Rl. destruct (latest_of t w2) as [[[l n]|e] w3]; [|done]. cbn [snd] in Rl.
  destruct A1 as (A1 & B1 & _), A2 as (A2 & B2 & _), Rl as [A3 B3].
  rewrite st_bind_unfold. pose proof (spec_map _ _ _ _ (reverse pre) (pending_spec (w_fs w)) w3 ltac:(congruence)) as Hp.
  pose proof (reads_map pending_messages (reverse pre) reads_pending w3) as [A4 _].
  destruct (st_map pending_messages (reverse pre) w3) as [[archived|e] w4]; [|done]. destruct Hp as [B4 Hp]. cbn [snd] in A4.
  rewrite st_bind_unfold. cbn [self st_gets]. assert (w_self w4 = w_self w) as -> by congruence.
  set (merged := stable_deduplicate_messages _). rewrite st_bind_unfold.
  pose proof (insert_spec merged (match t with Some (r, true) => Some r | _ => None end) w4 I) as Hi.
  destruct (insert_terminal_checkpoints _ _ _ w4) as [[ms|e] w5]; [|done]. destruct Hi as (ck & -> & Hck). intros [= <- _]. cbn [cx_messages].
  exists merged, ck. split_and!; [done|done|apply deduplicate_nodup|]. intros id. unfold merged, stable_deduplicate_messages. rewrite deduplicate_ids, fmap_app, elem_of_app.
  rewrite (archived_ids _ _ _ Hp id). setoid_rewrite elem_of_reverse. setoid_rewrite Hopen. rewrite elem_of_nil. tauto.
Qed.
End reading.
