(* ===== verification/SessionCheckpoints.v ===== *)
(** Checkpoints of a commit: Phase 2 asks for a summary of every turn that a commit has
    split, binds the summaries to the messages they stand for, and the next context reads
    them back, of [session/session.py]. *)
From Stdlib Require Import NArith ZArith.
From S2P Require Import Prelude Effects PyStr PyVal Identifiers WorkIndex TaskRecord Tokens Message Retention ActiveBudget Overview SessionPolicy SessionMeta Session SessionFiles SessionContext.

Open Scope N_scope.

(** [sorted(l, key=key)]. *)
Fixpoint insert_by {A} (key : A -> Z) (x : A) (l : list A) : list A :=
  match l with
  | [] => [x]
  | y :: l => if (key x <=? key y)%Z then x :: y :: l else y :: insert_by key x l
  end.
Definition sort_by {A} (key : A -> Z) (l : list A) : list A := foldr (insert_by key) [] l.

(** [_CheckpointRequest]. *)
Record checkpoint_request := MkRequest {
  rq_anchor : pystr; rq_sources : list pystr; rq_budget : Z; rq_tokens : Z; rq_previous_abstract : pystr; rq_previous_sources : list pystr }.

(** What the messages of a commit are looked up by: the last message of an id, its
    position, and the anchor of its turn. *)
Definition message_by_id (messages : list Message) : list (pystr * Message) := foldl (fun d m => dict_set d (m_id m) m) [] messages.
Definition message_order (messages : list Message) : list (pystr * nat) := foldl (fun d im => dict_set d (m_id im.2) im.1) [] (imap pair messages).
Definition turn_anchor_by_message_id (messages : list Message) : list (pystr * option pystr) :=
  foldl (fun d t => foldl (fun d m => dict_set d (m_id m) (m_id <$> anchor t)) d (turn_messages t)) [] (build_turns id messages).
Definition order_of (messages : list Message) (id : pystr) : Z := Z.of_nat (default 0%nat (dict_get (message_order messages) id)).

(** A source outside the assistant's part of the anchored turn. *)
Definition invalid_source (messages : list Message) (anchor_id source_id : pystr) : bool :=
  match dict_get (message_by_id messages) source_id with Some m => is_user_query m | None => false end
  || negb (bool_decide (dict_get (turn_anchor_by_message_id messages) source_id = Some (Some anchor_id))).

(** The plan in one archive's metadata, if it split a turn: anchor, sources, budget and
    tokens. *)
Definition checkpoint_plan (messages : list Message) (meta : pydict) : result (option (pystr * list pystr * Z * Z)) :=
  match get_or_none meta (u "retention_plan") with
  | VDict plan =>
      if negb (py_truthy (get_or_none plan (u "partial_turn"))) then Ok None
      else
        match get_or_none plan (u "turn_anchor_message_id"), get_or_none plan (u "checkpoint_source_message_ids") with
        | VStr anchor_id, VList ((_ :: _) as raw_source_ids) =>
            let source_ids := filter (fun s => nonempty s = true) (strings_of raw_source_ids) in
            if negb (nonempty anchor_id) then Err ValueError
            else if negb (length source_ids =? length raw_source_ids)%nat then Err ValueError
            else if existsb (fun id => negb (mem id (m_id <$> messages))) (anchor_id :: source_ids) then Err ValueError
            else if existsb (invalid_source messages anchor_id) source_ids then Err ValueError
            else
              budget ← nonneg_int (default (VInt 0) (dict_get plan (u "retained_message_token_budget")));
              tokens ← nonneg_int (default (VInt 0) (dict_get plan (u "estimated_active_tokens")));
              Ok (Some (anchor_id, source_ids, budget, tokens))
        | _, _ => Err ValueError
        end
  | _ => Ok None
  end.

(** Requests of one anchor are merged; the newest plan's numbers stay. *)
Definition merge_request (merged : list (pystr * (list pystr * Z * Z))) (p : pystr * list pystr * Z * Z) : list (pystr * (list pystr * Z * Z)) :=
  let '(anchor_id, source_ids, budget, tokens) := p in
  let old := match dict_get merged anchor_id with Some (ids, _, _) => ids | None => [] end in
  dict_set merged anchor_id (first_occurrences [] (old ++ source_ids), budget, tokens).

(** The least position of a request's sources; requests have at least one. *)
Definition first_position (messages : list Message) (ids : list pystr) : Z :=
  match order_of messages <$> ids with [] => 0%Z | i :: l => foldl Z.min i l end.

Section operations.
Context {F B : Type} {env : SessionEnv} {FS : SessionFS F}.
Context (session_uri : pystr).

Abbreviation W := (world F B).

Fixpoint gather_requests (messages : list Message) (archive_root : pystr) (archive_ids : list pystr) (merged : list (pystr * (list pystr * Z * Z)))
    : ST W (list (pystr * (list pystr * Z * Z))) :=
  match archive_ids with
  | [] => mret merged
  | archive_id :: archive_ids =>
      meta ← read_archive_meta (archive_root ++ [c_slash] ++ archive_id);
      p ← st_lift (checkpoint_plan messages meta);
      gather_requests messages archive_root archive_ids (match p with Some p => merge_request merged p | None => merged end)
  end.

(** [_collect_checkpoint_requests_for_phase2]. *)
Definition collect_checkpoint_requests (archive_uri : pystr) (covered_failed_archives : list pystr) (messages : list Message) : ST W (list checkpoint_request) :=
  let ids := first_occurrences [] (filter (fun id => archive_number id <> None) (covered_failed_archives ++ [uri_name archive_uri])) in
  let archive_ids := sort_by (fun id => default 0%Z (archive_number id)) ids in
  merged ← gather_requests messages (uri_dir archive_uri) archive_ids [];
  let requests := sort_by (fun r => first_position messages (rq_sources r))
        ((fun kr => MkRequest kr.1 (sort_by (order_of messages) kr.2.1.1) kr.2.1.2 kr.2.2 [] []) <$> merged) in
  index ← st_lift (archive_index_from_uri archive_uri);
  previous ← get_effective_completed_checkpoints session_uri (rq_anchor <$> requests) (Some index);
  mret ((fun r => match dict_get previous (rq_anchor r) with
                  | Some c => MkRequest (rq_anchor r) (rq_sources r) (rq_budget r) (rq_tokens r) (ch_abstract c) (ch_sources c)
                  | None => r
                  end) <$> requests).
End operations.

(** The budget of a summary. *)
Definition checkpoint_budget (r : checkpoint_request) : Z :=
  if (0 <? rq_budget r)%Z then
    let available := (rq_budget r - rq_tokens r)%Z in
    if (0 <? available)%Z then Z.min 1024 available else Z.min 256 (rq_budget r)
  else 1024%Z.

Definition all_sources (r : checkpoint_request) : list pystr := first_occurrences [] (rq_previous_sources r ++ rq_sources r).

(** One record of [_build_checkpoint_records]. *)
Definition build_checkpoint_record (r : checkpoint_request) (raw_summary : pystr) : result pydict :=
  let summary := strip is_space raw_summary in
  if negb (nonempty summary) then Err ValueError
  else
    let abstract := truncate_text_to_token_budget summary (Z.max 1 (checkpoint_budget r)) in
    if negb (nonempty abstract) then Err ValueError
    else Ok [(u "checkpoint_version", VInt CUMULATIVE_CHECKPOINT_VERSION); (u "turn_anchor_message_id", VStr (rq_anchor r));
             (u "source_message_ids", VList (VStr <$> all_sources r)); (u "abstract", VStr abstract);
             (u "estimated_tokens", VInt (Z.of_N (estimate_text_tokens abstract)))].

(** [_build_checkpoint_records]. *)
Fixpoint build_records (requests : list checkpoint_request) (summaries : list pystr) : result (list pydict) :=
  match requests, summaries with
  | r :: requests, s :: summaries => d ← build_checkpoint_record r s; ds ← build_records requests summaries; Ok (d :: ds)
  | _, _ => Ok []
  end.
Definition build_checkpoint_records (requests : list checkpoint_request) (summaries : list pystr) : result (list pydict) :=
  if negb (length summaries =? length requests)%nat then Err ValueError else build_records requests summaries.

(** ** Reading a checkpoint back *)

Lemma strip_nonempty p (s : pystr) x : x ∈ s -> p x = false -> nonempty (strip p s) = true.
Proof.
  intros Hx Hp. destruct (nonempty (strip p s)) eqn:E; [done|]. apply nonempty_false in E. exfalso.
  destruct (lstrip_decomp p s) as (k & Hk & Hall). unfold strip in E. destruct (rstrip_decomp p (lstrip p s)) as (k' & Hk' & Hall'). rewrite E in Hk'. cbn in Hk'.
  rewrite Hk, Hk' in Hx. apply elem_of_app in Hx as [Hx|Hx]; [apply (proj1 (Forall_forall _ _) Hall) in Hx|apply (proj1 (Forall_forall _ _) Hall') in Hx]; cbn in Hx; congruence.
Qed.

(** Truncation leaves something to see. *)
Lemma truncate_visible (text : pystr) (b : Z) : strip is_space text = text -> nonempty (truncate_text_to_token_budget text b) = true ->
  nonempty (strip is_space (truncate_text_to_token_budget text b)) = true.
Proof.
  intros Hs. unfold truncate_text_to_token_budget. destruct (_ || _); [by rewrite Hs|]. destruct (b <=? 0)%Z; [done|].
  set (mk := if _ <=? _ then _ else _). assert (mk.1 = [] \/ mk.1 = MARKER) as Hmk by (unfold mk; destruct (_ <=? _); [by left|by right]). destruct mk as [marker mt]. cbn [fst] in Hmk.
  set (a := rstrip is_space (take _ _)). set (t := lstrip is_space _). intros Hne.
  assert (exists x, x ∈ a ++ marker ++ t /\ is_space x = false) as (x & Hx & Hp); [|by eapply strip_nonempty].
  destruct (last a) as [x|] eqn:Ea.
  { exists x. split; [apply elem_of_app; left; by apply last_Some_elem_of|]. by eapply rstrip_last. }
  apply last_None in Ea. rewrite Ea in *. cbn [app] in *. destruct t as [|x t'] eqn:Et.
  - rewrite app_nil_r in *. destruct Hmk as [->| ->]; [done|]. exists 0x2026. split; [|by vm_compute]. apply (bool_decide_eq_true_1 _). by vm_compute.
  - exists x. split; [apply elem_of_app; right; by left|]. by eapply lstrip_head.
Qed.

(** The abstract a record shows. *)
Definition shown_abstract (r : checkpoint_request) (raw_summary : pystr) : pystr :=
  strip is_space (truncate_text_to_token_budget (strip is_space raw_summary) (Z.max 1 (checkpoint_budget r))).

(** Requests whose sources have names. *)
Definition request_ok (r : checkpoint_request) : Prop := all_sources r <> [] /\ Forall (fun s => nonempty s = true) (all_sources r).

Definition shown_checkpoint (r : checkpoint_request) (s : pystr) : checkpoint := MkCheckpoint (all_sources r) (shown_abstract r s) CUMULATIVE_CHECKPOINT_VERSION.

Lemma record_reread r s d anchors : build_checkpoint_record r s = Ok d -> request_ok r ->
  checkpoint_record anchors (VDict d) = if mem (rq_anchor r) anchors then Some (rq_anchor r, shown_checkpoint r s) else None.
Proof.
  unfold build_checkpoint_record. destruct (nonempty (strip is_space s)) eqn:E1; [|done]. destruct (nonempty (truncate_text_to_token_budget _ _)) eqn:E2; [|done].
  intros [= <-] [Hne Hall]. cbn [negb]. set (t := truncate_text_to_token_budget _ _) in *.
  assert (nonempty (strip is_space t) = true) as E3 by (apply truncate_visible; [apply strip_idemp|done]).
  change (checkpoint_record anchors _) with
    (match VList (VStr <$> all_sources r) with
     | VList ((_ :: _) as source_ids) =>
         let valid := filter (fun s => nonempty s = true) (strings_of source_ids) in
         if mem (rq_anchor r) anchors && nonempty (strip is_space t) && match valid with [] => false | _ => true end
         then Some (rq_anchor r, MkCheckpoint valid (strip is_space t) 2) else None
     | _ => None
     end).
  destruct (VStr <$> all_sources r) as [|v vs] eqn:Ev; [by apply fmap_nil_inv in Ev|]. rewrite <- Ev, strings_of_texts, filter_all by done. cbn zeta.
  rewrite E3, andb_true_r. destruct (all_sources r) as [|x l] eqn:Es; [done|]. rewrite andb_true_r. unfold shown_checkpoint. by rewrite Es.
Qed.

Lemma group_distinct {A} (l : list (pystr * A)) acc : NoDup ((fst <$> acc) ++ (fst <$> l)) -> foldl add_record acc l = acc ++ ((fun kx => (kx.1, [kx.2])) <$> l).
Proof.
  revert acc. induction l as [|[k x] l IH]; intros acc H; [by rewrite app_nil_r|]. cbn [foldl]. change (NoDup ((fst <$> acc) ++ k :: (fst <$> l))) in H. change ((fun kx => (kx.1, [kx.2])) <$> (k, x) :: l) with ((k, [x]) :: ((fun kx => (kx.1, [kx.2])) <$> l)).
  assert (k ∉ (fst <$> acc)) as Hk. { apply NoDup_app in H as (_ & H & _). intros Hin. apply (H k Hin). by left. }
  unfold add_record at 2. cbn [fst snd]. rewrite (proj2 (dict_get_None acc k) Hk). cbn [default app]. rewrite dict_set_fresh by done.
  rewrite IH; [by rewrite <- app_assoc|]. rewrite fmap_app, <- app_assoc. exact H.
Qed.

(** The records of an archive, by anchor. *)
Lemma records_reread requests summaries records anchors : Forall request_ok requests -> length summaries = length requests -> build_records requests summaries = Ok records ->
  omap (checkpoint_record anchors) (VDict <$> records)
  = omap (fun rs => if mem (rq_anchor rs.1) anchors then Some (rq_anchor rs.1, shown_checkpoint rs.1 rs.2) else None) (zip requests summaries).
Proof.
  intros Hok. revert summaries records. induction Hok as [|r requests Hr _ IH]; intros [|s summaries] records Hl; try done; [by intros [= <-]|].
  cbn [build_records]. intros (d & Hd & H)%result_bind_ok. apply result_bind_ok in H as (ds & Hds & H). injection H as <-. rewrite fmap_cons. cbn [zip zip_with omap list_omap fst snd].
  rewrite (record_reread r s d anchors Hd Hr). by rewrite (IH summaries ds) by (first [done|cbn in Hl; lia]).
Qed.

Lemma record_visible r s d : build_checkpoint_record r s = Ok d -> nonempty (shown_abstract r s) = true.
Proof.
  unfold build_checkpoint_record. destruct (nonempty (strip is_space s)); [|done]. destruct (nonempty (truncate_text_to_token_budget _ _)) eqn:E; [|done]. intros _.
  apply truncate_visible; [apply strip_idemp|done].
Qed.

Lemma records_visible requests summaries records : build_records requests summaries = Ok records ->
  Forall (fun rs => nonempty (shown_abstract rs.1 rs.2) = true) (zip requests summaries).
Proof.
  revert summaries records. induction requests as [|r requests IH]; intros [|s summaries] records; cbn [build_records zip zip_with]; try (by constructor).
  intros (d & Hd & H)%result_bind_ok. apply result_bind_ok in H as (ds & Hds & _). constructor; [by eapply record_visible|by eapply IH].
Qed.

Lemma shown_keys anchors (l : list (checkpoint_request * pystr)) : NoDup (rq_anchor <$> l.*1) ->
  NoDup (omap (fun rs => if mem (rq_anchor rs.1) anchors then Some (rq_anchor rs.1, shown_checkpoint rs.1 rs.2) else None) l).*1.
Proof.
  set (f := fun rs : checkpoint_request * pystr => _).
  assert (forall l, (omap f l).*1 `sublist_of` (rq_anchor <$> l.*1)) as Hsub.
  { intros l'. induction l' as [|[r s] l' IH]; [constructor|]. cbn [omap list_omap]. unfold f at 1. cbn [fst snd]. destruct (mem (rq_anchor r) anchors); [by constructor|].
    rewrite !fmap_cons. by constructor. }
  intros H. by eapply sublist_NoDup; [|apply Hsub].
Qed.

Lemma elem_of_first_occurrences seen l id : id ∈ first_occurrences seen l <-> id ∈ l /\ id ∉ seen.
Proof.
  revert seen. induction l as [|x l IH]; intros seen; cbn [first_occurrences]; [rewrite elem_of_nil; tauto|]. destruct (mem x seen) eqn:E.
  - apply bool_decide_eq_true in E. rewrite IH, elem_of_cons. split; [tauto|]. intros [[->|H] Hn]; [done|tauto].
  - apply bool_decide_eq_false in E. rewrite !elem_of_cons, IH. destruct (decide (id = x)) as [->|]; [tauto|]. set_solver.
Qed.

Lemma strip_tokens s : estimate_text_tokens (strip is_space s) <= estimate_text_tokens s.
Proof.
  apply estimate_mono. unfold strip. destruct (lstrip_suffix is_space s) as (k & Hk). destruct (rstrip_decomp is_space (lstrip is_space s)) as (k' & Hk' & _).
  rewrite Hk at 2. rewrite Hk' at 2. rewrite !units_app. lia.
Qed.

Lemma bind_sublist (f : Message -> list Message) l : l `sublist_of` (l ≫= fun m => m :: f m).
Proof. induction l as [|m l IH]; [constructor|]. cbn. constructor. by apply sublist_inserts_l. Qed.

(** Records of the cumulative version are candidates, none is left for older archives. *)
Lemma candidates_of (L : list (pystr * checkpoint)) id uri : Forall (fun kc => ck_version kc.2 = CUMULATIVE_CHECKPOINT_VERSION) L ->
  let grouped := (fun kx => (kx.1, [kx.2])) <$> L in
  omap (fun kr => (fun c => (kr.1, chunk_of id uri c)) <$> cumulative kr.2) grouped = ((fun kc => (kc.1, chunk_of id uri kc.2)) <$> L)
  /\ fst <$> filter (fun kr => cumulative kr.2 = None) grouped = [].
Proof.
  induction 1 as [|[k c] L Hc _ [IH1 IH2]]; [done|]. cbn zeta in *. assert (cumulative [c] = Some c) as E by (unfold cumulative; rewrite filter_cons_True; [done|]; cbn in Hc; by rewrite Hc).
  split.
  - rewrite !fmap_cons. cbn [omap list_omap fst snd]. rewrite E. cbn [fmap option_fmap option_map]. f_equal. exact IH1.
  - rewrite fmap_cons, filter_cons_False; [exact IH2|]. cbn [fst snd]. by rewrite E.
Qed.

Lemma shown_versions anchors (l : list (checkpoint_request * pystr)) : Forall (fun kc => ck_version kc.2 = CUMULATIVE_CHECKPOINT_VERSION)
  (omap (fun rs => if mem (rq_anchor rs.1) anchors then Some (rq_anchor rs.1, shown_checkpoint rs.1 rs.2) else None) l).
Proof.
  apply Forall_forall. intros [k c] ((r & s) & _ & H)%list_elem_of_omap. cbn [fst snd] in H. destruct (mem _ _); [|done]. by injection H as _ <-.
Qed.

Section shown.
Context {F B : Type} {env : SessionEnv} {FS : SessionFS F}.
Context (session_uri : pystr).

Lemma insert_terminal_unfold (messages : list Message) (r : archive_ref) : messages <> [] ->
  insert_terminal_checkpoints (B := B) session_uri messages (Some r) =
    (meta ← read_archive_meta (ar_uri r);
     let grouped := checkpoint_records_for_anchors meta (m_id <$> messages) in
     let legacy_ids := fst <$> filter (fun kr => cumulative kr.2 = None) grouped in
     legacy ← (match legacy_ids with [] => mret [] | _ => get_effective_completed_checkpoints session_uri legacy_ids (Some (ar_index r + 1)%Z) end);
     mret (insert_checkpoints (foldl (fun d kc => dict_set d kc.1 kc.2)
       (omap (fun kr => (fun c => (kr.1, chunk_of (ar_id r) (ar_uri r) c)) <$> cumulative kr.2) grouped) legacy) messages)).
Proof. by destruct messages. Qed.

(** C33: a checkpoint is shown where it belongs.  When the newest settled archive holds the
    records that Phase 2 built, every retained question they are about is followed, in the
    context, by one checkpoint that names all messages it stands for, those of the earlier
    checkpoint of the turn included, with a summary within its budget; no older archive
    is read for it. *)
Theorem checkpoint_shown (requests : list checkpoint_request) (summaries : list pystr) (records : list pydict) (meta : pydict) (ref : archive_ref)
    (pre post : list Message) (m : Message) (r : checkpoint_request) (w w1 : world F B) :
  NoDup (rq_anchor <$> requests) -> Forall request_ok requests -> build_checkpoint_records requests summaries = Ok records ->
  read_archive_meta (ar_uri ref) w = (Ok meta, w1) -> dict_get meta (u "checkpoints") = Some (VList (VDict <$> records)) ->
  r ∈ requests -> m_id m = rq_anchor r ->
  exists before after abstract,
    insert_terminal_checkpoints session_uri (pre ++ m :: post) (Some ref) w
    = (Ok (before ++ m :: checkpoint_message (MkChunk (all_sources r) abstract (ar_id ref) (ar_uri ref)) m :: after), w1)
    /\ pre `sublist_of` before /\ post `sublist_of` after
    /\ nonempty abstract = true /\ (Z.of_N (estimate_text_tokens abstract) <= Z.max 1 (checkpoint_budget r))%Z
    /\ forall id, id ∈ all_sources r <-> id ∈ rq_previous_sources r \/ id ∈ rq_sources r.
Proof.
  intros Hnd Hok Hb Hmeta Hck Hr Hm. unfold build_checkpoint_records in Hb. destruct (Nat.eqb_spec (length summaries) (length requests)) as [Hl|]; [|done]. cbn [negb] in Hb.
  set (ms := pre ++ m :: post). set (L := omap (fun rs => if mem (rq_anchor rs.1) (m_id <$> ms) then Some (rq_anchor rs.1, shown_checkpoint rs.1 rs.2) else None) (zip requests summaries)).
  assert (NoDup L.*1) as HL by (apply shown_keys; by rewrite fst_zip by lia).
  set (candidates := (fun kc => (kc.1, chunk_of (ar_id ref) (ar_uri ref) kc.2)) <$> L).
  assert (insert_terminal_checkpoints session_uri ms (Some ref) w = (Ok (insert_checkpoints candidates ms), w1)) as ->.
  { rewrite insert_terminal_unfold by (unfold ms; by destruct pre). rewrite st_bind_unfold, Hmeta. cbn zeta.
    unfold checkpoint_records_for_anchors, get_or_none. rewrite Hck. cbn [default from_option id].
    rewrite (records_reread requests summaries records) by done. fold L.
    rewrite group_distinct by exact HL. cbn [app]. destruct (candidates_of L (ar_id ref) (ar_uri ref)) as [-> ->]; [|done]. apply shown_versions. }
  destruct (list_elem_of_lookup_1 _ _ Hr) as (i & Hi). destruct (lookup_lt_is_Some_2 summaries i) as (s & Hs); [rewrite Hl; by eapply lookup_lt_Some|].
  assert ((r, s) ∈ zip requests summaries) as Hin by (eapply list_elem_of_lookup_2, lookup_zip_Some; by split).
  assert ((rq_anchor r, shown_checkpoint r s) ∈ L) as HinL.
  { apply list_elem_of_omap. exists (r, s). split; [done|]. cbn [fst snd].
    assert (mem (rq_anchor r) (m_id <$> ms) = true) as ->; [|done]. apply bool_decide_eq_true_2. unfold ms. rewrite fmap_app, elem_of_app, fmap_cons, Hm. right. by left. }
  pose proof (proj1 (Forall_forall _ _) (records_visible _ _ _ Hb) _ Hin) as Hvis. cbn [fst snd] in Hvis.
  assert (dict_get candidates (m_id m) = Some (MkChunk (all_sources r) (shown_abstract r s) (ar_id ref) (ar_uri ref))) as Hget.
  { rewrite Hm. apply dict_get_in.
    - unfold candidates. rewrite <- list_fmap_compose. exact HL.
    - apply list_elem_of_fmap. exists (rq_anchor r, shown_checkpoint r s). by split. }
  set (g := fun m => m :: match dict_get candidates (m_id m) with Some c => if nonempty (ch_abstract c) then [checkpoint_message c m] else [] | None => [] end).
  exists (pre ≫= g), (post ≫= g), (shown_abstract r s). split_and!.
  - f_equal. f_equal. unfold insert_checkpoints, ms. rewrite bind_app, bind_cons. f_equal. rewrite Hget. cbn [ch_abstract]. by rewrite Hvis.
  - apply bind_sublist.
  - apply bind_sublist.
  - done.
  - unfold shown_abstract. set (t := truncate_text_to_token_budget _ _). pose proof (strip_tokens t) as H1. pose proof (truncate_within (strip is_space s) (Z.max 1 (checkpoint_budget r))) as H2.
    fold t in H2. lia.
  - intros id. unfold all_sources. rewrite elem_of_first_occurrences, elem_of_app, elem_of_nil. tauto.
Qed.
End shown.
