(* ===== verification/SessionContextRuns.v ===== *)
(** Contexts of sessions in memory: the theorems applied to a session with a pending
    archive, and a context that cannot be read. *)
From Stdlib Require Import NArith ZArith.
From S2P Require Import Prelude Effects PyStr PyVal WireJson Identifiers WorkIndex TaskRecord Tokens Message Retention ActiveBudget MemStore Overview OverviewRuns SessionPolicy SessionMeta Session SessionFiles SessionArchives SessionFrame SessionTheory SessionDelivery SessionRecovery SessionRuns SessionContext SessionContextTheory SessionCheckpoints.

Open Scope N_scope.

#[export] Instance steady_answers : AnsweringFS (entries := mem_entries).
Proof.
  split.
  - done.
  - intros uri f. cbn. destruct (bool_decide _); [left; by eexists|by right].
  - intros uri f. by eexists.
Qed.

(** The session of the recovered commit, loaded by a new object: one message is in the
    archive, two are live. *)
Definition loaded := (load suri acc usr (MkWorld fresh (w_fs run_recover.2) (w_back run_recover.2))).2.
Definition run_context := get_session_context suri clock 5 loaded.
Definition run_components := collect_session_context_components suri loaded.

Lemma context_within_budget_witness :
  exists cx, run_context.1 = Ok cx /\ (sc_estimated_tokens cx <= 5)%Z /\ length (sc_messages cx) = 3%nat.
Proof.
  destruct run_context.1 as [cx|e] eqn:E; [|by vm_compute in E]. exists cx. split; [done|].
  destruct (context_within_budget (files := mf_files) suri clock 5 loaded run_context.2 cx) as [(c & w1 & _ & _ & H) _].
  - rewrite <- E. apply surjective_pairing.
  - split; [apply H|]. assert (result_map := f_equal (fun r => match r with Ok cx => length (sc_messages cx) | Err _ => 0%nat end) E). cbn beta iota in result_map.
    rewrite <- result_map. by vm_compute.
Defined.

Definition only_ref : archive_ref := MkRef (u "archive_001") (archive_uri_of suri 1) 1.

Lemma loaded_short : short_dir (history_uri suri) (mem_entries (w_fs loaded)).
Proof. apply short_mem. by vm_compute. Qed.

Lemma listed_only r : listed (entries := mem_entries) suri (w_fs loaded) r -> r = only_ref.
Proof.
  destruct (refs_exact (files := mf_files) (entries := mem_entries) suri loaded loaded_short) as (refs & w' & E & _ & _ & H). rewrite <- H.
  assert ((list_archive_refs suri false loaded).1 = Ok [only_ref]) as E' by by vm_compute. rewrite E in E'. cbn [fst] in E'. injection E' as ->.
  apply list_elem_of_singleton.
Qed.

(** The archived message is in the context, before the live ones. *)
Lemma context_complete_witness :
  exists c, run_components.1 = Ok c /\ first_id ∈ (m_id <$> cx_messages c) /\ first_id ∉ (m_id <$> s_messages (w_self loaded)).
Proof.
  destruct run_components.1 as [c|e] eqn:E; [|by vm_compute in E]. exists c. split; [done|]. split; [|apply (bool_decide_eq_false_1 _); by vm_compute].
  destruct (context_complete (files := mf_files) (entries := mem_entries) suri loaded run_components.2 c) as (merged & ck & Hc & _ & _ & H).
  - apply loaded_short.
  - intros r r' Hr%listed_only Hr'%listed_only _. congruence.
  - rewrite <- E. apply surjective_pairing.
  - assert (first_id ∈ (m_id <$> merged)) as Hm.
    { apply H. right. exists only_ref. split; [|apply (bool_decide_eq_true_1 _); by vm_compute]. split.
      - destruct (refs_exact (files := mf_files) (entries := mem_entries) suri loaded loaded_short) as (refs & w' & E1 & _ & _ & Hl). apply Hl.
        assert ((list_archive_refs suri false loaded).1 = Ok [only_ref]) as E' by by vm_compute. rewrite E1 in E'. cbn [fst] in E'. injection E' as ->. by left.
      - intros r' ->%listed_only _. unfold settled. apply (bool_decide_eq_false_1 _). by vm_compute. }
    rewrite Hc. apply list_elem_of_fmap in Hm as (m & E1 & Hm). apply list_elem_of_fmap. exists m. split; [done|]. apply list_elem_of_bind. exists m. split; [by left|done].
Defined.

(** The store fails for a moment when the history is listed: the context is returned
    without the archived message. *)
Definition deaf_fs : SessionFS memfs := {|
  sf_read := mem_read false; sf_write := mem_write; sf_append := @sf_append memfs steady_fs; sf_exists := @sf_exists memfs steady_fs;
  sf_stat := @sf_stat memfs steady_fs; sf_mkdir := @sf_mkdir memfs steady_fs; sf_ls uri f := (Err OtherError, f);
  sf_lock := @sf_lock memfs steady_fs; sf_unlock := @sf_unlock memfs steady_fs |}.

Example failed_listing_hides_archives :
  (fun c => m_id <$> cx_messages c) <$> (collect_session_context_components (FS := deaf_fs) suri loaded).1 = Ok (m_id <$> s_messages (w_self loaded))
  /\ first_id ∉ (m_id <$> s_messages (w_self loaded)) /\ first_id ∈ archive_ids (files := mf_files) (w_fs loaded) (archive_uri_of suri 1).
Proof. split_and!; [by vm_compute|apply (bool_decide_eq_false_1 _); by vm_compute|apply (bool_decide_eq_true_1 _); by vm_compute]. Qed.

(** The overview of a completed archive with a header that is not closed: the context
    raises, although a missing overview only counts as a failed archive. *)
Definition broken_files : memfs :=
  put (archive_uri_of suri 1 ++ u "/.overview.md") (u "---" ++ [c_nl] ++ u "directory: x") (put (done_uri (archive_uri_of suri 1)) (u "{}") (w_fs loaded)).
Definition run_broken := get_session_context suri clock 100 (MkWorld (w_self loaded) broken_files no_back).

Example broken_overview_blocks_context : outcome run_broken.1 = Some ValueError.
Proof. by vm_compute. Qed.

(** ** A checkpoint *)

(** The turn of [q1] was split twice: an earlier checkpoint stands for [a1], the new one
    for [a1] and [a2]. *)
Definition split_request : checkpoint_request := MkRequest (u "q1") [u "a2"] 1000 100 (u "old") [u "a1"].
Definition split_records : list pydict := match build_checkpoint_records [split_request] [u " looked it up "] with Ok l => l | Err _ => [] end.
Definition split_meta : pydict := [(u "checkpoints", VList (VDict <$> split_records))].
Definition split_world : world memfs mem_back :=
  MkWorld fresh (put (archive_meta_uri (archive_uri_of suri 1)) (json_dumps (VDict split_meta)) empty_fs) no_back.
Definition question : Message := MkMsg (u "q1") (u "user") [TextPart (u "why?")] None (Some (u "t")) None None None.

Lemma checkpoint_shown_witness :
  exists before after abstract w1,
    insert_terminal_checkpoints suri [question; next_msg] (Some only_ref) split_world
    = (Ok (before ++ question :: checkpoint_message (MkChunk [u "a1"; u "a2"] abstract (u "archive_001") (archive_uri_of suri 1)) question :: after), w1).
Proof.
  destruct (checkpoint_shown suri [split_request] [u " looked it up "] split_records split_meta only_ref [] [next_msg] question split_request
    split_world (read_archive_meta (archive_uri_of suri 1) split_world).2) as (before & after & abstract & H & _).
  - apply NoDup_singleton.
  - constructor; [|done]. split; [by vm_compute|apply (bool_decide_eq_true_1 (Forall _ _)); by vm_compute].
  - by vm_compute.
  - by vm_compute.
  - reflexivity.
  - by left.
  - reflexivity.
  - exists before, after, abstract, (read_archive_meta (archive_uri_of suri 1) split_world).2. exact H.
Defined.
